(* ===== verification/_CoqProject ===== *)
-Q . S2P
Prelude.v
Memory.v
Params.v
State.v
CString.v
Riscv.v
Spinlock.v
Sched.v
Uart.v
Kalloc.v
Vm.v
Console.v
PageTable.v
VmMap.v
Uvm.v
UvmAlloc.v
UvmCopy.v
Freewalk.v
VmExample.v
Block.v
Bio.v
BioList.v
BioInv.v
BioSpec.v
BioInit.v
Log.v
LogRun.v
LogHead.v
LogCommit.v
LogOps.v
LogExample.v
Fs.v
Pipe.v
File.v
Proc.v
Exec.v
Sysproc.v
Sysfile.v
Virtio.v
Trap.v
Boot.v
PipeSpec.v
ConsSpec.v
SchedSpec.v
VirtioSpec.v
Tx.v
FsAlloc.v
FsInode.v
FsFile.v
FsRead.v
FsWrite.v
FsExample.v
FsTable.v
FsPath.v
PrintSpec.v
Asm.v
AsmSpec.v
User.v
Ulib.v
Grep.v
Programs.v
ProgramSpec.v
Grind.v
Sh.v
ShParse.v
ShRun.v
Mkfs.v
MkfsSpec.v
Umalloc.v
UmallocSpec.v
UmallocRun.v
UtFile.v
UtProc.v
UtMain.v
Disc.v
DiscFs.v
DiscSys.v
System.v
UserSys.v
UtRun.v
