(* ===== verification/Prelude.v ===== *)
(** * A verification development of xv6 for RISC-V

    xv6 is a Unix-like kernel in C (kernel/), with a C library and programs that
    run on it (user/) and a tool that builds its disk image (mkfs/).  This
    library translates the C code to Rocq functions and proves what makes each
    part correct.

    ** The machine of the model

    Prelude.v (this file) has the integers of C as elements of [Z] with the
    wrap-around written out, and the monad of kernel code: a computation maps a
    state to an [outcome], which is [Done] with a value, [Panic] with the message
    of panic(), [Swtch] with the rest of the thread when it gives up the
    processor in sched(), or [OutOfFuel].  Memory.v has the physical memory as
    a map from addresses to bytes, Params.v the constants of the headers and the
    arithmetic of addresses and page table entries, and State.v the structures of
    the kernel and the state [kst] that holds its global variables.  A pointer
    to an element of a table is its index, a null pointer is [None] or 0.

    Code runs as one kernel thread with the locks it holds in [k_held]: acquire
    of a lock that is held is the panic or the deadlock it is in C.  A thread
    that holds a lock has interrupts off, noff is the number of its locks, and
    the enable bit of sstatus is then the saved intena; turning interrupts on
    nevertheless leaves the mark [LIntr] on the locks, which makes release and
    sched panic as they do in C (Riscv.v, Sched.v).  Other
    threads act when the thread sleeps or is switched away, at a [Swtch]; what
    excludes them elsewhere is the spin lock, which Spinlock.v models with all
    harts and interrupts interleaved.

    ** Files, sources and theorems

    - CString.v: kernel/string.c.  Riscv.v: control registers, interrupts on and
      off, noff and intena.
    - Spinlock.v: kernel/spinlock.c as a step relation over harts; mutual
      exclusion for every interleaving, refinement of an atomic lock, matched
      push_off and pop_off.
    - Sched.v, SchedSpec.v: sleep, wakeup, kill, sched and sleep locks
      (kernel/proc.c, kernel/sleeplock.c), and a round of the scheduler.
    - Kalloc.v: kernel/kalloc.c; the free list is exactly the free pages.
    - Vm.v: kernel/vm.c.  PageTable.v, VmMap.v, Uvm.v, UvmAlloc.v, UvmCopy.v,
      Freewalk.v: the owner of every page, the invariant [uvm_ok]
      that tables and pages are disjoint, and the effect of each operation on the
      view [uview] of an address space; VmExample.v is a state that has it.
    - Block.v: fields in byte arrays.  Bio.v, BioList.v, BioInv.v, BioSpec.v,
      BioInit.v: kernel/bio.c, the list in order of use, and the refinement [Rep]
      of an abstract cache (contents, references, holders, disk).
    - Log.v, LogRun.v, LogHead.v, LogCommit.v, LogOps.v, LogExample.v:
      kernel/log.c; a crash between any two block writes of commit or recovery
      leaves a disk from which recovery makes all or nothing of a transaction.
    - Fs.v: kernel/fs.c.  Tx.v: what log and buffer cache promise inside a
      transaction, the only facts the proofs about fs.c use of them.  FsAlloc.v:
      the block allocator; FsInode.v: inodes on disk; FsFile.v: the block map;
      FsRead.v, FsWrite.v: readi and writei on the bytes of a file; FsTable.v:
      the inode table; FsPath.v: path names; FsExample.v: a disk and the theorems
      on it.
    - Pipe.v, PipeSpec.v: kernel/pipe.c; pipes refine queues.
    - File.v: kernel/file.c.  Proc.v: processes (kernel/proc.c).  Exec.v:
      kernel/exec.c.  Sysproc.v, Sysfile.v: system calls.  Trap.v: kernel/trap.c
      and the dispatch of kernel/syscall.c.  Boot.v: kernel/start.c and
      kernel/main.c.
    - Uart.v, Console.v: kernel/uart.c, kernel/printf.c, kernel/console.c and the
      copies between user and kernel of kernel/proc.c.  ConsSpec.v: the console's
      input is a line editor, with the list of processes for control-P, its output
      a queue.  PrintSpec.v: printint.
    - Virtio.v, VirtioSpec.v: kernel/virtio_disk.c and kernel/plic.c; a request
      has the effect that the interface [DiskRw] of the buffer cache asks for.

    - Asm.v: the instructions of kernel/trampoline.S, kernel/swtch.S,
      kernel/kernelvec.S and kernel/entry.S, and user/initcode.S assembled.
      AsmSpec.v: traps and the return from them keep the registers of the
      program, swtch resumes a thread, interrupts are transparent.
    - User.v: user programs as trees of the calls of user/user.h, the worlds that
      answer them, and process trees.  Ulib.v: user/ulib.c and user/printf.c.
    - Umalloc.v: user/umalloc.c.  UmallocSpec.v: the ring of free blocks and what
      free does to it; UmallocRun.v: the heap of a program, kept by malloc and
      free.
    - Grep.v: user/grep.c; the matcher decides its patterns, and grep prints the
      matching lines.  Programs.v: the small programs of user/, from cat to
      forktest; ProgramSpec.v: cat, wc, xargs and primes.  Grind.v:
      user/grind.c and its random numbers.
    - Sh.v: user/sh.c.  ShParse.v: the parser ends, and undoes the printing of a
      command; ShRun.v: which files and pipes the commands of a line get.
    - Mkfs.v: mkfs/mkfs.c.  MkfsSpec.v: the image is a file system with the
      given files, in the terms of FsInode.v and FsRead.v.

    - UtFile.v, UtProc.v, UtMain.v: user/usertests.c, the tests of files and
      directories, of processes, pointers and memory, and the runner with its
      verdict.

    ** The parts together

    - Disc.v: the discipline of locks as a predicate on outcomes, and its triples:
      [qt] for code that keeps the processor, [bt] for code that may give it up.
      DiscFs.v and DiscSys.v go on from there: a triple for every function
      of the kernel that a process can get to, up to the traps.
    - System.v: the scheduler with the kernel's threads on a hart, and user
      programs that do anything between traps; no panic about locks or about
      interrupts that are on while one is held, and fair rounds.
    - UserSys.v: the programs of User.v on the kernel, with the stubs of
      user/usys.pl; a system call is a trap that the kernel's code handles.
      UtRun.v: a machine with memory and a disk on which tests of usertests run
      and pass.

    A name ending in [_spec] is a property; a name ending in [_run] says what a
    function returns and in which state; a [_witness] applies a property to a
    concrete state that satisfies its hypotheses.

    ** Fuel

    Loops that are not over a list or a table take fuel.  Where the loop is
    bounded, its caller passes enough and the theorem shows that it suffices
    (a copy of [len] bytes has at most [len] iterations, a path as many elements
    as characters, readi and writei a block per iteration).  Loops that wait for
    another thread or for a device take [wait_fuel], a parameter: the theorems
    hold for every value of it, and where code that must not sleep polls the
    UART for every value in which the device becomes ready.  The shell's parser takes four times the length
    of the line, which is shown to be enough for every line; the filters take
    more than the length of their input; malloc and free take a multiple of the
    length of the free list.  The programs that run for ever (init, grind, some
    tests of usertests) take a number of rounds.  The scheduler takes a number of
    rounds as well: the theorems of System.v hold for each, and eight are enough
    for the tests that UtRun.v evaluates.

    ** Parameters

    The addresses that the linker fixes ([KernelImage]), the disk behind the
    buffer cache ([DiskRw], with its effect as a law), the UART while it is
    polled ([UartDev]: it may finish sending, and characters may arrive) and of the virtio device ([VirtioRegs], [VirtioDevice]).  For user
    programs the answers of the kernel: how much a read returns at a time
    ([Grain]), what sbrk does ([Sbrk]), which files can be opened; for mkfs the
    files of the host; for the assembly the page tables, as a function from satp
    and an address to a physical address.

    ** Not modelled

    - the point where the C code of the kernel meets the assembly: swtch is the
      outcome [Swtch] of kernel code, usertrapret ends with the arguments of
      userret, and the theorems about the assembly take what the C code does in
      between as any change that keeps the stack or the trapframe.
    - kernel/ramdisk.c: not part of the build, and it names fields that do not
      exist.
    - user programs run one process at a time in the worlds of User.v: a child
      runs to its end before its parent goes on, which the programs that are
      proved there allow.  In UserSys.v the kernel's scheduler decides.
    - the instructions of user programs: a program is the calls it makes, and one
      that [exec] starts ends a run of UserSys.v.  System.v allows any change of
      memory, registers and devices between traps instead.
    - interrupts in the middle of kernel code: [kerneltrap] has its triple, but in
      System.v interrupts come between the traps of user programs.
    - the push_off and pop_off of myproc and uartputc_sync, which do not belong to
      a lock: they are matched, and the code between them does not look at the
      interrupt bit.
    - that an inode with one reference is not locked, on which [iput] relies: it is
      the exception that the discipline of locks names.
    - kernel/defs.h and the other headers of prototypes, and the build files.
    - memory ordering: the fences of the spin lock are taken to order what they
      say they order; threads interleave at the steps of Spinlock.v. *)

From Stdlib Require Export ZArith Lia.
From stdpp Require Export base gmap numbers strings option list.

#[global] Open Scope Z_scope.
#[global] Set Default Goal Selector "!".

(** ** Machine integers

    C integers are elements of [Z] kept in range by an explicit wrap-around at
    every operation that can leave the range. *)

Definition u8 (x : Z) : Z := x mod 2 ^ 8.
Definition u16 (x : Z) : Z := x mod 2 ^ 16.
Definition u32 (x : Z) : Z := x mod 2 ^ 32.
Definition u64 (x : Z) : Z := x mod 2 ^ 64.

(** Two's complement reading of the low bits: the conversion to [short] and
    to [int]. *)
Definition i16 (x : Z) : Z := (x + 2 ^ 15) mod 2 ^ 16 - 2 ^ 15.
Definition i32 (x : Z) : Z := (x + 2 ^ 31) mod 2 ^ 32 - 2 ^ 31.

Lemma u8_bound x : 0 <= u8 x < 256.
Proof. apply (Z.mod_pos_bound x 256). lia. Qed.
Lemma u16_bound x : 0 <= u16 x < 65536.
Proof. apply (Z.mod_pos_bound x 65536). lia. Qed.
Lemma u32_bound x : 0 <= u32 x < 4294967296.
Proof. apply (Z.mod_pos_bound x 4294967296). lia. Qed.
Lemma u64_bound x : 0 <= u64 x < 2 ^ 64.
Proof. apply Z.mod_pos_bound. lia. Qed.
Lemma u8_small x : 0 <= x < 256 → u8 x = x.
Proof. apply Z.mod_small. Qed.
Lemma u16_small x : 0 <= x < 65536 → u16 x = x.
Proof. apply Z.mod_small. Qed.
Lemma u32_small x : 0 <= x < 4294967296 → u32 x = x.
Proof. apply Z.mod_small. Qed.
Lemma u64_small x : 0 <= x < 2 ^ 64 → u64 x = x.
Proof. apply Z.mod_small. Qed.
Lemma i32_add x y : i32 (i32 x + y) = i32 (x + y).
Proof.
  unfold i32. f_equal. replace ((x + 2 ^ 31) mod 2 ^ 32 - 2 ^ 31 + y + 2 ^ 31) with ((x + 2 ^ 31) mod 2 ^ 32 + y) by lia.
  rewrite Z.add_mod_idemp_l by done. f_equal. lia.
Qed.

Lemma i32_small x : -2147483648 <= x < 2147483648 → i32 x = x.
Proof. intros. unfold i32. rewrite Z.mod_small; lia. Qed.
Lemma i16_small x : -32768 <= x < 32768 → i16 x = x.
Proof. intros. unfold i16. rewrite Z.mod_small; lia. Qed.

Create HintDb xv6.
Create Rewrite HintDb kst.
#[export] Hint Resolve u8_bound u16_bound u32_bound u64_bound : xv6.

(** ** Lists *)

Lemma Forall_elem {A} (P : A → Prop) (l : list A) x : Forall P l → x ∈ l → P x.
Proof. intros H. by apply (proj1 (list.Forall_forall P l) H). Qed.

(** ** Results of a kernel computation

    A kernel function runs on a state.  It returns a value ([Done]), calls
    [panic] ([Panic]), or calls [swtch] to give up the CPU ([Swtch]): then the
    outcome holds the state at the switch and the continuation that the
    scheduler resumes with the state it finds at that time.  [OutOfFuel]
    marks a wait loop whose bound on wakeups is used up. *)
Inductive outcome (S A : Type) : Type :=
| Done (a : A) (s : S)
| Panic (msg : string) (s : S)
| Swtch (s : S) (k : S → outcome S A)
| OutOfFuel.
Arguments Done {S A} _ _.
Arguments Panic {S A} _ _.
Arguments Swtch {S A} _ _.
Arguments OutOfFuel {S A}.

Definition M (S A : Type) : Type := S → outcome S A.

Fixpoint obind {S A B} (o : outcome S A) (f : A → M S B) : outcome S B :=
  match o with
  | Done a s => f a s
  | Panic msg s => Panic msg s
  | Swtch s k => Swtch s (λ s', obind (k s') f)
  | OutOfFuel => OutOfFuel
  end.

#[global] Instance M_ret S : MRet (M S) := λ A a s, Done a s.
#[global] Instance M_bind S : MBind (M S) := λ A B f m s, obind (m s) f.

Definition panic {S A} (msg : string) : M S A := λ s, Panic msg s.
Definition gets {S A} (f : S → A) : M S A := λ s, Done (f s) s.
Definition modify {S} (f : S → S) : M S unit := λ s, Done tt (f s).
Definition out_of_fuel {S A} : M S A := λ _, OutOfFuel.

(** [if(c) m;] with no else branch. *)
Definition when {S} (c : bool) (m : M S unit) : M S unit :=
  if c then m else mret tt.

(** The loop [for(i = lo; i < lo + n; i++) body(i)]. *)
Fixpoint for_each {S} (n : nat) (i : Z) (body : Z → M S unit) : M S unit :=
  match n with
  | O => mret tt
  | Datatypes.S n => body i;; for_each n (i + 1) body
  end.

(** The loop [for(i = lo; i < lo + n; i++) body(i)] whose body may return
    from the enclosing function ([Some]) or go on ([None]). *)
Fixpoint for_find {S A} (n : nat) (i : Z) (body : Z → M S (option A)) : M S (option A) :=
  match n with
  | O => mret None
  | Datatypes.S n =>
      r ← body i;
      match r with
      | Some a => mret (Some a)
      | None => for_find n (i + 1) body
      end
  end.

Lemma bind_Done {S A B} (m : M S A) (f : A → M S B) s a s' :
  m s = Done a s' → (m ≫= f) s = f a s'.
Proof. intros H. unfold mbind, M_bind. by rewrite H. Qed.

Lemma bind_Panic {S A B} (m : M S A) (f : A → M S B) s msg s' :
  m s = Panic msg s' → (m ≫= f) s = Panic msg s'.
Proof. intros H. unfold mbind, M_bind. by rewrite H. Qed.

Lemma bind_Swtch {S A B} (m : M S A) (f : A → M S B) s s' k :
  m s = Swtch s' k → (m ≫= f) s = Swtch s' (λ x, obind (k x) f).
Proof. intros H. unfold mbind, M_bind. by rewrite H. Qed.

Lemma bind_Done_inv {S A B} (m : M S A) (f : A → M S B) s b s' :
  (m ≫= f) s = Done b s' →
  ∃ a s1, m s = Done a s1 ∧ f a s1 = Done b s'.
Proof.
  unfold mbind, M_bind. destruct (m s) as [a s1|msg s1|s1 k|] eqn:E; simpl; intros H;
    try discriminate.
  exists a, s1. by rewrite <- H.
Qed.

(** The invariant rule for a loop whose body always returns. *)
Lemma for_each_inv {S} (P : Z → S → Prop) n lo (body : Z → M S unit) s :
  P lo s →
  (∀ i s, lo <= i < lo + Z.of_nat n → P i s → ∃ s', body i s = Done tt s' ∧ P (i + 1) s') →
  ∃ s', for_each n lo body s = Done tt s' ∧ P (lo + Z.of_nat n) s'.
Proof.
  revert lo s. induction n as [|n IH]; intros lo s H0 Hstep; cbn [for_each].
  - exists s. split; [done|]. by rewrite Z.add_0_r.
  - destruct (Hstep lo s ltac:(lia) H0) as (s1 & H1 & HP1).
    rewrite (bind_Done _ _ _ _ _ H1).
    destruct (IH (lo + 1) s1 HP1) as (s' & H2 & HP2).
    + intros i s2 Hi. apply Hstep. lia.
    + exists s'. split; [done|]. by rewrite Nat2Z.inj_succ, <- Z.add_1_l, Z.add_assoc.
Qed.

(** A search whose body changes nothing until it finds [i]. *)
Lemma for_find_first {S A} n lo (body : Z → M S (option A)) s i a s' :
  lo <= i < lo + Z.of_nat n → (∀ j, lo <= j < i → body j s = Done None s) →
  body i s = Done (Some a) s' → for_find n lo body s = Done (Some a) s'.
Proof.
  revert lo. induction n as [|n IH]; intros lo Hi Hno Hyes; [lia|]. cbn [for_find].
  destruct (decide (i = lo)) as [->|Hne].
  - by rewrite (bind_Done _ _ _ _ _ Hyes).
  - rewrite (bind_Done _ _ _ _ _ (Hno lo ltac:(lia))). apply IH; [lia| |done]. intros j Hj. apply Hno. lia.
Qed.

Lemma for_find_none {S A} n lo (body : Z → M S (option A)) s :
  (∀ j, lo <= j < lo + Z.of_nat n → body j s = Done None s) → for_find n lo body s = Done None s.
Proof.
  revert lo. induction n as [|n IH]; intros lo Hno; [done|]. cbn [for_find].
  rewrite (bind_Done _ _ _ _ _ (Hno lo ltac:(lia))). apply IH. intros j Hj. apply Hno. lia.
Qed.

(** A search with an invariant: the body goes on with it or finds an answer. *)
Lemma for_find_inv {S A} (P : Z → S → Prop) (Q : A → S → Prop) n lo (body : Z → M S (option A)) s :
  P lo s →
  (∀ i s, lo <= i < lo + Z.of_nat n → P i s →
    (∃ s', body i s = Done None s' ∧ P (i + 1) s') ∨ (∃ a s', body i s = Done (Some a) s' ∧ Q a s')) →
  (∃ s', for_find n lo body s = Done None s' ∧ P (lo + Z.of_nat n) s') ∨
  (∃ a s', for_find n lo body s = Done (Some a) s' ∧ Q a s').
Proof.
  revert lo s. induction n as [|n IH]; intros lo s H0 Hstep; cbn [for_find].
  - left. exists s. split; [done|]. by rewrite Z.add_0_r.
  - destruct (Hstep lo s ltac:(lia) H0) as [(s1 & H1 & HP1)|(a & s1 & H1 & HQ)].
    + rewrite (bind_Done _ _ _ _ _ H1). destruct (IH (lo + 1) s1 HP1) as [(s' & E & HP)|Hfound].
      * intros i s2 Hi. apply Hstep. lia.
      * left. exists s'. split; [exact E|]. by rewrite Nat2Z.inj_succ, <- Z.add_1_l, Z.add_assoc.
      * by right.
    + right. exists a, s1. split; [|exact HQ]. by rewrite (bind_Done _ _ _ _ _ H1).
Qed.

(** A test holds for all indices of a range, or there is a first one where it
    does not. *)
Lemma all_or_first (P : Z → bool) n lo :
  (∀ j, lo <= j < lo + Z.of_nat n → P j = true) ∨
  (∃ i, lo <= i < lo + Z.of_nat n ∧ P i = false ∧ ∀ j, lo <= j < i → P j = true).
Proof.
  revert lo. induction n as [|n IH]; intros lo; [left; lia|].
  destruct (P lo) eqn:E; [|right; exists lo; split_and!; [lia..|done|lia]].
  destruct (IH (lo + 1)) as [Hall|(i & Hi & Hf & Hj)].
  - left. intros j Hj. destruct (decide (j = lo)) as [->|]; [done|]. apply Hall. lia.
  - right. exists i. split_and!; [lia..|done|]. intros j ?. destruct (decide (j = lo)) as [->|]; [done|]. apply Hj. lia.
Qed.

(** The first index that satisfies a predicate, and those behind it. *)
Lemma filter_seq_head (P : nat → Prop) `{∀ x, Decision (P x)} n a i r :
  filter P (seq a n) = i :: r → (a <= i < a + n)%nat ∧ P i ∧ (∀ j, (a <= j < i)%nat → ¬ P j).
Proof.
  revert a. induction n as [|n IH]; intros a; [done|]. cbn [seq].
  destruct (decide (P a)) as [Ha|Ha].
  - rewrite filter_cons_True by done. intros [= <- _]. split_and!; [lia..|done|lia].
  - rewrite filter_cons_False by done. intros Hi. destruct (IH _ Hi) as (? & ? & Hj). split_and!; [lia..|done|].
    intros j Hlt. destruct (decide (j = a)) as [->|]; [done|]. apply Hj. lia.
Qed.

(** [run_step] unfolds one bind whose first computation has a known outcome. *)
Ltac run_step H := erewrite bind_Done; [| exact H]; cbn beta iota.
Tactic Notation "run_by" tactic3(tac) := erewrite bind_Done; [| tac]; cbn beta iota.

(** Inversion of a computation that is known to have returned. *)
Ltac inv_done H :=
  match type of H with
  | (_ ≫= _) _ = Done _ _ =>
      let a := fresh "a" in
      let s := fresh "s" in
      let H1 := fresh "Hrun" in
      apply bind_Done_inv in H; destruct H as (a & s & H1 & H)
  end.

(** ** Splitting lists of characters *)

(** The parts of [l] between the characters [sep]. *)
Fixpoint split_on (sep : Z) (l : list Z) : list (list Z) :=
  match l with
  | [] => [[]]
  | c :: l => if c =? sep then [] :: split_on sep l
              else match split_on sep l with
                   | e :: r => (c :: e) :: r
                   | [] => [[c]]
                   end
  end.

Lemma split_app sep e l : Forall (λ c, c ≠ sep) e → split_on sep (e ++ sep :: l) = e :: split_on sep l.
Proof.
  induction 1 as [|c e Hc _ IH]; simpl; [by rewrite Z.eqb_refl|]. by rewrite (proj2 (Z.eqb_neq _ _) Hc), IH.
Qed.

Lemma split_last sep e : Forall (λ c, c ≠ sep) e → split_on sep e = [e].
Proof. induction 1 as [|c e Hc _ IH]; simpl; [done|]. by rewrite (proj2 (Z.eqb_neq _ _) Hc), IH. Qed.

Lemma split_on_nonempty sep l : split_on sep l ≠ [].
Proof. destruct l as [|c l]; simpl; [done|]. destruct (c =? sep); [done|]. by destruct (split_on sep l). Qed.

Lemma split_on_elem sep l e : e ∈ split_on sep l → Forall (λ c, c ≠ sep) e.
Proof.
  revert e. induction l as [|c l IH]; simpl; intros e He.
  - apply list_elem_of_singleton in He as ->. constructor.
  - destruct (Z.eqb_spec c sep) as [->|Hc].
    + apply elem_of_cons in He as [->|He]; [constructor|by apply IH].
    + destruct (split_on sep l) as [|e0 r]; [apply list_elem_of_singleton in He as ->; by repeat constructor|].
      apply elem_of_cons in He as [->|He]; [constructor; [done|apply IH; left]|apply IH; by right].
Qed.

(** The terminated lines of a text, and what follows the last one. *)
Definition lines_of (sep : Z) (x : list Z) : list (list Z) := removelast (split_on sep x).
Definition tail_of (sep : Z) (x : list Z) : list Z := List.last (split_on sep x) [].

(** Induction over the lines of a text. *)
Lemma lines_ind sep (P : list Z → Prop) :
  (∀ e, Forall (λ c, c ≠ sep) e → P e) → (∀ e r, Forall (λ c, c ≠ sep) e → P r → P (e ++ sep :: r)) → ∀ x, P x.
Proof.
  intros H0 H1 x. enough (∀ e, Forall (λ c, c ≠ sep) e → P (e ++ x)) as H by exact (H [] (Forall_nil_2 _)).
  induction x as [|c x IH]; intros e He; [rewrite app_nil_r; auto|].
  destruct (decide (c = sep)) as [->|Hc]; [apply H1; [done|]; exact (IH [] (Forall_nil_2 _))|].
  rewrite cons_middle, app_assoc. apply IH. apply Forall_app; auto.
Qed.

Lemma lines_last sep e : Forall (λ c, c ≠ sep) e → lines_of sep e = [] ∧ tail_of sep e = e.
Proof. intros He. unfold lines_of, tail_of. by rewrite split_last. Qed.

Lemma lines_app sep e r : Forall (λ c, c ≠ sep) e →
  lines_of sep (e ++ sep :: r) = e :: lines_of sep r ∧ tail_of sep (e ++ sep :: r) = tail_of sep r.
Proof.
  intros He. unfold lines_of, tail_of. rewrite split_app by done. pose proof (split_on_nonempty sep r).
  by destruct (split_on sep r).
Qed.

Lemma tail_of_clean sep x : Forall (λ c, c ≠ sep) (tail_of sep x).
Proof.
  induction x as [e He|e r He IH] using (lines_ind sep); [by destruct (lines_last sep e He) as [_ ->]|].
  by destruct (lines_app sep e r He) as [_ ->].
Qed.

(** Text that arrives in two parts. *)
Lemma split_on_app sep x y : split_on sep (x ++ y) = lines_of sep x ++ split_on sep (tail_of sep x ++ y).
Proof.
  induction x as [e He|e r He IH] using (lines_ind sep); [by destruct (lines_last sep e He) as [-> ->]|].
  destruct (lines_app sep e r He) as [-> ->]. rewrite <- app_assoc. simpl. by rewrite split_app, IH.
Qed.

Lemma lines_of_app sep x y : lines_of sep (x ++ y) = lines_of sep x ++ lines_of sep (tail_of sep x ++ y).
Proof. unfold lines_of at 1. rewrite split_on_app, removelast_app by apply split_on_nonempty. done. Qed.

Lemma split_on_head sep e y : Forall (λ c, c ≠ sep) e → ∃ e' r, split_on sep (e ++ y) = (e ++ e') :: r.
Proof.
  induction 1 as [|c e Hc _ (e'&r&IH)]; simpl.
  - pose proof (split_on_nonempty sep y). destruct (split_on sep y); [done|eauto].
  - rewrite (proj2 (Z.eqb_neq _ _) Hc), IH. eauto.
Qed.

Lemma split_lines sep x : split_on sep x = lines_of sep x ++ [tail_of sep x].
Proof. apply app_removelast_last, split_on_nonempty. Qed.

Lemma tail_of_app sep x y : tail_of sep (x ++ y) = tail_of sep (tail_of sep x ++ y).
Proof. unfold tail_of at 1. rewrite split_on_app, (split_lines sep (_ ++ y)), app_assoc. apply last_last. Qed.

(** One more character. *)
Lemma lines_snoc sep x c :
  lines_of sep (x ++ [c]) = lines_of sep x ++ (if decide (c = sep) then [tail_of sep x] else []) ∧
  tail_of sep (x ++ [c]) = (if decide (c = sep) then [] else tail_of sep x ++ [c]).
Proof.
  pose proof (tail_of_clean sep x) as Hc. rewrite lines_of_app, tail_of_app. case_decide as Hd; [subst c|].
  - by destruct (lines_app sep _ [] Hc) as [-> ->].
  - by destruct (lines_last sep (tail_of sep x ++ [c])) as [-> ->]; [apply Forall_app; by repeat constructor|].
Qed.
