(* ===== verification/Memory.v ===== *)
(** * Byte-addressed memory and little-endian encodings

    Physical memory as a finite map from addresses to bytes, the words that
    the kernel loads from and stores to it, and the little-endian encoding
    that on-disk structures and page-table entries share. *)

From S2P Require Import Prelude.

Abbreviation mem := (gmap Z Z).

(** A byte never written reads as 0; no theorem relies on it. *)
Definition rd (m : mem) (a : Z) : Z := u8 (default 0 (m !! a)).
Definition wr (m : mem) (a v : Z) : mem := <[a := u8 v]> m.

Fixpoint read_bytes (m : mem) (a : Z) (n : nat) : list Z :=
  match n with
  | O => []
  | S n => rd m a :: read_bytes m (a + 1) n
  end.

Fixpoint write_bytes (m : mem) (a : Z) (l : list Z) : mem :=
  match l with
  | [] => m
  | b :: l => write_bytes (wr m a b) (a + 1) l
  end.

Fixpoint le_enc (n : nat) (v : Z) : list Z :=
  match n with
  | O => []
  | S n => v mod 256 :: le_enc n (v / 256)
  end.

Fixpoint le_dec (l : list Z) : Z :=
  match l with
  | [] => 0
  | b :: l => b + 256 * le_dec l
  end.

Definition load64 (m : mem) (a : Z) : Z := le_dec (read_bytes m a 8).
Definition store64 (m : mem) (a v : Z) : mem := write_bytes m a (le_enc 8 v).

Definition is_byte (b : Z) : Prop := 0 <= b < 256.

(** ** Single bytes *)

Lemma rd_byte m a : is_byte (rd m a).
Proof. apply u8_bound. Qed.

Lemma rd_wr m a v x : rd (wr m a v) x = if decide (a = x) then u8 v else rd m x.
Proof.
  unfold rd, wr. rewrite lookup_insert. case_decide; [|done].
  simpl. apply u8_small, u8_bound.
Qed.

Lemma rd_wr_ne m a v x : a ≠ x → rd (wr m a v) x = rd m x.
Proof. intros. rewrite rd_wr. by rewrite decide_False. Qed.

Lemma rd_wr_eq m a v : rd (wr m a v) a = u8 v.
Proof. rewrite rd_wr. by rewrite decide_True. Qed.

(** ** Runs of bytes *)

Lemma length_read_bytes m a n : length (read_bytes m a n) = n.
Proof. revert a. induction n as [|n IH]; intros a; simpl; [done|]. by rewrite IH. Qed.

Lemma read_bytes_byte m a n : Forall is_byte (read_bytes m a n).
Proof.
  revert a. induction n as [|n IH]; intros a; constructor; [apply rd_byte|apply IH].
Qed.

Lemma lookup_read_bytes m a n i :
  (i < n)%nat → read_bytes m a n !! i = Some (rd m (a + Z.of_nat i)).
Proof.
  revert a i. induction n as [|n IH]; intros a i Hi; [lia|].
  destruct i as [|i]; simpl.
  - do 2 f_equal. lia.
  - rewrite IH by lia. do 2 f_equal. lia.
Qed.

Lemma read_bytes_ext m m' a n :
  (∀ x, a <= x < a + Z.of_nat n → rd m x = rd m' x) →
  read_bytes m a n = read_bytes m' a n.
Proof.
  revert a. induction n as [|n IH]; intros a H; [done|]. simpl.
  f_equal; [apply H; lia|]. apply IH. intros. apply H. lia.
Qed.

Lemma read_bytes_app m a n1 n2 :
  read_bytes m a (n1 + n2) = read_bytes m a n1 ++ read_bytes m (a + Z.of_nat n1) n2.
Proof.
  revert a. induction n1 as [|n1 IH]; intros a; simpl.
  - f_equal. lia.
  - rewrite IH. do 2 f_equal. f_equal. lia.
Qed.

Lemma rd_write_bytes m a l x :
  rd (write_bytes m a l) x =
    if decide (a <= x < a + Z.of_nat (length l))
    then u8 (l !!! Z.to_nat (x - a)) else rd m x.
Proof.
  revert m a. induction l as [|b l IH]; intros m a; simpl write_bytes.
  - rewrite decide_False; [done|]. simpl. lia.
  - rewrite IH. simpl length. destruct (decide (a + 1 <= x < a + 1 + Z.of_nat (length l))) as [H|H].
    + rewrite decide_True by lia.
      replace (Z.to_nat (x - a)) with (S (Z.to_nat (x - (a + 1)))) by lia. done.
    + rewrite rd_wr. case_decide as E.
      * subst. rewrite decide_True by lia. by replace (x - x) with 0 by lia.
      * rewrite decide_False by lia. done.
Qed.

Lemma rd_write_bytes_out m a l x :
  x < a ∨ a + Z.of_nat (length l) <= x → rd (write_bytes m a l) x = rd m x.
Proof. intros. rewrite rd_write_bytes. rewrite decide_False; [done|lia]. Qed.

Lemma read_write_bytes_same m a l :
  Forall is_byte l → read_bytes (write_bytes m a l) a (length l) = l.
Proof.
  intros Hl. apply list_eq. intros i.
  destruct (decide (i < length l)%nat) as [Hi|Hi].
  - rewrite lookup_read_bytes by done. rewrite rd_write_bytes.
    rewrite decide_True by lia.
    replace (Z.to_nat (a + Z.of_nat i - a)) with i by lia.
    destruct (lookup_lt_is_Some_2 l i Hi) as [b Hb].
    rewrite (list_lookup_total_correct _ _ _ Hb), Hb. f_equal.
    apply u8_small. by eapply Forall_lookup_1 in Hl.
  - rewrite !lookup_ge_None_2; [done|lia|rewrite length_read_bytes; lia].
Qed.

Lemma read_write_bytes_disjoint m a l b n :
  b + Z.of_nat n <= a ∨ a + Z.of_nat (length l) <= b →
  read_bytes (write_bytes m a l) b n = read_bytes m b n.
Proof. intros. apply read_bytes_ext. intros x Hx. apply rd_write_bytes_out. lia. Qed.

(** ** Little-endian encoding *)

Lemma length_le_enc n v : length (le_enc n v) = n.
Proof. revert v. induction n as [|n IH]; intros v; simpl; [done|]. by rewrite IH. Qed.

Lemma le_enc_byte n v : Forall is_byte (le_enc n v).
Proof.
  revert v. induction n as [|n IH]; intros v; constructor; [|apply IH].
  apply (Z.mod_pos_bound v 256). lia.
Qed.

Lemma le_dec_bound l : Forall is_byte l → 0 <= le_dec l < 256 ^ Z.of_nat (length l).
Proof.
  induction 1 as [|b l Hb Hl IH]; [done|]. simpl le_dec. simpl length.
  rewrite Nat2Z.inj_succ, Z.pow_succ_r by lia. unfold is_byte in *. nia.
Qed.

Lemma le_dec_enc n v : le_dec (le_enc n v) = v mod 256 ^ Z.of_nat n.
Proof.
  revert v. induction n as [|n IH]; intros v.
  - simpl. by rewrite Z.mod_1_r.
  - simpl le_enc. simpl le_dec. rewrite IH, Nat2Z.inj_succ, Z.pow_succ_r by lia.
    rewrite Z.rem_mul_r by lia. lia.
Qed.

Lemma le_enc_dec l : Forall is_byte l → le_enc (length l) (le_dec l) = l.
Proof.
  induction 1 as [|b l Hb Hl IH]; [done|]. simpl. unfold is_byte in *. f_equal.
  - rewrite Z.mul_comm, Z.mod_add by lia. by apply Z.mod_small.
  - rewrite Z.mul_comm, Z.div_add by lia. rewrite Z.div_small by lia. done.
Qed.

(** ** Words *)

Lemma load64_bound m a : 0 <= load64 m a < 2 ^ 64.
Proof.
  unfold load64. pose proof (le_dec_bound _ (read_bytes_byte m a 8)) as H.
  rewrite length_read_bytes in H. exact H.
Qed.
#[export] Hint Resolve load64_bound rd_byte : xv6.

Lemma load64_ext m m' a :
  (∀ x, a <= x < a + 8 → rd m x = rd m' x) → load64 m a = load64 m' a.
Proof. intros H. unfold load64. f_equal. apply read_bytes_ext. intros. apply H. lia. Qed.

Lemma rd_store64_out m a v x : x < a ∨ a + 8 <= x → rd (store64 m a v) x = rd m x.
Proof. intros. apply rd_write_bytes_out. rewrite length_le_enc. lia. Qed.

Lemma load_store64_same m a v : load64 (store64 m a v) a = u64 v.
Proof.
  unfold load64, store64.
  pose proof (read_write_bytes_same m a (le_enc 8 v) (le_enc_byte 8 v)) as H.
  rewrite length_le_enc in H. rewrite H. apply (le_dec_enc 8).
Qed.

Lemma load_store64_disjoint m a v b :
  b + 8 <= a ∨ a + 8 <= b → load64 (store64 m a v) b = load64 m b.
Proof. intros. apply load64_ext. intros x Hx. apply rd_store64_out. lia. Qed.

Lemma load64_zero m a : (∀ x, a <= x < a + 8 → rd m x = 0) → load64 m a = 0.
Proof.
  intros H. unfold load64. simpl. rewrite !H by lia. done.
Qed.

#[global] Arguments load64 : simpl never.
#[global] Arguments store64 : simpl never.
#[global] Arguments rd : simpl never.
#[global] Arguments wr : simpl never.

(** Proofs reason with the lemmas above; evaluation unfolds them anyway. *)
#[global] Opaque load64 store64.
