(* ===== verification/Params.v ===== *)
(** * Constants and macros of the kernel headers

    kernel/param.h, kernel/memlayout.h, the paging part of kernel/riscv.h,
    kernel/fs.h, kernel/fcntl.h and kernel/stat.h, with the arithmetic of
    page rounding, page-table indices and page-table entries. *)

From S2P Require Import Prelude.

(** ** kernel/param.h *)

Definition NPROC : nat := 64.
Definition NCPU : nat := 8.
Definition NOFILE : nat := 16.
Definition NFILE : nat := 100.
Definition NINODE : nat := 50.
Definition NDEV : Z := 10.
Definition ROOTDEV : Z := 1.
Definition MAXARG : nat := 32.
Definition MAXOPBLOCKS : Z := 10.
Definition LOGSIZE : Z := MAXOPBLOCKS * 3.
Definition NBUF : nat := 30.
Definition FSSIZE : Z := 1000.
Definition MAXPATH : Z := 128.

(** ** kernel/riscv.h: paging *)

Definition PGSIZE : Z := 4096.
Definition PGSHIFT : Z := 12.

(** [~(PGSIZE-1)] is an [int], sign-extended to 64 bits. *)
Definition PGMASK : Z := 2 ^ 64 - PGSIZE.
Definition PGROUNDUP (sz : Z) : Z := Z.land (u64 (sz + PGSIZE - 1)) PGMASK.
Definition PGROUNDDOWN (a : Z) : Z := Z.land a PGMASK.

Definition PTE_V : Z := Z.shiftl 1 0.
Definition PTE_R : Z := Z.shiftl 1 1.
Definition PTE_W : Z := Z.shiftl 1 2.
Definition PTE_X : Z := Z.shiftl 1 3.
Definition PTE_U : Z := Z.shiftl 1 4.

Definition PA2PTE (pa : Z) : Z := u64 (Z.shiftl (Z.shiftr pa 12) 10).
Definition PTE2PA (pte : Z) : Z := u64 (Z.shiftl (Z.shiftr pte 10) 12).
Definition PTE_FLAGS (pte : Z) : Z := Z.land pte 0x3FF.

Definition PXMASK : Z := 0x1FF.
Definition PXSHIFT (level : Z) : Z := PGSHIFT + 9 * level.
Definition PX (level va : Z) : Z := Z.land (Z.shiftr va (PXSHIFT level)) PXMASK.

Definition MAXVA : Z := Z.shiftl 1 (9 + 9 + 9 + 12 - 1).

Definition SATP_SV39 : Z := Z.shiftl 8 60.
Definition MAKE_SATP (pagetable : Z) : Z := Z.lor SATP_SV39 (Z.shiftr pagetable 12).

(** ** kernel/memlayout.h *)

Definition UART0 : Z := 0x10000000.
Definition UART0_IRQ : Z := 10.
Definition VIRTIO0 : Z := 0x10001000.
Definition VIRTIO0_IRQ : Z := 1.
Definition CLINT : Z := 0x2000000.
Definition PLIC : Z := 0x0c000000.
Definition KERNBASE : Z := 0x80000000.
Definition PHYSTOP : Z := KERNBASE + 128 * 1024 * 1024.
Definition TRAMPOLINE : Z := MAXVA - PGSIZE.
Definition KSTACK (p : Z) : Z := TRAMPOLINE - (p + 1) * 2 * PGSIZE.
Definition TRAPFRAME : Z := TRAMPOLINE - PGSIZE.

(** Linear arithmetic with the constants of the address-space layout. *)
Ltac vlia :=
  unfold TRAPFRAME, TRAMPOLINE, PGSIZE in *;
  change MAXVA with 274877906944 in *; lia.

(** ** kernel/fs.h *)

Definition ROOTINO : Z := 1.
Definition BSIZE : Z := 1024.
Definition FSMAGIC : Z := 0x10203040.
Definition NDIRECT : Z := 12.
Definition NINDIRECT : Z := BSIZE / 4.
Definition MAXFILE : Z := NDIRECT + NINDIRECT.
Definition IPB : Z := BSIZE / 64.
Definition BPB : Z := BSIZE * 8.
Definition DIRSIZ : nat := 14.

(** ** kernel/fcntl.h and kernel/stat.h *)

Definition O_RDONLY : Z := 0x000.
Definition O_WRONLY : Z := 0x001.
Definition O_RDWR : Z := 0x002.
Definition O_CREATE : Z := 0x200.
Definition O_TRUNC : Z := 0x400.
Definition T_DIR : Z := 1.
Definition T_FILE : Z := 2.
Definition T_DEVICE : Z := 3.

(** ** Symbols the linker script and the assembly files define

    The addresses are parameters; the laws are what kernel.ld guarantees:
    the kernel is loaded at KERNBASE, its text ends at a page boundary, and
    it ends below the top of the RAM. *)
Class KernelImage := {
  kernel_end : Z;
  etext : Z;
  trampoline : Z;
  forkret_addr : Z;
  usertrap_addr : Z;
  kernelvec_addr : Z;
  uservec_addr : Z;
  userret_addr : Z;
  etext_aligned : etext mod PGSIZE = 0;
  trampoline_aligned : trampoline mod PGSIZE = 0;
  image_order : KERNBASE < etext ∧ etext <= kernel_end ∧ kernel_end <= PHYSTOP;
  trampoline_in_text : KERNBASE <= trampoline < etext;
}.

(** ** Page rounding *)

Lemma land_pgmask x : 0 <= x < 2 ^ 64 → Z.land x PGMASK = 4096 * (x / 4096).
Proof.
  intros Hx. change PGMASK with (Z.shiftl (Z.ones 52) 12).
  apply Z.bits_inj'. intros n Hn.
  rewrite Z.land_spec, Z.mul_comm.
  change 4096 with (2 ^ 12). rewrite <- Z.shiftl_mul_pow2, <- Z.shiftr_div_pow2 by lia.
  rewrite !Z.shiftl_spec by lia.
  destruct (decide (n < 12)) as [H|H].
  - rewrite !(Z.testbit_neg_r _ (n - 12)) by lia. by rewrite andb_false_r.
  - rewrite Z.shiftr_spec by lia. replace (n - 12 + 12) with n by lia.
    destruct (decide (n < 64)) as [H'|H'].
    + rewrite Z.ones_spec_low by lia. by rewrite andb_true_r.
    + rewrite <- (Z.mod_small x (2 ^ 64)) by lia.
      rewrite Z.mod_pow2_bits_high by lia. done.
Qed.

Lemma pgrounddown_eq x : 0 <= x < 2 ^ 64 → PGROUNDDOWN x = 4096 * (x / 4096).
Proof. apply land_pgmask. Qed.

Lemma pgroundup_eq x :
  0 <= x → x + 4095 < 2 ^ 64 → PGROUNDUP x = 4096 * ((x + 4095) / 4096).
Proof.
  intros H1 H2. unfold PGROUNDUP, PGSIZE. rewrite u64_small by lia.
  rewrite land_pgmask by lia. by replace (x + 4096 - 1) with (x + 4095) by lia.
Qed.

Lemma pgrounddown_aligned x : x mod 4096 = 0 → 0 <= x < 2 ^ 64 → PGROUNDDOWN x = x.
Proof. intros H1 H2. rewrite pgrounddown_eq by done. pose proof (Z.div_mod x 4096). lia. Qed.

(** ** Page-table indices and entries *)

Lemma px_eq l va : 0 <= l → PX l va = (va / 2 ^ (12 + 9 * l)) mod 512.
Proof.
  intros Hl. unfold PX, PXSHIFT, PGSHIFT, PXMASK.
  change 0x1FF with (Z.ones 9). rewrite Z.land_ones by lia.
  rewrite Z.shiftr_div_pow2 by lia. done.
Qed.

Lemma px_bound l va : 0 <= l → 0 <= PX l va < 512.
Proof. intros Hl. rewrite px_eq by done. by apply Z.mod_pos_bound. Qed.

Lemma pte2pa_eq pte : 0 <= pte < 2 ^ 64 → PTE2PA pte = 4096 * ((pte / 1024) mod 2 ^ 52).
Proof.
  intros H. unfold PTE2PA, u64.
  rewrite Z.shiftr_div_pow2, Z.shiftl_mul_pow2 by lia.
  change (2 ^ 64) with (2 ^ 52 * 2 ^ 12). rewrite Zmult_mod_distr_r.
  change (2 ^ 10) with 1024. lia.
Qed.

Lemma pa2pte_eq pa : 0 <= pa < 2 ^ 56 → PA2PTE pa = 1024 * (pa / 4096).
Proof.
  intros H. unfold PA2PTE. rewrite Z.shiftr_div_pow2, Z.shiftl_mul_pow2 by lia.
  rewrite u64_small; [change (2 ^ 10) with 1024; change (2 ^ 12) with 4096; lia|].
  change (2 ^ 10) with 1024. change (2 ^ 12) with 4096.
  split; [|]; pose proof (Z.div_mod pa 4096); pose proof (Z.mod_pos_bound pa 4096); lia.
Qed.

(** Or-ing low bits into a number that has none of them is addition. *)
Lemma lor_low a b k : 0 <= k → 0 <= b < 2 ^ k → Z.lor (2 ^ k * a) b = 2 ^ k * a + b.
Proof.
  intros Hk Hb. rewrite <- Z.lxor_lor, <- Z.add_nocarry_lxor; [done| |];
    apply Z.bits_inj'; intros n Hn; rewrite Z.land_spec, Z.bits_0;
    rewrite Z.mul_comm, <- Z.shiftl_mul_pow2, Z.shiftl_spec by lia;
    (destruct (decide (n < k)) as [H|H];
     [by rewrite Z.testbit_neg_r by lia|];
     rewrite <- (Z.mod_small b (2 ^ k)) by lia;
     by rewrite Z.mod_pow2_bits_high, andb_false_r by lia).
Qed.

Definition pte_of (pa flags : Z) : Z := Z.lor (PA2PTE pa) flags.

Lemma pte_of_eq pa flags :
  0 <= pa < 2 ^ 56 → 0 <= flags < 1024 → pte_of pa flags = 1024 * (pa / 4096) + flags.
Proof.
  intros H1 H2. unfold pte_of. rewrite pa2pte_eq by done. by apply (lor_low _ _ 10).
Qed.

Lemma pte_of_bound pa flags :
  0 <= pa < 2 ^ 56 → 0 <= flags < 1024 → 0 <= pte_of pa flags < 2 ^ 64.
Proof.
  intros H1 H2. rewrite pte_of_eq by done.
  pose proof (Z.div_mod pa 4096). pose proof (Z.mod_pos_bound pa 4096). lia.
Qed.

Lemma pte2pa_pte_of pa flags :
  0 <= pa < 2 ^ 56 → pa mod 4096 = 0 → 0 <= flags < 1024 → PTE2PA (pte_of pa flags) = pa.
Proof.
  intros H1 H2 H3. rewrite pte2pa_eq by (by apply pte_of_bound).
  rewrite pte_of_eq by done.
  rewrite (Z.mul_comm 1024), Z.div_add_l by lia.
  rewrite (Z.div_small flags) by lia. rewrite Z.add_0_r.
  pose proof (Z.div_mod pa 4096). rewrite Z.mod_small; lia.
Qed.

Lemma pte_flags_eq pte : PTE_FLAGS pte = pte mod 1024.
Proof. unfold PTE_FLAGS. change 0x3FF with (Z.ones 10). by rewrite Z.land_ones. Qed.

Lemma pte_flags_pte_of pa flags :
  0 <= pa < 2 ^ 56 → 0 <= flags < 1024 → PTE_FLAGS (pte_of pa flags) = flags.
Proof.
  intros H1 H2. rewrite pte_flags_eq, pte_of_eq by done.
  rewrite Z.add_comm, (Z.mul_comm 1024), Z.mod_add by lia. by apply Z.mod_small.
Qed.

Lemma pte2pa_aligned pte : 0 <= pte < 2 ^ 64 → PTE2PA pte mod 4096 = 0.
Proof. intros. rewrite pte2pa_eq by done. rewrite Z.mul_comm. by apply Z.mod_mul. Qed.

(** The test [pte & flag]. *)
Definition has (pte flag : Z) : bool := negb (Z.land pte flag =? 0).

(** The flag bits of an entry decide every flag test. *)
Lemma has_flags pte f : 0 <= f < 1024 → has pte f = has (PTE_FLAGS pte) f.
Proof.
  intros Hf. unfold has, PTE_FLAGS. do 2 f_equal.
  rewrite <- Z.land_assoc. f_equal. rewrite Z.land_comm.
  change 0x3FF with (Z.ones 10). rewrite Z.land_ones by lia.
  symmetry. by apply Z.mod_small.
Qed.

Lemma has_pte_of pa flags f :
  0 <= pa < 2 ^ 56 → 0 <= flags < 1024 → 0 <= f < 1024 →
  has (pte_of pa flags) f = has flags f.
Proof. intros. rewrite has_flags by done. by rewrite pte_flags_pte_of. Qed.

Lemma has_0 f : has 0 f = false.
Proof. unfold has. by rewrite Z.land_0_l. Qed.

(** ** Virtual page numbers

    The page-table index at each level is a digit of the virtual page number
    in base 512. *)

Definition vpn (va : Z) : Z := va / 4096.

Lemma px_digits va :
  0 <= va < MAXVA →
  vpn va = (PX 2 va * 512 + PX 1 va) * 512 + PX 0 va.
Proof.
  intros H. rewrite !px_eq by lia. unfold vpn.
  change (2 ^ (12 + 9 * 2)) with (4096 * (512 * 512)).
  change (2 ^ (12 + 9 * 1)) with (4096 * 512).
  change (2 ^ (12 + 9 * 0)) with 4096.
  change MAXVA with (4096 * (512 * 512 * 256)) in H.
  rewrite <- !Z.div_div by lia. set (v := va / 4096).
  assert (0 <= v < 512 * 512 * 256).
  { unfold v. split; [apply Z.div_pos; lia|apply Z.div_lt_upper_bound; lia]. }
  pose proof (Z.div_mod v 512). pose proof (Z.mod_pos_bound v 512).
  pose proof (Z.div_mod (v / 512) 512). pose proof (Z.mod_pos_bound (v / 512) 512).
  rewrite (Z.mod_small (v / 512 / 512) 512); [lia|]. lia.
Qed.
