(* ===== verification/State.v ===== *)
(** * The kernel's state

    One record per C structure, the global variables grouped by the source
    file that owns them, and the record of all of them that the kernel's
    functions run on.  Pointers to statically allocated structures (processes,
    buffers, inodes, open files) are indices into their tables; pointers to
    pages are physical addresses. *)

From S2P Require Import Prelude Memory Params.

(** ** Spinlocks and sleep channels

    A spinlock and a sleep channel are named by the object they live in. *)
(** [LIntr] is not a lock; see [k_held]. *)
Inductive lockid : Set :=
| LIntr | LKmem | LPid | LWait | LProc (i : nat) | LTicks
| LBcache | LBufSleep (i : nat) | LDisk | LLog
| LItable | LInodeSleep (i : nat) | LFtable | LPipe (a : Z)
| LCons | LUart | LPrintf.

#[global] Instance lockid_eq_dec : EqDecision lockid.
Proof. solve_decision. Defined.

Inductive chan : Set :=
| ChProc (i : nat) | ChTicks | ChBufLock (i : nat) | ChInodeLock (i : nat)
| ChLog | ChPipeRead (a : Z) | ChPipeWrite (a : Z) | ChCons | ChUart
| ChDiskFree | ChDiskBuf (i : nat).

#[global] Instance chan_eq_dec : EqDecision chan.
Proof. solve_decision. Defined.

(** ** kernel/proc.h *)

Inductive procstate : Set := UNUSED | USED | SLEEPING | RUNNABLE | RUNNING | ZOMBIE.

#[global] Instance procstate_eq_dec : EqDecision procstate.
Proof. solve_decision. Defined.

(** The callee-saved registers [s0] to [s11] are the list [ctx_s]. *)
Record context : Type := mk_context {
  ctx_ra : Z;
  ctx_sp : Z;
  ctx_s : list Z;
}.

Record proc : Type := mk_proc {
  p_state : procstate;
  p_chan : option chan;
  p_killed : Z;
  p_xstate : Z;
  p_pid : Z;
  p_parent : option nat;
  p_kstack : Z;
  p_sz : Z;
  p_pagetable : Z;
  p_trapframe : Z;
  p_context : context;
  p_ofile : list (option nat);
  p_cwd : option nat;
  p_name : list Z;
}.

Definition set_p_state v p := mk_proc v (p_chan p) (p_killed p) (p_xstate p) (p_pid p) (p_parent p) (p_kstack p) (p_sz p) (p_pagetable p) (p_trapframe p) (p_context p) (p_ofile p) (p_cwd p) (p_name p).
Definition set_p_chan v p := mk_proc (p_state p) v (p_killed p) (p_xstate p) (p_pid p) (p_parent p) (p_kstack p) (p_sz p) (p_pagetable p) (p_trapframe p) (p_context p) (p_ofile p) (p_cwd p) (p_name p).
Definition set_p_killed v p := mk_proc (p_state p) (p_chan p) v (p_xstate p) (p_pid p) (p_parent p) (p_kstack p) (p_sz p) (p_pagetable p) (p_trapframe p) (p_context p) (p_ofile p) (p_cwd p) (p_name p).
Definition set_p_xstate v p := mk_proc (p_state p) (p_chan p) (p_killed p) v (p_pid p) (p_parent p) (p_kstack p) (p_sz p) (p_pagetable p) (p_trapframe p) (p_context p) (p_ofile p) (p_cwd p) (p_name p).
Definition set_p_pid v p := mk_proc (p_state p) (p_chan p) (p_killed p) (p_xstate p) v (p_parent p) (p_kstack p) (p_sz p) (p_pagetable p) (p_trapframe p) (p_context p) (p_ofile p) (p_cwd p) (p_name p).
Definition set_p_parent v p := mk_proc (p_state p) (p_chan p) (p_killed p) (p_xstate p) (p_pid p) v (p_kstack p) (p_sz p) (p_pagetable p) (p_trapframe p) (p_context p) (p_ofile p) (p_cwd p) (p_name p).
Definition set_p_kstack v p := mk_proc (p_state p) (p_chan p) (p_killed p) (p_xstate p) (p_pid p) (p_parent p) v (p_sz p) (p_pagetable p) (p_trapframe p) (p_context p) (p_ofile p) (p_cwd p) (p_name p).
Definition set_p_sz v p := mk_proc (p_state p) (p_chan p) (p_killed p) (p_xstate p) (p_pid p) (p_parent p) (p_kstack p) v (p_pagetable p) (p_trapframe p) (p_context p) (p_ofile p) (p_cwd p) (p_name p).
Definition set_p_pagetable v p := mk_proc (p_state p) (p_chan p) (p_killed p) (p_xstate p) (p_pid p) (p_parent p) (p_kstack p) (p_sz p) v (p_trapframe p) (p_context p) (p_ofile p) (p_cwd p) (p_name p).
Definition set_p_trapframe v p := mk_proc (p_state p) (p_chan p) (p_killed p) (p_xstate p) (p_pid p) (p_parent p) (p_kstack p) (p_sz p) (p_pagetable p) v (p_context p) (p_ofile p) (p_cwd p) (p_name p).
Definition set_p_context v p := mk_proc (p_state p) (p_chan p) (p_killed p) (p_xstate p) (p_pid p) (p_parent p) (p_kstack p) (p_sz p) (p_pagetable p) (p_trapframe p) v (p_ofile p) (p_cwd p) (p_name p).
Definition set_p_ofile v p := mk_proc (p_state p) (p_chan p) (p_killed p) (p_xstate p) (p_pid p) (p_parent p) (p_kstack p) (p_sz p) (p_pagetable p) (p_trapframe p) (p_context p) v (p_cwd p) (p_name p).
Definition set_p_cwd v p := mk_proc (p_state p) (p_chan p) (p_killed p) (p_xstate p) (p_pid p) (p_parent p) (p_kstack p) (p_sz p) (p_pagetable p) (p_trapframe p) (p_context p) (p_ofile p) v (p_name p).
Definition set_p_name v p := mk_proc (p_state p) (p_chan p) (p_killed p) (p_xstate p) (p_pid p) (p_parent p) (p_kstack p) (p_sz p) (p_pagetable p) (p_trapframe p) (p_context p) (p_ofile p) (p_cwd p) v.

(** A process structure of the zeroed bss. *)
Definition zero_proc : proc :=
  mk_proc UNUSED None 0 0 0 None 0 0 0 0 (mk_context 0 0 (replicate 12 0))
    (replicate NOFILE None) None (replicate 16 0).
#[global] Instance proc_inhabited : Inhabited proc := populate zero_proc.

(** ** kernel/sleeplock.h, kernel/buf.h *)

Record sleeplock : Type := mk_sleeplock {
  sl_locked : bool;
  sl_pid : Z;
}.

(** Index [NBUF] of the table of buffers is [bcache.head]. *)
Record buf : Type := mk_buf {
  b_valid : bool;
  b_disk : bool;
  b_dev : Z;
  b_blockno : Z;
  b_lock : sleeplock;
  b_refcnt : Z;
  b_prev : nat;
  b_next : nat;
  b_data : list Z;
}.

Definition set_b_valid v b := mk_buf v (b_disk b) (b_dev b) (b_blockno b) (b_lock b) (b_refcnt b) (b_prev b) (b_next b) (b_data b).
Definition set_b_disk v b := mk_buf (b_valid b) v (b_dev b) (b_blockno b) (b_lock b) (b_refcnt b) (b_prev b) (b_next b) (b_data b).
Definition set_b_lock v b := mk_buf (b_valid b) (b_disk b) (b_dev b) (b_blockno b) v (b_refcnt b) (b_prev b) (b_next b) (b_data b).
Definition set_b_refcnt v b := mk_buf (b_valid b) (b_disk b) (b_dev b) (b_blockno b) (b_lock b) v (b_prev b) (b_next b) (b_data b).
Definition set_b_prev v b := mk_buf (b_valid b) (b_disk b) (b_dev b) (b_blockno b) (b_lock b) (b_refcnt b) v (b_next b) (b_data b).
Definition set_b_next v b := mk_buf (b_valid b) (b_disk b) (b_dev b) (b_blockno b) (b_lock b) (b_refcnt b) (b_prev b) v (b_data b).
Definition set_b_data v b := mk_buf (b_valid b) (b_disk b) (b_dev b) (b_blockno b) (b_lock b) (b_refcnt b) (b_prev b) (b_next b) v.
Definition set_b_id dev bno b := mk_buf (b_valid b) (b_disk b) dev bno (b_lock b) (b_refcnt b) (b_prev b) (b_next b) (b_data b).

Definition zero_block : list Z := replicate 1024 0.
Definition zero_buf : buf :=
  mk_buf false false 0 0 (mk_sleeplock false 0) 0 0 0 zero_block.
#[global] Instance buf_inhabited : Inhabited buf := populate zero_buf.

(** ** kernel/log.c, kernel/fs.h, kernel/file.h, kernel/pipe.c *)

Record logstate : Type := mk_log {
  l_start : Z;
  l_size : Z;
  l_outstanding : Z;
  l_committing : bool;
  l_dev : Z;
  lh_n : Z;
  lh_block : list Z;
}.

Record superblock : Type := mk_sb {
  sb_magic : Z;
  sb_size : Z;
  sb_nblocks : Z;
  sb_ninodes : Z;
  sb_nlog : Z;
  sb_logstart : Z;
  sb_inodestart : Z;
  sb_bmapstart : Z;
}.

Record inode : Type := mk_inode {
  i_dev : Z;
  i_inum : Z;
  i_ref : Z;
  i_lock : sleeplock;
  i_valid : bool;
  i_type : Z;
  i_major : Z;
  i_minor : Z;
  i_nlink : Z;
  i_size : Z;
  i_addrs : list Z;
}.
Definition zero_inode : inode :=
  mk_inode 0 0 0 (mk_sleeplock false 0) false 0 0 0 0 0 (replicate 13 0).
#[global] Instance inode_inhabited : Inhabited inode := populate zero_inode.

Inductive filetype : Set := FD_NONE | FD_PIPE | FD_INODE | FD_DEVICE.
#[global] Instance filetype_eq_dec : EqDecision filetype.
Proof. solve_decision. Defined.

Record file : Type := mk_file {
  f_type : filetype;
  f_ref : Z;
  f_readable : bool;
  f_writable : bool;
  f_pipe : Z;
  f_ip : option nat;
  f_off : Z;
  f_major : Z;
}.
Definition zero_file : file := mk_file FD_NONE 0 false false 0 None 0 0.
#[global] Instance file_inhabited : Inhabited file := populate zero_file.

Record pipe : Type := mk_pipe {
  pi_data : list Z;
  pi_nread : Z;
  pi_nwrite : Z;
  pi_readopen : bool;
  pi_writeopen : bool;
}.

(** ** kernel/console.c, kernel/uart.c

    The device side of the UART is the bytes written to THR ([ua_sent]), the
    number of bytes THR still accepts before LSR_TX_IDLE clears, the bytes that
    wait to be read from RHR, the values of the control registers, and the bytes
    that the terminal will send and that have not arrived. *)
Record consstate : Type := mk_cons {
  cons_buf : list Z;
  cons_r : Z;
  cons_w : Z;
  cons_e : Z;
}.

Record uartstate : Type := mk_uart {
  uart_tx_buf : list Z;
  uart_tx_w : Z;
  uart_tx_r : Z;
  ua_idle : nat;
  ua_sent : list Z;
  ua_rx : list Z;
  ua_regs : gmap Z Z;
  ua_line : list Z;
}.

(** ** kernel/virtio_disk.c

    What the address field of a descriptor points to. *)
Inductive dma : Set := DmaNone | DmaOp (i : nat) | DmaBuf (b : nat) | DmaStatus (i : nat).

Record virtq_desc : Type := mk_desc {
  d_addr : dma;
  d_len : Z;
  d_flags : Z;
  d_next : Z;
}.
Definition zero_desc : virtq_desc := mk_desc DmaNone 0 0 0.
#[global] Instance virtq_desc_inhabited : Inhabited virtq_desc := populate zero_desc.

Record virtio_blk_req : Type := mk_req { rq_type : Z; rq_sector : Z }.
#[global] Instance virtio_blk_req_inhabited : Inhabited virtio_blk_req := populate (mk_req 0 0).

(** The rings in RAM ([vd_avail] written by the driver, [vd_used] by the
    device) and the driver's own variables.  [vd_notify] counts the writes to
    QUEUE_NOTIFY. *)
Record vdisk : Type := mk_vdisk {
  vd_desc : list virtq_desc;
  vd_avail_idx : Z;
  vd_avail : list Z;
  vd_ring_idx : Z;
  vd_ring : list Z;
  vd_free : list bool;
  vd_used_idx : Z;
  vd_info_b : list (option nat);
  vd_status : list Z;
  vd_ops : list virtio_blk_req;
  vd_notify : Z;
}.
Definition zero_vdisk : vdisk :=
  mk_vdisk (replicate 8 zero_desc) 0 (replicate 8 0) 0 (replicate 8 0) (replicate 8 false) 0
    (replicate 8 None) (replicate 8 0) (replicate 8 (mk_req 0 0)) 0.

(** ** Interrupt controller, timer and printf

    The memory-mapped registers the kernel has written, by address, the
    interrupts the PLIC will hand out, the flags of kernel/printf.c and the
    flag of kernel/main.c. *)
Record devstate : Type := mk_dev {
  dv_mmio : gmap Z Z;
  dv_irqs : list Z;
  pr_locking : bool;
  panicked : bool;
  started : bool;
}.

(** ** The groups of global variables and the whole state *)

Record mstate : Type := mk_mstate {
  m_mem : mem;
  m_freelist : Z;
  m_kpagetable : Z;
}.

(** The supervisor registers of the hart that runs the thread. *)
Record csrs : Type := mk_csrs {
  c_sstatus : Z;
  c_sepc : Z;
  c_scause : Z;
  c_stval : Z;
  c_stvec : Z;
  c_satp : Z;
  c_sip : Z;
  c_tp : Z;
}.

(** [ps_cur] is the process of the running hart, [NPROC] (the index past the
    table) when it runs none. *)
Record pstate : Type := mk_pstate {
  ps_procs : list proc;
  ps_cur : nat;
  ps_initproc : option nat;
  ps_nextpid : Z;
  ps_first : bool;
}.

(** The disk and, in order, the block writes the driver has completed. *)
Record dstate : Type := mk_dstate {
  d_blocks : gmap Z (list Z);
  d_trace : list (Z * list Z);
}.

(** [k_held] are the locks that the running hart holds, the last one first.  A
    mark [LIntr] in front of them says that interrupts have been enabled since
    the last of them was taken; see Riscv.v. *)
Record kst : Type := mk_kst {
  k_held : list lockid;
  k_proc : pstate;
  k_mem : mstate;
  k_bufs : list buf;
  k_disk : dstate;
  k_log : logstate;
  k_sb : superblock;
  k_itable : list inode;
  k_ftable : list file;
  k_pipes : gmap Z pipe;
  k_cons : consstate;
  k_uart : uartstate;
  k_ticks : Z;
  k_csrs : csrs;
  k_vd : vdisk;
  k_dev : devstate;
}.

Definition set_held v s := mk_kst v (k_proc s) (k_mem s) (k_bufs s) (k_disk s) (k_log s) (k_sb s) (k_itable s) (k_ftable s) (k_pipes s) (k_cons s) (k_uart s) (k_ticks s) (k_csrs s) (k_vd s) (k_dev s).
Definition set_proc v s := mk_kst (k_held s) v (k_mem s) (k_bufs s) (k_disk s) (k_log s) (k_sb s) (k_itable s) (k_ftable s) (k_pipes s) (k_cons s) (k_uart s) (k_ticks s) (k_csrs s) (k_vd s) (k_dev s).
Definition set_mem v s := mk_kst (k_held s) (k_proc s) v (k_bufs s) (k_disk s) (k_log s) (k_sb s) (k_itable s) (k_ftable s) (k_pipes s) (k_cons s) (k_uart s) (k_ticks s) (k_csrs s) (k_vd s) (k_dev s).
Definition set_bufs v s := mk_kst (k_held s) (k_proc s) (k_mem s) v (k_disk s) (k_log s) (k_sb s) (k_itable s) (k_ftable s) (k_pipes s) (k_cons s) (k_uart s) (k_ticks s) (k_csrs s) (k_vd s) (k_dev s).
Definition set_disk v s := mk_kst (k_held s) (k_proc s) (k_mem s) (k_bufs s) v (k_log s) (k_sb s) (k_itable s) (k_ftable s) (k_pipes s) (k_cons s) (k_uart s) (k_ticks s) (k_csrs s) (k_vd s) (k_dev s).
Definition set_log v s := mk_kst (k_held s) (k_proc s) (k_mem s) (k_bufs s) (k_disk s) v (k_sb s) (k_itable s) (k_ftable s) (k_pipes s) (k_cons s) (k_uart s) (k_ticks s) (k_csrs s) (k_vd s) (k_dev s).
Definition set_sb v s := mk_kst (k_held s) (k_proc s) (k_mem s) (k_bufs s) (k_disk s) (k_log s) v (k_itable s) (k_ftable s) (k_pipes s) (k_cons s) (k_uart s) (k_ticks s) (k_csrs s) (k_vd s) (k_dev s).
Definition set_itable v s := mk_kst (k_held s) (k_proc s) (k_mem s) (k_bufs s) (k_disk s) (k_log s) (k_sb s) v (k_ftable s) (k_pipes s) (k_cons s) (k_uart s) (k_ticks s) (k_csrs s) (k_vd s) (k_dev s).
Definition set_ftable v s := mk_kst (k_held s) (k_proc s) (k_mem s) (k_bufs s) (k_disk s) (k_log s) (k_sb s) (k_itable s) v (k_pipes s) (k_cons s) (k_uart s) (k_ticks s) (k_csrs s) (k_vd s) (k_dev s).
Definition set_pipes v s := mk_kst (k_held s) (k_proc s) (k_mem s) (k_bufs s) (k_disk s) (k_log s) (k_sb s) (k_itable s) (k_ftable s) v (k_cons s) (k_uart s) (k_ticks s) (k_csrs s) (k_vd s) (k_dev s).
Definition set_cons v s := mk_kst (k_held s) (k_proc s) (k_mem s) (k_bufs s) (k_disk s) (k_log s) (k_sb s) (k_itable s) (k_ftable s) (k_pipes s) v (k_uart s) (k_ticks s) (k_csrs s) (k_vd s) (k_dev s).
Definition set_uart v s := mk_kst (k_held s) (k_proc s) (k_mem s) (k_bufs s) (k_disk s) (k_log s) (k_sb s) (k_itable s) (k_ftable s) (k_pipes s) (k_cons s) v (k_ticks s) (k_csrs s) (k_vd s) (k_dev s).
Definition set_ticks v s := mk_kst (k_held s) (k_proc s) (k_mem s) (k_bufs s) (k_disk s) (k_log s) (k_sb s) (k_itable s) (k_ftable s) (k_pipes s) (k_cons s) (k_uart s) v (k_csrs s) (k_vd s) (k_dev s).
Definition set_csrs v s := mk_kst (k_held s) (k_proc s) (k_mem s) (k_bufs s) (k_disk s) (k_log s) (k_sb s) (k_itable s) (k_ftable s) (k_pipes s) (k_cons s) (k_uart s) (k_ticks s) v (k_vd s) (k_dev s).
Definition set_vd v s := mk_kst (k_held s) (k_proc s) (k_mem s) (k_bufs s) (k_disk s) (k_log s) (k_sb s) (k_itable s) (k_ftable s) (k_pipes s) (k_cons s) (k_uart s) (k_ticks s) (k_csrs s) v (k_dev s).
Definition set_dev v s := mk_kst (k_held s) (k_proc s) (k_mem s) (k_bufs s) (k_disk s) (k_log s) (k_sb s) (k_itable s) (k_ftable s) (k_pipes s) (k_cons s) (k_uart s) (k_ticks s) (k_csrs s) (k_vd s) v.


(** The monad of the kernel. *)
Abbreviation K := (M kst).

(** ** Bounds on waiting

    A loop of the form [while(cond) sleep(chan, lk);] runs until another
    thread changes the condition.  The bound is the number of wakeups the
    model follows; it is arbitrary in every theorem. *)
Class WaitFuel := wait_fuel : nat.

(** The kernel's state at boot: zeroed memory, no lock held. *)
Definition boot_state : kst :=
  mk_kst [] (mk_pstate (replicate NPROC zero_proc) NPROC None 1 true) (mk_mstate ∅ 0 0)
    (replicate (NBUF + 1) zero_buf) (mk_dstate ∅ [])
    (mk_log 0 0 0 false 0 0 (replicate 30 0)) (mk_sb 0 0 0 0 0 0 0 0)
    (replicate NINODE zero_inode) (replicate NFILE zero_file) ∅
    (mk_cons (replicate 128 0) 0 0 0) (mk_uart (replicate 32 0) 0 0 0 [] [] ∅ []) 0
    (mk_csrs 0 0 0 0 0 0 0 0) zero_vdisk (mk_dev ∅ [] false false false).
