(* ===== verification/CString.v ===== *)
(** * kernel/string.c

    The block functions ([memset], [memmove], [memcmp]) act on physical
    memory; the string functions act on kernel buffers, a buffer being the
    list of the bytes from the pointer on.  Reading past the end of a buffer
    gives NUL. *)

From S2P Require Import Prelude Memory.

(** ** Block functions *)

(** The loop of [memset]: [cdst[i] = c] for [i] from [i] on, [k] times. *)
Fixpoint memset_loop (k : nat) (m : mem) (dst c i : Z) : mem :=
  match k with
  | O => m
  | S k => memset_loop k (wr m (dst + i) c) dst c (i + 1)
  end.

Definition memset (m : mem) (dst c n : Z) : mem :=
  memset_loop (Z.to_nat n) m dst c 0.

(** [while(n-- > 0) *--d = *--s;] *)
Fixpoint copy_down (n : nat) (m : mem) (d s : Z) : mem :=
  match n with
  | O => m
  | S n => let d := d - 1 in
           let s := s - 1 in
           copy_down n (wr m d (rd m s)) d s
  end.

(** [while(n-- > 0) *d++ = *s++;] *)
Fixpoint copy_up (n : nat) (m : mem) (d s : Z) : mem :=
  match n with
  | O => m
  | S n => copy_up n (wr m d (rd m s)) (d + 1) (s + 1)
  end.

Definition memmove (m : mem) (dst src n : Z) : mem :=
  if n =? 0 then m
  else if (src <? dst) && (src + n >? dst)
  then copy_down (Z.to_nat n) m (dst + n) (src + n)
  else copy_up (Z.to_nat n) m dst src.

Definition memcpy (m : mem) (dst src n : Z) : mem := memmove m dst src n.

Fixpoint memcmp_loop (n : nat) (m : mem) (s1 s2 : Z) : Z :=
  match n with
  | O => 0
  | S n => if negb (rd m s1 =? rd m s2) then rd m s1 - rd m s2
           else memcmp_loop n m (s1 + 1) (s2 + 1)
  end.

Definition memcmp (m : mem) (v1 v2 n : Z) : Z := memcmp_loop (Z.to_nat n) m v1 v2.

(** ** String functions *)

(** [*p] and [p + 1] for a pointer into a buffer. *)
Definition chr (p : list Z) : Z := hd 0 p.

Fixpoint strncmp (p q : list Z) (n : nat) : Z :=
  match n with
  | O => 0
  | S n => if negb (chr p =? 0) && (chr p =? chr q)
           then strncmp (tl p) (tl q) n
           else chr p - chr q
  end.

(** [while(n-- > 0) *s++ = 0;] *)
Fixpoint zero_fill (s : list Z) (n : nat) : list Z :=
  match n, s with
  | S n, _ :: s => 0 :: zero_fill s n
  | _, _ => s
  end.

(** The buffer at [s] after the call. *)
Fixpoint strncpy (s t : list Z) (n : nat) : list Z :=
  match n, s with
  | S n, _ :: s => chr t :: (if chr t =? 0 then zero_fill s n else strncpy s (tl t) n)
  | _, _ => s
  end.

(** [while(--n > 0 && ( *s++ = *t++ ) != 0); *s = 0;] where [n] is the value
    after the decrement of the loop condition. *)
Fixpoint safestrcpy_loop (s t : list Z) (n : nat) : list Z :=
  match n, s with
  | S n, _ :: s => chr t :: (if chr t =? 0 then zero_fill s 1
                             else safestrcpy_loop s (tl t) n)
  | O, _ :: s => 0 :: s
  | _, [] => []
  end.

Definition safestrcpy (s t : list Z) (n : Z) : list Z :=
  if n <=? 0 then s else safestrcpy_loop s t (Z.to_nat (n - 1)).

Fixpoint strlen (s : list Z) : Z :=
  match s with
  | [] => 0
  | c :: s => if c =? 0 then 0 else 1 + strlen s
  end.

(** ** Specification: the string a buffer holds *)

(** The characters before the NUL. *)
Fixpoint cstr (s : list Z) : list Z :=
  match s with
  | [] => []
  | c :: s => if c =? 0 then [] else c :: cstr s
  end.

(** ** [memset] *)

Lemma rd_memset_loop k m dst c i x :
  rd (memset_loop k m dst c i) x =
    if decide (dst + i <= x < dst + i + Z.of_nat k) then u8 c else rd m x.
Proof.
  revert m i. induction k as [|k IH]; intros m i; simpl memset_loop.
  - rewrite decide_False by lia. done.
  - rewrite IH, rd_wr. repeat case_decide; try lia; done.
Qed.

Lemma rd_memset m dst c n x :
  0 <= n →
  rd (memset m dst c n) x = if decide (dst <= x < dst + n) then u8 c else rd m x.
Proof.
  intros Hn. unfold memset. rewrite rd_memset_loop.
  repeat case_decide; try lia; done.
Qed.

Lemma rd_memset_out m dst c n x :
  0 <= n → x < dst ∨ dst + n <= x → rd (memset m dst c n) x = rd m x.
Proof. intros. rewrite rd_memset by done. rewrite decide_False by lia. done. Qed.

(** ** [memmove] *)

Lemma rd_copy_up n m d s x :
  d <= s ∨ s + Z.of_nat n <= d →
  rd (copy_up n m d s) x =
    if decide (d <= x < d + Z.of_nat n) then rd m (s + (x - d)) else rd m x.
Proof.
  revert m d s. induction n as [|n IH]; intros m d s H; simpl copy_up.
  - rewrite decide_False by lia. done.
  - rewrite IH by lia. rewrite (rd_wr m d _ x).
    destruct (decide (d = x)) as [->|Hx].
    + rewrite decide_False by lia. rewrite decide_True by lia.
      rewrite u8_small by apply rd_byte. f_equal. lia.
    + destruct (decide (d + 1 <= x < d + 1 + Z.of_nat n)) as [Hr|Hr].
      * rewrite decide_True by lia.
        rewrite rd_wr_ne by lia. f_equal. lia.
      * rewrite decide_False by lia. done.
Qed.

Lemma rd_copy_down n m d s x :
  s <= d →
  rd (copy_down n m d s) x =
    if decide (d - Z.of_nat n <= x < d) then rd m (s + (x - d)) else rd m x.
Proof.
  revert m d s. induction n as [|n IH]; intros m d s H; simpl copy_down.
  - rewrite decide_False by lia. done.
  - rewrite IH by lia. rewrite (rd_wr m (d - 1) _ x).
    destruct (decide (d - 1 = x)) as [<-|Hx].
    + rewrite decide_False by lia. rewrite decide_True by lia.
      rewrite u8_small by apply rd_byte. f_equal. lia.
    + destruct (decide (d - 1 - Z.of_nat n <= x < d - 1)) as [Hr|Hr].
      * rewrite decide_True by lia.
        rewrite rd_wr_ne by lia. f_equal. lia.
      * rewrite decide_False by lia. done.
Qed.

Lemma rd_memmove m dst src n x :
  0 <= n →
  rd (memmove m dst src n) x =
    if decide (dst <= x < dst + n) then rd m (src + (x - dst)) else rd m x.
Proof.
  intros Hn. unfold memmove.
  destruct (Z.eqb_spec n 0) as [->|Hn0].
  { rewrite decide_False by lia. done. }
  destruct (Z.ltb_spec src dst) as [Hsd|Hsd]; simpl.
  - destruct (Z.gtb_spec (src + n) dst) as [Hov|Hov].
    + rewrite rd_copy_down by lia. rewrite !Z2Nat.id by lia.
      repeat case_decide; try lia; try done; f_equal; lia.
    + rewrite rd_copy_up by lia. rewrite !Z2Nat.id by lia. done.
  - rewrite rd_copy_up by lia. rewrite !Z2Nat.id by lia. done.
Qed.

Lemma rd_memmove_out m dst src n x :
  0 <= n → x < dst ∨ dst + n <= x → rd (memmove m dst src n) x = rd m x.
Proof. intros. rewrite rd_memmove by done. rewrite decide_False by lia. done. Qed.

(** [memmove] copies [n] bytes correctly also when source and destination
    overlap in either direction: afterwards the destination holds the bytes
    the source held before, and no byte outside the destination changes. *)
Theorem memmove_copies (m : mem) (dst src n : Z) :
  0 <= n →
  read_bytes (memmove m dst src n) dst (Z.to_nat n) = read_bytes m src (Z.to_nat n) ∧
  (∀ x, x < dst ∨ dst + n <= x → rd (memmove m dst src n) x = rd m x).
Proof.
  intros Hn. split.
  - apply list_eq. intros i. destruct (decide (i < Z.to_nat n)%nat) as [Hi|Hi].
    + rewrite !lookup_read_bytes by done. rewrite rd_memmove by done.
      rewrite decide_True by lia. do 2 f_equal. lia.
    + rewrite !lookup_ge_None_2; [done| |]; rewrite length_read_bytes; lia.
  - intros x Hx. by apply rd_memmove_out.
Qed.

Lemma memmove_copies_witness :
  let m := write_bytes ∅ 100 [1; 2; 3; 4; 5; 6] in
  read_bytes (memmove m 102 100 4) 102 4 = [1; 2; 3; 4] ∧
  read_bytes (memmove m 100 102 4) 100 4 = [3; 4; 5; 6].
Proof.
  intros m. split.
  - etrans; [exact (proj1 (memmove_copies m 102 100 4 ltac:(lia)))|].
    vm_compute. reflexivity.
  - etrans; [exact (proj1 (memmove_copies m 100 102 4 ltac:(lia)))|].
    vm_compute. reflexivity.
Defined.

(** ** String functions *)

Lemma length_zero_fill s n : length (zero_fill s n) = length s.
Proof. revert s. induction n as [|n IH]; intros [|c s]; simpl; try done. by rewrite IH. Qed.

Lemma zero_fill_spec s n :
  (n <= length s)%nat → zero_fill s n = replicate n 0 ++ drop n s.
Proof.
  revert s. induction n as [|n IH]; intros [|c s] H; simpl in *; try done; try lia.
  rewrite IH by lia. done.
Qed.

Lemma strlen_cstr s : strlen s = Z.of_nat (length (cstr s)).
Proof.
  induction s as [|c s IH]; simpl; [done|]. destruct (c =? 0); [done|].
  simpl length. rewrite IH. lia.
Qed.

Lemma cstr_nonzero s : Forall (λ c, c ≠ 0) (cstr s).
Proof.
  induction s as [|c s IH]; simpl; [constructor|].
  destruct (Z.eqb_spec c 0); constructor; done.
Qed.

Lemma cstr_id s : Forall (λ c, c ≠ 0) s → cstr s = s.
Proof.
  induction 1 as [|c s Hc Hs IH]; simpl; [done|].
  rewrite (proj2 (Z.eqb_neq c 0)) by done. by rewrite IH.
Qed.

Lemma cstr_app_nul s t : Forall (λ c, c ≠ 0) s → cstr (s ++ 0 :: t) = s.
Proof.
  induction 1 as [|c s Hc Hs IH]; simpl; [done|].
  rewrite (proj2 (Z.eqb_neq c 0)) by done. by rewrite IH.
Qed.

Lemma chr_cstr s : chr s = 0 → cstr s = [].
Proof. destruct s as [|c s]; simpl; [done|]. intros ->. done. Qed.

Lemma cstr_cons s : chr s ≠ 0 → cstr s = chr s :: cstr (tl s).
Proof.
  destruct s as [|c s]; simpl; [done|]. intros H.
  by rewrite (proj2 (Z.eqb_neq c 0)).
Qed.

(** [strncmp] is 0 exactly when the two strings agree on their first [n]
    characters. *)
Lemma strncmp_zero p q n :
  strncmp p q n = 0 ↔ take n (cstr p) = take n (cstr q).
Proof.
  revert p q. induction n as [|n IH]; intros p q; simpl strncmp; [done|].
  destruct (Z.eqb_spec (chr p) 0) as [Hp|Hp]; simpl.
  - rewrite (chr_cstr p Hp), Hp.
    destruct (decide (chr q = 0)) as [Hq|Hq].
    + rewrite (chr_cstr q Hq), Hq. done.
    + rewrite (cstr_cons q Hq). simpl. split; [lia|discriminate].
  - rewrite (cstr_cons p Hp). destruct (Z.eqb_spec (chr p) (chr q)) as [Hpq|Hpq].
    + rewrite IH, (cstr_cons q) by congruence. rewrite Hpq. simpl.
      split; [by intros ->|]. by intros [=].
    + destruct (decide (chr q = 0)) as [Hq|Hq].
      * rewrite (chr_cstr q Hq), Hq. simpl. split; [lia|discriminate].
      * rewrite (cstr_cons q Hq). simpl. split; [lia|]. by intros [=].
Qed.

Lemma length_strncpy s t n : length (strncpy s t n) = length s.
Proof.
  revert s t. induction n as [|n IH]; intros [|c s] t; simpl; try done.
  destruct (chr t =? 0); [by rewrite length_zero_fill|by rewrite IH].
Qed.

(** [strncpy] writes the first [n] characters and pads with NULs to [n]. *)
Lemma strncpy_spec s t n :
  (n <= length s)%nat →
  strncpy s t n =
    take n (cstr t) ++ replicate (n - length (cstr t)) 0 ++ drop n s.
Proof.
  revert s t. induction n as [|n IH]; intros [|c s] t H; simpl in H; try (simpl; done); try lia.
  simpl strncpy. destruct (Z.eqb_spec (chr t) 0) as [Ht|Ht].
  - rewrite (chr_cstr t Ht), Ht, zero_fill_spec by lia. simpl. done.
  - rewrite (cstr_cons t Ht), IH by lia. done.
Qed.

Lemma cstr_app_replicate s n : Forall (λ c, c ≠ 0) s → cstr (s ++ replicate n 0) = s.
Proof.
  intros H. destruct n; simpl; [rewrite app_nil_r; by apply cstr_id|by apply cstr_app_nul].
Qed.

Lemma cstr_strncpy s t n :
  length s = n → cstr (strncpy s t n) = take n (cstr t).
Proof.
  intros <-. rewrite strncpy_spec by done. rewrite drop_all, app_nil_r.
  apply cstr_app_replicate. apply Forall_take, cstr_nonzero.
Qed.

#[global] Arguments memset : simpl never.
#[global] Arguments memmove : simpl never.
#[global] Opaque memset memmove.
