(* ===== verification/Riscv.v ===== *)
(** * kernel/riscv.h: the supervisor's registers

    The interrupt enable bit SSTATUS_SIE and the locks: [push_off] clears the bit
    and keeps its old value in [mycpu()->intena] when the first lock is taken, and
    [pop_off] puts it back when the last one is released.  So [c_sstatus] holds the
    bit while no lock is held, and [intena] while some are; the bit itself is then
    clear, unless [LIntr] on top of [k_held] says that it has been set since the
    last [push_off].  [mycpu()->noff] is the number of locks held. *)

From S2P Require Import Prelude Params State.

Definition SSTATUS_SPP : Z := Z.shiftl 1 8.
Definition SSTATUS_SPIE : Z := Z.shiftl 1 5.
Definition SSTATUS_SIE : Z := Z.shiftl 1 1.

Definition csr {A} (f : csrs → A) : K A := gets (λ s, f (k_csrs s)).
Definition upd_csrs (f : csrs → csrs) : K unit := modify (λ s, set_csrs (f (k_csrs s)) s).

Definition set_sstatus (x : Z) (c : csrs) : csrs :=
  mk_csrs x (c_sepc c) (c_scause c) (c_stval c) (c_stvec c) (c_satp c) (c_sip c) (c_tp c).

(** The locks, without the mark. *)
Definition unmarked (l : list lockid) : list lockid := match l with LIntr :: l => l | _ => l end.
Definition noff (s : kst) : nat := length (unmarked (k_held s)).

(** [mycpu()->intena] while a lock is held *)
Definition intena (s : kst) : Z := Z.land (c_sstatus (k_csrs s)) SSTATUS_SIE.
Definition set_intena (v : Z) (s : kst) : kst :=
  set_csrs (set_sstatus (Z.lor (Z.ldiff (c_sstatus (k_csrs s)) SSTATUS_SIE) v) (k_csrs s)) s.

Definition r_sstatus : K Z := gets (λ s,
  let x := c_sstatus (k_csrs s) in
  match k_held s with
  | [] => x
  | LIntr :: _ => Z.lor x SSTATUS_SIE
  | _ => Z.ldiff x SSTATUS_SIE
  end).
Definition w_sstatus (x : Z) : K unit := modify (λ s,
  match k_held s with
  | [] => set_csrs (set_sstatus x (k_csrs s)) s
  | l => set_held (if Z.land x SSTATUS_SIE =? 0 then unmarked l else LIntr :: unmarked l)
           (set_intena (intena s) (set_csrs (set_sstatus x (k_csrs s)) s))
  end).
Definition r_sepc : K Z := csr c_sepc.
Definition w_sepc (x : Z) : K unit :=
  upd_csrs (λ c, mk_csrs (c_sstatus c) x (c_scause c) (c_stval c) (c_stvec c) (c_satp c) (c_sip c) (c_tp c)).
Definition r_scause : K Z := csr c_scause.
Definition r_stval : K Z := csr c_stval.
Definition w_stvec (x : Z) : K unit :=
  upd_csrs (λ c, mk_csrs (c_sstatus c) (c_sepc c) (c_scause c) (c_stval c) x (c_satp c) (c_sip c) (c_tp c)).
Definition w_satp (x : Z) : K unit :=
  upd_csrs (λ c, mk_csrs (c_sstatus c) (c_sepc c) (c_scause c) (c_stval c) (c_stvec c) x (c_sip c) (c_tp c)).
Definition r_satp : K Z := csr c_satp.
Definition r_sip : K Z := csr c_sip.
Definition w_sip (x : Z) : K unit :=
  upd_csrs (λ c, mk_csrs (c_sstatus c) (c_sepc c) (c_scause c) (c_stval c) (c_stvec c) (c_satp c) x (c_tp c)).
Definition r_tp : K Z := csr c_tp.

Definition intr_on : K unit := x ← r_sstatus; w_sstatus (Z.lor x SSTATUS_SIE).
Definition intr_off : K unit := x ← r_sstatus; w_sstatus (Z.ldiff x SSTATUS_SIE).
Definition intr_get : K bool := x ← r_sstatus; mret (negb (Z.land x SSTATUS_SIE =? 0)).

(** kernel/proc.c *)
Definition cpuid : K Z := x ← r_tp; mret (i32 x).

(** Interrupts are off with a lock on top of the list. *)
Lemma intr_get_off s lk l : k_held s = lk :: l → lk ≠ LIntr → intr_get s = Done false s.
Proof.
  intros Hh Hne. unfold intr_get, r_sstatus, mbind, M_bind, gets. cbn. rewrite Hh.
  replace (match lk with LIntr => _ | _ => _ end) with (Z.ldiff (c_sstatus (k_csrs s)) SSTATUS_SIE) by (by destruct lk).
  by rewrite Z.land_ldiff.
Qed.

Lemma unmarked_id l : LIntr ∉ l → unmarked l = l.
Proof. destruct l as [|[] l]; try done. set_solver. Qed.

Lemma set_intena_id s : set_intena (intena s) s = s.
Proof.
  unfold set_intena, intena. replace (Z.lor _ _) with (c_sstatus (k_csrs s)).
  - unfold set_sstatus. destruct s as [? ? ? ? ? ? ? ? ? ? ? ? ? c]. by destruct c.
  - apply Z.bits_inj'. intros i _. rewrite Z.lor_spec, Z.ldiff_spec, Z.land_spec. by destruct (Z.testbit _ i), (Z.testbit _ i).
Qed.

Lemma set_intena_same s t : intena t = intena s → set_intena (intena s) t = t.
Proof. intros <-. apply set_intena_id. Qed.
