(* ===== verification/Spinlock.v ===== *)
(** * kernel/spinlock.c between harts

    The operations of spinlock.c as small steps of several harts that
    interleave at every access to shared memory: the two loads of [holding],
    the atomic swap, the store to [lk->cpu] and the store that frees the
    lock.  The theorems are mutual exclusion, the discipline of interrupts,
    and that the steps implement the atomic locks that Sched.v uses. *)

From S2P Require Import Prelude.
From stdpp Require Import relations.
#[local] Open Scope Z_scope.

(** ** The data: struct spinlock and struct cpu

    A lock and a hart are named by numbers; [sie] is the SIE bit of the
    hart's sstatus.  [pc] says where in an operation of spinlock.c the hart
    is and [held] lists the locks it has acquired and not begun to free. *)
Inductive lkpc : Set :=
| Idle
| AcqLocked (lk : nat)   (** [holding] loads [lk->locked] *)
| AcqCpu (lk : nat)      (** [holding] loads [lk->cpu] *)
| AcqSwap (lk : nat)     (** the swap loop *)
| AcqSet (lk : nat)      (** [lk->cpu = mycpu()] *)
| RelLocked (lk : nat)
| RelCpu (lk : nat)
| RelClear (lk : nat)    (** [lk->cpu = 0] *)
| RelFree (lk : nat)     (** [__sync_lock_release(&lk->locked)] *)
| RelPop                 (** [pop_off()] *)
| Panicked (msg : string).

#[global] Instance lkpc_eq_dec : EqDecision lkpc.
Proof. solve_decision. Defined.

Record slock : Type := mk_slock { locked : bool; lcpu : option nat }.

Record cpu : Type := mk_cpu {
  noff : Z;
  intena : bool;
  sie : bool;
  pc : lkpc;
  held : list nat;
}.

Record lsys : Type := mk_lsys { locks : nat → slock; cpus : nat → cpu }.

Definition upd {A} (f : nat → A) (i : nat) (x : A) : nat → A :=
  λ j, if decide (j = i) then x else f j.

Lemma upd_same {A} (f : nat → A) i x : upd f i x i = x.
Proof. unfold upd. by rewrite decide_True. Qed.
Lemma upd_other {A} (f : nat → A) i x j : j ≠ i → upd f i x j = f j.
Proof. intros. unfold upd. by rewrite decide_False. Qed.

Definition set_pc (p : lkpc) (c : cpu) : cpu := mk_cpu (noff c) (intena c) (sie c) p (held c).
Definition set_cheld (l : list nat) (c : cpu) : cpu := mk_cpu (noff c) (intena c) (sie c) (pc c) l.

(** ** The code *)

Definition initlock : slock := mk_slock false None.

Definition push_off (c : cpu) : cpu :=
  let old := sie c in
  mk_cpu (noff c + 1) (if noff c =? 0 then old else intena c) false (pc c) (held c).

Definition pop_off (c : cpu) : string + cpu :=
  if sie c then inl "pop_off - interruptible" else
  if noff c <? 1 then inl "pop_off" else
  let n := noff c - 1 in
  inr (mk_cpu n (intena c) ((n =? 0) && intena c) (pc c) (held c)).

(** One step of hart [h]; the operations are started with [acquire] and
    [release]. *)
Inductive lstep (h : nat) : lsys → lsys → Prop :=
| step_acquire s lk :
    pc (cpus s h) = Idle →
    lstep h s (mk_lsys (locks s) (upd (cpus s) h (set_pc (AcqLocked lk) (push_off (cpus s h)))))
| step_acq_locked s lk :
    pc (cpus s h) = AcqLocked lk →
    lstep h s (mk_lsys (locks s) (upd (cpus s) h
      (set_pc (if locked (locks s lk) then AcqCpu lk else AcqSwap lk) (cpus s h))))
| step_acq_cpu s lk :
    pc (cpus s h) = AcqCpu lk →
    lstep h s (mk_lsys (locks s) (upd (cpus s) h
      (set_pc (if decide (lcpu (locks s lk) = Some h) then Panicked "acquire" else AcqSwap lk)
         (cpus s h))))
| step_swap s lk :
    pc (cpus s h) = AcqSwap lk →
    lstep h s (mk_lsys (upd (locks s) lk (mk_slock true (lcpu (locks s lk)))) (upd (cpus s) h
      (set_pc (if locked (locks s lk) then AcqSwap lk else AcqSet lk) (cpus s h))))
| step_acq_set s lk :
    pc (cpus s h) = AcqSet lk →
    lstep h s (mk_lsys (upd (locks s) lk (mk_slock (locked (locks s lk)) (Some h)))
      (upd (cpus s) h (set_cheld (lk :: held (cpus s h)) (set_pc Idle (cpus s h)))))
| step_release s lk :
    pc (cpus s h) = Idle →
    lstep h s (mk_lsys (locks s) (upd (cpus s) h (set_pc (RelLocked lk) (cpus s h))))
| step_rel_locked s lk :
    pc (cpus s h) = RelLocked lk →
    lstep h s (mk_lsys (locks s) (upd (cpus s) h
      (set_pc (if locked (locks s lk) then RelCpu lk else Panicked "release") (cpus s h))))
| step_rel_cpu s lk :
    pc (cpus s h) = RelCpu lk →
    lstep h s (mk_lsys (locks s) (upd (cpus s) h
      (set_pc (if decide (lcpu (locks s lk) = Some h) then RelClear lk else Panicked "release")
         (cpus s h))))
| step_rel_clear s lk :
    pc (cpus s h) = RelClear lk →
    lstep h s (mk_lsys (upd (locks s) lk (mk_slock (locked (locks s lk)) None))
      (upd (cpus s) h (set_pc (RelFree lk) (cpus s h))))
| step_rel_free s lk :
    pc (cpus s h) = RelFree lk →
    lstep h s (mk_lsys (upd (locks s) lk (mk_slock false (lcpu (locks s lk))))
      (upd (cpus s) h (set_cheld (filter (λ l, l ≠ lk) (held (cpus s h))) (set_pc RelPop (cpus s h)))))
| step_rel_pop s :
    pc (cpus s h) = RelPop →
    lstep h s (mk_lsys (locks s) (upd (cpus s) h
      (match pop_off (cpus s h) with
       | inl msg => set_pc (Panicked msg) (cpus s h)
       | inr c => set_pc Idle c
       end))).

Definition lock_step (s s' : lsys) : Prop := ∃ h, lstep h s s'.

(** All locks free, no operation in progress. *)
Definition lock_init (s : lsys) : Prop :=
  (∀ lk, locks s lk = initlock) ∧
  (∀ h, noff (cpus s h) = 0 ∧ pc (cpus s h) = Idle ∧ held (cpus s h) = []).

Definition lock_reachable (s : lsys) : Prop := ∃ s0, lock_init s0 ∧ rtc lock_step s0 s.

(** ** Ownership

    A hart owns a lock from the swap that set it to the store that frees it. *)
Definition owns (s : lsys) (h lk : nat) : Prop :=
  lk ∈ held (cpus s h) ∨ pc (cpus s h) = AcqSet lk.

(** The operations in progress that [noff] counts besides the held locks. *)
Definition pending (p : lkpc) : option Z :=
  match p with
  | Idle | RelLocked _ | RelCpu _ | RelClear _ | RelFree _ => Some 0
  | AcqLocked _ | AcqCpu _ | AcqSwap _ | AcqSet _ | RelPop => Some 1
  | Panicked _ => None
  end.

(** What the position in an operation says about the lock at hand. *)
Definition pc_ok (p : lkpc) (l : list nat) : Prop :=
  match p with
  | AcqSwap lk | AcqSet lk => lk ∉ l
  | RelClear lk | RelFree lk => lk ∈ l
  | Panicked msg => msg = "acquire" ∨ msg = "release"
  | _ => True
  end.

Record lock_inv (s : lsys) : Prop := {
  li_locked : ∀ h lk, owns s h lk → locked (locks s lk) = true;
  li_unique : ∀ h1 h2 lk, owns s h1 lk → owns s h2 lk → h1 = h2;
  li_cpu : ∀ h lk, lcpu (locks s lk) = Some h ↔ lk ∈ held (cpus s h) ∧ pc (cpus s h) ≠ RelFree lk;
  li_noff : ∀ h n, pending (pc (cpus s h)) = Some n →
    noff (cpus s h) = Z.of_nat (length (held (cpus s h))) + n;
  li_sie : ∀ h, 0 < noff (cpus s h) → sie (cpus s h) = false;
  li_pc : ∀ h, pc_ok (pc (cpus s h)) (held (cpus s h));
  li_nodup : ∀ h, NoDup (held (cpus s h));
}.

Lemma lock_inv_init s : lock_init s → lock_inv s.
Proof.
  intros [Hl Hc]. split.
  - intros h lk [Hh|Hp]; destruct (Hc h) as (_ & Hpc & Hhe); [rewrite Hhe in Hh; by apply elem_of_nil in Hh|congruence].
  - intros h1 h2 lk [Hh|Hp]; destruct (Hc h1) as (_ & Hpc & Hhe); [rewrite Hhe in Hh; by apply elem_of_nil in Hh|congruence].
  - intros h lk. rewrite Hl. destruct (Hc h) as (_ & _ & ->). simpl.
    split; [done|]. intros [Hh _]. by apply elem_of_nil in Hh.
  - intros h n. destruct (Hc h) as (-> & -> & ->). simpl. intros [= <-]. done.
  - intros h. destruct (Hc h) as (-> & _). lia.
  - intros h. destruct (Hc h) as (_ & -> & _). done.
  - intros h. destruct (Hc h) as (_ & _ & ->). constructor.
Qed.

(** ** The invariant is kept

    A step of hart [h] on lock [lk]: [c'] and [L] are the hart and the locks
    after it. *)
Section preserve.
Context (s : lsys) (h lk : nat) (c' : cpu) (L : nat → slock).

Definition mine (c : cpu) (x : nat) : Prop := x ∈ held c ∨ pc c = AcqSet x.
Definition named (c : cpu) (x : nat) : Prop := x ∈ held c ∧ pc c ≠ RelFree x.

Context (Hi : lock_inv s) (HL : ∀ x, x ≠ lk → L x = locks s x)
  (Hmine : ∀ x, x ≠ lk → mine c' x ↔ mine (cpus s h) x)
  (Hnamed : ∀ x, x ≠ lk → named c' x ↔ named (cpus s h) x)
  (Hlocked : mine c' lk → locked (L lk) = true)
  (Hothers : ∀ h2, h2 ≠ h → owns s h2 lk → locked (L lk) = true ∧ ¬ mine c' lk)
  (Hcpu : lcpu (L lk) = Some h ↔ named c' lk)
  (Hcpu2 : ∀ h2, h2 ≠ h → lcpu (L lk) = Some h2 ↔ lcpu (locks s lk) = Some h2)
  (Hnoff : ∀ n, pending (pc c') = Some n → noff c' = Z.of_nat (length (held c')) + n)
  (Hsie : 0 < noff c' → sie c' = false)
  (Hpc : pc_ok (pc c') (held c')) (Hnd : NoDup (held c')).

Let s' := mk_lsys L (upd (cpus s) h c').

Lemma owns_after h2 x :
  owns s' h2 x ↔ if decide (h2 = h) then mine c' x else owns s h2 x.
Proof. unfold owns, s'; simpl. unfold upd. by case_decide. Qed.

Lemma lock_inv_after : lock_inv s'.
Proof.
  split.
  - intros h2 x. rewrite owns_after. unfold s'; simpl. destruct (decide (x = lk)) as [->|Hx].
    + case_decide; [by apply Hlocked|]. intros Ho. by apply (Hothers h2).
    + rewrite HL by done. case_decide; [|apply (li_locked _ Hi)]. intros Hm.
      apply (li_locked _ Hi h). by apply Hmine.
  - intros h1 h2 x. rewrite !owns_after. destruct (decide (x = lk)) as [->|Hx].
    + destruct (decide (h1 = h)), (decide (h2 = h)); intros H1 H2; subst; try done.
      * by destruct (Hothers h2).
      * by destruct (Hothers h1).
      * by eapply (li_unique _ Hi).
    + destruct (decide (h1 = h)), (decide (h2 = h)); intros H1 H2; subst; try done.
      * apply Hmine in H1; [|done]. by eapply (li_unique _ Hi).
      * apply Hmine in H2; [|done]. by eapply (li_unique _ Hi).
      * by eapply (li_unique _ Hi).
  - intros h2 x. unfold s'; simpl. unfold upd. destruct (decide (x = lk)) as [->|Hx].
    + destruct (decide (h2 = h)) as [->|]; [done|]. rewrite Hcpu2 by done. apply (li_cpu _ Hi).
    + rewrite HL by done. destruct (decide (h2 = h)) as [->|]; [|apply (li_cpu _ Hi)].
      rewrite (li_cpu _ Hi). symmetry. by apply Hnamed.
  - intros h2 n. unfold s'; simpl. unfold upd. case_decide; [apply Hnoff|apply (li_noff _ Hi)].
  - intros h2. unfold s'; simpl. unfold upd. case_decide; [apply Hsie|apply (li_sie _ Hi)].
  - intros h2. unfold s'; simpl. unfold upd. case_decide; [apply Hpc|apply (li_pc _ Hi)].
  - intros h2. unfold s'; simpl. unfold upd. case_decide; [apply Hnd|apply (li_nodup _ Hi)].
Qed.
End preserve.

(** [holding] is exact although it loads two fields one after the other. *)
Lemma holding_exact s h lk :
  lock_inv s → pc (cpus s h) ≠ RelFree lk →
  lcpu (locks s lk) = Some h ↔ lk ∈ held (cpus s h).
Proof. intros Hi Hp. rewrite (li_cpu _ Hi). tauto. Qed.

(** Steps that change neither the locks nor what the hart owns. *)
Lemma lock_inv_pc s h p :
  lock_inv s → pc_ok p (held (cpus s h)) →
  (∀ x, pc (cpus s h) ≠ AcqSet x ∧ p ≠ AcqSet x ∧ pc (cpus s h) ≠ RelFree x ∧ p ≠ RelFree x) →
  (∀ n, pending p = Some n → pending (pc (cpus s h)) = Some n) →
  lock_inv (mk_lsys (locks s) (upd (cpus s) h (set_pc p (cpus s h)))).
Proof.
  intros Hi Hp Hne Hpend. apply (lock_inv_after s h 0); simpl; try done.
  - intros x _. unfold mine. simpl. destruct (Hne x) as (? & ? & _). intuition congruence.
  - intros x _. unfold named. simpl. destruct (Hne x) as (_ & _ & ? & ?). intuition congruence.
  - intros [Hm|Hm]; [apply (li_locked _ Hi h); by left|destruct (Hne 0%nat) as (_ & Hn & _); by destruct Hn].
  - intros h2 Hh Ho. split; [by eapply (li_locked _ Hi)|]. intros [Hm|Hm]; [|destruct (Hne 0%nat) as (_ & Hn & _); by destruct Hn].
    apply Hh. eapply (li_unique _ Hi); [exact Ho|by left].
  - rewrite (li_cpu _ Hi). unfold named. simpl. destruct (Hne 0%nat) as (_ & _ & ? & ?). intuition congruence.
  - intros n Hn. apply (li_noff _ Hi). auto.
  - apply (li_sie _ Hi).
  - apply (li_nodup _ Hi).
Qed.

Lemma length_remove lk (l : list nat) :
  NoDup l → lk ∈ l → length l = S (length (filter (λ x, x ≠ lk) l)).
Proof.
  induction 1 as [|x l Hx Hl IH]; [by intros ?%elem_of_nil|].
  intros [->|Hin]%elem_of_cons.
  - rewrite filter_cons_False by auto. simpl. f_equal. clear IH Hl.
    induction l as [|y l IH]; [done|]. apply not_elem_of_cons in Hx as [Hy Hl].
    rewrite filter_cons_True by auto. simpl. f_equal. auto.
  - rewrite filter_cons_True by (intros ->; done). simpl. f_equal. auto.
Qed.

Lemma inv_acquire s h lk :
  lock_inv s → pc (cpus s h) = Idle →
  lock_inv (mk_lsys (locks s) (upd (cpus s) h (set_pc (AcqLocked lk) (push_off (cpus s h))))).
Proof.
  intros Hi Hp. apply (lock_inv_after s h 0); unfold mine, named; simpl; rewrite ?Hp; try done.
  - intuition congruence.
  - intuition congruence.
  - intros [Hm|?]; [|done]. apply (li_locked _ Hi h). by left.
  - intros h2 Hh Ho. split; [by eapply (li_locked _ Hi)|]. intros [Hm|?]; [|done].
    apply Hh. eapply (li_unique _ Hi); [exact Ho|by left].
  - rewrite (li_cpu _ Hi), Hp. intuition congruence.
  - intros n [= <-]. rewrite (li_noff _ Hi h 0) by (by rewrite Hp). lia.
  - apply (li_nodup _ Hi).
Qed.

Lemma inv_swap s h lk :
  lock_inv s → pc (cpus s h) = AcqSwap lk →
  lock_inv (mk_lsys (upd (locks s) lk (mk_slock true (lcpu (locks s lk)))) (upd (cpus s) h
    (set_pc (if locked (locks s lk) then AcqSwap lk else AcqSet lk) (cpus s h)))).
Proof.
  intros Hi Hp. pose proof (li_pc _ Hi h) as Hok. rewrite Hp in Hok. simpl in Hok.
  apply (lock_inv_after s h lk); unfold mine, named; simpl; rewrite ?upd_same, ?Hp; simpl; try done.
  - intros x Hx. by rewrite upd_other.
  - intros x Hx. destruct (locked _); intuition congruence.
  - intros x Hx. destruct (locked _); intuition congruence.
  - intros h2 Hh Ho. split; [done|]. rewrite (li_locked _ Hi h2 lk Ho). intros [?|?]; done.
  - rewrite (li_cpu _ Hi), Hp. destruct (locked _); intuition congruence.
  - intros n Hn. apply (li_noff _ Hi). rewrite Hp. by destruct (locked _).
  - apply (li_sie _ Hi).
  - by destruct (locked _).
  - apply (li_nodup _ Hi).
Qed.

Lemma inv_acq_set s h lk :
  lock_inv s → pc (cpus s h) = AcqSet lk →
  lock_inv (mk_lsys (upd (locks s) lk (mk_slock (locked (locks s lk)) (Some h)))
    (upd (cpus s) h (set_cheld (lk :: held (cpus s h)) (set_pc Idle (cpus s h))))).
Proof.
  intros Hi Hp. pose proof (li_pc _ Hi h) as Hok. rewrite Hp in Hok. simpl in Hok.
  assert (Hown : owns s h lk) by (by right).
  apply (lock_inv_after s h lk); unfold mine, named; simpl; rewrite ?upd_same, ?Hp; simpl; try done.
  - intros x Hx. by rewrite upd_other.
  - intros x Hx. rewrite elem_of_cons. intuition congruence.
  - intros x Hx. rewrite elem_of_cons. intuition congruence.
  - intros _. simpl. by apply (li_locked _ Hi h).
  - intros h2 Hh Ho. destruct Hh. by eapply (li_unique _ Hi).
  - split; [|done]. intros _. split; [by left|done].
  - intros h2 Hh. split; [congruence|]. rewrite (li_cpu _ Hi). intros [Hin _]. destruct Hh.
    eapply (li_unique _ Hi); [by left|exact Hown].
  - intros n [= <-]. rewrite (li_noff _ Hi h 1) by (by rewrite Hp). lia.
  - apply (li_sie _ Hi).
  - constructor; [done|apply (li_nodup _ Hi)].
Qed.

Lemma inv_rel_clear s h lk :
  lock_inv s → pc (cpus s h) = RelClear lk →
  lock_inv (mk_lsys (upd (locks s) lk (mk_slock (locked (locks s lk)) None))
    (upd (cpus s) h (set_pc (RelFree lk) (cpus s h)))).
Proof.
  intros Hi Hp. pose proof (li_pc _ Hi h) as Hok. rewrite Hp in Hok. simpl in Hok.
  assert (Hc : lcpu (locks s lk) = Some h) by (apply (li_cpu _ Hi); rewrite Hp; done).
  apply (lock_inv_after s h lk); unfold mine, named; simpl; rewrite ?upd_same, ?Hp; simpl; try done.
  - intros x Hx. by rewrite upd_other.
  - intros x Hx. intuition congruence.
  - intros x Hx. intuition congruence.
  - intros _. apply (li_locked _ Hi h). by left.
  - intros h2 Hh Ho. destruct Hh. eapply (li_unique _ Hi); [exact Ho|by left].
  - split; [done|]. intros [_ ?]. done.
  - intros h2 Hh. rewrite Hc. intuition congruence.
  - intros n [= <-]. apply (li_noff _ Hi). by rewrite Hp.
  - apply (li_sie _ Hi).
  - apply (li_nodup _ Hi).
Qed.

Lemma inv_rel_free s h lk :
  lock_inv s → pc (cpus s h) = RelFree lk →
  lock_inv (mk_lsys (upd (locks s) lk (mk_slock false (lcpu (locks s lk))))
    (upd (cpus s) h (set_cheld (filter (λ l, l ≠ lk) (held (cpus s h))) (set_pc RelPop (cpus s h))))).
Proof.
  intros Hi Hp. pose proof (li_pc _ Hi h) as Hok. rewrite Hp in Hok. simpl in Hok.
  assert (Hnot : lk ∉ filter (λ l, l ≠ lk) (held (cpus s h))) by (rewrite list_elem_of_filter; tauto).
  apply (lock_inv_after s h lk); unfold mine, named; simpl; rewrite ?upd_same, ?Hp; simpl; try done.
  - intros x Hx. by rewrite upd_other.
  - intros x Hx. rewrite list_elem_of_filter. intuition congruence.
  - intros x Hx. rewrite list_elem_of_filter. intuition congruence.
  - intros [?|?]; done.
  - intros h2 Hh Ho. destruct Hh. eapply (li_unique _ Hi); [exact Ho|by left].
  - simpl. rewrite (li_cpu _ Hi), Hp. intuition congruence.
  - intros n [= <-]. rewrite (li_noff _ Hi h 0) by (by rewrite Hp).
    rewrite (length_remove lk (held (cpus s h)) (li_nodup _ Hi h) Hok). lia.
  - apply (li_sie _ Hi).
  - apply NoDup_filter, (li_nodup _ Hi).
Qed.

Lemma pop_off_ok s h :
  lock_inv s → pc (cpus s h) = RelPop →
  ∃ c, pop_off (cpus s h) = inr c ∧ held c = held (cpus s h) ∧
    noff c = Z.of_nat (length (held c)) ∧ (0 < noff c → sie c = false).
Proof.
  intros Hi Hp. pose proof (li_noff _ Hi h 1 ltac:(by rewrite Hp)) as Hn.
  unfold pop_off. rewrite (li_sie _ Hi h) by lia. rewrite (proj2 (Z.ltb_ge _ _)) by lia.
  eexists. split; [done|]. simpl. split_and!; [done|lia|]. intros Hpos.
  by rewrite (proj2 (Z.eqb_neq _ _)) by lia.
Qed.

Lemma inv_rel_pop s h c :
  lock_inv s → pc (cpus s h) = RelPop → held c = held (cpus s h) →
  noff c = Z.of_nat (length (held c)) → (0 < noff c → sie c = false) →
  lock_inv (mk_lsys (locks s) (upd (cpus s) h (set_pc Idle c))).
Proof.
  intros Hi Hp Hh Hn Hs. apply (lock_inv_after s h 0); unfold mine, named; simpl; rewrite ?Hp, ?Hh; try done.
  - intuition congruence.
  - intuition congruence.
  - intros [Hm|?]; [|done]. apply (li_locked _ Hi h). by left.
  - intros h2 Hne Ho. split; [by eapply (li_locked _ Hi)|]. intros [Hm|?]; [|done].
    apply Hne. eapply (li_unique _ Hi); [exact Ho|by left].
  - rewrite (li_cpu _ Hi), Hp. intuition congruence.
  - intros n [= <-]. rewrite Hn, Hh. lia.
  - apply (li_nodup _ Hi).
Qed.

Lemma lock_inv_step h s s' : lock_inv s → lstep h s s' → lock_inv s'.
Proof.
  intros Hi Hs. destruct Hs as [s lk Hp|s lk Hp|s lk Hp|s lk Hp|s lk Hp|s lk Hp|s lk Hp|s lk Hp|s lk Hp|s lk Hp|s Hp].
  - by apply inv_acquire.
  - apply lock_inv_pc; [done| | |]; destruct (locked (locks s lk)) eqn:El; rewrite ?Hp; try done.
    simpl. intros Hin. rewrite (li_locked _ Hi h lk) in El by (by left). done.
  - apply lock_inv_pc; [done| | |]; case_decide as Hd; rewrite ?Hp; try done; simpl; [by left|].
    intros Hin. apply Hd. apply (holding_exact s h lk Hi); [by rewrite Hp|done].
  - by apply inv_swap.
  - by apply inv_acq_set.
  - apply lock_inv_pc; rewrite ?Hp; done.
  - apply lock_inv_pc; [done| | |]; destruct (locked (locks s lk)) eqn:El; rewrite ?Hp; try done. by right.
  - apply lock_inv_pc; [done| | |]; case_decide as Hd; rewrite ?Hp; try done; simpl; [|by right].
    apply (holding_exact s h lk Hi); [by rewrite Hp|done].
  - by apply inv_rel_clear.
  - by apply inv_rel_free.
  - destruct (pop_off_ok s h Hi Hp) as (c & -> & Hh & Hn & Hs). by apply inv_rel_pop.
Qed.

Lemma lock_inv_reachable s : lock_reachable s → lock_inv s.
Proof.
  intros (s0 & H0 & Hr). apply lock_inv_init in H0.
  induction Hr as [|s s1 s2 [h Hs] _ IH]; [done|]. apply IH. by eapply lock_inv_step.
Qed.

(** ** The theorems *)

(** C6: Mutual exclusion: in every reachable state a lock is owned by at most
    one hart, and a hart that holds a lock runs with interrupts off, finds
    the lock marked as taken, and, until it starts to free it, finds itself
    in [lk->cpu]. *)
Theorem mutual_exclusion (s : lsys) (h1 h2 lk : nat) :
  lock_reachable s → owns s h1 lk → owns s h2 lk →
  h1 = h2 ∧ locked (locks s lk) = true ∧
  (lk ∈ held (cpus s h1) → (∀ msg, pc (cpus s h1) ≠ Panicked msg) → sie (cpus s h1) = false) ∧
  (lk ∈ held (cpus s h1) → pc (cpus s h1) ≠ RelFree lk → lcpu (locks s lk) = Some h1).
Proof.
  intros Hr H1 H2. apply lock_inv_reachable in Hr as Hi. split_and!.
  - by eapply li_unique.
  - by eapply li_locked.
  - intros Hin Hnp. apply (li_sie _ Hi). destruct (pending (pc (cpus s h1))) as [n|] eqn:Ep.
    + rewrite (li_noff _ Hi h1 n Ep). apply list_elem_of_split in Hin as (l1 & l2 & ->).
      rewrite length_app. simpl. destruct (pc (cpus s h1)); simpl in Ep; try discriminate Ep; injection Ep; lia.
    + destruct (pc (cpus s h1)) as [| | | | | | | | | |msg]; try discriminate Ep. by destruct (Hnp msg).
  - intros Hin Hp. by apply (li_cpu _ Hi).
Qed.

(** The atomic locks: a lock is taken when no hart has it and given back by
    the hart that has it. *)
Definition alocks : Type := nat → list nat.

Inductive astep (h : nat) (A : alocks) : alocks → Prop :=
| a_acquire lk : (∀ h', lk ∉ A h') → astep h A (upd A h (lk :: A h))
| a_release lk : lk ∈ A h → astep h A (upd A h (filter (λ l, l ≠ lk) (A h))).

(** What a state of the harts stands for. *)
Definition abs (s : lsys) : alocks :=
  λ h, match pc (cpus s h) with
       | AcqSet lk => lk :: held (cpus s h)
       | _ => held (cpus s h)
       end.

Lemma elem_of_abs s h lk : lk ∈ abs s h ↔ owns s h lk.
Proof.
  unfold abs, owns. destruct (pc (cpus s h)) as [| | | |x| | | | | |]; try (intuition congruence).
  rewrite elem_of_cons. intuition congruence.
Qed.

Lemma abs_other L s h c h' : h' ≠ h → abs (mk_lsys L (upd (cpus s) h c)) h' = abs s h'.
Proof. intros Hh. unfold abs. simpl. by rewrite upd_other. Qed.

Lemma abs_self L s h c :
  abs (mk_lsys L (upd (cpus s) h c)) h = match pc c with AcqSet lk => lk :: held c | _ => held c end.
Proof. unfold abs. simpl. by rewrite upd_same. Qed.

(** A step that does not change what hart [h] stands for is invisible. *)
Lemma abs_stutter L s h c :
  match pc c with AcqSet lk => lk :: held c | _ => held c end = abs s h →
  ∀ h', abs (mk_lsys L (upd (cpus s) h c)) h' = abs s h'.
Proof.
  intros Hc h'. destruct (decide (h' = h)) as [->|]; [by rewrite abs_self|by rewrite abs_other].
Qed.

Lemma abs_visible L s h c A :
  match pc c with AcqSet lk => lk :: held c | _ => held c end = A →
  ∀ h', abs (mk_lsys L (upd (cpus s) h c)) h' = upd (abs s) h A h'.
Proof.
  intros Hc h'. destruct (decide (h' = h)) as [->|]; [by rewrite abs_self, upd_same|].
  by rewrite abs_other, upd_other.
Qed.

(** C16: The steps of spinlock.c implement atomic locks: every step of a hart is
    one acquisition or release of the atomic locks or none, [acquire] panics
    exactly when the hart already holds the lock, [release] exactly when it
    does not, and no other panic of spinlock.c is reachable. *)
Theorem spinlock_refines (s s' : lsys) (h : nat) :
  lock_reachable s → lstep h s s' →
  ((∀ h', abs s' h' = abs s h') ∨
   (∃ A, astep h (abs s) A ∧ ∀ h', abs s' h' = A h')) ∧
  (∀ lk, pc (cpus s h) = AcqLocked lk ∨ pc (cpus s h) = AcqCpu lk →
     lk ∈ abs s h → pc (cpus s' h) = AcqCpu lk ∨ pc (cpus s' h) = Panicked "acquire") ∧
  (∀ lk, pc (cpus s h) = RelLocked lk ∨ pc (cpus s h) = RelCpu lk →
     lk ∈ abs s h → pc (cpus s' h) = RelCpu lk ∨ pc (cpus s' h) = RelClear lk) ∧
  (∀ msg, pc (cpus s' h) = Panicked msg →
     (msg = "acquire" ∧ ∃ lk, pc (cpus s h) = AcqCpu lk ∧ lk ∈ abs s h) ∨
     (msg = "release" ∧ ∃ lk, (pc (cpus s h) = RelLocked lk ∨ pc (cpus s h) = RelCpu lk) ∧ lk ∉ abs s h)).
Proof.
  intros Hr Hs. apply lock_inv_reachable in Hr as Hi. split_and!.
  - destruct Hs as [s lk Hp|s lk Hp|s lk Hp|s lk Hp|s lk Hp|s lk Hp|s lk Hp|s lk Hp|s lk Hp|s lk Hp|s Hp].
    1,2,3,5,6,7,8,9: left; apply abs_stutter; unfold abs; rewrite Hp; simpl; by repeat case_match.
    + simpl. destruct (locked (locks s lk)) eqn:El.
      * left. apply abs_stutter. unfold abs. by rewrite Hp.
      * right. eexists. split; [apply (a_acquire h (abs s) lk)|].
        { intros h' Hin. apply elem_of_abs in Hin. by rewrite (li_locked _ Hi _ _ Hin) in El. }
        apply abs_visible. unfold abs. by rewrite Hp.
    + right. eexists. split; [apply (a_release h (abs s) lk)|].
      { apply elem_of_abs. left. pose proof (li_pc _ Hi h) as Hok. by rewrite Hp in Hok. }
      apply abs_visible. unfold abs. by rewrite Hp.
    + left. destruct (pop_off_ok s h Hi Hp) as (c & -> & Hh & _). apply abs_stutter. unfold abs. by rewrite Hp.
  - intros lk Hpc Hin. apply elem_of_abs in Hin as Ho.
    destruct Hs as [s l Hp|s l Hp|s l Hp|s l Hp|s l Hp|s l Hp|s l Hp|s l Hp|s l Hp|s l Hp|s Hp];
      rewrite Hp in Hpc; destruct Hpc as [E|E]; try discriminate E; injection E as ->; simpl; rewrite upd_same.
    + rewrite (li_locked _ Hi _ _ Ho). by left.
    + destruct Ho as [Ho|Ho]; [|congruence]. rewrite decide_True; [by right|].
      apply (li_cpu _ Hi). by rewrite Hp.
  - intros lk Hpc Hin. apply elem_of_abs in Hin as Ho.
    destruct Hs as [s l Hp|s l Hp|s l Hp|s l Hp|s l Hp|s l Hp|s l Hp|s l Hp|s l Hp|s l Hp|s Hp];
      rewrite Hp in Hpc; destruct Hpc as [E|E]; try discriminate E; injection E as ->; simpl; rewrite upd_same.
    + rewrite (li_locked _ Hi _ _ Ho). by left.
    + destruct Ho as [Ho|Ho]; [|congruence]. rewrite decide_True; [by right|].
      apply (li_cpu _ Hi). by rewrite Hp.
  - intros msg. destruct Hs as [s l Hp|s l Hp|s l Hp|s l Hp|s l Hp|s l Hp|s l Hp|s l Hp|s l Hp|s l Hp|s Hp];
      simpl; rewrite upd_same; simpl; try done.
    + by destruct (locked _).
    + case_decide as Hd; [|done]. intros [= <-]. left. split; [done|]. exists l. split; [done|].
      apply elem_of_abs. left. by apply (li_cpu _ Hi) in Hd as [? _].
    + by destruct (locked _).
    + destruct (locked _) eqn:El; [done|]. intros [= <-]. right. split; [done|]. exists l. split; [by left|].
      rewrite elem_of_abs. intros Ho. by rewrite (li_locked _ Hi _ _ Ho) in El.
    + case_decide as Hd; [done|]. intros [= <-]. right. split; [done|]. exists l. split; [by right|].
      rewrite elem_of_abs. intros [Ho|Ho]; [|congruence]. apply Hd, (li_cpu _ Hi). by rewrite Hp.
    + destruct (pop_off_ok s h Hi Hp) as (c & -> & _). done.
Qed.

(** [n] calls of [pop_off]. *)
Fixpoint pop_offs (n : nat) (c : cpu) : string + cpu :=
  match n with
  | O => inr c
  | S n => match pop_off c with inl msg => inl msg | inr c => pop_offs n c end
  end.

Lemma push_offs_inner n c :
  0 < noff c → sie c = false →
  pop_offs n (Nat.iter n push_off c) = inr c.
Proof.
  revert c. induction n as [|n IH]; intros c Hn Hs; [done|].
  simpl. unfold push_off at 1, pop_off at 1. simpl.
  assert (Hit : ∀ k, sie (Nat.iter k push_off c) = false ∧ 0 < noff (Nat.iter k push_off c)).
  { induction k as [|k [IH1 IH2]]; simpl; [done|]. split; [done|]. lia. }
  destruct (Hit n) as [H1 H2]. rewrite (proj2 (Z.ltb_ge _ _)) by lia.
  replace (noff (Nat.iter n push_off c) + 1 - 1) with (noff (Nat.iter n push_off c)) by lia.
  rewrite !(proj2 (Z.eqb_neq _ 0)) by lia. simpl.
  replace (mk_cpu _ _ _ _ _) with (Nat.iter n push_off c); [by apply IH|].
  destruct (Nat.iter n push_off c) as [a b e p l]. simpl in *. by subst e.
Qed.

(** [push_off] and [pop_off] are matched: after [n] calls of [push_off] on a
    hart with no [push_off] pending interrupts are off, and [n] calls of
    [pop_off] put the hart back to the state it was in, interrupts included,
    without a panic. *)
Theorem push_pop_matched (n : nat) (c : cpu) :
  noff c = 0 → (0 < n)%nat →
  sie (Nat.iter n push_off c) = false ∧
  ∃ c', pop_offs n (Nat.iter n push_off c) = inr c' ∧
    noff c' = 0 ∧ sie c' = sie c ∧ held c' = held c ∧ pc c' = pc c.
Proof.
  intros Hc Hn. destruct n as [|n]; [lia|]. split; [done|].
  rewrite Nat.iter_succ_r. set (c1 := push_off c).
  assert (Hs : ∀ k d, pop_offs (k + 1) d = match pop_offs k d with inl msg => inl msg | inr d' => pop_offs 1 d' end).
  { induction k as [|k IH]; intros d; simpl; [by destruct (pop_off d)|].
    destruct (pop_off d); [done|]. by rewrite IH. }
  replace (S n) with (n + 1)%nat by lia.
  rewrite Hs, push_offs_inner by (simpl; (done || lia)).
  eexists. split; [unfold c1, push_off, pop_off; simpl; rewrite Hc; done|]. simpl.
  by destruct (sie c).
Qed.

(** ** A run: hart 0 acquires lock 7 and releases it *)

Definition run0 : lsys := mk_lsys (λ _, initlock) (λ _, mk_cpu 0 false true Idle []).

Lemma run0_init : lock_init run0.
Proof. by split; [|intros h; repeat split]. Qed.

Ltac run_lock tac :=
  eapply rtc_l; [exists 0%nat; tac; reflexivity|]; simpl.

Lemma run_acquired : ∃ s, lock_reachable s ∧ 7%nat ∈ held (cpus s 0) ∧ pc (cpus s 0) = Idle.
Proof.
  eexists. split; [exists run0; split; [apply run0_init|]|].
  - run_lock ltac:(apply (step_acquire 0 run0 7)).
    run_lock ltac:(eapply (step_acq_locked 0 _ 7)).
    run_lock ltac:(eapply (step_swap 0 _ 7)).
    run_lock ltac:(eapply (step_acq_set 0 _ 7)).
    apply rtc_refl.
  - simpl. split; [by left|done].
Qed.

Lemma mutual_exclusion_witness :
  ∃ s, lock_reachable s ∧ owns s 0 7 ∧ sie (cpus s 0) = false ∧ lcpu (locks s 7) = Some 0%nat.
Proof.
  destruct run_acquired as (s & Hr & Hin & Hp).
  destruct (mutual_exclusion s 0 0 7 Hr (or_introl Hin) (or_introl Hin)) as (_ & _ & Hs & Hc).
  exists s. split; [exact Hr|]. split; [by left|].
  split; [apply Hs; [exact Hin|intros msg; rewrite Hp; discriminate]|].
  apply Hc; [exact Hin|rewrite Hp; discriminate].
Defined.

Lemma spinlock_refines_witness :
  ∃ s', lstep 0 run0 s' ∧ ∀ h', abs s' h' = abs run0 h'.
Proof.
  eexists. split; [apply (step_acquire 0 run0 7); reflexivity|].
  assert (Hr : lock_reachable run0) by (exists run0; split; [apply run0_init|apply rtc_refl]).
  destruct (spinlock_refines run0 _ 0 Hr (step_acquire 0 run0 7 eq_refl)) as [[Hst|(A & Ha & HA)] _]; [exact Hst|].
  intros h'. destruct (decide (h' = 0%nat)) as [->|Hne]; [reflexivity|].
  rewrite abs_other by exact Hne. reflexivity.
Defined.

Lemma push_pop_matched_witness :
  let c := mk_cpu 0 false true Idle [] in
  ∃ c', pop_offs 3 (Nat.iter 3 push_off c) = inr c' ∧ sie c' = true.
Proof.
  destruct (push_pop_matched 3 (mk_cpu 0 false true Idle []) eq_refl ltac:(lia)) as (_ & c' & Hc & _ & Hs & _).
  exists c'. split; [exact Hc|exact Hs].
Defined.
