(* ===== verification/Sched.v ===== *)
(** * Locks and scheduling as a kernel thread sees them

    The spinlock operations on the set of locks the running thread holds, the
    process-table operations of kernel/proc.c that other components call
    ([myproc], [sleep], [wakeup], [sched], [yield], [kill], [allocpid]) and
    kernel/sleeplock.c.  What happens between harts in [acquire] and
    [release] is the subject of Spinlock.v. *)

From S2P Require Import Prelude Memory Params State Riscv.

(** ** Spinlocks

    [push_off] in [acquire] turns interrupts off, and counts the lock; the checks
    of [pop_off] in [release] come after the lock is free. *)

Definition holding (lk : lockid) : K bool :=
  gets (λ s, bool_decide (lk ∈ k_held s)).

Definition acquire (lk : lockid) : K unit :=
  h ← holding lk;
  if h : bool then panic "acquire"
  else modify (λ s, set_held (lk :: unmarked (k_held s)) s).

Definition release (lk : lockid) : K unit :=
  h ← holding lk;
  if negb h then panic "release" else
  on ← intr_get;
  if on : bool then panic "pop_off - interruptible" else
  n ← gets noff;
  if (n <? 1)%nat then panic "pop_off"
  else modify (λ s, set_held (filter (λ l, l ≠ lk) (k_held s)) s).

(** ** The process table *)

(** [&proc[i]] *)
Definition get_proc (s : kst) (i : nat) : proc := ps_procs (k_proc s) !!! i.

Definition set_procs (v : list proc) (s : kst) : kst :=
  let q := k_proc s in
  set_proc (mk_pstate v (ps_cur q) (ps_initproc q) (ps_nextpid q) (ps_first q)) s.

Definition upd_proc (i : nat) (f : proc → proc) : K unit :=
  modify (λ s, set_procs (<[i := f (get_proc s i)]> (ps_procs (k_proc s))) s).

(** [push_off] and [pop_off] around the read turn interrupts off and on again;
    that they leave them off where they should have been off, with a lock held,
    is not modelled. *)
Definition myproc : K nat := gets (λ s, ps_cur (k_proc s)).
Definition proc_get {A} (i : nat) (f : proc → A) : K A := gets (λ s, f (get_proc s i)).

Definition allocpid : K Z :=
  acquire LPid;;
  pid ← gets (λ s, ps_nextpid (k_proc s));
  modify (λ s, let q := k_proc s in
    set_proc (mk_pstate (ps_procs q) (ps_cur q) (ps_initproc q) (i32 (pid + 1)) (ps_first q)) s);;
  release LPid;;
  mret pid.

(** [swtch(&p->context, &mycpu()->context)] as the calling thread sees it:
    the scheduler resumes the thread with the state other threads left. *)
Definition swtch : K unit := λ s, Swtch s (λ s', Done tt s').

Definition sched : K unit :=
  p ← myproc;
  h ← holding (LProc p);
  if negb h then panic "sched p->lock" else
  n ← gets noff;
  if negb (n =? 1)%nat then panic "sched locks" else
  st ← proc_get p p_state;
  if bool_decide (st = RUNNING) then panic "sched running" else
  on ← intr_get;
  if on : bool then panic "sched interruptible" else
  i ← gets intena;
  swtch;;
  modify (set_intena i).

Definition yield : K unit :=
  p ← myproc;
  acquire (LProc p);;
  upd_proc p (set_p_state RUNNABLE);;
  sched;;
  release (LProc p).

Definition sleep (ch : chan) (lk : lockid) : K unit :=
  p ← myproc;
  acquire (LProc p);;
  release lk;;
  upd_proc p (set_p_chan (Some ch));;
  upd_proc p (set_p_state SLEEPING);;
  sched;;
  upd_proc p (set_p_chan None);;
  release (LProc p);;
  acquire lk.

(** One iteration of the loop of [wakeup]; no channel is the null pointer. *)
Definition wakeup_one (ch : option chan) (i : nat) : K unit :=
  me ← myproc;
  if bool_decide (i = me) then mret tt else
  acquire (LProc i);;
  p ← gets (λ s, get_proc s i);
  (if bool_decide (p_state p = SLEEPING ∧ p_chan p = ch)
   then upd_proc i (set_p_state RUNNABLE) else mret tt);;
  release (LProc i).

Definition wakeup (ch : chan) : K unit :=
  for_each NPROC 0 (λ i, wakeup_one (Some ch) (Z.to_nat i)).

(** [wakeup(p)] for a pointer to a process that may be null. *)
Definition wakeup_proc (p : option nat) : K unit :=
  for_each NPROC 0 (λ i, wakeup_one (ChProc <$> p) (Z.to_nat i)).

Definition kill_one (pid : Z) (i : nat) : K (option Z) :=
  acquire (LProc i);;
  p ← gets (λ s, get_proc s i);
  if p_pid p =? pid then
    upd_proc i (set_p_killed 1);;
    (if bool_decide (p_state p = SLEEPING) then upd_proc i (set_p_state RUNNABLE)
     else mret tt);;
    release (LProc i);;
    mret (Some 0)
  else
    release (LProc i);;
    mret None.

Definition kill (pid : Z) : K Z :=
  r ← for_find NPROC 0 (λ i, kill_one pid (Z.to_nat i));
  mret (default (-1) r).

(** ** kernel/sleeplock.c

    A sleep lock is named by its inner spinlock [lk] and its channel [ch];
    [get] and [put] read and write its fields. *)
Section sleeplock.
Context `{WaitFuel}.
Context (lk : lockid) (ch : chan)
        (get : kst → sleeplock) (put : sleeplock → kst → kst).

Definition initsleeplock : K unit := modify (put (mk_sleeplock false 0)).

(** [while (lk->locked) sleep(lk, &lk->lk);] *)
Fixpoint acquiresleep_wait (fuel : nat) : K unit :=
  l ← gets get;
  if negb (sl_locked l) then mret tt else
  match fuel with
  | O => out_of_fuel
  | S fuel => sleep ch lk;; acquiresleep_wait fuel
  end.

Definition acquiresleep : K unit :=
  acquire lk;;
  acquiresleep_wait wait_fuel;;
  p ← myproc;
  pid ← proc_get p p_pid;
  modify (put (mk_sleeplock true pid));;
  release lk.

Definition releasesleep : K unit :=
  acquire lk;;
  modify (put (mk_sleeplock false 0));;
  wakeup ch;;
  release lk.

Definition holdingsleep : K bool :=
  acquire lk;;
  l ← gets get;
  p ← myproc;
  pid ← proc_get p p_pid;
  release lk;;
  mret (sl_locked l && (sl_pid l =? pid)).
End sleeplock.

(** ** Lock operations on a known set of held locks *)

Lemma set_held_id s : set_held (k_held s) s = s.
Proof. by destruct s. Qed.

Lemma filter_head lk (l : list lockid) :
  lk ∉ l → filter (λ x, x ≠ lk) (lk :: l) = l.
Proof.
  intros H. rewrite filter_cons_False by auto.
  induction l as [|x l IH]; [done|]. apply not_elem_of_cons in H as [Hx Hl].
  rewrite filter_cons_True by auto. by rewrite IH.
Qed.

(** The lock is not held, and interrupts are off if another one is. *)
Notation unlocked lk s := (lk ∉ LIntr :: k_held s ∧ LIntr ∉ k_held s).

Lemma unlocked_nil lk s : k_held s = [] → lk ≠ LIntr → unlocked lk s.
Proof. intros ->. set_solver. Qed.

Lemma acquire_ok lk s :
  unlocked lk s → acquire lk s = Done tt (set_held (lk :: k_held s) s).
Proof.
  intros [H HI]. unfold acquire, holding, gets, mbind, M_bind. simpl.
  rewrite bool_decide_false by set_solver. unfold modify. by rewrite unmarked_id.
Qed.

Lemma acquire_panic lk s : lk ∈ k_held s → acquire lk s = Panic "acquire" s.
Proof.
  intros H. unfold acquire, holding, gets, mbind, M_bind. simpl.
  by rewrite bool_decide_true.
Qed.

Lemma release_free lk a l s :
  k_held s = a :: l → a ≠ LIntr → lk ∈ k_held s →
  release lk s = Done tt (set_held (filter (λ x, x ≠ lk) (k_held s)) s).
Proof.
  intros Hs Ha Hin. unfold release. run_by (unfold holding, gets; reflexivity). rewrite bool_decide_true by done. cbn [negb].
  run_by (by eapply intr_get_off). run_by (unfold gets; reflexivity).
  assert (noff s = S (length l)) as -> by (unfold noff; rewrite Hs; by destruct a). done.
Qed.

Lemma release_ok lk l s :
  k_held s = lk :: l → lk ∉ LIntr :: l → release lk s = Done tt (set_held l s).
Proof.
  intros Hs H. rewrite (release_free lk lk l), Hs, filter_head; [done|set_solver|done|set_solver|rewrite Hs; set_solver].
Qed.

Lemma release_panic lk s : lk ∉ k_held s → release lk s = Panic "release" s.
Proof.
  intros H. unfold release, holding, gets, mbind, M_bind. simpl.
  by rewrite bool_decide_false.
Qed.

(** ** State updates *)

Lemma get_proc_held l s i : get_proc (set_held l s) i = get_proc s i.
Proof. done. Qed.
Lemma k_proc_held l s : k_proc (set_held l s) = k_proc s.
Proof. done. Qed.
Lemma set_procs_id s : set_procs (ps_procs (k_proc s)) s = s.
Proof. by destruct s as [? [] ? ? ? ? ? ? ? ? ? ? ? ? ? ?]. Qed.
Lemma set_procs_set_procs v w s : set_procs v (set_procs w s) = set_procs v s.
Proof. done. Qed.
Lemma get_proc_set_procs v s i : get_proc (set_procs v s) i = v !!! i.
Proof. done. Qed.
Lemma held_set_procs v s : k_held (set_procs v s) = k_held s.
Proof. done. Qed.
Lemma procs_set_procs v s : ps_procs (k_proc (set_procs v s)) = v.
Proof. done. Qed.
Lemma cur_set_procs v s : ps_cur (k_proc (set_procs v s)) = ps_cur (k_proc s).
Proof. done. Qed.
#[export] Hint Rewrite get_proc_held k_proc_held set_procs_id set_procs_set_procs get_proc_set_procs held_set_procs
  procs_set_procs cur_set_procs : kst.

(** [acquire lk; ...; release lk] around a change of the process table. *)
Lemma locked_upd lk i f s :
  unlocked lk s →
  (acquire lk;; upd_proc i f;; release lk) s =
    Done tt (set_procs (<[i := f (get_proc s i)]> (ps_procs (k_proc s))) s).
Proof.
  intros Hlk. run_by (by apply acquire_ok). run_by (unfold upd_proc, modify; reflexivity).
  erewrite release_ok; [|reflexivity|apply Hlk]. by destruct s.
Qed.

Lemma locked_skip lk s : unlocked lk s → (acquire lk;; release lk) s = Done tt s.
Proof.
  intros Hlk. run_by (by apply acquire_ok). erewrite release_ok; [|reflexivity|apply Hlk]. by destruct s.
Qed.

(** ** [wakeup] *)

(** What [wakeup(ch)] called by process [me] does to process [i]. *)
Definition woken (ch : chan) (me i : nat) (p : proc) : proc :=
  if bool_decide (i ≠ me ∧ p_state p = SLEEPING ∧ p_chan p = Some ch)
  then set_p_state RUNNABLE p else p.

(** The locks of the other processes are not held. *)
Definition no_proc_locks (s : kst) : Prop :=
  LIntr ∉ k_held s ∧ ∀ i, i ≠ ps_cur (k_proc s) → LProc i ∉ k_held s.

Lemma no_proc_locks_nil s : k_held s = [] → no_proc_locks s.
Proof. unfold no_proc_locks. intros ->. set_solver. Qed.

Lemma wakeup_one_run ch i s :
  no_proc_locks s → (i < length (ps_procs (k_proc s)))%nat →
  wakeup_one (Some ch) i s =
    Done tt (set_procs (<[i := woken ch (ps_cur (k_proc s)) i (get_proc s i)]> (ps_procs (k_proc s))) s).
Proof.
  intros Hl Hi. unfold wakeup_one, woken. run_by (unfold myproc, gets; reflexivity).
  assert (Hid : <[i := get_proc s i]> (ps_procs (k_proc s)) = ps_procs (k_proc s)).
  { apply list_insert_id. apply list_lookup_lookup_total_lt. done. }
  destruct (decide (i = ps_cur (k_proc s))) as [->|Hne].
  { rewrite bool_decide_true by done. rewrite bool_decide_false by tauto. by rewrite Hid, set_procs_id. }
  rewrite bool_decide_false by done. assert (Hu : unlocked (LProc i) s) by (destruct Hl as [? Hl]; specialize (Hl i Hne); set_solver).
  run_by (by apply acquire_ok). run_by (unfold gets; reflexivity). rewrite get_proc_held.
  destruct (decide (p_state (get_proc s i) = SLEEPING ∧ p_chan (get_proc s i) = Some ch)) as [Hd|Hd].
  - rewrite !bool_decide_true by tauto. run_by (unfold upd_proc, modify; reflexivity).
    erewrite release_ok; [|reflexivity|apply Hu]. by destruct s.
  - rewrite !bool_decide_false by tauto. rewrite Hid, set_procs_id. run_by reflexivity.
    erewrite release_ok; [|reflexivity|apply Hu]. by destruct s.
Qed.

Lemma imap_take_S {A} (f : nat → A → A) (l : list A) n x :
  l !! n = Some x →
  <[n := f n x]> (imap f (take n l) ++ drop n l) = imap f (take (S n) l) ++ drop (S n) l.
Proof.
  intros Hx. pose proof (lookup_lt_Some _ _ _ Hx) as Hn.
  rewrite (drop_S _ _ _ Hx), (take_S_r _ _ _ Hx), imap_app, <- app_assoc. simpl.
  replace n with (length (imap f (take n l)) + 0)%nat at 1 by (rewrite length_imap, length_take; lia).
  rewrite insert_app_r. simpl. by rewrite length_take, Nat.min_l, Nat.add_0_r by lia.
Qed.

Lemma wakeup_run ch s :
  no_proc_locks s → length (ps_procs (k_proc s)) = NPROC →
  wakeup ch s = Done tt (set_procs (imap (woken ch (ps_cur (k_proc s))) (ps_procs (k_proc s))) s).
Proof.
  intros Hl Hlen. set (me := ps_cur (k_proc s)). set (ps := ps_procs (k_proc s)) in *.
  set (st := λ n, set_procs (imap (woken ch me) (take n ps) ++ drop n ps) s).
  destruct (for_each_inv (λ i s', s' = st (Z.to_nat i)) NPROC 0 (λ i, wakeup_one (Some ch) (Z.to_nat i)) s)
    as (s' & Hrun & ->).
  - unfold st. simpl. rewrite drop_0. symmetry. apply set_procs_id.
  - intros i s' Hi ->. set (n := Z.to_nat i). replace (Z.to_nat (i + 1)) with (S n) by lia.
    assert (Hn : (n < length ps)%nat) by lia.
    destruct (lookup_lt_is_Some_2 _ _ Hn) as [p Hp].
    eexists. split; [apply wakeup_one_run|].
    + exact Hl.
    + unfold st. rewrite procs_set_procs, length_app, length_imap, length_take, length_drop. lia.
    + unfold st. rewrite procs_set_procs, cur_set_procs, get_proc_set_procs, set_procs_set_procs. fold me.
      rewrite (lookup_total_app_r (imap (woken ch me) (take n ps))) by (rewrite length_imap, length_take; lia).
      rewrite length_imap, length_take, Nat.min_l, Nat.sub_diag by lia.
      rewrite (drop_S _ _ _ Hp). simpl. rewrite <- (drop_S _ _ _ Hp), (imap_take_S _ _ _ _ Hp). done.
  - unfold wakeup. rewrite Hrun. unfold st. change (Z.to_nat (0 + Z.of_nat NPROC)) with NPROC.
    rewrite take_ge, drop_ge by lia. by rewrite app_nil_r.
Qed.

(** The state after [wakeup(ch)]. *)
Definition wake (ch : chan) (s : kst) : kst := set_procs (imap (woken ch (ps_cur (k_proc s))) (ps_procs (k_proc s))) s.

Lemma wake_run ch lk s :
  k_held s = [lk] → lk ≠ LIntr → (∀ i, lk ≠ LProc i) → length (ps_procs (k_proc s)) = NPROC → wakeup ch s = Done tt (wake ch s).
Proof.
  intros Hh HI Hlk Hn. apply wakeup_run; [|done]. split; [rewrite Hh; set_solver|].
  intros i _. rewrite Hh, list_elem_of_singleton. intros E. by apply (Hlk i).
Qed.

(** A second wakeup finds nobody asleep. *)
Lemma wake_wake ch s : wake ch (wake ch s) = wake ch s.
Proof.
  unfold wake. set (f := woken ch (ps_cur (k_proc s))). set (l := ps_procs (k_proc s)).
  assert (E : imap f (imap f l) = imap f l); [|change (set_procs (imap f (imap f l)) s = set_procs (imap f l) s); by rewrite E].
  apply list_eq. intros i. rewrite !list_lookup_imap. destruct (l !! i) as [p|]; [|done]. cbn. f_equal. unfold f, woken.
  destruct (decide (i ≠ ps_cur (k_proc s) ∧ p_state p = SLEEPING ∧ p_chan p = Some ch)) as [H1|H1].
  - rewrite (bool_decide_true _ H1), bool_decide_false; [done|]. by intros (_ & H2 & _).
  - by rewrite !(bool_decide_false _ H1).
Qed.

(** [wakeup(ch); release(lk);] at the end of an operation that holds [lk]. *)
Lemma wake_release ch lk s :
  k_held s = [lk] → lk ≠ LIntr → (∀ i, lk ≠ LProc i) → length (ps_procs (k_proc s)) = NPROC →
  (wakeup ch;; release lk) s = Done tt (wake ch (set_held [] s)).
Proof.
  intros Hh HI Hlk Hn. run_by (by apply (wake_run _ lk)). erewrite release_ok; [|exact Hh|set_solver].
  by destruct s.
Qed.

(** [wakeup(ch)] makes exactly the processes runnable that sleep on [ch],
    the caller excepted, and changes nothing else; it leaves no lock held. *)
Theorem wakeup_spec ch s :
  no_proc_locks s → length (ps_procs (k_proc s)) = NPROC →
  ∃ s', wakeup ch s = Done tt s' ∧ k_held s' = k_held s ∧
    (∀ i, (i < NPROC)%nat → get_proc s' i =
       if bool_decide (i ≠ ps_cur (k_proc s) ∧ p_state (get_proc s i) = SLEEPING ∧
                       p_chan (get_proc s i) = Some ch)
       then set_p_state RUNNABLE (get_proc s i) else get_proc s i) ∧
    s' = set_procs (ps_procs (k_proc s')) s.
Proof.
  intros Hl Hlen. eexists. split; [by apply wakeup_run|]. split_and!; [done| |done].
  intros i Hi. rewrite get_proc_set_procs. unfold get_proc.
  destruct (lookup_lt_is_Some_2 (ps_procs (k_proc s)) i) as [p Hp]; [lia|].
  rewrite (list_lookup_total_correct (ps_procs (k_proc s)) i p Hp).
  apply list_lookup_total_correct. rewrite list_lookup_imap, Hp. done.
Qed.

(** ** [sleep] *)

Lemma sched_run s :
  k_held s = [LProc (ps_cur (k_proc s))] → p_state (get_proc s (ps_cur (k_proc s))) ≠ RUNNING →
  sched s = Swtch s (λ s', Done tt (set_intena (intena s) s')).
Proof.
  intros Hh Hst. unfold sched. run_by (unfold myproc, gets; reflexivity).
  run_by (unfold holding, gets; reflexivity). rewrite bool_decide_true by (rewrite Hh; set_solver).
  cbn [negb]. run_by (unfold gets; reflexivity).
  assert (noff s = 1%nat) as -> by (unfold noff; by rewrite Hh). cbn [Nat.eqb negb].
  run_by (unfold proc_get, gets; reflexivity). rewrite bool_decide_false by done.
  run_by (by eapply intr_get_off). by run_by (unfold gets; reflexivity).
Qed.

Lemma sched_locks s :
  LProc (ps_cur (k_proc s)) ∈ k_held s → noff s ≠ 1%nat → sched s = Panic "sched locks" s.
Proof.
  intros Hh Hn. unfold sched. run_by (unfold myproc, gets; reflexivity).
  run_by (unfold holding, gets; reflexivity). rewrite bool_decide_true by done. cbn [negb].
  run_by (unfold gets; reflexivity). by rewrite (proj2 (Nat.eqb_neq _ _) Hn).
Qed.

(** Releasing the lock that was acquired before the last one. *)
Lemma release_second a lk l s :
  k_held s = a :: lk :: l → a ∉ [LIntr; lk] → lk ∉ LIntr :: l → release lk s = Done tt (set_held (a :: l) s).
Proof.
  intros Hs Ha Hl. rewrite (release_free lk a (lk :: l)), Hs, filter_cons_True, filter_head;
    [done|set_solver..|done|set_solver|rewrite Hs; set_solver].
Qed.

(** The state at the switch of [sleep]. *)
Definition asleep (ch : chan) (me : nat) (s : kst) : kst :=
  set_held [LProc me]
    (set_procs (<[me := set_p_state SLEEPING (set_p_chan (Some ch) (get_proc s me))]>
                  (ps_procs (k_proc s))) s).

(** The state after [sleep] returns, [s] being the one the scheduler resumes it with. *)
Definition awake (lk : lockid) (me : nat) (s : kst) : kst :=
  set_held [lk] (set_procs (<[me := set_p_chan None (get_proc s me)]> (ps_procs (k_proc s))) s).

Lemma sleep_run ch lk s :
  let me := ps_cur (k_proc s) in
  lk ∉ [LIntr; LProc me] → (me < length (ps_procs (k_proc s)))%nat → k_held s = [lk] →
  ∃ k, sleep ch lk s = Swtch (asleep ch me s) k ∧
    ∀ s2, k_held s2 = [LProc me] → ps_cur (k_proc s2) = me → k s2 = Done tt (awake lk me (set_intena (intena s) s2)).
Proof.
  intros me Hne Hme Hh. set (p1 := set_p_chan (Some ch) (get_proc s me)).
  assert (Hp1 : <[me := p1]> (ps_procs (k_proc s)) !!! me = p1) by (by apply list_lookup_total_insert_eq).
  unfold sleep. run_by (unfold myproc, gets; reflexivity). fold me.
  rewrite (bind_Done _ _ _ _ _ (acquire_ok (LProc me) s ltac:(rewrite Hh; set_solver))).
  assert (Hrel : release lk (set_held (LProc me :: k_held s) s) = Done tt (set_held [LProc me] s)).
  { rewrite (release_second (LProc me) lk []); [done|simpl; by rewrite Hh|set_solver..]. }
  rewrite (bind_Done _ _ _ _ _ Hrel).
  run_by (unfold upd_proc, modify; reflexivity). run_by (unfold upd_proc, modify; reflexivity).
  autorewrite with kst. fold p1. rewrite Hp1, list_insert_insert_eq.
  set (s1 := set_procs _ _).
  assert (Hs1 : sched s1 = Swtch s1 (λ s', Done tt (set_intena (intena s) s'))).
  { change (intena s) with (intena s1). apply sched_run; [done|]. unfold s1. rewrite get_proc_set_procs.
    rewrite list_lookup_total_insert_eq by done. done. }
  rewrite (bind_Swtch _ _ _ _ _ Hs1). eexists. split; [done|].
  intros s2 Hh2 Hc2. simpl. run_by (unfold upd_proc, modify; reflexivity).
  erewrite bind_Done; [|eapply (release_ok _ []); [done|set_solver] ].
  rewrite acquire_ok by set_solver. done.
Qed.

(** [sleep(ch, lk)] called with [lk] as the only lock held gives up the CPU
    with the process marked as sleeping on [ch], [lk] released and its own
    process lock held, so that no wakeup can come in between; when the
    scheduler resumes it, it clears the channel, and returns with [lk] as the
    only lock held.  With another lock held it panics. *)
Theorem sleep_spec ch lk s :
  let me := ps_cur (k_proc s) in
  lk ∉ [LIntr; LProc me] → (me < length (ps_procs (k_proc s)))%nat →
  (k_held s = [lk] →
   ∃ k, sleep ch lk s = Swtch (asleep ch me s) k ∧
     ∀ s2, k_held s2 = [LProc me] → ps_cur (k_proc s2) = me → k s2 = Done tt (awake lk me (set_intena (intena s) s2))) ∧
  (∀ lk2 l, k_held s = lk :: lk2 :: l → LProc me ∉ k_held s → LIntr ∉ k_held s → lk ∉ lk2 :: l →
     ∃ s', sleep ch lk s = Panic "sched locks" s').
Proof.
  intros me Hne Hme. split; [by apply sleep_run|].
  intros lk2 l Hh Hnm HI Hnl. unfold sleep. run_by (unfold myproc, gets; reflexivity). fold me.
  rewrite (bind_Done _ _ _ _ _ (acquire_ok (LProc me) s ltac:(set_solver))).
  assert (Hrel : release lk (set_held (LProc me :: k_held s) s) = Done tt (set_held (LProc me :: lk2 :: l) s)).
  { rewrite (release_second (LProc me) lk (lk2 :: l)); [done|simpl; by rewrite Hh|set_solver..]. }
  rewrite (bind_Done _ _ _ _ _ Hrel).
  run_by (unfold upd_proc, modify; reflexivity). run_by (unfold upd_proc, modify; reflexivity).
  eexists. apply bind_Panic. apply sched_locks; [|done]. simpl. set_solver.
Qed.

(** ** [kill] *)

(** [kill(pid)] marks the first process with this pid as killed, and makes it
    runnable if it sleeps, and returns 0; without such a process it returns
    -1 and changes nothing. *)
Theorem kill_spec pid s :
  LIntr ∉ k_held s → (∀ i, LProc i ∉ k_held s) → length (ps_procs (k_proc s)) = NPROC →
  kill pid s =
    match list_find (λ p, p_pid p = pid) (ps_procs (k_proc s)) with
    | Some (i, p) =>
        Done 0 (set_procs (<[i := (if bool_decide (p_state p = SLEEPING)
                                   then set_p_state RUNNABLE (set_p_killed 1 p)
                                   else set_p_killed 1 p)]> (ps_procs (k_proc s))) s)
    | None => Done (-1) s
    end.
Proof.
  intros HI Hl Hlen. unfold kill. assert (Hu : ∀ i, unlocked (LProc i) s) by (intros i; specialize (Hl i); set_solver).
  assert (Hgen : ∀ n k, (k + n = NPROC)%nat → Forall (λ p, p_pid p ≠ pid) (take k (ps_procs (k_proc s))) →
    for_find n (Z.of_nat k) (λ i, kill_one pid (Z.to_nat i)) s =
    match list_find (λ p, p_pid p = pid) (drop k (ps_procs (k_proc s))) with
    | Some (i, p) => Done (Some 0) (set_procs (<[(k + i)%nat := (if bool_decide (p_state p = SLEEPING)
                                   then set_p_state RUNNABLE (set_p_killed 1 p)
                                   else set_p_killed 1 p)]> (ps_procs (k_proc s))) s)
    | None => Done None s
    end).
  { induction n as [|n IH]; intros k Hk Hf; cbn [for_find].
    - by rewrite drop_ge by lia.
    - destruct (lookup_lt_is_Some_2 (ps_procs (k_proc s)) k) as [p Hp]; [lia|].
      rewrite (drop_S _ _ _ Hp). simpl list_find. rewrite Nat2Z.id.
      assert (Hgp : get_proc s k = p) by (by apply list_lookup_total_correct).
      assert (Hone : kill_one pid k s = if decide (p_pid p = pid)
        then Done (Some 0) (set_procs (<[k := (if bool_decide (p_state p = SLEEPING)
                                   then set_p_state RUNNABLE (set_p_killed 1 p)
                                   else set_p_killed 1 p)]> (ps_procs (k_proc s))) s)
        else Done None s).
      { unfold kill_one. run_by (by apply acquire_ok). run_by (unfold gets; reflexivity).
        rewrite get_proc_held, Hgp. case_decide as Hd.
        - rewrite (proj2 (Z.eqb_eq _ _) Hd). run_by (unfold upd_proc, modify; reflexivity).
          rewrite get_proc_held, Hgp. case_bool_decide as Hs.
          + run_by (unfold upd_proc, modify; reflexivity). autorewrite with kst. simpl.
            rewrite list_lookup_total_insert_eq, list_insert_insert_eq by lia.
            erewrite bind_Done; [|eapply (release_ok _ (k_held s)); [done|apply Hu]]. by destruct s.
          + run_by reflexivity. erewrite bind_Done; [|eapply (release_ok _ (k_held s)); [done|apply Hu]]. by destruct s.
        - rewrite (proj2 (Z.eqb_neq _ _) Hd). erewrite bind_Done; [|eapply (release_ok _ (k_held s)); [done|apply Hu]].
          by destruct s. }
      case_decide as Hd.
      + run_by (exact Hone). by rewrite Nat.add_0_r.
      + run_by (exact Hone). replace (Z.of_nat k + 1) with (Z.of_nat (S k)) by lia.
        rewrite IH; [|lia|rewrite (take_S_r _ _ _ Hp), Forall_app; auto].
        destruct (list_find _ (drop (S k) _)) as [[i q]|]; simpl; [|done]. by rewrite Nat.add_succ_r. }
  specialize (Hgen NPROC 0%nat eq_refl (Forall_nil_2 _)). rewrite drop_0 in Hgen.
  destruct (list_find _ _) as [[i p]|]; run_by (exact Hgen); done.
Qed.

(** ** kernel/sleeplock.c when nobody waits

    [get] and [put] access one sleep lock of the state. *)
Section sleeplock_run.
Context `{WaitFuel} (lk : lockid) (ch : chan) (get : kst → sleeplock) (put : sleeplock → kst → kst).
Context (get_held : ∀ l s, get (set_held l s) = get s)
        (put_held : ∀ v l s, put v (set_held l s) = set_held l (put v s))
        (held_put : ∀ v s, k_held (put v s) = k_held s)
        (proc_put : ∀ v s, k_proc (put v s) = k_proc s).

Lemma put_id v s : set_held (k_held s) (put v s) = put v s.
Proof. rewrite <- (held_put v s). apply set_held_id. Qed.

Lemma acquiresleep_run s :
  unlocked lk s → sl_locked (get s) = false →
  acquiresleep lk ch get put s =
    Done tt (put (mk_sleeplock true (p_pid (get_proc s (ps_cur (k_proc s))))) s).
Proof.
  intros Hlk Hfree. unfold acquiresleep. run_by (by apply acquire_ok).
  assert (Hw : acquiresleep_wait lk ch get wait_fuel (set_held (lk :: k_held s) s) =
    Done tt (set_held (lk :: k_held s) s)).
  { destruct wait_fuel; cbn [acquiresleep_wait]; run_by (unfold gets; reflexivity); by rewrite get_held, Hfree. }
  run_by (exact Hw). run_by (unfold myproc, gets; reflexivity). run_by (unfold proc_get, gets; reflexivity).
  run_by (unfold modify; reflexivity). rewrite put_held.
  erewrite (release_ok _ (k_held s)); [|done|apply Hlk]. exact (f_equal (Done tt) (put_id _ s)).
Qed.

Lemma releasesleep_run s :
  unlocked lk s → (∀ i, lk ≠ LProc i) → no_proc_locks s → length (ps_procs (k_proc s)) = NPROC →
  releasesleep lk ch put s =
    Done tt (set_procs (imap (woken ch (ps_cur (k_proc s))) (ps_procs (k_proc s)))
               (put (mk_sleeplock false 0) s)).
Proof using put_held held_put proc_put.
  intros Hlk Hne Hnp Hlen. unfold releasesleep. run_by (by apply acquire_ok).
  run_by (unfold modify; reflexivity). rewrite put_held. set (s1 := put _ s).
  assert (Hw : wakeup ch (set_held (lk :: k_held s) s1) =
    Done tt (set_procs (imap (woken ch (ps_cur (k_proc s))) (ps_procs (k_proc s))) (set_held (lk :: k_held s) s1))).
  { rewrite wakeup_run.
    - autorewrite with kst. unfold s1. by rewrite proc_put.
    - split; [destruct Hlk; clear get_held get; set_solver|]. intros i Hi. simpl. apply not_elem_of_cons. split; [by apply not_eq_sym|].
      apply Hnp. revert Hi. autorewrite with kst. unfold s1. by rewrite proc_put.
    - autorewrite with kst. unfold s1. by rewrite proc_put. }
  run_by (exact Hw). erewrite (release_ok _ (k_held s)); [|done|apply Hlk].
  exact (f_equal (λ x, Done tt (set_procs _ x)) (put_id _ s)).
Qed.

Lemma holdingsleep_run s :
  unlocked lk s →
  holdingsleep lk get s =
    Done (sl_locked (get s) && (sl_pid (get s) =? p_pid (get_proc s (ps_cur (k_proc s))))) s.
Proof.
  intros Hlk. unfold holdingsleep. run_by (by apply acquire_ok). run_by (unfold gets; reflexivity).
  run_by (unfold myproc, gets; reflexivity). run_by (unfold proc_get, gets; reflexivity).
  erewrite bind_Done; [|eapply (release_ok _ (k_held s)); [done|apply Hlk]].
  rewrite get_held. destruct s; reflexivity.
Qed.
End sleeplock_run.

(** ** The theorems at concrete states *)

(** Process 0 runs, process 1 sleeps on the clock. *)
Definition sleeper : proc := set_p_pid 7 (set_p_chan (Some ChTicks) (set_p_state SLEEPING zero_proc)).
Definition sched_state : kst :=
  set_proc (mk_pstate (<[0%nat := set_p_pid 1 (set_p_state RUNNING zero_proc)]>
               (<[1%nat := sleeper]> (replicate NPROC zero_proc))) 0 None 1 true) boot_state.

Lemma wakeup_spec_witness :
  ∃ s', wakeup ChTicks sched_state = Done tt s' ∧ p_state (get_proc s' 1) = RUNNABLE.
Proof.
  destruct (wakeup_spec ChTicks sched_state) as (s' & Hrun & _ & Hp & _).
  - split; [apply not_elem_of_nil|intros i _; apply not_elem_of_nil].
  - reflexivity.
  - exists s'. split; [exact Hrun|]. rewrite (Hp 1%nat) by (unfold NPROC; lia). reflexivity.
Defined.

Lemma sleep_spec_witness :
  ∃ k, sleep ChTicks LTicks (set_held [LTicks] sched_state) =
       Swtch (asleep ChTicks 0 (set_held [LTicks] sched_state)) k.
Proof.
  destruct (sleep_spec ChTicks LTicks (set_held [LTicks] sched_state)) as [Hs _].
  - set_solver.
  - vm_compute. lia.
  - destruct (Hs eq_refl) as (k & Hk & _). exists k. exact Hk.
Defined.

Lemma kill_spec_witness :
  kill 7 sched_state =
    Done 0 (set_procs (<[1%nat := set_p_state RUNNABLE (set_p_killed 1 sleeper)]>
                         (ps_procs (k_proc sched_state))) sched_state) ∧
  kill 8 sched_state = Done (-1) sched_state.
Proof.
  split; (rewrite kill_spec; [reflexivity|apply not_elem_of_nil|intros i; apply not_elem_of_nil|reflexivity]).
Defined.
