(* ===== verification/Uart.v ===== *)
(** * kernel/uart.c and kernel/printf.c

    The driver of the UART and the kernel's formatted output.  The registers
    of the device are part of the state; while the driver polls the line status
    register the device can make progress, sending and receiving, which is a
    parameter. *)

From S2P Require Import Prelude Memory Params State Sched.
From Stdlib Require Import Ascii String.

(** The characters of a string literal. *)
Definition codes (s : string) : list Z := map (λ a, Z.of_N (N_of_ascii a)) (list_ascii_of_string s).
Definition chr_code (a : ascii) : Z := Z.of_N (N_of_ascii a).

(** ** The device *)

Definition RHR : Z := 0.
Definition THR : Z := 0.
Definition IER : Z := 1.
Definition IER_RX_ENABLE : Z := Z.shiftl 1 0.
Definition IER_TX_ENABLE : Z := Z.shiftl 1 1.
Definition FCR : Z := 2.
Definition FCR_FIFO_ENABLE : Z := Z.shiftl 1 0.
Definition FCR_FIFO_CLEAR : Z := Z.shiftl 3 1.
Definition LCR : Z := 3.
Definition LCR_EIGHT_BITS : Z := Z.shiftl 3 0.
Definition LCR_BAUD_LATCH : Z := Z.shiftl 1 7.
Definition LSR : Z := 5.
Definition LSR_RX_READY : Z := Z.shiftl 1 0.
Definition LSR_TX_IDLE : Z := Z.shiftl 1 5.
Definition UART_TX_BUF_SIZE : Z := 32.

(** What the device does until the next read of LSR. *)
Class UartDev := { uart_poll : uartstate → uartstate }.

Definition upd_uart (f : uartstate → uartstate) : K unit := modify (λ s, set_uart (f (k_uart s)) s).

Definition lsr (u : uartstate) : Z :=
  Z.lor (if (ua_idle u =? 0)%nat then 0 else LSR_TX_IDLE)
        (match ua_rx u with [] => 0 | _ => LSR_RX_READY end).

(** While LCR_BAUD_LATCH is set, registers 0 and 1 are the baud rate. *)
Definition baud_latch (u : uartstate) : bool := Z.testbit (default 0 (ua_regs u !! LCR)) 7.

Definition ReadReg (reg : Z) : K Z :=
  u ← gets k_uart;
  if reg =? LSR then mret (lsr u) else
  if reg =? RHR then
    upd_uart (λ u, mk_uart (uart_tx_buf u) (uart_tx_w u) (uart_tx_r u) (ua_idle u) (ua_sent u) (tail (ua_rx u)) (ua_regs u) (ua_line u));;
    mret (hd 0 (ua_rx u))
  else mret (default 0 (ua_regs u !! reg)).

Definition WriteReg (reg v : Z) : K unit :=
  upd_uart (λ u,
    if (reg =? THR) && negb (baud_latch u)
    then mk_uart (uart_tx_buf u) (uart_tx_w u) (uart_tx_r u) (pred (ua_idle u)) (ua_sent u ++ [u8 v]) (ua_rx u) (ua_regs u) (ua_line u)
    else mk_uart (uart_tx_buf u) (uart_tx_w u) (uart_tx_r u) (ua_idle u) (ua_sent u) (ua_rx u) (<[reg := u8 v]> (ua_regs u)) (ua_line u)).

(** [for(;;);] *)
Definition spin {A} : K A := out_of_fuel.

Section uart.
Context `{UartDev} `{WaitFuel}.

(** ** kernel/uart.c *)

Definition uartinit : K unit :=
  WriteReg IER 0x00;;
  WriteReg LCR LCR_BAUD_LATCH;;
  WriteReg 0 0x03;;
  WriteReg 1 0x00;;
  WriteReg LCR LCR_EIGHT_BITS;;
  WriteReg FCR (Z.lor FCR_FIFO_ENABLE FCR_FIFO_CLEAR);;
  WriteReg IER (Z.lor IER_TX_ENABLE IER_RX_ENABLE).

(** Each iteration of the loop of [uartstart] sends one of the
    [uart_tx_w - uart_tx_r] buffered characters. *)
Fixpoint uartstart_loop (fuel : nat) : K unit :=
  u ← gets k_uart;
  if uart_tx_w u =? uart_tx_r u then mret tt else
  st ← ReadReg LSR;
  if Z.land st LSR_TX_IDLE =? 0 then mret tt else
  match fuel with
  | O => out_of_fuel
  | S fuel =>
      let c := uart_tx_buf u !!! Z.to_nat (uart_tx_r u mod UART_TX_BUF_SIZE) in
      upd_uart (λ u, mk_uart (uart_tx_buf u) (uart_tx_w u) (u64 (uart_tx_r u + 1)) (ua_idle u) (ua_sent u) (ua_rx u) (ua_regs u) (ua_line u));;
      wakeup ChUart;;
      WriteReg THR c;;
      uartstart_loop fuel
  end.

Definition uartstart : K unit :=
  u ← gets k_uart;
  uartstart_loop (Z.to_nat (u64 (uart_tx_w u - uart_tx_r u))).

Fixpoint uartputc_loop (fuel : nat) (c : Z) : K unit :=
  u ← gets k_uart;
  if uart_tx_w u =? u64 (uart_tx_r u + UART_TX_BUF_SIZE) then
    match fuel with
    | O => out_of_fuel
    | S fuel => sleep ChUart LUart;; uartputc_loop fuel c
    end
  else
    upd_uart (λ u, mk_uart (<[Z.to_nat (uart_tx_w u mod UART_TX_BUF_SIZE) := u8 c]> (uart_tx_buf u))
                     (u64 (uart_tx_w u + 1)) (uart_tx_r u) (ua_idle u) (ua_sent u) (ua_rx u) (ua_regs u) (ua_line u));;
    uartstart;;
    release LUart.

Definition uartputc (c : Z) : K unit :=
  acquire LUart;;
  p ← gets (λ s, panicked (k_dev s));
  if p : bool then spin else
  uartputc_loop wait_fuel c.

(** [while((ReadReg(LSR) & LSR_TX_IDLE) == 0);] *)
Fixpoint tx_wait (fuel : nat) : K unit :=
  st ← ReadReg LSR;
  if negb (Z.land st LSR_TX_IDLE =? 0) then mret tt else
  match fuel with
  | O => out_of_fuel
  | S fuel => upd_uart uart_poll;; tx_wait fuel
  end.

(** [push_off] and [pop_off] are about interrupts of this hart only. *)
Definition uartputc_sync (c : Z) : K unit :=
  p ← gets (λ s, panicked (k_dev s));
  if p : bool then spin else
  tx_wait wait_fuel;;
  WriteReg THR c.

Definition uartgetc : K Z :=
  upd_uart uart_poll;;
  st ← ReadReg LSR;
  if negb (Z.land st 0x01 =? 0) then ReadReg RHR else mret (-1).

(** ** kernel/console.c: output of one character *)

Definition BACKSPACE : Z := 0x100.

Definition consputc (c : Z) : K unit :=
  if c =? BACKSPACE then
    uartputc_sync 8;; uartputc_sync 32;; uartputc_sync 8
  else uartputc_sync c.

(** ** kernel/printf.c *)

Definition digits : list Z := codes "0123456789abcdef".

(** [do { buf[i++] = digits[x % base]; } while((x /= base) != 0);] *)
Fixpoint digits_loop (fuel : nat) (x base : Z) : list Z :=
  match fuel with
  | O => []
  | S fuel => digits !!! Z.to_nat (x mod base) ::
              (if x / base =? 0 then [] else digits_loop fuel (x / base) base)
  end.

(** The buffer of [printint]: the number is a [uint], so that 32 digits are
    enough for any base. *)
Definition printint_buf (xx base : Z) (sign : bool) : list Z :=
  let neg := sign && (xx <? 0) in
  let x := if neg then u32 (- xx) else u32 xx in
  digits_loop 32 x base ++ (if neg then [45] else []).

Fixpoint putcs (l : list Z) : K unit :=
  match l with
  | [] => mret tt
  | c :: l => consputc c;; putcs l
  end.

Definition printint (xx base : Z) (sign : bool) : K unit := putcs (reverse (printint_buf xx base sign)).

Fixpoint printptr_loop (n : nat) (x : Z) : K unit :=
  match n with
  | O => mret tt
  | S n => consputc (digits !!! Z.to_nat (Z.shiftr x 60));; printptr_loop n (u64 (Z.shiftl x 4))
  end.

Definition printptr (x : Z) : K unit :=
  consputc 48;; consputc 120;; printptr_loop 16 x.

(** The arguments of [printf]. *)
Inductive parg : Type := PInt (x : Z) | PPtr (x : Z) | PStr (s : option (list Z)).

(** The loop over the format string; [va_arg] of the wrong type or past the
    last argument has no meaning in C and stops the model. *)
Fixpoint print_fmt (fmt : list Z) (ap : list parg) : K unit :=
  match fmt with
  | [] => mret tt
  | c :: fmt =>
      if negb (c =? 37) then consputc c;; print_fmt fmt ap else
      match fmt with
      | [] => mret tt
      | c :: fmt =>
          if c =? 100 then
            match ap with PInt x :: ap => printint x 10 true;; print_fmt fmt ap | _ => panic "va_arg" end
          else if c =? 120 then
            match ap with PInt x :: ap => printint x 16 true;; print_fmt fmt ap | _ => panic "va_arg" end
          else if c =? 112 then
            match ap with PPtr x :: ap => printptr x;; print_fmt fmt ap | _ => panic "va_arg" end
          else if c =? 115 then
            match ap with
            | PStr s :: ap => putcs (default (codes "(null)") s);; print_fmt fmt ap
            | _ => panic "va_arg"
            end
          else if c =? 37 then consputc 37;; print_fmt fmt ap
          else consputc 37;; consputc c;; print_fmt fmt ap
      end
  end.

Definition printf (fmt : string) (ap : list parg) : K unit :=
  locking ← gets (λ s, pr_locking (k_dev s));
  when locking (acquire LPrintf);;
  print_fmt (codes fmt) ap;;
  when locking (release LPrintf).

Definition set_locking (b : bool) (d : devstate) : devstate :=
  mk_dev (dv_mmio d) (dv_irqs d) b (panicked d) (started d).
Definition set_panicked (b : bool) (d : devstate) : devstate :=
  mk_dev (dv_mmio d) (dv_irqs d) (pr_locking d) b (started d).

Definition printfinit : K unit := modify (λ s, set_dev (set_locking true (k_dev s)) s).

(** The body of [panic].  The rest of the development stops at a call of
    [panic] with the outcome [Panic]. *)
Definition panic_body {A} (msg : string) : K A :=
  modify (λ s, set_dev (set_locking false (k_dev s)) s);;
  printf "panic: " [];;
  printf msg [];;
  printf (String (Ascii.ascii_of_nat 10) EmptyString) [];;
  modify (λ s, set_dev (set_panicked true (k_dev s)) s);;
  spin.
End uart.
