(* ===== verification/Kalloc.v ===== *)
(** * kernel/kalloc.c: the physical page allocator

    Free pages form a list threaded through the pages themselves: the first
    word of a free page is [r->next].  The theorems relate that list in
    memory to the sequence of free pages. *)

From S2P Require Import Prelude Memory Params State CString Sched.

(** ** Memory and the free list in the state *)

Definition get_mem (s : kst) : mem := m_mem (k_mem s).
Definition get_freelist (s : kst) : Z := m_freelist (k_mem s).
Definition put_mem (m : mem) (s : kst) : kst :=
  set_mem (mk_mstate m (get_freelist s) (m_kpagetable (k_mem s))) s.
Definition put_freelist (f : Z) (s : kst) : kst :=
  set_mem (mk_mstate (get_mem s) f (m_kpagetable (k_mem s))) s.

Lemma get_mem_put_mem m s : get_mem (put_mem m s) = m.
Proof. done. Qed.
Lemma get_mem_put_freelist f s : get_mem (put_freelist f s) = get_mem s.
Proof. done. Qed.
Lemma get_freelist_put_mem m s : get_freelist (put_mem m s) = get_freelist s.
Proof. done. Qed.
Lemma get_freelist_put_freelist f s : get_freelist (put_freelist f s) = f.
Proof. done. Qed.
#[export] Hint Rewrite get_mem_put_mem get_mem_put_freelist
  get_freelist_put_mem get_freelist_put_freelist : kst.

Section kalloc.
Context `{KernelImage}.

(** ** The code *)

Definition kfree (pa : Z) : K unit :=
  if negb (pa mod PGSIZE =? 0) || (pa <? kernel_end) || (pa >=? PHYSTOP)
  then panic "kfree" else
  modify (λ s, put_mem (memset (get_mem s) pa 1 PGSIZE) s);;
  acquire LKmem;;
  modify (λ s, put_mem (store64 (get_mem s) pa (get_freelist s)) s);;
  modify (put_freelist pa);;
  release LKmem.

Definition kalloc : K Z :=
  acquire LKmem;;
  r ← gets get_freelist;
  when (negb (r =? 0)) (modify (λ s, put_freelist (load64 (get_mem s) r) s));;
  release LKmem;;
  when (negb (r =? 0)) (modify (λ s, put_mem (memset (get_mem s) r 5 PGSIZE) s));;
  mret r.

(** [for(; p + PGSIZE <= (char* )pa_end; p += PGSIZE) kfree(p);] with the
    number of pages between [p] and [pa_end] as the bound. *)
Fixpoint freerange_loop (n : nat) (p pa_end : Z) : K unit :=
  if p + PGSIZE <=? pa_end then
    match n with
    | O => out_of_fuel
    | S n => kfree p;; freerange_loop n (p + PGSIZE) pa_end
    end
  else mret tt.

Definition freerange (pa_start pa_end : Z) : K unit :=
  let p := PGROUNDUP pa_start in
  freerange_loop (Z.to_nat ((pa_end - p) / PGSIZE)) p pa_end.

(** [initlock] leaves the lock free: no thread holds it. *)
Definition kinit : K unit := freerange kernel_end PHYSTOP.

(** ** Pages and the list of free pages *)

Definition page_ok (pa : Z) : Prop :=
  pa mod 4096 = 0 ∧ kernel_end <= pa ∧ pa < PHYSTOP.

(** [x] is a byte of the page at [p]. *)
Definition in_page (p x : Z) : Prop := p <= x < p + 4096.

Fixpoint freelist_rep (m : mem) (p : Z) (l : list Z) : Prop :=
  match l with
  | [] => p = 0
  | x :: l => p = x ∧ freelist_rep m (load64 m x) l
  end.

(** The allocator's invariant: [l] is the list of the free pages. *)
Record kmem_inv (s : kst) (l : list Z) : Prop := {
  ki_rep : freelist_rep (get_mem s) (get_freelist s) l;
  ki_nodup : NoDup l;
  ki_ok : Forall page_ok l;
}.

Lemma page_ok_pos pa : page_ok pa → 0 < pa < 2 ^ 56.
Proof.
  intros (_ & H1 & H2). pose proof image_order as (H3 & H4 & H5).
  unfold PHYSTOP, KERNBASE in *. lia.
Qed.

(** Two pages are equal or disjoint. *)
Lemma page_disjoint p q x y :
  p mod 4096 = 0 → q mod 4096 = 0 → p ≠ q → in_page p x → in_page q y → x ≠ y.
Proof.
  unfold in_page. intros Hp Hq Hne Hx Hy ->.
  pose proof (Z.div_mod p 4096). pose proof (Z.div_mod q 4096). lia.
Qed.

Lemma page_bytes_aligned p q x :
  p mod 4096 = 0 → q mod 4096 = 0 → p ≠ q → in_page q x → x < p ∨ p + 4096 <= x.
Proof.
  unfold in_page. intros Hp Hq Hne Hx.
  pose proof (Z.div_mod p 4096). pose proof (Z.div_mod q 4096). lia.
Qed.

(** ** Frame: memories that agree on a set of pages *)

Definition same_on (P : Z → Prop) (m m' : mem) : Prop :=
  ∀ p x, P p → in_page p x → rd m' x = rd m x.

Lemma freelist_rep_frame m m' p l :
  (∀ x, x ∈ l → load64 m' x = load64 m x) →
  freelist_rep m p l → freelist_rep m' p l.
Proof.
  revert p. induction l as [|x l IH]; intros p Hl; simpl; [done|].
  intros [-> Hr]. split; [done|]. rewrite Hl by set_solver.
  apply IH; [|done]. intros y Hy. apply Hl. set_solver.
Qed.

Lemma load64_same_on (P : Z → Prop) m m' p a :
  same_on P m m' → P p → p <= a → a + 8 <= p + 4096 → load64 m' a = load64 m a.
Proof.
  intros Hs HP H1 H2. apply load64_ext. intros x Hx. symmetry.
  symmetry. apply (Hs p); [done|]. unfold in_page. lia.
Qed.

Lemma kmem_inv_frame s s' l :
  get_freelist s' = get_freelist s →
  same_on (λ p, p ∈ l) (get_mem s) (get_mem s') →
  kmem_inv s l → kmem_inv s' l.
Proof.
  intros Hf Hm [Hr Hn Hok]. split; [|done|done]. rewrite Hf.
  apply (freelist_rep_frame (get_mem s)); [|done].
  intros x Hx. by apply (load64_same_on _ _ _ x _ Hm); [|lia|lia].
Qed.

(** ** [kfree] and [kalloc] on a well-formed allocator *)

Lemma same_on_memset (P : Z → Prop) m pa c :
  pa mod 4096 = 0 → (∀ p, P p → p mod 4096 = 0 ∧ p ≠ pa) →
  same_on P m (memset m pa c PGSIZE).
Proof.
  intros Hpa HP p x Hp Hx. destruct (HP p Hp) as [Hal Hne].
  apply rd_memset_out; [done|]. unfold PGSIZE. by eapply page_bytes_aligned.
Qed.

Lemma same_on_store64 (P : Z → Prop) m pa a v :
  pa mod 4096 = 0 → pa <= a → a + 8 <= pa + 4096 →
  (∀ p, P p → p mod 4096 = 0 ∧ p ≠ pa) →
  same_on P m (store64 m a v).
Proof.
  intros Hpa H1 H2 HP p x Hp Hx. destruct (HP p Hp) as [Hal Hne].
  apply rd_store64_out. pose proof (page_bytes_aligned pa p x Hpa Hal (not_eq_sym Hne) Hx). lia.
Qed.

Lemma same_on_trans (P : Z → Prop) m1 m2 m3 :
  same_on P m1 m2 → same_on P m2 m3 → same_on P m1 m3.
Proof. intros H1 H2 p x Hp Hx. rewrite (H2 p x) by done. by apply (H1 p). Qed.

Lemma same_on_refl (P : Z → Prop) m : same_on P m m.
Proof. done. Qed.

(** The memory after [kfree(pa)]. *)
Definition kfree_mem (m : mem) (f pa : Z) : mem :=
  store64 (memset m pa 1 PGSIZE) pa f.

Lemma kfree_run s pa :
  page_ok pa → unlocked LKmem s →
  kfree pa s =
    Done tt (put_freelist pa (put_mem (kfree_mem (get_mem s) (get_freelist s) pa) s)).
Proof.
  intros (H1 & H2 & H3) Hlk. unfold kfree, PGSIZE in *.
  rewrite (proj2 (Z.eqb_eq _ _) H1). simpl.
  rewrite (proj2 (Z.ltb_ge _ _) H2). rewrite Z.geb_leb, (proj2 (Z.leb_gt _ _) H3). simpl.
  run_by (unfold modify; reflexivity).
  run_by (apply acquire_ok, Hlk).
  run_by (unfold modify; reflexivity).
  run_by (unfold modify; reflexivity).
  erewrite release_ok; [| reflexivity |apply Hlk]. destruct s; reflexivity.
Qed.

(** A page that is not a page of RAM above the kernel is refused. *)
Lemma kfree_bad s pa :
  ¬ page_ok pa → 0 <= pa → kfree pa s = Panic "kfree" s.
Proof.
  intros Hbad Hpos. unfold kfree, PGSIZE, page_ok in *.
  destruct (Z.eqb_spec (pa mod 4096) 0); simpl; [|done].
  destruct (Z.ltb_spec pa kernel_end); simpl; [done|].
  rewrite Z.geb_leb. destruct (Z.leb_spec PHYSTOP pa); simpl; [done|]. naive_solver.
Qed.

Lemma kfree_inv s l pa :
  kmem_inv s l → page_ok pa → pa ∉ l →
  kmem_inv (put_freelist pa (put_mem (kfree_mem (get_mem s) (get_freelist s) pa) s)) (pa :: l).
Proof.
  intros [Hr Hn Hok] Hpa Hni.
  assert (Hpos := page_ok_pos _ Hpa).
  split; [|by constructor|by constructor]. simpl. split; [done|].
  autorewrite with kst.
  unfold kfree_mem. rewrite load_store64_same, u64_small.
  - eapply freelist_rep_frame; [|exact Hr].
    intros x Hx. assert (page_ok x) as Hxok by (by eapply Forall_elem).
    assert (x ≠ pa) by (intros ->; done).
    eapply (load64_same_on (λ p, p = x)); [| reflexivity |lia|lia].
    eapply same_on_trans.
    + apply (same_on_memset _ _ pa 1); [apply Hpa|]. intros p ->. split; [apply Hxok|done].
    + apply (same_on_store64 _ _ pa); [apply Hpa|lia|lia|].
      intros p ->. split; [apply Hxok|done].
  - destruct l as [|x l]; simpl in Hr; [lia|].
    destruct Hr as [Hx _]. rewrite Hx.
    apply Forall_cons in Hok as [Hxok _]. pose proof (page_ok_pos _ Hxok). lia.
Qed.

Lemma kalloc_nil s :
  kmem_inv s [] → unlocked LKmem s → kalloc s = Done 0 s.
Proof.
  intros [Hr _ _] Hlk. simpl in Hr. unfold kalloc.
  run_by (apply acquire_ok, Hlk).
  run_by (unfold gets; reflexivity).
  change (get_freelist (set_held (LKmem :: k_held s) s)) with (get_freelist s).
  rewrite Hr. simpl.
  run_by reflexivity.
  run_by (eapply release_ok; [reflexivity|apply Hlk]).
  run_by reflexivity.
  destruct s; reflexivity.
Qed.

Lemma kalloc_cons s x l :
  kmem_inv s (x :: l) → unlocked LKmem s →
  kalloc s = Done x (put_freelist (load64 (get_mem s) x)
                       (put_mem (memset (get_mem s) x 5 PGSIZE) s)).
Proof.
  intros [Hr _ Hok] Hlk. simpl in Hr. destruct Hr as [Hx _].
  apply Forall_cons in Hok as [Hxok _]. pose proof (page_ok_pos _ Hxok).
  unfold kalloc.
  run_by (apply acquire_ok, Hlk).
  run_by (unfold gets; reflexivity).
  change (get_freelist (set_held (LKmem :: k_held s) s)) with (get_freelist s).
  rewrite Hx. rewrite (proj2 (Z.eqb_neq x 0)) by lia. simpl.
  run_by (unfold modify; reflexivity).
  run_by (eapply release_ok; [reflexivity|apply Hlk]).
  run_by (unfold modify; reflexivity).
  unfold mret, M_ret. destruct s; reflexivity.
Qed.

Lemma kalloc_inv s x l :
  kmem_inv s (x :: l) →
  kmem_inv (put_freelist (load64 (get_mem s) x)
              (put_mem (memset (get_mem s) x 5 PGSIZE) s)) l.
Proof.
  intros [Hr Hn Hok]. simpl in Hr. destruct Hr as [Hx Hr].
  apply NoDup_cons in Hn as [Hxl Hn]. apply Forall_cons in Hok as [Hxok Hok].
  split; [|done|done].
  autorewrite with kst.
  eapply freelist_rep_frame; [|exact Hr].
  intros y Hy. assert (page_ok y) as Hyok by (by eapply Forall_elem).
  eapply (load64_same_on (λ p, p = y)); [| reflexivity |lia|lia].
  apply same_on_memset; [apply Hxok|]. intros p ->. split; [apply Hyok|].
  intros ->. done.
Qed.

(** ** The allocator's contract *)

(** [kalloc] returns 0, changing nothing, exactly when no page is free;
    otherwise it removes one page from the free list and returns it: the page
    is a page of RAM above the kernel, it is not free any more, it is filled
    with the byte 5, and no byte of any other page changes. *)
Theorem kalloc_spec (s : kst) (l : list Z) :
  kmem_inv s l → unlocked LKmem s →
  ∃ r s', kalloc s = Done r s' ∧
    ((l = [] ∧ r = 0 ∧ s' = s) ∨
     (∃ l', l = r :: l' ∧ page_ok r ∧ (r ∉ l') ∧ kmem_inv s' l' ∧
        (∀ x, in_page r x → rd (get_mem s') x = 5) ∧
        (∀ x, ¬ in_page r x → rd (get_mem s') x = rd (get_mem s) x))).
Proof.
  intros Hi Hlk. destruct l as [|x l].
  - exists 0, s. split; [by apply kalloc_nil|]. by left.
  - eexists x, _. split; [by apply (kalloc_cons s x l)|]. right. exists l.
    pose proof Hi as [_ Hn Hok]. apply NoDup_cons in Hn as [Hx _].
    apply Forall_cons in Hok as [Hxok _].
    split_and!; [done|done|done|by apply kalloc_inv| |].
    + intros y Hy. autorewrite with kst. rewrite rd_memset by done.
      by rewrite decide_True.
    + intros y Hy. autorewrite with kst. rewrite rd_memset by done.
      by rewrite decide_False.
Qed.

(** [kfree] of a page that is not free adds it to the free list, so that
    the next [kalloc] returns it, and changes no byte of another page; any
    address that is not the start of a page between the end of the kernel and
    PHYSTOP makes it panic. *)
Theorem kfree_spec (s : kst) (l : list Z) (pa : Z) :
  kmem_inv s l → unlocked LKmem s → 0 <= pa → pa ∉ l →
  (page_ok pa →
   ∃ s', kfree pa s = Done tt s' ∧ kmem_inv s' (pa :: l) ∧ k_held s' = k_held s ∧
     (∀ x, ¬ in_page pa x → rd (get_mem s') x = rd (get_mem s) x)) ∧
  (¬ page_ok pa → kfree pa s = Panic "kfree" s).
Proof.
  intros Hi Hlk Hpos Hni. split.
  - intros Hok. eexists. split; [by apply kfree_run|].
    split_and!; [by apply kfree_inv|done|].
    intros x Hx. autorewrite with kst. unfold kfree_mem, in_page in *.
    rewrite rd_store64_out by lia. rewrite rd_memset_out by (unfold PGSIZE; lia). done.
  - intros Hbad. by apply kfree_bad.
Qed.

(** ** [freerange] and [kinit] *)

(** The pages [p], [p + PGSIZE], ... ([n] of them), the last one first. *)
Fixpoint pages_down (n : nat) (p : Z) : list Z :=
  match n with
  | O => []
  | S n => pages_down n (p + 4096) ++ [p]
  end.

Lemma elem_pages_down n p x :
  x ∈ pages_down n p ↔ ∃ i, 0 <= i < Z.of_nat n ∧ x = p + 4096 * i.
Proof.
  revert p. induction n as [|n IH]; intros p; simpl.
  - rewrite elem_of_nil. split; [done|]. intros (i & Hi & _). lia.
  - rewrite elem_of_app, IH, list_elem_of_singleton. split.
    + intros [(i & Hi & ->)| ->]; [exists (i + 1)|exists 0]; lia.
    + intros (i & Hi & ->). destruct (decide (i = 0)) as [->|Hne].
      * right. lia.
      * left. exists (i - 1). lia.
Qed.

Lemma freerange_loop_spec n s l p pa_end :
  kmem_inv s l → unlocked LKmem s →
  p mod 4096 = 0 → kernel_end <= p → pa_end <= PHYSTOP →
  (∀ x, x ∈ l → x < p) →
  Z.of_nat n = (pa_end - p) / 4096 →
  ∃ s', freerange_loop n p pa_end s = Done tt s' ∧
    kmem_inv s' (pages_down n p ++ l) ∧ k_held s' = k_held s.
Proof.
  revert s l p. induction n as [|n IH]; intros s l p Hi Hlk Hal Hlo Hhi Hl Hn;
    simpl freerange_loop; unfold PGSIZE.
  - destruct (Z.leb_spec (p + 4096) pa_end) as [H1|H1].
    { pose proof (Z.div_mod (pa_end - p) 4096). pose proof (Z.mod_pos_bound (pa_end - p) 4096). lia. }
    exists s. done.
  - assert (p + 4096 <= pa_end).
    { pose proof (Z.div_mod (pa_end - p) 4096). pose proof (Z.mod_pos_bound (pa_end - p) 4096). lia. }
    rewrite (proj2 (Z.leb_le _ _)) by done.
    assert (page_ok p) as Hok by (unfold page_ok; lia).
    assert (p ∉ l) by (intros Hp; specialize (Hl _ Hp); lia).
    run_by (by apply kfree_run).
    destruct (IH _ (p :: l) (p + 4096) (kfree_inv s l p Hi Hok ltac:(done))) as (s' & -> & Hi' & Hh').
    + done.
    + rewrite <- Z.add_mod_idemp_r by lia. by rewrite Z.mod_same, Z.add_0_r.
    + lia.
    + done.
    + intros x [->|Hx]%elem_of_cons; [lia|]. specialize (Hl _ Hx). lia.
    + replace (pa_end - (p + 4096)) with (pa_end - p + (-1) * 4096) by lia.
      rewrite Z.div_add by lia. lia.
    + exists s'. split; [done|]. split; [|done].
      simpl pages_down. by rewrite <- app_assoc.
Qed.

(** At boot, from an empty free list, [kinit] terminates without a panic
    and puts on the free list every page that lies entirely between the end
    of the kernel and PHYSTOP, each exactly once, and nothing else. *)
Theorem kinit_spec (s : kst) :
  get_freelist s = 0 → unlocked LKmem s →
  ∃ s' l, kinit s = Done tt s' ∧ kmem_inv s' l ∧ NoDup l ∧
    (∀ p, p ∈ l ↔ p mod 4096 = 0 ∧ kernel_end <= p ∧ p + 4096 <= PHYSTOP).
Proof.
  intros Hf Hlk. pose proof image_order as (H1 & H2 & H3).
  unfold PHYSTOP, KERNBASE in *.
  assert (Hup : PGROUNDUP kernel_end = 4096 * ((kernel_end + 4095) / 4096))
    by (apply pgroundup_eq; lia).
  set (p := PGROUNDUP kernel_end) in *.
  assert (Hp : kernel_end <= p < kernel_end + 4096).
  { pose proof (Z.div_mod (kernel_end + 4095) 4096).
    pose proof (Z.mod_pos_bound (kernel_end + 4095) 4096). lia. }
  assert (Hpal : p mod 4096 = 0) by (rewrite Hup, Z.mul_comm; by apply Z.mod_mul).
  set (top := 2147483648 + 128 * 1024 * 1024) in *.
  assert (Htop : top = 4096 * 557056) by done.
  assert (0 <= (top - p) / 4096) by (apply Z.div_pos; lia).
  destruct (freerange_loop_spec (Z.to_nat ((top - p) / 4096)) s [] p top) as (s' & Hrun & Hi & _).
  - split; [done|constructor|constructor].
  - done.
  - done.
  - lia.
  - done.
  - intros x Hx. by apply elem_of_nil in Hx.
  - lia.
  - exists s', (pages_down (Z.to_nat ((top - p) / 4096)) p ++ []).
    split; [exact Hrun|]. split; [done|]. split; [apply Hi|].
    intros q. rewrite app_nil_r, elem_pages_down. rewrite Z2Nat.id by done.
    assert (Hq : (top - p) / 4096 = 557056 - (kernel_end + 4095) / 4096).
    { rewrite Hup, Htop. replace (4096 * 557056 - 4096 * ((kernel_end + 4095) / 4096))
        with ((557056 - (kernel_end + 4095) / 4096) * 4096) by lia.
      by apply Z.div_mul. }
    split.
    + intros (i & Hi' & ->). rewrite Hup. split; [|lia].
      replace (4096 * ((kernel_end + 4095) / 4096) + 4096 * i)
        with (((kernel_end + 4095) / 4096 + i) * 4096) by lia.
      by apply Z.mod_mul.
    + intros (Hq1 & Hq2 & Hq3). exists ((q - p) / 4096).
      pose proof (Z.div_mod q 4096).
      assert (q - p = (q / 4096 - (kernel_end + 4095) / 4096) * 4096) as -> by lia.
      rewrite Z.div_mul by lia.
      assert ((kernel_end + 4095) / 4096 <= q / 4096); [|lia].
      pose proof (Z.div_mod (kernel_end + 4095) 4096).
      pose proof (Z.mod_pos_bound (kernel_end + 4095) 4096). lia.
Qed.
End kalloc.

(** ** A concrete kernel image *)

(** The addresses of one build of the kernel. *)
#[global, program] Instance example_image : KernelImage := {|
  kernel_end := 0x80026240;
  etext := 0x80008000;
  trampoline := 0x80007000;
  forkret_addr := 0x80001a4c;
  usertrap_addr := 0x80002700;
  kernelvec_addr := 0x80005d30;
  uservec_addr := 0x80007000;
  userret_addr := 0x80007090;
|}.
Next Obligation. done. Qed.
Next Obligation. done. Qed.
Next Obligation. done. Qed.
Next Obligation. done. Qed.

Lemma boot_inv : kmem_inv boot_state [].
Proof. split; [done|constructor|constructor]. Qed.

Lemma kinit_spec_witness :
  ∃ s' l, kinit boot_state = Done tt s' ∧ kmem_inv s' l ∧ NoDup l ∧
    (∀ p, p ∈ l ↔ p mod 4096 = 0 ∧ kernel_end <= p ∧ p + 4096 <= PHYSTOP).
Proof. apply (kinit_spec boot_state); [reflexivity|]. by apply unlocked_nil. Defined.

Lemma kfree_spec_witness :
  (∃ s', kfree 0x80100000 boot_state = Done tt s') ∧
  kfree 0x80000000 boot_state = Panic "kfree" boot_state.
Proof.
  split.
  - destruct (proj1 (kfree_spec boot_state [] 0x80100000 boot_inv
      (unlocked_nil LKmem boot_state eq_refl ltac:(done)) ltac:(lia) (not_elem_of_nil _))) as (s' & H & _);
      [by vm_compute|by exists s'].
  - apply (kfree_spec boot_state [] 0x80000000 boot_inv
      (unlocked_nil LKmem boot_state eq_refl ltac:(done)) ltac:(lia) (not_elem_of_nil _)).
    intros (_ & H & _). vm_compute in H. by apply H.
Defined.

(** One free page. *)
Definition one_page_state : kst :=
  put_freelist 0x80100000 (put_mem (kfree_mem ∅ 0 0x80100000) boot_state).

Lemma one_page_inv : kmem_inv one_page_state [0x80100000].
Proof. apply (kfree_inv boot_state [] 0x80100000 boot_inv); [by vm_compute|apply not_elem_of_nil]. Qed.

Lemma kalloc_spec_witness :
  (∃ s', kalloc boot_state = Done 0 s') ∧
  (∃ r s', kalloc one_page_state = Done r s' ∧ rd (get_mem s') r = 5).
Proof.
  split.
  - destruct (kalloc_spec boot_state [] boot_inv (unlocked_nil LKmem boot_state eq_refl ltac:(done)))
      as (r & s' & Hr & [(_ & -> & _)|(l' & Hl & _)]); [by exists s'|done].
  - destruct (kalloc_spec one_page_state _ one_page_inv (unlocked_nil LKmem one_page_state eq_refl ltac:(done)))
      as (r & s' & Hr & [(Hl & _)|(l' & Hl & _ & _ & _ & H5 & _)]); [done|].
    exists r, s'. split; [done|]. apply H5. unfold in_page. lia.
Defined.
