(* ===== verification/Vm.v ===== *)
(** * kernel/vm.c: page tables and copies between kernel and user memory

    Page tables live in physical memory: a page-table page is 512 words of 8
    bytes.  The functions below are those of vm.c and the page-table
    functions of proc.c ([proc_mapstacks], [proc_pagetable],
    [proc_freepagetable]).  The source or destination of a copy that is a
    kernel object is the list of its bytes. *)

From S2P Require Import Prelude Memory Params State CString Sched Kalloc Riscv.

Section vm.
Context `{KernelImage}.

(** [*(uint64* )a] as an rvalue and as an lvalue. *)
Definition ld (a : Z) : K Z := gets (λ s, load64 (get_mem s) a).
Definition st (a v : Z) : K unit := modify (λ s, put_mem (store64 (get_mem s) a v) s).
Definition fill (a c n : Z) : K unit := modify (λ s, put_mem (memset (get_mem s) a c n) s).

(** [&pagetable[i]] *)
Definition pte_addr (pagetable i : Z) : Z := pagetable + 8 * i.

(** The loop of [walk]; [level] is the loop variable. *)
Fixpoint walk_loop (level : nat) (pagetable va : Z) (alloc : bool) : K Z :=
  match level with
  | O => mret (pte_addr pagetable (PX 0 va))
  | S level' =>
      let pte := pte_addr pagetable (PX (Z.of_nat level) va) in
      v ← ld pte;
      if has v PTE_V then walk_loop level' (PTE2PA v) va alloc
      else if negb alloc then mret 0
      else
        pt ← kalloc;
        if pt =? 0 then mret 0
        else
          fill pt 0 PGSIZE;;
          st pte (Z.lor (PA2PTE pt) PTE_V);;
          walk_loop level' pt va alloc
  end.

Definition walk (pagetable va : Z) (alloc : bool) : K Z :=
  if va >=? MAXVA then panic "walk" else walk_loop 2 pagetable va alloc.

Definition walkaddr (pagetable va : Z) : K Z :=
  if va >=? MAXVA then mret 0 else
  pte ← walk pagetable va false;
  if pte =? 0 then mret 0 else
  v ← ld pte;
  if negb (has v PTE_V) then mret 0 else
  if negb (has v PTE_U) then mret 0 else
  mret (PTE2PA v).

(** The loop [for(;;)] of [mappages]; [fuel] counts the pages after this one. *)
Fixpoint mappages_loop (fuel : nat) (pagetable a last pa perm : Z) : K Z :=
  pte ← walk pagetable a true;
  if pte =? 0 then mret (-1) else
  v ← ld pte;
  if has v PTE_V then panic "mappages: remap" else
  st pte (Z.lor (Z.lor (PA2PTE pa) perm) PTE_V);;
  if a =? last then mret 0 else
  match fuel with
  | O => out_of_fuel
  | S fuel => mappages_loop fuel pagetable (u64 (a + PGSIZE)) last (u64 (pa + PGSIZE)) perm
  end.

(** The loop ends at [last] or, if [last] is below [a], in the panic of
    [walk] at MAXVA. *)
Definition mappages_fuel (a last : Z) : nat :=
  if a <=? last then Z.to_nat ((last - a) / PGSIZE)
  else Z.to_nat ((MAXVA - a) / PGSIZE + 1).

Definition mappages (pagetable va size pa perm : Z) : K Z :=
  if size =? 0 then panic "mappages: size" else
  let a := PGROUNDDOWN va in
  let last := PGROUNDDOWN (u64 (va + size - 1)) in
  mappages_loop (mappages_fuel a last) pagetable a last pa perm.

Definition kvmmap (kpgtbl va pa sz perm : Z) : K unit :=
  r ← mappages kpgtbl va sz pa perm;
  if negb (r =? 0) then panic "kvmmap" else mret tt.

(** The loop of [uvmunmap] from [a] up to [top]. *)
Fixpoint uvmunmap_loop (fuel : nat) (pagetable a top : Z) (do_free : bool) : K unit :=
  if negb (a <? top) then mret tt else
  match fuel with
  | O => out_of_fuel
  | S fuel =>
      pte ← walk pagetable a false;
      if pte =? 0 then panic "uvmunmap: walk" else
      v ← ld pte;
      if negb (has v PTE_V) then panic "uvmunmap: not mapped" else
      if PTE_FLAGS v =? PTE_V then panic "uvmunmap: not a leaf" else
      when do_free (kfree (PTE2PA v));;
      st pte 0;;
      uvmunmap_loop fuel pagetable (u64 (a + PGSIZE)) top do_free
  end.

Definition uvmunmap (pagetable va npages : Z) (do_free : bool) : K unit :=
  if negb (va mod PGSIZE =? 0) then panic "uvmunmap: not aligned" else
  uvmunmap_loop (Z.to_nat npages) pagetable va (u64 (va + npages * PGSIZE)) do_free.

Definition uvmcreate : K Z :=
  pagetable ← kalloc;
  if pagetable =? 0 then mret 0 else
  fill pagetable 0 PGSIZE;;
  mret pagetable.

Definition put_bytes (a : Z) (l : list Z) : K unit :=
  modify (λ s, put_mem (write_bytes (get_mem s) a l) s).

Definition uvminit (pagetable : Z) (src : list Z) (sz : Z) : K unit :=
  if sz >=? PGSIZE then panic "inituvm: more than a page" else
  mem ← kalloc;
  fill mem 0 PGSIZE;;
  _ ← mappages pagetable 0 PGSIZE mem (Z.lor (Z.lor (Z.lor PTE_W PTE_R) PTE_X) PTE_U);
  put_bytes mem (take (Z.to_nat sz) src).

Definition uvmdealloc (pagetable oldsz newsz : Z) : K Z :=
  if newsz >=? oldsz then mret oldsz else
  when (PGROUNDUP newsz <? PGROUNDUP oldsz)
    (let npages := i32 ((PGROUNDUP oldsz - PGROUNDUP newsz) / PGSIZE) in
     uvmunmap pagetable (PGROUNDUP newsz) (u64 npages) true);;
  mret newsz.

Fixpoint uvmalloc_loop (fuel : nat) (pagetable a oldsz newsz : Z) : K Z :=
  if negb (a <? newsz) then mret newsz else
  match fuel with
  | O => out_of_fuel
  | S fuel =>
      mem ← kalloc;
      if mem =? 0 then
        _ ← uvmdealloc pagetable a oldsz;
        mret 0
      else
        fill mem 0 PGSIZE;;
        r ← mappages pagetable a PGSIZE mem
              (Z.lor (Z.lor (Z.lor PTE_W PTE_X) PTE_R) PTE_U);
        if negb (r =? 0) then
          kfree mem;;
          _ ← uvmdealloc pagetable a oldsz;
          mret 0
        else uvmalloc_loop fuel pagetable (u64 (a + PGSIZE)) oldsz newsz
  end.

Definition uvmalloc (pagetable oldsz newsz : Z) : K Z :=
  if newsz <? oldsz then mret oldsz else
  let oldsz := PGROUNDUP oldsz in
  uvmalloc_loop (Z.to_nat ((newsz - oldsz + PGSIZE - 1) / PGSIZE)) pagetable oldsz oldsz newsz.

(** [freewalk] recurses through the levels of the table; [depth] bounds the
    recursion and is 3 in [uvmfree], the number of levels. *)
Fixpoint freewalk (depth : nat) (pagetable : Z) : K unit :=
  match depth with
  | O => out_of_fuel
  | S depth =>
      for_each 512 0 (λ i,
        pte ← ld (pte_addr pagetable i);
        if has pte PTE_V && (Z.land pte (Z.lor (Z.lor PTE_R PTE_W) PTE_X) =? 0) then
          freewalk depth (PTE2PA pte);;
          st (pte_addr pagetable i) 0
        else if has pte PTE_V then panic "freewalk: leaf"
        else mret tt);;
      kfree pagetable
  end.

Definition uvmfree (pagetable sz : Z) : K unit :=
  when (sz >? 0) (uvmunmap pagetable 0 (PGROUNDUP sz / PGSIZE) true);;
  freewalk 3 pagetable.

Fixpoint uvmcopy_loop (fuel : nat) (old new i sz : Z) : K Z :=
  if negb (i <? sz) then mret 0 else
  match fuel with
  | O => out_of_fuel
  | S fuel =>
      pte ← walk old i false;
      if pte =? 0 then panic "uvmcopy: pte should exist" else
      v ← ld pte;
      if negb (has v PTE_V) then panic "uvmcopy: page not present" else
      let pa := PTE2PA v in
      let flags := PTE_FLAGS v in
      let err := (uvmunmap new 0 (i / PGSIZE) true;; mret (-1)) in
      mem ← kalloc;
      if mem =? 0 then err else
      modify (λ s, put_mem (memmove (get_mem s) mem pa PGSIZE) s);;
      r ← mappages new i PGSIZE mem flags;
      if negb (r =? 0) then kfree mem;; err
      else uvmcopy_loop fuel old new (u64 (i + PGSIZE)) sz
  end.

Definition uvmcopy (old new sz : Z) : K Z :=
  uvmcopy_loop (Z.to_nat ((sz + PGSIZE - 1) / PGSIZE)) old new 0 sz.

Definition uvmclear (pagetable va : Z) : K unit :=
  pte ← walk pagetable va false;
  if pte =? 0 then panic "uvmclear" else
  v ← ld pte;
  st pte (Z.ldiff v PTE_U).

(** ** Copies between kernel and user memory

    Every iteration copies at least one byte, so [len] iterations suffice. *)

(** [n = PGSIZE - (va - va0); if(n > len) n = len;] *)
Definition chunk (va va0 len : Z) : Z :=
  let n := PGSIZE - (va - va0) in
  if n >? len then len else n.

Fixpoint copyout_loop (fuel : nat) (pagetable dstva : Z) (src : list Z) (len : Z) : K Z :=
  if negb (len >? 0) then mret 0 else
  match fuel with
  | O => out_of_fuel
  | S fuel =>
      let va0 := PGROUNDDOWN dstva in
      pa0 ← walkaddr pagetable va0;
      if pa0 =? 0 then mret (-1) else
      let n := chunk dstva va0 len in
      put_bytes (pa0 + (dstva - va0)) (take (Z.to_nat n) src);;
      copyout_loop fuel pagetable (u64 (va0 + PGSIZE)) (drop (Z.to_nat n) src) (len - n)
  end.

Definition copyout (pagetable dstva : Z) (src : list Z) (len : Z) : K Z :=
  copyout_loop (Z.to_nat len) pagetable dstva src len.

(** The result of a copy into a kernel buffer: the value returned and the
    bytes stored to the buffer, also when the copy stops half way. *)
Fixpoint copyin_loop (fuel : nat) (pagetable srcva len : Z) : K (Z * list Z) :=
  if negb (len >? 0) then mret (0, []) else
  match fuel with
  | O => out_of_fuel
  | S fuel =>
      let va0 := PGROUNDDOWN srcva in
      pa0 ← walkaddr pagetable va0;
      if pa0 =? 0 then mret (-1, []) else
      let n := chunk srcva va0 len in
      bs ← gets (λ s, read_bytes (get_mem s) (pa0 + (srcva - va0)) (Z.to_nat n));
      r ← copyin_loop fuel pagetable (u64 (va0 + PGSIZE)) (len - n);
      mret (r.1, bs ++ r.2)
  end.

Definition copyin (pagetable srcva len : Z) : K (Z * list Z) :=
  copyin_loop (Z.to_nat len) pagetable srcva len.

(** The inner loop of [copyinstr]: the bytes stored and [got_null]. *)
Fixpoint copyinstr_chunk (n : nat) (m : mem) (p : Z) : list Z * bool :=
  match n with
  | O => ([], false)
  | S n => if rd m p =? 0 then ([0], true)
           else let r := copyinstr_chunk n m (p + 1) in (rd m p :: r.1, r.2)
  end.

Fixpoint copyinstr_loop (fuel : nat) (pagetable srcva max : Z) : K (Z * list Z) :=
  if negb (max >? 0) then mret (-1, []) else
  match fuel with
  | O => out_of_fuel
  | S fuel =>
      let va0 := PGROUNDDOWN srcva in
      pa0 ← walkaddr pagetable va0;
      if pa0 =? 0 then mret (-1, []) else
      let n := chunk srcva va0 max in
      c ← gets (λ s, copyinstr_chunk (Z.to_nat n) (get_mem s) (pa0 + (srcva - va0)));
      if (c.2 : bool) then mret (0, c.1) else
      r ← copyinstr_loop fuel pagetable (u64 (va0 + PGSIZE)) (max - n);
      mret (r.1, c.1 ++ r.2)
  end.

Definition copyinstr (pagetable srcva max : Z) : K (Z * list Z) :=
  copyinstr_loop (Z.to_nat max) pagetable srcva max.

(** ** The kernel page table *)

(** kernel/proc.c *)
Definition proc_mapstacks (kpgtbl : Z) : K unit :=
  for_each NPROC 0 (λ p,
    pa ← kalloc;
    if pa =? 0 then panic "kalloc" else
    kvmmap kpgtbl (KSTACK p) pa PGSIZE (Z.lor PTE_R PTE_W)).

Definition kvmmake : K Z :=
  kpgtbl ← kalloc;
  fill kpgtbl 0 PGSIZE;;
  kvmmap kpgtbl UART0 UART0 PGSIZE (Z.lor PTE_R PTE_W);;
  kvmmap kpgtbl VIRTIO0 VIRTIO0 PGSIZE (Z.lor PTE_R PTE_W);;
  kvmmap kpgtbl PLIC PLIC 0x400000 (Z.lor PTE_R PTE_W);;
  kvmmap kpgtbl KERNBASE KERNBASE (etext - KERNBASE) (Z.lor PTE_R PTE_X);;
  kvmmap kpgtbl etext etext (PHYSTOP - etext) (Z.lor PTE_R PTE_W);;
  kvmmap kpgtbl TRAMPOLINE trampoline PGSIZE (Z.lor PTE_R PTE_X);;
  proc_mapstacks kpgtbl;;
  mret kpgtbl.

Definition kvminit : K unit :=
  pt ← kvmmake;
  modify (λ s, set_mem (mk_mstate (get_mem s) (get_freelist s) pt) s).

(** The model has no TLB, so that [sfence_vma] does nothing. *)
Definition kvminithart : K unit :=
  pt ← gets (λ s, m_kpagetable (k_mem s));
  w_satp (MAKE_SATP pt).

(** ** The page table of a process: kernel/proc.c *)

Definition proc_pagetable (trapframe : Z) : K Z :=
  pagetable ← uvmcreate;
  if pagetable =? 0 then mret 0 else
  r ← mappages pagetable TRAMPOLINE PGSIZE trampoline (Z.lor PTE_R PTE_X);
  if r <? 0 then
    uvmfree pagetable 0;;
    mret 0
  else
  r ← mappages pagetable TRAPFRAME PGSIZE trapframe (Z.lor PTE_R PTE_W);
  if r <? 0 then
    uvmunmap pagetable TRAMPOLINE 1 false;;
    uvmfree pagetable 0;;
    mret 0
  else mret pagetable.

Definition proc_freepagetable (pagetable sz : Z) : K unit :=
  uvmunmap pagetable TRAMPOLINE 1 false;;
  uvmunmap pagetable TRAPFRAME 1 false;;
  uvmfree pagetable sz.
End vm.
