(* ===== verification/Console.v ===== *)
(** * kernel/console.c, and the copies of kernel/proc.c to and from either a
    user or a kernel address *)

From S2P Require Import Prelude Memory Params State CString Sched Kalloc Vm Uart.

(** ** either_copyout and either_copyin

    A destination is a user address, a kernel address, or a variable of the
    caller: then the bytes are what the caller returns. *)
Inductive iodst : Set := DUser (va : Z) | DKernel (a : Z) | DLocal.
Inductive iosrc : Type := SUser (va : Z) | SLocal (l : list Z).

(** [dst += m] and [src += m] *)
Definition dst_add (d : iodst) (m : Z) : iodst :=
  match d with DUser va => DUser (u64 (va + m)) | DKernel a => DKernel (a + m) | DLocal => DLocal end.
Definition src_add (s : iosrc) (m : Z) : iosrc :=
  match s with SUser va => SUser (u64 (va + m)) | SLocal l => SLocal (drop (Z.to_nat m) l) end.

Section console.
Context `{UartDev} `{WaitFuel}.

Definition either_copyout (dst : iodst) (src : list Z) (len : Z) : K Z :=
  p ← myproc;
  match dst with
  | DUser va =>
      pt ← proc_get p p_pagetable;
      copyout pt va src len
  | DKernel a => put_bytes a (take (Z.to_nat len) src);; mret 0
  | DLocal => mret 0
  end.

Definition either_copyin (src : iosrc) (len : Z) : K (Z * list Z) :=
  p ← myproc;
  match src with
  | SUser va =>
      pt ← proc_get p p_pagetable;
      copyin pt va len
  | SLocal l => mret (0, take (Z.to_nat len) l)
  end.

(** ** procdump *)

Definition state_name (st : procstate) : string :=
  match st with
  | UNUSED => "unused"
  | USED => "???"
  | SLEEPING => "sleep "
  | RUNNABLE => "runble"
  | RUNNING => "run   "
  | ZOMBIE => "zombie"
  end.

Definition newline : string := String (Ascii.ascii_of_nat 10) EmptyString.

Definition procdump : K unit :=
  printf newline [];;
  for_each NPROC 0 (λ i,
    p ← gets (λ s, get_proc s (Z.to_nat i));
    if bool_decide (p_state p = UNUSED) then mret tt else
    printf "%d %s %s" [PInt (p_pid p); PStr (Some (codes (state_name (p_state p)))); PStr (Some (cstr (p_name p)))];;
    printf newline []).

(** ** kernel/console.c *)

Definition INPUT_BUF : Z := 128.

(** [C(x)] *)
Definition ctrl (x : Z) : Z := x - 64.
Definition ctrl_P : Z := ctrl 80.
Definition ctrl_U : Z := ctrl 85.
Definition ctrl_H : Z := ctrl 72.
Definition ctrl_D : Z := ctrl 68.

Definition upd_cons (f : consstate → consstate) : K unit := modify (λ s, set_cons (f (k_cons s)) s).
Definition set_cons_r (r : Z) (c : consstate) := mk_cons (cons_buf c) r (cons_w c) (cons_e c).
Definition set_cons_w (w : Z) (c : consstate) := mk_cons (cons_buf c) (cons_r c) w (cons_e c).
Definition set_cons_e (e : Z) (c : consstate) := mk_cons (cons_buf c) (cons_r c) (cons_w c) e.

Fixpoint consolewrite_loop (n : nat) (src : iosrc) (i : Z) : K Z :=
  match n with
  | O => mret i
  | S n =>
      c ← either_copyin src 1;
      if c.1 =? -1 then mret i else
      uartputc (hd 0 c.2);;
      consolewrite_loop n (src_add src 1) (i + 1)
  end.

Definition consolewrite (src : iosrc) (n : Z) : K Z := consolewrite_loop (Z.to_nat n) src 0.

(** [while(cons.r == cons.w)]: true when there is input, false when killed. *)
Fixpoint console_wait (fuel : nat) : K bool :=
  c ← gets k_cons;
  if negb (cons_r c =? cons_w c) then mret true else
  p ← myproc;
  killed ← proc_get p p_killed;
  if negb (killed =? 0) then mret false else
  match fuel with
  | O => out_of_fuel
  | S fuel => sleep ChCons LCons;; console_wait fuel
  end.

(** The loop over the characters; the result is the number of bytes still
    wanted, [None] if the process was killed. *)
Fixpoint consoleread_loop (k : nat) (dst : iodst) (target n : Z) : K (option Z) :=
  match k with
  | O => mret (Some n)
  | S k =>
      go ← console_wait wait_fuel;
      if negb go then mret None else
      co ← gets k_cons;
      let c := cons_buf co !!! Z.to_nat (cons_r co mod INPUT_BUF) in
      upd_cons (λ co, set_cons_r (u32 (cons_r co + 1)) co);;
      if c =? ctrl_D then
        when (n <? target) (upd_cons (λ co, set_cons_r (u32 (cons_r co - 1)) co));;
        mret (Some n)
      else
      r ← either_copyout dst [c] 1;
      if r =? -1 then mret (Some n) else
      if c =? 10 then mret (Some (n - 1))
      else consoleread_loop k (dst_add dst 1) target (n - 1)
  end.

Definition consoleread (dst : iodst) (n : Z) : K Z :=
  acquire LCons;;
  r ← consoleread_loop (Z.to_nat n) dst n n;
  release LCons;;
  mret (match r with Some m => n - m | None => -1 end).

(** [while(cons.e != cons.w && ...)] of the case of control-U; at most
    [cons.e - cons.w] characters are erased. *)
Fixpoint kill_line (fuel : nat) : K unit :=
  c ← gets k_cons;
  if negb (cons_e c =? cons_w c) &&
     negb (cons_buf c !!! Z.to_nat (u32 (cons_e c - 1) mod INPUT_BUF) =? 10) then
    match fuel with
    | O => out_of_fuel
    | S fuel =>
        upd_cons (λ c, set_cons_e (u32 (cons_e c - 1)) c);;
        consputc BACKSPACE;;
        kill_line fuel
    end
  else mret tt.

Definition consoleintr_default (c : Z) : K unit :=
  co ← gets k_cons;
  if negb (c =? 0) && (u32 (cons_e co - cons_r co) <? INPUT_BUF) then
    let c := if c =? 13 then 10 else c in
    consputc c;;
    upd_cons (λ co, mk_cons (<[Z.to_nat (cons_e co mod INPUT_BUF) := u8 c]> (cons_buf co))
                      (cons_r co) (cons_w co) (u32 (cons_e co + 1)));;
    co ← gets k_cons;
    when ((c =? 10) || (c =? ctrl_D) || (cons_e co =? u32 (cons_r co + INPUT_BUF))) (
      upd_cons (λ co, set_cons_w (cons_e co) co);;
      wakeup ChCons)
  else mret tt.

Definition consoleintr (c : Z) : K unit :=
  acquire LCons;;
  (if c =? ctrl_P then procdump
   else if c =? ctrl_U then
     co ← gets k_cons;
     kill_line (Z.to_nat (u32 (cons_e co - cons_w co)))
   else if (c =? ctrl_H) || (c =? 0x7f) then
     co ← gets k_cons;
     when (negb (cons_e co =? cons_w co)) (
       upd_cons (λ co, set_cons_e (u32 (cons_e co - 1)) co);;
       consputc BACKSPACE)
   else consoleintr_default c);;
  release LCons.

(** The device switch has one entry, the console; see [devsw_read]. *)
Definition consoleinit : K unit := uartinit.

(** kernel/uart.c: the characters that wait are read one by one, those that
    arrive meanwhile included. *)
Fixpoint uartintr_loop (fuel : nat) : K unit :=
  c ← uartgetc;
  if c =? -1 then mret tt else
  match fuel with
  | O => out_of_fuel
  | S fuel => consoleintr c;; uartintr_loop fuel
  end.

Definition uartintr : K unit :=
  u ← gets k_uart;
  uartintr_loop (length (ua_rx u) + length (ua_line u));;
  acquire LUart;;
  uartstart;;
  release LUart.

(** ** The device switch: [devsw[major].read] and [.write] *)

Definition CONSOLE : Z := 1.
Definition devsw_read (major : Z) : option (iodst → Z → K Z) :=
  if major =? CONSOLE then Some consoleread else None.
Definition devsw_write (major : Z) : option (iosrc → Z → K Z) :=
  if major =? CONSOLE then Some consolewrite else None.
End console.
