(* ===== verification/PageTable.v ===== *)
(** * Page tables as finite maps

    The abstract view of a page table: [leaf m root va] is the level-0 entry
    that the hardware reaches from the table at [root] for the address [va],
    or 0 when the path to it is not complete.  The invariant gives every page
    of a page table one owner: which table it belongs to, at which level, and
    which part of the address space it serves.  No two tables share a page
    and no page is reached twice. *)

From S2P Require Import Prelude Memory Params State CString Sched Kalloc Vm.

(** ** The abstract view *)

Fixpoint leaf_from (level : nat) (m : mem) (pt va : Z) : Z :=
  match level with
  | O => load64 m (pte_addr pt (PX 0 va))
  | S level' =>
      let v := load64 m (pte_addr pt (PX (Z.of_nat level) va)) in
      if has v PTE_V then leaf_from level' m (PTE2PA v) va else 0
  end.

Definition leaf (m : mem) (root va : Z) : Z := leaf_from 2 m root va.

(** The address of the entry, 0 when the path is not complete. *)
Fixpoint walk_addr (level : nat) (m : mem) (pt va : Z) : Z :=
  match level with
  | O => pte_addr pt (PX 0 va)
  | S level' =>
      let v := load64 m (pte_addr pt (PX (Z.of_nat level) va)) in
      if has v PTE_V then walk_addr level' m (PTE2PA v) va else 0
  end.

(** ** Owners of pages

    A page belongs to a page table, is page [n] of the address space of
    [root], has been allocated and not been put to use ([THand]), or holds a
    kernel object. *)

Inductive tag : Set :=
| TPt (root level pre : Z)
| TUser (root n : Z)
| THand
| TKernel.

#[global] Instance tag_eq_dec : EqDecision tag.
Proof. solve_decision. Defined.

(** The part of the virtual page number that selects the level-[l] page. *)
Definition prefix (l va : Z) : Z := va / 2 ^ (12 + 9 * (l + 1)).

Lemma prefix_step l va :
  0 < l → prefix (l - 1) va = prefix l va * 512 + PX l va.
Proof.
  intros Hl. unfold prefix. rewrite px_eq by lia.
  replace (12 + 9 * (l + 1)) with (12 + 9 * l + 9) by lia.
  replace (12 + 9 * (l - 1 + 1)) with (12 + 9 * l) by lia.
  rewrite (Z.pow_add_r 2 (12 + 9 * l) 9) by lia. change (2 ^ 9) with 512.
  rewrite <- Z.div_div by (try apply Z.pow_nonzero; lia).
  set (x := va / 2 ^ (12 + 9 * l)). pose proof (Z.div_mod x 512). lia.
Qed.

Lemma prefix_top va : 0 <= va < MAXVA → prefix 2 va = 0.
Proof. intros H. apply Z.div_small. change MAXVA with (2 ^ 38) in H. lia. Qed.

Lemma prefix_nonneg l va : 0 <= va → 0 <= l → 0 <= prefix l va.
Proof. intros. apply Z.div_pos; [done|]. apply Z.pow_pos_nonneg; lia. Qed.

Lemma vpn_prefix va : vpn va = prefix 0 va * 512 + PX 0 va.
Proof.
  unfold vpn, prefix. rewrite px_eq by lia.
  change (2 ^ (12 + 9 * (0 + 1))) with (4096 * 512). change (2 ^ (12 + 9 * 0)) with 4096.
  rewrite <- Z.div_div by lia. pose proof (Z.div_mod (va / 4096) 512). lia.
Qed.

Lemma prefix_vpn l va va' : 0 <= l → vpn va = vpn va' → prefix l va = prefix l va'.
Proof.
  unfold vpn, prefix. intros Hl Hv.
  replace (12 + 9 * (l + 1)) with (12 + (9 * (l + 1))) by lia.
  rewrite Z.pow_add_r by lia. change (2 ^ 12) with 4096.
  rewrite <- !Z.div_div by (try apply Z.pow_nonzero; lia). by rewrite Hv.
Qed.

Lemma px_vpn l va va' : 0 <= l → vpn va = vpn va' → PX l va = PX l va'.
Proof.
  unfold vpn. intros Hl Hv. rewrite !px_eq by lia.
  rewrite Z.pow_add_r by lia. change (2 ^ 12) with 4096.
  rewrite <- !Z.div_div by (try apply Z.pow_nonzero; lia). by rewrite Hv.
Qed.

Lemma leaf_from_vpn level m pt va va' :
  vpn va = vpn va' → leaf_from level m pt va = leaf_from level m pt va'.
Proof.
  intros Hv. revert pt. induction level as [|level IH]; intros pt; simpl leaf_from.
  - by rewrite (px_vpn 0 va va').
  - rewrite (px_vpn _ va va') by (done || lia). case_match; [apply IH|done].
Qed.

Lemma walk_addr_vpn level m pt va va' :
  vpn va = vpn va' → walk_addr level m pt va = walk_addr level m pt va'.
Proof.
  intros Hv. revert pt. induction level as [|level IH]; intros pt; simpl walk_addr.
  - by rewrite (px_vpn 0 va va').
  - rewrite (px_vpn _ va va') by (done || lia). case_match; [apply IH|done].
Qed.

Section pt.
Context `{KernelImage}.
Implicit Types (m : mem) (own : gmap Z tag) (ex : Z → Prop).

(** [ex] is the set of addresses of entries that are exempt from the rule for
    valid entries while [freewalk] takes a subtree down. *)
Record pt_inv m own ex : Prop := {
  pi_ok : ∀ p t, own !! p = Some t → page_ok p;
  pi_lvl : ∀ p r l pre, own !! p = Some (TPt r l pre) →
    0 <= l <= 2 ∧ 0 <= pre ∧ (l = 2 → p = r ∧ pre = 0);
  pi_inj : ∀ p q r l pre, own !! p = Some (TPt r l pre) →
    own !! q = Some (TPt r l pre) → p = q;
  pi_fwd : ∀ p r l pre i, own !! p = Some (TPt r l pre) → 0 < l → 0 <= i < 512 →
    ¬ ex (pte_addr p i) →
    has (load64 m (pte_addr p i)) PTE_V = true →
    own !! PTE2PA (load64 m (pte_addr p i)) = Some (TPt r (l - 1) (pre * 512 + i)) ∧
    PTE_FLAGS (load64 m (pte_addr p i)) = PTE_V;
  pi_back : ∀ p r l pre, own !! p = Some (TPt r l pre) → l < 2 →
    ∃ q, own !! q = Some (TPt r (l + 1) (pre / 512)) ∧
      load64 m (pte_addr q (pre mod 512)) = pte_of p PTE_V;
}.

Definition no_ex : Z → Prop := λ _, False.
Lemma not_no_ex a : ¬ no_ex a.
Proof. intros []. Qed.

(** [root] is the root of a page table. *)
Definition is_root own (root : Z) : Prop := own !! root = Some (TPt root 2 0).

Definition is_pt own (p : Z) : Prop := ∃ r l pre, own !! p = Some (TPt r l pre).

(** ** Arithmetic of entry addresses *)

Lemma pte_addr_in_page p i x :
  0 <= i < 512 → pte_addr p i <= x < pte_addr p i + 8 → in_page p x.
Proof. unfold pte_addr, in_page. lia. Qed.

Lemma pte_addr_inj p q i j :
  p mod 4096 = 0 → q mod 4096 = 0 → 0 <= i < 512 → 0 <= j < 512 →
  pte_addr p i = pte_addr q j → p = q ∧ i = j.
Proof.
  unfold pte_addr. intros Hp Hq Hi Hj Heq.
  pose proof (Z.div_mod p 4096). pose proof (Z.div_mod q 4096). lia.
Qed.

Lemma pte_addr_disjoint p q i j :
  p mod 4096 = 0 → q mod 4096 = 0 → 0 <= i < 512 → 0 <= j < 512 →
  (p ≠ q ∨ i ≠ j) →
  pte_addr p i + 8 <= pte_addr q j ∨ pte_addr q j + 8 <= pte_addr p i.
Proof.
  unfold pte_addr. intros Hp Hq Hi Hj Hne.
  pose proof (Z.div_mod p 4096). pose proof (Z.div_mod q 4096). lia.
Qed.

Lemma load_pte_same_on (P : Z → Prop) m m' p i :
  same_on P m m' → P p → 0 <= i < 512 →
  load64 m' (pte_addr p i) = load64 m (pte_addr p i).
Proof.
  intros Hs HP Hi. eapply load64_same_on; [exact Hs|exact HP| |]; unfold pte_addr; lia.
Qed.

Lemma pi_aligned m own ex p t : pt_inv m own ex → own !! p = Some t → p mod 4096 = 0.
Proof. intros Hi Hp. by apply (pi_ok _ _ _ Hi) in Hp as [? _]. Qed.

Lemma prefix_mod_div l va :
  0 < l → prefix (l - 1) va / 512 = prefix l va ∧ prefix (l - 1) va mod 512 = PX l va.
Proof.
  intros Hl. rewrite (prefix_step l va) by done.
  pose proof (px_bound l va ltac:(lia)).
  rewrite Z.add_comm, Z.div_add, Z.mod_add by lia.
  rewrite Z.div_small, Z.mod_small by lia. lia.
Qed.

(** ** Paths stay inside the table *)

Lemma child_owned level m own pt r va :
  pt_inv m own no_ex →
  own !! pt = Some (TPt r (Z.of_nat (S level)) (prefix (Z.of_nat (S level)) va)) →
  has (load64 m (pte_addr pt (PX (Z.of_nat (S level)) va))) PTE_V = true →
  own !! PTE2PA (load64 m (pte_addr pt (PX (Z.of_nat (S level)) va))) =
    Some (TPt r (Z.of_nat level) (prefix (Z.of_nat level) va)).
Proof.
  intros Hi Hpt Hv.
  pose proof (px_bound (Z.of_nat (S level)) va ltac:(lia)) as Hb.
  destruct (pi_fwd _ _ _ Hi pt r _ _ _ Hpt ltac:(lia) Hb (not_no_ex _) Hv) as [Hc _].
  rewrite <- prefix_step in Hc by lia.
  by replace (Z.of_nat (S level) - 1) with (Z.of_nat level) in Hc by lia.
Qed.

Lemma walk_addr_owned level m own pt r va :
  pt_inv m own no_ex → 0 <= va →
  own !! pt = Some (TPt r (Z.of_nat level) (prefix (Z.of_nat level) va)) →
  walk_addr level m pt va = 0 ∨
  ∃ q, own !! q = Some (TPt r 0 (prefix 0 va)) ∧
       walk_addr level m pt va = pte_addr q (PX 0 va).
Proof.
  intros Hi Hva. revert pt. induction level as [|level IH]; intros pt Hpt; simpl walk_addr.
  - right. by exists pt.
  - destruct (has _ PTE_V) eqn:Hv; [|by left].
    pose proof (child_owned _ _ _ _ _ _ Hi Hpt Hv) as Hc.
    by apply IH.
Qed.

Lemma leaf_walk_addr level m pt va :
  walk_addr level m pt va ≠ 0 → leaf_from level m pt va = load64 m (walk_addr level m pt va).
Proof.
  revert pt. induction level as [|level IH]; intros pt; simpl; [done|].
  case_match; [apply IH|done].
Qed.

Lemma leaf_walk_addr_0 level m pt va own r :
  pt_inv m own no_ex → 0 <= va →
  own !! pt = Some (TPt r (Z.of_nat level) (prefix (Z.of_nat level) va)) →
  walk_addr level m pt va = 0 → leaf_from level m pt va = 0.
Proof.
  intros Hi Hva. revert pt. induction level as [|level IH]; intros pt Hpt; simpl.
  - intros H0. exfalso. pose proof (px_bound 0 va ltac:(lia)).
    apply (pi_ok _ _ _ Hi), page_ok_pos in Hpt. unfold pte_addr in H0. lia.
  - destruct (has _ PTE_V) eqn:Hv; [|done].
    pose proof (child_owned _ _ _ _ _ _ Hi Hpt Hv) as Hc.
    by apply IH.
Qed.

(** ** Frame *)

Lemma leaf_from_frame level m m' own pt r va :
  pt_inv m own no_ex → 0 <= va →
  same_on (is_pt own) m m' →
  own !! pt = Some (TPt r (Z.of_nat level) (prefix (Z.of_nat level) va)) →
  leaf_from level m' pt va = leaf_from level m pt va.
Proof.
  intros Hi Hva Hs. revert pt. induction level as [|level IH]; intros pt Hpt; simpl leaf_from.
  - eapply load_pte_same_on; [exact Hs|by do 3 eexists|]. apply px_bound. lia.
  - pose proof (px_bound (Z.of_nat (S level)) va ltac:(lia)) as Hb.
    rewrite (load_pte_same_on _ m m' pt _ Hs) by (done || by do 3 eexists).
    destruct (has _ PTE_V) eqn:Hv; [|done].
    pose proof (child_owned _ _ _ _ _ _ Hi Hpt Hv) as Hc.
    by apply IH.
Qed.

Lemma root_start own root va :
  is_root own root → 0 <= va < MAXVA →
  own !! root = Some (TPt root (Z.of_nat 2) (prefix (Z.of_nat 2) va)).
Proof. intros Hr Hva. simpl. by rewrite prefix_top. Qed.

Lemma leaf_frame m m' own root va :
  pt_inv m own no_ex → is_root own root → 0 <= va < MAXVA →
  same_on (is_pt own) m m' → leaf m' root va = leaf m root va.
Proof.
  intros Hi Hr Hva Hs. eapply leaf_from_frame; [done|lia|done|by apply root_start].
Qed.

Lemma pt_inv_frame m m' own ex :
  same_on (is_pt own) m m' → pt_inv m own ex → pt_inv m' own ex.
Proof.
  intros Hs Hi. split; [by apply Hi|by apply Hi|by apply Hi| |].
  - intros p r l pre i Hp Hl Hi'.
    rewrite (load_pte_same_on _ m m' p _ Hs) by (done || by do 3 eexists).
    by apply Hi.
  - intros p r l pre Hp Hl. destruct (pi_back _ _ _ Hi p r l pre Hp Hl) as (q & Hq & Hv).
    exists q. split; [done|].
    rewrite (load_pte_same_on _ m m' q _ Hs); [done|by do 3 eexists|].
    by apply Z.mod_pos_bound.
Qed.

(** ** Every page of a table is reached *)

Lemma pte_v_bound : 0 <= PTE_V < 1024.
Proof. by vm_compute. Qed.

Lemma has_pte_of_V p : page_ok p → has (pte_of p PTE_V) PTE_V = true.
Proof.
  intros Hp. apply page_ok_pos in Hp. pose proof pte_v_bound.
  by rewrite has_pte_of by lia.
Qed.

Lemma pte2pa_pte_of_V p : page_ok p → PTE2PA (pte_of p PTE_V) = p.
Proof.
  intros Hp. pose proof (page_ok_pos _ Hp). destruct Hp as [Hal _].
  apply pte2pa_pte_of; [lia|done|apply pte_v_bound].
Qed.

(** The page above [c] on the way to [va], and the entry in it. *)
Lemma parent_entry m own c r l va :
  pt_inv m own no_ex → 0 <= l < 2 →
  own !! c = Some (TPt r l (prefix l va)) →
  ∃ q, own !! q = Some (TPt r (l + 1) (prefix (l + 1) va)) ∧
       load64 m (pte_addr q (PX (l + 1) va)) = pte_of c PTE_V.
Proof.
  intros Hi Hl Hc. destruct (pi_back _ _ _ Hi c r l _ Hc ltac:(lia)) as (q & Hq & Hv).
  destruct (prefix_mod_div (l + 1) va ltac:(lia)) as [H1 H2].
  replace (l + 1 - 1) with l in H1, H2 by lia. rewrite H1 in Hq. rewrite H2 in Hv.
  by exists q.
Qed.

Lemma path_complete level m own q pt r va :
  pt_inv m own no_ex → (level <= 2)%nat →
  own !! q = Some (TPt r 0 (prefix 0 va)) →
  own !! pt = Some (TPt r (Z.of_nat level) (prefix (Z.of_nat level) va)) →
  walk_addr level m pt va = pte_addr q (PX 0 va).
Proof.
  intros Hi Hlv Hq.
  assert (Hanc : ∀ l, (l <= 2)%nat →
            ∃ c, own !! c = Some (TPt r (Z.of_nat l) (prefix (Z.of_nat l) va))).
  { induction l as [|l IH]; intros Hl; [by exists q|].
    destruct IH as [c Hc]; [lia|].
    destruct (parent_entry m own c r (Z.of_nat l) va Hi ltac:(lia) Hc) as (c' & Hc' & _).
    exists c'. by replace (Z.of_nat (S l)) with (Z.of_nat l + 1) by lia. }
  revert pt. induction level as [|level IH]; intros pt Hpt; simpl walk_addr.
  - by rewrite (pi_inj _ _ _ Hi _ _ _ _ _ Hpt Hq).
  - destruct (Hanc level) as [c Hc]; [lia|].
    destruct (parent_entry m own c r (Z.of_nat level) va Hi ltac:(lia) Hc) as (q' & Hq' & Hv).
    replace (Z.of_nat level + 1) with (Z.of_nat (S level)) in Hq', Hv by lia.
    rewrite (pi_inj _ _ _ Hi _ _ _ _ _ Hpt Hq') in *. rewrite Hv.
    pose proof (pi_ok _ _ _ Hi _ _ Hc) as Hcok.
    rewrite has_pte_of_V, pte2pa_pte_of_V by done. apply IH; [lia|done].
Qed.

(** ** Adding a page-table page *)

Section extend.
Context (m : mem) (own : gmap Z tag) (p r l pre i n : Z).
Context (Hi : pt_inv m own no_ex) (Hp : own !! p = Some (TPt r l pre)) (Hl : 0 < l)
        (Hib : 0 <= i < 512) (Hinv : has (load64 m (pte_addr p i)) PTE_V = false)
        (Hn : page_ok n) (Hfree : own !! n = None)
        (Hzero : ∀ x, in_page n x → rd m x = 0).

Let m' := store64 m (pte_addr p i) (pte_of n PTE_V).
Let own' := <[n := TPt r (l - 1) (pre * 512 + i)]> own.

Lemma ext_ne q t : own !! q = Some t → q ≠ n.
Proof. intros Hq ->. congruence. Qed.

Lemma ext_load_same : load64 m' (pte_addr p i) = pte_of n PTE_V.
Proof.
  unfold m'. rewrite load_store64_same. apply u64_small.
  pose proof (page_ok_pos _ Hn). apply pte_of_bound; [lia|apply pte_v_bound].
Qed.

Lemma ext_load_other q j :
  q mod 4096 = 0 → 0 <= j < 512 → (p ≠ q ∨ i ≠ j) →
  load64 m' (pte_addr q j) = load64 m (pte_addr q j).
Proof.
  intros Hq Hj Hne. unfold m'. apply load_store64_disjoint.
  pose proof (pi_aligned _ _ _ _ _ Hi Hp).
  destruct (pte_addr_disjoint p q i j); try done; lia.
Qed.

Lemma ext_load_new j : 0 <= j < 512 → load64 m' (pte_addr n j) = 0.
Proof.
  intros Hj. rewrite ext_load_other; [|apply Hn|done|left; by eapply ext_ne].
  apply load64_zero. intros x Hx. apply Hzero. by eapply pte_addr_in_page.
Qed.

Lemma ext_div_mod : (pre * 512 + i) / 512 = pre ∧ (pre * 512 + i) mod 512 = i.
Proof. rewrite Z.add_comm, Z.div_add, Z.mod_add by lia. rewrite Z.div_small, Z.mod_small by lia. lia. Qed.

(** No page had the new owner before. *)
Lemma ext_tag_new q : own !! q ≠ Some (TPt r (l - 1) (pre * 512 + i)).
Proof.
  intros Hq. destruct (pi_lvl _ _ _ Hi _ _ _ _ Hp) as (Hlb & _).
  destruct (pi_back _ _ _ Hi _ _ _ _ Hq ltac:(lia)) as (q' & Hq' & Hv).
  destruct ext_div_mod as [H1 H2]. rewrite H1 in Hq'. rewrite H2 in Hv.
  replace (l - 1 + 1) with l in Hq' by lia.
  rewrite (pi_inj _ _ _ Hi _ _ _ _ _ Hq' Hp) in Hv. rewrite Hv in Hinv.
  rewrite has_pte_of_V in Hinv; [done|]. by eapply pi_ok.
Qed.

Lemma pt_inv_extend : pt_inv m' own' no_ex.
Proof.
  destruct (pi_lvl _ _ _ Hi _ _ _ _ Hp) as (Hlb & Hpre & _).
  unfold own'. split.
  - intros q t Hq. apply lookup_insert_Some in Hq as [[<- _]|[_ Hq]]; [done|by eapply pi_ok].
  - intros q r' l' pre' Hq. apply lookup_insert_Some in Hq as [[_ [= <- <- <-]]|[_ Hq]].
    + lia.
    + by eapply (pi_lvl _ _ _ Hi).
  - intros q1 q2 r' l' pre' H1 H2.
    apply lookup_insert_Some in H1 as [[<- E]|[Hne1 H1]];
      apply lookup_insert_Some in H2 as [[<- E2]|[Hne2 H2]].
    + done.
    + rewrite <- E in H2. by apply ext_tag_new in H2.
    + rewrite <- E2 in H1. by apply ext_tag_new in H1.
    + by eapply pi_inj.
  - intros q r' l' pre' j Hq Hl' Hj Hex Hv.
    apply lookup_insert_Some in Hq as [[<- _]|[Hne Hq]].
    { rewrite ext_load_new, has_0 in Hv by done. done. }
    destruct (decide (p = q ∧ i = j)) as [[<- <-]|Hpq].
    + rewrite ext_load_same. rewrite pte2pa_pte_of_V by done.
      rewrite lookup_insert_eq. rewrite Hp in Hq. injection Hq as <- <- <-.
      split; [done|]. pose proof (page_ok_pos _ Hn).
      apply pte_flags_pte_of; [lia|apply pte_v_bound].
    + pose proof (pi_aligned _ _ _ _ _ Hi Hq).
      assert (Hld := ext_load_other q j ltac:(done) Hj ltac:(lia)).
      rewrite Hld in Hv |- *.
      destruct (pi_fwd _ _ _ Hi q r' l' pre' j Hq Hl' Hj Hex Hv) as [Hc Hf].
      split; [|done]. rewrite lookup_insert_ne; [done|].
      intros E. rewrite <- E, Hfree in Hc. done.
  - intros q r' l' pre' Hq Hl'.
    apply lookup_insert_Some in Hq as [[<- [= <- <- <-]]|[Hne Hq]].
    + exists p. destruct ext_div_mod as [-> ->]. rewrite ext_load_same.
      rewrite lookup_insert_ne by (intros ->; congruence).
      by replace (l - 1 + 1) with l by lia.
    + destruct (pi_back _ _ _ Hi q r' l' pre' Hq Hl') as (q' & Hq' & Hv).
      exists q'. rewrite lookup_insert_ne by (intros ->; congruence).
      split; [done|]. rewrite ext_load_other; [done| | |].
      * by eapply pi_aligned.
      * by apply Z.mod_pos_bound.
      * destruct (decide (p = q' ∧ i = pre' mod 512)) as [[-> ->]|Hn']; [|lia].
        rewrite Hv, has_pte_of_V in Hinv; [done|]. by eapply pi_ok.
Qed.

Lemma leaf_from_new level va : leaf_from level m' n va = 0.
Proof.
  destruct level; simpl leaf_from.
  - apply ext_load_new, px_bound. lia.
  - rewrite ext_load_new by (apply px_bound; lia). done.
Qed.

Lemma leaf_from_extend level pt root va :
  0 <= va →
  own !! pt = Some (TPt root (Z.of_nat level) (prefix (Z.of_nat level) va)) →
  leaf_from level m' pt va = leaf_from level m pt va.
Proof.
  intros Hva. revert pt. induction level as [|level IH]; intros pt Hpt; simpl leaf_from.
  - apply ext_load_other; [by eapply pi_aligned|apply px_bound; lia|].
    left. intros ->. rewrite Hp in Hpt. injection Hpt. lia.
  - pose proof (px_bound (Z.of_nat (S level)) va ltac:(lia)) as Hb.
    destruct (decide (p = pt ∧ i = PX (Z.of_nat (S level)) va)) as [[<- Hpx]|Hne].
    + rewrite <- Hpx. rewrite ext_load_same, Hinv, has_pte_of_V by done.
      rewrite pte2pa_pte_of_V by done. apply leaf_from_new.
    + rewrite ext_load_other; [|by eapply pi_aligned|done|lia].
      destruct (has (load64 m (pte_addr pt _)) PTE_V) eqn:Hv; [|done].
      pose proof (child_owned _ _ _ _ _ _ Hi Hpt Hv). by apply IH.
Qed.
End extend.

(** ** Writing a level-0 entry *)

Section set_leaf.
Context (m : mem) (own : gmap Z tag) (q r va w : Z).
Context (Hi : pt_inv m own no_ex) (Hva : 0 <= va)
        (Hq : own !! q = Some (TPt r 0 (prefix 0 va))).

Let m' := store64 m (pte_addr q (PX 0 va)) w.

Lemma set_leaf_other p j :
  p mod 4096 = 0 → 0 <= j < 512 → (q ≠ p ∨ PX 0 va ≠ j) →
  load64 m' (pte_addr p j) = load64 m (pte_addr p j).
Proof.
  intros Hp Hj Hne. unfold m'. apply load_store64_disjoint.
  pose proof (pi_aligned _ _ _ _ _ Hi Hq). pose proof (px_bound 0 va ltac:(lia)).
  destruct (pte_addr_disjoint q p (PX 0 va) j); try done; lia.
Qed.

Lemma set_leaf_upper p r' l pre j :
  own !! p = Some (TPt r' l pre) → 0 < l → 0 <= j < 512 →
  load64 m' (pte_addr p j) = load64 m (pte_addr p j).
Proof.
  intros Hp Hl Hj. apply set_leaf_other; [by eapply pi_aligned|done|].
  left. intros ->. rewrite Hp in Hq. injection Hq. lia.
Qed.

Lemma pt_inv_set_leaf : pt_inv m' own no_ex.
Proof.
  split; [by apply Hi|by apply Hi|by apply Hi| |].
  - intros p r' l pre i Hp Hl Hib. rewrite (set_leaf_upper p r' l pre) by done. by apply Hi.
  - intros p r' l pre Hp Hl. destruct (pi_back _ _ _ Hi p r' l pre Hp Hl) as (p' & Hp' & Hv).
    exists p'. split; [done|].
    destruct (pi_lvl _ _ _ Hi _ _ _ _ Hp) as (Hlb & _).
    rewrite (set_leaf_upper p' r' (l + 1) (pre / 512)); [done|done|lia|].
    by apply Z.mod_pos_bound.
Qed.

Lemma leaf_from_set_leaf level pt r' va' :
  (level <= 2)%nat → 0 <= va' →
  own !! pt = Some (TPt r' (Z.of_nat level) (prefix (Z.of_nat level) va')) →
  leaf_from level m' pt va' =
    if decide (r' = r ∧ vpn va' = vpn va) then u64 w else leaf_from level m pt va'.
Proof.
  intros Hlv Hva'. revert pt. induction level as [|level IH]; intros pt Hpt; simpl leaf_from.
  - change (Z.of_nat 0) with 0 in Hpt. case_decide as Hd.
    + destruct Hd as [-> Hd]. rewrite (prefix_vpn 0 va' va) in Hpt by (done || lia).
      rewrite (pi_inj _ _ _ Hi _ _ _ _ _ Hpt Hq), (px_vpn 0 va' va) by (done || lia).
      apply load_store64_same.
    + apply set_leaf_other; [by eapply pi_aligned|apply px_bound; lia|].
      destruct (decide (q = pt)) as [->|]; [|by left].
      right. intros Hpx. apply Hd. rewrite Hq in Hpt. injection Hpt as -> Hpre.
      split; [done|]. by rewrite !vpn_prefix, Hpx, Hpre.
  - pose proof (px_bound (Z.of_nat (S level)) va' ltac:(lia)) as Hb.
    rewrite (set_leaf_upper pt r' (Z.of_nat (S level)) (prefix (Z.of_nat (S level)) va'))
      by (done || lia).
    destruct (has _ PTE_V) eqn:Hv.
    + pose proof (child_owned _ _ _ _ _ _ Hi Hpt Hv). apply IH; [lia|done].
    + rewrite decide_False; [done|]. intros [-> Hvpn].
      pose proof Hpt as Hpt2.
      rewrite (prefix_vpn _ va' va) in Hpt2 by (done || lia).
      pose proof (path_complete _ _ _ _ _ _ _ Hi Hlv Hq Hpt2) as Hw.
      rewrite <- (walk_addr_vpn _ _ _ _ _ Hvpn) in Hw. simpl in Hw. rewrite Hv in Hw.
      apply (pi_ok _ _ _ Hi), page_ok_pos in Hq.
      pose proof (px_bound 0 va ltac:(lia)). unfold pte_addr in Hw. lia.
Qed.
End set_leaf.
End pt.
