(* ===== verification/VmMap.v ===== *)
(** * [walk], [mappages] and [uvmunmap] implement a finite map

    Theorems on the code of Vm.v: [walk] with [alloc] extends the tree
    without changing what it maps, [mappages] inserts entries and [uvmunmap]
    removes them, for the table at hand and no other. *)

From S2P Require Import Prelude Memory Params State CString Sched Kalloc Vm PageTable.

Section vmmap.
Context `{KernelImage}.
Implicit Types (s : kst) (fl : list Z) (own : gmap Z tag).

(** The pages on the free list have no owner and the owned page-table pages
    form trees that serve addresses below MAXVA. *)
Definition low own : Prop :=
  ∀ p r l pre, own !! p = Some (TPt r l pre) → pre * 2 ^ (12 + 9 * (l + 1)) < MAXVA.

Record vm_ok s fl own : Prop := {
  vo_kmem : kmem_inv s fl;
  vo_lock : unlocked LKmem s;
  vo_pt : pt_inv (get_mem s) own no_ex;
  vo_free : ∀ p, p ∈ fl → own !! p = None;
  vo_low : low own;
}.

(** [s'] differs from [s] in memory and in the free list only. *)
Definition mem_only s s' : Prop :=
  ∃ ms, m_kpagetable ms = m_kpagetable (k_mem s) ∧ s' = set_mem ms s.

Lemma mem_only_refl s : mem_only s s.
Proof. exists (k_mem s). split; [done|]. by destruct s. Qed.

Lemma mem_only_trans s1 s2 s3 : mem_only s1 s2 → mem_only s2 s3 → mem_only s1 s3.
Proof. intros (m1 & H1 & ->) (m2 & H2 & ->). exists m2. simpl in H2. split; [congruence|done]. Qed.

Lemma mem_only_put_mem m s : mem_only s (put_mem m s).
Proof. exists (mk_mstate m (get_freelist s) (m_kpagetable (k_mem s))). done. Qed.

Lemma mem_only_put_both f m s : mem_only s (put_freelist f (put_mem m s)).
Proof. exists (mk_mstate m f (m_kpagetable (k_mem s))). done. Qed.

Lemma mem_only_held s s' : mem_only s s' → k_held s' = k_held s.
Proof. by intros (m & _ & ->). Qed.

(** A page that is neither free nor part of a page table. *)
Definition other own fl (p : Z) : Prop :=
  p mod 4096 = 0 ∧ (p ∉ fl) ∧ ¬ is_pt own p.

Lemma vm_ok_frame s s' fl own :
  vm_ok s fl own → mem_only s s' → get_freelist s' = get_freelist s →
  same_on (λ p, p ∈ fl ∨ is_pt own p) (get_mem s) (get_mem s') →
  vm_ok s' fl own.
Proof.
  intros [Hk Hl Hp Hf Hlo] Hm Hfl Hs. split; [| | |done|done].
  - eapply kmem_inv_frame; [exact Hfl| |exact Hk]. intros p x Hpx Hx. apply (Hs p); [by left|done].
  - by rewrite (mem_only_held _ _ Hm).
  - eapply pt_inv_frame; [|exact Hp]. intros p x Hpx Hx. apply (Hs p); [by right|done].
Qed.

(** ** [kalloc] and [kfree] next to page tables *)

Lemma kalloc_vm s fl own :
  vm_ok s fl own →
  (fl = [] ∧ kalloc s = Done 0 s) ∨
  ∃ n fl' s', fl = n :: fl' ∧ kalloc s = Done n s' ∧ page_ok n ∧ (n ∉ fl') ∧
    own !! n = None ∧ mem_only s s' ∧ vm_ok s' fl' own ∧
    (∀ x, ¬ in_page n x → rd (get_mem s') x = rd (get_mem s) x).
Proof.
  intros [Hk Hlk Hp Hf Hlo]. destruct fl as [|n fl].
  - left. split; [done|]. by apply kalloc_nil.
  - right. pose proof Hk as [_ Hn Hok]. apply NoDup_cons in Hn as [Hnf _].
    apply Forall_cons in Hok as [Hnok Hok].
    assert (Hno : own !! n = None) by (apply Hf; set_solver).
    eexists n, fl, _. split; [done|]. split; [by apply (kalloc_cons s n fl)|].
    split_and!; [done|done|done|apply mem_only_put_both| |].
    + split; [by apply kalloc_inv|done| | |done].
      * eapply pt_inv_frame; [|exact Hp]. autorewrite with kst.
        apply same_on_memset; [apply Hnok|].
        intros q (r & l & pre & Hq). split; [by eapply pi_aligned|]. intros ->. congruence.
      * intros q Hq. apply Hf. set_solver.
    + intros x Hx. autorewrite with kst. rewrite rd_memset by done. by rewrite decide_False.
Qed.

Lemma kfree_vm s fl own pa :
  vm_ok s fl own → page_ok pa → pa ∉ fl → own !! pa = None →
  ∃ s', kfree pa s = Done tt s' ∧ mem_only s s' ∧ vm_ok s' (pa :: fl) own ∧
    (∀ x, ¬ in_page pa x → rd (get_mem s') x = rd (get_mem s) x).
Proof.
  intros [Hk Hlk Hp Hf Hlo] Hok Hni Hno.
  eexists. split; [by apply kfree_run|].
  assert (Hout : ∀ x, ¬ in_page pa x →
    rd (kfree_mem (get_mem s) (get_freelist s) pa) x = rd (get_mem s) x).
  { intros x Hx. unfold kfree_mem, in_page in *.
    rewrite rd_store64_out by lia. rewrite rd_memset_out by (unfold PGSIZE; lia). done. }
  split_and!; [apply mem_only_put_both| |done].
  split; [by apply kfree_inv|done| | |done].
  - eapply pt_inv_frame; [|exact Hp]. autorewrite with kst.
    intros q x (r & l & pre & Hq) Hx. apply Hout. intros Hx'.
    eapply (page_disjoint pa q x x); [apply Hok|by eapply pi_aligned| |done|done|done].
    intros ->. congruence.
  - intros q [->|Hq]%elem_of_cons; [done|by apply Hf].
Qed.

(** ** Growing a tree

    Steps that take pages from the free list for the page tables of [r]:
    [used] is the part of the free list they took. *)

Record vstep (r : Z) s fl own s' fl' own' : Prop := {
  g_mem : mem_only s s';
  g_own : own ⊆ own';
  g_new : ∃ used, fl = used ++ fl' ∧ (∀ p, p ∈ used → is_Some (own' !! p)) ∧
    ∀ p t, own' !! p = Some t →
      own !! p = Some t ∨ (p ∈ used ∧ ∃ l pre, t = TPt r l pre ∧ l < 2);
  g_other : same_on (other own fl) (get_mem s) (get_mem s');
}.

Definition same_leaves own (m m' : mem) : Prop :=
  ∀ root va, is_root own root → 0 <= va < MAXVA → leaf m' root va = leaf m root va.

Definition grows r s fl own s' fl' own' : Prop :=
  vstep r s fl own s' fl' own' ∧ same_leaves own (get_mem s) (get_mem s').

Lemma vstep_refl r s fl own : vstep r s fl own s fl own.
Proof.
  split; [apply mem_only_refl|done| |done].
  exists []. split_and!; [done|set_solver|]. by left.
Qed.

Lemma vstep_other r s fl own s' fl' own' p :
  vstep r s fl own s' fl' own' → other own fl p → other own' fl' p.
Proof.
  intros [_ _ (used & -> & _ & Hnew) _] (H1 & H2 & H3). split_and!; [done|set_solver|].
  intros (r' & l & pre & Hp). destruct (Hnew _ _ Hp) as [Ho|[Hu _]].
  - apply H3. by do 3 eexists.
  - set_solver.
Qed.

Lemma vstep_root r s fl own s' fl' own' root :
  vstep r s fl own s' fl' own' → is_root own root → is_root own' root.
Proof. intros Hg Hr. eapply lookup_weaken; [exact Hr|apply Hg]. Qed.

Lemma vstep_root_inv r s fl own s' fl' own' root :
  vstep r s fl own s' fl' own' → is_root own' root → is_root own root.
Proof.
  intros [_ _ (used & -> & _ & Hnew) _] Hr. destruct (Hnew _ _ Hr) as [Ho|(_ & l & pre & Ht & Hl)]; [done|].
  injection Ht. lia.
Qed.

Lemma vstep_trans r s1 f1 o1 s2 f2 o2 s3 f3 o3 :
  vstep r s1 f1 o1 s2 f2 o2 → vstep r s2 f2 o2 s3 f3 o3 → vstep r s1 f1 o1 s3 f3 o3.
Proof.
  intros G1 G2. split.
  - eapply mem_only_trans; [apply G1|apply G2].
  - etrans; [apply G1|apply G2].
  - destruct (g_new _ _ _ _ _ _ _ G1) as (u1 & -> & U1 & N1).
    destruct (g_new _ _ _ _ _ _ _ G2) as (u2 & -> & U2 & N2).
    exists (u1 ++ u2). split; [by rewrite app_assoc|]. split.
    { intros p [Hp|Hp]%elem_of_app; [|by apply U2].
      destruct (U1 p Hp) as [t Ht]. exists t. eapply lookup_weaken; [exact Ht|apply G2]. }
    intros p t Hp. destruct (N2 _ _ Hp) as [H2|[Hu2 Ht]].
    + destruct (N1 _ _ H2) as [H1|[Hu1 Ht]]; [by left|].
      right. split; [set_solver|done].
    + right. split; [set_solver|done].
  - eapply same_on_trans; [apply G1|]. intros p x Hp Hx.
    apply (g_other _ _ _ _ _ _ _ G2 p); [by eapply vstep_other|done].
Qed.

(** No page is lost: what leaves the free list becomes owned. *)
Definition pages fl own : gset Z := list_to_set fl ∪ dom own.

Lemma vstep_pages r s fl own s' fl' own' :
  vstep r s fl own s' fl' own' → pages fl' own' = pages fl own.
Proof.
  intros [_ Ho (used & -> & Hu & Hnew) _]. unfold pages. apply set_eq. intros p.
  rewrite !elem_of_union, !elem_of_list_to_set, !elem_of_dom, elem_of_app.
  split.
  - intros [?|[t Ht]]; [by left; right|].
    destruct (Hnew _ _ Ht) as [?|[? _]]; [right; by exists t|by left; left].
  - intros [[?|?]|[t Ht]]; [right; by apply Hu|by left|].
    right. exists t. by eapply lookup_weaken.
Qed.

Lemma grows_refl r s fl own : grows r s fl own s fl own.
Proof. split; [apply vstep_refl|done]. Qed.

Lemma grows_trans r s1 f1 o1 s2 f2 o2 s3 f3 o3 :
  grows r s1 f1 o1 s2 f2 o2 → grows r s2 f2 o2 s3 f3 o3 → grows r s1 f1 o1 s3 f3 o3.
Proof.
  intros [G1 L1] [G2 L2]. split; [by eapply vstep_trans|].
  intros root va Hr Hva. rewrite (L2 root va) by (done || by eapply vstep_root). by apply L1.
Qed.

(** Linking a fresh zeroed page into an unused entry. *)
Lemma grow_step s fl n own p r l pre i :
  vm_ok s fl own → own !! p = Some (TPt r l pre) → 0 < l → 0 <= i < 512 →
  has (load64 (get_mem s) (pte_addr p i)) PTE_V = false →
  page_ok n → n ∉ fl → own !! n = None → (pre * 512 + i) * 2 ^ (12 + 9 * l) < MAXVA →
  let s' := put_mem (store64 (memset (get_mem s) n 0 PGSIZE) (pte_addr p i)
                      (Z.lor (PA2PTE n) PTE_V)) s in
  let own' := <[n := TPt r (l - 1) (pre * 512 + i)]> own in
  vm_ok s' fl own' ∧ grows r s (n :: fl) own s' fl own'.
Proof.
  intros [Hk Hlk Hp Hf Hlo] Ho Hl Hi Hinv Hn Hnf Hno Hlow.
  change (Z.lor (PA2PTE n) PTE_V) with (pte_of n PTE_V).
  assert (Hs1 : same_on (λ q, q mod 4096 = 0 ∧ q ≠ n) (get_mem s) (memset (get_mem s) n 0 PGSIZE)).
  { apply same_on_memset; [apply Hn|auto]. }
  assert (Hz : ∀ x, in_page n x → rd (memset (get_mem s) n 0 PGSIZE) x = 0).
  { intros x Hx. rewrite rd_memset by (unfold PGSIZE; lia). rewrite decide_True by assumption. reflexivity. }
  revert Hs1 Hz. generalize (memset (get_mem s) n 0 PGSIZE) as m1. intros m1 Hs1 Hz.
  set (s' := put_mem _ s). set (own' := <[n := _]> own).
  assert (Hpt1 : same_on (is_pt own) (get_mem s) m1).
  { intros q x (r' & l' & pre' & Hq) Hx. apply (Hs1 q); [|done].
    split; [exact (pi_aligned _ _ _ _ _ Hp Hq)|]. intros ->. congruence. }
  assert (Hp1 : pt_inv m1 own no_ex) by (by eapply pt_inv_frame).
  assert (Hload : load64 m1 (pte_addr p i) = load64 (get_mem s) (pte_addr p i)).
  { eapply load_pte_same_on; [exact Hpt1|by do 3 eexists|done]. }
  rewrite <- Hload in Hinv.
  assert (Hal : p mod 4096 = 0) by exact (pi_aligned _ _ _ _ _ Hp Ho).
  assert (Hs2 : same_on (λ q, q mod 4096 = 0 ∧ q ≠ n ∧ q ≠ p) (get_mem s) (get_mem s')).
  { eapply (same_on_trans _ _ m1); [intros q x (? & ? & _) ?; apply (Hs1 q); [split|]; assumption|].
    unfold s'. autorewrite with kst.
    apply (same_on_store64 _ _ p); [done|unfold pte_addr; lia|unfold pte_addr; lia|].
    intros q (? & ? & ?). split; assumption. }
  assert (Hpf : p ∉ fl) by (intros Hpf; rewrite (Hf _ Hpf) in Ho; done).
  split.
  - split; [|assumption|by apply pt_inv_extend| |].
    + apply (kmem_inv_frame s s' fl); [reflexivity| |exact Hk].
      intros q x Hq Hx. apply (Hs2 q); [|done]. split_and!; [|set_solver|set_solver].
      pose proof (Forall_elem _ _ _ (ki_ok _ _ Hk) Hq) as [? _]. done.
    + intros q Hq. unfold own'. rewrite lookup_insert_ne; [by apply Hf|set_solver].
    + intros q r' l' pre' Hq. apply lookup_insert_Some in Hq as [[_ [= <- <- <-]]|[_ Hq]]; [|exact (Hlo _ _ _ _ Hq)].
      by replace (l - 1 + 1) with l by lia.
  - split; [split|].
    + apply mem_only_put_mem.
    + by apply insert_subseteq.
    + exists [n]. split_and!; [done| |].
      { intros q ->%list_elem_of_singleton. unfold own'. by rewrite lookup_insert_eq. }
      intros q t Hq. unfold own' in Hq.
      apply lookup_insert_Some in Hq as [[<- <-]|[_ Hq]]; [|by left].
      right. split; [set_solver|]. do 2 eexists. split; [done|].
      destruct (pi_lvl _ _ _ Hp _ _ _ _ Ho). lia.
    + intros q x (Hq1 & Hq2 & Hq3) Hx. apply (Hs2 q); [|done]. split_and!; [done|set_solver|].
      intros ->. apply Hq3. by do 3 eexists.
    + intros root va Hr Hva. unfold s'. autorewrite with kst. unfold leaf.
      etrans; [by eapply (leaf_from_extend m1 own p r l pre i n); [..|lia|apply root_start]|].
      eapply leaf_frame; [exact Hp|done|done|done].
Qed.

(** ** [walk] *)

Lemma walk_loop_noalloc level s pt va :
  walk_loop level pt va false s = Done (walk_addr level (get_mem s) pt va) s.
Proof.
  revert pt. induction level as [|level IH]; intros pt; [done|].
  cbn [walk_loop walk_addr]. run_by (unfold ld, gets; reflexivity).
  destruct (has _ PTE_V); [apply IH|done].
Qed.

Lemma walk_noalloc s pt va :
  va < MAXVA → walk pt va false s = Done (walk_addr 2 (get_mem s) pt va) s.
Proof.
  intros Hva. unfold walk. rewrite Z.geb_leb, (proj2 (Z.leb_gt _ _)) by done.
  apply walk_loop_noalloc.
Qed.

Lemma prefix_low l va : 0 <= l → 0 <= va < MAXVA → prefix l va * 2 ^ (12 + 9 * (l + 1)) < MAXVA.
Proof.
  intros Hl Hva. unfold prefix. pose proof (Z.mul_div_le va (2 ^ (12 + 9 * (l + 1))) ltac:(apply Z.pow_pos_nonneg; lia)).
  lia.
Qed.

Lemma walk_loop_alloc level s fl own pt r va :
  vm_ok s fl own → 0 <= va < MAXVA → (level <= 2)%nat →
  own !! pt = Some (TPt r (Z.of_nat level) (prefix (Z.of_nat level) va)) →
  ∃ res s' fl' own', walk_loop level pt va true s = Done res s' ∧
    vm_ok s' fl' own' ∧ grows r s fl own s' fl' own' ∧
    ((res = 0 ∧ fl' = []) ∨
     ∃ q, own' !! q = Some (TPt r 0 (prefix 0 va)) ∧ res = pte_addr q (PX 0 va)).
Proof.
  intros Hok Hva. revert s fl own pt Hok.
  induction level as [|level IH]; intros s fl own pt Hok Hlv Hpt; cbn [walk_loop].
  - eexists _, s, fl, own. split; [reflexivity|]. split; [done|].
    split; [apply grows_refl|]. right. by exists pt.
  - run_by (unfold ld, gets; reflexivity).
    pose proof (px_bound (Z.of_nat (S level)) va ltac:(lia)) as Hb.
    destruct (has _ PTE_V) eqn:Hv.
    { pose proof (child_owned _ _ _ _ _ _ (vo_pt _ _ _ Hok) Hpt Hv).
      apply IH; [done|lia|done]. }
    cbn [negb].
    destruct (kalloc_vm _ _ _ Hok) as [[-> Hka]|
      (n & fl' & s1 & -> & Hka & Hn & Hnf & Hno & Hm1 & Hok1 & Hrd)].
    { run_by (exact Hka). eexists 0, s, [], own. split; [reflexivity|].
      split; [done|]. split; [apply grows_refl|]. by left. }
    run_by (exact Hka). pose proof (page_ok_pos _ Hn) as Hpos.
    rewrite (proj2 (Z.eqb_neq n 0)) by lia.
    run_by (unfold fill, modify; reflexivity). run_by (unfold st, modify; reflexivity).
    autorewrite with kst.
    assert (Hs1 : same_on (is_pt own) (get_mem s) (get_mem s1)).
    { intros q x (r' & l' & pre' & Hq) Hx. apply Hrd. intros Hx'.
      eapply (page_disjoint n q x x); [apply Hn|eapply pi_aligned; [apply Hok|done]| |done|done|done].
      intros ->. congruence. }
    assert (Hv1 : has (load64 (get_mem s1) (pte_addr pt (PX (Z.of_nat (S level)) va))) PTE_V = false).
    { by rewrite (load_pte_same_on _ _ _ _ _ Hs1) by (done || by do 3 eexists). }
    destruct (grow_step s1 fl' n own pt r _ _ _ Hok1 Hpt ltac:(lia) Hb Hv1 Hn Hnf Hno)
      as [Hok2 Hg2].
    { rewrite <- prefix_step by lia. replace (Z.of_nat (S level) - 1) with (Z.of_nat level) by lia.
      replace (12 + 9 * Z.of_nat (S level)) with (12 + 9 * (Z.of_nat level + 1)) by lia.
      apply prefix_low; lia. }
    match type of Hok2 with vm_ok ?x _ _ => set (s2 := x) in * end.
    set (own2 := <[n := _]> own) in *.
    assert (Hn2 : own2 !! n = Some (TPt r (Z.of_nat level) (prefix (Z.of_nat level) va))).
    { unfold own2. rewrite lookup_insert_eq, <- prefix_step by lia.
      by replace (Z.of_nat (S level) - 1) with (Z.of_nat level) by lia. }
    destruct (IH s2 fl' own2 n Hok2 ltac:(lia) Hn2) as (res & s3 & fl3 & own3 & Hr & Hok3 & Hg3 & Hres).
    exists res, s3, fl3, own3. split; [exact Hr|]. split; [done|]. split; [|done].
    eapply grows_trans; [|exact Hg3].
    assert (G0 : grows r s (n :: fl') own s1 (n :: fl') own).
    { split; [split|].
      - done.
      - done.
      - exists []. split_and!; [done|set_solver|by left].
      - intros q x (Hq1 & Hq2 & _) Hx. apply Hrd. intros Hx'.
        eapply (page_disjoint n q x x); [apply Hn|done|set_solver|done|done|done].
      - intros root va' Hr' Hva'. eapply leaf_frame; [apply Hok|done|done|done]. }
    by eapply grows_trans.
Qed.

(** [e] is the address of the level-0 entry for [va] in the table [root]. *)
Definition entry own (root va e : Z) : Prop :=
  ∃ q, own !! q = Some (TPt root 0 (prefix 0 va)) ∧ e = pte_addr q (PX 0 va).

Lemma entry_nonzero s fl own root va e : vm_ok s fl own → entry own root va e → e ≠ 0.
Proof.
  intros Hok (q & Hq & ->). apply (pi_ok _ _ _ (vo_pt _ _ _ Hok)), page_ok_pos in Hq.
  pose proof (px_bound 0 va ltac:(lia)). unfold pte_addr. lia.
Qed.

Lemma entry_leaf s fl own root va e :
  vm_ok s fl own → is_root own root → 0 <= va < MAXVA → entry own root va e →
  load64 (get_mem s) e = leaf (get_mem s) root va.
Proof.
  intros Hok Hr Hva He. pose proof (entry_nonzero _ _ _ _ _ _ Hok He) as Hne.
  destruct He as (q & Hq & ->). unfold leaf.
  pose proof (path_complete 2 _ _ _ _ _ _ (vo_pt _ _ _ Hok) ltac:(lia) Hq
    (root_start _ _ _ Hr Hva)) as Hw.
  rewrite leaf_walk_addr by (rewrite Hw; exact Hne). by rewrite Hw.
Qed.

Lemma walk_lookup s fl own root va :
  vm_ok s fl own → is_root own root → 0 <= va < MAXVA →
  ∃ e, walk root va false s = Done e s ∧
    ((e = 0 ∧ leaf (get_mem s) root va = 0) ∨ entry own root va e).
Proof.
  intros Hok Hr Hva. eexists. split; [apply walk_noalloc; lia|].
  destruct (walk_addr_owned 2 _ _ _ _ _ (vo_pt _ _ _ Hok) (proj1 Hva) (root_start _ _ _ Hr Hva))
    as [H0|He]; [left|by right].
  split; [exact H0|]. eapply leaf_walk_addr_0; [apply Hok|lia|by apply root_start|exact H0].
Qed.

Lemma walk_alloc s fl own root va :
  vm_ok s fl own → is_root own root → 0 <= va < MAXVA →
  ∃ e s' fl' own', walk root va true s = Done e s' ∧
    vm_ok s' fl' own' ∧ grows root s fl own s' fl' own' ∧
    ((e = 0 ∧ fl' = []) ∨ entry own' root va e).
Proof.
  intros Hok Hr Hva. unfold walk. rewrite Z.geb_leb, (proj2 (Z.leb_gt _ _)) by lia.
  apply (walk_loop_alloc 2); [done|done|lia|by apply root_start].
Qed.

(** Storing [w] to an entry changes one mapping of one table. *)
Lemma set_entry s fl own root va e w :
  vm_ok s fl own → 0 <= va < MAXVA → entry own root va e → 0 <= w < 2 ^ 64 →
  let s' := put_mem (store64 (get_mem s) e w) s in
  vm_ok s' fl own ∧ vstep root s fl own s' fl own ∧
  ∀ root' va', is_root own root' → 0 <= va' < MAXVA →
    leaf (get_mem s') root' va' =
      if decide (root' = root ∧ vpn va' = vpn va) then w else leaf (get_mem s) root' va'.
Proof.
  intros Hok Hva (q & Hq & ->) Hw s'. pose proof Hok as [Hk Hlk Hp Hf Hlo].
  pose proof (px_bound 0 va ltac:(lia)) as Hb.
  assert (Hal : q mod 4096 = 0) by exact (pi_aligned _ _ _ _ _ Hp Hq).
  assert (Hs : same_on (λ p, p mod 4096 = 0 ∧ p ≠ q) (get_mem s) (get_mem s')).
  { unfold s'. autorewrite with kst.
    apply (same_on_store64 _ _ q); [done|unfold pte_addr; lia|unfold pte_addr; lia|auto]. }
  split_and!.
  - split; [|done|exact (pt_inv_set_leaf _ _ q root va w Hp Hq)|done|done].
    apply (kmem_inv_frame s s' fl); [reflexivity| |exact Hk].
    intros p x Hpx Hx. apply (Hs p); [|done]. split.
    + by apply (Forall_elem _ _ _ (ki_ok _ _ Hk)) in Hpx as [? _].
    + intros ->. rewrite (Hf _ Hpx) in Hq. discriminate Hq.
  - split; [apply mem_only_put_mem|done| |].
    + exists []. split_and!; [done|set_solver|by left].
    + intros p x (H1 & _ & H3) Hx. apply (Hs p); [|done]. split; [done|].
      intros ->. apply H3. by do 3 eexists.
  - intros root' va' Hr' Hva'. unfold s', leaf. autorewrite with kst.
    rewrite (leaf_from_set_leaf (get_mem s) own q root va w Hp Hq 2 root' root' va' ltac:(lia) (proj1 Hva'))
      by (by apply root_start).
    by rewrite u64_small.
Qed.

(** ** [mappages] *)

(** The view of memory [m'] is that of [m] with [k] pages from [a] on mapped
    to the pages from [pa] on in the table [root]. *)
Definition maps_range own (root a k pa flags : Z) (m m' : mem) : Prop :=
  ∀ root' va, is_root own root' → 0 <= va < MAXVA →
    leaf m' root' va =
      if decide (root' = root ∧ vpn a <= vpn va < vpn a + k)
      then pte_of (pa + 4096 * (vpn va - vpn a)) flags
      else leaf m root' va.

Lemma vpn_add a i : vpn (a + 4096 * i) = vpn a + i.
Proof. unfold vpn. rewrite Z.mul_comm, Z.div_add; lia. Qed.

Lemma vpn_range a va k :
  a mod 4096 = 0 → (a <= va < a + 4096 * k ↔ vpn a <= vpn va < vpn a + k).
Proof.
  unfold vpn. intros Ha. pose proof (Z.div_mod a 4096). pose proof (Z.div_mod va 4096).
  pose proof (Z.mod_pos_bound va 4096). lia.
Qed.

Lemma perm_V_bound perm : 0 <= perm < 1024 → 0 <= Z.lor perm PTE_V < 1024.
Proof.
  intros Hp. change 1024 with (2 ^ 10).
  assert (0 <= Z.lor perm PTE_V) by (apply Z.lor_nonneg; split; [lia|by vm_compute]).
  destruct (decide (Z.lor perm PTE_V = 0)) as [->|Hne]; [lia|]. split; [lia|].
  apply Z.log2_lt_pow2; [lia|]. rewrite Z.log2_lor by (lia || by vm_compute).
  apply Z.max_lub_lt; [|by vm_compute].
  destruct (decide (perm = 0)) as [->|]; [by vm_compute|]. apply Z.log2_lt_pow2; lia.
Qed.

Lemma mappages_entry pa perm :
  Z.lor (Z.lor (PA2PTE pa) perm) PTE_V = pte_of pa (Z.lor perm PTE_V).
Proof. unfold pte_of. by rewrite Z.lor_assoc. Qed.

(** One iteration of the loop of [mappages]. *)
Lemma map_one s fl own root a pa perm :
  vm_ok s fl own → is_root own root → 0 <= a < MAXVA →
  0 <= pa < 2 ^ 56 → 0 <= perm < 1024 →
  ∃ e s1 fl1 own1, walk root a true s = Done e s1 ∧
    ((e = 0 ∧ fl1 = [] ∧ vm_ok s1 fl1 own1 ∧ grows root s fl own s1 fl1 own1) ∨
     (e ≠ 0 ∧ load64 (get_mem s1) e = leaf (get_mem s) root a ∧
      let s2 := put_mem (store64 (get_mem s1) e (pte_of pa (Z.lor perm PTE_V))) s1 in
      vm_ok s2 fl1 own1 ∧ vstep root s fl own s2 fl1 own1 ∧
      maps_range own root a 1 pa (Z.lor perm PTE_V) (get_mem s) (get_mem s2))).
Proof.
  intros Hok Hr Hva Hpa Hperm.
  destruct (walk_alloc s fl own root a Hok Hr Hva)
    as (e & s1 & fl1 & own1 & Hw & Hok1 & Hg1 & He);
    exists e, s1, fl1, own1; (split; [exact Hw|]).
  destruct He as [[-> ->]|He]; [by left|].
  right. split; [exact (entry_nonzero _ _ _ _ _ _ Hok1 He)|]. destruct Hg1 as [Hg1 Hl1].
  assert (Hr1 : is_root own1 root) by (by eapply vstep_root).
  split; [by rewrite (entry_leaf _ _ _ _ _ _ Hok1 Hr1 Hva He), (Hl1 root a Hr Hva)|].
  destruct (set_entry s1 fl1 own1 root a e (pte_of pa (Z.lor perm PTE_V)) Hok1 Hva He)
    as (Hok2 & Hg2 & Hl2); [apply pte_of_bound; [lia|by apply perm_V_bound]|].
  split_and!; [exact Hok2|by eapply vstep_trans|].
  intros root' va' Hr' Hva'. rewrite (Hl2 root' va' (vstep_root _ _ _ _ _ _ _ _ Hg1 Hr') Hva').
  rewrite (Hl1 root' va' Hr' Hva').
  destruct (decide (root' = root ∧ vpn va' = vpn a)) as [[-> Hv]|Hne].
  - rewrite decide_True by lia. f_equal. lia.
  - rewrite decide_False; [done|]. intros [-> Hv]. apply Hne. split; [done|lia].
Qed.

Lemma maps_range_trans own own1 root a pa k flags m1 m2 m3 :
  (∀ r, is_root own r → is_root own1 r) → 0 <= k →
  maps_range own root a 1 pa flags m1 m2 →
  maps_range own1 root (a + 4096) k (pa + 4096) flags m2 m3 →
  maps_range own root a (k + 1) pa flags m1 m3.
Proof.
  intros Ho Hk H1 H2 root' va Hr' Hva. rewrite (H2 root' va), (H1 root' va) by auto.
  pose proof (vpn_add a 1) as Hv. replace (a + 4096 * 1) with (a + 4096) in Hv by lia. rewrite Hv.
  destruct (decide (root' = root)) as [->|Hne]; [|by rewrite !decide_False by tauto].
  destruct (decide (vpn va = vpn a)) as [->|].
  - rewrite decide_False by lia. by rewrite !decide_True by lia.
  - destruct (decide (vpn a <= vpn va < vpn a + (k + 1))).
    + rewrite !decide_True by lia. f_equal. lia.
    + by rewrite !decide_False by lia.
Qed.

Lemma mappages_loop_spec n s fl own root a pa perm :
  vm_ok s fl own → is_root own root →
  a mod 4096 = 0 → 0 <= a → a + 4096 * Z.of_nat n < MAXVA →
  0 <= pa → pa + 4096 * Z.of_nat n < 2 ^ 56 → 0 <= perm < 1024 →
  (∀ va, a <= va < a + 4096 * (Z.of_nat n + 1) → has (leaf (get_mem s) root va) PTE_V = false) →
  ∃ r s' fl' own' k,
    mappages_loop n root a (a + 4096 * Z.of_nat n) pa perm s = Done r s' ∧
    vm_ok s' fl' own' ∧ vstep root s fl own s' fl' own' ∧
    maps_range own root a k pa (Z.lor perm PTE_V) (get_mem s) (get_mem s') ∧
    ((r = 0 ∧ k = Z.of_nat n + 1) ∨ (r = -1 ∧ 0 <= k <= Z.of_nat n ∧ fl' = [])).
Proof.
  revert s fl own a pa. induction n as [|n IH];
    intros s fl own a pa Hok Hr Ha Ha0 Hlast Hpa0 Hpal Hperm Hinv;
    cbn [mappages_loop]; assert (Hva : 0 <= a < MAXVA) by lia;
    (destruct (map_one s fl own root a pa perm Hok Hr Hva ltac:(lia) Hperm)
      as (e & s1 & fl1 & own1 & Hw & [(-> & -> & Hok1 & Hg1 & Hl1)|(He & Hv & Hok2 & Hg2 & Hm2)]));
    run_by (exact Hw).
  1,3: exists (-1), s1, [], own1, 0; split_and!; [done|done|done| |right; split_and!; (done || lia)];
    intros root' va Hr' Hva'; rewrite decide_False by lia; by apply Hl1.
  all: rewrite (proj2 (Z.eqb_neq e 0)) by exact He; run_by (unfold ld, gets; reflexivity);
    rewrite Hv, Hinv by lia; rewrite mappages_entry; run_by (unfold st, modify; reflexivity).
  - rewrite (proj2 (Z.eqb_eq _ _)) by lia.
    eexists 0, _, fl1, own1, 1. split_and!; [reflexivity|done|done|done|left; lia].
  - rewrite (proj2 (Z.eqb_neq _ _)) by lia. unfold PGSIZE.
    rewrite !u64_small by vlia.
    replace (a + 4096 * Z.of_nat (S n)) with (a + 4096 + 4096 * Z.of_nat n) by lia.
    match goal with |- context [mappages_loop _ _ _ _ _ _ ?x] => set (s2 := x) in * end.
    destruct (IH s2 fl1 own1 (a + 4096) (pa + 4096)) as (r & s3 & fl3 & own3 & k & Hr3 & Hok3 & Hg3 & Hm3 & Hk);
      [exact Hok2|by eapply vstep_root|..|].
    + pose proof (Z.mod_add a 1 4096 ltac:(lia)) as Hmod. rewrite Z.mul_1_l in Hmod. lia.
    + lia.
    + lia.
    + lia.
    + lia.
    + done.
    + intros va Hva2. pose proof (Z.div_mod a 4096 ltac:(lia)). rewrite Hm2 by (done || vlia).
      rewrite decide_False; [apply Hinv; lia|]. rewrite <- vpn_range by done. lia.
    + exists r, s3, fl3, own3, (k + 1). split_and!; [done|done|by eapply vstep_trans| |].
      * eapply maps_range_trans; [|lia|exact Hm2|exact Hm3]. intros. by eapply vstep_root.
      * destruct Hk as [[-> ->]|(-> & Hk & ->)]; [left|right]; split_and!; (done || lia).
Qed.

Lemma vpn_pgrounddown va : 0 <= va < 2 ^ 64 → vpn (PGROUNDDOWN va) = vpn va.
Proof. intros Hva. rewrite pgrounddown_eq by done. unfold vpn. by rewrite Z.mul_comm, Z.div_mul. Qed.

(** The loop runs over the pages from that of [va] to that of
    [va + size - 1]. *)
Lemma mappages_unfold root va size pa perm :
  0 <= va → 0 < size → va + size <= MAXVA →
  let n := vpn (va + size - 1) - vpn va in
  mappages root va size pa perm =
    mappages_loop (Z.to_nat n) root (PGROUNDDOWN va) (PGROUNDDOWN va + 4096 * n) pa perm ∧
  0 <= n ∧ PGROUNDDOWN va mod 4096 = 0 ∧ va - 4095 <= PGROUNDDOWN va <= va ∧ 0 <= PGROUNDDOWN va ∧
  PGROUNDDOWN va + 4096 * n <= va + size - 1.
Proof.
  intros Hva Hsz Htop n. unfold mappages.
  rewrite (proj2 (Z.eqb_neq size 0)) by lia. rewrite (u64_small (va + size - 1)) by vlia.
  pose proof (pgrounddown_eq va ltac:(vlia)) as Ea.
  pose proof (pgrounddown_eq (va + size - 1) ltac:(vlia)) as El.
  assert (Hn : 0 <= n) by (apply Z.le_0_sub, Z.div_le_mono; lia).
  assert (El' : PGROUNDDOWN (va + size - 1) = PGROUNDDOWN va + 4096 * n) by (unfold n, vpn; lia).
  assert (Hfuel : mappages_fuel (PGROUNDDOWN va) (PGROUNDDOWN (va + size - 1)) = Z.to_nat n).
  { unfold mappages_fuel. rewrite El', (proj2 (Z.leb_le _ _)) by lia. unfold PGSIZE. f_equal.
    replace (PGROUNDDOWN va + 4096 * n - PGROUNDDOWN va) with (n * 4096) by lia.
    by apply Z.div_mul. }
  pose proof (Z.div_mod va 4096 ltac:(lia)). pose proof (Z.mod_pos_bound va 4096 ltac:(lia)).
  pose proof (Z.mul_div_le (va + size - 1) 4096 ltac:(lia)).
  pose proof (Z.div_pos va 4096 ltac:(lia) ltac:(lia)).
  rewrite Hfuel, El'. split; [done|]. rewrite <- El', El, Ea. split_and!; try lia.
  rewrite Z.mul_comm. by apply Z.mod_mul.
Qed.

Lemma mappages_run s fl own root va size pa perm :
  vm_ok s fl own → is_root own root →
  0 <= va → 0 < size → va + size <= MAXVA →
  0 <= pa → pa + size + 4096 <= 2 ^ 56 → 0 <= perm < 1024 →
  let npages := vpn (va + size - 1) - vpn va + 1 in
  (∀ x, 0 <= x < MAXVA → vpn va <= vpn x < vpn va + npages →
        has (leaf (get_mem s) root x) PTE_V = false) →
  ∃ r s' fl' own' k,
    mappages root va size pa perm s = Done r s' ∧
    vm_ok s' fl' own' ∧ vstep root s fl own s' fl' own' ∧
    maps_range own root va k pa (Z.lor perm PTE_V) (get_mem s) (get_mem s') ∧
    ((r = 0 ∧ k = npages) ∨ (r = -1 ∧ 0 <= k < npages ∧ fl' = [])).
Proof.
  intros Hok Hr Hva Hsz Htop Hpa Hpal Hperm np Hinv.
  destruct (mappages_unfold root va size pa perm Hva Hsz Htop) as (-> & Hn & Hal & Hd & Hd0 & Hlast).
  pose proof (vpn_pgrounddown va ltac:(vlia)) as Hvpn.
  set (n := vpn (va + size - 1) - vpn va) in *.
  replace (4096 * n) with (4096 * Z.of_nat (Z.to_nat n)) by lia.
  destruct (mappages_loop_spec (Z.to_nat n) s fl own root (PGROUNDDOWN va) pa perm)
    as (r & s' & fl' & own' & k & Hrun & Hok' & Hg & Hm & Hk); try done; try vlia.
  - intros x Hx. pose proof (Z.div_mod (PGROUNDDOWN va) 4096 ltac:(lia)).
    apply Hinv; [vlia|]. rewrite vpn_range, Hvpn in Hx by done. unfold np. lia.
  - exists r, s', fl', own', k. rewrite Z2Nat.id in Hk by done. unfold np.
    split_and!; [done|done|done| |].
    + intros root' x Hr' Hx. by rewrite (Hm root' x Hr' Hx), Hvpn.
    + destruct Hk as [?|(? & ? & ?)]; [by left|right; split_and!; (done || lia)].
Qed.

(** C36: [mappages] on a range of unmapped pages below MAXVA returns 0 with
    every page that contains a byte of [va..va+size-1] mapped, in order, to the
    pages from [pa] on with the requested permissions, or returns -1 because
    no page is left for the page tables, with the first [k] pages mapped.
    In both cases all other mappings of this and of every other page table
    are as before, memory outside the page tables and the free pages is not
    touched, and the pages taken from the free list are pages of this
    table. *)
Theorem mappages_spec s fl own root va size pa perm :
  vm_ok s fl own → is_root own root →
  0 <= va → 0 < size → va + size <= MAXVA →
  0 <= pa → pa + size + 4096 <= 2 ^ 56 → 0 <= perm < 1024 →
  let npages := vpn (va + size - 1) - vpn va + 1 in
  (∀ x, 0 <= x < MAXVA → vpn va <= vpn x < vpn va + npages →
        has (leaf (get_mem s) root x) PTE_V = false) →
  ∃ r s' fl' own' k,
    mappages root va size pa perm s = Done r s' ∧
    vm_ok s' fl' own' ∧ vstep root s fl own s' fl' own' ∧
    maps_range own root va k pa (Z.lor perm PTE_V) (get_mem s) (get_mem s') ∧
    ((r = 0 ∧ k = npages) ∨ (r = -1 ∧ 0 <= k < npages ∧ fl' = [])).
Proof. apply mappages_run. Qed.

(** A path that is complete is followed without allocation. *)
Lemma walk_loop_path level s pt va alloc :
  walk_addr level (get_mem s) pt va ≠ 0 →
  walk_loop level pt va alloc s = Done (walk_addr level (get_mem s) pt va) s.
Proof.
  revert pt. induction level as [|level IH]; intros pt; [done|].
  cbn [walk_loop walk_addr]. run_by (unfold ld, gets; reflexivity).
  destruct (has _ PTE_V); [apply IH|done].
Qed.

(** [mappages] never replaces a mapping: if the first page of the range is
    already mapped it panics and changes nothing. *)
Theorem mappages_remap s fl own root va size pa perm :
  vm_ok s fl own → is_root own root → 0 <= va → 0 < size → va + size <= MAXVA →
  has (leaf (get_mem s) root va) PTE_V = true →
  mappages root va size pa perm s = Panic "mappages: remap" s.
Proof.
  intros Hok Hr Hva Hsz Htop Hv. assert (Hb : 0 <= va < MAXVA) by vlia.
  destruct (mappages_unfold root va size pa perm Hva Hsz Htop) as (-> & Hn & Hal & Hd & Hd0 & _).
  pose proof (vpn_pgrounddown va ltac:(vlia)) as Hvpn.
  assert (Hb' : 0 <= PGROUNDDOWN va < MAXVA) by lia.
  unfold leaf in Hv. rewrite <- (leaf_from_vpn _ _ _ _ _ Hvpn) in Hv.
  destruct (walk_addr_owned 2 _ _ _ _ _ (vo_pt _ _ _ Hok) Hd0 (root_start _ _ _ Hr Hb')) as [H0|He].
  { rewrite (leaf_walk_addr_0 2 _ _ _ _ _ (vo_pt _ _ _ Hok) Hd0 (root_start _ _ _ Hr Hb') H0), has_0 in Hv.
    discriminate Hv. }
  pose proof (entry_nonzero _ _ _ _ _ _ Hok He) as Hne.
  rewrite leaf_walk_addr in Hv by exact Hne.
  assert (Hw : walk root (PGROUNDDOWN va) true s = Done (walk_addr 2 (get_mem s) root (PGROUNDDOWN va)) s).
  { unfold walk. rewrite Z.geb_leb, (proj2 (Z.leb_gt _ _)) by lia. by apply walk_loop_path. }
  destruct (Z.to_nat _); cbn [mappages_loop]; run_by (exact Hw);
    rewrite (proj2 (Z.eqb_neq _ _)) by exact Hne; run_by (unfold ld, gets; reflexivity);
    by rewrite Hv.
Qed.
End vmmap.
