(* ===== verification/Uvm.v ===== *)
(** * User address spaces

    The abstract state of a process's memory is a partial map from virtual
    addresses to flags and bytes ([uview]).  The invariant [uvm_ok] says that
    every mapped user page has exactly one owner, so that the address spaces
    of different processes are disjoint; the theorems give the effect of
    [uvmunmap], [uvmalloc], [uvmdealloc], [uvmcopy], [copyout], [copyin] and
    [copyinstr] on these maps. *)

From S2P Require Import Prelude Memory Params State CString Sched Kalloc Vm PageTable VmMap.

(** Below [TRAPFRAME] a table holds user pages only. *)
Definition uview (m : mem) (root va : Z) : option (Z * Z) :=
  let e := leaf m root va in
  if has e PTE_V then Some (PTE_FLAGS e, rd m (PTE2PA e + va mod 4096)) else None.

Section uvm.
Context `{KernelImage}.
Implicit Types (s : kst) (fl : list Z) (own : gmap Z tag).

(** [root] is the root of a table that is not the kernel's. *)
Definition uroot s own (root : Z) : Prop :=
  is_root own root ∧ root ≠ m_kpagetable (k_mem s).

Record uvm_ok s fl own : Prop := {
  uv_vm : vm_ok s fl own;
  uv_fwd : ∀ root va, uroot s own root → 0 <= va < TRAPFRAME →
    has (leaf (get_mem s) root va) PTE_V = true →
    own !! PTE2PA (leaf (get_mem s) root va) = Some (TUser root (vpn va)) ∧
    PTE_FLAGS (leaf (get_mem s) root va) ≠ PTE_V;
  uv_back : ∀ p root n, own !! p = Some (TUser root n) →
    uroot s own root ∧ 0 <= n ∧ 4096 * n < TRAPFRAME ∧
    has (leaf (get_mem s) root (4096 * n)) PTE_V = true ∧
    PTE2PA (leaf (get_mem s) root (4096 * n)) = p;
  uv_high : ∀ root va, uroot s own root → TRAPFRAME <= va < MAXVA →
    has (leaf (get_mem s) root va) PTE_V = true → has (leaf (get_mem s) root va) PTE_U = false;
}.

Lemma leaf_vpn m root va va' : vpn va = vpn va' → leaf m root va = leaf m root va'.
Proof. apply leaf_from_vpn. Qed.

Lemma vpn_mul n : vpn (4096 * n) = n.
Proof. unfold vpn. rewrite Z.mul_comm. by apply Z.div_mul. Qed.

Lemma vpn_trapframe a va : a < TRAPFRAME → TRAPFRAME <= va → vpn va ≠ vpn a.
Proof.
  intros Ha Hva. assert (vpn TRAPFRAME <= vpn va) by (apply Z.div_le_mono; lia).
  assert (vpn a < vpn TRAPFRAME); [|lia]. apply Z.div_lt_upper_bound; [lia|].
  change (4096 * vpn TRAPFRAME) with TRAPFRAME. done.
Qed.

Lemma mul_vpn a : a mod 4096 = 0 → 4096 * vpn a = a.
Proof. unfold vpn. intros Ha. pose proof (Z.div_mod a 4096). lia. Qed.

Lemma in_page_off p va : in_page p (p + va mod 4096).
Proof. unfold in_page. pose proof (Z.mod_pos_bound va 4096). lia. Qed.

Lemma uroot_mem_only s s' own root : mem_only s s' → uroot s' own root ↔ uroot s own root.
Proof. intros (ms & Hk & ->). unfold uroot. simpl. by rewrite Hk. Qed.

(** ** Framing a view *)

Lemma uview_leaf m m' root va :
  leaf m' root va = leaf m root va →
  (has (leaf m root va) PTE_V = true →
   ∀ x, in_page (PTE2PA (leaf m root va)) x → rd m' x = rd m x) →
  uview m' root va = uview m root va.
Proof.
  intros Hl Hp. unfold uview. rewrite Hl. destruct (has _ PTE_V) eqn:Hv; [|done].
  by rewrite Hp by (done || apply in_page_off).
Qed.

(** The invariant depends on the page tables through [leaf] only. *)
Lemma uvm_ok_grows s fl own s' fl' own' r :
  uvm_ok s fl own → vm_ok s' fl' own' → grows r s fl own s' fl' own' → uvm_ok s' fl' own'.
Proof.
  intros Hok Hok' [Hg Hl]. pose proof (g_mem _ _ _ _ _ _ _ Hg) as Hm. split; [done| | |].
  - intros root va Hr Hva. apply (uroot_mem_only _ _ _ _ Hm) in Hr.
    destruct Hr as [Hr Hk]. apply (vstep_root_inv _ _ _ _ _ _ _ _ Hg) in Hr.
    rewrite (Hl root va Hr ltac:(vlia)). intros Hv.
    destruct (uv_fwd _ _ _ Hok root va (conj Hr Hk) Hva Hv) as [Ho Hf]. split; [|done].
    eapply lookup_weaken; [exact Ho|apply Hg].
  - intros p root n Hp. destruct (g_new _ _ _ _ _ _ _ Hg) as (u & _ & _ & Hnew).
    destruct (Hnew _ _ Hp) as [Hp'|(_ & l & pre & Ht & _)]; [|discriminate Ht].
    destruct (uv_back _ _ _ Hok _ _ _ Hp') as ([Hr Hk] & Hn & Hn' & Hv & Ha).
    rewrite (Hl root (4096 * n) Hr ltac:(vlia)). split_and!; try done.
    apply (uroot_mem_only _ _ _ _ Hm). split; [|done]. by eapply vstep_root.
  - intros root va Hr Hva. apply (uroot_mem_only _ _ _ _ Hm) in Hr.
    destruct Hr as [Hr Hk]. apply (vstep_root_inv _ _ _ _ _ _ _ _ Hg) in Hr.
    rewrite (Hl root va Hr ltac:(vlia)). by apply (uv_high _ _ _ Hok).
Qed.

(** ** Changing the owner of a page that is not part of a page table *)

Definition not_pt (t : tag) : Prop := ∀ r l pre, t ≠ TPt r l pre.

Lemma vm_ok_retag s fl own own' :
  vm_ok s fl own → (∀ p t, own' !! p = Some t → page_ok p) →
  (∀ p r l pre, own' !! p = Some (TPt r l pre) ↔ own !! p = Some (TPt r l pre)) →
  (∀ p, p ∈ fl → own' !! p = None) → vm_ok s fl own'.
Proof.
  intros [Hk Hlk [Hpok Hlvl Hinj Hfwd Hback] Hf Hlo] Hok' Hiff Hf'. split; [done|done| |done|].
  2: { intros p r l pre Hp. apply Hiff in Hp. exact (Hlo _ _ _ _ Hp). }
  split.
  - done.
  - intros p r l pre Hp. apply Hiff in Hp. eauto.
  - intros p q r l pre Hp Hq. apply Hiff in Hp, Hq. eauto.
  - intros p r l pre i Hp. apply Hiff in Hp. intros. rewrite Hiff. eauto.
  - intros p r l pre Hp Hl. apply Hiff in Hp. destruct (Hback _ _ _ _ Hp Hl) as (q & Hq & Hv).
    exists q. by rewrite Hiff.
Qed.

Lemma vm_ok_own s fl own n t :
  vm_ok s fl own → page_ok n → n ∉ fl → ¬ is_pt own n → not_pt t → vm_ok s fl (<[n := t]> own).
Proof.
  intros Hok Hn Hnf Hno Ht. eapply vm_ok_retag; [exact Hok|..].
  - intros p t' Hp. apply lookup_insert_Some in Hp as [[<- _]|[_ Hp]]; [done|].
    by eapply (pi_ok _ _ _ (vo_pt _ _ _ Hok)).
  - intros p r l pre. destruct (decide (p = n)) as [->|Hne].
    + rewrite lookup_insert_eq. split; [|intros Hp; exfalso; apply Hno; by do 3 eexists].
      intros [= ->]. by destruct (Ht r l pre).
    + by rewrite lookup_insert_ne.
  - intros p Hp. rewrite lookup_insert_ne by set_solver. by apply (vo_free _ _ _ Hok).
Qed.

Lemma vm_ok_disown s fl own n t :
  vm_ok s fl own → own !! n = Some t → not_pt t →
  vm_ok s fl (delete n own) ∧ page_ok n ∧ (n ∉ fl) ∧ delete n own !! n = None.
Proof.
  intros Hok Hn Ht. split.
  - eapply vm_ok_retag; [exact Hok|..].
    + intros p t' Hp. apply lookup_delete_Some in Hp as [_ Hp].
      by eapply (pi_ok _ _ _ (vo_pt _ _ _ Hok)).
    + intros p r l pre. rewrite lookup_delete_Some. split; [by intros [_ ?]|].
      intros Hp. split; [|done]. intros ->. rewrite Hn in Hp. injection Hp as ->.
      by destruct (Ht r l pre).
    + intros p Hp. apply lookup_delete_None. right. by apply (vo_free _ _ _ Hok).
  - split_and!; [by eapply (pi_ok _ _ _ (vo_pt _ _ _ Hok))| |apply lookup_delete_eq].
    intros Hf. rewrite (vo_free _ _ _ Hok _ Hf) in Hn. discriminate Hn.
Qed.

Lemma is_root_insert own n t root :
  ¬ is_pt own n → not_pt t → is_root (<[n := t]> own) root ↔ is_root own root.
Proof.
  intros Hn Ht. unfold is_root. destruct (decide (root = n)) as [->|Hne].
  - rewrite lookup_insert_eq. split; [|intros Hp; exfalso; apply Hn; by do 3 eexists].
    intros [= ->]. by destruct (Ht n 2 0).
  - by rewrite lookup_insert_ne.
Qed.

Lemma is_root_delete own n t root :
  own !! n = Some t → not_pt t → is_root (delete n own) root ↔ is_root own root.
Proof.
  intros Hn Ht. unfold is_root. rewrite lookup_delete_Some. split; [by intros [_ ?]|].
  intros Hr. split; [|done]. intros ->. rewrite Hn in Hr. injection Hr as ->. by destruct (Ht root 2 0).
Qed.

Lemma TUser_not_pt root n : not_pt (TUser root n).
Proof. intros r l pre. discriminate. Qed.
Lemma TKernel_not_pt : not_pt TKernel.
Proof. intros r l pre. discriminate. Qed.
Lemma THand_not_pt : not_pt THand.
Proof. intros r l pre. discriminate. Qed.
Lemma not_is_pt own n t : own !! n = Some t → not_pt t → ¬ is_pt own n.
Proof. intros Hn Ht (r & l & pre & Hp). rewrite Hn in Hp. injection Hp as ->. by destruct (Ht r l pre). Qed.
#[local] Hint Resolve TUser_not_pt TKernel_not_pt THand_not_pt : xv6.

(** An owned page that is not part of a page table is not free either. *)
Lemma owned_other s fl own p t :
  vm_ok s fl own → own !! p = Some t → not_pt t → other own fl p.
Proof.
  intros Hok Hp Ht. split_and!; [|intros Hf|by eapply not_is_pt].
  - exact (pi_aligned _ _ _ _ _ (vo_pt _ _ _ Hok) Hp).
  - rewrite (vo_free _ _ _ Hok _ Hf) in Hp. discriminate Hp.
Qed.

Lemma uview_vstep s fl own s' fl' own' r root va :
  uvm_ok s fl own → vstep r s fl own s' fl' own' →
  uroot s own root → 0 <= va < TRAPFRAME →
  leaf (get_mem s') root va = leaf (get_mem s) root va →
  uview (get_mem s') root va = uview (get_mem s) root va.
Proof.
  intros Hok Hg Hr Hva Hl. apply uview_leaf; [done|]. intros Hv x Hx.
  destruct (uv_fwd _ _ _ Hok root va Hr Hva Hv) as [Ho _].
  exact (g_other _ _ _ _ _ _ _ Hg _ x (owned_other _ _ _ _ _ (uv_vm _ _ _ Hok) Ho (TUser_not_pt _ _)) Hx).
Qed.

(** ** Mapping a page in hand *)

Section map.
Context s fl own s' fl' own' (root a n flags : Z).
Context (Hok : uvm_ok s fl own) (Hroot : uroot s own root) (Ha : 0 <= a < TRAPFRAME)
        (Hal : a mod 4096 = 0) (Hn : own !! n = Some THand)
        (Hflags : 0 <= flags < 1024) (HV : has flags PTE_V = true) (Hnv : flags ≠ PTE_V)
        (Hfree : has (leaf (get_mem s) root a) PTE_V = false)
        (Hok' : vm_ok s' fl' own') (Hg : vstep root s fl own s' fl' own')
        (Hm : maps_range own root a 1 n flags (get_mem s) (get_mem s')).

Lemma map_leaf_new va : 0 <= va < MAXVA → vpn va = vpn a → leaf (get_mem s') root va = pte_of n flags.
Proof.
  intros Hva Hv. rewrite (Hm root va (proj1 Hroot) Hva), decide_True by (split; [done|lia]).
  f_equal. lia.
Qed.

Lemma map_leaf_old r va :
  is_root own r → 0 <= va < MAXVA → ¬ (r = root ∧ vpn va = vpn a) →
  leaf (get_mem s') r va = leaf (get_mem s) r va.
Proof.
  intros Hr Hva Hne. rewrite (Hm r va Hr Hva), decide_False; [done|].
  intros [-> Hv]. apply Hne. split; [done|lia].
Qed.

Lemma map_page_ok : page_ok n.
Proof. by eapply (pi_ok _ _ _ (vo_pt _ _ _ (uv_vm _ _ _ Hok))). Qed.

Lemma map_pte : PTE2PA (pte_of n flags) = n ∧ PTE_FLAGS (pte_of n flags) = flags ∧
  has (pte_of n flags) PTE_V = true.
Proof.
  pose proof map_page_ok as Hnok. pose proof (page_ok_pos _ Hnok).
  split_and!; [apply pte2pa_pte_of; [lia|apply Hnok|done]|apply pte_flags_pte_of; (done || lia)|].
  rewrite has_pte_of; [done|lia|done|]. by vm_compute.
Qed.

Lemma map_hand : own' !! n = Some THand.
Proof. eapply lookup_weaken; [exact Hn|apply Hg]. Qed.

Lemma map_root r : is_root (<[n := TUser root (vpn a)]> own') r ↔ is_root own r.
Proof.
  rewrite is_root_insert; [|exact (not_is_pt _ _ _ map_hand THand_not_pt)|auto with xv6].
  split; [by apply (vstep_root_inv _ _ _ _ _ _ _ _ Hg)|by apply (vstep_root _ _ _ _ _ _ _ _ Hg)].
Qed.

Lemma uvm_ok_map : uvm_ok s' fl' (<[n := TUser root (vpn a)]> own').
Proof.
  pose proof (g_mem _ _ _ _ _ _ _ Hg) as Hmo.
  destruct map_pte as (Hp1 & Hp2 & Hp3). split.
  - destruct (owned_other _ _ _ _ _ Hok' map_hand THand_not_pt) as (_ & Hnf & Hpt).
    apply vm_ok_own; auto using map_page_ok with xv6.
  - intros r va [Hr Hk]. rewrite map_root in Hr. intros Hva.
    destruct (decide (r = root ∧ vpn va = vpn a)) as [[-> Hv]|Hne].
    + rewrite map_leaf_new by (done || vlia). intros _. by rewrite Hp1, Hp2, lookup_insert_eq, Hv.
    + rewrite map_leaf_old by (done || vlia). intros Hv.
      destruct Hmo as (ms & Hms & Es). rewrite Es in Hk. simpl in Hk. rewrite Hms in Hk.
      destruct (uv_fwd _ _ _ Hok r va (conj Hr Hk) Hva Hv) as [Ho Hf]. split; [|done].
      rewrite lookup_insert_ne; [eapply lookup_weaken; [exact Ho|apply Hg]|].
      intros E. rewrite <- E in Ho. congruence.
  - intros p r k Hp. unfold uroot. rewrite map_root.
    apply lookup_insert_Some in Hp as [[<- [= <- <-]]|[Hne Hp]].
    + rewrite mul_vpn by done. rewrite map_leaf_new by (done || vlia).
      apply (uroot_mem_only _ _ _ _ Hmo) in Hroot as Hu.
      split_and!; try done; [apply Hroot|apply Hu|apply Z.div_pos; lia|lia].
    + destruct (g_new _ _ _ _ _ _ _ Hg) as (u & _ & _ & Hnew).
      destruct (Hnew _ _ Hp) as [Hp'|(_ & l & pre & Ht & _)]; [|discriminate Ht].
      destruct (uv_back _ _ _ Hok _ _ _ Hp') as (Hu & Hk & Hk' & Hv & Hpa).
      apply (uroot_mem_only _ _ _ _ Hmo) in Hu as Hu'.
      rewrite map_leaf_old; [|apply Hu|vlia|].
      * split_and!; try done; [apply Hu|apply Hu'].
      * intros [-> E]. rewrite vpn_mul in E.
        rewrite (leaf_vpn _ _ _ a) in Hv by (by rewrite vpn_mul). congruence.
  - intros r va Hr Hva. apply (uroot_mem_only _ _ _ _ Hmo) in Hr. destruct Hr as [Hr Hk].
    rewrite map_root in Hr. rewrite map_leaf_old; [by apply (uv_high _ _ _ Hok)|done|vlia|].
    intros [-> E]. by eapply vpn_trapframe; [apply Ha|apply Hva|].
Qed.

Lemma uview_map r va :
  uroot s own r → 0 <= va < TRAPFRAME →
  uview (get_mem s') r va =
    if decide (r = root ∧ vpn va = vpn a)
    then Some (flags, rd (get_mem s) (n + va mod 4096)) else uview (get_mem s) r va.
Proof.
  intros Hr Hva. case_decide as Hd.
  - destruct Hd as [-> Hv]. unfold uview. rewrite map_leaf_new by (done || vlia).
    destruct map_pte as (-> & -> & ->).
    rewrite (g_other _ _ _ _ _ _ _ Hg n); [done|by eapply owned_other; [apply Hok| |auto with xv6]|apply in_page_off].
  - eapply uview_vstep; [done|exact Hg|done|done|]. apply map_leaf_old; [apply Hr|vlia|done].
Qed.
End map.

(** ** Steps on user address spaces

    A step whose effect on the address spaces is that [F r va] is the new
    view of [va] in the table [r].  No page is lost, no table appears or goes
    away, and the pages the step does not know about keep their contents. *)
Record ustep s fl own s' fl' own' (F : Z → Z → option (Z * Z)) : Prop := {
  us_ok : uvm_ok s' fl' own';
  us_mem : mem_only s s';
  us_pages : pages fl' own' = pages fl own;
  us_roots : ∀ r, is_root own' r ↔ is_root own r;
  us_kern : ∀ p, own !! p = Some TKernel → own' !! p = Some TKernel;
  us_frame : ∀ p x, p mod 4096 = 0 → (p ∉ pages fl own) ∨ own !! p = Some TKernel →
    in_page p x → rd (get_mem s') x = rd (get_mem s) x;
  us_leaf : ∀ r va, is_root own r → 0 <= va < MAXVA →
    r = m_kpagetable (k_mem s) ∨ TRAPFRAME <= va →
    leaf (get_mem s') r va = leaf (get_mem s) r va;
  us_view : ∀ r va, uroot s own r → 0 <= va < TRAPFRAME → uview (get_mem s') r va = F r va;
}.

Lemma frame_other s fl own p :
  vm_ok s fl own → p mod 4096 = 0 → (p ∉ pages fl own) ∨ own !! p = Some TKernel → other own fl p.
Proof.
  intros Hok Hp [Hd|Hd].
  - unfold pages in Hd. rewrite elem_of_union, elem_of_list_to_set, elem_of_dom in Hd.
    split_and!; [done|tauto|]. intros (r & l & pre & Hq). apply Hd. right. by eexists.
  - by eapply owned_other; [exact Hok|exact Hd|auto with xv6].
Qed.

Lemma ustep_refl s fl own : uvm_ok s fl own → ustep s fl own s fl own (uview (get_mem s)).
Proof. intros Hok. split; try done. apply mem_only_refl. Qed.

Lemma ustep_uroot s fl own s' fl' own' F r :
  ustep s fl own s' fl' own' F → uroot s' own' r ↔ uroot s own r.
Proof.
  intros Hs. rewrite (uroot_mem_only _ _ _ _ (us_mem _ _ _ _ _ _ _ Hs)). unfold uroot.
  by rewrite (us_roots _ _ _ _ _ _ _ Hs).
Qed.

Lemma ustep_trans s1 f1 o1 s2 f2 o2 s3 f3 o3 F G :
  ustep s1 f1 o1 s2 f2 o2 F → ustep s2 f2 o2 s3 f3 o3 G → ustep s1 f1 o1 s3 f3 o3 G.
Proof.
  intros H1 H2. split.
  - apply H2.
  - eapply mem_only_trans; [apply H1|apply H2].
  - etrans; [apply H2|apply H1].
  - intros r. rewrite (us_roots _ _ _ _ _ _ _ H2). apply H1.
  - intros p Hp. by apply H2, H1.
  - intros p x Hp Hd Hx. rewrite (us_frame _ _ _ _ _ _ _ H2 p); [by apply (us_frame _ _ _ _ _ _ _ H1 p)|done| |done].
    rewrite (us_pages _ _ _ _ _ _ _ H1). destruct Hd as [?|Hd]; [by left|right]. by apply H1.
  - intros r va Hr Hva Hd. rewrite (us_leaf _ _ _ _ _ _ _ H2); [by apply H1|by apply H1|done|].
    destruct (us_mem _ _ _ _ _ _ _ H1) as (ms & Hk & ->). simpl. by rewrite Hk.
  - intros r va Hr Hva. apply H2; [|done]. by rewrite (ustep_uroot _ _ _ _ _ _ _ _ H1).
Qed.

Lemma ustep_view s fl own s' fl' own' F G :
  ustep s fl own s' fl' own' F →
  (∀ r va, uroot s own r → 0 <= va < TRAPFRAME → F r va = G r va) →
  ustep s fl own s' fl' own' G.
Proof.
  intros [] HFG. split; try done. intros r va Hr Hva. rewrite <- HFG by done. auto.
Qed.

(** The view with the pages [lo..hi-1] of [root] replaced by [v]. *)
Definition upd_view (F : Z → Z → option (Z * Z)) (root lo hi : Z) (v : Z → option (Z * Z)) :
    Z → Z → option (Z * Z) :=
  λ r va, if decide (r = root ∧ lo <= vpn va < hi) then v va else F r va.

Lemma upd_view_empty F root lo v r va : upd_view F root lo lo v r va = F r va.
Proof. unfold upd_view. rewrite decide_False by lia. done. Qed.

Lemma upd_view_join F root lo mid hi v r va :
  lo <= mid <= hi →
  upd_view (upd_view F root lo mid v) root mid hi v r va = upd_view F root lo hi v r va.
Proof.
  intros Hm. unfold upd_view. destruct (decide (r = root)) as [->|]; [|by rewrite !decide_False by tauto].
  repeat case_decide; (done || lia).
Qed.

(** ** Unmapping a page and freeing it *)

Lemma same_pt_kfree own pa (m m' : mem) :
  page_ok pa → (∀ p, is_pt own p → p mod 4096 = 0 ∧ p ≠ pa) →
  (∀ x, ¬ in_page pa x → rd m' x = rd m x) → same_on (is_pt own) m m'.
Proof.
  intros Hpa Hne Hrd p x Hp Hx. destruct (Hne p Hp) as [Hal Hd].
  apply Hrd. intros Hx'. eapply (page_disjoint pa p x x); [apply Hpa|done|done|done|done|done].
Qed.

Lemma entry_retag own own' root va e :
  (∀ p r l pre, own !! p = Some (TPt r l pre) → own' !! p = Some (TPt r l pre)) →
  entry own root va e → entry own' root va e.
Proof. intros Ho (q & Hq & ->). exists q. auto. Qed.

Lemma delete_keeps_pt own pa t :
  own !! pa = Some t → not_pt t →
  ∀ p r l pre, own !! p = Some (TPt r l pre) → delete pa own !! p = Some (TPt r l pre).
Proof.
  intros Hpa Ht p r l pre Hp. apply lookup_delete_Some. split; [|done].
  intros ->. rewrite Hpa in Hp. injection Hp as ->. by destruct (Ht r l pre).
Qed.

Section unmap.
Context s fl own (root a : Z).
Context (Hok : uvm_ok s fl own) (Hroot : uroot s own root) (Ha : 0 <= a < TRAPFRAME)
        (Hal : a mod 4096 = 0) (Hv : has (leaf (get_mem s) root a) PTE_V = true).

Let pa := PTE2PA (leaf (get_mem s) root a).
Let own' := delete pa own.

Lemma unmap_owner : own !! pa = Some (TUser root (vpn a)).
Proof. by destruct (uv_fwd _ _ _ Hok root a Hroot Ha Hv). Qed.

(** What [kfree(pa); *pte = 0] does, [s1] being the state after [kfree]. *)
Context (s1 : kst) (e : Z) (Hmo1 : mem_only s s1) (Hok1 : vm_ok s1 (pa :: fl) own')
        (Hrd : ∀ x, ¬ in_page pa x → rd (get_mem s1) x = rd (get_mem s) x)
        (He : entry own' root a e).
Let s2 := put_mem (store64 (get_mem s1) e 0) s1.

Lemma unmap_pa_ok : page_ok pa.
Proof. by eapply (pi_ok _ _ _ (vo_pt _ _ _ (uv_vm _ _ _ Hok))), unmap_owner. Qed.

Lemma unmap_root r : is_root own' r ↔ is_root own r.
Proof. eapply is_root_delete; [apply unmap_owner|auto with xv6]. Qed.

Lemma unmap_leaf r va :
  is_root own r → 0 <= va < MAXVA →
  leaf (get_mem s2) r va =
    if decide (r = root ∧ vpn va = vpn a) then 0 else leaf (get_mem s) r va.
Proof.
  intros Hr Hva.
  destruct (set_entry s1 (pa :: fl) own' root a e 0 Hok1 ltac:(vlia) He ltac:(lia)) as (_ & _ & Hl).
  unfold s2. rewrite Hl by (done || by apply unmap_root). case_decide; [done|].
  eapply leaf_frame; [apply Hok|done|done|].
  eapply same_pt_kfree; [apply unmap_pa_ok| |exact Hrd].
  intros p (r' & l & pre & Hp). split; [exact (pi_aligned _ _ _ _ _ (vo_pt _ _ _ (uv_vm _ _ _ Hok)) Hp)|].
  intros ->. rewrite unmap_owner in Hp. discriminate Hp.
Qed.

Lemma unmap_vm_ok : vm_ok s2 (pa :: fl) own' ∧ mem_only s s2.
Proof.
  destruct (set_entry s1 (pa :: fl) own' root a e 0 Hok1 ltac:(vlia) He ltac:(lia)) as (H2 & Hg & _).
  split; [exact H2|]. eapply mem_only_trans; [exact Hmo1|apply Hg].
Qed.

(** Pages other than [pa] that are not part of a table keep their contents. *)
Lemma unmap_frame p x :
  other own fl p → p ≠ pa → in_page p x → rd (get_mem s2) x = rd (get_mem s) x.
Proof.
  intros (Hp1 & Hp2 & Hp3) Hne Hx.
  destruct (set_entry s1 (pa :: fl) own' root a e 0 Hok1 ltac:(vlia) He ltac:(lia)) as (_ & Hg & _).
  unfold s2. rewrite (g_other _ _ _ _ _ _ _ Hg p); [| |done].
  - apply Hrd. intros Hx'.
    eapply (page_disjoint pa p x x); [apply unmap_pa_ok|done|congruence|done|done|done].
  - split_and!; [done|set_solver|]. intros (r & l & pre & Hp). apply Hp3.
    apply lookup_delete_Some in Hp as [_ Hp]. by do 3 eexists.
Qed.

Lemma unmap_uvm_ok : uvm_ok s2 (pa :: fl) own'.
Proof.
  destruct unmap_vm_ok as [H2 Hmo]. split; [done| | |].
  - intros r va Hr. apply (uroot_mem_only _ _ _ _ Hmo) in Hr. destruct Hr as [Hr Hk].
    rewrite unmap_root in Hr. intros Hva. rewrite unmap_leaf by (done || vlia).
    case_decide as Hd; [by rewrite has_0|]. intros Hv'.
    destruct (uv_fwd _ _ _ Hok r va (conj Hr Hk) Hva Hv') as [Ho Hf]. split; [|done].
    apply lookup_delete_Some. split; [|done]. intros E. rewrite <- E, unmap_owner in Ho.
    injection Ho as -> Ho. apply Hd. done.
  - intros p r k Hp. apply lookup_delete_Some in Hp as [Hne Hp].
    destruct (uv_back _ _ _ Hok _ _ _ Hp) as ([Hr Hk] & Hk0 & Hk1 & Hv' & Hpa).
    rewrite unmap_leaf by (done || vlia). rewrite decide_False.
    + split_and!; try done. apply (uroot_mem_only _ _ _ _ Hmo). split; [by apply unmap_root|done].
    + intros [-> E]. apply Hne. unfold pa. rewrite vpn_mul in E. rewrite E, mul_vpn in Hpa by done. done.
  - intros r va Hr Hva. apply (uroot_mem_only _ _ _ _ Hmo) in Hr. destruct Hr as [Hr Hk].
    rewrite unmap_root in Hr. rewrite unmap_leaf by (done || vlia).
    case_decide; [by rewrite has_0|]. by apply (uv_high _ _ _ Hok).
Qed.

Lemma unmap_ustep :
  ustep s fl own s2 (pa :: fl) own'
    (upd_view (uview (get_mem s)) root (vpn a) (vpn a + 1) (λ _, None)).
Proof.
  destruct unmap_vm_ok as [H2 Hmo]. pose proof unmap_owner as Hpa. split.
  - apply unmap_uvm_ok.
  - exact Hmo.
  - unfold pages, own'. rewrite dom_delete_L. apply set_eq. intros p.
    rewrite !elem_of_union, !elem_of_list_to_set, elem_of_cons, elem_of_difference, elem_of_singleton.
    destruct (decide (p = pa)) as [->|]; [|tauto].
    split; [|by left; left]. intros _. right. apply elem_of_dom. by eexists.
  - apply unmap_root.
  - intros p Hp. apply lookup_delete_Some. split; [|done]. intros ->. congruence.
  - intros p x Hp Hd Hx. apply (unmap_frame p); [| |done].
    + by eapply frame_other; [apply Hok|..].
    + intros ->. destruct Hd as [Hd|Hd]; [|congruence]. apply Hd. unfold pages.
      apply elem_of_union_r, elem_of_dom. by eexists.
  - intros r va Hr Hva Hd. rewrite unmap_leaf by done. rewrite decide_False; [done|].
    intros [-> E]. destruct Hd as [->|Hd]; [by apply Hroot|].
    by eapply vpn_trapframe; [apply Ha|apply Hd|].
  - intros r va Hr Hva. unfold upd_view. destruct (decide (r = root ∧ vpn va = vpn a)) as [[-> E]|Hne].
    + rewrite decide_True by (split; [done|lia]). unfold uview.
      rewrite unmap_leaf by (apply Hroot || vlia). by rewrite decide_True, has_0.
    + rewrite decide_False by (intros [-> ?]; apply Hne; split; [done|lia]).
      apply uview_leaf; [rewrite unmap_leaf by (apply Hr || vlia); by rewrite decide_False|].
      intros Hv' x Hx. destruct (uv_fwd _ _ _ Hok r va Hr Hva Hv') as [Ho _].
      apply (unmap_frame _ x) in Hx; [done|exact (owned_other _ _ _ _ _ (uv_vm _ _ _ Hok) Ho (TUser_not_pt _ _))|].
      intros E. rewrite E, unmap_owner in Ho. injection Ho as -> Ho. apply Hne. done.
Qed.
End unmap.

(** The pages [lo..hi-1] of [root] are mapped. *)
Definition mapped (m : mem) (root lo hi : Z) : Prop :=
  ∀ va, 0 <= va < TRAPFRAME → lo <= vpn va < hi → is_Some (uview m root va).

Definition unmapped (m : mem) (root lo hi : Z) : Prop :=
  ∀ va, 0 <= va < TRAPFRAME → lo <= vpn va < hi → uview m root va = None.

Lemma uview_Some m root va : is_Some (uview m root va) ↔ has (leaf m root va) PTE_V = true.
Proof. unfold uview. destruct (has _ PTE_V); split; intros; (done || by destruct H0). Qed.

Lemma uview_None m root va : uview m root va = None ↔ has (leaf m root va) PTE_V = false.
Proof. unfold uview. by destruct (has _ PTE_V). Qed.

Lemma aligned_next a : a mod 4096 = 0 → (a + 4096) mod 4096 = 0.
Proof. intros Ha. pose proof (Z.mod_add a 1 4096 ltac:(lia)). rewrite Z.mul_1_l in *. lia. Qed.

Lemma vpn_next a : vpn (a + 4096) = vpn a + 1.
Proof. exact (vpn_add a 1). Qed.

Lemma uvmunmap_loop_spec n s fl own root a :
  uvm_ok s fl own → uroot s own root → a mod 4096 = 0 → 0 <= a →
  a + 4096 * Z.of_nat n <= TRAPFRAME →
  mapped (get_mem s) root (vpn a) (vpn a + Z.of_nat n) →
  ∃ s' fl' own',
    uvmunmap_loop n root a (a + 4096 * Z.of_nat n) true s = Done tt s' ∧
    ustep s fl own s' fl' own'
      (upd_view (uview (get_mem s)) root (vpn a) (vpn a + Z.of_nat n) (λ _, None)).
Proof.
  revert s fl own a. induction n as [|n IH]; intros s fl own a Hok Hr Hal Ha Htop Hmap;
    cbn [uvmunmap_loop].
  { rewrite (proj2 (Z.ltb_ge _ _)) by lia. exists s, fl, own. split; [done|].
    eapply ustep_view; [by apply ustep_refl|]. intros. by rewrite Z.add_0_r, upd_view_empty. }
  rewrite (proj2 (Z.ltb_lt _ _)) by lia. cbn [negb].
  assert (Hb : 0 <= a < TRAPFRAME) by lia.
  assert (Hv : has (leaf (get_mem s) root a) PTE_V = true) by (apply uview_Some, Hmap; lia).
  pose proof (unmap_owner s fl own root a Hok Hr Hb Hv) as Hpa.
  set (pa := PTE2PA (leaf (get_mem s) root a)) in *.
  destruct (walk_lookup s fl own root a (uv_vm _ _ _ Hok) (proj1 Hr) ltac:(vlia)) as (e & Hw & He).
  destruct He as [[_ H0]|He]; [rewrite H0, has_0 in Hv; discriminate Hv|].
  run_by (exact Hw).
  rewrite (proj2 (Z.eqb_neq e 0)) by exact (entry_nonzero _ _ _ _ _ _ (uv_vm _ _ _ Hok) He).
  run_by (unfold ld, gets; reflexivity).
  rewrite (entry_leaf s fl own root a e (uv_vm _ _ _ Hok) (proj1 Hr) ltac:(vlia) He), Hv. cbn [negb].
  rewrite (proj2 (Z.eqb_neq _ _)) by (by apply (uv_fwd _ _ _ Hok root a Hr Hb Hv)).
  destruct (vm_ok_disown s fl own pa _ (uv_vm _ _ _ Hok) Hpa (TUser_not_pt _ _)) as [Hok0 (Hp1 & Hp2 & Hp3)].
  destruct (kfree_vm s fl (delete pa own) pa Hok0 Hp1 Hp2 Hp3) as (s1 & Hk & Hmo & Hok1 & Hrd).
  cbn [when]. run_by (exact Hk). run_by (unfold st, modify; reflexivity).
  pose proof (entry_retag _ _ root a e (delete_keeps_pt _ _ _ Hpa (TUser_not_pt _ _)) He) as He'.
  pose proof (unmap_ustep s fl own root a Hok Hr Hb Hal Hv s1 e Hmo Hok1 Hrd He') as Hst.
  fold pa in Hst. match type of Hst with ustep _ _ _ ?x _ _ _ => set (s2 := x) in * end.
  unfold PGSIZE. rewrite u64_small by vlia.
  destruct (IH s2 (pa :: fl) (delete pa own) (a + 4096)) as (s' & fl' & own' & Hrun & Hst').
  - apply Hst.
  - by apply (ustep_uroot _ _ _ _ _ _ _ _ Hst).
  - by apply aligned_next.
  - lia.
  - lia.
  - intros va Hva Hvp. rewrite (us_view _ _ _ _ _ _ _ Hst) by done. rewrite vpn_next in Hvp.
    unfold upd_view. rewrite decide_False by lia. apply Hmap; [done|lia].
  - exists s', fl', own'. split; [by replace (a + 4096 * Z.of_nat (S n)) with (a + 4096 + 4096 * Z.of_nat n) by lia|].
    eapply ustep_view; [by eapply ustep_trans|]. intros r va Hr' Hva. rewrite vpn_next.
    rewrite <- (upd_view_join _ _ (vpn a) (vpn a + 1)) by lia.
    unfold upd_view at 1 2. replace (vpn a + Z.of_nat (S n)) with (vpn a + 1 + Z.of_nat n) by lia.
    case_decide; [done|]. by apply (us_view _ _ _ _ _ _ _ Hst).
Qed.

(** ** The other steps *)

Lemma ustep_grows s fl own s' fl' own' r :
  uvm_ok s fl own → vm_ok s' fl' own' → grows r s fl own s' fl' own' →
  ustep s fl own s' fl' own' (uview (get_mem s)).
Proof.
  intros Hok Hok' Hgr. pose proof Hgr as [Hg Hl]. split.
  - by eapply uvm_ok_grows.
  - apply Hg.
  - by eapply vstep_pages.
  - intros r'. split; [by apply (vstep_root_inv _ _ _ _ _ _ _ _ Hg)|by apply (vstep_root _ _ _ _ _ _ _ _ Hg)].
  - intros p Hp. eapply lookup_weaken; [exact Hp|apply Hg].
  - intros p x Hp Hd Hx. apply (g_other _ _ _ _ _ _ _ Hg p); [|done]. by eapply frame_other; [apply Hok|..].
  - intros r' va Hr Hva _. by apply Hl.
  - intros r' va Hr Hva. eapply uview_vstep; [done|exact Hg|done|done|]. apply Hl; [apply Hr|vlia].
Qed.

Lemma ustep_map s fl own s' fl' own' root a n flags :
  uvm_ok s fl own → uroot s own root → 0 <= a < TRAPFRAME → a mod 4096 = 0 →
  own !! n = Some THand → 0 <= flags < 1024 → has flags PTE_V = true → flags ≠ PTE_V →
  has (leaf (get_mem s) root a) PTE_V = false →
  vm_ok s' fl' own' → vstep root s fl own s' fl' own' →
  maps_range own root a 1 n flags (get_mem s) (get_mem s') →
  ustep s fl own s' fl' (<[n := TUser root (vpn a)]> own')
    (upd_view (uview (get_mem s)) root (vpn a) (vpn a + 1)
       (λ va, Some (flags, rd (get_mem s) (n + va mod 4096)))).
Proof.
  intros Hok Hr Ha Hal Hn Hfl HV Hnv Hfree Hok' Hg Hm. split.
  - by eapply (uvm_ok_map s fl own s' fl' own' root a n flags).
  - apply Hg.
  - rewrite <- (vstep_pages _ _ _ _ _ _ _ Hg). unfold pages. rewrite dom_insert_L.
    assert (n ∈ dom own') by (apply elem_of_dom; exists THand; eapply lookup_weaken; [exact Hn|apply Hg]).
    set_solver.
  - by eapply (map_root s fl own s' fl' own' root a n).
  - intros p Hp. rewrite lookup_insert_ne by congruence. eapply lookup_weaken; [exact Hp|apply Hg].
  - intros p x Hp Hd Hx. apply (g_other _ _ _ _ _ _ _ Hg p); [|done]. by eapply frame_other; [apply Hok|..].
  - intros r va Hr' Hva Hd. eapply (map_leaf_old s own s' root a n flags); [done|done|done|].
    intros [-> E]. destruct Hd as [->|Hd]; [by apply Hr|]. by eapply vpn_trapframe; [apply Ha|..].
  - intros r va Hr' Hva. rewrite (uview_map s fl own s' fl' own' root a n flags) by done.
    unfold upd_view. destruct (decide (r = root ∧ vpn va = vpn a)) as [[-> E]|Hne].
    + by rewrite decide_True by (split; [done|lia]).
    + rewrite decide_False; [done|]. intros [-> ?]. apply Hne. split; [done|lia].
Qed.

(** Steps that change the owner and the contents of one page [n] that no
    table uses before or after. *)
Lemma ustep_hand s fl own s' fl' own' n :
  uvm_ok s fl own → vm_ok s' fl' own' → mem_only s s' → page_ok n →
  pages fl' own' = pages fl own → n ∈ pages fl own →
  (∀ p, p ≠ n → own' !! p = own !! p) →
  own !! n = None ∨ own !! n = Some THand → own' !! n = None ∨ own' !! n = Some THand →
  (∀ x, ¬ in_page n x → rd (get_mem s') x = rd (get_mem s) x) →
  ustep s fl own s' fl' own' (uview (get_mem s)).
Proof.
  intros Hok Hok' Hmo Hn Hpg Hnp Hown Hn1 Hn2 Hrd.
  assert (Hsame : ∀ p x t, own !! p = Some t → t ≠ THand → in_page p x → rd (get_mem s') x = rd (get_mem s) x).
  { intros p x t Hp Ht Hx. apply Hrd. intros Hx'.
    eapply (page_disjoint n p x x); [apply Hn| | |done|done|done].
    - exact (pi_aligned _ _ _ _ _ (vo_pt _ _ _ (uv_vm _ _ _ Hok)) Hp).
    - intros ->. destruct Hn1; congruence. }
  assert (Hkeep : ∀ p t, t ≠ THand → own' !! p = Some t ↔ own !! p = Some t).
  { intros p t Ht. destruct (decide (p = n)) as [->|]; [|by rewrite Hown].
    split; intros Hp; exfalso; [destruct Hn2|destruct Hn1]; congruence. }
  assert (Hroots : ∀ r, is_root own' r ↔ is_root own r) by (intros r; by apply Hkeep).
  assert (Hl : ∀ r va, is_root own r → 0 <= va < MAXVA → leaf (get_mem s') r va = leaf (get_mem s) r va).
  { intros r va Hr Hva. eapply leaf_frame; [apply Hok|done|done|].
    intros p x (r' & l & pre & Hp) Hx. by eapply Hsame. }
  assert (Hu : ∀ r, uroot s' own' r ↔ uroot s own r).
  { intros r. rewrite (uroot_mem_only _ _ _ _ Hmo). unfold uroot. by rewrite Hroots. }
  split; try done.
  - split; [done| | |].
    + intros r va Hr Hva. rewrite Hu in Hr. rewrite Hl by (apply Hr || vlia).
      rewrite Hkeep by done. by apply (uv_fwd _ _ _ Hok).
    + intros p r k Hp. rewrite Hkeep in Hp by done. destruct (uv_back _ _ _ Hok _ _ _ Hp) as (Hr & ? & ? & ? & ?).
      rewrite Hl by (apply Hr || vlia). by rewrite Hu.
    + intros r va Hr Hva. rewrite Hu in Hr. rewrite Hl by (apply Hr || vlia). by apply (uv_high _ _ _ Hok).
  - intros p Hp. by rewrite Hkeep.
  - intros p x Hp Hd Hx. apply Hrd. intros Hx'.
    eapply (page_disjoint n p x x); [apply Hn|done| |done|done|done].
    intros ->. destruct Hd as [?|?]; [done|]. destruct Hn1; congruence.
  - intros r va Hr Hva _. by apply Hl.
  - intros r va Hr Hva. apply uview_leaf; [by apply Hl; [apply Hr|vlia]|]. intros Hv x Hx.
    destruct (uv_fwd _ _ _ Hok r va Hr Hva Hv) as [Ho _]. by eapply Hsame.
Qed.
End uvm.
