(* ===== verification/UvmAlloc.v ===== *)
(** * Growing, shrinking and copying user memory

    [uvmalloc], [uvmdealloc], [uvmunmap] and [uvmcopy] as functions on the
    abstract address spaces of Uvm.v, on every path, running out of memory
    included. *)

From S2P Require Import Prelude Memory Params State CString Sched Kalloc Vm PageTable VmMap Uvm.

Section uvmalloc.
Context `{KernelImage}.
Implicit Types (s : kst) (fl : list Z) (own : gmap Z tag).

(** The number of pages that hold [sz] bytes. *)
Definition npg (sz : Z) : Z := (sz + 4095) / 4096.

Lemma pgroundup_npg sz : 0 <= sz < 2 ^ 63 → PGROUNDUP sz = 4096 * npg sz.
Proof. intros Hs. apply pgroundup_eq; lia. Qed.

Lemma npg_mul n : npg (4096 * n) = n.
Proof. unfold npg. pose proof (Z.div_mod (4096 * n + 4095) 4096). pose proof (Z.mod_pos_bound (4096 * n + 4095) 4096). lia. Qed.

Lemma npg_bounds sz : sz <= 4096 * npg sz < sz + 4096.
Proof. unfold npg. pose proof (Z.div_mod (sz + 4095) 4096). pose proof (Z.mod_pos_bound (sz + 4095) 4096). lia. Qed.

Lemma npg_mono x y : x <= y → npg x <= npg y.
Proof. intros. apply Z.div_le_mono; lia. Qed.

Lemma npg_aligned a : a mod 4096 = 0 → npg a = vpn a.
Proof. intros Ha. rewrite <- (mul_vpn a Ha) at 1. apply npg_mul. Qed.

(** ** Pages in hand *)

Lemma ukalloc s fl own :
  uvm_ok s fl own →
  (fl = [] ∧ kalloc s = Done 0 s) ∨
  ∃ n fl' s', fl = n :: fl' ∧ kalloc s = Done n s' ∧ n ≠ 0 ∧
    (∀ x, ¬ in_page n x → rd (get_mem s') x = rd (get_mem s) x) ∧
    ustep s fl own s' fl' (<[n := THand]> own) (uview (get_mem s)).
Proof.
  intros Hok. destruct (kalloc_vm _ _ _ (uv_vm _ _ _ Hok)) as [?|(n & fl' & s' & -> & Hk & Hn & Hnf & Hno & Hmo & Hok' & Hrd)];
    [by left|right].
  exists n, fl', s'. pose proof (page_ok_pos _ Hn). split_and!; [done|done|lia|done|].
  apply (ustep_hand _ _ _ _ _ _ n); try done.
  - apply vm_ok_own; [done|done|done| |apply THand_not_pt]. intros (r & l & pre & Hp). congruence.
  - unfold pages. rewrite dom_insert_L. set_solver.
  - unfold pages. set_solver.
  - intros p Hp. by rewrite lookup_insert_ne.
  - by left.
  - right. apply lookup_insert_eq.
Qed.

Lemma ukfree s fl own n :
  uvm_ok s fl own → own !! n = Some THand →
  ∃ s', kfree n s = Done tt s' ∧ ustep s fl own s' (n :: fl) (delete n own) (uview (get_mem s)).
Proof.
  intros Hok Hn.
  destruct (vm_ok_disown _ _ _ _ _ (uv_vm _ _ _ Hok) Hn THand_not_pt) as (Hok0 & Hp1 & Hp2 & Hp3).
  destruct (kfree_vm _ _ _ _ Hok0 Hp1 Hp2 Hp3) as (s' & Hk & Hmo & Hok1 & Hrd).
  exists s'. split; [done|].
  assert (n ∈ dom own) by (apply elem_of_dom; by eexists).
  apply (ustep_hand _ _ _ _ _ _ n); try done.
  - unfold pages. rewrite dom_delete_L. apply set_eq. intros p.
    rewrite !elem_of_union, !elem_of_list_to_set, elem_of_cons, elem_of_difference, elem_of_singleton.
    destruct (decide (p = n)) as [->|]; tauto.
  - unfold pages. set_solver.
  - intros p Hp. by rewrite lookup_delete_ne.
  - by right.
  - by left.
Qed.

Lemma uwrite s fl own n m' :
  uvm_ok s fl own → own !! n = Some THand →
  (∀ x, ¬ in_page n x → rd m' x = rd (get_mem s) x) →
  ustep s fl own (put_mem m' s) fl own (uview (get_mem s)).
Proof.
  intros Hok Hn Hrd. pose proof (pi_ok _ _ _ (vo_pt _ _ _ (uv_vm _ _ _ Hok)) _ _ Hn) as Hnok.
  apply (ustep_hand _ _ _ _ _ _ n); try done.
  - eapply vm_ok_frame; [apply Hok|apply mem_only_put_mem|done|].
    intros p x Hp Hx. apply Hrd. intros Hx'.
    destruct (owned_other _ _ _ _ _ (uv_vm _ _ _ Hok) Hn THand_not_pt) as (_ & Hnf & Hnp).
    eapply (page_disjoint n p x x); [apply Hnok| | |done|done|done].
    + destruct Hp as [Hp|(r & l & pre & Hp)].
      * by apply (Forall_elem _ _ _ (ki_ok _ _ (vo_kmem _ _ _ (uv_vm _ _ _ Hok)))) in Hp as [? _].
      * exact (pi_aligned _ _ _ _ _ (vo_pt _ _ _ (uv_vm _ _ _ Hok)) Hp).
    + intros ->. by destruct Hp.
  - apply mem_only_put_mem.
  - unfold pages. apply elem_of_union_r, elem_of_dom. by eexists.
  - by right.
  - by right.
Qed.

(** ** Mapping one page *)

(** Permissions that make a valid leaf entry. *)
Definition leaf_perm (perm : Z) : Prop :=
  0 <= perm < 1024 ∧ Z.lor perm PTE_V ≠ PTE_V.

Lemma has_lor_V perm : has (Z.lor perm PTE_V) PTE_V = true.
Proof.
  unfold has. apply negb_true_iff, Z.eqb_neq. intros E. apply (f_equal (λ z, Z.testbit z 0)) in E.
  rewrite Z.land_spec, Z.lor_spec in E. change (Z.testbit PTE_V 0) with true in E.
  rewrite orb_true_r in E. discriminate E.
Qed.

Lemma umap_run s fl own root a n perm :
  uvm_ok s fl own → uroot s own root → 0 <= a < TRAPFRAME → a mod 4096 = 0 →
  own !! n = Some THand → leaf_perm perm → uview (get_mem s) root a = None →
  ∃ r s' fl' own', mappages root a PGSIZE n perm s = Done r s' ∧
    ((r = 0 ∧ ustep s fl own s' fl' own'
        (upd_view (uview (get_mem s)) root (vpn a) (vpn a + 1)
           (λ va, Some (Z.lor perm PTE_V, rd (get_mem s) (n + va mod 4096))))) ∨
     (r = -1 ∧ own' !! n = Some THand ∧ ustep s fl own s' fl' own' (uview (get_mem s)))).
Proof.
  intros Hok Hr Ha Hal Hn [Hpb Hpv] Hfree. apply uview_None in Hfree.
  pose proof (pi_ok _ _ _ (vo_pt _ _ _ (uv_vm _ _ _ Hok)) _ _ Hn) as [_ Hnok].
  assert (E1 : vpn (a + PGSIZE - 1) - vpn a + 1 = 1).
  { unfold vpn, PGSIZE. pose proof (Z.div_mod a 4096). pose proof (Z.div_mod (a + 4096 - 1) 4096).
    pose proof (Z.mod_pos_bound (a + 4096 - 1) 4096). lia. }
  destruct (mappages_run s fl own root a PGSIZE n perm) as (r & s' & fl' & own' & k & Hrun & Hok' & Hg & Hm & Hk);
    try done; try vlia.
  - apply Hok.
  - apply Hr.
  - pose proof image_order. unfold PHYSTOP, KERNBASE, PGSIZE in *. lia.
  - unfold PHYSTOP, KERNBASE, PGSIZE in *. lia.
  - intros x Hx Hv. rewrite E1 in Hv. by rewrite (leaf_vpn _ _ x a) by lia.
  - rewrite E1 in Hk. exists r, s', fl'. destruct Hk as [[-> ->]|(-> & Hk & ->)].
    + exists (<[n := TUser root (vpn a)]> own'). split; [done|]. left. split; [done|].
      eapply ustep_map; try done; [by apply perm_V_bound|apply has_lor_V].
    + exists own'. split; [done|]. right.
      split_and!; [done|eapply lookup_weaken; [exact Hn|apply Hg]|].
      eapply ustep_grows; [done|done|]. split; [exact Hg|].
      intros r' va Hr' Hva. rewrite (Hm r' va Hr' Hva). by rewrite decide_False by lia.
Qed.

(** ** [uvmunmap] and [uvmdealloc] *)

Lemma uvmunmap_run s fl own root a n :
  uvm_ok s fl own → uroot s own root → a mod 4096 = 0 → 0 <= a → 0 <= n →
  a + 4096 * n <= TRAPFRAME → mapped (get_mem s) root (vpn a) (vpn a + n) →
  ∃ s' fl' own', uvmunmap root a n true s = Done tt s' ∧
    ustep s fl own s' fl' own'
      (upd_view (uview (get_mem s)) root (vpn a) (vpn a + n) (λ _, None)).
Proof.
  intros Hok Hr Hal Ha Hn Htop Hmap. unfold uvmunmap. unfold PGSIZE.
  rewrite (proj2 (Z.eqb_eq _ _) Hal). cbn [negb]. rewrite u64_small by vlia.
  replace (n * 4096) with (4096 * Z.of_nat (Z.to_nat n)) by lia.
  pose proof (Z2Nat.id n Hn) as En.
  destruct (uvmunmap_loop_spec (Z.to_nat n) s fl own root a Hok Hr Hal Ha) as (s' & fl' & own' & Hrun & Hst);
    [lia|by rewrite En|].
  rewrite En in Hst. by exists s', fl', own'.
Qed.

Lemma upd_view_ge F root lo hi v r va : hi <= lo → upd_view F root lo hi v r va = F r va.
Proof. intros. unfold upd_view. by rewrite decide_False by lia. Qed.

Lemma uvmdealloc_run s fl own root oldsz newsz :
  uvm_ok s fl own → uroot s own root → 0 <= newsz → 0 <= oldsz <= TRAPFRAME →
  mapped (get_mem s) root (npg newsz) (npg oldsz) →
  ∃ s' fl' own', uvmdealloc root oldsz newsz s = Done (Z.min oldsz newsz) s' ∧
    ustep s fl own s' fl' own'
      (upd_view (uview (get_mem s)) root (npg newsz) (npg oldsz) (λ _, None)).
Proof.
  intros Hok Hr Hnew Hold Hmap. unfold uvmdealloc.
  rewrite Z.geb_leb. destruct (Z.leb_spec oldsz newsz) as [Hle|Hlt].
  { exists s, fl, own. rewrite Z.min_l by done. split; [done|].
    eapply ustep_view; [by apply ustep_refl|]. intros r va _ _.
    by rewrite upd_view_ge by (apply npg_mono; lia). }
  rewrite Z.min_r by lia. rewrite !pgroundup_npg by vlia.
  pose proof (npg_mono newsz oldsz ltac:(lia)) as Hm. pose proof (npg_bounds newsz). pose proof (npg_bounds oldsz).
  destruct (Z.ltb_spec (4096 * npg newsz) (4096 * npg oldsz)) as [Hl|Hl]; cbn [when].
  - assert (E : (4096 * npg oldsz - 4096 * npg newsz) / PGSIZE = npg oldsz - npg newsz).
    { unfold PGSIZE. replace (4096 * npg oldsz - 4096 * npg newsz) with ((npg oldsz - npg newsz) * 4096) by lia.
      by apply Z.div_mul. }
    rewrite E, i32_small, u64_small by vlia.
    destruct (uvmunmap_run s fl own root (4096 * npg newsz) (npg oldsz - npg newsz)) as (s' & fl' & own' & Hrun & Hst);
      try done; try vlia.
    + rewrite Z.mul_comm. by apply Z.mod_mul.
    + rewrite vpn_mul. by replace (npg newsz + (npg oldsz - npg newsz)) with (npg oldsz) by lia.
    + rewrite vpn_mul in Hst. replace (npg newsz + (npg oldsz - npg newsz)) with (npg oldsz) in Hst by lia.
      exists s', fl', own'. split; [|done]. by run_by (exact Hrun).
  - exists s, fl, own. split; [done|].
    eapply ustep_view; [by apply ustep_refl|]. intros r va _ _. by rewrite upd_view_ge by lia.
Qed.

(** ** [uvmalloc] *)

Definition uperm : Z := Z.lor (Z.lor (Z.lor PTE_W PTE_X) PTE_R) PTE_U.

Lemma uperm_leaf : leaf_perm uperm.
Proof. by split; vm_compute. Qed.


(** The failure path of the loop: the pages added so far are taken back. *)
Lemma uvmalloc_undo s fl own root a oldsz :
  uvm_ok s fl own → uroot s own root → a mod 4096 = 0 → oldsz mod 4096 = 0 →
  0 <= oldsz <= a → a <= TRAPFRAME → mapped (get_mem s) root (vpn oldsz) (vpn a) →
  ∃ s' fl' own', (_ ← uvmdealloc root a oldsz; mret 0) s = Done 0 s' ∧
    ustep s fl own s' fl' own'
      (upd_view (uview (get_mem s)) root (vpn oldsz) (vpn a) (λ _, None)).
Proof.
  intros Hok Hr Ha Ho Hle Htop Hmap.
  destruct (uvmdealloc_run s fl own root a oldsz) as (s' & fl' & own' & Hrun & Hst);
    try done; try lia; [by rewrite !npg_aligned|].
  rewrite !npg_aligned in Hst by done. exists s', fl', own'. split; [|done]. by run_by (exact Hrun).
Qed.

Lemma mapped_view m m' root lo hi :
  (∀ va, 0 <= va < TRAPFRAME → lo <= vpn va < hi → uview m' root va = uview m root va) →
  mapped m root lo hi → mapped m' root lo hi.
Proof. intros Hv Hm va Hva Hvp. rewrite Hv by done. by apply Hm. Qed.

Lemma upd_view_None F root lo hi r va :
  (∀ va, 0 <= va < TRAPFRAME → lo <= vpn va < hi → F root va = None) → 0 <= va < TRAPFRAME →
  upd_view F root lo hi (λ _, None) r va = F r va.
Proof. intros Hn Hva. unfold upd_view. case_decide as Hd; [|done]. destruct Hd as [-> ?]. by rewrite Hn. Qed.

(** What the loops of [uvmalloc] and [uvmcopy] do for one page: allocate it,
    initialise it with [w], and map it at [a]; when a page is missing the
    address spaces are as before. *)
Section alloc_step.
Context s fl own (root a perm : Z) (w : mem → Z → mem) (c : Z → Z).
Context (Hok : uvm_ok s fl own) (Hr : uroot s own root) (Ha : 0 <= a < TRAPFRAME)
        (Hal : a mod 4096 = 0) (Hperm : leaf_perm perm) (Hfree : uview (get_mem s) root a = None)
        (Hw : ∀ m n x, n ∈ fl → (∀ y, ¬ in_page n y → rd m y = rd (get_mem s) y) →
           rd (w m n) x = if decide (in_page n x) then c (x - n) else rd m x).

Lemma alloc_step :
  (kalloc s = Done 0 s) ∨
  ∃ n s1 r s2, kalloc s = Done n s1 ∧ n ≠ 0 ∧
    mappages root a PGSIZE n perm (put_mem (w (get_mem s1) n) s1) = Done r s2 ∧
    ((r = 0 ∧ ∃ fl' own', ustep s fl own s2 fl' own'
        (upd_view (uview (get_mem s)) root (vpn a) (vpn a + 1)
           (λ va, Some (Z.lor perm PTE_V, c (va mod 4096))))) ∨
     (r = -1 ∧ ∃ s3 fl' own', kfree n s2 = Done tt s3 ∧ ustep s fl own s3 fl' own' (uview (get_mem s)))).
Proof.
  destruct (ukalloc s fl own Hok) as [[_ Hk]|(n & fl1 & s1 & Efl & Hk & Hn & Hrd & Hst1)]; [by left|right].
  set (own1 := <[n := THand]> own) in *.
  assert (Hn1 : own1 !! n = Some THand) by apply lookup_insert_eq.
  assert (Hfill : ∀ x, rd (w (get_mem s1) n) x = if decide (in_page n x) then c (x - n) else rd (get_mem s1) x).
  { intros x. apply Hw; [rewrite Efl; set_solver|done]. }
  set (m2 := w (get_mem s1) n) in *.
  assert (Hst2 : ustep s1 fl1 own1 (put_mem m2 s1) fl1 own1 (uview (get_mem s1))).
  { apply (uwrite _ _ _ n); [apply Hst1|done|]. intros x Hx. rewrite Hfill. by rewrite decide_False. }
  pose proof (ustep_trans _ _ _ _ _ _ _ _ _ _ _ Hst1 Hst2) as Hst.
  assert (Hview : ∀ r va, uroot s own r → 0 <= va < TRAPFRAME →
    uview (get_mem (put_mem m2 s1)) r va = uview (get_mem s) r va).
  { intros r va Hr' Hva. rewrite (us_view _ _ _ _ _ _ _ Hst) by done. by apply Hst1. }
  destruct (umap_run (put_mem m2 s1) fl1 own1 root a n perm) as (r & s3 & fl3 & own3 & Hm & Hres).
  { apply Hst. } { by apply (ustep_uroot _ _ _ _ _ _ _ _ Hst). } { done. } { done. } { done. }
  { done. } { by rewrite Hview. }
  exists n, s1, r, s3. split_and!; [done|done|done|].
  destruct Hres as [[-> Hst3]|(-> & Hn3 & Hst3)]; [left|right]; (split; [done|]).
  - exists fl3, own3. eapply ustep_view; [by eapply ustep_trans|]. intros r va Hr' Hva.
    unfold upd_view. case_decide as Hd; [|by apply Hview].
    autorewrite with kst. rewrite Hfill, decide_True by apply in_page_off.
    by replace (n + va mod 4096 - n) with (va mod 4096) by lia.
  - destruct (ukfree s3 fl3 own3 n (us_ok _ _ _ _ _ _ _ Hst3) Hn3) as (s4 & Hf & Hst4).
    exists s4, (n :: fl3), (delete n own3). split; [done|].
    eapply ustep_view; [eapply ustep_trans; [exact Hst|]; eapply ustep_trans; [exact Hst3|exact Hst4]|].
    intros r va Hr' Hva. rewrite (us_view _ _ _ _ _ _ _ Hst3); [by apply Hview| |done].
    by apply (ustep_uroot _ _ _ _ _ _ _ _ Hst).
Qed.
End alloc_step.

Lemma fill_page s fl m n x :
  n ∈ fl → (∀ y, ¬ in_page n y → rd m y = rd (get_mem s) y) →
  rd (memset m n 0 PGSIZE) x = if decide (in_page n x) then 0 else rd m x.
Proof. intros _ _. rewrite rd_memset by (by unfold PGSIZE). done. Qed.

Lemma uvmalloc_loop_spec n s fl own root a oldsz newsz :
  uvm_ok s fl own → uroot s own root → a mod 4096 = 0 → oldsz mod 4096 = 0 →
  0 <= oldsz <= a → a <= TRAPFRAME → newsz <= TRAPFRAME → Z.of_nat n = Z.max 0 (npg newsz - vpn a) →
  mapped (get_mem s) root (vpn oldsz) (vpn a) → unmapped (get_mem s) root (vpn a) (npg newsz) →
  ∃ r s' fl' own', uvmalloc_loop n root a oldsz newsz s = Done r s' ∧
    ((r = newsz ∧ ustep s fl own s' fl' own'
        (upd_view (uview (get_mem s)) root (vpn a) (npg newsz) (λ _, Some (Z.lor uperm PTE_V, 0)))) ∨
     (r = 0 ∧ ustep s fl own s' fl' own'
        (upd_view (uview (get_mem s)) root (vpn oldsz) (vpn a) (λ _, None)))).
Proof.
  revert s fl own a. induction n as [|n IH]; intros s fl own a Hok Hr Hal Hol Hle Htop Hnew Hfuel Hmap Hun;
    cbn [uvmalloc_loop]; pose proof (mul_vpn a Hal) as Ea; pose proof (npg_bounds newsz) as Hnb.
  { rewrite (proj2 (Z.ltb_ge _ _)) by lia. exists newsz, s, fl, own. split; [done|]. left. split; [done|].
    eapply ustep_view; [by apply ustep_refl|]. intros. by rewrite upd_view_ge by lia. }
  rewrite (proj2 (Z.ltb_lt a newsz)) by lia. cbn [negb]. fold uperm.
  destruct (alloc_step s fl own root a uperm (λ m n, memset m n 0 PGSIZE) (λ _, 0) Hok Hr ltac:(lia) Hal uperm_leaf)
    as [Hk|(p & s1 & r & s2 & Hk & Hp & Hm & Hres)]; [apply Hun; lia|by apply (fill_page s fl)|..].
  - run_by (exact Hk). cbn.
    destruct (uvmalloc_undo s fl own root a oldsz) as (s' & fl' & own' & Hrun & Hst); try done.
    exists 0, s', fl', own'. split; [exact Hrun|]. by right.
  - run_by (exact Hk). rewrite (proj2 (Z.eqb_neq p 0)) by done. run_by (unfold fill, modify; reflexivity).
    run_by (exact Hm). destruct Hres as [(-> & fl2 & own2 & Hst)|(-> & s3 & fl3 & own3 & Hf & Hst)]; cbn [negb Z.eqb].
    + unfold PGSIZE. rewrite u64_small by vlia.
      destruct (IH s2 fl2 own2 (a + 4096)) as (r & s' & fl' & own' & Hrun & Hr'); try done; try vlia.
      * apply Hst.
      * by apply (ustep_uroot _ _ _ _ _ _ _ _ Hst).
      * by apply aligned_next.
      * rewrite vpn_next. lia.
      * rewrite vpn_next. intros va Hva Hvp. rewrite (us_view _ _ _ _ _ _ _ Hst) by done.
        unfold upd_view. case_decide; [done|]. apply Hmap; [done|lia].
      * rewrite vpn_next. intros va Hva Hvp. rewrite (us_view _ _ _ _ _ _ _ Hst) by done.
        unfold upd_view. rewrite decide_False by lia. apply Hun; [done|lia].
      * exists r, s', fl', own'. split; [done|]. rewrite vpn_next in Hr'.
        destruct Hr' as [[-> Hst']|[-> Hst']]; [left|right]; (split; [done|]).
        -- eapply ustep_view; [by eapply ustep_trans|]. intros r' va Hr'' Hva.
           rewrite <- (upd_view_join _ _ (vpn a) (vpn a + 1)) by lia.
           unfold upd_view at 1 2. case_decide; [done|]. by apply (us_view _ _ _ _ _ _ _ Hst).
        -- eapply ustep_view; [by eapply ustep_trans|]. intros r' va Hr'' Hva. unfold upd_view.
           pose proof (Z.div_le_mono oldsz a 4096 ltac:(lia) ltac:(lia)) as Hov. fold (vpn oldsz) (vpn a) in Hov.
           case_decide as H1; case_decide as H2; try done; [|lia|].
           ++ destruct H1 as [-> ?]. by rewrite Hun by (done || lia).
           ++ rewrite (us_view _ _ _ _ _ _ _ Hst) by done. unfold upd_view. by rewrite decide_False by lia.
    + run_by (exact Hf).
      destruct (uvmalloc_undo s3 fl3 own3 root a oldsz) as (s' & fl' & own' & Hrun & Hst'); try done.
      * apply Hst.
      * by apply (ustep_uroot _ _ _ _ _ _ _ _ Hst).
      * eapply mapped_view; [|exact Hmap]. intros. by apply (us_view _ _ _ _ _ _ _ Hst).
      * exists 0, s', fl', own'. split; [exact Hrun|]. right. split; [done|].
        eapply ustep_view; [by eapply ustep_trans|]. intros r' va Hr' Hva. unfold upd_view.
        case_decide; [done|]. by apply (us_view _ _ _ _ _ _ _ Hst).
Qed.

Lemma npg_trapframe sz : sz <= TRAPFRAME → 4096 * npg sz <= TRAPFRAME.
Proof. intros Hs. pose proof (npg_bounds sz). vlia. Qed.

Lemma npg_sub sz k : (sz - 4096 * k + 4096 - 1) / 4096 = npg sz - k.
Proof.
  unfold npg. replace (sz - 4096 * k + 4096 - 1) with (sz + 4095 + (- k) * 4096) by lia.
  rewrite Z.div_add; lia.
Qed.

Lemma uvmalloc_run s fl own root oldsz newsz :
  uvm_ok s fl own → uroot s own root → 0 <= oldsz → newsz <= TRAPFRAME →
  unmapped (get_mem s) root (npg oldsz) (npg newsz) →
  ∃ r s' fl' own', uvmalloc root oldsz newsz s = Done r s' ∧
    ((newsz < oldsz ∧ r = oldsz ∧ s' = s) ∨
     (oldsz <= newsz ∧ r = newsz ∧ ustep s fl own s' fl' own'
        (upd_view (uview (get_mem s)) root (npg oldsz) (npg newsz)
           (λ _, Some (Z.lor uperm PTE_V, 0)))) ∨
     (oldsz <= newsz ∧ r = 0 ∧ ustep s fl own s' fl' own' (uview (get_mem s)))).
Proof.
  intros Hok Hr Hold Hnew Hun. unfold uvmalloc.
  destruct (Z.ltb_spec newsz oldsz) as [Hlt|Hge].
  { exists oldsz, s, fl, own. split; [done|]. by left. }
  rewrite pgroundup_npg by vlia. unfold PGSIZE. rewrite npg_sub.
  pose proof (npg_trapframe oldsz ltac:(lia)). pose proof (npg_bounds oldsz).
  destruct (uvmalloc_loop_spec (Z.to_nat (npg newsz - npg oldsz)) s fl own root (4096 * npg oldsz)
              (4096 * npg oldsz) newsz) as (r & s' & fl' & own' & Hrun & Hres);
    rewrite ?vpn_mul; try done; try lia.
  - rewrite Z.mul_comm. by apply Z.mod_mul.
  - rewrite Z.mul_comm. by apply Z.mod_mul.
  - intros va Hva. lia.
  - exists r, s', fl', own'. split; [done|]. right. rewrite vpn_mul in Hres.
    destruct Hres as [[-> Hst]|[-> Hst]]; [left|right]; (split_and!; [done|done|]); [done|].
    eapply ustep_view; [exact Hst|]. intros. by rewrite upd_view_ge by lia.
Qed.


(** [uvmdealloc] shrinks an address space: exactly the pages between
    [newsz] and [oldsz] are unmapped and go back to the free list, and the
    smaller of the two sizes is returned. *)
Theorem uvmdealloc_spec s fl own root oldsz newsz :
  uvm_ok s fl own → uroot s own root → 0 <= newsz → 0 <= oldsz <= TRAPFRAME →
  mapped (get_mem s) root (npg newsz) (npg oldsz) →
  ∃ s' fl' own', uvmdealloc root oldsz newsz s = Done (Z.min oldsz newsz) s' ∧
    ustep s fl own s' fl' own'
      (upd_view (uview (get_mem s)) root (npg newsz) (npg oldsz) (λ _, None)).
Proof. apply uvmdealloc_run. Qed.

(** ** [uvmcopy] *)

(** A valid user entry carries permissions that make a valid leaf again. *)
Lemma leaf_flags s fl own root a :
  uvm_ok s fl own → uroot s own root → 0 <= a < TRAPFRAME →
  has (leaf (get_mem s) root a) PTE_V = true →
  leaf_perm (PTE_FLAGS (leaf (get_mem s) root a)) ∧
  Z.lor (PTE_FLAGS (leaf (get_mem s) root a)) PTE_V = PTE_FLAGS (leaf (get_mem s) root a).
Proof.
  intros Hok Hr Ha Hv. destruct (uv_fwd _ _ _ Hok root a Hr Ha Hv) as [_ Hf].
  set (e := leaf (get_mem s) root a) in *.
  assert (E : Z.lor (PTE_FLAGS e) PTE_V = PTE_FLAGS e).
  { apply Z.bits_inj'. intros i Hi. rewrite Z.lor_spec. unfold PTE_FLAGS. rewrite Z.land_spec.
    destruct (decide (i = 0)) as [->|Hi0].
    - unfold has in Hv. apply negb_true_iff, Z.eqb_neq in Hv.
      destruct (Z.testbit e 0) eqn:Eb; [done|]. exfalso. apply Hv. apply Z.bits_inj'. intros j Hj.
      rewrite Z.land_spec, Z.bits_0. destruct (decide (j = 0)) as [->|]; [by rewrite Eb|].
      replace (Z.testbit PTE_V j) with false; [by rewrite andb_false_r|].
      symmetry. change PTE_V with (2 ^ 0). apply Z.pow2_bits_false. lia.
    - replace (Z.testbit PTE_V i) with false; [by rewrite orb_false_r|].
      symmetry. change PTE_V with (2 ^ 0). apply Z.pow2_bits_false. lia. }
  split; [|done]. split; [|by rewrite E]. rewrite pte_flags_eq. apply Z.mod_pos_bound. lia.
Qed.

(** The copy of the page that [old] maps at [i] into a fresh page. *)
Lemma copy_page s fl own old i :
  uvm_ok s fl own → uroot s own old → 0 <= i < TRAPFRAME →
  has (leaf (get_mem s) old i) PTE_V = true →
  ∀ m n x, n ∈ fl → (∀ y, ¬ in_page n y → rd m y = rd (get_mem s) y) →
    rd (memmove m n (PTE2PA (leaf (get_mem s) old i)) PGSIZE) x =
      if decide (in_page n x) then rd (get_mem s) (PTE2PA (leaf (get_mem s) old i) + (x - n)) else rd m x.
Proof.
  intros Hok Hr Hi Hv m n x Hn Hm. rewrite rd_memmove by (by unfold PGSIZE).
  destruct (decide (in_page n x)) as [Hx|Hx]; [rewrite decide_True by exact Hx|by rewrite decide_False by exact Hx].
  destruct (uv_fwd _ _ _ Hok old i Hr Hi Hv) as [Ho _]. set (pa := PTE2PA _) in *.
  apply Hm. intros Hy. pose proof (Forall_elem _ _ _ (ki_ok _ _ (vo_kmem _ _ _ (uv_vm _ _ _ Hok))) Hn) as [Hnal _].
  destruct (owned_other _ _ _ _ _ (uv_vm _ _ _ Hok) Ho (TUser_not_pt _ _)) as (Hpal & Hpf & _).
  eapply (page_disjoint pa n _ _ Hpal Hnal); [intros E; rewrite E in Hpf; done| |exact Hy|reflexivity].
  unfold in_page in *. lia.
Qed.

Lemma uvmcopy_undo s fl own new i :
  uvm_ok s fl own → uroot s own new → i mod 4096 = 0 → 0 <= i <= TRAPFRAME →
  mapped (get_mem s) new 0 (vpn i) →
  ∃ s' fl' own', (uvmunmap new 0 (i / PGSIZE) true;; mret (-1)) s = Done (-1) s' ∧
    ustep s fl own s' fl' own' (upd_view (uview (get_mem s)) new 0 (vpn i) (λ _, None)).
Proof.
  intros Hok Hr Hi Hb Hmap. pose proof (mul_vpn i Hi).
  destruct (uvmunmap_run s fl own new 0 (i / PGSIZE)) as (s' & fl' & own' & Hrun & Hst);
    change (i / PGSIZE) with (vpn i) in *; try done; try lia.
  exists s', fl', own'. split; [by run_by (exact Hrun)|]. exact Hst.
Qed.

Lemma uvmcopy_loop_spec n s fl own old new i sz :
  uvm_ok s fl own → uroot s own old → uroot s own new → old ≠ new →
  i mod 4096 = 0 → 0 <= i <= TRAPFRAME → sz <= TRAPFRAME → Z.of_nat n = Z.max 0 (npg sz - vpn i) →
  mapped (get_mem s) old (vpn i) (npg sz) →
  mapped (get_mem s) new 0 (vpn i) → unmapped (get_mem s) new (vpn i) (npg sz) →
  ∃ r s' fl' own', uvmcopy_loop n old new i sz s = Done r s' ∧
    ((r = 0 ∧ ustep s fl own s' fl' own'
        (upd_view (uview (get_mem s)) new (vpn i) (npg sz) (uview (get_mem s) old))) ∨
     (r = -1 ∧ ustep s fl own s' fl' own'
        (upd_view (uview (get_mem s)) new 0 (vpn i) (λ _, None)))).
Proof.
  revert s fl own i. induction n as [|n IH]; intros s fl own i Hok Ho Hn Hne Hal Hi Hsz Hfuel Hmo Hmn Hun;
    cbn [uvmcopy_loop]; pose proof (mul_vpn i Hal) as Ei; pose proof (npg_bounds sz) as Hnb.
  { rewrite (proj2 (Z.ltb_ge _ _)) by lia. exists 0, s, fl, own. split; [done|]. left. split; [done|].
    eapply ustep_view; [by apply ustep_refl|]. intros. by rewrite upd_view_ge by lia. }
  rewrite (proj2 (Z.ltb_lt i sz)) by lia. cbn [negb].
  assert (Hb : 0 <= i < TRAPFRAME) by lia.
  assert (Hv : has (leaf (get_mem s) old i) PTE_V = true) by (apply uview_Some, Hmo; lia).
  destruct (walk_lookup s fl own old i (uv_vm _ _ _ Hok) (proj1 Ho) ltac:(vlia)) as (e & Hw & He).
  destruct He as [[_ H0]|He]; [rewrite H0, has_0 in Hv; discriminate Hv|].
  run_by (exact Hw).
  rewrite (proj2 (Z.eqb_neq e 0)) by exact (entry_nonzero _ _ _ _ _ _ (uv_vm _ _ _ Hok) He).
  run_by (unfold ld, gets; reflexivity).
  rewrite (entry_leaf s fl own old i e (uv_vm _ _ _ Hok) (proj1 Ho) ltac:(vlia) He), Hv. cbn [negb].
  destruct (leaf_flags s fl own old i Hok Ho Hb Hv) as [Hlp Hlv].
  destruct (alloc_step s fl own new i (PTE_FLAGS (leaf (get_mem s) old i))
              (λ m n, memmove m n (PTE2PA (leaf (get_mem s) old i)) PGSIZE)
              (λ x, rd (get_mem s) (PTE2PA (leaf (get_mem s) old i) + x)) Hok Hn Hb Hal Hlp)
    as [Hk|(p & s1 & r & s2 & Hk & Hp & Hm & Hres)]; [apply Hun; lia|by eapply copy_page|..].
  { run_by (exact Hk). cbn [Z.eqb].
    destruct (uvmcopy_undo s fl own new i) as (s' & fl' & own' & Hrun & Hst); try done.
    exists (-1), s', fl', own'. split; [exact Hrun|]. by right. }
  run_by (exact Hk). rewrite (proj2 (Z.eqb_neq p 0)) by done. run_by (unfold modify; reflexivity).
  run_by (exact Hm). destruct Hres as [(-> & fl2 & own2 & Hst)|(-> & s3 & fl3 & own3 & Hf & Hst)]; cbn [negb Z.eqb].
  - assert (Hst' : ustep s fl own s2 fl2 own2 (upd_view (uview (get_mem s)) new (vpn i) (vpn i + 1) (uview (get_mem s) old))).
    { eapply ustep_view; [exact Hst|]. intros r va _ Hva. unfold upd_view. case_decide; [|done].
      unfold uview. rewrite (leaf_vpn _ _ va i) by lia. by rewrite Hv, Hlv. }
    clear Hst. rename Hst' into Hst. pose proof (us_view _ _ _ _ _ _ _ Hst) as Hview.
    unfold PGSIZE. rewrite u64_small by vlia.
    destruct (IH s2 fl2 own2 (i + 4096)) as (r & s' & fl' & own' & Hrun & Hr'); try done; try vlia.
    + apply Hst.
    + by apply (ustep_uroot _ _ _ _ _ _ _ _ Hst).
    + by apply (ustep_uroot _ _ _ _ _ _ _ _ Hst).
    + by apply aligned_next.
    + rewrite vpn_next. lia.
    + rewrite vpn_next. intros va Hva Hvp. rewrite Hview by done. unfold upd_view.
      rewrite decide_False by tauto. apply Hmo; [done|lia].
    + rewrite vpn_next. intros va Hva Hvp. rewrite Hview by done. unfold upd_view.
      case_decide; [apply Hmo; [done|lia]|apply Hmn; [done|lia]].
    + rewrite vpn_next. intros va Hva Hvp. rewrite Hview by done. unfold upd_view.
      rewrite decide_False by lia. apply Hun; [done|lia].
    + exists r, s', fl', own'. split; [done|]. rewrite vpn_next in Hr'.
      destruct Hr' as [[-> Hst']|[-> Hst']]; [left|right]; (split; [done|]).
      * eapply ustep_view; [by eapply ustep_trans|]. intros r' va Hr'' Hva.
        rewrite <- (upd_view_join _ _ (vpn i) (vpn i + 1)) by lia.
        unfold upd_view at 1 2. case_decide; [|by apply Hview].
        rewrite Hview by done. unfold upd_view. by rewrite decide_False by tauto.
      * eapply ustep_view; [by eapply ustep_trans|]. intros r' va Hr'' Hva. unfold upd_view.
        case_decide as H1; case_decide as H2; try done; [|lia|].
        -- destruct H1 as [-> ?]. by rewrite Hun by (done || lia).
        -- rewrite Hview by done. unfold upd_view. rewrite decide_False; [done|].
           intros [-> ?]. apply H1. split; [done|]. lia.
  - assert (Hrun' : (kfree p;; (uvmunmap new 0 (i / PGSIZE) true;; mret (-1))) s2 =
      (uvmunmap new 0 (i / PGSIZE) true;; mret (-1)) s3) by (by run_by (exact Hf)).
    destruct (uvmcopy_undo s3 fl3 own3 new i) as (s' & fl' & own' & Hrun & Hst'); try done.
    + apply Hst.
    + by apply (ustep_uroot _ _ _ _ _ _ _ _ Hst).
    + eapply mapped_view; [|exact Hmn]. intros. by apply (us_view _ _ _ _ _ _ _ Hst).
    + exists (-1), s', fl', own'. split; [rewrite Hrun'; exact Hrun|]. right. split; [done|].
      eapply ustep_view; [by eapply ustep_trans|]. intros r' va Hr' Hva. unfold upd_view.
      case_decide; [done|]. by apply (us_view _ _ _ _ _ _ _ Hst).
Qed.

Lemma uvmcopy_run s fl own old new sz :
  uvm_ok s fl own → uroot s own old → uroot s own new → old ≠ new → 0 <= sz <= TRAPFRAME →
  mapped (get_mem s) old 0 (npg sz) → unmapped (get_mem s) new 0 (npg sz) →
  ∃ r s' fl' own', uvmcopy old new sz s = Done r s' ∧
    ((r = 0 ∧ ustep s fl own s' fl' own'
        (upd_view (uview (get_mem s)) new 0 (npg sz) (uview (get_mem s) old))) ∨
     (r = -1 ∧ ustep s fl own s' fl' own' (uview (get_mem s)))).
Proof.
  intros Hok Ho Hn Hne Hsz Hmo Hun. unfold uvmcopy, PGSIZE.
  replace (sz + 4096 - 1) with (sz - 4096 * 0 + 4096 - 1) by lia. rewrite npg_sub.
  pose proof (npg_bounds sz).
  destruct (uvmcopy_loop_spec (Z.to_nat (npg sz - 0)) s fl own old new 0 sz)
    as (r & s' & fl' & own' & Hrun & Hres); change (vpn 0) with 0 in *; try done; try lia.
  - intros va. lia.
  - exists r, s', fl', own'. split; [done|].
    destruct Hres as [?|[-> Hst]]; [by left|right]. split; [done|].
    eapply ustep_view; [exact Hst|]. intros. by rewrite upd_view_ge by lia.
Qed.

End uvmalloc.
