(* ===== verification/UvmCopy.v ===== *)
(** * Copies between user and kernel memory *)

From S2P Require Import Prelude Memory Params State CString Sched Kalloc Vm PageTable VmMap Uvm UvmAlloc.

(** * Copies between the kernel and user memory

    [walkaddr], [copyout], [copyin] and [copyinstr] on the abstract address
    spaces of Uvm.v: they reach the pages the user may access and no others,
    and stop at the first page that is not one of them. *)

Section copy.
Context `{KernelImage}.
Implicit Types (s : kst) (fl : list Z) (own : gmap Z tag).

(** The byte at [va] if the user may access it. *)
Definition uread (m : mem) (root va : Z) : option Z :=
  match uview m root va with
  | Some (flags, b) => if has flags PTE_U then Some b else None
  | None => None
  end.

Lemma has_U_flags e : has (PTE_FLAGS e) PTE_U = has e PTE_U.
Proof. symmetry. apply has_flags; by vm_compute. Qed.

(** [va] is on a page that the user may access. *)
Definition uaccess (m : mem) (root va : Z) : bool :=
  (va <? MAXVA) && has (leaf m root va) PTE_V && has (leaf m root va) PTE_U.

Lemma walkaddr_run s fl own root va :
  vm_ok s fl own → is_root own root → 0 <= va →
  walkaddr root va s = Done (if uaccess (get_mem s) root va then PTE2PA (leaf (get_mem s) root va) else 0) s.
Proof.
  intros Hok Hr Hva. unfold walkaddr, uaccess. rewrite Z.geb_leb, Z.leb_antisym.
  destruct (Z.ltb_spec va MAXVA) as [Hlt|Hge]; cbn [negb andb]; [|done].
  destruct (walk_lookup s fl own root va Hok Hr ltac:(lia)) as (e & Hw & He). run_by (exact Hw).
  destruct He as [[-> H0]|He]; [by rewrite H0, has_0|].
  rewrite (proj2 (Z.eqb_neq e 0)) by exact (entry_nonzero _ _ _ _ _ _ Hok He).
  run_by (unfold ld, gets; reflexivity).
  rewrite (entry_leaf s fl own root va e Hok Hr ltac:(lia) He).
  destruct (has _ PTE_V); cbn [negb andb]; [|done]. by destruct (has _ PTE_U).
Qed.

(** An accessible page is a user page of this address space. *)
Lemma uaccess_owner s fl own root va :
  uvm_ok s fl own → uroot s own root → 0 <= va → uaccess (get_mem s) root va = true →
  va < TRAPFRAME ∧ has (leaf (get_mem s) root va) PTE_V = true ∧
  own !! PTE2PA (leaf (get_mem s) root va) = Some (TUser root (vpn va)).
Proof.
  intros Hok Hr Hva Ha. unfold uaccess in Ha. apply andb_true_iff in Ha as [[Hm Hv]%andb_true_iff Hu].
  apply Z.ltb_lt in Hm. destruct (decide (va < TRAPFRAME)) as [Hlt|Hge].
  - split_and!; [done|done|]. by apply (uv_fwd _ _ _ Hok root va Hr ltac:(lia)).
  - rewrite (uv_high _ _ _ Hok root va Hr ltac:(lia) Hv) in Hu. discriminate Hu.
Qed.

Lemma uaccess_vpn m root va va' :
  vpn va = vpn va' → uaccess m root va = uaccess m root va'.
Proof.
  intros Hv. unfold uaccess. rewrite (leaf_vpn m root va va' Hv). do 2 f_equal.
  change MAXVA with (4096 * 67108864). unfold vpn in Hv.
  pose proof (Z.div_mod va 4096). pose proof (Z.div_mod va' 4096).
  pose proof (Z.mod_pos_bound va 4096). pose proof (Z.mod_pos_bound va' 4096).
  destruct (Z.ltb_spec va (4096 * 67108864)), (Z.ltb_spec va' (4096 * 67108864)); (done || lia).
Qed.

Lemma uread_access m root va :
  0 <= va < TRAPFRAME →
  uread m root va =
    if uaccess m root va then Some (rd m (PTE2PA (leaf m root va) + va mod 4096)) else None.
Proof.
  intros Hva. unfold uread, uaccess, uview. rewrite (proj2 (Z.ltb_lt va MAXVA)) by vlia.
  destruct (has (leaf _ _ _) PTE_V); [|done]. rewrite has_U_flags. by destruct (has _ PTE_U).
Qed.

(** ** Writing to a user page *)

Lemma ustep_uwrite s fl own p root n m' :
  uvm_ok s fl own → own !! p = Some (TUser root n) →
  (∀ x, ¬ in_page p x → rd m' x = rd (get_mem s) x) →
  ustep s fl own (put_mem m' s) fl own
    (upd_view (uview (get_mem s)) root n (n + 1)
       (λ va, match uview (get_mem s) root va with
              | Some (f, _) => Some (f, rd m' (p + va mod 4096))
              | None => None
              end)).
Proof.
  intros Hok Hp Hrd.
  pose proof (owned_other _ _ _ _ _ (uv_vm _ _ _ Hok) Hp (TUser_not_pt _ _)) as (Hal & Hnf & Hnpt).
  assert (Hout : ∀ q x, q mod 4096 = 0 → q ≠ p → in_page q x → rd m' x = rd (get_mem s) x).
  { intros q x Hq Hne Hx. apply Hrd. intros Hx'. eapply (page_disjoint p q x x); (done || congruence). }
  assert (Hpt : same_on (is_pt own) (get_mem s) m').
  { intros q x Hq Hx. apply (Hout q); [|by intros ->|done]. destruct Hq as (r & l & pre & Hq).
    exact (pi_aligned _ _ _ _ _ (vo_pt _ _ _ (uv_vm _ _ _ Hok)) Hq). }
  assert (Hl : ∀ r va, is_root own r → 0 <= va < MAXVA → leaf m' r va = leaf (get_mem s) r va).
  { intros r va Hr Hva. eapply leaf_frame; [apply Hok|done|done|done]. }
  split; try done.
  - split.
    + eapply vm_ok_frame; [apply Hok|apply mem_only_put_mem|done|].
      intros q x [Hq|Hq] Hx; [|by apply (Hpt q)]. apply (Hout q); [|set_solver|done].
      by apply (Forall_elem _ _ _ (ki_ok _ _ (vo_kmem _ _ _ (uv_vm _ _ _ Hok)))) in Hq as [? _].
    + intros r va Hr Hva. autorewrite with kst. rewrite Hl by (apply Hr || vlia). by apply (uv_fwd _ _ _ Hok).
    + intros q r k Hq. autorewrite with kst.
      destruct (uv_back _ _ _ Hok _ _ _ Hq) as (Hr & ? & ? & ? & ?). by rewrite Hl by (apply Hr || vlia).
    + intros r va Hr Hva. autorewrite with kst. rewrite Hl by (apply Hr || vlia). by apply (uv_high _ _ _ Hok).
  - apply mem_only_put_mem.
  - intros q x Hq Hd Hx. autorewrite with kst. apply (Hout q); [done| |done]. intros ->.
    destruct Hd as [Hd|Hd]; [|congruence]. apply Hd. unfold pages. apply elem_of_union_r, elem_of_dom. by eexists.
  - intros r va Hr Hva _. autorewrite with kst. by apply Hl.
  - intros r va Hr Hva. autorewrite with kst. unfold upd_view. case_decide as Hd.
    + destruct Hd as [-> Hv]. unfold uview. rewrite Hl by (apply Hr || vlia).
      destruct (has _ PTE_V) eqn:Hve; [|done]. do 3 f_equal.
      destruct (uv_back _ _ _ Hok _ _ _ Hp) as (_ & _ & _ & _ & <-).
      rewrite (leaf_vpn _ _ va (4096 * n)); [done|]. rewrite vpn_mul. lia.
    + apply uview_leaf; [apply Hl; [apply Hr|vlia]|]. intros Hv x Hx.
      destruct (uv_fwd _ _ _ Hok r va Hr Hva Hv) as [Ho _].
      apply (Hout (PTE2PA (leaf (get_mem s) r va))); [|intros E|done].
      * exact (pi_aligned _ _ _ _ _ (vo_pt _ _ _ (uv_vm _ _ _ Hok)) Ho).
      * rewrite E, Hp in Ho. injection Ho as -> ->. apply Hd. split; [done|lia].
Qed.

(** The view with [k] bytes from [dst] on replaced by the bytes of [src]. *)
Definition poke (F : Z → Z → option (Z * Z)) (root dst : Z) (src : list Z) (k : Z) :
    Z → Z → option (Z * Z) :=
  λ r va, if decide (r = root ∧ dst <= va < dst + k)
          then match F r va with
               | Some (f, _) => Some (f, u8 (src !!! Z.to_nat (va - dst)))
               | None => None
               end
          else F r va.

Lemma chunk_eq va len :
  0 <= va < 2 ^ 64 → chunk va (PGROUNDDOWN va) len = Z.min (4096 - va mod 4096) len.
Proof.
  intros Hva. unfold chunk. rewrite pgrounddown_eq by done. unfold PGSIZE.
  pose proof (Z.div_mod va 4096). rewrite Z.gtb_ltb.
  destruct (Z.ltb_spec len (4096 - (va - 4096 * (va / 4096)))); lia.
Qed.

Lemma off_eq va : 0 <= va < 2 ^ 64 → va - PGROUNDDOWN va = va mod 4096.
Proof. intros Hva. rewrite pgrounddown_eq by done. pose proof (Z.div_mod va 4096). lia. Qed.

(** Two addresses on one page. *)
Lemma same_page va va' :
  vpn va = vpn va' → va' mod 4096 = va mod 4096 + (va' - va).
Proof. unfold vpn. intros Hv. pose proof (Z.div_mod va 4096). pose proof (Z.div_mod va' 4096). lia. Qed.

Lemma in_page_vpn dst va n :
  0 <= n <= 4096 - dst mod 4096 → dst <= va < dst + n → vpn va = vpn dst.
Proof.
  unfold vpn. intros Hn Hva. pose proof (Z.div_mod dst 4096). pose proof (Z.mod_pos_bound dst 4096).
  symmetry. apply (Z.div_unique va 4096 _ (dst mod 4096 + (va - dst))); lia.
Qed.

(** Storing a run of bytes that stays on the page of [dst]. *)
Lemma ustep_poke s fl own root dst (src : list Z) n :
  uvm_ok s fl own → uroot s own root → 0 <= dst → uaccess (get_mem s) root dst = true →
  0 <= n <= 4096 - dst mod 4096 → n <= Z.of_nat (length src) →
  ustep s fl own
    (put_mem (write_bytes (get_mem s) (PTE2PA (leaf (get_mem s) root dst) + dst mod 4096)
                (take (Z.to_nat n) src)) s) fl own
    (poke (uview (get_mem s)) root dst src n).
Proof.
  intros Hok Hr Hd Ha Hn Hlen.
  destruct (uaccess_owner _ _ _ _ _ Hok Hr Hd Ha) as (Htop & Hv & Ho).
  set (p := PTE2PA _) in *. set (m' := write_bytes _ _ _).
  assert (Hl : Z.of_nat (length (take (Z.to_nat n) src)) = n) by (rewrite length_take; lia).
  pose proof (Z.mod_pos_bound dst 4096 ltac:(lia)).
  eapply ustep_view; [eapply (ustep_uwrite s fl own p root (vpn dst) m'); [done|done|]|].
  { intros x Hx. unfold m'. apply rd_write_bytes_out. rewrite Hl. unfold in_page in Hx. lia. }
  intros r va Hr' Hva. unfold upd_view, poke. destruct (decide (r = root)) as [->|Hne];
    [|by rewrite !decide_False by tauto].
  destruct (decide (vpn va = vpn dst)) as [E|Hne].
  - rewrite decide_True by lia. pose proof (same_page dst va (eq_sym E)) as Eo.
    unfold uview. rewrite (leaf_vpn _ _ va dst E), Hv. unfold m'. rewrite rd_write_bytes, Hl. fold p.
    destruct (decide (dst <= va < dst + n)).
    + rewrite !decide_True by lia. do 3 f_equal.
      replace (p + va mod 4096 - (p + dst mod 4096)) with (va - dst) by lia.
      rewrite !list_lookup_total_alt, lookup_take_lt by lia. done.
    + by rewrite !decide_False by lia.
  - rewrite decide_False by lia. rewrite decide_False; [done|].
    intros [_ Hb]. apply Hne. by apply (in_page_vpn dst va n).
Qed.

Lemma poke_join F root dst src n k r va :
  0 <= n → 0 <= k → n <= Z.of_nat (length src) →
  poke (poke F root dst src n) root (dst + n) (drop (Z.to_nat n) src) k r va =
  poke F root dst src (n + k) r va.
Proof.
  intros Hn Hk Hlen. unfold poke. destruct (decide (r = root)) as [->|]; [|by rewrite !decide_False by tauto].
  destruct (decide (dst + n <= va < dst + n + k)).
  - rewrite decide_True by lia. rewrite (decide_False (P := _ ∧ _ <= _ < dst + n)) by lia.
    rewrite decide_True by lia. case_match; [|done]. case_match. do 3 f_equal.
    rewrite !list_lookup_total_alt, lookup_drop. do 2 f_equal. lia.
  - rewrite decide_False by lia. destruct (decide (dst <= va < dst + n)).
    + by rewrite !decide_True by lia.
    + by rewrite !decide_False by lia.
Qed.

(** ** [copyout] *)

(** [walkaddr] of the page of [va], as the copy loops call it. *)
Lemma walkaddr_page s fl own root va :
  uvm_ok s fl own → uroot s own root → 0 <= va < 2 ^ 64 →
  walkaddr root (PGROUNDDOWN va) s =
    Done (if uaccess (get_mem s) root va then PTE2PA (leaf (get_mem s) root va) else 0) s ∧
  (uaccess (get_mem s) root va = true →
   0 < PTE2PA (leaf (get_mem s) root va) ∧ va < TRAPFRAME ∧
   u64 (PGROUNDDOWN va + PGSIZE) = va + (4096 - va mod 4096)).
Proof.
  intros Hok Hr Hva. pose proof (vpn_pgrounddown va Hva) as Hv. pose proof (off_eq va Hva).
  pose proof (Z.mod_pos_bound va 4096 ltac:(lia)).
  assert (0 <= PGROUNDDOWN va) by (rewrite pgrounddown_eq by done; apply Z.mul_nonneg_nonneg; [lia|apply Z.div_pos; lia]).
  rewrite (walkaddr_run s fl own) by (apply Hok || apply Hr || lia).
  rewrite (uaccess_vpn _ _ _ _ Hv), (leaf_vpn _ _ _ _ Hv). split; [done|]. intros Ha.
  destruct (uaccess_owner _ _ _ _ _ Hok Hr (proj1 Hva) Ha) as (Htop & _ & Ho).
  apply (pi_ok _ _ _ (vo_pt _ _ _ (uv_vm _ _ _ Hok))), page_ok_pos in Ho.
  split_and!; [lia|done|]. rewrite u64_small by vlia. vlia.
Qed.

Lemma uaccess_view m m' root va :
  0 <= va < TRAPFRAME →
  (match uview m' root va, uview m root va with
   | Some (f', _), Some (f, _) => f' = f | None, None => True | _, _ => False end) →
  uaccess m' root va = uaccess m root va.
Proof.
  intros Hva Hv. unfold uaccess, uview in *. rewrite (proj2 (Z.ltb_lt va MAXVA)) by vlia. cbn [andb].
  destruct (has (leaf m' root va) PTE_V), (has (leaf m root va) PTE_V); try done. cbn [andb].
  rewrite <- (has_U_flags (leaf m' root va)), <- (has_U_flags (leaf m root va)). by rewrite Hv.
Qed.

(** Writing bytes does not change which pages are accessible. *)
Lemma uaccess_poke s fl own s' fl' own' root dst src k r va :
  ustep s fl own s' fl' own' (poke (uview (get_mem s)) root dst src k) →
  uroot s own r → 0 <= va → uaccess (get_mem s') r va = uaccess (get_mem s) r va.
Proof.
  intros Hst Hr Hva. destruct (decide (va < TRAPFRAME)) as [Hlt|Hge].
  - apply uaccess_view; [lia|]. rewrite (us_view _ _ _ _ _ _ _ Hst) by (done || lia). unfold poke.
    case_decide; destruct (uview (get_mem s) r va) as [[f b]|]; done.
  - unfold uaccess. destruct (Z.ltb_spec va MAXVA); [|done].
    by rewrite (us_leaf _ _ _ _ _ _ _ Hst) by (apply Hr || (right; lia) || lia).
Qed.

Lemma copyout_loop_spec fuel s fl own root dst src len :
  uvm_ok s fl own → uroot s own root → 0 <= dst < 2 ^ 64 → 0 <= len <= Z.of_nat fuel →
  len <= Z.of_nat (length src) →
  ∃ r s' k, copyout_loop fuel root dst src len s = Done r s' ∧ 0 <= k <= len ∧
    ustep s fl own s' fl own (poke (uview (get_mem s)) root dst src k) ∧
    (∀ va, dst <= va < dst + k → uaccess (get_mem s) root va = true) ∧
    ((r = 0 ∧ k = len) ∨ (r = -1 ∧ k < len ∧ uaccess (get_mem s) root (dst + k) = false)).
Proof.
  revert s dst src len. induction fuel as [|fuel IH]; intros s dst src len Hok Hr Hd Hlen Hsrc;
    cbn [copyout_loop]; rewrite Z.gtb_ltb; (destruct (Z.ltb_spec 0 len) as [Hpos|Hz]; cbn [negb]; [|assert (len = 0) as -> by lia;
      exists 0, s, 0; split_and!; [done|lia|lia| |lia|by left];
      eapply ustep_view; [by apply ustep_refl|]; intros; unfold poke; by rewrite decide_False by lia]).
  { lia. }
  destruct (walkaddr_page s fl own root dst Hok Hr Hd) as [Hw Hacc]. run_by (exact Hw).
  destruct (uaccess (get_mem s) root dst) eqn:Ha.
  2: { exists (-1), s, 0. split_and!; [done|lia|lia| |lia|right; split_and!; [done|lia|by rewrite Z.add_0_r]].
       eapply ustep_view; [by apply ustep_refl|]. intros. unfold poke. by rewrite decide_False by lia. }
  destruct (Hacc eq_refl) as (Hpa & Htop & Hnext). rewrite (proj2 (Z.eqb_neq _ 0)) by lia.
  rewrite chunk_eq, off_eq, Hnext by done. set (n := Z.min (4096 - dst mod 4096) len).
  pose proof (Z.mod_pos_bound dst 4096 ltac:(lia)).
  pose proof (ustep_poke s fl own root dst src n Hok Hr ltac:(lia) Ha ltac:(lia) ltac:(lia)) as Hst.
  run_by (unfold put_bytes, modify; reflexivity).
  match type of Hst with ustep _ _ _ ?x _ _ _ => set (s1 := x) in * end.
  destruct (decide (n = len)) as [En|Hn].
  - replace (len - n) with 0 by lia. exists 0, s1, len. split_and!; [|lia|lia|by rewrite <- En| |by left].
    + by destruct fuel.
    + intros va Hva. rewrite (uaccess_vpn _ _ va dst) by (apply (in_page_vpn dst va n); lia). done.
  - assert (n = 4096 - dst mod 4096) as En by lia. rewrite <- En.
    destruct (IH s1 (dst + n) (drop (Z.to_nat n) src) (len - n)) as (r & s' & k & Hrun & Hk & Hst' & Hall & Hres).
    + apply Hst.
    + by apply (ustep_uroot _ _ _ _ _ _ _ _ Hst).
    + vlia.
    + lia.
    + rewrite length_drop. lia.
    + exists r, s', (n + k). split_and!; [done|lia|lia| | |].
      * eapply ustep_view; [by eapply ustep_trans|]. intros r' va Hr' Hva.
        rewrite <- poke_join by lia. unfold poke at 1 2. by rewrite (us_view _ _ _ _ _ _ _ Hst) by done.
      * intros va Hva. destruct (decide (va < dst + n)).
        -- rewrite (uaccess_vpn _ _ va dst) by (apply (in_page_vpn dst va n); lia). done.
        -- rewrite <- (uaccess_poke _ _ _ _ _ _ _ _ _ _ _ _ Hst Hr) by lia. apply Hall. lia.
      * rewrite (uaccess_poke _ _ _ _ _ _ _ _ _ _ _ _ Hst Hr) in Hres by lia.
        replace (dst + (n + k)) with (dst + n + k) by lia.
        destruct Hres as [[-> ->]|(-> & ? & ?)]; [left|right]; split_and!; (done || lia).
Qed.

Lemma copyout_run s fl own root dst src len :
  uvm_ok s fl own → uroot s own root → 0 <= dst < 2 ^ 64 → 0 <= len <= Z.of_nat (length src) →
  ∃ r s' k, copyout root dst src len s = Done r s' ∧ 0 <= k <= len ∧
    ustep s fl own s' fl own (poke (uview (get_mem s)) root dst src k) ∧
    (∀ va, dst <= va < dst + k → uaccess (get_mem s) root va = true) ∧
    ((r = 0 ∧ k = len) ∨ (r = -1 ∧ k < len ∧ uaccess (get_mem s) root (dst + k) = false)).
Proof. intros. apply copyout_loop_spec; (done || lia). Qed.

(** C17: [copyout] stores the bytes of [src] at [dst..dst+len-1] of the address
    space and returns 0 exactly when the user may access all of these
    addresses; otherwise it returns -1 having stored the bytes up to the
    first address [dst+k] that the user may not access.  It writes to pages
    that the user may access and to nothing else: every other byte of this
    and of every other address space, and of the kernel, is as before. *)
Theorem copyout_spec s fl own root dst src len :
  uvm_ok s fl own → uroot s own root → 0 <= dst < 2 ^ 64 → 0 <= len <= Z.of_nat (length src) →
  ∃ r s' k, copyout root dst src len s = Done r s' ∧ 0 <= k <= len ∧
    ustep s fl own s' fl own (poke (uview (get_mem s)) root dst src k) ∧
    (∀ va, dst <= va < dst + k → uaccess (get_mem s) root va = true) ∧
    ((r = 0 ∧ k = len) ∨ (r = -1 ∧ k < len ∧ uaccess (get_mem s) root (dst + k) = false)).
Proof. apply copyout_run. Qed.

(** ** [copyin] *)

(** [bs] are the bytes the user has at [src], [src + 1], ... *)
Definition uholds (m : mem) (root src : Z) (bs : list Z) : Prop :=
  ∀ i b, bs !! i = Some b → uread m root (src + Z.of_nat i) = Some b.

Lemma uholds_nil m root src : uholds m root src [].
Proof. by intros i b. Qed.

Lemma uholds_app m root src bs bs' :
  uholds m root src bs → uholds m root (src + Z.of_nat (length bs)) bs' →
  uholds m root src (bs ++ bs').
Proof.
  intros H1 H2 i b Hi. apply lookup_app_Some in Hi as [Hi|[Hl Hi]]; [by apply H1|].
  rewrite <- (H2 (i - length bs)%nat b Hi). f_equal. lia.
Qed.

(** The bytes read from the page of [src] are the user's. *)
Lemma uholds_page s fl own root src n :
  uvm_ok s fl own → uroot s own root → 0 <= src → uaccess (get_mem s) root src = true →
  0 <= n <= 4096 - src mod 4096 →
  uholds (get_mem s) root src
    (read_bytes (get_mem s) (PTE2PA (leaf (get_mem s) root src) + src mod 4096) (Z.to_nat n)).
Proof.
  intros Hok Hr Hs Ha Hn i b Hi. destruct (uaccess_owner _ _ _ _ _ Hok Hr Hs Ha) as (Htop & Hv & Ho).
  pose proof (lookup_lt_Some _ _ _ Hi) as Hlt. rewrite length_read_bytes in Hlt.
  rewrite lookup_read_bytes in Hi by done. injection Hi as <-.
  pose proof (in_page_vpn src (src + Z.of_nat i) n Hn ltac:(lia)) as Hvp.
  pose proof (same_page src (src + Z.of_nat i) (eq_sym Hvp)) as Eo.
  assert (src + Z.of_nat i < TRAPFRAME).
  { destruct (decide (src + Z.of_nat i < TRAPFRAME)); [done|]. exfalso.
    eapply (vpn_trapframe src (src + Z.of_nat i)); (done || lia). }
  rewrite uread_access by lia. rewrite (uaccess_vpn _ _ _ _ Hvp), Ha, (leaf_vpn _ _ _ _ Hvp).
  do 2 f_equal. lia.
Qed.

Lemma copyin_loop_spec fuel s fl own root src len :
  uvm_ok s fl own → uroot s own root → 0 <= src < 2 ^ 64 → 0 <= len <= Z.of_nat fuel →
  ∃ r bs, copyin_loop fuel root src len s = Done (r, bs) s ∧ uholds (get_mem s) root src bs ∧
    ((r = 0 ∧ Z.of_nat (length bs) = len) ∨
     (r = -1 ∧ Z.of_nat (length bs) < len ∧
      uaccess (get_mem s) root (src + Z.of_nat (length bs)) = false)).
Proof.
  intros Hok Hr. revert src len. induction fuel as [|fuel IH]; intros src len Hs Hlen;
    cbn [copyin_loop]; rewrite Z.gtb_ltb; (destruct (Z.ltb_spec 0 len) as [Hpos|Hz]; cbn [negb];
      [|exists 0, []; split_and!; [done|apply uholds_nil|left; simpl; lia]]).
  { lia. }
  destruct (walkaddr_page s fl own root src Hok Hr Hs) as [Hw Hacc]. run_by (exact Hw).
  destruct (uaccess (get_mem s) root src) eqn:Ha.
  2: { exists (-1), []. split_and!; [done|apply uholds_nil|right; simpl; split_and!; [done|lia|by rewrite Z.add_0_r]]. }
  destruct (Hacc eq_refl) as (Hpa & Htop & Hnext). rewrite (proj2 (Z.eqb_neq _ 0)) by lia.
  rewrite chunk_eq, off_eq, Hnext by done. set (n := Z.min (4096 - src mod 4096) len).
  pose proof (Z.mod_pos_bound src 4096 ltac:(lia)).
  pose proof (uholds_page s fl own root src n Hok Hr ltac:(lia) Ha ltac:(lia)) as Hh.
  run_by (unfold gets; reflexivity). set (bs := read_bytes _ _ _) in *.
  assert (Hbs : Z.of_nat (length bs) = n) by (unfold bs; rewrite length_read_bytes; lia).
  destruct (decide (n = len)) as [En|Hn].
  - exists 0, (bs ++ []). replace (len - n) with 0 by lia.
    split_and!; [by destruct fuel|by apply uholds_app, uholds_nil|left; rewrite app_nil_r; lia].
  - assert (n = 4096 - src mod 4096) as En by lia. rewrite <- En.
    destruct (IH (src + n) (len - n)) as (r & bs' & Hrun & Hh' & Hres); [vlia|lia|].
    run_by (exact Hrun). exists r, (bs ++ bs'). rewrite length_app.
    split_and!; [done|apply uholds_app; [done|by rewrite Hbs]|].
    replace (src + Z.of_nat (length bs + length bs')) with (src + n + Z.of_nat (length bs')) by lia.
    destruct Hres as [[-> ?]|(-> & ? & ?)]; [left|right]; split_and!; (done || lia).
Qed.

Lemma copyin_run s fl own root src len :
  uvm_ok s fl own → uroot s own root → 0 <= src < 2 ^ 64 → 0 <= len →
  ∃ r bs, copyin root src len s = Done (r, bs) s ∧ uholds (get_mem s) root src bs ∧
    ((r = 0 ∧ Z.of_nat (length bs) = len) ∨
     (r = -1 ∧ Z.of_nat (length bs) < len ∧
      uaccess (get_mem s) root (src + Z.of_nat (length bs)) = false)).
Proof. intros. by eapply copyin_loop_spec; [..|lia]. Qed.

(** C18: [copyin] changes nothing and returns the bytes the user has at
    [src..src+len-1] with 0 exactly when the user may access all of them;
    otherwise it returns -1 at the first address that the user may not
    access, and never reads a byte outside the user's pages. *)
Theorem copyin_spec s fl own root src len :
  uvm_ok s fl own → uroot s own root → 0 <= src < 2 ^ 64 → 0 <= len →
  ∃ r bs, copyin root src len s = Done (r, bs) s ∧ uholds (get_mem s) root src bs ∧
    ((r = 0 ∧ Z.of_nat (length bs) = len) ∨
     (r = -1 ∧ Z.of_nat (length bs) < len ∧
      uaccess (get_mem s) root (src + Z.of_nat (length bs)) = false)).
Proof. apply copyin_run. Qed.

(** ** [copyinstr] *)

Lemma copyinstr_chunk_spec n m p :
  let r := copyinstr_chunk n m p in
  r.1 = read_bytes m p (length r.1) ∧ (length r.1 <= n)%nat ∧
  (r.2 = true → ∃ cs, r.1 = cs ++ [0] ∧ Forall (λ b, b ≠ 0) cs) ∧
  (r.2 = false → length r.1 = n ∧ Forall (λ b, b ≠ 0) r.1).
Proof.
  revert p. induction n as [|n IH]; intros p; cbn; [by repeat split|].
  destruct (Z.eqb_spec (rd m p) 0) as [E|Hne].
  - cbn. rewrite E. split_and!; [done|lia| |done]. intros _. by exists [].
  - specialize (IH (p + 1)). cbn in IH. destruct (copyinstr_chunk n m (p + 1)) as [bs got]. cbn in *.
    destruct IH as (H1 & H2 & H3 & H4). split_and!; [by f_equal|lia| |].
    + intros Hg. destruct (H3 Hg) as (cs & -> & Hcs). exists (rd m p :: cs). split; [done|by constructor].
    + intros Hg. destruct (H4 Hg) as [<- Hf]. split; [done|by constructor].
Qed.

Lemma copyinstr_loop_spec fuel s fl own root src max :
  uvm_ok s fl own → uroot s own root → 0 <= src < 2 ^ 64 → 0 <= max <= Z.of_nat fuel →
  ∃ r bs, copyinstr_loop fuel root src max s = Done (r, bs) s ∧ uholds (get_mem s) root src bs ∧
    ((r = 0 ∧ Z.of_nat (length bs) <= max ∧ ∃ cs, bs = cs ++ [0] ∧ Forall (λ b, b ≠ 0) cs) ∨
     (r = -1 ∧ Forall (λ b, b ≠ 0) bs ∧
      (Z.of_nat (length bs) = max ∨
       Z.of_nat (length bs) < max ∧ uaccess (get_mem s) root (src + Z.of_nat (length bs)) = false))).
Proof.
  intros Hok Hr. revert src max. induction fuel as [|fuel IH]; intros src max Hs Hmax;
    cbn [copyinstr_loop]; rewrite Z.gtb_ltb; (destruct (Z.ltb_spec 0 max) as [Hpos|Hz]; cbn [negb];
      [|exists (-1), []; split_and!; [done|apply uholds_nil|right; split_and!; [done|done|left; simpl; lia]]]).
  { lia. }
  destruct (walkaddr_page s fl own root src Hok Hr Hs) as [Hw Hacc]. run_by (exact Hw).
  destruct (uaccess (get_mem s) root src) eqn:Ha.
  2: { exists (-1), []. split_and!; [done|apply uholds_nil|]. right. split_and!; [done|done|].
       right. split; [simpl; lia|by rewrite Z.add_0_r]. }
  destruct (Hacc eq_refl) as (Hpa & Htop & Hnext). rewrite (proj2 (Z.eqb_neq _ 0)) by lia.
  rewrite chunk_eq, off_eq, Hnext by done. set (n := Z.min (4096 - src mod 4096) max).
  pose proof (Z.mod_pos_bound src 4096 ltac:(lia)).
  run_by (unfold gets; reflexivity).
  destruct (copyinstr_chunk_spec (Z.to_nat n) (get_mem s) (PTE2PA (leaf (get_mem s) root src) + src mod 4096))
    as (H1 & H2 & H3 & H4).
  destruct (copyinstr_chunk _ _ _) as [bs got]; cbn [fst snd] in *.
  assert (Hh : uholds (get_mem s) root src bs).
  { rewrite H1, <- (Nat2Z.id (length bs)). apply (uholds_page s fl own); (done || lia). }
  destruct got.
  { exists 0, bs. split_and!; [done|done|]. left. split_and!; [done|lia|by apply H3]. }
  destruct (H4 eq_refl) as [Hbs Hnz]. destruct (decide (n = max)) as [En|Hn].
  - exists (-1), (bs ++ []). replace (max - n) with 0 by lia.
    split_and!; [by destruct fuel|by apply uholds_app, uholds_nil|].
    right. rewrite app_nil_r. split_and!; [done|done|left; lia].
  - assert (n = 4096 - src mod 4096) as En by lia. rewrite <- En.
    destruct (IH (src + n) (max - n)) as (r & bs' & Hrun & Hh' & Hres); [vlia|lia|].
    run_by (exact Hrun). exists r, (bs ++ bs'). rewrite length_app.
    split_and!; [done|apply uholds_app; [done|by rewrite Hbs, Z2Nat.id by lia]|].
    replace (src + Z.of_nat (length bs + length bs')) with (src + n + Z.of_nat (length bs')) by lia.
    destruct Hres as [(-> & Hl & cs & -> & Hcs)|(-> & Hf & Hd)]; [left|right].
    + split_and!; [done|lia|]. exists (bs ++ cs). split; [by rewrite app_assoc|by apply Forall_app].
    + split_and!; [done|by apply Forall_app|]. destruct Hd as [?|[? ?]]; [left; lia|right; split; [lia|done]].
Qed.

(** [copyinstr] returns 0 with a NUL-terminated string of at most [max]
    bytes, the NUL included, that is the string the user has at [src]; it
    returns -1 when the first [max] bytes hold no NUL or when the string runs
    into an address that the user may not access.  It changes nothing. *)
Theorem copyinstr_spec s fl own root src max :
  uvm_ok s fl own → uroot s own root → 0 <= src < 2 ^ 64 → 0 <= max →
  ∃ r bs, copyinstr root src max s = Done (r, bs) s ∧ uholds (get_mem s) root src bs ∧
    ((r = 0 ∧ Z.of_nat (length bs) <= max ∧ ∃ cs, bs = cs ++ [0] ∧ Forall (λ b, b ≠ 0) cs) ∨
     (r = -1 ∧ Forall (λ b, b ≠ 0) bs ∧
      (Z.of_nat (length bs) = max ∨
       Z.of_nat (length bs) < max ∧ uaccess (get_mem s) root (src + Z.of_nat (length bs)) = false))).
Proof. intros. by eapply copyinstr_loop_spec; [..|lia]. Qed.
End copy.

(** * Address spaces under changes outside of the memory

    [uvm_ok] and [ustep] look at the memory, the free list and the lock of the
    allocator only; the code between two copies changes the rest. *)

Section frame.
Context `{KernelImage}.
Implicit Types (s t : kst) (fl : list Z) (own : gmap Z tag).

Lemma vm_ok_state s t fl own :
  k_mem t = k_mem s → unlocked LKmem t → vm_ok s fl own → vm_ok t fl own.
Proof.
  intros Hm Hl [[H1 H2 H3] _ Hpt Hf Hlow]. unfold get_mem, get_freelist in *.
  split; [split|..]; unfold get_mem, get_freelist; by rewrite ?Hm.
Qed.

Lemma uroot_state s t own r : k_mem t = k_mem s → uroot t own r ↔ uroot s own r.
Proof. intros Hm. unfold uroot. by rewrite Hm. Qed.

Lemma uvm_ok_state s t fl own :
  k_mem t = k_mem s → unlocked LKmem t → uvm_ok s fl own → uvm_ok t fl own.
Proof.
  intros Hm Hl [Hv Hf Hb Hh]. unfold get_mem in *. split.
  - by eapply vm_ok_state.
  - intros root va Hr. unfold get_mem. rewrite Hm. apply Hf. by rewrite <- (uroot_state s t).
  - intros p root n Hp. unfold get_mem. rewrite Hm, (uroot_state s t) by done. by apply Hb.
  - intros root va Hr. unfold get_mem. rewrite Hm. apply Hh. by rewrite <- (uroot_state s t).
Qed.

(** A step in a context [t] that has the memory of [s] is a step from [s]. *)
Lemma ustep_state s t t' fl own fl' own' F :
  k_mem t = k_mem s → unlocked LKmem s →
  ustep t fl own t' fl' own' F → ustep s fl own (set_mem (k_mem t') s) fl' own' F.
Proof.
  intros Hm Hl [Hok (ms & Hk & ->) Hp Hr Hkern Hfr Hleaf Hview]. cbn [k_mem set_mem] in *.
  unfold get_mem in *. cbn [k_mem set_mem] in *. rewrite Hm in *. split; try done.
  - eapply uvm_ok_state; [| |exact Hok]; done.
  - by exists ms.
  - intros r va Hr'. apply Hview. by rewrite (uroot_state s t).
Qed.

Lemma mem_only_set s s' : mem_only s s' → s' = set_mem (k_mem s') s.
Proof. by intros (ms & _ & ->). Qed.

(** ** Storing bytes in several steps *)

Lemma poke_ext F G root dst (src src' : list Z) k r va :
  F r va = G r va → (∀ j, (j < Z.to_nat k)%nat → src !!! j = src' !!! j) →
  poke F root dst src k r va = poke G root dst src' k r va.
Proof.
  intros HF Hsrc. unfold poke. case_decide; [|done]. rewrite HF. case_match; [|done]. case_match.
  by rewrite Hsrc by lia.
Qed.

Lemma ustep_poke_0 s fl own root dst q : uvm_ok s fl own → ustep s fl own s fl own (poke (uview (get_mem s)) root dst q 0).
Proof.
  intros Hok. eapply ustep_view; [by apply ustep_refl|]. intros r va _ _. unfold poke. by rewrite decide_False by lia.
Qed.

Lemma ustep_poke_more s fl own s2 s3 root dst (src src2 : list Z) (t m : Z) :
  ustep s fl own s2 fl own (poke (uview (get_mem s)) root dst src t) →
  ustep s2 fl own s3 fl own (poke (uview (get_mem s2)) root (dst + t) src2 m) →
  0 <= t <= Z.of_nat (length src) → 0 <= m → (∀ j, (j < Z.to_nat m)%nat → src2 !!! j = drop (Z.to_nat t) src !!! j) →
  ustep s fl own s3 fl own (poke (uview (get_mem s)) root dst src (t + m)).
Proof.
  intros H1 H2 Ht Hm Hsrc. eapply ustep_view; [exact (ustep_trans _ _ _ _ _ _ _ _ _ _ _ H1 H2)|]. intros r va Hr Hva.
  rewrite <- poke_join by lia. apply poke_ext; [|exact Hsrc]. apply (us_view _ _ _ _ _ _ _ H1); done.
Qed.
End frame.
