(* ===== verification/Freewalk.v ===== *)
(** * Taking page tables down

    [freewalk], [uvmfree], [proc_pagetable] and [proc_freepagetable]: all
    pages of a table whose leaves are clear go back to the free list, and no
    other table is touched. *)

From S2P Require Import Prelude Memory Params State CString Sched Kalloc Vm PageTable VmMap Uvm UvmAlloc.

Section freewalk.
Context `{KernelImage}.
Implicit Types (s : kst) (fl : list Z) (own : gmap Z tag).

(** ** Subtrees *)

Lemma div_mod_512 pre i : 0 <= i < 512 → (pre * 512 + i) / 512 = pre ∧ (pre * 512 + i) mod 512 = i.
Proof.
  intros Hi. rewrite Z.add_comm, Z.div_add, Z.mod_add by lia.
  rewrite Z.div_small, Z.mod_small by lia. lia.
Qed.

(** The owner [t] is a page of the subtree of the page [TPt r l pre]. *)
Definition in_sub (r l pre : Z) (t : tag) : Prop :=
  match t with
  | TPt r' l' pre' => r' = r ∧ 0 <= l' <= l ∧ 0 <= pre' ∧ pre' / 512 ^ (l - l') = pre
  | _ => False
  end.

Lemma in_sub_self r l pre : 0 <= l → 0 <= pre → in_sub r l pre (TPt r l pre).
Proof. intros Hl Hp. split_and!; [done|lia|lia|lia|]. by rewrite Z.sub_diag, Z.div_1_r. Qed.

Lemma in_sub_child r l pre t :
  0 < l → 0 <= pre →
  in_sub r l pre t ↔ t = TPt r l pre ∨ ∃ i, 0 <= i < 512 ∧ in_sub r (l - 1) (pre * 512 + i) t.
Proof.
  intros Hl Hpre. destruct t as [r' l' pre'| | |]; simpl.
  2-4: split; [done|intros [?|(i & _ & [])]; congruence].
  destruct (decide (l' = l)) as [->|Hne].
  - rewrite Z.sub_diag, Z.pow_0_r, Z.div_1_r. split; [intros (-> & _ & _ & ->); by left|].
    intros [[= -> ->]|(i & _ & _ & ? & _)]; [|lia]. split_and!; (done || lia).
  - assert (Hpow : l' < l → pre' / 512 ^ (l - l') = pre' / 512 ^ (l - 1 - l') / 512).
    { intros Hlt. replace (l - l') with (l - 1 - l' + 1) by lia.
      rewrite Z.pow_add_r, Z.pow_1_r by lia. rewrite Z.div_div; [done| |lia].
      apply Z.pow_nonzero; lia. }
    split.
    + intros (-> & Hl' & Hp' & E). right. rewrite Hpow in E by lia.
      exists (pre' / 512 ^ (l - 1 - l') mod 512). split; [apply Z.mod_pos_bound; lia|].
      split_and!; [done|lia|lia|lia|]. pose proof (Z.div_mod (pre' / 512 ^ (l - 1 - l')) 512). lia.
    + intros [?|(i & Hi & -> & Hl' & Hp' & E)]; [congruence|]. split_and!; [done|lia|lia|lia|].
      rewrite Hpow, E by lia. apply div_mod_512. lia.
Qed.

Lemma in_sub_inj r l pre pre' t : in_sub r l pre t → in_sub r l pre' t → pre = pre'.
Proof. destruct t; [|done..]. intros (_ & _ & _ & <-) (_ & _ & _ & <-). done. Qed.

(** ** Clearing an entry whose child is gone *)

Lemma pt_inv_clear m own (ex : Z → Prop) p r l pre i :
  pt_inv m own ex → own !! p = Some (TPt r l pre) → 0 <= i < 512 →
  (∀ a, ex a → a = pte_addr p i) → (∀ q, own !! q ≠ Some (TPt r (l - 1) (pre * 512 + i))) →
  pt_inv (store64 m (pte_addr p i) 0) own no_ex.
Proof.
  intros Hi Hp Hib Hex Hno. pose proof (pi_aligned _ _ _ _ _ Hi Hp) as Hal.
  assert (Hld : ∀ q j, q mod 4096 = 0 → 0 <= j < 512 → (p ≠ q ∨ i ≠ j) →
    load64 (store64 m (pte_addr p i) 0) (pte_addr q j) = load64 m (pte_addr q j)).
  { intros q j Hq Hj Hne. apply load_store64_disjoint. destruct (pte_addr_disjoint p q i j); (done || lia). }
  split; [by apply Hi|by apply Hi|by apply Hi| |].
  - intros q r' l' pre' j Hq Hl' Hj _ Hv. pose proof (pi_aligned _ _ _ _ _ Hi Hq) as Hqal.
    destruct (decide (p = q ∧ i = j)) as [[<- <-]|Hne].
    { rewrite load_store64_same in Hv. change (u64 0) with 0 in Hv. rewrite has_0 in Hv. discriminate Hv. }
    rewrite Hld in Hv |- * by (done || lia). apply (pi_fwd _ _ _ Hi); [done|done|done| |done].
    intros He. apply Hex in He. apply Hne. apply pte_addr_inj in He as [-> ->]; done.
  - intros q r' l' pre' Hq Hl'. destruct (pi_back _ _ _ Hi q r' l' pre' Hq Hl') as (q' & Hq' & Hv).
    exists q'. split; [done|]. rewrite Hld; [done|exact (pi_aligned _ _ _ _ _ Hi Hq')|by apply Z.mod_pos_bound|].
    destruct (decide (p = q' ∧ i = pre' mod 512)) as [[-> ->]|]; [|lia]. exfalso.
    rewrite Hp in Hq'. injection Hq' as -> -> ->. apply (Hno q). rewrite Hq. do 2 f_equal; [lia|].
    pose proof (Z.div_mod pre' 512). lia.
Qed.

(** ** Removing a page without children *)

(** The entry above the page [TPt r l pre]. *)
Definition above own (r l pre a : Z) : Prop :=
  ∃ q, own !! q = Some (TPt r (l + 1) (pre / 512)) ∧ a = pte_addr q (pre mod 512).

Lemma pt_inv_remove m m' own p r l pre :
  pt_inv m own no_ex → own !! p = Some (TPt r l pre) →
  (∀ q j, 0 <= j < 512 → own !! q ≠ Some (TPt r (l - 1) (pre * 512 + j))) →
  (∀ x, ¬ in_page p x → rd m' x = rd m x) →
  pt_inv m' (delete p own) (above own r l pre).
Proof.
  intros Hi Hp Hno Hrd. pose proof (pi_aligned _ _ _ _ _ Hi Hp) as Hal.
  assert (Hld : ∀ q t j, own !! q = Some t → q ≠ p → 0 <= j < 512 →
    load64 m' (pte_addr q j) = load64 m (pte_addr q j)).
  { intros q t j Hq Hne Hj. apply load64_ext. intros x Hx. apply Hrd. intros Hx'.
    eapply (page_disjoint p q x x); [done|exact (pi_aligned _ _ _ _ _ Hi Hq)|congruence|done| |done].
    by eapply pte_addr_in_page. }
  split.
  - intros q t Hq. apply lookup_delete_Some in Hq as [_ Hq]. by apply (pi_ok _ _ _ Hi _ _ Hq).
  - intros q r' l' pre' Hq. apply lookup_delete_Some in Hq as [_ Hq]. by apply (pi_lvl _ _ _ Hi _ _ _ _ Hq).
  - intros q1 q2 r' l' pre' H1 H2. apply lookup_delete_Some in H1 as [_ H1], H2 as [_ H2].
    exact (pi_inj _ _ _ Hi _ _ _ _ _ H1 H2).
  - intros q r' l' pre' j Hq Hl' Hj Hex. apply lookup_delete_Some in Hq as [Hne Hq].
    rewrite (Hld q _ j Hq) by (done || congruence). intros Hv.
    destruct (pi_fwd _ _ _ Hi q r' l' pre' j Hq Hl' Hj (not_no_ex _) Hv) as [Hc Hf]. split; [|done].
    apply lookup_delete_Some. split; [|done]. intros E. rewrite <- E, Hp in Hc. injection Hc as -> -> ->.
    apply Hex. exists q. split.
    + rewrite Hq. do 2 f_equal; [lia|]. by rewrite (proj1 (div_mod_512 pre' j Hj)).
    + f_equal. by rewrite (proj2 (div_mod_512 pre' j Hj)).
  - intros q r' l' pre' Hq Hl'. apply lookup_delete_Some in Hq as [Hne Hq].
    destruct (pi_back _ _ _ Hi q r' l' pre' Hq Hl') as (q' & Hq' & Hv). exists q'.
    assert (q' ≠ p) as Hne'.
    { intros ->. rewrite Hp in Hq'. injection Hq' as -> -> ->.
      apply (Hno q (pre' mod 512)); [by apply Z.mod_pos_bound|]. rewrite Hq. do 2 f_equal; [lia|].
      pose proof (Z.div_mod pre' 512). lia. }
    split; [by apply lookup_delete_Some|]. rewrite (Hld q' _ _ Hq'); [done|done|by apply Z.mod_pos_bound].
Qed.

(** ** [freewalk] *)

Record vm_okx s fl own (ex : Z → Prop) : Prop := {
  vx_kmem : kmem_inv s fl;
  vx_lock : unlocked LKmem s;
  vx_pt : pt_inv (get_mem s) own ex;
  vx_free : ∀ p, p ∈ fl → own !! p = None;
  vx_low : low own;
}.

Lemma pages_free p fl own t :
  own !! p = Some t → pages (p :: fl) (delete p own) = pages fl own.
Proof.
  intros Hp. unfold pages. rewrite dom_delete_L. apply set_eq. intros q.
  assert (p ∈ dom own) by (apply elem_of_dom; by eexists).
  rewrite !elem_of_union, !elem_of_list_to_set, elem_of_cons, elem_of_difference, elem_of_singleton.
  destruct (decide (q = p)) as [->|]; tauto.
Qed.

Lemma kfree_pt s fl own p r l pre :
  vm_ok s fl own → own !! p = Some (TPt r l pre) →
  (∀ q j, 0 <= j < 512 → own !! q ≠ Some (TPt r (l - 1) (pre * 512 + j))) →
  ∃ s', kfree p s = Done tt s' ∧ mem_only s s' ∧
    vm_okx s' (p :: fl) (delete p own) (above own r l pre) ∧
    (∀ x, ¬ in_page p x → rd (get_mem s') x = rd (get_mem s) x).
Proof.
  intros [Hk Hlk Hi Hf Hlo] Hp Hno. pose proof (pi_ok _ _ _ Hi _ _ Hp) as Hpok.
  assert (Hpf : p ∉ fl) by (intros Hpf; rewrite (Hf _ Hpf) in Hp; discriminate Hp).
  eexists. split; [by apply kfree_run|].
  assert (Hout : ∀ x, ¬ in_page p x → rd (kfree_mem (get_mem s) (get_freelist s) p) x = rd (get_mem s) x).
  { intros x Hx. unfold kfree_mem, in_page in *.
    rewrite rd_store64_out by lia. rewrite rd_memset_out by (unfold PGSIZE; lia). done. }
  split_and!; [apply mem_only_put_both| |done]. split; [by apply kfree_inv|done| | |].
  3: { intros q r' l' pre' Hq. apply lookup_delete_Some in Hq as [_ Hq]. exact (Hlo _ _ _ _ Hq). }
  - by apply (pt_inv_remove (get_mem s)).
  - intros q [->|Hq]%elem_of_cons; [by apply lookup_delete_eq|].
    apply lookup_delete_None. right. by apply Hf.
Qed.

(** The level-0 entries of the subtree are all invalid. *)
Definition clean m own (r l pre : Z) : Prop :=
  ∀ q pre0 i, own !! q = Some (TPt r 0 pre0) → in_sub r l pre (TPt r 0 pre0) → 0 <= i < 512 →
    has (load64 m (pte_addr q i)) PTE_V = false.

(** What [freewalk] of the page [TPt r l pre] does. *)
Record freed r l pre s fl own s' fl' own' : Prop := {
  fw_mem : mem_only s s';
  fw_ok : vm_okx s' fl' own' (above own r l pre);
  fw_own : ∀ q t, own' !! q = Some t ↔ own !! q = Some t ∧ ¬ in_sub r l pre t;
  fw_pages : pages fl' own' = pages fl own;
  fw_frame : ∀ q x, q mod 4096 = 0 → q ∉ fl → (∀ t, own !! q = Some t → ¬ in_sub r l pre t) →
    in_page q x → rd (get_mem s') x = rd (get_mem s) x;
}.

(** The state of the loop over the entries of [p] before entry [k]. *)
Record walking p r l pre s fl own (k : Z) s' fl' own' : Prop := {
  wk_mem : mem_only s s';
  wk_ok : vm_ok s' fl' own';
  wk_own : ∀ q t, own' !! q = Some t ↔
    own !! q = Some t ∧ ¬ ∃ j, 0 <= j < k ∧ in_sub r (l - 1) (pre * 512 + j) t;
  wk_pages : pages fl' own' = pages fl own;
  wk_frame : ∀ q x, q mod 4096 = 0 → q ∉ fl → q ≠ p →
    (∀ t j, own !! q = Some t → 0 <= j < k → ¬ in_sub r (l - 1) (pre * 512 + j) t) →
    in_page q x → rd (get_mem s') x = rd (get_mem s) x;
  wk_entry : ∀ j, k <= j < 512 → load64 (get_mem s') (pte_addr p j) = load64 (get_mem s) (pte_addr p j);
}.

Lemma walking_start p r l pre s fl own :
  vm_ok s fl own → walking p r l pre s fl own 0 s fl own.
Proof.
  intros Hok. split; try done; [apply mem_only_refl|].
  intros q t. split; [|by intros [? _]]. intros Hq. split; [done|]. intros (j & ? & _). lia.
Qed.

Lemma walking_p p r l pre s fl own k s' fl' own' :
  0 < l → walking p r l pre s fl own k s' fl' own' →
  own !! p = Some (TPt r l pre) → own' !! p = Some (TPt r l pre).
Proof.
  intros Hl Hw Hp. apply (wk_own _ _ _ _ _ _ _ _ _ _ _ Hw). split; [done|].
  intros (j & _ & Hs). destruct Hs as (_ & ? & _). lia.
Qed.

(** An invalid entry has no child below it. *)
Lemma no_child m own p r l pre i q :
  pt_inv m own no_ex → own !! p = Some (TPt r l pre) → 0 <= i < 512 →
  has (load64 m (pte_addr p i)) PTE_V = false → own !! q ≠ Some (TPt r (l - 1) (pre * 512 + i)).
Proof.
  intros Hi Hp Hib Hv Hq. destruct (pi_lvl _ _ _ Hi _ _ _ _ Hp) as (Hlb & _).
  destruct (pi_back _ _ _ Hi _ _ _ _ Hq ltac:(lia)) as (q' & Hq' & Hv').
  destruct (div_mod_512 pre i Hib) as [E1 E2]. rewrite E1 in Hq'. rewrite E2 in Hv'.
  replace (l - 1 + 1) with l in Hq' by lia.
  rewrite (pi_inj _ _ _ Hi _ _ _ _ _ Hq' Hp) in Hv'. rewrite Hv' in Hv.
  rewrite has_pte_of_V in Hv; [discriminate Hv|]. by eapply pi_ok.
Qed.

(** No page is left in a subtree whose top is gone. *)
Lemma no_subtree m own r l pre :
  pt_inv m own no_ex → 0 <= l <= 2 → 0 <= pre → (∀ q, own !! q ≠ Some (TPt r l pre)) →
  ∀ q t, own !! q = Some t → ¬ in_sub r l pre t.
Proof.
  intros Hi Hl Hpre Htop q t Hq Hs. destruct t as [r' l' pre'| | |]; [|done..].
  destruct Hs as (-> & Hl' & Hp' & E).
  remember (Z.to_nat (l - l')) as d eqn:Ed. revert q l' pre' Hq Hl' Hp' E Ed.
  induction d as [|d IH]; intros q l' pre' Hq Hl' Hp' E Ed.
  - assert (l' = l) as -> by lia. rewrite Z.sub_diag, Z.div_1_r in E. subst pre'. by eapply Htop.
  - destruct (pi_back _ _ _ Hi _ _ _ _ Hq ltac:(lia)) as (q' & Hq' & _).
    eapply (IH q' (l' + 1) (pre' / 512)); [done|lia|by apply Z.div_pos| |lia].
    rewrite <- E, Z.div_div by (try apply Z.pow_pos_nonneg; lia). f_equal.
    replace (l - l') with (1 + (l - (l' + 1))) by lia. rewrite Z.pow_add_r, Z.pow_1_r by lia. done.
Qed.

Lemma walking_not_free p r l pre s fl own k s' fl' own' q :
  walking p r l pre s fl own k s' fl' own' → q ∉ fl →
  (∀ t j, own !! q = Some t → 0 <= j < k → ¬ in_sub r (l - 1) (pre * 512 + j) t) → q ∉ fl'.
Proof.
  intros Hw Hf Hns Hq. assert (Hpg : q ∈ pages fl own).
  { rewrite <- (wk_pages _ _ _ _ _ _ _ _ _ _ _ Hw). unfold pages. set_solver. }
  unfold pages in Hpg. rewrite elem_of_union, elem_of_list_to_set, elem_of_dom in Hpg.
  destruct Hpg as [?|[t Ht]]; [done|].
  assert (own' !! q = Some t) as Ht'.
  { apply (wk_own _ _ _ _ _ _ _ _ _ _ _ Hw). split; [done|]. intros (j & Hj & Hs). by eapply Hns. }
  rewrite (vo_free _ _ _ (wk_ok _ _ _ _ _ _ _ _ _ _ _ Hw) _ Hq) in Ht'. discriminate Ht'.
Qed.

(** Pages that are still owned have their original contents. *)
Lemma walking_clean p r l pre s fl own k s' fl' own' :
  0 < l → vm_ok s fl own → own !! p = Some (TPt r l pre) →
  walking p r l pre s fl own k s' fl' own' → 0 <= k < 512 → 0 <= pre →
  clean (get_mem s) own r l pre → clean (get_mem s') own' r (l - 1) (pre * 512 + k).
Proof.
  intros Hl Hok Hp Hw Hk Hpre Hc q pre0 i Hq Hs Hi.
  apply (wk_own _ _ _ _ _ _ _ _ _ _ _ Hw) in Hq as [Hq Hns].
  rewrite <- (Hc q pre0 i Hq); [|apply in_sub_child; [done|done|right; by exists k]|done].
  f_equal. symmetry. apply load64_ext. intros x Hx. symmetry.
  apply (wk_frame _ _ _ _ _ _ _ _ _ _ _ Hw q); [exact (pi_aligned _ _ _ _ _ (vo_pt _ _ _ Hok) Hq)| | | |].
  - intros Hf. rewrite (vo_free _ _ _ Hok _ Hf) in Hq. discriminate Hq.
  - intros ->. rewrite Hp in Hq. injection Hq. lia.
  - intros t j Ht Hj Hs'. apply Hns. exists j. split; [done|]. congruence.
  - by eapply pte_addr_in_page.
Qed.

(** An entry that is not valid is skipped. *)
Lemma walking_skip p r l pre s fl own k s' fl' own' :
  0 < l <= 2 → 0 <= pre → own !! p = Some (TPt r l pre) → 0 <= k < 512 →
  walking p r l pre s fl own k s' fl' own' →
  has (load64 (get_mem s') (pte_addr p k)) PTE_V = false →
  walking p r l pre s fl own (k + 1) s' fl' own'.
Proof.
  intros Hl Hpre Hp Hk Hw Hv. pose proof (walking_p _ _ _ _ _ _ _ _ _ _ _ (proj1 Hl) Hw Hp) as Hp'.
  pose proof (vo_pt _ _ _ (wk_ok _ _ _ _ _ _ _ _ _ _ _ Hw)) as Hpt.
  split; try apply Hw.
  - intros q t. rewrite (wk_own _ _ _ _ _ _ _ _ _ _ _ Hw). split; intros [Hq Hn]; (split; [done|]).
    + intros (j & Hj & Hs). destruct (decide (j = k)) as [->|]; [|apply Hn; exists j; split; [lia|done]].
      eapply (no_subtree _ _ r (l - 1) (pre * 512 + k) Hpt); [lia|lia| | |exact Hs].
      * intros q'. by eapply no_child.
      * apply (wk_own _ _ _ _ _ _ _ _ _ _ _ Hw). by split.
    + intros (j & Hj & Hs). apply Hn. exists j. split; [lia|done].
  - intros q x Hq Hf Hne Hns Hx. apply (wk_frame _ _ _ _ _ _ _ _ _ _ _ Hw q); try done.
    intros t j Ht Hj. apply Hns; [done|lia].
  - intros j Hj. apply Hw. lia.
Qed.

(** The subtree below a valid entry is freed and the entry is cleared. *)
Lemma walking_free p r l pre s fl own k s1 fl1 own1 s2 fl2 own2 :
  0 < l <= 2 → 0 <= pre → vm_ok s fl own → own !! p = Some (TPt r l pre) → 0 <= k < 512 →
  walking p r l pre s fl own k s1 fl1 own1 →
  freed r (l - 1) (pre * 512 + k) s1 fl1 own1 s2 fl2 own2 →
  walking p r l pre s fl own (k + 1) (put_mem (store64 (get_mem s2) (pte_addr p k) 0) s2) fl2 own2.
Proof.
  intros Hl Hpre Hok Hp Hk Hw Hf. pose proof (walking_p _ _ _ _ _ _ _ _ _ _ _ (proj1 Hl) Hw Hp) as Hp1.
  pose proof (vo_pt _ _ _ (wk_ok _ _ _ _ _ _ _ _ _ _ _ Hw)) as Hpt1.
  pose proof (pi_aligned _ _ _ _ _ Hpt1 Hp1) as Hal.
  assert (Hpns : ∀ pre', ¬ in_sub r (l - 1) pre' (TPt r l pre)) by (intros pre' (_ & ? & _); lia).
  assert (Hp2 : own2 !! p = Some (TPt r l pre)) by (by apply (fw_own _ _ _ _ _ _ _ _ _ Hf)).
  destruct (fw_ok _ _ _ _ _ _ _ _ _ Hf) as [Hk2 Hlk2 Hpt2 Hfr2 Hlo2].
  assert (Hpf2 : p ∉ fl2) by (intros Hx; rewrite (Hfr2 _ Hx) in Hp2; discriminate Hp2).
  assert (Hst : ∀ q x, q mod 4096 = 0 → q ≠ p → in_page q x →
    rd (store64 (get_mem s2) (pte_addr p k) 0) x = rd (get_mem s2) x).
  { intros q x Hq Hne Hx. apply rd_store64_out.
    pose proof (page_bytes_aligned p q x Hal Hq (not_eq_sym Hne) Hx). unfold pte_addr. lia. }
  split.
  - eapply mem_only_trans; [apply Hw|]. eapply mem_only_trans; [apply Hf|]. apply mem_only_put_mem.
  - split; [|done| |done|done].
    + eapply (kmem_inv_frame s2); [reflexivity| |exact Hk2]. intros q x Hq Hx. apply (Hst q); [|set_solver|done].
      by apply (Forall_elem _ _ _ (ki_ok _ _ Hk2)) in Hq as [? _].
    + autorewrite with kst. eapply pt_inv_clear; [exact Hpt2|exact Hp2|done| |].
      * intros a (q & Hq & ->). destruct (div_mod_512 pre k Hk) as [E1 E2]. rewrite E1 in Hq. rewrite E2.
        replace (l - 1 + 1) with l in Hq by lia. by rewrite (pi_inj _ _ _ Hpt1 _ _ _ _ _ Hq Hp1).
      * intros q Hq. apply (fw_own _ _ _ _ _ _ _ _ _ Hf) in Hq as [_ Hq]. apply Hq, in_sub_self; lia.
  - intros q t. rewrite (fw_own _ _ _ _ _ _ _ _ _ Hf), (wk_own _ _ _ _ _ _ _ _ _ _ _ Hw). split.
    + intros [[Hq Hn] Hs]. split; [done|]. intros (j & Hj & Hj').
      destruct (decide (j = k)) as [->|]; [done|]. apply Hn. exists j. split; [lia|done].
    + intros [Hq Hn]. split; [split; [done|]|].
      * intros (j & Hj & Hj'). apply Hn. exists j. split; [lia|done].
      * intros Hs. apply Hn. exists k. split; [lia|done].
  - rewrite (fw_pages _ _ _ _ _ _ _ _ _ Hf). apply Hw.
  - intros q x Hq Hqf Hne Hns Hx. autorewrite with kst. rewrite (Hst q) by done.
    assert (Hns' : ∀ t j, own !! q = Some t → 0 <= j < k → ¬ in_sub r (l - 1) (pre * 512 + j) t).
    { intros t j Ht Hj. apply Hns; [done|lia]. }
    rewrite (fw_frame _ _ _ _ _ _ _ _ _ Hf q); [by apply (wk_frame _ _ _ _ _ _ _ _ _ _ _ Hw q)|done| | |done].
    + by eapply walking_not_free.
    + intros t Ht. apply (wk_own _ _ _ _ _ _ _ _ _ _ _ Hw) in Ht as [Ht _]. apply Hns; [done|lia].
  - intros j Hj. autorewrite with kst. rewrite load_store64_disjoint by (unfold pte_addr; lia).
    rewrite <- (wk_entry _ _ _ _ _ _ _ _ _ _ _ Hw j) by lia. apply load64_ext. intros x Hx.
    apply (fw_frame _ _ _ _ _ _ _ _ _ Hf p); [done| | |by eapply pte_addr_in_page; [|exact Hx]; lia].
    + intros Hx'. rewrite (vo_free _ _ _ (wk_ok _ _ _ _ _ _ _ _ _ _ _ Hw) _ Hx') in Hp1. discriminate Hp1.
    + intros t Ht. rewrite Hp1 in Ht. injection Ht as <-. apply Hpns.
Qed.

(** The last step: the page itself, once its subtrees are gone. *)
Lemma freed_finish p r l pre s fl own s1 fl1 own1 :
  0 <= l <= 2 → 0 <= pre → vm_ok s fl own → own !! p = Some (TPt r l pre) →
  mem_only s s1 → vm_ok s1 fl1 own1 → pages fl1 own1 = pages fl own →
  (∀ q t, own1 !! q = Some t ↔ own !! q = Some t ∧ (in_sub r l pre t → t = TPt r l pre)) →
  (∀ q x, q mod 4096 = 0 → q ∉ fl → (∀ t, own !! q = Some t → ¬ in_sub r l pre t) →
     in_page q x → rd (get_mem s1) x = rd (get_mem s) x) →
  ∃ s' fl' own', kfree p s1 = Done tt s' ∧ freed r l pre s fl own s' fl' own'.
Proof.
  intros Hl Hpre Hok Hp Hmo Hok1 Hpg Hown Hfr.
  assert (Hp1 : own1 !! p = Some (TPt r l pre)) by (by apply Hown).
  assert (Hup : ∀ q l', l < l' → ∀ pre', own1 !! q = Some (TPt r l' pre') ↔ own !! q = Some (TPt r l' pre')).
  { intros q l' Hl' pre'. rewrite Hown. split; [by intros [? _]|]. intros Hq. split; [done|].
    intros (_ & ? & _). lia. }
  destruct (kfree_pt s1 fl1 own1 p r l pre Hok1 Hp1) as (s' & Hk & Hmo' & Hokx & Hrd).
  { intros q j Hj Hq. apply Hown in Hq as [Hq Hs]. destruct (pi_lvl _ _ _ (vo_pt _ _ _ Hok) _ _ _ _ Hq) as [? _].
    assert (in_sub r l pre (TPt r (l - 1) (pre * 512 + j))) as Hin.
    { apply in_sub_child; [lia|done|]. right. exists j. split; [done|]. apply in_sub_self; lia. }
    specialize (Hs Hin). injection Hs. lia. }
  exists s', (p :: fl1), (delete p own1). split; [done|].
  pose proof (vo_pt _ _ _ Hok) as Hpt. split.
  - by eapply mem_only_trans.
  - destruct Hokx as [? ? Hx ? ?]. split; try done.
    destruct Hx as [X1 X2 X3 X4 X5]. split; [exact X1|exact X2|exact X3| |exact X5].
    intros q r' l' pre' i Hq Hl' Hi Hex. apply X4; try done. intros (q' & Hq' & E). apply Hex.
    exists q'. split; [|done]. apply Hup; [lia|done].
  - intros q t. rewrite lookup_delete_Some, Hown. split.
    + intros [Hne [Hq Hs]]. split; [done|]. intros Hin. specialize (Hs Hin). subst t. apply Hne.
      exact (pi_inj _ _ _ Hpt _ _ _ _ _ Hp Hq).
    + intros [Hq Hs]. split; [|by split]. intros <-. apply Hs. rewrite Hp in Hq. injection Hq as <-.
      apply in_sub_self; lia.
  - by rewrite (pages_free _ _ _ _ Hp1).
  - intros q x Hq Hf Hns Hx. rewrite Hrd; [by apply (Hfr q)|]. intros Hx'.
    eapply (page_disjoint p q x x); [exact (pi_aligned _ _ _ _ _ Hpt Hp)|done| |done|done|done].
    intros ->. apply (Hns _ Hp), in_sub_self; lia.
Qed.

Lemma pte_V_only e :
  has e PTE_V = true → PTE_FLAGS e = PTE_V → Z.land e (Z.lor (Z.lor PTE_R PTE_W) PTE_X) = 0.
Proof.
  intros _ Hf. change (Z.lor (Z.lor PTE_R PTE_W) PTE_X) with (Z.land 0x3FF 14).
  rewrite Z.land_assoc. change (Z.land e 0x3FF) with (PTE_FLAGS e). by rewrite Hf.
Qed.

Lemma freewalk_run (l : nat) s fl own p r pre :
  (l <= 2)%nat → vm_ok s fl own → own !! p = Some (TPt r (Z.of_nat l) pre) →
  clean (get_mem s) own r (Z.of_nat l) pre →
  ∃ s' fl' own', freewalk (S l) p s = Done tt s' ∧ freed r (Z.of_nat l) pre s fl own s' fl' own'.
Proof.
  revert s fl own p pre. induction l as [|l IH]; intros s fl own p pre Hl Hok Hp Hc; cbn [freewalk].
  all: destruct (pi_lvl _ _ _ (vo_pt _ _ _ Hok) _ _ _ _ Hp) as (Hlb & Hpre & _).
  - match goal with |- context [for_each 512 0 ?b] => set (body := b) end.
    destruct (for_each_inv (λ _ s', s' = s) 512 0 body s eq_refl) as (s1 & Hrun & ->).
    { intros i s1 Hi ->. exists s. split; [|done]. unfold body. run_by (unfold ld, gets; reflexivity).
      by rewrite (Hc p pre i) by (done || apply in_sub_self; lia). }
    run_by (exact Hrun). eapply freed_finish; [done|done|exact Hok|exact Hp|apply mem_only_refl|done|done| |done].
    intros q t. split; [|by intros [? _]]. intros Hq. split; [done|].
    destruct t as [r' l' pre'| | |]; [|done..]. intros (-> & Hl' & _ & E).
    assert (l' = 0) as -> by lia. rewrite Z.sub_diag, Z.div_1_r in E. by subst pre'.
  - set (L := Z.of_nat (S l)) in *. assert (EL : L - 1 = Z.of_nat l) by lia.
    match goal with |- context [for_each 512 0 ?b] => set (body := b) end.
    destruct (for_each_inv (λ k s', ∃ fl' own', walking p r L pre s fl own k s' fl' own') 512 0 body s)
      as (s1 & Hrun & fl1 & own1 & Hw).
    { exists fl, own. by apply walking_start. }
    { intros k s1 Hk (fl1 & own1 & Hw). change (Z.of_nat 512) with 512 in Hk. unfold body.
      pose proof (walking_p _ _ L _ _ _ _ _ _ _ _ ltac:(lia) Hw Hp) as Hp1.
      pose proof (wk_ok _ _ _ _ _ _ _ _ _ _ _ Hw) as Hok1.
      run_by (unfold ld, gets; reflexivity).
      destruct (has (load64 (get_mem s1) (pte_addr p k)) PTE_V) eqn:Hv; cbn [andb].
      - destruct (pi_fwd _ _ _ (vo_pt _ _ _ Hok1) p r L pre k Hp1 ltac:(lia) ltac:(lia) (not_no_ex _) Hv) as [Hch Hfl].
        rewrite (proj2 (Z.eqb_eq _ _) (pte_V_only _ Hv Hfl)). rewrite EL in Hch.
        destruct (IH s1 fl1 own1 _ _ ltac:(lia) Hok1 Hch) as (s2 & fl2 & own2 & Hf2 & Hfreed).
        { rewrite <- EL. eapply walking_clean; [|exact Hok|exact Hp|exact Hw|lia|lia|exact Hc]. lia. }
        eexists. split; [run_by (exact Hf2); unfold st, modify; reflexivity|].
        exists fl2, own2. rewrite <- EL in Hfreed. eapply walking_free; try done; lia.
      - exists s1. split; [done|]. exists fl1, own1. apply walking_skip; try done; lia. }
    run_by (exact Hrun). change (0 + Z.of_nat 512) with 512 in Hw.
    eapply freed_finish; [exact Hlb|done|exact Hok|exact Hp|apply Hw|apply Hw|apply Hw| |].
    + intros q t. rewrite (wk_own _ _ _ _ _ _ _ _ _ _ _ Hw), in_sub_child by lia. split; intros [Hq Hs]; (split; [done|]).
      * intros [?|?]; [done|]. by destruct Hs.
      * intros (j & Hj & Hin). specialize (Hs (or_intror (ex_intro _ j (conj Hj Hin)))). subst t.
        destruct Hin as (_ & ? & _). lia.
    + intros q x Hq Hf Hns Hx. apply (wk_frame _ _ _ _ _ _ _ _ _ _ _ Hw q); try done.
      * intros ->. apply (Hns _ Hp), in_sub_self; lia.
      * intros t j Ht Hj Hin. apply (Hns _ Ht). apply in_sub_child; [lia|done|]. right. by exists j.
Qed.

(** ** [uvmfree] *)

(** The owner [t] is a page of the address space or of the tables of [root]. *)
Definition belongs (root : Z) (t : tag) : Prop :=
  match t with
  | TPt r _ _ | TUser r _ => r = root
  | _ => False
  end.

(** What taking down the address space of [root] does: all its pages are
    free, nothing else changes. *)
Record uremove (root : Z) s fl own s' fl' own' : Prop := {
  ur_ok : uvm_ok s' fl' own';
  ur_mem : mem_only s s';
  ur_gone : ∀ q t, own' !! q = Some t → ¬ belongs root t;
  ur_roots : ∀ r, is_root own' r ↔ is_root own r ∧ r ≠ root;
  ur_kern : ∀ q, own !! q = Some TKernel → own' !! q = Some TKernel;
  ur_pages : pages fl' own' = pages fl own;
  ur_frame : ∀ p x, p mod 4096 = 0 → (p ∉ pages fl own) ∨ own !! p = Some TKernel →
    in_page p x → rd (get_mem s') x = rd (get_mem s) x;
  ur_leaf : ∀ r va, is_root own r → r ≠ root → 0 <= va < MAXVA →
    r = m_kpagetable (k_mem s) ∨ TRAPFRAME <= va →
    leaf (get_mem s') r va = leaf (get_mem s) r va;
  ur_view : ∀ r va, uroot s own r → r ≠ root → 0 <= va < TRAPFRAME →
    uview (get_mem s') r va = uview (get_mem s) r va;
}.

Lemma root_subtree m own r l pre q :
  pt_inv m own no_ex → own !! q = Some (TPt r l pre) → in_sub r 2 0 (TPt r l pre).
Proof.
  intros Hi Hq. destruct (pi_lvl _ _ _ Hi _ _ _ _ Hq) as (Hl & Hp & _).
  split_and!; [done|lia|lia|done|].
  remember (Z.to_nat (2 - l)) as d eqn:Ed. revert q l pre Hq Hl Hp Ed.
  induction d as [|d IH]; intros q l pre Hq Hl Hp Ed.
  - assert (l = 2) as -> by lia. destruct (pi_lvl _ _ _ Hi _ _ _ _ Hq) as (_ & _ & Hz).
    destruct (Hz eq_refl) as [_ ->]. done.
  - destruct (pi_back _ _ _ Hi _ _ _ _ Hq ltac:(lia)) as (q' & Hq' & _).
    rewrite <- (IH q' (l + 1) (pre / 512) Hq'); [|lia|by apply Z.div_pos|lia].
    rewrite Z.div_div by (try apply Z.pow_pos_nonneg; lia). f_equal.
    replace (2 - l) with (1 + (2 - (l + 1))) by lia. rewrite Z.pow_add_r, Z.pow_1_r by lia. done.
Qed.

(** Without valid leaves every level-0 entry is invalid. *)
Lemma leaves_clean s fl own root :
  vm_ok s fl own → is_root own root →
  (∀ va, 0 <= va < MAXVA → has (leaf (get_mem s) root va) PTE_V = false) →
  clean (get_mem s) own root 2 0.
Proof.
  intros Hok Hr Hl q pre0 i Hq Hs Hi.
  destruct (pi_lvl _ _ _ (vo_pt _ _ _ Hok) _ _ _ _ Hq) as (_ & Hp & _).
  pose proof (vo_low _ _ _ Hok _ _ _ _ Hq) as Hlow. change (2 ^ (12 + 9 * (0 + 1))) with (4096 * 512) in Hlow.
  set (va := (pre0 * 512 + i) * 4096). assert (Hva : 0 <= va < MAXVA) by (unfold va; vlia).
  assert (Hv : vpn va = pre0 * 512 + i) by (unfold vpn, va; by apply Z.div_mul).
  rewrite vpn_prefix in Hv. pose proof (px_bound 0 va ltac:(lia)).
  assert (prefix 0 va = pre0 ∧ PX 0 va = i) as [E1 E2] by lia.
  rewrite <- (Hl va Hva), <- (entry_leaf s fl own root va (pte_addr q i) Hok Hr Hva); [done|].
  exists q. by rewrite E1, E2.
Qed.

Lemma freewalk_root s fl own root :
  uvm_ok s fl own → uroot s own root →
  (∀ va, 0 <= va < MAXVA → has (leaf (get_mem s) root va) PTE_V = false) →
  ∃ s' fl' own', freewalk 3 root s = Done tt s' ∧ uremove root s fl own s' fl' own'.
Proof.
  intros Hok Hr Hl. pose proof (uv_vm _ _ _ Hok) as Hvm. pose proof (vo_pt _ _ _ Hvm) as Hpt.
  destruct (freewalk_run 2 s fl own root root 0) as (s' & fl' & own' & Hrun & Hf);
    [lia|done|apply Hr|by eapply leaves_clean; [|apply Hr|]|].
  exists s', fl', own'. split; [done|]. change (Z.of_nat 2) with 2 in Hf.
  assert (Hnu : ∀ q n, own !! q ≠ Some (TUser root n)).
  { intros q n Hq. destruct (uv_back _ _ _ Hok _ _ _ Hq) as (_ & ? & ? & Hv & _). rewrite Hl in Hv by vlia. done. }
  assert (Hown : ∀ q t, own' !! q = Some t ↔ own !! q = Some t ∧ ¬ belongs root t).
  { intros q t. rewrite (fw_own _ _ _ _ _ _ _ _ _ Hf). split; intros [Hq Hs]; (split; [done|]); intros Hb; apply Hs.
    - destruct t as [r l pre|r n| |]; try done; simpl in Hb; subst r; [by eapply root_subtree|by destruct (Hnu q n)].
    - destruct t; try done. by destruct Hb. }
  assert (Hroots : ∀ r, is_root own' r ↔ is_root own r ∧ r ≠ root).
  { intros r. unfold is_root. by rewrite Hown. }
  assert (Hsame : ∀ q x t, own !! q = Some t → ¬ belongs root t → in_page q x → rd (get_mem s') x = rd (get_mem s) x).
  { intros q x t Hq Hb Hx. apply (fw_frame _ _ _ _ _ _ _ _ _ Hf q); [exact (pi_aligned _ _ _ _ _ Hpt Hq)| | |done].
    - intros Hfl. rewrite (vo_free _ _ _ Hvm _ Hfl) in Hq. discriminate Hq.
    - intros t' Ht' Hs. assert (t' = t) as -> by congruence. apply Hb. destruct t; try done. by destruct Hs. }
  destruct (fw_ok _ _ _ _ _ _ _ _ _ Hf) as [Hk' Hlk' Hpt' Hfr' Hlo'].
  assert (Hvm' : vm_ok s' fl' own').
  { split; try done. destruct Hpt' as [X1 X2 X3 X4 X5]. split; try done.
    intros p r l pre i Hp Hl' Hi _. apply X4; try done. intros (q & Hq & _).
    destruct (pi_lvl _ _ _ Hpt _ _ _ _ Hq). lia. }
  assert (Hleaf : ∀ r va, is_root own r → r ≠ root → 0 <= va < MAXVA → leaf (get_mem s') r va = leaf (get_mem s) r va).
  { intros r va Hr' Hne Hva. symmetry. eapply (leaf_frame (get_mem s') (get_mem s) own');
      [apply Hvm'|by apply Hroots|done|].
    intros q x (r' & l & pre & Hq) Hx. apply Hown in Hq as [Hq Hb]. symmetry. by eapply Hsame. }
  pose proof (fw_mem _ _ _ _ _ _ _ _ _ Hf) as Hmo.
  assert (Hu : ∀ r, uroot s' own' r ↔ uroot s own r ∧ r ≠ root).
  { intros r. rewrite (uroot_mem_only _ _ _ _ Hmo). unfold uroot. rewrite Hroots. tauto. }
  split; try done.
  - split; [done| | |].
    + intros r va [Hr' Hne]%Hu Hva. rewrite Hleaf by (apply Hr' || done || vlia). intros Hv.
      destruct (uv_fwd _ _ _ Hok r va Hr' Hva Hv) as [Ho Hfl]. split; [|done]. by apply Hown.
    + intros q r n Hq. apply Hown in Hq as [Hq Hne]. destruct (uv_back _ _ _ Hok _ _ _ Hq) as (Hr' & ? & ? & ? & ?).
      rewrite Hleaf by (apply Hr' || done || vlia). split_and!; try done. by apply Hu.
    + intros r va [Hr' Hne]%Hu Hva. rewrite Hleaf by (apply Hr' || done || vlia). by apply (uv_high _ _ _ Hok).
  - intros q t Hq. apply Hown in Hq as [_ Hn]. exact Hn.
  - intros q Hq. apply Hown. split; [done|]. by intros [].
  - apply Hf.
  - intros p x Hp Hd Hx. apply (fw_frame _ _ _ _ _ _ _ _ _ Hf p); [done| | |done].
    + by destruct (frame_other _ _ _ _ Hvm Hp Hd) as (_ & ? & _).
    + intros t Ht Hs. destruct t; try done. by eapply (frame_other _ _ _ _ Hvm Hp Hd), ex_intro, ex_intro, ex_intro.
  - intros r va Hr' Hne Hva _. by apply Hleaf.
  - intros r va Hr' Hne Hva. apply uview_leaf; [apply Hleaf; [apply Hr'|done|vlia]|].
    intros Hv x Hx. destruct (uv_fwd _ _ _ Hok r va Hr' Hva Hv) as [Ho _]. by eapply Hsame.
Qed.

Lemma ustep_uremove root s fl own s1 fl1 own1 F s' fl' own' :
  ustep s fl own s1 fl1 own1 F → (∀ r va, r ≠ root → F r va = uview (get_mem s) r va) →
  uremove root s1 fl1 own1 s' fl' own' → uremove root s fl own s' fl' own'.
Proof.
  intros Hs HF Hu. pose proof (us_mem _ _ _ _ _ _ _ Hs) as Hmo. split.
  - apply Hu.
  - eapply mem_only_trans; [apply Hs|apply Hu].
  - apply Hu.
  - intros r. rewrite (ur_roots _ _ _ _ _ _ _ Hu), (us_roots _ _ _ _ _ _ _ Hs). done.
  - intros q Hq. by apply Hu, Hs.
  - rewrite (ur_pages _ _ _ _ _ _ _ Hu). apply Hs.
  - intros p x Hp Hd Hx. rewrite (ur_frame _ _ _ _ _ _ _ Hu p); [by apply (us_frame _ _ _ _ _ _ _ Hs p)|done| |done].
    rewrite (us_pages _ _ _ _ _ _ _ Hs). destruct Hd as [?|?]; [by left|right; by apply Hs].
  - intros r va Hr Hne Hva Hd. rewrite (ur_leaf _ _ _ _ _ _ _ Hu); [by apply Hs|by apply Hs|done|done|].
    destruct Hmo as (ms & Hk & ->). simpl. by rewrite Hk.
  - intros r va Hr Hne Hva. rewrite (ur_view _ _ _ _ _ _ _ Hu);
      [rewrite (us_view _ _ _ _ _ _ _ Hs) by done; by apply HF|by apply (ustep_uroot _ _ _ _ _ _ _ _ Hs)|done|done].
Qed.

Lemma uvmfree_run s fl own root sz :
  uvm_ok s fl own → uroot s own root → 0 <= sz <= TRAPFRAME →
  mapped (get_mem s) root 0 (npg sz) → unmapped (get_mem s) root (npg sz) (vpn TRAPFRAME) →
  (∀ va, TRAPFRAME <= va < MAXVA → has (leaf (get_mem s) root va) PTE_V = false) →
  ∃ s' fl' own', uvmfree root sz s = Done tt s' ∧ uremove root s fl own s' fl' own'.
Proof.
  intros Hok Hr Hsz Hmap Hun Hhigh. unfold uvmfree.
  assert (∃ s1 fl1 own1, when (sz >? 0) (uvmunmap root 0 (PGROUNDUP sz / PGSIZE) true) s = Done tt s1 ∧
    ustep s fl own s1 fl1 own1 (upd_view (uview (get_mem s)) root 0 (npg sz) (λ _, None)))
    as (s1 & fl1 & own1 & Hrun & Hst).
  { rewrite pgroundup_npg by vlia. unfold PGSIZE. rewrite Z.mul_comm, Z.div_mul by lia.
    rewrite Z.gtb_ltb. pose proof (npg_bounds sz). destruct (Z.ltb_spec 0 sz) as [Hpos|Hz].
    - destruct (uvmunmap_run s fl own root 0 (npg sz)) as (s1 & fl1 & own1 & Hrun & Hst);
        change (vpn 0) with 0 in *; try done; try lia; [pose proof (npg_trapframe sz); lia|].
      by exists s1, fl1, own1.
    - exists s, fl, own. split; [done|]. eapply ustep_view; [by apply ustep_refl|].
      intros. by rewrite upd_view_ge by lia. }
  run_by (exact Hrun).
  destruct (freewalk_root s1 fl1 own1 root) as (s' & fl' & own' & Hfw & Hrem).
  - apply Hst.
  - by apply (ustep_uroot _ _ _ _ _ _ _ _ Hst).
  - intros va Hva. destruct (decide (va < TRAPFRAME)) as [Hlt|Hge].
    + apply uview_None. rewrite (us_view _ _ _ _ _ _ _ Hst) by (done || lia). unfold upd_view.
      assert (0 <= vpn va < vpn TRAPFRAME) as Hvp.
      { split; [apply Z.div_pos; lia|]. apply Z.div_lt_upper_bound; [lia|].
        by change (4096 * vpn TRAPFRAME) with TRAPFRAME. }
      case_decide; [done|]. apply Hun; lia.
    + rewrite (us_leaf _ _ _ _ _ _ _ Hst) by (apply Hr || (right; lia) || lia). apply Hhigh. lia.
  - exists s', fl', own'. split; [done|]. eapply ustep_uremove; [exact Hst| |done].
    intros r va Hne. unfold upd_view. by rewrite decide_False by tauto.
Qed.

End freewalk.
