(* ===== verification/VmExample.v ===== *)
(** * A concrete address space

    A state with one process page that holds the bytes [104, 105, 0, ...], a second,
    empty page table, and eight free pages.  It satisfies the invariants of
    the virtual-memory files; the theorems of those files are applied to it. *)

From S2P Require Import Prelude Memory Params State CString Sched Kalloc Vm PageTable VmMap Uvm UvmAlloc UvmCopy Freewalk.

Module VmExample.

Definition R : Z := 0x80100000.
Definition L1 : Z := 0x80101000.
Definition L0 : Z := 0x80102000.
Definition U : Z := 0x80103000.
Definition R2 : Z := 0x80104000.
Definition fl : list Z :=
  [0x80105000; 0x80106000; 0x80107000; 0x80108000; 0x80109000; 0x8010a000; 0x8010b000; 0x8010c000].

Definition own_list : list (Z * tag) :=
  [(R, TPt R 2 0); (L1, TPt R 1 0); (L0, TPt R 0 0); (U, TUser R 0); (R2, TPt R2 2 0)].
Definition own : gmap Z tag := list_to_map own_list.

Fixpoint link (l : list Z) (m : mem) : mem :=
  match l with
  | x :: ((y :: _) as l') => link l' (store64 m x y)
  | _ => m
  end.

Definition m : mem := Eval vm_compute in
  write_bytes
    (link fl
       (store64 (store64 (store64 ∅ R (pte_of L1 PTE_V)) L1 (pte_of L0 PTE_V))
          L0 (pte_of U (Z.lor uperm PTE_V)))) U [104; 105].

Definition s : kst := put_freelist 0x80105000 (put_mem m boot_state).

(** ** The invariants *)

Lemma own_cases p t : own !! p = Some t → (p, t) ∈ own_list.
Proof. apply elem_of_list_to_map_2. Qed.

Ltac own_cases H :=
  apply own_cases in H; unfold own_list in H;
  repeat (apply elem_of_cons in H; destruct H as [H|H]); [..|by apply elem_of_nil in H];
  inversion H; clear H; subst.

Definition expected (p i : Z) : Z :=
  if (p =? R) && (i =? 0) then pte_of L1 PTE_V
  else if (p =? L1) && (i =? 0) then pte_of L0 PTE_V
  else if (p =? L0) && (i =? 0) then pte_of U (Z.lor uperm PTE_V)
  else 0.

Lemma expected_0 p i : i ≠ 0 → expected p i = 0.
Proof. intros Hi. unfold expected. by rewrite (proj2 (Z.eqb_neq i 0) Hi), !andb_false_r. Qed.

Lemma loads p i :
  p ∈ [R; L1; L0; R2] → 0 <= i < 512 → load64 m (pte_addr p i) = expected p i.
Proof.
  intros Hp Hi.
  assert (Hall : Forall (λ p, Forall (λ i, load64 m (pte_addr p i) = expected p i) (seqZ 0 512)) [R; L1; L0; R2]).
  { apply (bool_decide_eq_true_1 _). vm_compute. reflexivity. }
  apply (Forall_elem _ _ _ (Forall_elem _ _ _ Hall Hp)). apply elem_of_seqZ. lia.
Qed.

Lemma kmem_ok : kmem_inv s fl.
Proof.
  split.
  - by vm_compute.
  - apply (bool_decide_eq_true_1 _). by vm_compute.
  - unfold fl, page_ok. repeat constructor; by vm_compute.
Qed.

Lemma own_pt p r l pre : own !! p = Some (TPt r l pre) → p ∈ [R; L1; L0; R2].
Proof. intros Hp. own_cases Hp; (discriminate || set_solver). Qed.

Lemma pt_ok : pt_inv m own no_ex.
Proof.
  split.
  - intros p t Hp. unfold page_ok. own_cases Hp; repeat split; by vm_compute.
  - intros p r l pre Hp. own_cases Hp; (discriminate || lia).
  - intros p q r l pre Hp Hq. own_cases Hp; own_cases Hq; (discriminate || congruence).
  - intros p r l pre i Hp Hl Hi _. rewrite (loads p i) by (done || by eapply own_pt).
    destruct (decide (i = 0)) as [->|]; [|by rewrite expected_0, has_0].
    own_cases Hp; try lia; by vm_compute.
  - intros p r l pre Hp Hl. own_cases Hp; try lia; [exists R|exists L1]; by split; vm_compute.
Qed.

Lemma vm_is_ok : vm_ok s fl own.
Proof.
  split.
  - apply kmem_ok.
  - by apply unlocked_nil.
  - apply pt_ok.
  - assert (Forall (λ p, own !! p = None) fl) as Hf; [|intros p Hp; exact (Forall_elem _ _ _ Hf Hp)].
    apply (bool_decide_eq_true_1 _). by vm_compute.
  - intros p r l pre Hp. own_cases Hp; by vm_compute.
Qed.

Lemma leaf_R va : 0 <= va < MAXVA →
  leaf m R va = if decide (vpn va = 0) then pte_of U (Z.lor uperm PTE_V) else 0.
Proof.
  intros Hva. rewrite px_digits by done. unfold leaf. cbn [leaf_from].
  pose proof (px_bound 2 va ltac:(lia)). pose proof (px_bound 1 va ltac:(lia)). pose proof (px_bound 0 va ltac:(lia)).
  change (Z.of_nat 2) with 2. change (Z.of_nat 1) with 1.
  rewrite (loads R) by (done || set_solver).
  destruct (decide (PX 2 va = 0)) as [->|]; [|rewrite expected_0, has_0, decide_False by lia; done].
  change (expected R 0) with (pte_of L1 PTE_V).
  rewrite has_pte_of_V, pte2pa_pte_of_V by (by repeat split; vm_compute).
  rewrite (loads L1) by (done || set_solver).
  destruct (decide (PX 1 va = 0)) as [->|]; [|rewrite expected_0, has_0, decide_False by lia; done].
  change (expected L1 0) with (pte_of L0 PTE_V).
  rewrite has_pte_of_V, pte2pa_pte_of_V by (by repeat split; vm_compute).
  rewrite (loads L0) by (done || set_solver).
  destruct (decide (PX 0 va = 0)) as [->|]; [done|rewrite expected_0, decide_False by lia; done].
Qed.

Lemma leaf_R2 va : leaf m R2 va = 0.
Proof.
  unfold leaf. cbn [leaf_from]. change (Z.of_nat 2) with 2.
  rewrite (loads R2) by (set_solver || by apply px_bound). done.
Qed.

Lemma roots r : is_root own r → r = R ∨ r = R2.
Proof. intros Hr. unfold is_root in Hr. own_cases Hr; auto; discriminate. Qed.

Lemma is_ok : uvm_ok s fl own.
Proof.
  split.
  - apply vm_is_ok.
  - intros r va [Hr _] Hva. change (get_mem s) with m. destruct (roots r Hr) as [->| ->].
    + rewrite leaf_R by vlia. case_decide as Hv; [|by rewrite has_0]. intros _. by rewrite Hv.
    + rewrite leaf_R2, has_0. done.
  - intros p r n Hp. change (get_mem s) with m. own_cases Hp; try discriminate.
    rewrite leaf_R by done. by repeat split; vm_compute.
  - intros r va [Hr _] Hva. change (get_mem s) with m. destruct (roots r Hr) as [->| ->].
    + rewrite leaf_R by vlia. rewrite decide_False; [by rewrite has_0|].
      intros Hv. apply (vpn_trapframe 0 va); (done || vlia).
    + by rewrite leaf_R2, has_0.
Qed.

Lemma uroot_R : uroot s own R.
Proof. by split. Qed.
Lemma uroot_R2 : uroot s own R2.
Proof. by split. Qed.

Lemma view_R va : 0 <= va < TRAPFRAME →
  uview m R va = if decide (vpn va = 0) then Some (Z.lor uperm PTE_V, rd m (U + va)) else None.
Proof.
  intros Hva. unfold uview. rewrite leaf_R by vlia. case_decide as Hv; [|by rewrite has_0].
  assert (va mod 4096 = va) as -> by (unfold vpn in Hv; pose proof (Z.div_mod va 4096); lia). done.
Qed.

Lemma view_R2 va : uview m R2 va = None.
Proof. unfold uview. by rewrite leaf_R2, has_0. Qed.

Lemma mapped_R : mapped m R 0 1.
Proof. intros va Hva Hv. rewrite view_R by done. rewrite decide_True by lia. by eexists. Qed.

Lemma unmapped_R : unmapped m R 1 (vpn TRAPFRAME).
Proof. intros va Hva Hv. rewrite view_R by done. by rewrite decide_False by lia. Qed.

Lemma unmapped_R2 lo hi : unmapped m R2 lo hi.
Proof. intros va _ _. apply view_R2. Qed.

(** ** The theorems at this state *)

Lemma mappages_spec_witness :
  ∃ r s' fl' own' k, mappages R 4096 4096 0x80003000 PTE_R s = Done r s' ∧ vm_ok s' fl' own' ∧
    maps_range own R 4096 k 0x80003000 (Z.lor PTE_R PTE_V) m (get_mem s').
Proof.
  destruct (mappages_spec s fl own R 4096 4096 0x80003000 PTE_R vm_is_ok (proj1 uroot_R))
    as (r & s' & fl' & own' & k & Hrun & Hok & _ & Hm & _).
  - lia.
  - lia.
  - vlia.
  - lia.
  - lia.
  - by vm_compute.
  - intros x Hx Hv. change (get_mem s) with m. rewrite leaf_R by done.
    rewrite decide_False; [by rewrite has_0|]. change (vpn 4096) with 1 in Hv. lia.
  - exists r, s', fl', own', k. exact (conj Hrun (conj Hok Hm)).
Defined.

Lemma mappages_remap_witness :
  mappages R 0 4096 0x80003000 PTE_R s = Panic "mappages: remap" s.
Proof.
  apply (mappages_remap s fl own R 0 4096); [apply vm_is_ok|apply uroot_R|lia|lia|vlia|].
  change (get_mem s) with m. by rewrite leaf_R.
Defined.


Lemma uvmdealloc_spec_witness :
  ∃ s' fl' own', uvmdealloc R 100 0 s = Done 0 s' ∧
    ustep s fl own s' fl' own' (upd_view (uview m) R 0 1 (λ _, None)).
Proof. exact (uvmdealloc_spec s fl own R 100 0 is_ok uroot_R ltac:(lia) ltac:(vlia) mapped_R). Defined.


Lemma uaccess_R va : 0 <= va < 4096 → uaccess m R va = true.
Proof.
  intros Hva. unfold uaccess. rewrite leaf_R by vlia.
  rewrite decide_True by (apply Z.div_small; lia). rewrite (proj2 (Z.ltb_lt va MAXVA)) by vlia. done.
Qed.

Lemma copyout_spec_witness :
  ∃ s', copyout R 10 [1; 2; 3] 3 s = Done 0 s' ∧
    ustep s fl own s' fl own (poke (uview m) R 10 [1; 2; 3] 3).
Proof.
  destruct (copyout_spec s fl own R 10 [1; 2; 3] 3 is_ok uroot_R ltac:(lia) ltac:(simpl; lia))
    as (r & s' & k & Hrun & Hk & Hst & _ & Hres).
  destruct Hres as [[-> ->]|(_ & Hlt & Ha)]; [exists s'; exact (conj Hrun Hst)|].
  change (get_mem s) with m in Ha. rewrite uaccess_R in Ha by lia. discriminate Ha.
Defined.

Lemma copyin_spec_witness :
  ∃ bs, copyin R 0 2 s = Done (0, bs) s ∧ uholds m R 0 bs ∧ Z.of_nat (length bs) = 2.
Proof.
  destruct (copyin_spec s fl own R 0 2 is_ok uroot_R ltac:(lia) ltac:(lia)) as (r & bs & Hrun & Hh & Hres).
  destruct Hres as [[-> Hl]|(_ & Hlt & Ha)]; [exists bs; exact (conj Hrun (conj Hh Hl))|].
  change (get_mem s) with m in Ha. rewrite uaccess_R in Ha by lia. discriminate Ha.
Defined.

Lemma copyinstr_spec_witness :
  ∃ r bs, copyinstr R 0 16 s = Done (r, bs) s ∧ uholds m R 0 bs.
Proof.
  destruct (copyinstr_spec s fl own R 0 16 is_ok uroot_R ltac:(lia) ltac:(lia)) as (r & bs & Hrun & Hh & _).
  exists r, bs. exact (conj Hrun Hh).
Defined.

End VmExample.
