(* ===== verification/Block.v ===== *)
(** * Fields of a byte array

    Disk blocks and kernel buffers are lists of bytes; a C structure in one is
    a group of little-endian fields at fixed offsets. *)

From S2P Require Import Prelude Memory.

Implicit Types (d : list Z).

(** The bytes [off, off+n) of [d]. *)
Definition slice d (off n : nat) : list Z := take n (drop off d).

(** [d] with the bytes from [off] on replaced by [l]. *)
Definition splice d (off : nat) (l : list Z) : list Z := take off d ++ l ++ drop (off + length l) d.

Definition get16 d (off : nat) : Z := le_dec (slice d off 2).
Definition get32 d (off : nat) : Z := le_dec (slice d off 4).
Definition put16 d (off : nat) (v : Z) : list Z := splice d off (le_enc 2 v).
Definition put32 d (off : nat) (v : Z) : list Z := splice d off (le_enc 4 v).

Lemma length_splice d off l : (off + length l <= length d)%nat → length (splice d off l) = length d.
Proof. intros H. unfold splice. rewrite !length_app, length_take, length_drop. lia. Qed.

Lemma length_slice d off n : (off + n <= length d)%nat → length (slice d off n) = n.
Proof. intros H. unfold slice. rewrite length_take, length_drop. lia. Qed.

Lemma lookup_splice d off l i :
  (off + length l <= length d)%nat →
  splice d off l !! i =
    if decide (off <= i < off + length l)%nat then l !! (i - off)%nat else d !! i.
Proof.
  intros H. unfold splice. case_decide as Hd.
  - rewrite lookup_app_r by (rewrite length_take; lia). rewrite length_take, Nat.min_l by lia.
    by rewrite lookup_app_l by lia.
  - destruct (decide (i < off)%nat) as [Hlt|Hge].
    + rewrite lookup_app_l by (rewrite length_take; lia). by rewrite lookup_take_lt by lia.
    + rewrite lookup_app_r by (rewrite length_take; lia). rewrite length_take, Nat.min_l by lia.
      rewrite lookup_app_r by lia. rewrite lookup_drop. f_equal. lia.
Qed.

Lemma lookup_slice d off n i : (i < n)%nat → slice d off n !! i = d !! (off + i)%nat.
Proof. intros H. unfold slice. by rewrite lookup_take_lt, lookup_drop by lia. Qed.

Lemma slice_ext d d' off n :
  (∀ i, (off <= i < off + n)%nat → d !! i = d' !! i) → slice d off n = slice d' off n.
Proof.
  intros H. apply list_eq. intros i. destruct (decide (i < n)%nat) as [Hi|Hi].
  - rewrite !lookup_slice by done. apply H. lia.
  - unfold slice. by rewrite !lookup_take_ge by lia.
Qed.

Lemma slice_splice_same d off l :
  (off + length l <= length d)%nat → slice (splice d off l) off (length l) = l.
Proof.
  intros H. unfold slice, splice. rewrite drop_app_length' by (rewrite length_take; lia).
  by rewrite take_app_length.
Qed.

Lemma slice_splice_other d off l off' n :
  (off + length l <= length d)%nat → (off' + n <= off ∨ off + length l <= off')%nat →
  slice (splice d off l) off' n = slice d off' n.
Proof.
  intros H1 H2. apply slice_ext. intros i Hi. rewrite lookup_splice by done. rewrite decide_False by lia. done.
Qed.

Lemma splice_whole d l : length l = length d → splice d 0 l = l.
Proof. intros H. unfold splice. rewrite take_0, Nat.add_0_l, H, drop_all, app_nil_r. done. Qed.

Lemma splice_twice d off l l' :
  (off + length l <= length d)%nat → length l' = length l → splice (splice d off l) off l' = splice d off l'.
Proof.
  intros H1 H2. apply list_eq. intros i.
  rewrite !lookup_splice by (rewrite ?length_splice by done; lia). case_decide; [done|].
  rewrite decide_False by lia. done.
Qed.

Lemma length_put16 d off v : (off + 2 <= length d)%nat → length (put16 d off v) = length d.
Proof. intros. apply length_splice. by rewrite length_le_enc. Qed.
Lemma length_put32 d off v : (off + 4 <= length d)%nat → length (put32 d off v) = length d.
Proof. intros. apply length_splice. by rewrite length_le_enc. Qed.

Lemma get_put16 d off v : (off + 2 <= length d)%nat → get16 (put16 d off v) off = u16 v.
Proof.
  intros H. unfold get16, put16. pose proof (length_le_enc 2 v) as Hl.
  rewrite <- Hl at 2. rewrite slice_splice_same by lia. apply le_dec_enc.
Qed.
Lemma get_put32 d off v : (off + 4 <= length d)%nat → get32 (put32 d off v) off = u32 v.
Proof.
  intros H. unfold get32, put32. pose proof (length_le_enc 4 v) as Hl.
  rewrite <- Hl at 2. rewrite slice_splice_same by lia. apply le_dec_enc.
Qed.
Lemma get_put32_other d off off' v :
  (off + 4 <= length d)%nat → (off' + 4 <= off ∨ off + 4 <= off')%nat →
  get32 (put32 d off v) off' = get32 d off'.
Proof. intros. unfold get32, put32. rewrite slice_splice_other; rewrite ?length_le_enc; done. Qed.

Lemma splice_byte d off l : Forall is_byte d → Forall is_byte l → Forall is_byte (splice d off l).
Proof. intros Hd Hl. unfold splice. repeat apply Forall_app_2; auto using Forall_take, Forall_drop. Qed.
Lemma slice_byte d off n : Forall is_byte d → Forall is_byte (slice d off n).
Proof. intros. by apply Forall_take, Forall_drop. Qed.
Lemma get32_bound d off : Forall is_byte d → 0 <= get32 d off < 2 ^ 32.
Proof.
  intros Hd. unfold get32. pose proof (le_dec_bound (slice d off 4) (slice_byte _ _ _ Hd)) as Hb.
  assert (length (slice d off 4) <= 4)%nat by (unfold slice; rewrite length_take; lia).
  split; [lia|]. eapply Z.lt_le_trans; [apply Hb|]. change (2 ^ 32) with (256 ^ 4). apply Z.pow_le_mono_r; lia.
Qed.
