(* ===== verification/Bio.v ===== *)
(** * kernel/bio.c: the buffer cache

    Buffers are named by their index in [bcache.buf]; index [NBUF] is
    [bcache.head].  The list of buffers in the order of use is threaded
    through the fields [prev] and [next] as in the code.  The disk driver is
    an interface: what bio.c relies on is that [virtio_disk_rw] transfers one
    block between the buffer and the disk. *)

From S2P Require Import Prelude Memory Params State Sched.

(** ** Buffers and the disk in the state *)

Definition HEAD : nat := NBUF.

Definition get_buf (s : kst) (i : nat) : buf := k_bufs s !!! i.
Definition put_buf (i : nat) (b : buf) (s : kst) : kst := set_bufs (<[i := b]> (k_bufs s)) s.
Definition upd_buf (i : nat) (f : buf → buf) : K unit :=
  modify (λ s, put_buf i (f (get_buf s i)) s).
Definition buf_get {A} (i : nat) (f : buf → A) : K A := gets (λ s, f (get_buf s i)).

(** The sleep lock of buffer [i]. *)
Definition buf_sl (i : nat) (s : kst) : sleeplock := b_lock (get_buf s i).
Definition put_buf_sl (i : nat) (v : sleeplock) (s : kst) : kst :=
  put_buf i (set_b_lock v (get_buf s i)) s.

(** A block of the disk; blocks never written read as zeros. *)
Definition dblock (s : kst) (bno : Z) : list Z := default zero_block (d_blocks (k_disk s) !! bno).

(** The effect of a completed request of the disk driver. *)
Definition disk_effect (b : nat) (write : bool) (s : kst) : kst :=
  let bno := b_blockno (get_buf s b) in
  if write then
    set_disk (mk_dstate (<[bno := b_data (get_buf s b)]> (d_blocks (k_disk s)))
                (d_trace (k_disk s) ++ [(bno, b_data (get_buf s b))])) s
  else put_buf b (set_b_data (dblock s bno) (get_buf s b)) s.

(** What kernel/virtio_disk.c promises: called with its lock free, it returns
    when the transfer is done. *)
Class DiskRw := {
  virtio_disk_rw : nat → bool → K unit;
  virtio_disk_rw_ok : ∀ b w s, unlocked LDisk s →
    virtio_disk_rw b w s = Done tt (disk_effect b w s);
}.

Section bio.
Context `{DiskRw} `{WaitFuel}.

(** ** The code *)

Definition acquiresleep_buf (i : nat) : K unit :=
  acquiresleep (LBufSleep i) (ChBufLock i) (buf_sl i) (put_buf_sl i).
Definition releasesleep_buf (i : nat) : K unit :=
  releasesleep (LBufSleep i) (ChBufLock i) (put_buf_sl i).
Definition holdingsleep_buf (i : nat) : K bool :=
  holdingsleep (LBufSleep i) (buf_sl i).

Definition binit : K unit :=
  upd_buf HEAD (set_b_prev HEAD);;
  upd_buf HEAD (set_b_next HEAD);;
  for_each NBUF 0 (λ z,
    let b := Z.to_nat z in
    n ← buf_get HEAD b_next;
    upd_buf b (set_b_next n);;
    upd_buf b (set_b_prev HEAD);;
    initsleeplock (put_buf_sl b);;
    n ← buf_get HEAD b_next;
    upd_buf n (set_b_prev b);;
    upd_buf HEAD (set_b_next b)).

(** The two loops of [bget], from [b] on. *)
Fixpoint bget_find (fuel : nat) (b : nat) (dev blockno : Z) : K (option nat) :=
  if bool_decide (b = HEAD) then mret None else
  match fuel with
  | O => out_of_fuel
  | S fuel =>
      x ← buf_get b id;
      if (b_dev x =? dev) && (b_blockno x =? blockno) then mret (Some b)
      else bget_find fuel (b_next x) dev blockno
  end.

Fixpoint bget_lru (fuel : nat) (b : nat) : K (option nat) :=
  if bool_decide (b = HEAD) then mret None else
  match fuel with
  | O => out_of_fuel
  | S fuel =>
      x ← buf_get b id;
      if b_refcnt x =? 0 then mret (Some b) else bget_lru fuel (b_prev x)
  end.

Definition bget (dev blockno : Z) : K nat :=
  acquire LBcache;;
  b0 ← buf_get HEAD b_next;
  r ← bget_find NBUF b0 dev blockno;
  match r with
  | Some b =>
      upd_buf b (λ x, set_b_refcnt (u32 (b_refcnt x + 1)) x);;
      release LBcache;;
      acquiresleep_buf b;;
      mret b
  | None =>
      b0 ← buf_get HEAD b_prev;
      r ← bget_lru NBUF b0;
      match r with
      | Some b =>
          upd_buf b (set_b_id dev blockno);;
          upd_buf b (set_b_valid false);;
          upd_buf b (set_b_refcnt 1);;
          release LBcache;;
          acquiresleep_buf b;;
          mret b
      | None => panic "bget: no buffers"
      end
  end.

Definition bread (dev blockno : Z) : K nat :=
  b ← bget dev blockno;
  v ← buf_get b b_valid;
  when (negb v) (virtio_disk_rw b false;; upd_buf b (set_b_valid true));;
  mret b.

Definition bwrite (b : nat) : K unit :=
  h ← holdingsleep_buf b;
  if negb h then panic "bwrite" else
  virtio_disk_rw b true.

Definition brelse (b : nat) : K unit :=
  h ← holdingsleep_buf b;
  if negb h then panic "brelse" else
  releasesleep_buf b;;
  acquire LBcache;;
  upd_buf b (λ x, set_b_refcnt (u32 (b_refcnt x - 1)) x);;
  r ← buf_get b b_refcnt;
  when (r =? 0) (
    n ← buf_get b b_next;
    p ← buf_get b b_prev;
    upd_buf n (set_b_prev p);;
    p ← buf_get b b_prev;
    n ← buf_get b b_next;
    upd_buf p (set_b_next n);;
    n ← buf_get HEAD b_next;
    upd_buf b (set_b_next n);;
    upd_buf b (set_b_prev HEAD);;
    n ← buf_get HEAD b_next;
    upd_buf n (set_b_prev b);;
    upd_buf HEAD (set_b_next b));;
  release LBcache.

Definition bpin (b : nat) : K unit :=
  acquire LBcache;;
  upd_buf b (λ x, set_b_refcnt (u32 (b_refcnt x + 1)) x);;
  release LBcache.

Definition bunpin (b : nat) : K unit :=
  acquire LBcache;;
  upd_buf b (λ x, set_b_refcnt (u32 (b_refcnt x - 1)) x);;
  release LBcache.
End bio.
