(* ===== verification/BioList.v ===== *)
(** * The list of buffers

    [linked bs x l y]: following [next] from [x] passes through [l] and
    reaches [y], and [prev] leads back.  The operations of bio.c on the
    pointers are removal and insertion at the front of the sequence. *)

From S2P Require Import Prelude Memory Params State Sched Bio.

Definition nxt (bs : list buf) (i : nat) : nat := b_next (bs !!! i).
Definition prv (bs : list buf) (i : nat) : nat := b_prev (bs !!! i).

Fixpoint linked (bs : list buf) (x : nat) (l : list nat) (y : nat) : Prop :=
  match l with
  | [] => nxt bs x = y ∧ prv bs y = x
  | z :: l => nxt bs x = z ∧ prv bs z = x ∧ linked bs z l y
  end.

Lemma linked_app bs x l1 z l2 y :
  linked bs x (l1 ++ z :: l2) y ↔ linked bs x l1 z ∧ linked bs z l2 y.
Proof.
  revert x. induction l1 as [|a l1 IH]; intros x; simpl; [tauto|]. rewrite IH. tauto.
Qed.

Lemma linked_snoc bs x l z y :
  linked bs x (l ++ [z]) y ↔ linked bs x l z ∧ nxt bs z = y ∧ prv bs y = z.
Proof. apply linked_app. Qed.

(** The first element, the end if there is none. *)
Definition first (l : list nat) (y : nat) : nat := default y (head l).
Definition final (x : nat) (l : list nat) : nat := default x (last l).

Lemma linked_first bs x l y : linked bs x l y → nxt bs x = first l y ∧ prv bs (first l y) = x.
Proof. destruct l; simpl; tauto. Qed.

Lemma linked_final bs x l y : linked bs x l y → prv bs y = final x l ∧ nxt bs (final x l) = y.
Proof.
  destruct l as [|z l] using rev_ind; [simpl; tauto|].
  intros [_ [? ?]]%linked_snoc. unfold final. rewrite last_snoc. done.
Qed.

Lemma linked_ext bs bs' x l y :
  (∀ i, i ∈ x :: l → nxt bs' i = nxt bs i) → (∀ i, i ∈ l ++ [y] → prv bs' i = prv bs i) →
  linked bs x l y → linked bs' x l y.
Proof.
  revert x. induction l as [|z l IH]; intros x Hn Hp; simpl.
  - rewrite Hn, Hp by set_solver. done.
  - rewrite Hn, Hp by set_solver. intros (? & ? & Hl). split_and!; [done|done|].
    apply IH; [intros; apply Hn; set_solver|intros; apply Hp; set_solver|done].
Qed.

(** ** Assignments to the pointers *)

Definition set_next (i n : nat) (bs : list buf) : list buf := <[i := set_b_next n (bs !!! i)]> bs.
Definition set_prev (i p : nat) (bs : list buf) : list buf := <[i := set_b_prev p (bs !!! i)]> bs.

Lemma nxt_set_next bs i n j :
  (i < length bs)%nat → nxt (set_next i n bs) j = if decide (j = i) then n else nxt bs j.
Proof.
  intros Hi. unfold nxt, set_next. case_decide as Hd.
  - subst j. by rewrite list_lookup_total_insert_eq.
  - by rewrite list_lookup_total_insert_ne.
Qed.
Lemma prv_set_next bs i n j : prv (set_next i n bs) j = prv bs j.
Proof.
  unfold prv, set_next. destruct (decide (j = i)) as [->|]; [|by rewrite list_lookup_total_insert_ne].
  destruct (decide (i < length bs)%nat); [by rewrite list_lookup_total_insert_eq|].
  by rewrite list_insert_ge by lia.
Qed.
Lemma prv_set_prev bs i p j :
  (i < length bs)%nat → prv (set_prev i p bs) j = if decide (j = i) then p else prv bs j.
Proof.
  intros Hi. unfold prv, set_prev. case_decide as Hd.
  - subst j. by rewrite list_lookup_total_insert_eq.
  - by rewrite list_lookup_total_insert_ne.
Qed.
Lemma nxt_set_prev bs i p j : nxt (set_prev i p bs) j = nxt bs j.
Proof.
  unfold nxt, set_prev. destruct (decide (j = i)) as [->|]; [|by rewrite list_lookup_total_insert_ne].
  destruct (decide (i < length bs)%nat); [by rewrite list_lookup_total_insert_eq|].
  by rewrite list_insert_ge by lia.
Qed.
Lemma length_set_next i n bs : length (set_next i n bs) = length bs.
Proof. apply length_insert. Qed.
Lemma length_set_prev i p bs : length (set_prev i p bs) = length bs.
Proof. apply length_insert. Qed.
#[export] Hint Rewrite nxt_set_next prv_set_next prv_set_prev nxt_set_prev length_set_next length_set_prev
  using (repeat (rewrite length_set_next || rewrite length_set_prev); lia) : kst.

(** [bcache.head.next->prev = b; bcache.head.next = b;] after
    [b->next = bcache.head.next; b->prev = &bcache.head;] *)
Definition link_front (b : nat) (bs : list buf) : list buf :=
  let bs := set_next b (nxt bs HEAD) bs in
  let bs := set_prev b HEAD bs in
  let bs := set_prev (nxt bs HEAD) b bs in
  set_next HEAD b bs.

(** [b->next->prev = b->prev; b->prev->next = b->next;] *)
Definition unlink (b : nat) (bs : list buf) : list buf :=
  let bs := set_prev (nxt bs b) (prv bs b) bs in
  set_next (prv bs b) (nxt bs b) bs.

Lemma length_link_front b bs : length (link_front b bs) = length bs.
Proof. unfold link_front. by rewrite length_set_next, !length_set_prev, length_set_next. Qed.
Lemma length_unlink b bs : length (unlink b bs) = length bs.
Proof. unfold unlink. by rewrite length_set_next, !length_set_prev. Qed.

Lemma first_elem l y : first l y ∈ l ++ [y].
Proof. destruct l; simpl; set_solver. Qed.
Lemma final_elem x l : final x l ∈ x :: l.
Proof.
  destruct l as [|z l] using rev_ind; [unfold final; simpl; set_solver|].
  unfold final. rewrite last_snoc. simpl. set_solver.
Qed.

Lemma link_front_linked bs b l :
  (∀ i, i ∈ HEAD :: b :: l → (i < length bs)%nat) → b ∉ HEAD :: l → HEAD ∉ l → NoDup l →
  linked bs HEAD l HEAD → linked (link_front b bs) HEAD (b :: l) HEAD.
Proof.
  intros Hb Hbl Hh Hnd Hl. pose proof (linked_first _ _ _ _ Hl) as [Hf Hpf].
  pose proof (first_elem l HEAD) as Hfe.
  assert (Hlb : (b < length bs)%nat) by (apply Hb; set_solver).
  assert (Hlh : (HEAD < length bs)%nat) by (apply Hb; set_solver).
  assert (Hlf : (first l HEAD < length bs)%nat).
  { apply elem_of_app in Hfe as [?|Hfe%list_elem_of_singleton]; [apply Hb; set_solver|by rewrite Hfe]. }
  assert (Hne : b ≠ HEAD) by set_solver.
  assert (Hnf : b ≠ first l HEAD) by (intros E; rewrite <- E in Hfe; set_solver).
  unfold link_front. autorewrite with kst. rewrite (decide_False (P := HEAD = b)) by auto. rewrite Hf.
  set (f := first l HEAD) in *. simpl.
  split_and!.
  - autorewrite with kst. by rewrite decide_True.
  - autorewrite with kst. rewrite decide_False by done. by rewrite decide_True.
  - assert (Hnx : ∀ i, i ∈ l → nxt (set_next HEAD b (set_prev f b (set_prev b HEAD (set_next b f bs)))) i = nxt bs i).
    { intros i Hi. autorewrite with kst. rewrite !decide_False; [done|set_solver|set_solver]. }
    assert (Hpx : ∀ i, i ≠ b → i ≠ f → prv (set_next HEAD b (set_prev f b (set_prev b HEAD (set_next b f bs)))) i = prv bs i).
    { intros i Hi1 Hi2. autorewrite with kst. by rewrite !decide_False. }
    destruct l as [|z l]; simpl.
    + split; [|].
      * autorewrite with kst. rewrite decide_False by done. by rewrite decide_True.
      * autorewrite with kst. by rewrite decide_True.
    + change f with z in *. apply NoDup_cons in Hnd as [Hz Hnd]. destruct Hl as (_ & _ & Hl). split_and!.
      * autorewrite with kst. rewrite decide_False by done. by rewrite decide_True.
      * autorewrite with kst. by rewrite decide_True.
      * eapply linked_ext; [| |exact Hl].
        -- intros i Hi. apply Hnx. done.
        -- intros i Hi. apply Hpx; [set_solver|]. intros ->. set_solver.
Qed.

Lemma unlink_linked bs b l1 l2 :
  (∀ i, i ∈ HEAD :: l1 ++ b :: l2 → (i < length bs)%nat) → HEAD ∉ l1 ++ b :: l2 → NoDup (l1 ++ b :: l2) →
  linked bs HEAD (l1 ++ b :: l2) HEAD → linked (unlink b bs) HEAD (l1 ++ l2) HEAD.
Proof.
  intros Hb Hh Hnd [H1 H2]%linked_app.
  pose proof (linked_final _ _ _ _ H1) as [Hp Hnp]. pose proof (linked_first _ _ _ _ H2) as [Hn Hpn].
  set (p := final HEAD l1) in *. set (n := first l2 HEAD) in *.
  pose proof (final_elem HEAD l1) as Hpe. pose proof (first_elem l2 HEAD) as Hne. fold p in Hpe. fold n in Hne.
  assert (Hlp : (p < length bs)%nat) by (apply Hb; set_solver).
  assert (Hln : (n < length bs)%nat) by (apply Hb; set_solver).
  apply NoDup_app in Hnd as (Hnd1 & Hdis & Hnd2). apply NoDup_cons in Hnd2 as [Hb2 Hnd2].
  assert (b ∉ l1) by (intros Hx; apply (Hdis b Hx); set_solver).
  assert (b ≠ HEAD) by set_solver.
  unfold unlink. rewrite Hp, Hn. autorewrite with kst.
  rewrite (decide_False (P := b = n)) by (intros E; rewrite <- E in Hne; set_solver). rewrite Hp, Hn.
  set (bs' := set_next p n (set_prev n p bs)).
  assert (Hnx : ∀ i, nxt bs' i = if decide (i = p) then n else nxt bs i) by (intros; unfold bs'; by autorewrite with kst).
  assert (Hpx : ∀ i, prv bs' i = if decide (i = n) then p else prv bs i) by (intros; unfold bs'; by autorewrite with kst).
  (* the part up to [p], the new edge, and the part from [n] on *)
  destruct l1 as [|p' l1'] using rev_ind; destruct l2 as [|n' l2'].
  - simpl. rewrite Hnx, Hpx. by rewrite !decide_True.
  - change p with HEAD in *. change n with n' in *. simpl. apply NoDup_cons in Hnd2 as [Hn2 Hnd2].
    destruct H2 as (_ & _ & H2). split_and!; [by rewrite Hnx, decide_True|by rewrite Hpx, decide_True|].
    eapply linked_ext; [| |exact H2].
    + intros i Hi. rewrite Hnx, decide_False; [done|]. set_solver.
    + intros i Hi. rewrite Hpx, decide_False; [done|]. set_solver.
  - clear IHl1'. assert (Ep : p = p') by (unfold p, final; by rewrite last_snoc). clearbody p. subst p. change n with HEAD in *.
    rewrite app_nil_r. apply linked_snoc in H1 as [H1 _]. apply linked_snoc.
    apply NoDup_app in Hnd1 as (_ & Hp1 & _).
    split_and!; [|by rewrite Hnx, decide_True|by rewrite Hpx, decide_True].
    eapply linked_ext; [| |exact H1].
    + intros i Hi. rewrite Hnx, decide_False; [done|]. intros ->. set_solver.
    + intros i Hi. rewrite Hpx, decide_False; [done|]. intros ->. set_solver.
  - clear IHl1'. assert (Ep : p = p') by (unfold p, final; by rewrite last_snoc). clearbody p. subst p. change n with n' in *.
    apply NoDup_cons in Hnd2 as [Hn2 Hnd2]. apply NoDup_app in Hnd1 as (_ & Hp1 & _).
    rewrite <- app_assoc. simpl. apply linked_snoc in H1 as [H1 _]. destruct H2 as (_ & _ & H2).
    apply linked_app. split; [|simpl; split_and!; [by rewrite Hnx, decide_True|by rewrite Hpx, decide_True|]].
    + eapply linked_ext; [| |exact H1].
      * intros i Hi. rewrite Hnx, decide_False; [done|]. intros ->. set_solver.
      * intros i Hi. rewrite Hpx, decide_False; [done|]. intros ->. set_solver.
    + eapply linked_ext; [| |exact H2].
      * intros i Hi. rewrite Hnx, decide_False; [done|]. intros ->. set_solver.
      * intros i Hi. rewrite Hpx, decide_False; [done|]. intros ->. set_solver.
Qed.

(** ** The pointers aside, the buffers stay the same *)

Definition core (b : buf) : buf := set_b_prev 0 (set_b_next 0 b).

Lemma core_insert (bs : list buf) (i : nat) b (j : nat) :
  core b = core (bs !!! i) → core (<[i := b]> bs !!! j) = core (bs !!! j).
Proof.
  intros Hc. destruct (decide (j = i)) as [->|]; [|by rewrite list_lookup_total_insert_ne].
  destruct (decide (i < length bs)%nat); [by rewrite list_lookup_total_insert_eq|].
  by rewrite list_insert_ge by lia.
Qed.
Lemma core_set_next i n bs j : core (set_next i n bs !!! j) = core (bs !!! j).
Proof. by apply core_insert. Qed.
Lemma core_set_prev i n bs j : core (set_prev i n bs !!! j) = core (bs !!! j).
Proof. by apply core_insert. Qed.
#[export] Hint Rewrite core_set_next core_set_prev : kst.

Lemma core_link_front b bs j : core (link_front b bs !!! j) = core (bs !!! j).
Proof. unfold link_front. by autorewrite with kst. Qed.
Lemma core_unlink b bs j : core (unlink b bs !!! j) = core (bs !!! j).
Proof. unfold unlink. by rewrite core_set_next, core_set_prev. Qed.

Lemma filter_ne (b : nat) (l : list nat) : b ∉ l → filter (λ x, x ≠ b) l = l.
Proof.
  induction l as [|x l IH]; intros Hb; [done|]. apply not_elem_of_cons in Hb as [Hx Hb].
  rewrite filter_cons_True by auto. by rewrite IH.
Qed.

(** [brelse] moves the buffer to the front. *)
Lemma move_front bs b order :
  length bs = S NBUF → order ≡ₚ seq 0 NBUF → b ∈ order → linked bs HEAD order HEAD →
  let order' := b :: filter (λ x, x ≠ b) order in
  order' ≡ₚ order ∧ linked (link_front b (unlink b bs)) HEAD order' HEAD.
Proof.
  intros Hlen Hp Hin Hl. apply list_elem_of_split in Hin as (l1 & l2 & ->).
  assert (Hnd : NoDup (l1 ++ b :: l2)) by (rewrite Hp; apply NoDup_seq).
  assert (Hel : ∀ i, i ∈ l1 ++ b :: l2 → (i < NBUF)%nat) by (intros i; rewrite Hp, elem_of_seq; lia).
  assert (Hh : HEAD ∉ l1 ++ b :: l2) by (intros Hx%Hel; unfold HEAD in Hx; lia).
  assert (Hf : filter (λ x, x ≠ b) (l1 ++ b :: l2) = l1 ++ l2).
  { apply NoDup_app in Hnd as (Hn1 & Hdis & Hn2). apply NoDup_cons in Hn2 as [Hb Hn2].
    rewrite filter_app, filter_cons_False by auto.
    f_equal; apply filter_ne; [|done]. intros Hx. by apply (Hdis b Hx); left. }
  assert (Hlt : ∀ i, i ∈ HEAD :: l1 ++ b :: l2 → (i < length bs)%nat).
  { intros i [->|Hx%Hel]%elem_of_cons; unfold HEAD in *; lia. }
  cbv zeta. rewrite Hf. split; [by rewrite Permutation_middle|].
  apply NoDup_app in Hnd as Hnd'. destruct Hnd' as (Hn1 & Hdis & Hn2). apply NoDup_cons in Hn2 as [Hb Hn2].
  apply link_front_linked.
  - intros i Hi. rewrite length_unlink. apply Hlt. set_solver.
  - apply not_elem_of_cons. split; [intros ->; set_solver|]. intros [Hx|Hx]%elem_of_app; [|done].
    by apply (Hdis b Hx); left.
  - set_solver.
  - apply NoDup_app. split_and!; [done| |done]. intros x Hx Hx2. by apply (Hdis x Hx); right.
  - by apply unlink_linked.
Qed.
