(* ===== verification/BioInv.v ===== *)
(** * The buffer cache keeps its promises

    The invariant of the buffer cache and the effect of [bget], [bread],
    [bwrite], [brelse], [bpin] and [bunpin] on the abstract cache: which
    block a buffer holds, how often it is referenced, and what a reader of a
    block sees ([content]). *)

From S2P Require Import Prelude Memory Params State Sched Bio BioList.

Section bioinv.
Context `{DiskRw} `{WaitFuel}.
Implicit Types (s : kst) (order : list nat).

(** ** The invariant *)

Record bcache_inv s order : Prop := {
  bi_len : length (k_bufs s) = S NBUF;
  bi_perm : order ≡ₚ seq 0 NBUF;
  bi_list : linked (k_bufs s) HEAD order HEAD;
  bi_uniq : ∀ i j, (i < NBUF)%nat → (j < NBUF)%nat → b_dev (get_buf s i) ≠ 0 →
    b_dev (get_buf s i) = b_dev (get_buf s j) →
    b_blockno (get_buf s i) = b_blockno (get_buf s j) → i = j;
  bi_ref : ∀ i, (i < NBUF)%nat → 0 <= b_refcnt (get_buf s i);
  bi_dev : ∀ i, (i < NBUF)%nat → b_dev (get_buf s i) ≠ 0 → b_dev (get_buf s i) = ROOTDEV;
  bi_valid : ∀ i, (i < NBUF)%nat → b_valid (get_buf s i) = true → b_dev (get_buf s i) ≠ 0;
  bi_used : ∀ i, (i < NBUF)%nat → b_refcnt (get_buf s i) ≠ 0 → b_dev (get_buf s i) ≠ 0;
  bi_unlocked : ∀ i, (i < NBUF)%nat → b_refcnt (get_buf s i) = 0 → sl_locked (buf_sl i s) = false;
  bi_clean : ∀ i, (i < NBUF)%nat → b_refcnt (get_buf s i) = 0 → b_valid (get_buf s i) = true →
    b_data (get_buf s i) = dblock s (b_blockno (get_buf s i));
}.

Lemma order_elem s order i : bcache_inv s order → i ∈ order ↔ (i < NBUF)%nat.
Proof. intros Hi. rewrite (bi_perm _ _ Hi), elem_of_seq. lia. Qed.

Lemma order_nodup s order : bcache_inv s order → NoDup order.
Proof. intros Hi. rewrite (bi_perm _ _ Hi). apply NoDup_seq. Qed.

Lemma order_length s order : bcache_inv s order → length order = NBUF.
Proof. intros Hi. rewrite (bi_perm _ _ Hi). apply length_seq. Qed.

Lemma order_head s order : bcache_inv s order → HEAD ∉ order.
Proof. intros Hi. rewrite (order_elem _ _ _ Hi). unfold HEAD. lia. Qed.

Lemma buf_lt s order i : bcache_inv s order → (i < NBUF)%nat → (i < length (k_bufs s))%nat.
Proof. intros Hi Hlt. rewrite (bi_len _ _ Hi). lia. Qed.

(** Buffer [i] holds block [bno] of device [dev]. *)
Definition holds s (dev bno : Z) (i : nat) : Prop :=
  b_dev (get_buf s i) = dev ∧ b_blockno (get_buf s i) = bno.

#[global] Instance holds_dec s dev bno i : Decision (holds s dev bno i).
Proof. unfold holds. apply _. Defined.

(** ** Updating one buffer *)

Lemma get_put_buf s i b : (i < length (k_bufs s))%nat → get_buf (put_buf i b s) i = b.
Proof. intros Hi. unfold get_buf, put_buf. simpl. by apply list_lookup_total_insert_eq. Qed.

Lemma get_put_buf_ne s i j b : i ≠ j → get_buf (put_buf i b s) j = get_buf s j.
Proof. intros Hne. unfold get_buf, put_buf. simpl. by apply list_lookup_total_insert_ne. Qed.

Lemma put_put_buf s i b b' : put_buf i b (put_buf i b' s) = put_buf i b s.
Proof. unfold put_buf. simpl. by rewrite list_insert_insert_eq. Qed.

Lemma length_put_buf s i b : length (k_bufs (put_buf i b s)) = length (k_bufs s).
Proof. apply length_insert. Qed.

Lemma put_buf_id s i : (i < length (k_bufs s))%nat → put_buf i (get_buf s i) s = s.
Proof.
  intros Hi. unfold put_buf, get_buf. rewrite list_insert_id; [by destruct s|].
  by apply list_lookup_lookup_total_lt.
Qed.

Lemma linked_put_buf s i b x l y :
  b_next b = b_next (get_buf s i) → b_prev b = b_prev (get_buf s i) → (i < length (k_bufs s))%nat →
  linked (k_bufs s) x l y → linked (k_bufs (put_buf i b s)) x l y.
Proof.
  intros Hn Hp Hi. apply linked_ext; intros j _; unfold nxt, prv, put_buf; simpl.
  - destruct (decide (i = j)) as [<-|]; [by rewrite list_lookup_total_insert_eq|by rewrite list_lookup_total_insert_ne].
  - destruct (decide (i = j)) as [<-|]; [by rewrite list_lookup_total_insert_eq|by rewrite list_lookup_total_insert_ne].
Qed.

(** Changing a buffer without touching the pointers keeps the invariant if
    the buffer's own conditions hold again. *)
Lemma bcache_inv_put s order i b :
  bcache_inv s order → (i < NBUF)%nat →
  b_next b = b_next (get_buf s i) → b_prev b = b_prev (get_buf s i) →
  (∀ j, (j < NBUF)%nat → j ≠ i → b_dev b ≠ 0 → ¬ holds s (b_dev b) (b_blockno b) j) →
  0 <= b_refcnt b → b_dev b = ROOTDEV → (b_refcnt b = 0 → sl_locked (b_lock b) = false) →
  (b_refcnt b = 0 → b_valid b = true → b_data b = dblock s (b_blockno b)) →
  bcache_inv (put_buf i b s) order.
Proof.
  intros Hi Hlt Hn Hp Hu Hr Hd Hl Hc. pose proof (buf_lt _ _ _ Hi Hlt) as Hlen. split.
  - rewrite length_put_buf. apply Hi.
  - apply Hi.
  - apply linked_put_buf; try done. apply Hi.
  - intros j k Hj Hk. unfold holds in Hu.
    destruct (decide (j = i)) as [->|Hji]; destruct (decide (k = i)) as [->|Hki];
      rewrite ?get_put_buf, ?get_put_buf_ne by done; try done.
    + intros Hd0 E1 E2. by destruct (Hu k Hk Hki Hd0).
    + intros Hd0 E1 E2. rewrite E1 in Hd0. by destruct (Hu j Hj Hji Hd0).
    + by apply (bi_uniq _ _ Hi).
  - intros j Hj. destruct (decide (j = i)) as [->|]; rewrite ?get_put_buf, ?get_put_buf_ne by done; [done|].
    by apply (bi_ref _ _ Hi).
  - intros j Hj. destruct (decide (j = i)) as [->|]; rewrite ?get_put_buf, ?get_put_buf_ne by done; [done|].
    by apply (bi_dev _ _ Hi).
  - intros j Hj. destruct (decide (j = i)) as [->|]; rewrite ?get_put_buf, ?get_put_buf_ne by done; [by rewrite Hd|].
    by apply (bi_valid _ _ Hi).
  - intros j Hj. destruct (decide (j = i)) as [->|]; rewrite ?get_put_buf, ?get_put_buf_ne by done; [by rewrite Hd|].
    by apply (bi_used _ _ Hi).
  - intros j Hj. unfold buf_sl. destruct (decide (j = i)) as [->|]; rewrite ?get_put_buf, ?get_put_buf_ne by done; [done|].
    by apply (bi_unlocked _ _ Hi).
  - intros j Hj. change (dblock (put_buf i b s)) with (dblock s).
    destruct (decide (j = i)) as [->|]; rewrite ?get_put_buf, ?get_put_buf_ne by done; [done|].
    by apply (bi_clean _ _ Hi).
Qed.

(** ** The loops of [bget] *)

Lemma bget_find_run l fuel x b dev bno s :
  linked (k_bufs s) x l HEAD → HEAD ∉ l → b = first l HEAD → (length l <= fuel)%nat →
  bget_find fuel b dev bno s = Done (head (filter (holds s dev bno) l)) s.
Proof.
  revert fuel x b. induction l as [|y l IH]; intros fuel x b Hl Hh -> Hf; simpl in *.
  - by destruct fuel.
  - destruct Hl as (_ & _ & Hl). apply not_elem_of_cons in Hh as [Hy Hh].
    destruct fuel as [|fuel]; [lia|]. cbn [bget_find]. unfold first. simpl.
    rewrite bool_decide_false by done. run_by (unfold buf_get, gets; reflexivity). simpl.
    rewrite filter_cons. destruct (decide (holds s dev bno y)) as [[E1 E2]|Hn].
    + by rewrite (proj2 (Z.eqb_eq _ _) E1), (proj2 (Z.eqb_eq _ _) E2).
    + destruct (Z.eqb_spec (b_dev (get_buf s y)) dev), (Z.eqb_spec (b_blockno (get_buf s y)) bno);
        simpl; try (by destruct Hn; split); by eapply IH; [exact Hl|done|apply linked_first in Hl as [? _]|lia].
Qed.

Definition unused s (i : nat) : Prop := b_refcnt (get_buf s i) = 0.
#[global] Instance unused_dec s i : Decision (unused s i).
Proof. unfold unused. apply _. Defined.

Lemma bget_lru_run l fuel b y s :
  linked (k_bufs s) HEAD l y → HEAD ∉ l → b = final HEAD l → (length l <= fuel)%nat →
  bget_lru fuel b s = Done (last (filter (unused s) l)) s.
Proof.
  revert fuel b y. induction l as [|z l IH] using rev_ind; intros fuel b y Hl Hh -> Hf.
  - by destruct fuel.
  - apply linked_snoc in Hl as (Hl & _). rewrite length_app in Hf. simpl in Hf.
    destruct fuel as [|fuel]; [lia|]. cbn [bget_lru]. unfold final. rewrite last_snoc. simpl.
    rewrite bool_decide_false by set_solver. run_by (unfold buf_get, gets; reflexivity). simpl.
    rewrite filter_app. destruct (decide (unused s z)) as [E|Hn].
    + rewrite (proj2 (Z.eqb_eq _ _) E). rewrite filter_cons_True by done.
      change (filter (unused s) []) with (@nil nat). by rewrite last_snoc.
    + rewrite (proj2 (Z.eqb_neq _ _)) by done. rewrite filter_cons_False by done. simpl. rewrite app_nil_r.
      eapply IH; [exact Hl|set_solver|by apply linked_final in Hl as [? _]|lia].
Qed.

(** ** What a reader of a block sees *)

Definition lookup_buf s (bno : Z) : option nat := head (filter (holds s ROOTDEV bno) (seq 0 NBUF)).

Definition content s (bno : Z) : list Z :=
  match lookup_buf s bno with
  | Some i => if b_valid (get_buf s i) then b_data (get_buf s i) else dblock s bno
  | None => dblock s bno
  end.

(** How often block [bno] is referenced. *)
Definition refs s (bno : Z) : Z :=
  match lookup_buf s bno with Some i => b_refcnt (get_buf s i) | None => 0 end.

Lemma lookup_buf_Some s order bno i :
  bcache_inv s order → lookup_buf s bno = Some i ↔ (i < NBUF)%nat ∧ holds s ROOTDEV bno i.
Proof.
  intros Hi. unfold lookup_buf. split.
  - intros Hh. apply head_Some_elem_of in Hh. apply list_elem_of_filter in Hh as [Hh Hs%elem_of_seq].
    split; [lia|done].
  - intros [Hlt Hh]. destruct (filter _ (seq 0 NBUF)) as [|j l] eqn:E.
    + assert (i ∈ filter (holds s ROOTDEV bno) (seq 0 NBUF)) as Hin.
      { apply list_elem_of_filter. split; [done|]. apply elem_of_seq. lia. }
      rewrite E in Hin. by apply elem_of_nil in Hin.
    + simpl. f_equal. assert (j ∈ filter (holds s ROOTDEV bno) (seq 0 NBUF)) as Hin by (rewrite E; by left).
      apply list_elem_of_filter in Hin as [[E1 E2] Hs%elem_of_seq]. destruct Hh as [E3 E4].
      apply (bi_uniq _ _ Hi); [lia|lia|rewrite E1; done|congruence|congruence].
Qed.

Lemma lookup_buf_None s order bno :
  bcache_inv s order → lookup_buf s bno = None ↔ ∀ i, (i < NBUF)%nat → ¬ holds s ROOTDEV bno i.
Proof.
  intros Hi. split.
  - intros Hn i Hlt Hh. assert (lookup_buf s bno = Some i) by (by apply (lookup_buf_Some _ _ _ _ Hi)). congruence.
  - intros Hn. destruct (lookup_buf s bno) as [i|] eqn:E; [|done].
    apply (lookup_buf_Some _ _ _ _ Hi) in E as [? ?]. by destruct (Hn i).
Qed.

(** The search through the list finds it. *)
Lemma find_order s order bno :
  bcache_inv s order → head (filter (holds s ROOTDEV bno) order) = lookup_buf s bno.
Proof.
  intros Hi. destruct (head (filter _ order)) as [i|] eqn:E.
  - symmetry. apply (lookup_buf_Some _ _ _ _ Hi). apply head_Some_elem_of in E.
    apply list_elem_of_filter in E as [? ?%(order_elem _ _ _ Hi)]. done.
  - symmetry. apply (lookup_buf_None _ _ _ Hi). intros i Hlt Hh.
    assert (i ∈ filter (holds s ROOTDEV bno) order) as Hin.
    { apply list_elem_of_filter. split; [done|]. by apply (order_elem _ _ _ Hi). }
    destruct (filter _ order); [by apply elem_of_nil in Hin|done].
Qed.

(** ** [bget] *)

Definition mypid s : Z := p_pid (get_proc s (ps_cur (k_proc s))).

(** A sleep lock that the running process holds. *)
Definition my_lock s : sleeplock := mk_sleeplock true (mypid s).

Lemma acquiresleep_buf_run s i :
  unlocked (LBufSleep i) s → sl_locked (buf_sl i s) = false →
  acquiresleep_buf i s = Done tt (put_buf_sl i (my_lock s) s).
Proof. intros Hl Hf. by apply (acquiresleep_run (LBufSleep i) (ChBufLock i) (buf_sl i) (put_buf_sl i)). Qed.

Lemma upd_buf_run i f s : upd_buf i f s = Done tt (put_buf i (f (get_buf s i)) s).
Proof. done. Qed.

(** The buffer after a hit and after a miss. *)
Definition hit_buf s (b : buf) : buf :=
  set_b_lock (my_lock s) (set_b_refcnt (u32 (b_refcnt b + 1)) b).
Definition miss_buf s (bno : Z) (b : buf) : buf :=
  set_b_lock (my_lock s) (set_b_refcnt 1 (set_b_valid false (set_b_id ROOTDEV bno b))).

Lemma find_run s order bno l :
  bcache_inv s order →
  bget_find NBUF (b_next (get_buf (set_held l s) HEAD)) ROOTDEV bno (set_held l s) =
    Done (lookup_buf s bno) (set_held l s).
Proof.
  intros Hi. rewrite (bget_find_run order NBUF HEAD).
  - f_equal. exact (find_order s order bno Hi).
  - apply (bi_list _ _ Hi).
  - by eapply order_head.
  - apply (linked_first _ _ _ _ (bi_list _ _ Hi)).
  - by rewrite (order_length _ _ Hi).
Qed.

Lemma lru_run s order l :
  bcache_inv s order →
  bget_lru NBUF (b_prev (get_buf (set_held l s) HEAD)) (set_held l s) =
    Done (last (filter (unused s) order)) (set_held l s).
Proof.
  intros Hi. rewrite (bget_lru_run order NBUF _ HEAD).
  - done.
  - apply (bi_list _ _ Hi).
  - by eapply order_head.
  - apply (linked_final _ _ _ _ (bi_list _ _ Hi)).
  - by rewrite (order_length _ _ Hi).
Qed.

Lemma set_held_nil s : k_held s = [] → set_held [] s = s.
Proof. intros <-. apply set_held_id. Qed.

(** The tail of both branches of [bget]: [b] is the buffer so far. *)
Lemma bget_tail s l i b :
  (i < length (k_bufs s))%nat → k_held s = [] → sl_locked (b_lock b) = false →
  l = [LBcache] →
  (release LBcache;; acquiresleep_buf i;; mret i) (put_buf i b (set_held l s)) =
    Done i (put_buf i (set_b_lock (my_lock s) b) s).
Proof.
  intros Hlen Hh Hf ->. run_by (eapply (release_ok _ []); [done|set_solver]).
  change (set_held [] (put_buf i b (set_held [LBcache] s))) with (put_buf i b (set_held [] s)).
  rewrite (set_held_nil s Hh).
  run_by (apply acquiresleep_buf_run; [simpl; rewrite Hh; set_solver|unfold buf_sl; by rewrite get_put_buf]).
  unfold mret, M_ret, put_buf_sl. by rewrite get_put_buf, put_put_buf.
Qed.

Lemma bget_hit s order bno i :
  bcache_inv s order → k_held s = [] → lookup_buf s bno = Some i → sl_locked (buf_sl i s) = false →
  bget ROOTDEV bno s = Done i (put_buf i (hit_buf s (get_buf s i)) s).
Proof.
  intros Hi Hh Hl Hf. apply (lookup_buf_Some _ _ _ _ Hi) in Hl as Hl'. destruct Hl' as [Hlt Hho].
  unfold bget. run_by (by apply acquire_ok; rewrite Hh; set_solver).
  run_by (unfold buf_get, gets; reflexivity). run_by (by apply (find_run s order)). rewrite Hl.
  run_by (apply upd_buf_run). rewrite bget_tail; [done|by eapply buf_lt|done|exact Hf|by rewrite Hh].
Qed.

Lemma bget_miss s order bno i :
  bcache_inv s order → k_held s = [] → lookup_buf s bno = None →
  last (filter (unused s) order) = Some i →
  bget ROOTDEV bno s = Done i (put_buf i (miss_buf s bno (get_buf s i)) s).
Proof.
  intros Hi Hh Hl Hu. apply last_Some_elem_of in Hu as Hue. apply list_elem_of_filter in Hue as [Hun Hin].
  apply (order_elem _ _ _ Hi) in Hin as Hlt. pose proof (buf_lt _ _ _ Hi Hlt) as Hlen.
  pose proof (bi_unlocked _ _ Hi i Hlt Hun) as Hf.
  unfold bget. run_by (by apply acquire_ok; rewrite Hh; set_solver).
  run_by (unfold buf_get, gets; reflexivity). run_by (by apply (find_run s order)). rewrite Hl.
  run_by (unfold buf_get, gets; reflexivity). run_by (by apply (lru_run s order)). rewrite Hu.
  run_by (apply upd_buf_run). run_by (apply upd_buf_run). run_by (apply upd_buf_run).
  rewrite !get_put_buf by (rewrite ?length_put_buf; done). rewrite !put_put_buf.
  rewrite bget_tail; [done|done|done|exact Hf|by rewrite Hh].
Qed.

Lemma bget_full s order bno :
  bcache_inv s order → k_held s = [] → lookup_buf s bno = None →
  last (filter (unused s) order) = None →
  bget ROOTDEV bno s = Panic "bget: no buffers" (set_held [LBcache] s).
Proof.
  intros Hi Hh Hl Hu. unfold bget. run_by (by apply acquire_ok; rewrite Hh; set_solver). rewrite Hh.
  run_by (unfold buf_get, gets; reflexivity). run_by (by apply (find_run s order)). rewrite Hl.
  run_by (unfold buf_get, gets; reflexivity). run_by (by apply (lru_run s order)). by rewrite Hu.
Qed.

(** ** The abstract cache after an update of one buffer *)

Lemma lookup_put s order i b bno :
  bcache_inv s order → bcache_inv (put_buf i b s) order → (i < NBUF)%nat → b_dev b = ROOTDEV →
  lookup_buf (put_buf i b s) bno =
    if decide (bno = b_blockno b) then Some i
    else if decide (lookup_buf s bno = Some i) then None else lookup_buf s bno.
Proof.
  intros Hi Hi' Hlt Hd. pose proof (buf_lt _ _ _ Hi Hlt) as Hlen.
  case_decide as E1; [|case_decide as E2].
  - apply (lookup_buf_Some _ _ _ _ Hi'). split; [done|]. unfold holds. by rewrite get_put_buf.
  - apply (lookup_buf_None _ _ _ Hi'). intros j Hj. unfold holds.
    destruct (decide (j = i)) as [->|Hne]; [rewrite get_put_buf by done; intros [_ ?]; congruence|].
    rewrite get_put_buf_ne by done. intros Hh. apply Hne.
    assert (lookup_buf s bno = Some j) by (by apply (lookup_buf_Some _ _ _ _ Hi)). congruence.
  - destruct (lookup_buf s bno) as [j|] eqn:E.
    + apply (lookup_buf_Some _ _ _ _ Hi) in E as [Hj Hh].
      apply (lookup_buf_Some _ _ _ _ Hi'). split; [done|]. unfold holds. rewrite get_put_buf_ne; [done|congruence].
    + apply (lookup_buf_None _ _ _ Hi'). intros j Hj. unfold holds.
      destruct (decide (j = i)) as [->|Hne]; [rewrite get_put_buf by done; intros [_ ?]; congruence|].
      rewrite get_put_buf_ne by done. by apply (proj1 (lookup_buf_None _ _ _ Hi) E).
Qed.

Lemma content_put s order i b bno :
  bcache_inv s order → bcache_inv (put_buf i b s) order → (i < NBUF)%nat → b_dev b = ROOTDEV →
  content (put_buf i b s) bno =
    if decide (bno = b_blockno b) then (if b_valid b then b_data b else dblock s bno)
    else if decide (lookup_buf s bno = Some i) then dblock s bno else content s bno.
Proof.
  intros Hi Hi' Hlt Hd. pose proof (buf_lt _ _ _ Hi Hlt) as Hlen.
  unfold content. rewrite (lookup_put s order) by done.
  case_decide; [by rewrite get_put_buf|]. case_decide as E; [done|].
  destruct (lookup_buf s bno) as [j|] eqn:Ej; [|done]. rewrite get_put_buf_ne; [done|congruence].
Qed.

Lemma refs_put s order i b bno :
  bcache_inv s order → bcache_inv (put_buf i b s) order → (i < NBUF)%nat → b_dev b = ROOTDEV →
  refs (put_buf i b s) bno =
    if decide (bno = b_blockno b) then b_refcnt b
    else if decide (lookup_buf s bno = Some i) then 0 else refs s bno.
Proof.
  intros Hi Hi' Hlt Hd. pose proof (buf_lt _ _ _ Hi Hlt) as Hlen.
  unfold refs. rewrite (lookup_put s order) by done.
  case_decide; [by rewrite get_put_buf|]. case_decide as E; [done|].
  destruct (lookup_buf s bno) as [j|] eqn:Ej; [|done]. rewrite get_put_buf_ne; [done|congruence].
Qed.

(** ** [bread] *)

(** The running process has locked buffer [i], which holds block [bno]. *)
Record handle s (i : nat) (bno : Z) : Prop := {
  hd_lt : (i < NBUF)%nat;
  hd_holds : holds s ROOTDEV bno i;
  hd_valid : b_valid (get_buf s i) = true;
  hd_lock : buf_sl i s = my_lock s;
  hd_ref : 0 < b_refcnt (get_buf s i) < 2 ^ 32;
}.

Lemma handle_lookup s order i bno :
  bcache_inv s order → handle s i bno → lookup_buf s bno = Some i.
Proof. intros Hi Hh. apply (lookup_buf_Some _ _ _ _ Hi). split; apply Hh. Qed.

Lemma handle_content s order i bno :
  bcache_inv s order → handle s i bno → content s bno = b_data (get_buf s i).
Proof. intros Hi Hh. unfold content. rewrite (handle_lookup _ _ _ _ Hi Hh). by rewrite (hd_valid _ _ _ Hh). Qed.

Lemma handle_refs s order i bno :
  bcache_inv s order → handle s i bno → refs s bno = b_refcnt (get_buf s i).
Proof. intros Hi Hh. unfold refs. by rewrite (handle_lookup _ _ _ _ Hi Hh). Qed.

(** Block [bno] can be read without waiting: its buffer is not locked, or it
    has none and a buffer is unused. *)
Definition can_read s (bno : Z) : Prop :=
  match lookup_buf s bno with
  | Some i => sl_locked (buf_sl i s) = false ∧ b_refcnt (get_buf s i) + 1 < 2 ^ 32
  | None => ∃ i, (i < NBUF)%nat ∧ unused s i
  end.

Lemma lru_Some s order :
  bcache_inv s order → (∃ i, (i < NBUF)%nat ∧ unused s i) →
  ∃ i, last (filter (unused s) order) = Some i ∧ (i < NBUF)%nat ∧ unused s i.
Proof.
  intros Hi (i & Hlt & Hu). destruct (last (filter (unused s) order)) as [j|] eqn:E.
  - exists j. split; [done|]. apply last_Some_elem_of in E. apply list_elem_of_filter in E as [? ?%(order_elem _ _ _ Hi)]. done.
  - apply last_None in E. assert (i ∈ filter (unused s) order) as Hin.
    { apply list_elem_of_filter. split; [done|]. by apply (order_elem _ _ _ Hi). }
    rewrite E in Hin. by apply elem_of_nil in Hin.
Qed.

(** The buffer of [bno] when [bread] returns. *)
Definition read_buf s (bno : Z) (b : buf) : buf :=
  if b_valid b then b else set_b_valid true (set_b_data (dblock s bno) b).

Lemma bread_finish s i b bno :
  (i < length (k_bufs s))%nat → k_held s = [] → b_blockno b = bno →
  bget ROOTDEV bno s = Done i (put_buf i b s) →
  bread ROOTDEV bno s = Done i (put_buf i (read_buf s bno b) s).
Proof.
  intros Hlen Hh Hb Hg. unfold bread. run_by (exact Hg). run_by (unfold buf_get, gets; reflexivity).
  rewrite get_put_buf by done. unfold read_buf. destruct (b_valid b); cbn [negb when].
  - by run_by reflexivity.
  - assert (Hrw : (virtio_disk_rw i false;; upd_buf i (set_b_valid true)) (put_buf i b s) =
      Done tt (put_buf i (set_b_valid true (set_b_data (dblock s bno) b)) s)).
    { run_by (apply virtio_disk_rw_ok; simpl; rewrite Hh; set_solver).
      rewrite upd_buf_run. unfold disk_effect. rewrite !get_put_buf by (rewrite ?length_put_buf; done).
      rewrite Hb, !put_put_buf. done. }
    by run_by (exact Hrw).
Qed.

Lemma read_buf_fields s bno b :
  let b' := read_buf s bno b in
  b_next b' = b_next b ∧ b_prev b' = b_prev b ∧ b_dev b' = b_dev b ∧ b_blockno b' = b_blockno b ∧
  b_lock b' = b_lock b ∧ b_refcnt b' = b_refcnt b ∧ b_valid b' = true ∧
  b_data b' = if b_valid b then b_data b else dblock s bno.
Proof. unfold read_buf. by destruct (b_valid b) eqn:E; simpl; rewrite ?E. Qed.

Lemma mypid_put i b s : mypid (put_buf i b s) = mypid s.
Proof. done. Qed.

(** What [bread] leaves behind: [b] is the buffer it returns. *)
Lemma bread_post s order bno i b :
  bcache_inv s order → (i < NBUF)%nat → b_next b = b_next (get_buf s i) → b_prev b = b_prev (get_buf s i) →
  b_dev b = ROOTDEV → b_blockno b = bno → b_lock b = my_lock s → b_valid b = true →
  b_refcnt b = refs s bno + 1 → 0 <= refs s bno → refs s bno + 1 < 2 ^ 32 → b_data b = content s bno →
  (lookup_buf s bno = Some i ∨ lookup_buf s bno = None ∧ unused s i) →
  bcache_inv (put_buf i b s) order ∧ handle (put_buf i b s) i bno ∧
  (∀ x, content (put_buf i b s) x = content s x) ∧
  (∀ x, refs (put_buf i b s) x = refs s x + if decide (x = bno) then 1 else 0).
Proof.
  intros Hi Hlt Hn Hp Hd Hb Hl Hv Hr Hr0 Hr1 Hdat Hor. pose proof (buf_lt _ _ _ Hi Hlt) as Hlen.
  assert (Hi' : bcache_inv (put_buf i b s) order).
  { apply bcache_inv_put; try done; try lia. intros j Hj Hne _. rewrite Hd, Hb. intros Hho.
    assert (lookup_buf s bno = Some j) by (by apply (lookup_buf_Some _ _ _ _ Hi)).
    destruct Hor as [?|[? _]]; congruence. }
  split_and!; [done| | |].
  - split; [done| | | |].
    + unfold holds. by rewrite get_put_buf.
    + by rewrite get_put_buf.
    + unfold buf_sl. by rewrite get_put_buf.
    + rewrite get_put_buf by done. lia.
  - intros x. rewrite (content_put s order) by done. rewrite Hb, Hv.
    case_decide as E1; [by subst x|]. case_decide as E2; [|done].
    unfold content. rewrite E2. apply (lookup_buf_Some _ _ _ _ Hi) in E2 as [_ [Ed Eb]].
    destruct Hor as [Hor|[_ Hun]].
    { apply (lookup_buf_Some _ _ _ _ Hi) in Hor as [_ [_ ?]]. congruence. }
    destruct (b_valid (get_buf s i)) eqn:Ev; [|done].
    rewrite (bi_clean _ _ Hi i Hlt Hun Ev). by rewrite Eb.
  - intros x. rewrite (refs_put s order) by done. rewrite Hb.
    case_decide as E1; [by subst x|]. case_decide as E2; [|lia].
    unfold refs. rewrite E2. apply (lookup_buf_Some _ _ _ _ Hi) in E2 as [_ [Ed Eb]].
    destruct Hor as [Hor|[_ Hun]].
    { apply (lookup_buf_Some _ _ _ _ Hi) in Hor as [_ [_ ?]]. congruence. }
    unfold unused in Hun. lia.
Qed.

Lemma refs_nonneg s order bno : bcache_inv s order → 0 <= refs s bno.
Proof.
  intros Hi. unfold refs. destruct (lookup_buf s bno) as [i|] eqn:E; [|lia].
  apply (lookup_buf_Some _ _ _ _ Hi) in E as [? _]. by apply (bi_ref _ _ Hi).
Qed.

Lemma bread_run s order bno :
  bcache_inv s order → k_held s = [] → can_read s bno →
  ∃ i b, bread ROOTDEV bno s = Done i (put_buf i b s) ∧
    bcache_inv (put_buf i b s) order ∧ handle (put_buf i b s) i bno ∧
    (∀ x, content (put_buf i b s) x = content s x) ∧
    (∀ x, refs (put_buf i b s) x = refs s x + if decide (x = bno) then 1 else 0) ∧
    (lookup_buf s bno = None → last (filter (unused s) order) = Some i).
Proof.
  intros Hi Hh Hc. unfold can_read in Hc. pose proof (refs_nonneg s order bno Hi) as Hr0.
  destruct (lookup_buf s bno) as [i|] eqn:El.
  - destruct Hc as [Hf Hr]. apply (lookup_buf_Some _ _ _ _ Hi) in El as El'. destruct El' as [Hlt [Ed Eb]].
    pose proof (buf_lt _ _ _ Hi Hlt) as Hlen. pose proof (bget_hit s order bno i Hi Hh El Hf) as Hg.
    set (b := hit_buf s (get_buf s i)) in *.
    assert (Hrefs : refs s bno = b_refcnt (get_buf s i)) by (unfold refs; by rewrite El).
    destruct (read_buf_fields s bno b) as (F1 & F2 & F3 & F4 & F5 & F6 & F7 & F8).
    exists i, (read_buf s bno b). split; [by apply bread_finish|].
    destruct (bread_post s order bno i (read_buf s bno b)) as (P1 & P2 & P3 & P4); try done.
    + rewrite F3. exact Ed.
    + rewrite F4. exact Eb.
    + rewrite F6, Hrefs. unfold b, hit_buf. simpl. rewrite u32_small; [done|].
      pose proof (bi_ref _ _ Hi i Hlt). lia.
    + lia.
    + rewrite F8. unfold content. by rewrite El.
    + by left.
  - destruct (lru_Some s order Hi Hc) as (i & Hlru & Hlt & Hun).
    pose proof (buf_lt _ _ _ Hi Hlt) as Hlen. pose proof (bget_miss s order bno i Hi Hh El Hlru) as Hg.
    set (b := miss_buf s bno (get_buf s i)) in *.
    assert (Hrefs : refs s bno = 0) by (unfold refs; by rewrite El).
    destruct (read_buf_fields s bno b) as (F1 & F2 & F3 & F4 & F5 & F6 & F7 & F8).
    exists i, (read_buf s bno b). split; [by apply bread_finish|].
    destruct (bread_post s order bno i (read_buf s bno b)) as (P1 & P2 & P3 & P4); try done.
    + rewrite F6, Hrefs. done.
    + rewrite Hrefs. lia.
    + rewrite F8. unfold content. by rewrite El.
    + by right.
Qed.

(** ** [bwrite] *)

Lemma holdingsleep_handle s i bno :
  handle s i bno → k_held s = [] → holdingsleep_buf i s = Done true s.
Proof.
  intros Hh Hk. unfold holdingsleep_buf. rewrite holdingsleep_run by (done || (rewrite Hk; set_solver)).
  change (b_lock (get_buf s i)) with (buf_sl i s) in *. rewrite (hd_lock _ _ _ Hh). simpl. by rewrite Z.eqb_refl.
Qed.

Lemma dblock_write s bno d tr x :
  dblock (set_disk (mk_dstate (<[bno := d]> (d_blocks (k_disk s))) tr) s) x =
    if decide (x = bno) then d else dblock s x.
Proof.
  unfold dblock. simpl. case_decide as E; [subst x; by rewrite lookup_insert_eq|by rewrite lookup_insert_ne].
Qed.

Lemma bwrite_run s order i bno :
  bcache_inv s order → k_held s = [] → handle s i bno →
  ∃ s', bwrite i s = Done tt s' ∧ bcache_inv s' order ∧ handle s' i bno ∧
    s' = set_disk (mk_dstate (<[bno := content s bno]> (d_blocks (k_disk s)))
                     (d_trace (k_disk s) ++ [(bno, content s bno)])) s ∧
    (∀ x, content s' x = content s x) ∧ (∀ x, refs s' x = refs s x) ∧
    (∀ x, dblock s' x = if decide (x = bno) then content s bno else dblock s x).
Proof.
  intros Hi Hk Hh. exists (disk_effect i true s).
  rewrite (handle_content _ _ _ _ Hi Hh). destruct (hd_holds _ _ _ Hh) as [Ed Eb].
  assert (Hrun : bwrite i s = Done tt (disk_effect i true s)).
  { unfold bwrite. run_by (by eapply holdingsleep_handle). cbn [negb].
    apply virtio_disk_rw_ok. rewrite Hk. set_solver. }
  unfold disk_effect in *. rewrite Eb in *. set (s' := set_disk _ s) in *.
  assert (Hdb : ∀ x, dblock s' x = if decide (x = bno) then b_data (get_buf s i) else dblock s x)
    by (intros; apply dblock_write).
  split_and!; [done| | | | |done|done].
  - split; try apply Hi. intros j Hj Hu Hv. rewrite Hdb. change (get_buf s' j) with (get_buf s j) in *.
    case_decide as E; [|by apply (bi_clean _ _ Hi)].
    assert (j = i) as ->; [|done]. apply (bi_uniq _ _ Hi); [done|apply Hh|by apply (bi_valid _ _ Hi)| |congruence].
    rewrite Ed. apply (bi_dev _ _ Hi); [done|]. by apply (bi_valid _ _ Hi).
  - destruct Hh. by split.
  - done.
  - intros x. unfold content. change (lookup_buf s' x) with (lookup_buf s x). rewrite Hdb.
    change (get_buf s') with (get_buf s). case_decide as E; [|done]. subst x.
    rewrite (handle_lookup _ _ _ _ Hi Hh). by rewrite (hd_valid _ _ _ Hh).
Qed.

(** ** Changing the data of a locked buffer *)

Lemma set_data_run s order i bno d :
  bcache_inv s order → handle s i bno →
  let s' := put_buf i (set_b_data d (get_buf s i)) s in
  bcache_inv s' order ∧ handle s' i bno ∧ (∀ x, refs s' x = refs s x) ∧
  (∀ x, content s' x = if decide (x = bno) then d else content s x).
Proof.
  intros Hi Hh s'. destruct (hd_holds _ _ _ Hh) as [Ed Eb]. pose proof (hd_lt _ _ _ Hh) as Hlt.
  pose proof (buf_lt _ _ _ Hi Hlt) as Hlen. pose proof (hd_ref _ _ _ Hh) as Hr.
  assert (Hi' : bcache_inv s' order).
  { apply bcache_inv_put; simpl; try done; try lia.
    intros j Hj Hne Hd [Hx Hy]. apply Hne. apply (bi_uniq _ _ Hi); congruence. }
  split_and!; [done| | |].
  - destruct Hh. unfold s'. split; unfold holds, buf_sl in *; rewrite ?get_put_buf by done; done.
  - intros x. unfold s'. rewrite (refs_put s order) by done. simpl. rewrite Eb.
    case_decide as E; [subst x; by rewrite (handle_refs _ _ _ _ Hi Hh)|].
    rewrite decide_False; [done|]. intros El. apply (lookup_buf_Some _ _ _ _ Hi) in El as [_ [_ ?]]. congruence.
  - intros x. unfold s'. rewrite (content_put s order) by done. simpl. rewrite Eb, (hd_valid _ _ _ Hh).
    case_decide as E; [done|]. rewrite decide_False; [done|].
    intros El. apply (lookup_buf_Some _ _ _ _ Hi) in El as [_ [_ ?]]. congruence.
Qed.

(** ** Changes that leave the buffers alone but for the pointers *)

Record relinked s s' : Prop := {
  rl_len : length (k_bufs s') = length (k_bufs s);
  rl_core : ∀ i, core (get_buf s' i) = core (get_buf s i);
  rl_disk : k_disk s' = k_disk s;
  rl_pid : mypid s' = mypid s;
}.

Section relinked.
Context s s' (Hr : relinked s s').

Lemma rl_fields i :
  b_dev (get_buf s' i) = b_dev (get_buf s i) ∧ b_blockno (get_buf s' i) = b_blockno (get_buf s i) ∧
  b_valid (get_buf s' i) = b_valid (get_buf s i) ∧ b_refcnt (get_buf s' i) = b_refcnt (get_buf s i) ∧
  b_data (get_buf s' i) = b_data (get_buf s i) ∧ buf_sl i s' = buf_sl i s.
Proof.
  pose proof (rl_core _ _ Hr i) as Hc. unfold buf_sl, core, set_b_prev, set_b_next in *. simpl in *.
  by inversion Hc.
Qed.

Lemma rl_holds dev bno i : holds s' dev bno i ↔ holds s dev bno i.
Proof. unfold holds. by destruct (rl_fields i) as (-> & -> & _). Qed.

Lemma rl_lookup bno : lookup_buf s' bno = lookup_buf s bno.
Proof. unfold lookup_buf. f_equal. apply list_filter_iff. intros. apply rl_holds. Qed.

Lemma rl_dblock bno : dblock s' bno = dblock s bno.
Proof. unfold dblock. by rewrite (rl_disk _ _ Hr). Qed.

Lemma rl_content bno : content s' bno = content s bno.
Proof.
  unfold content. rewrite rl_lookup, rl_dblock. destruct (lookup_buf s bno) as [i|]; [|done].
  by destruct (rl_fields i) as (_ & _ & -> & _ & -> & _).
Qed.

Lemma rl_refs bno : refs s' bno = refs s bno.
Proof.
  unfold refs. rewrite rl_lookup. destruct (lookup_buf s bno) as [i|]; [|done].
  by destruct (rl_fields i) as (_ & _ & _ & -> & _).
Qed.

Lemma rl_handle i bno : handle s i bno → handle s' i bno.
Proof.
  intros [H1 H2 H3 H4 H5]. destruct (rl_fields i) as (_ & _ & E3 & E4 & E5 & E6).
  split; [done|by apply rl_holds|by rewrite E3| |by rewrite E4].
  rewrite E6, H4. unfold my_lock. by rewrite (rl_pid _ _ Hr).
Qed.

Lemma rl_inv order order' :
  bcache_inv s order → order' ≡ₚ order → linked (k_bufs s') HEAD order' HEAD → bcache_inv s' order'.
Proof.
  intros Hi Hp Hl. split.
  - by rewrite (rl_len _ _ Hr), (bi_len _ _ Hi).
  - by rewrite Hp, (bi_perm _ _ Hi).
  - done.
  - intros i j. destruct (rl_fields i) as (-> & -> & _), (rl_fields j) as (-> & -> & _). apply (bi_uniq _ _ Hi).
  - intros i. destruct (rl_fields i) as (_ & _ & _ & -> & _). apply (bi_ref _ _ Hi).
  - intros i. destruct (rl_fields i) as (-> & _). apply (bi_dev _ _ Hi).
  - intros i. destruct (rl_fields i) as (-> & _ & -> & _). apply (bi_valid _ _ Hi).
  - intros i. destruct (rl_fields i) as (-> & _ & _ & -> & _). apply (bi_used _ _ Hi).
  - intros i. destruct (rl_fields i) as (_ & _ & _ & -> & _ & ->). apply (bi_unlocked _ _ Hi).
  - intros i. destruct (rl_fields i) as (_ & -> & -> & -> & -> & _). rewrite rl_dblock. apply (bi_clean _ _ Hi).
Qed.
End relinked.

(** ** Changing the reference count and the lock of a held buffer *)

Lemma set_ref_post s order i bno r lk :
  bcache_inv s order → handle s i bno → 0 <= r →
  (r = 0 → sl_locked lk = false) → (r = 0 → content s bno = dblock s bno) →
  let s' := put_buf i (set_b_refcnt r (set_b_lock lk (get_buf s i))) s in
  bcache_inv s' order ∧ (∀ x, content s' x = content s x) ∧
  (∀ x, refs s' x = if decide (x = bno) then r else refs s x).
Proof.
  intros Hi Hh Hr Hl Hc s'. destruct (hd_holds _ _ _ Hh) as [Ed Eb]. pose proof (hd_lt _ _ _ Hh) as Hlt.
  pose proof (buf_lt _ _ _ Hi Hlt) as Hlen. rewrite (handle_content _ _ _ _ Hi Hh) in Hc.
  assert (Hi' : bcache_inv s' order).
  { apply bcache_inv_put; simpl; try done; try lia.
    - intros j Hj Hne Hd [Hx Hy]. apply Hne. apply (bi_uniq _ _ Hi); congruence.
    - intros Hr0 _. rewrite Eb. auto. }
  split_and!; [done| |].
  - intros x. unfold s'. rewrite (content_put s order) by done. simpl. rewrite Eb, (hd_valid _ _ _ Hh).
    case_decide as E; [subst x; by rewrite (handle_content _ _ _ _ Hi Hh)|].
    rewrite decide_False; [done|]. intros El. apply (lookup_buf_Some _ _ _ _ Hi) in El as [_ [_ ?]]. congruence.
  - intros x. unfold s'. rewrite (refs_put s order) by done. simpl. rewrite Eb.
    case_decide as E; [done|].
    rewrite decide_False; [done|]. intros El. apply (lookup_buf_Some _ _ _ _ Hi) in El as [_ [_ ?]]. congruence.
Qed.

(** ** [brelse] *)

(** The process table after the wakeup of [releasesleep]. *)
Definition woken_procs (ch : chan) s : list proc :=
  imap (woken ch (ps_cur (k_proc s))) (ps_procs (k_proc s)).

Lemma mypid_woken ch s : mypid (set_procs (woken_procs ch s) s) = mypid s.
Proof.
  unfold mypid. autorewrite with kst. f_equal. unfold get_proc, woken_procs.
  rewrite !list_lookup_total_alt, list_lookup_imap. destruct (_ !! _); [|done]. simpl.
  unfold woken. rewrite bool_decide_false by tauto. done.
Qed.

Lemma relink_run i s :
  (n ← buf_get i b_next; p ← buf_get i b_prev; upd_buf n (set_b_prev p);;
   p ← buf_get i b_prev; n ← buf_get i b_next; upd_buf p (set_b_next n);;
   n ← buf_get HEAD b_next; upd_buf i (set_b_next n);; upd_buf i (set_b_prev HEAD);;
   n ← buf_get HEAD b_next; upd_buf n (set_b_prev i);; upd_buf HEAD (set_b_next i)) s =
  Done tt (set_bufs (link_front i (unlink i (k_bufs s))) s).
Proof. reflexivity. Qed.

(** The buffer when [brelse] is done with its fields. *)
Definition released (b : buf) : buf := set_b_refcnt (b_refcnt b - 1) (set_b_lock (mk_sleeplock false 0) b).

Lemma brelse_code s i bno :
  (i < length (k_bufs s))%nat → k_held s = [] → handle s i bno → length (ps_procs (k_proc s)) = NPROC →
  let s1 := put_buf i (released (get_buf s i)) (set_procs (woken_procs (ChBufLock i) s) s) in
  brelse i s = Done tt (if b_refcnt (get_buf s i) =? 1
                        then set_bufs (link_front i (unlink i (k_bufs s1))) s1 else s1).
Proof.
  intros Hlen Hk Hh Hnp s1. pose proof (hd_ref _ _ _ Hh) as Href. unfold brelse.
  run_by (by eapply holdingsleep_handle). cbn [negb].
  assert (Hrel : releasesleep_buf i s = Done tt (set_procs (woken_procs (ChBufLock i) s)
                   (put_buf_sl i (mk_sleeplock false 0) s))).
  { apply (releasesleep_run (LBufSleep i) (ChBufLock i) (put_buf_sl i)); try done.
    - rewrite Hk. set_solver.
    - by apply no_proc_locks_nil. }
  run_by (exact Hrel). run_by (apply acquire_ok; simpl; rewrite Hk; set_solver).
  run_by (apply upd_buf_run). run_by (unfold buf_get, gets; reflexivity).
  set (s0 := set_held _ _).
  assert (Hs0 : put_buf i (set_b_refcnt (u32 (b_refcnt (get_buf s0 i) - 1)) (get_buf s0 i)) s0 =
    set_held [LBcache] s1).
  { change (get_buf s0 i) with (get_buf (put_buf_sl i (mk_sleeplock false 0) s) i).
    unfold put_buf_sl at 1 2. rewrite get_put_buf by done. simpl. rewrite u32_small by lia.
    unfold s0, s1, put_buf_sl, released. simpl. rewrite Hk.
    unfold put_buf. simpl. by rewrite list_insert_insert_eq. }
  rewrite Hs0.
  assert (Hr : b_refcnt (get_buf (set_held [LBcache] s1) i) = b_refcnt (get_buf s i) - 1).
  { change (get_buf (set_held [LBcache] s1) i) with (get_buf s1 i). unfold s1. by rewrite get_put_buf. }
  rewrite Hr. replace (b_refcnt (get_buf s i) - 1 =? 0) with (b_refcnt (get_buf s i) =? 1) by lia.
  destruct (b_refcnt (get_buf s i) =? 1); unfold when.
  - run_by (apply relink_run). erewrite (release_ok _ []); [|done|set_solver].
    f_equal. unfold s1. destruct s; simpl in *. by subst.
  - run_by reflexivity. erewrite (release_ok _ []); [|done|set_solver].
    f_equal. unfold s1. destruct s; simpl in *. by subst.
Qed.
End bioinv.
