(* ===== verification/BioSpec.v ===== *)
(** * The buffer cache as its clients see it

    The abstract cache: for every block of the root device its content, the
    number of references to it, who holds its sleep lock, what is on the disk,
    and the block writes so far.  [Rep] relates it to the kernel's state; each
    operation of bio.c implements an operation on the abstract cache. *)

From S2P Require Import Prelude Memory Params State Sched Bio BioList BioInv.

(** ** The abstract cache *)

(** The sleep lock of a block: not taken, taken by the running process with
    buffer [i], or by another process. *)
Inductive hold : Set := Free | Mine (i : nat) | Busy.

Record cache : Type := mk_cache {
  c_content : Z → list Z;
  c_refs : Z → Z;
  c_hold : Z → hold;
  c_disk : Z → list Z;
  c_trace : list (Z * list Z);
}.

Definition upd {A} (x : Z) (v : A) (f : Z → A) : Z → A := λ y, if decide (y = x) then v else f y.

Lemma upd_eq {A} x (v : A) f : upd x v f x = v.
Proof. unfold upd. by rewrite decide_True. Qed.
Lemma upd_ne {A} x y (v : A) f : y ≠ x → upd x v f y = f y.
Proof. intros. unfold upd. by rewrite decide_False. Qed.

(** The abstract operations. *)
Definition a_bread (bno : Z) (i : nat) (c : cache) : cache :=
  mk_cache (c_content c) (upd bno (c_refs c bno + 1) (c_refs c)) (upd bno (Mine i) (c_hold c))
    (c_disk c) (c_trace c).
Definition a_set (bno : Z) (d : list Z) (c : cache) : cache :=
  mk_cache (upd bno d (c_content c)) (c_refs c) (c_hold c) (c_disk c) (c_trace c).
Definition a_bwrite (bno : Z) (c : cache) : cache :=
  mk_cache (c_content c) (c_refs c) (c_hold c) (upd bno (c_content c bno) (c_disk c))
    (c_trace c ++ [(bno, c_content c bno)]).
Definition a_brelse (bno : Z) (c : cache) : cache :=
  mk_cache (c_content c) (upd bno (c_refs c bno - 1) (c_refs c)) (upd bno Free (c_hold c))
    (c_disk c) (c_trace c).
Definition a_refs (bno r : Z) (c : cache) : cache :=
  mk_cache (c_content c) (upd bno r (c_refs c)) (c_hold c) (c_disk c) (c_trace c).

(** A buffer is available for block [bno]: it has one already, or fewer than
    [NBUF] blocks are referenced. *)
Definition room (c : cache) (bno : Z) : Prop :=
  0 < c_refs c bno ∨ ∃ R : list Z, (∀ x, 0 < c_refs c x → x ∈ R) ∧ (length R < NBUF)%nat.

(** Two caches that agree on every block. *)
Record ceq (c c' : cache) : Prop := {
  ceq_content : ∀ x, c_content c' x = c_content c x;
  ceq_refs : ∀ x, c_refs c' x = c_refs c x;
  ceq_hold : ∀ x, c_hold c' x = c_hold c x;
  ceq_disk : ∀ x, c_disk c' x = c_disk c x;
  ceq_trace : c_trace c' = c_trace c;
}.

(** ** What the operations leave alone *)

(** Only buffers, the disk, and the states of processes that slept change. *)
Record bframe (s s' : kst) : Prop := {
  bf_eq : s' = set_bufs (k_bufs s') (set_disk (k_disk s') (set_procs (ps_procs (k_proc s')) s));
  bf_len : length (ps_procs (k_proc s')) = length (ps_procs (k_proc s));
  bf_procs : ∀ i, get_proc s' i = get_proc s i ∨
    i ≠ ps_cur (k_proc s) ∧ p_state (get_proc s i) = SLEEPING ∧
    get_proc s' i = set_p_state RUNNABLE (get_proc s i);
}.

Lemma bframe_refl s : bframe s s.
Proof. split; [by destruct s as [? [] ? ? ? ? ? ? ? ? ? ? ? ? ? ?]|done|by left]. Qed.

Lemma bframe_cur s s' : bframe s s' → ps_cur (k_proc s') = ps_cur (k_proc s).
Proof. intros Hf. by rewrite (bf_eq _ _ Hf). Qed.
Lemma bframe_held s s' : bframe s s' → k_held s' = k_held s.
Proof. intros Hf. by rewrite (bf_eq _ _ Hf). Qed.
Lemma bframe_log s s' : bframe s s' → k_log s' = k_log s.
Proof. intros Hf. by rewrite (bf_eq _ _ Hf). Qed.
Lemma bframe_sb s s' : bframe s s' → k_sb s' = k_sb s.
Proof. intros Hf. by rewrite (bf_eq _ _ Hf). Qed.
Lemma bframe_itable s s' : bframe s s' → k_itable s' = k_itable s.
Proof. intros Hf. by rewrite (bf_eq _ _ Hf). Qed.
Lemma bframe_mem s s' : bframe s s' → k_mem s' = k_mem s.
Proof. intros Hf. by rewrite (bf_eq _ _ Hf). Qed.

Lemma bframe_trans s1 s2 s3 : bframe s1 s2 → bframe s2 s3 → bframe s1 s3.
Proof.
  intros H1 H2. pose proof (bframe_cur _ _ H1) as Hc. destruct H1 as [E1 L1 P1], H2 as [E2 L2 P2]. split.
  - rewrite E2 at 1. rewrite E1. done.
  - congruence.
  - intros i. destruct (P2 i) as [->|(Hi & Hs & ->)]; [done|]. rewrite Hc in Hi.
    destruct (P1 i) as [E|(_ & _ & E)]; rewrite E in *; [by right|done].
Qed.
#[export] Instance bframe_preorder : PreOrder bframe.
Proof. split; [exact bframe_refl|exact bframe_trans]. Qed.

(** ** The representation *)

Section rep.
Context `{DiskRw} `{WaitFuel}.
Implicit Types (s : kst) (c : cache).

Definition hold_ok s (x : Z) (h : hold) : Prop :=
  match h with
  | Free => ∀ j, lookup_buf s x = Some j → sl_locked (buf_sl j s) = false
  | Mine i => handle s i x
  | Busy => True
  end.

Record Rep s c : Prop := {
  rep_inv : ∃ order, bcache_inv s order;
  rep_np : length (ps_procs (k_proc s)) = NPROC;
  rep_content : ∀ x, content s x = c_content c x;
  rep_refs : ∀ x, refs s x = c_refs c x;
  rep_hold : ∀ x, hold_ok s x (c_hold c x);
  rep_disk : ∀ x, dblock s x = c_disk c x;
  rep_trace : d_trace (k_disk s) = c_trace c;
}.

Lemma Rep_relinked s s' c :
  relinked s s' → (∀ order, bcache_inv s order → ∃ order', order' ≡ₚ order ∧ linked (k_bufs s') HEAD order' HEAD) →
  length (ps_procs (k_proc s')) = NPROC → Rep s c → Rep s' c.
Proof.
  intros Hr Hl Hn [[order Hi] R1 R2 R3 R4 R5 R6]. destruct (Hl order Hi) as (order' & Hp & Hl').
  split.
  - exists order'. by eapply (rl_inv _ _ Hr).
  - done.
  - intros x. by rewrite (rl_content _ _ Hr).
  - intros x. by rewrite (rl_refs _ _ Hr).
  - intros x. specialize (R4 x). destruct (c_hold c x); simpl in *; [|by apply (rl_handle _ _ Hr)|done].
    intros j. rewrite (rl_lookup _ _ Hr). destruct (rl_fields _ _ Hr j) as (_ & _ & _ & _ & _ & ->). apply R4.
  - intros x. by rewrite (rl_dblock _ _ Hr).
  - by rewrite (rl_disk _ _ Hr).
Qed.

(** [Rep] depends on the buffers, the disk and the process table only. *)
Lemma Rep_pid s s' c :
  k_bufs s' = k_bufs s → k_disk s' = k_disk s → mypid s' = mypid s → length (ps_procs (k_proc s')) = NPROC →
  Rep s c → Rep s' c.
Proof.
  intros Eb Ed Ep Hn. apply Rep_relinked; [|intros order Hi; exists order; split; [done|rewrite Eb; apply Hi]|done].
  split; [by rewrite Eb|intros; unfold get_buf; by rewrite Eb|done|done].
Qed.

Lemma Rep_ext s s' c :
  k_bufs s' = k_bufs s → k_disk s' = k_disk s → k_proc s' = k_proc s → Rep s c → Rep s' c.
Proof.
  intros Eb Ed Ep HR. eapply Rep_pid; try done; [unfold mypid, get_proc; by rewrite Ep|rewrite Ep; apply HR].
Qed.

Lemma Rep_ceq s c c' : ceq c c' → Rep s c → Rep s c'.
Proof.
  intros [E1 E2 E3 E4 E5] [R0 R1 R2 R3 R4 R5 R6].
  split; [done|done|intros x..|]; [by rewrite E1|by rewrite E2|by rewrite E3|by rewrite E4|by rewrite E5].
Qed.

Lemma Rep_refs_nonneg s c x : Rep s c → 0 <= c_refs c x.
Proof. intros HR. destruct (rep_inv _ _ HR) as [order Hi]. rewrite <- (rep_refs _ _ HR). by eapply refs_nonneg. Qed.

Lemma Rep_mine_refs s c x i : Rep s c → c_hold c x = Mine i → 0 < c_refs c x < 2 ^ 32.
Proof.
  intros HR Hm. destruct (rep_inv _ _ HR) as [order Hi]. pose proof (rep_hold _ _ HR x) as Hh. rewrite Hm in Hh.
  rewrite <- (rep_refs _ _ HR), (handle_refs _ _ _ _ Hi Hh). apply Hh.
Qed.

(** ** Availability of buffers *)

Lemma all_used_distinct s order :
  bcache_inv s order → (∀ i, (i < NBUF)%nat → ¬ unused s i) →
  NoDup (map (λ i, b_blockno (get_buf s i)) (seq 0 NBUF)).
Proof.
  intros Hi Hu. apply NoDup_fmap_2_strong; [|apply NoDup_seq].
  intros i j Hx%elem_of_seq Hy%elem_of_seq E. assert (Hdx : b_dev (get_buf s i) ≠ 0).
  { apply (bi_used _ _ Hi); [lia|]. apply Hu. lia. }
  assert (Hdy : b_dev (get_buf s j) ≠ 0) by (apply (bi_used _ _ Hi); [lia|]; apply Hu; lia).
  apply (bi_uniq _ _ Hi); [lia|lia|done| |done].
  rewrite (bi_dev _ _ Hi i), (bi_dev _ _ Hi j); [done|lia|done|lia|done].
Qed.

Lemma room_unused s order c bno :
  bcache_inv s order → Rep s c → room c bno → c_refs c bno = 0 → ∃ i, (i < NBUF)%nat ∧ unused s i.
Proof.
  intros Hi HR [Hr|(R & HRin & Hlen)] Hr0; [lia|].
  destruct (decide (Exists (unused s) (seq 0 NBUF))) as [He|Hne].
  { apply Exists_exists in He as (i & Hin%elem_of_seq & Hu). exists i. split; [lia|done]. }
  assert (Hu : ∀ i, (i < NBUF)%nat → ¬ unused s i).
  { intros i Hlt Hun. apply Hne. apply Exists_exists. exists i. split; [|done]. apply elem_of_seq. lia. }
  pose proof (all_used_distinct s order Hi Hu) as Hnd.
  apply (NoDup_submseteq _ R) in Hnd.
  - apply submseteq_length in Hnd. rewrite length_map, length_seq in Hnd. lia.
  - intros x (i & -> & Hin%elem_of_seq)%list_elem_of_fmap. apply HRin. rewrite <- (rep_refs _ _ HR).
    assert (Hlt : (i < NBUF)%nat) by lia. pose proof (Hu i Hlt) as Hun. pose proof (bi_ref _ _ Hi i Hlt).
    unfold refs. rewrite (proj2 (lookup_buf_Some s order (b_blockno (get_buf s i)) i Hi)).
    + unfold unused in Hun. lia.
    + split; [done|]. split; [|done]. apply (bi_dev _ _ Hi); [done|]. by apply (bi_used _ _ Hi).
Qed.

(** ** The operations *)

Lemma bframe_put s i b : bframe s (put_buf i b s).
Proof. split; [by destruct s as [? [] ? ? ? ? ? ? ? ? ? ? ? ? ? ?]|done|by left]. Qed.

Lemma handle_put_ne s i b j x : i ≠ j → handle s j x → handle (put_buf i b s) j x.
Proof.
  intros Hne [H1 H2 H3 H4 H5]. split; unfold holds, buf_sl in *; rewrite ?get_put_buf_ne by done; done.
Qed.

(** A change of buffer [i] to one that holds [b_blockno b] keeps the locks of
    the other blocks. *)
Lemma hold_put s order i b x h :
  bcache_inv s order → bcache_inv (put_buf i b s) order → (i < NBUF)%nat → b_dev b = ROOTDEV →
  x ≠ b_blockno b → ¬ handle s i x → hold_ok s x h → hold_ok (put_buf i b s) x h.
Proof.
  intros Hi Hi' Hlt Hd Hx Hnh. destruct h as [|j|]; simpl; [|intros Hj; by apply handle_put_ne; [intros ->|]|done].
  intros Hf j. rewrite (lookup_put s order) by done. rewrite decide_False by done.
  case_decide as E; [done|]. intros Hj. unfold buf_sl. rewrite get_put_buf_ne; [by apply Hf|congruence].
Qed.

Lemma handle_unique s order i x y : bcache_inv s order → holds s ROOTDEV x i → handle s i y → y = x.
Proof. intros Hi [_ E] Hh. destruct (hd_holds _ _ _ Hh) as [_ E']. congruence. Qed.

Lemma bread_rep s c bno :
  Rep s c → k_held s = [] → c_hold c bno = Free → c_refs c bno + 1 < 2 ^ 32 → room c bno →
  ∃ i s', bread ROOTDEV bno s = Done i s' ∧ Rep s' (a_bread bno i c) ∧ bframe s s'.
Proof.
  intros HR Hk Hf Href Hroom. destruct (rep_inv _ _ HR) as [order Hi].
  pose proof (rep_hold _ _ HR bno) as Hfree. rewrite Hf in Hfree. simpl in Hfree.
  assert (Hcan : can_read s bno).
  { unfold can_read. destruct (lookup_buf s bno) as [i|] eqn:E.
    - split; [by apply Hfree|]. rewrite <- (rep_refs _ _ HR) in Href. unfold refs in Href. by rewrite E in Href.
    - apply (room_unused s order c bno); try done. rewrite <- (rep_refs _ _ HR). unfold refs. by rewrite E. }
  destruct (bread_run s order bno Hi Hk Hcan) as (i & b & Hrun & Hi' & Hh & Hct & Hrf & Hlru).
  exists i, (put_buf i b s). split; [done|]. split; [|apply bframe_put].
  destruct (hd_holds _ _ _ Hh) as [Ed Eb]. pose proof (hd_lt _ _ _ Hh) as Hlt.
  pose proof (buf_lt _ _ _ Hi Hlt) as Hlen. rewrite get_put_buf in Ed, Eb by done.
  assert (Hnh : ∀ x, x ≠ bno → ¬ handle s i x).
  { intros x Hx Hhx. destruct (lookup_buf s bno) as [j|] eqn:E.
    - apply Hx. destruct (decide (j = i)) as [->|Hji].
      + apply (lookup_buf_Some _ _ _ _ Hi) in E as [_ E].
        exact (handle_unique _ _ _ _ _ Hi E Hhx).
      + exfalso. pose proof (handle_lookup _ _ _ _ Hi Hhx) as El.
        apply (lookup_buf_Some _ _ _ _ Hi) in E as [Hj Hhj].
        assert (E2 : lookup_buf (put_buf i b s) bno = Some j).
        { apply (lookup_buf_Some _ _ _ _ Hi'). split; [done|]. unfold holds. by rewrite get_put_buf_ne by auto. }
        rewrite (handle_lookup _ _ _ _ Hi' Hh) in E2. congruence.
    - specialize (Hlru eq_refl). apply last_Some_elem_of in Hlru. apply list_elem_of_filter in Hlru as [Hun _].
      unfold unused in Hun. pose proof (hd_ref _ _ _ Hhx). lia. }
  destruct HR as [R0 R1 R2 R3 R4 R5 R6]. split; simpl.
  - by exists order.
  - done.
  - intros x. by rewrite Hct.
  - intros x. rewrite Hrf, R3. unfold upd. case_decide as E; [subst x; done|lia].
  - intros x. unfold upd. case_decide as E; [by subst x|].
    apply (hold_put s order); try done; [by rewrite Eb|by apply Hnh].
  - done.
  - done.
Qed.

Lemma bwrite_rep s c bno i :
  Rep s c → k_held s = [] → c_hold c bno = Mine i →
  ∃ s', bwrite i s = Done tt s' ∧ Rep s' (a_bwrite bno c) ∧ bframe s s'.
Proof.
  intros HR Hk Hm. destruct (rep_inv _ _ HR) as [order Hi]. pose proof (rep_hold _ _ HR bno) as Hh.
  rewrite Hm in Hh. destruct (bwrite_run s order i bno Hi Hk Hh) as (s' & Hrun & Hi' & Hh' & Es & Hct & Hrf & Hdb).
  exists s'. split; [done|]. destruct HR as [R0 R1 R2 R3 R4 R5 R6]. split.
  - split; simpl.
    + by exists order.
    + by rewrite Es.
    + intros x. by rewrite Hct.
    + intros x. by rewrite Hrf.
    + intros x. specialize (R4 x). destruct (c_hold c x) as [|j|]; simpl in *; [|destruct R4 as [H1 H2 H3 H4 H5]|done].
      * rewrite Es. exact R4.
      * rewrite Es. by split.
    + intros x. rewrite Hdb, R2. unfold upd. case_decide; [done|]. by rewrite R5.
    + rewrite Es. simpl. by rewrite R6, R2.
  - rewrite Es. split; [by destruct s as [? [] ? ? ? ? ? ? ? ? ? ? ? ? ? ?]|done|by left].
Qed.

(** Client code that fills a locked buffer. *)
Lemma set_data_rep s c bno i d :
  Rep s c → c_hold c bno = Mine i →
  Rep (put_buf i (set_b_data d (get_buf s i)) s) (a_set bno d c).
Proof.
  intros HR Hm. destruct (rep_inv _ _ HR) as [order Hi]. pose proof (rep_hold _ _ HR bno) as Hh.
  rewrite Hm in Hh. destruct (set_data_run s order i bno d Hi Hh) as (Hi' & Hh' & Hrf & Hct).
  destruct (hd_holds _ _ _ Hh) as [Ed Eb]. pose proof (hd_lt _ _ _ Hh) as Hlt.
  destruct HR as [R0 R1 R2 R3 R4 R5 R6]. split; simpl; [by exists order|done| | | |done|done].
  - intros x. rewrite Hct. unfold upd. case_decide; [done|]. apply R2.
  - intros x. by rewrite Hrf.
  - intros x. destruct (decide (x = bno)) as [->|Hx]; [by rewrite Hm|].
    apply (hold_put s order); try done; simpl; [by rewrite Eb|].
    intros Hhx. apply Hx. eapply handle_unique; [exact Hi| |exact Hhx]. by split.
Qed.

Lemma buf_data_rep s c bno i : Rep s c → c_hold c bno = Mine i → b_data (get_buf s i) = c_content c bno.
Proof.
  intros HR Hm. destruct (rep_inv _ _ HR) as [order Hi]. pose proof (rep_hold _ _ HR bno) as Hh.
  rewrite Hm in Hh. by rewrite <- (rep_content _ _ HR), (handle_content _ _ _ _ Hi Hh).
Qed.

Lemma buf_blockno_rep s c bno i : Rep s c → c_hold c bno = Mine i → b_blockno (get_buf s i) = bno.
Proof. intros HR Hm. pose proof (rep_hold _ _ HR bno) as Hh. rewrite Hm in Hh. apply Hh. Qed.

Lemma set_ref_rep s c bno i r lk h :
  Rep s c → c_hold c bno = Mine i → 0 <= r → (r = 0 → sl_locked lk = false) →
  (r = 0 → c_content c bno = c_disk c bno) →
  let s' := put_buf i (set_b_refcnt r (set_b_lock lk (get_buf s i))) s in
  hold_ok s' bno h →
  Rep s' (mk_cache (c_content c) (upd bno r (c_refs c)) (upd bno h (c_hold c)) (c_disk c) (c_trace c)).
Proof.
  intros HR Hm Hr Hl Hc s' Hok. destruct (rep_inv _ _ HR) as [order Hi]. pose proof (rep_hold _ _ HR bno) as Hh.
  rewrite Hm in Hh. destruct (hd_holds _ _ _ Hh) as [Ed Eb]. pose proof (hd_lt _ _ _ Hh) as Hlt.
  destruct (set_ref_post s order i bno r lk Hi Hh Hr Hl) as (Hi' & Hct & Hrf).
  { rewrite (rep_content _ _ HR), (rep_disk _ _ HR). done. }
  destruct HR as [R0 R1 R2 R3 R4 R5 R6]. split; simpl; [by exists order|done| | | |done|done].
  - intros x. by rewrite Hct.
  - intros x. unfold s'. rewrite Hrf. unfold upd. case_decide; [done|]. apply R3.
  - intros x. unfold upd. case_decide as E; [by subst x|].
    apply (hold_put s order); try done; simpl; [by rewrite Eb|].
    intros Hhx. apply E. eapply handle_unique; [exact Hi| |exact Hhx]. by split.
Qed.

Lemma bpin_code s i :
  unlocked LBcache s → b_refcnt (get_buf s i) + 1 < 2 ^ 32 → 0 <= b_refcnt (get_buf s i) →
  bpin i s = Done tt (put_buf i (set_b_refcnt (b_refcnt (get_buf s i) + 1) (get_buf s i)) s).
Proof.
  intros Hk Hr Hr0. unfold bpin. run_by (apply acquire_ok, Hk). run_by (apply upd_buf_run).
  erewrite (release_ok _ (k_held s)); [|done|apply Hk]. change (get_buf (set_held _ s) i) with (get_buf s i).
  rewrite u32_small by lia. by destruct s.
Qed.

Lemma bunpin_code s i :
  unlocked LBcache s → 0 < b_refcnt (get_buf s i) < 2 ^ 32 →
  bunpin i s = Done tt (put_buf i (set_b_refcnt (b_refcnt (get_buf s i) - 1) (get_buf s i)) s).
Proof.
  intros Hk Hr. unfold bunpin. run_by (apply acquire_ok, Hk). run_by (apply upd_buf_run).
  erewrite (release_ok _ (k_held s)); [|done|apply Hk]. change (get_buf (set_held _ s) i) with (get_buf s i).
  rewrite u32_small by lia. by destruct s.
Qed.

Lemma set_b_lock_id b : set_b_lock (b_lock b) b = b.
Proof. by destruct b. Qed.

(** A new count for a block the process holds. *)
Lemma a_refs_rep s c bno i r :
  Rep s c → c_hold c bno = Mine i → 0 < r < 2 ^ 32 →
  Rep (put_buf i (set_b_refcnt r (get_buf s i)) s) (a_refs bno r c).
Proof.
  intros HR Hm Hr. pose proof (rep_hold _ _ HR bno) as Hh. rewrite Hm in Hh.
  destruct (rep_inv _ _ HR) as [order Hi]. pose proof (buf_lt _ _ _ Hi (hd_lt _ _ _ Hh)) as Hlen.
  eapply Rep_ceq; [|rewrite <- (set_b_lock_id (get_buf s i)) at 1;
                    apply (set_ref_rep s c bno i r (b_lock (get_buf s i)) (Mine i)); try done; try lia].
  - split; simpl; try done. intros x. unfold upd. case_decide; [by subst x|done].
  - simpl. destruct Hh as [H1 H2 H3 H4 H5]. split; unfold holds, buf_sl in *; rewrite ?get_put_buf by done; done.
Qed.

Lemma bpin_rep s c bno i :
  Rep s c → unlocked LBcache s → c_hold c bno = Mine i → c_refs c bno + 1 < 2 ^ 32 →
  ∃ s', bpin i s = Done tt s' ∧ Rep s' (a_refs bno (c_refs c bno + 1) c) ∧ bframe s s'.
Proof.
  intros HR Hk Hm Hr. pose proof (rep_hold _ _ HR bno) as Hh. rewrite Hm in Hh.
  destruct (rep_inv _ _ HR) as [order Hi]. pose proof (Rep_mine_refs _ _ _ _ HR Hm) as Hr0.
  assert (Er : b_refcnt (get_buf s i) = c_refs c bno) by (by rewrite <- (rep_refs _ _ HR), (handle_refs _ _ _ _ Hi Hh)).
  eexists. split; [apply bpin_code; [done|lia|lia]|]. split; [|apply bframe_put].
  rewrite Er. apply a_refs_rep; [done|done|lia].
Qed.

Lemma bunpin_rep s c bno i :
  Rep s c → unlocked LBcache s → c_hold c bno = Mine i → 1 < c_refs c bno →
  ∃ s', bunpin i s = Done tt s' ∧ Rep s' (a_refs bno (c_refs c bno - 1) c) ∧ bframe s s'.
Proof.
  intros HR Hk Hm Hr. pose proof (rep_hold _ _ HR bno) as Hh. rewrite Hm in Hh.
  destruct (rep_inv _ _ HR) as [order Hi]. pose proof (Rep_mine_refs _ _ _ _ HR Hm) as Hr0.
  assert (Er : b_refcnt (get_buf s i) = c_refs c bno) by (by rewrite <- (rep_refs _ _ HR), (handle_refs _ _ _ _ Hi Hh)).
  eexists. split; [apply bunpin_code; [done|lia]|]. split; [|apply bframe_put].
  rewrite Er. apply a_refs_rep; [done|done|lia].
Qed.

Lemma Rep_woken ch s c : Rep s c → Rep (set_procs (woken_procs ch s) s) c.
Proof.
  intros HR. eapply Rep_pid; [..|exact HR]; try done; [apply mypid_woken|].
  autorewrite with kst. unfold woken_procs. rewrite length_imap. apply HR.
Qed.

Lemma Rep_move_front s c i :
  (i < NBUF)%nat → Rep s c → Rep (set_bufs (link_front i (unlink i (k_bufs s))) s) c.
Proof.
  intros Hlt HR. apply (Rep_relinked s); [| |apply HR|done].
  - split; simpl; try done.
    + by rewrite length_link_front, length_unlink.
    + intros j. unfold get_buf. simpl. by rewrite core_link_front, core_unlink.
  - intros order Hi. simpl. destruct (move_front (k_bufs s) i order) as [Hp Hl]; try apply Hi.
    + by apply (order_elem _ _ _ Hi).
    + by eexists.
Qed.

Lemma bframe_woken ch s : bframe s (set_procs (woken_procs ch s) s).
Proof.
  split; [by destruct s as [? [] ? ? ? ? ? ? ? ? ? ? ? ? ? ?]| |].
  - autorewrite with kst. apply length_imap.
  - intros i. autorewrite with kst. unfold get_proc, woken_procs. rewrite !list_lookup_total_alt, list_lookup_imap.
    destruct (_ !! i) as [p|]; [|by left]. simpl. unfold woken. case_bool_decide as Hd; [|by left]. right. tauto.
Qed.

Lemma brelse_rep s c bno i :
  Rep s c → k_held s = [] → c_hold c bno = Mine i → (c_refs c bno = 1 → c_content c bno = c_disk c bno) →
  ∃ s', brelse i s = Done tt s' ∧ Rep s' (a_brelse bno c) ∧ bframe s s'.
Proof.
  intros HR Hk Hm Hclean. pose proof (rep_hold _ _ HR bno) as Hh. rewrite Hm in Hh.
  destruct (rep_inv _ _ HR) as [order Hi]. pose proof (Rep_mine_refs _ _ _ _ HR Hm) as Hr0.
  pose proof (hd_lt _ _ _ Hh) as Hlt. pose proof (buf_lt _ _ _ Hi Hlt) as Hlen.
  assert (Er : b_refcnt (get_buf s i) = c_refs c bno) by (by rewrite <- (rep_refs _ _ HR), (handle_refs _ _ _ _ Hi Hh)).
  eexists. split; [eapply (brelse_code s i bno); try done; apply HR|].
  set (s0 := set_procs _ s). set (s1 := put_buf i _ s0).
  assert (HR1 : Rep s1 (a_brelse bno c)).
  { pose proof (Rep_woken (ChBufLock i) s c HR) as HR0. fold s0 in HR0. unfold s1, released, a_brelse.
    change (get_buf s i) with (get_buf s0 i). change (get_buf s i) with (get_buf s0 i) in Er. rewrite Er.
    apply set_ref_rep; try done; [lia|intros; apply Hclean; lia|].
    simpl. intros j. destruct (rep_inv _ _ HR0) as [order0 Hi0]. pose proof (buf_lt _ _ _ Hi0 Hlt) as Hlen0.
    destruct (decide (j = i)) as [->|Hne]; [intros _; unfold buf_sl; by rewrite get_put_buf|].
    intros Hj. unfold lookup_buf in Hj. apply head_Some_elem_of in Hj.
    apply list_elem_of_filter in Hj as [Hj Hs%elem_of_seq]. unfold holds in Hj. rewrite get_put_buf_ne in Hj by auto.
    exfalso. apply Hne. pose proof (rep_hold _ _ HR0 bno) as Hh0. rewrite Hm in Hh0.
    destruct (hd_holds _ _ _ Hh0), Hj as [Hj ?]. apply (bi_uniq _ _ Hi0); [lia|done|by rewrite Hj|congruence|congruence]. }
  assert (Hf : bframe s s1) by (etransitivity; [apply bframe_woken|apply bframe_put]).
  destruct (_ =? 1); [|done]. split; [by apply Rep_move_front|].
  etransitivity; [exact Hf|]. split; [by destruct s1 as [? [] ? ? ? ? ? ? ? ? ? ? ? ? ? ?]|done|by left].
Qed.
End rep.
