(* ===== verification/BioInit.v ===== *)
(** * The buffer cache: initialisation and the properties of its operations *)

From S2P Require Import Prelude Memory Params State Sched Bio BioList BioInv BioSpec.

Section bioinit.
Context `{DiskRw} `{WaitFuel}.
Implicit Types (s : kst) (c : cache).

(** ** [binit] *)

(** The cache when every block is on the disk only. *)
Definition disk_cache s : cache := mk_cache (dblock s) (λ _, 0) (λ _, Free) (dblock s) (d_trace (k_disk s)).

(** Buffers that are as in the zeroed bss but for the pointers. *)
Definition fresh_bufs (bs : list buf) : Prop :=
  length bs = S NBUF ∧ ∀ i, core (bs !!! i) = core zero_buf.

Lemma fresh_insert bs (i : nat) b : fresh_bufs bs → core b = core zero_buf → fresh_bufs (<[i := b]> bs).
Proof.
  intros [Hl Hc] Hb. split; [by rewrite length_insert|]. intros j. rewrite core_insert; [apply Hc|]. by rewrite Hc.
Qed.

Lemma core_lock b : core b = core zero_buf → set_b_lock (mk_sleeplock false 0) b = b.
Proof. destruct b. unfold core, set_b_prev, set_b_next, set_b_lock. simpl. intros E. inversion E. by subst. Qed.

(** The body of the loop is an insertion at the front. *)
Lemma binit_body_run (i : nat) s :
  fresh_bufs (k_bufs s) →
  (n ← buf_get HEAD b_next; upd_buf i (set_b_next n);; upd_buf i (set_b_prev HEAD);;
   initsleeplock (put_buf_sl i);;
   n ← buf_get HEAD b_next; upd_buf n (set_b_prev i);; upd_buf HEAD (set_b_next i)) s =
  Done tt (set_bufs (link_front i (k_bufs s)) s).
Proof.
  intros Hf. run_by (unfold buf_get, gets; reflexivity). run_by (apply upd_buf_run). run_by (apply upd_buf_run).
  set (s1 := put_buf i _ _).
  assert (Hi : initsleeplock (put_buf_sl i) s1 = Done tt s1).
  { unfold initsleeplock, modify, put_buf_sl. f_equal.
    assert (Hf1 : fresh_bufs (k_bufs s1)).
    { unfold s1. repeat apply fresh_insert; try done; unfold put_buf, get_buf; simpl; rewrite ?core_insert; apply Hf. }
    rewrite core_lock by apply Hf1. unfold put_buf, get_buf.
    destruct (decide (i < length (k_bufs s1))%nat) as [Hlt|]; [|rewrite list_insert_ge by lia; by destruct s1].
    rewrite list_insert_id; [by destruct s1|]. by apply list_lookup_lookup_total_lt. }
  run_by (exact Hi). run_by (unfold buf_get, gets; reflexivity). reflexivity.
Qed.

Lemma fresh_link_front bs i : fresh_bufs bs → fresh_bufs (link_front i bs).
Proof. intros [Hl Hc]. split; [by rewrite length_link_front|]. intros j. by rewrite core_link_front. Qed.

Lemma binit_run s :
  k_bufs s = replicate (S NBUF) zero_buf →
  ∃ bs, binit s = Done tt (set_bufs bs s) ∧ fresh_bufs bs ∧ linked bs HEAD (reverse (seq 0 NBUF)) HEAD.
Proof.
  intros Hb.
  assert (Hz0 : fresh_bufs (k_bufs s)).
  { rewrite Hb. split; [apply length_replicate|]. intros i. f_equal.
    rewrite list_lookup_total_alt. destruct (_ !! i) eqn:E; [|done]. by apply lookup_replicate in E as [-> _]. }
  unfold binit. run_by (apply upd_buf_run). run_by (apply upd_buf_run). set (s1 := put_buf HEAD _ _).
  assert (Hf1 : fresh_bufs (k_bufs s1)).
  { unfold s1. repeat apply fresh_insert; try done; unfold put_buf, get_buf; simpl; rewrite ?core_insert; apply Hz0. }
  assert (Hl1 : linked (k_bufs s1) HEAD [] HEAD).
  { unfold s1, nxt, prv. simpl. unfold nxt, prv, get_buf. simpl.
    rewrite !list_lookup_total_insert_eq; [done| |]; rewrite ?length_insert; unfold HEAD; destruct Hz0; lia. }
  destruct (for_each_inv (λ z s', ∃ bs, s' = set_bufs bs s ∧ fresh_bufs bs ∧
      linked bs HEAD (reverse (seq 0 (Z.to_nat z))) HEAD) NBUF 0 (λ z,
    let b := Z.to_nat z in
    n ← buf_get HEAD b_next; upd_buf b (set_b_next n);; upd_buf b (set_b_prev HEAD);;
    initsleeplock (put_buf_sl b);;
    n ← buf_get HEAD b_next; upd_buf n (set_b_prev b);; upd_buf HEAD (set_b_next b)) s1)
    as (s' & Hrun & bs & -> & Hf & Hl).
  - exists (k_bufs s1). split; [done|]. split; [done|]. exact Hl1.
  - intros z s' Hz (bs & -> & Hf & Hl). eexists. split; [apply binit_body_run; exact Hf|].
    exists (link_front (Z.to_nat z) bs). split_and!; [done|by apply fresh_link_front|].
    replace (Z.to_nat (z + 1)) with (S (Z.to_nat z)) by lia. rewrite seq_S, reverse_snoc. simpl.
    assert (Hin : ∀ i, i ∈ reverse (seq 0 (Z.to_nat z)) → (i < Z.to_nat z)%nat).
    { intros i. rewrite elem_of_reverse, elem_of_seq. lia. }
    apply link_front_linked; [| | | |done].
    + intros i Hi. destruct Hf as [-> _]. apply elem_of_cons in Hi as [->|Hi]; [unfold HEAD; lia|].
      apply elem_of_cons in Hi as [->|Hi%Hin]; lia.
    + rewrite not_elem_of_cons. split; [unfold HEAD; lia|]. intros Hx%Hin. lia.
    + intros Hx%Hin. unfold HEAD in Hx. lia.
    + rewrite reverse_Permutation. apply NoDup_seq.
  - exists bs. split; [exact Hrun|]. split; [done|]. exact Hl.
Qed.

Lemma fresh_fields s bs i :
  fresh_bufs bs → let b := get_buf (set_bufs bs s) i in
  b_dev b = 0 ∧ b_refcnt b = 0 ∧ b_valid b = false ∧ sl_locked (b_lock b) = false.
Proof.
  intros [_ Hc]. specialize (Hc i). unfold get_buf. simpl. destruct (bs !!! i).
  unfold core, set_b_prev, set_b_next in Hc. simpl in *. inversion Hc. by subst.
Qed.

Lemma fresh_inv s bs :
  fresh_bufs bs → linked bs HEAD (reverse (seq 0 NBUF)) HEAD → bcache_inv (set_bufs bs s) (reverse (seq 0 NBUF)).
Proof.
  intros Hf Hl. split; try (intros i; destruct (fresh_fields s bs i Hf) as (Ed & Er & Ev & El)).
  - apply Hf.
  - apply reverse_Permutation.
  - done.
  - intros j _ _ Hd. done.
  - lia.
  - done.
  - congruence.
  - done.
  - done.
  - congruence.
Qed.

Lemma fresh_rep s bs :
  fresh_bufs bs → linked bs HEAD (reverse (seq 0 NBUF)) HEAD → length (ps_procs (k_proc s)) = NPROC →
  Rep (set_bufs bs s) (disk_cache s).
Proof.
  intros Hf Hl Hn. pose proof (fresh_inv s bs Hf Hl) as Hi.
  assert (Hlk : ∀ x, lookup_buf (set_bufs bs s) x = None).
  { intros x. apply (lookup_buf_None _ _ _ Hi). intros i _ [E _].
    destruct (fresh_fields s bs i Hf) as (Ed & _). rewrite Ed in E. done. }
  split; simpl; try done.
  - by eexists.
  - intros x. unfold content. by rewrite Hlk.
  - intros x. unfold refs. by rewrite Hlk.
  - intros x j. by rewrite Hlk.
Qed.

(** ** The properties *)

(** [binit] on zeroed buffers builds an empty cache: every block reads as
    what is on the disk, nothing is referenced or locked. *)
Theorem binit_spec s :
  k_bufs s = replicate (S NBUF) zero_buf → length (ps_procs (k_proc s)) = NPROC →
  ∃ s', binit s = Done tt s' ∧ Rep s' (disk_cache s) ∧ s' = set_bufs (k_bufs s') s.
Proof.
  intros Hb Hn. destruct (binit_run s Hb) as (bs & Hrun & Hf & Hl).
  exists (set_bufs bs s). split_and!; [done|by apply fresh_rep|done].
Qed.

(** C37: [bread] of a block nobody has locked returns, without waiting, a buffer
    locked by the caller that holds this block and its current content; the
    block has one more reference; no other block, the disk and nothing else of
    the kernel changes.  If the block is not cached and all buffers are in use
    it panics. *)
Theorem bread_spec s c bno :
  Rep s c → k_held s = [] → c_hold c bno = Free → c_refs c bno + 1 < 2 ^ 32 →
  (room c bno → ∃ i s', bread ROOTDEV bno s = Done i s' ∧ Rep s' (a_bread bno i c) ∧ bframe s s' ∧
     b_blockno (get_buf s' i) = bno ∧ b_data (get_buf s' i) = c_content c bno) ∧
  (lookup_buf s bno = None → (∀ i, (i < NBUF)%nat → ¬ unused s i) →
     bread ROOTDEV bno s = Panic "bget: no buffers" (set_held [LBcache] s)).
Proof.
  intros HR Hk Hf Hr. split.
  - intros Hroom. destruct (bread_rep s c bno HR Hk Hf Hr Hroom) as (i & s' & Hrun & HR' & Hfr).
    exists i, s'. assert (Hm : c_hold (a_bread bno i c) bno = Mine i) by (simpl; apply upd_eq).
    split_and!; [done|done|done|by eapply buf_blockno_rep|exact (buf_data_rep _ _ _ _ HR' Hm)].
  - intros Hl Hu. destruct (rep_inv _ _ HR) as [order Hi]. apply bind_Panic. eapply bget_full; try done.
    destruct (last (filter (unused s) order)) as [i|] eqn:E; [|done].
    apply last_Some_elem_of in E. apply list_elem_of_filter in E as [Hun Hin%(order_elem _ _ _ Hi)]. by destruct (Hu i).
Qed.

(** [bwrite] by the holder of the buffer puts the block's content on the
    disk as one block write and changes nothing else; it panics when the
    caller does not hold the buffer's lock. *)
Theorem bwrite_spec s c bno i :
  Rep s c → k_held s = [] →
  (c_hold c bno = Mine i → ∃ s', bwrite i s = Done tt s' ∧ Rep s' (a_bwrite bno c) ∧ bframe s s') ∧
  (buf_sl i s ≠ mk_sleeplock true (mypid s) → bwrite i s = Panic "bwrite" s).
Proof.
  intros HR Hk. split; [by apply bwrite_rep|]. intros Hsl. unfold bwrite.
  assert (Hh : holdingsleep_buf i s = Done false s).
  { unfold holdingsleep_buf. rewrite holdingsleep_run by (done || (rewrite Hk; set_solver)). f_equal.
    unfold mypid in Hsl. destruct (buf_sl i s) as [[] pid]; simpl in *; [|done].
    apply Z.eqb_neq. intros ->. done. }
  by run_by (exact Hh).
Qed.

(** [brelse] by the holder of a buffer gives up the lock and one reference.
    The precondition is the one log.c ensures by pinning: the last reference
    is given up only when the block is on the disk. *)
Theorem brelse_spec s c bno i :
  Rep s c → k_held s = [] → c_hold c bno = Mine i → (c_refs c bno = 1 → c_content c bno = c_disk c bno) →
  ∃ s', brelse i s = Done tt s' ∧ Rep s' (a_brelse bno c) ∧ bframe s s'.
Proof. apply brelse_rep. Qed.

(** Buffers are recycled in the order of use: a block that is not cached
    goes to the unused buffer released longest ago, the last one of [order],
    and giving up the last reference makes a buffer the first of [order]. *)
Theorem lru_order s order bno :
  bcache_inv s order → k_held s = [] →
  (lookup_buf s bno = None → (∃ i, (i < NBUF)%nat ∧ unused s i) →
   ∃ i s', bread ROOTDEV bno s = Done i s' ∧ last (filter (unused s) order) = Some i ∧ bcache_inv s' order) ∧
  (∀ i, handle s i bno → length (ps_procs (k_proc s)) = NPROC → b_refcnt (get_buf s i) = 1 →
     content s bno = dblock s bno →
     ∃ s', brelse i s = Done tt s' ∧ bcache_inv s' (i :: filter (λ x, x ≠ i) order)).
Proof.
  intros Hi Hk. split.
  - intros Hl Hu. destruct (bread_run s order bno Hi Hk) as (i & b & Hrun & Hi' & _ & _ & _ & Hlru).
    + unfold can_read. by rewrite Hl.
    + exists i, (put_buf i b s). auto.
  - intros i Hh Hn Hr Hc. pose proof (hd_lt _ _ _ Hh) as Hlt. pose proof (buf_lt _ _ _ Hi Hlt) as Hlen.
    eexists. split; [by eapply (brelse_code s i bno)|]. rewrite Hr. simpl.
    set (s0 := set_procs _ s). set (s1 := put_buf i _ s0).
    assert (Hr0 : relinked s s0) by (split; try done; apply mypid_woken).
    assert (Hi0 : bcache_inv s0 order) by (apply (rl_inv _ _ Hr0 order); [done|done|apply Hi]).
    destruct (set_ref_post s0 order i bno 0 (mk_sleeplock false 0) Hi0) as (Hi1 & _); try done.
    { by apply (rl_handle _ _ Hr0). }
    assert (E1 : put_buf i (set_b_refcnt 0 (set_b_lock (mk_sleeplock false 0) (get_buf s0 i))) s0 = s1).
    { unfold s1, released. change (get_buf s0 i) with (get_buf s i). by rewrite Hr. }
    rewrite E1 in Hi1. destruct (move_front (k_bufs s1) i order) as [Hp Hl]; try apply Hi1.
    { by apply (order_elem _ _ _ Hi). }
    apply (rl_inv s1 (set_bufs (link_front i (unlink i (k_bufs s1))) s1)) with (order := order); try done.
    split; simpl; try done.
    + by rewrite length_link_front, length_unlink.
    + intros j. unfold get_buf. simpl. by rewrite core_link_front, core_unlink.
Qed.
End bioinit.

(** ** A disk that completes every request at once *)

#[local] Instance sync_disk : DiskRw.
Proof. exists (λ b w s, Done tt (disk_effect b w s)). done. Defined.
#[local] Instance one_wakeup : WaitFuel := 1%nat.

(** The boot state with two blocks on the disk and process 0 running. *)
Definition bio_state : kst :=
  set_disk (mk_dstate {[ 3 := replicate 1024 7; 4 := replicate 1024 8 ]} [])
    (set_proc (mk_pstate (replicate NPROC zero_proc) 0 None 1 true) boot_state).

Lemma binit_spec_witness : ∃ s', binit bio_state = Done tt s' ∧ Rep s' (disk_cache bio_state).
Proof. destruct (binit_spec bio_state) as (s' & H1 & H2 & _); [reflexivity|reflexivity|]. exists s'. split; assumption. Defined.

(** The state after [binit]. *)
Lemma bio_start : ∃ s, Rep s (disk_cache bio_state) ∧ k_held s = [] ∧
  ∃ bs, s = set_bufs bs bio_state ∧ fresh_bufs bs ∧ linked bs HEAD (reverse (seq 0 NBUF)) HEAD.
Proof.
  destruct (binit_run bio_state) as (bs & Hrun & Hf & Hl); [reflexivity|].
  exists (set_bufs bs bio_state). split; [by apply fresh_rep|]. split; [reflexivity|]. exists bs. exact (conj eq_refl (conj Hf Hl)).
Qed.

Lemma room_start x : room (disk_cache bio_state) x.
Proof. right. exists []. split; [simpl; lia|unfold NBUF; simpl; lia]. Qed.

Lemma bread_spec_witness :
  ∃ s i s', bread ROOTDEV 3 s = Done i s' ∧ b_data (get_buf s' i) = replicate 1024 7.
Proof.
  destruct bio_start as (s & HR & Hk & _). exists s.
  destruct (bread_spec s (disk_cache bio_state) 3 HR Hk) as [Hb _]; [reflexivity|simpl; lia|].
  destruct (Hb (room_start 3)) as (i & s' & Hrun & _ & _ & _ & Hd). exists i, s'.
  split; [exact Hrun|]. rewrite Hd. reflexivity.
Defined.

(** The state after [bread] of block 3. *)
Lemma bio_reading : ∃ s i, Rep s (a_bread 3 i (disk_cache bio_state)) ∧ k_held s = [].
Proof.
  destruct bio_start as (s & HR & Hk & _).
  destruct (bread_rep s (disk_cache bio_state) 3 HR Hk) as (i & s' & _ & HR' & Hf); [done|simpl; lia|apply room_start|].
  exists s', i. split; [done|]. by rewrite (bframe_held _ _ Hf).
Qed.

Lemma bwrite_spec_witness : ∃ s i s', bwrite i s = Done tt s' ∧ d_trace (k_disk s') = [(3, replicate 1024 7)].
Proof.
  destruct bio_reading as (s & i & HR & Hk). exists s, i.
  destruct (bwrite_spec s _ 3 i HR Hk) as [Hw _]. destruct (Hw eq_refl) as (s' & Hrun & HR' & _).
  exists s'. split; [exact Hrun|]. rewrite (rep_trace _ _ HR'). reflexivity.
Defined.

Lemma brelse_spec_witness :
  ∃ s i s', brelse i s = Done tt s' ∧ Rep s' (a_brelse 3 (a_bread 3 i (disk_cache bio_state))).
Proof.
  destruct bio_reading as (s & i & HR & Hk). exists s, i.
  destruct (brelse_spec s _ 3 i HR Hk) as (s' & Hrun & HR' & _); [reflexivity|reflexivity|].
  exists s'. split; assumption.
Defined.

Lemma lru_order_witness : ∃ s s', bread ROOTDEV 3 s = Done 0%nat s'.
Proof.
  destruct bio_start as (s & HR & Hk & bs & -> & Hf & Hl). exists (set_bufs bs bio_state).
  assert (Hz : ∀ i, core (get_buf (set_bufs bs bio_state) i) = core zero_buf) by apply Hf.
  assert (Hi : bcache_inv (set_bufs bs bio_state) (reverse (seq 0 NBUF))) by (by apply fresh_inv).
  assert (Hu : ∀ i, unused (set_bufs bs bio_state) i).
  { intros i. specialize (Hz i). unfold unused. destruct (get_buf _ i). unfold core, set_b_prev, set_b_next in Hz.
    simpl in *. by inversion Hz. }
  destruct (lru_order _ _ 3 Hi Hk) as [Hb _].
  destruct Hb as (i & s' & Hrun & Hlast & _).
  - apply (lookup_buf_None _ _ _ Hi). intros i _ [E _]. specialize (Hz i). destruct (get_buf _ i).
    unfold core, set_b_prev, set_b_next in Hz. simpl in *. inversion Hz. subst. discriminate.
  - exists 0%nat. split; [unfold NBUF; lia|apply Hu].
  - exists s'. rewrite Hrun. f_equal.
    assert (E : filter (unused (set_bufs bs bio_state)) (reverse (seq 0 NBUF)) = reverse (seq 0 NBUF)).
    { generalize (reverse (seq 0 NBUF)). intros l. induction l as [|x l IH]; [done|].
      rewrite filter_cons_True by apply Hu. by rewrite IH. }
    rewrite E in Hlast. vm_compute in Hlast. by inversion Hlast.
Defined.
