(* ===== verification/Log.v ===== *)
(** * kernel/log.c: the code

    The log of the file system on top of the buffer cache.  The header block
    is bytes, as on the disk: [n] in the first four, [block[i]] in the four
    at [4 + 4 * i]. *)

From S2P Require Import Prelude Memory Params State Sched Block Bio.

Definition set_log_n (n : Z) (l : logstate) : logstate :=
  mk_log (l_start l) (l_size l) (l_outstanding l) (l_committing l) (l_dev l) n (lh_block l).
Definition set_log_block (i b : Z) (l : logstate) : logstate :=
  mk_log (l_start l) (l_size l) (l_outstanding l) (l_committing l) (l_dev l) (lh_n l)
    (<[Z.to_nat i := b]> (lh_block l)).
Definition set_log_out (o : Z) (l : logstate) : logstate :=
  mk_log (l_start l) (l_size l) o (l_committing l) (l_dev l) (lh_n l) (lh_block l).
Definition set_log_committing (c : bool) (l : logstate) : logstate :=
  mk_log (l_start l) (l_size l) (l_outstanding l) c (l_dev l) (lh_n l) (lh_block l).
Definition upd_log (f : logstate → logstate) : K unit := modify (λ s, set_log (f (k_log s)) s).

(** [log.lh.block[i]]; C gives no meaning to an index outside the array, and
    the model stops there. *)
Definition log_block (i : Z) : K Z :=
  l ← gets k_log;
  if (0 <=? i) && (i <? LOGSIZE) then mret (lh_block l !!! Z.to_nat i)
  else panic "index out of bounds".
Definition store_log_block (i b : Z) : K unit :=
  if (0 <=? i) && (i <? LOGSIZE) then upd_log (set_log_block i b)
  else panic "index out of bounds".

(** [sizeof(struct logheader)] *)
Definition sizeof_logheader : Z := 4 + 4 * LOGSIZE.

(** The offset of [block[i]] in the header block. *)
Definition head_off (i : Z) : nat := Z.to_nat (4 + 4 * i).

Section log.
Context `{DiskRw} `{WaitFuel}.

Definition install_trans (recovering : bool) : K unit :=
  l ← gets k_log;
  for_each (Z.to_nat (lh_n l)) 0 (λ tail,
    lbuf ← bread (u32 (l_dev l)) (u32 (l_start l + tail + 1));
    bno ← log_block tail;
    dbuf ← bread (u32 (l_dev l)) (u32 bno);
    d ← buf_get lbuf b_data;
    upd_buf dbuf (set_b_data d);;
    bwrite dbuf;;
    when (negb recovering) (bunpin dbuf);;
    brelse lbuf;;
    brelse dbuf).

Definition read_head : K unit :=
  l ← gets k_log;
  buf ← bread (u32 (l_dev l)) (u32 (l_start l));
  lh ← buf_get buf b_data;
  upd_log (set_log_n (i32 (get32 lh 0)));;
  n ← gets (λ s, lh_n (k_log s));
  for_each (Z.to_nat n) 0 (λ i, store_log_block i (i32 (get32 lh (head_off i))));;
  brelse buf.

Definition write_head : K unit :=
  l ← gets k_log;
  buf ← bread (u32 (l_dev l)) (u32 (l_start l));
  upd_buf buf (λ b, set_b_data (put32 (b_data b) 0 (lh_n l)) b);;
  for_each (Z.to_nat (lh_n l)) 0 (λ i,
    bno ← log_block i;
    upd_buf buf (λ b, set_b_data (put32 (b_data b) (head_off i) bno) b));;
  bwrite buf;;
  brelse buf.

Definition recover_from_log : K unit :=
  read_head;;
  install_trans true;;
  upd_log (set_log_n 0);;
  write_head.

Definition initlog (dev : Z) (sb : superblock) : K unit :=
  if sizeof_logheader >=? BSIZE then panic "initlog: too big logheader" else
  upd_log (λ l, mk_log (i32 (sb_logstart sb)) (i32 (sb_nlog sb)) (l_outstanding l)
                  (l_committing l) dev (lh_n l) (lh_block l));;
  recover_from_log.

(** The loop of [begin_op]; each sleep uses up one unit of fuel. *)
Fixpoint begin_op_wait (fuel : nat) : K unit :=
  l ← gets k_log;
  let again := match fuel with
               | O => out_of_fuel
               | S fuel => sleep ChLog LLog;; begin_op_wait fuel
               end in
  if l_committing l then again
  else if lh_n l + (l_outstanding l + 1) * MAXOPBLOCKS >? LOGSIZE then again
  else
    upd_log (set_log_out (l_outstanding l + 1));;
    release LLog.

Definition begin_op : K unit :=
  acquire LLog;;
  begin_op_wait wait_fuel.

Definition write_log : K unit :=
  l ← gets k_log;
  for_each (Z.to_nat (lh_n l)) 0 (λ tail,
    to ← bread (u32 (l_dev l)) (u32 (l_start l + tail + 1));
    bno ← log_block tail;
    from ← bread (u32 (l_dev l)) (u32 bno);
    d ← buf_get from b_data;
    upd_buf to (set_b_data d);;
    bwrite to;;
    brelse from;;
    brelse to).

Definition commit : K unit :=
  n ← gets (λ s, lh_n (k_log s));
  when (n >? 0) (
    write_log;;
    write_head;;
    install_trans false;;
    upd_log (set_log_n 0);;
    write_head).

Definition end_op : K unit :=
  acquire LLog;;
  upd_log (λ l, set_log_out (l_outstanding l - 1) l);;
  l ← gets k_log;
  if l_committing l then panic "log.committing" else
  let do_commit := l_outstanding l =? 0 in
  (if do_commit then upd_log (set_log_committing true) else wakeup ChLog);;
  release LLog;;
  when do_commit (
    commit;;
    acquire LLog;;
    upd_log (set_log_committing false);;
    wakeup ChLog;;
    release LLog).

(** [for (i = 0; i < log.lh.n; i++) if (log.lh.block[i] == b->blockno) break;] *)
Fixpoint log_find (fuel : nat) (i : Z) (blocks : list Z) (bno : Z) : Z :=
  match fuel with
  | O => i
  | S fuel => if u32 (blocks !!! Z.to_nat i) =? bno then i else log_find fuel (i + 1) blocks bno
  end.

Definition log_write (b : nat) : K unit :=
  acquire LLog;;
  l ← gets k_log;
  if (lh_n l >=? LOGSIZE) || (lh_n l >=? l_size l - 1) then panic "too big a transaction" else
  if l_outstanding l <? 1 then panic "log_write outside of trans" else
  bno ← buf_get b b_blockno;
  let i := log_find (Z.to_nat (lh_n l)) 0 (lh_block l) bno in
  store_log_block i (i32 bno);;
  when (i =? lh_n l) (
    bpin b;;
    upd_log (λ l, set_log_n (lh_n l + 1) l));;
  release LLog.
End log.
