(* ===== verification/LogRun.v ===== *)
(** * What the functions of log.c do to the buffer cache and the disk

    Each function of kernel/log.c as a sequence of block writes on the
    abstract cache. *)

From S2P Require Import Prelude Memory Params State Sched Block Bio BioList BioInv BioSpec Log.

(** ** Sequences of block writes *)

Definition apply_writes (ws : list (Z * list Z)) (f : Z → list Z) : Z → list Z :=
  foldl (λ f w, upd w.1 w.2 f) f ws.

Lemma apply_writes_app ws1 ws2 f : apply_writes (ws1 ++ ws2) f = apply_writes ws2 (apply_writes ws1 f).
Proof. apply foldl_app. Qed.

Lemma apply_writes_snoc ws b d f : apply_writes (ws ++ [(b, d)]) f = upd b d (apply_writes ws f).
Proof. apply apply_writes_app. Qed.

Lemma apply_writes_notin ws f x : x ∉ map fst ws → apply_writes ws f x = f x.
Proof.
  induction ws as [|[b d] ws IH] using rev_ind; [done|].
  rewrite map_app, apply_writes_snoc. simpl. intros Hx. rewrite upd_ne; [apply IH|]; set_solver.
Qed.

Lemma apply_writes_in ws f x d : NoDup (map fst ws) → (x, d) ∈ ws → apply_writes ws f x = d.
Proof.
  induction ws as [|[b d'] ws IH] using rev_ind; [intros _ H%elem_of_nil; done|].
  rewrite map_app, apply_writes_snoc. simpl. intros Hnd Hin.
  apply NoDup_app in Hnd as (Hnd & Hdis & _). apply elem_of_app in Hin as [Hin|Hin].
  - rewrite upd_ne; [by apply IH|]. intros ->. apply (Hdis b); [|set_solver].
    apply list_elem_of_fmap. by exists (b, d).
  - apply list_elem_of_singleton in Hin. inversion Hin. subst. apply upd_eq.
Qed.

Lemma apply_writes_ext ws f g x : f x = g x → apply_writes ws f x = apply_writes ws g x.
Proof.
  intros Hfg. induction ws as [|[b d] ws IH] using rev_ind; [done|].
  rewrite !apply_writes_snoc. unfold upd. by case_decide.
Qed.

(** The cache after the writes: each goes to the cache and to the disk. *)
Definition a_writes (ws : list (Z * list Z)) (c : cache) : cache :=
  mk_cache (apply_writes ws (c_content c)) (c_refs c) (c_hold c)
    (apply_writes ws (c_disk c)) (c_trace c ++ ws).

Lemma a_writes_app ws1 ws2 c : a_writes (ws1 ++ ws2) c = a_writes ws2 (a_writes ws1 c).
Proof. unfold a_writes. simpl. by rewrite !apply_writes_app, app_assoc. Qed.

(** [write_log] copies the blocks [bl] to the log, [install_trans] the log to
    the blocks; the header is written by [write_head]. *)
Definition log_writes (start : Z) (f : Z → list Z) (bl : list Z) (t : nat) : list (Z * list Z) :=
  map (λ i, (start + Z.of_nat i + 1, f (bl !!! i))) (seq 0 t).
Definition install_writes (start : Z) (f : Z → list Z) (bl : list Z) (t : nat) : list (Z * list Z) :=
  map (λ i, (bl !!! i, f (start + Z.of_nat i + 1))) (seq 0 t).

Fixpoint put_blocks (d : list Z) (i : Z) (bl : list Z) : list Z :=
  match bl with
  | [] => d
  | b :: bl => put_blocks (put32 d (head_off i) b) (i + 1) bl
  end.
Definition head_enc (d : list Z) (bl : list Z) : list Z :=
  put_blocks (put32 d 0 (Z.of_nat (length bl))) 0 bl.

Lemma log_writes_S start f bl t :
  log_writes start f bl (S t) = log_writes start f bl t ++ [(start + Z.of_nat t + 1, f (bl !!! t))].
Proof. unfold log_writes. by rewrite seq_S, map_app. Qed.
Lemma install_writes_S start f bl t :
  install_writes start f bl (S t) = install_writes start f bl t ++ [(bl !!! t, f (start + Z.of_nat t + 1))].
Proof. unfold install_writes. by rewrite seq_S, map_app. Qed.
Lemma put_blocks_snoc d i bl b :
  put_blocks d i (bl ++ [b]) = put32 (put_blocks d i bl) (head_off (i + Z.of_nat (length bl))) b.
Proof.
  revert d i. induction bl as [|x bl IH]; intros d i; simpl; [by rewrite Z.add_0_r|].
  rewrite IH. do 2 f_equal. lia.
Qed.

Lemma log_writes_fst start f bl t x :
  x ∈ map fst (log_writes start f bl t) ↔ start + 1 <= x < start + 1 + Z.of_nat t.
Proof.
  unfold log_writes. rewrite map_map. simpl. rewrite list_elem_of_fmap. split.
  - intros (i & -> & Hi%elem_of_seq). lia.
  - intros Hx. exists (Z.to_nat (x - start - 1)). split; [lia|]. apply elem_of_seq. lia.
Qed.

Lemma install_writes_fst start f bl t x :
  (t <= length bl)%nat → x ∈ map fst (install_writes start f bl t) ↔ x ∈ take t bl.
Proof.
  intros Ht. unfold install_writes. rewrite map_map. simpl. rewrite list_elem_of_fmap. split.
  - intros (i & -> & Hi%elem_of_seq). apply list_elem_of_lookup. exists i. rewrite lookup_take_lt by lia.
    apply list_lookup_lookup_total_lt. lia.
  - intros (i & Hi)%list_elem_of_lookup. apply lookup_take_Some in Hi as [Hi Hlt]. exists i.
    split; [symmetry; by apply list_lookup_total_correct|]. apply elem_of_seq. lia.
Qed.

(** ** The log in memory *)

(** [bl] is the sequence of logged block numbers. *)
Record log_ok (l : logstate) (bl : list Z) : Prop := {
  lo_dev : l_dev l = ROOTDEV;
  lo_start : 0 <= l_start l ∧ l_start l + l_size l < 2 ^ 31;
  lo_size : Z.of_nat (length bl) < l_size l;
  lo_cap : Z.of_nat (length bl) <= LOGSIZE;
  lo_n : lh_n l = Z.of_nat (length bl);
  lo_arr : length (lh_block l) = Z.to_nat LOGSIZE;
  lo_blocks : take (length bl) (lh_block l) = bl;
  lo_nodup : NoDup bl;
  lo_home : ∀ b, b ∈ bl → 0 <= b < 2 ^ 31 ∧ ¬ (l_start l <= b < l_start l + l_size l);
}.

Lemma log_block_run s bl (i : nat) :
  log_ok (k_log s) bl → (i < length bl)%nat → log_block (Z.of_nat i) s = Done (bl !!! i) s.
Proof.
  intros Hl Hi. unfold log_block. run_by (unfold gets; reflexivity). pose proof (lo_cap _ _ Hl).
  rewrite (proj2 (andb_true_iff _ _)) by (split; lia). unfold mret, M_ret. f_equal.
  rewrite Nat2Z.id. rewrite <- (lo_blocks _ _ Hl) at 1. symmetry. by rewrite lookup_total_take_lt.
Qed.

Lemma log_elem (bl : list Z) (i : nat) : (i < length bl)%nat → bl !!! i ∈ bl.
Proof. intros Hi. apply list_elem_of_lookup. exists i. by apply list_lookup_lookup_total_lt. Qed.

Section logrun.
Context `{DiskRw} `{WaitFuel}.
Implicit Types (s : kst) (c : cache) (bl : list Z).

(** An unreferenced block is on the disk as it reads. *)
Lemma Rep_clean s c x : Rep s c → c_refs c x = 0 → c_content c x = c_disk c x.
Proof.
  intros HR Hr. destruct (rep_inv _ _ HR) as [order Hi].
  rewrite <- (rep_content _ _ HR), <- (rep_disk _ _ HR). rewrite <- (rep_refs _ _ HR) in Hr.
  unfold content, refs in *. destruct (lookup_buf s x) as [i|] eqn:E; [|done].
  destruct (b_valid (get_buf s i)) eqn:Ev; [|done].
  apply (lookup_buf_Some _ _ _ _ Hi) in E as [Hlt [_ Eb]]. by rewrite (bi_clean _ _ Hi i), Eb.
Qed.

(** Blocks the log functions can read without waiting. *)
Definition quiet c (x : Z) : Prop := c_hold c x = Free ∧ c_refs c x + 1 < 2 ^ 32.

(** At most the blocks of [R] are referenced. *)
Definition few c (R : list Z) : Prop := ∀ x, 0 < c_refs c x → x ∈ R.

Ltac simpl_upd := unfold upd; repeat (case_decide; subst; simpl in * ); try done; try lia; try congruence.

(** One round of [write_log] and [install_trans]: with [x] and [y] read in
    this order, the data of one of them goes to the other, which is written. *)
Lemma read_two s c x y R :
  Rep s c → k_held s = [] → x ≠ y → quiet c x → quiet c y → few c R → (length R < NBUF)%nat →
  (0 < c_refs c y ∨ (S (length R) < NBUF)%nat) →
  ∃ i s1, bread ROOTDEV x s = Done i s1 ∧ bframe s s1 ∧ Rep s1 (a_bread x i c) ∧
    ∃ j s2, bread ROOTDEV y s1 = Done j s2 ∧ bframe s1 s2 ∧ Rep s2 (a_bread y j (a_bread x i c)).
Proof.
  intros HR Hk Hxy [Hx1 Hx2] [Hy1 Hy2] Hfew Hlen Hroom.
  destruct (bread_rep s c x HR Hk Hx1 Hx2) as (i & s1 & Hrun1 & HR1 & Hf1); [right; by exists R|].
  exists i, s1. split_and!; [done|done|done|].
  destruct (bread_rep s1 (a_bread x i c) y) as (j & s2 & Hrun2 & HR2 & Hf2); simpl; rewrite ?upd_ne by auto; try done.
  - by rewrite (bframe_held _ _ Hf1).
  - destruct Hroom as [Hr|Hr]; [left; simpl; by rewrite upd_ne by auto|].
    right. exists (x :: R). split; [|simpl; lia]. intros z. simpl. unfold upd. case_decide; [set_solver|].
    intros Hz. right. by apply Hfew.
  - exists j, s2. done.
Qed.

Lemma write_log_body s c bl (t : nat) R :
  Rep s c → k_held s = [] → log_ok (k_log s) bl → (t < length bl)%nat →
  let l := k_log s in
  let to := l_start l + Z.of_nat t + 1 in
  quiet c to → quiet c (bl !!! t) → few c R → (length R < NBUF)%nat →
  (0 < c_refs c (bl !!! t) ∨ (S (length R) < NBUF)%nat) →
  ∃ s', (to ← bread (u32 (l_dev l)) (u32 to);
         bno ← log_block (Z.of_nat t);
         from ← bread (u32 (l_dev l)) (u32 bno);
         d ← buf_get from b_data;
         upd_buf to (set_b_data d);;
         bwrite to;;
         brelse from;;
         brelse to) s = Done tt s' ∧
    Rep s' (a_writes [(to, c_content c (bl !!! t))] c) ∧ bframe s s'.
Proof.
  intros HR Hk Hl Ht l to Hto Hfrom Hfew Hlen Hroom. set (from := bl !!! t) in *.
  pose proof (log_elem bl t Ht) as Hin. destruct (lo_home _ _ Hl from Hin) as [Hb Hnl].
  pose proof (lo_start _ _ Hl) as Hst. pose proof (lo_size _ _ Hl) as Hsz. fold l in Hnl, Hst, Hsz.
  assert (Hne : to ≠ from) by (unfold to; lia).
  assert (Edev : u32 (l_dev l) = ROOTDEV) by (unfold l; by rewrite (lo_dev _ _ Hl)).
  assert (Eto : u32 to = to) by (apply u32_small; unfold to; lia).
  assert (Efrom : u32 from = from) by (apply u32_small; lia).
  destruct (read_two s c to from R HR Hk Hne Hto Hfrom Hfew Hlen Hroom)
    as (i & s1 & Hrun1 & Hf1 & HR1 & j & s2 & Hrun2 & Hf2 & HR2).
  rewrite Edev, Eto. run_by (exact Hrun1).
  run_by (apply (log_block_run s1 bl); [by rewrite (bframe_log _ _ Hf1)|done]).
  fold from. rewrite Efrom. run_by (exact Hrun2). run_by (unfold buf_get, gets; reflexivity).
  run_by (apply upd_buf_run).
  set (c2 := a_bread from j (a_bread to i c)) in *.
  assert (Hm2 : c_hold c2 to = Mine i) by (simpl; rewrite upd_ne by auto; apply upd_eq).
  assert (Hm2' : c_hold c2 from = Mine j) by (simpl; apply upd_eq).
  assert (Hd : b_data (get_buf s2 j) = c_content c from) by apply (buf_data_rep _ _ _ _ HR2 Hm2').
  rewrite Hd. set (d := c_content c from) in *.
  pose proof (set_data_rep s2 c2 to i d HR2 Hm2) as HR3. set (s3 := put_buf i _ s2) in *.
  assert (Hf3 : bframe s s3) by (etransitivity; [exact Hf1|]; etransitivity; [exact Hf2|apply bframe_put]).
  destruct (bwrite_rep s3 (a_set to d c2) to i HR3) as (s4 & Hrun4 & HR4 & Hf4);
    [by rewrite (bframe_held _ _ Hf3)|done|].
  run_by (exact Hrun4). assert (Hf4' : bframe s s4) by (by etransitivity).
  destruct (brelse_rep s4 _ from j HR4) as (s5 & Hrun5 & HR5 & Hf5); [by rewrite (bframe_held _ _ Hf4')|done| |].
  { simpl. rewrite upd_eq, !upd_ne by auto. intros Hr. apply (Rep_clean s); [done|lia]. }
  run_by (exact Hrun5). assert (Hf5' : bframe s s5) by (by etransitivity).
  destruct (brelse_rep s5 _ to i HR5) as (s6 & Hrun6 & HR6 & Hf6); [by rewrite (bframe_held _ _ Hf5')| | |].
  { simpl. rewrite !upd_ne by auto. apply upd_eq. }
  { simpl. by rewrite !upd_eq. }
  exists s6. split; [exact Hrun6|]. split; [|by etransitivity]. eapply Rep_ceq; [|exact HR6].
  destruct Hto as [Hto _], Hfrom as [Hfrom _].
  split; simpl; intros; simpl_upd.
Qed.

Lemma a_writes_quiet ws c x : quiet c x → quiet (a_writes ws c) x.
Proof. done. Qed.

(** ** [write_log] *)

(** The blocks of the log and of the transaction are not in use otherwise,
    and there are buffers to read them with. *)
Record idle c (l : logstate) bl (R : list Z) : Prop := {
  id_log : ∀ x, l_start l <= x < l_start l + l_size l → quiet c x;
  id_home : ∀ b, b ∈ bl → quiet c b;
  id_few : few c R;
  id_len : (length R < NBUF)%nat;
  id_room : ∀ b, b ∈ bl → 0 < c_refs c b ∨ (S (length R) < NBUF)%nat;
}.

Lemma a_writes_idle ws c l bl R : idle c l bl R → idle (a_writes ws c) l bl R.
Proof. intros []. by split. Qed.

Lemma write_log_run s c bl R :
  Rep s c → k_held s = [] → log_ok (k_log s) bl → idle c (k_log s) bl R →
  ∃ s', write_log s = Done tt s' ∧ bframe s s' ∧
    Rep s' (a_writes (log_writes (l_start (k_log s)) (c_content c) bl (length bl)) c).
Proof.
  intros HR Hk Hl Hid. unfold write_log. run_by (unfold gets; reflexivity). set (l := k_log s) in *.
  rewrite (lo_n _ _ Hl), Nat2Z.id.
  set (ws := λ t, log_writes (l_start l) (c_content c) bl t).
  edestruct (for_each_inv (λ z s', bframe s s' ∧ Rep s' (a_writes (ws (Z.to_nat z)) c)) (length bl) 0)
    as (s' & Hrun & Hf & HR'); [| |exists s'; split; [exact Hrun|]; split; [exact Hf|]].
  - split; [done|]. eapply Rep_ceq; [|exact HR]. split; try done. simpl. by rewrite app_nil_r.
  - intros z s' Hz [Hf HR']. set (t := Z.to_nat z) in *. replace z with (Z.of_nat t) by lia.
    assert (Ht : (t < length bl)%nat) by lia.
    pose proof (bframe_log _ _ Hf) as El. pose proof (log_elem bl t Ht) as Hin.
    destruct (write_log_body s' (a_writes (ws t) c) bl t R HR') as (s2 & Hrun2 & HR2 & Hf2); rewrite ?El; fold l; try done.
    + by rewrite (bframe_held _ _ Hf).
    + apply (id_log _ _ _ _ Hid). pose proof (lo_size _ _ Hl). lia.
    + by apply (id_home _ _ _ _ Hid).
    + apply Hid.
    + apply Hid.
    + by apply (id_room _ _ _ _ Hid).
    + rewrite El in Hrun2, HR2. fold l in Hrun2, HR2. exists s2. split; [exact Hrun2|]. split; [by etransitivity|].
      replace (Z.to_nat (Z.of_nat t + 1)) with (S t) by lia. unfold ws. rewrite log_writes_S, a_writes_app.
      simpl in HR2. rewrite apply_writes_notin in HR2; [exact HR2|].
      intros Hx%log_writes_fst. destruct (lo_home _ _ Hl _ Hin) as [_ Hn]. apply Hn.
      pose proof (lo_size _ _ Hl). fold l. lia.
  - unfold ws in HR'. rewrite Z.add_0_l, Nat2Z.id in HR'. exact HR'.
Qed.

(** ** [install_trans] *)

(** One reference less for the blocks of [bl], unless [recovering]. *)
Definition a_unpin (recovering : bool) bl c : cache :=
  mk_cache (c_content c) (λ x, c_refs c x - if recovering then 0 else if decide (x ∈ bl) then 1 else 0)
    (c_hold c) (c_disk c) (c_trace c).

Lemma install_body s c bl (t : nat) R recovering :
  Rep s c → k_held s = [] → log_ok (k_log s) bl → (t < length bl)%nat →
  let l := k_log s in
  let from := l_start l + Z.of_nat t + 1 in
  quiet c from → quiet c (bl !!! t) → few c R → (length R < NBUF)%nat →
  (0 < c_refs c (bl !!! t) ∨ (S (length R) < NBUF)%nat) → (recovering = false → 0 < c_refs c (bl !!! t)) →
  ∃ s', (lbuf ← bread (u32 (l_dev l)) (u32 from);
         bno ← log_block (Z.of_nat t);
         dbuf ← bread (u32 (l_dev l)) (u32 bno);
         d ← buf_get lbuf b_data;
         upd_buf dbuf (set_b_data d);;
         bwrite dbuf;;
         when (negb recovering) (bunpin dbuf);;
         brelse lbuf;;
         brelse dbuf) s = Done tt s' ∧
    Rep s' (a_unpin recovering [bl !!! t] (a_writes [(bl !!! t, c_content c from)] c)) ∧ bframe s s'.
Proof.
  intros HR Hk Hl Ht l from Hfrom Hto Hfew Hlen Hroom Hpin. set (to := bl !!! t) in *.
  pose proof (log_elem bl t Ht) as Hin. destruct (lo_home _ _ Hl to Hin) as [Hb Hnl].
  pose proof (lo_start _ _ Hl) as Hst. pose proof (lo_size _ _ Hl) as Hsz. fold l in Hnl, Hst, Hsz.
  assert (Hne : from ≠ to) by (unfold from; lia).
  assert (Edev : u32 (l_dev l) = ROOTDEV) by (unfold l; by rewrite (lo_dev _ _ Hl)).
  assert (Eto : u32 to = to) by (apply u32_small; lia).
  assert (Efrom : u32 from = from) by (apply u32_small; unfold from; lia).
  destruct (read_two s c from to R HR Hk Hne Hfrom Hto Hfew Hlen Hroom)
    as (i & s1 & Hrun1 & Hf1 & HR1 & j & s2 & Hrun2 & Hf2 & HR2).
  rewrite Edev, Efrom. run_by (exact Hrun1).
  run_by (apply (log_block_run s1 bl); [by rewrite (bframe_log _ _ Hf1)|done]).
  fold to. rewrite Eto. run_by (exact Hrun2). run_by (unfold buf_get, gets; reflexivity).
  run_by (apply upd_buf_run).
  set (c2 := a_bread to j (a_bread from i c)) in *.
  assert (Hm2 : c_hold c2 from = Mine i) by (simpl; rewrite upd_ne by auto; apply upd_eq).
  assert (Hm2' : c_hold c2 to = Mine j) by (simpl; apply upd_eq).
  assert (Hd : b_data (get_buf s2 i) = c_content c from) by apply (buf_data_rep _ _ _ _ HR2 Hm2).
  rewrite Hd. set (d := c_content c from) in *.
  pose proof (set_data_rep s2 c2 to j d HR2 Hm2') as HR3. set (s3 := put_buf j _ s2) in *.
  assert (Hf3 : bframe s s3) by (etransitivity; [exact Hf1|]; etransitivity; [exact Hf2|apply bframe_put]).
  destruct (bwrite_rep s3 (a_set to d c2) to j HR3) as (s4 & Hrun4 & HR4 & Hf4);
    [by rewrite (bframe_held _ _ Hf3)|done|].
  run_by (exact Hrun4). assert (Hf4' : bframe s s4) by (by etransitivity).
  set (c4 := a_bwrite to (a_set to d c2)) in *.
  set (c5 := if recovering then c4 else a_refs to (c_refs c4 to - 1) c4).
  assert (Hun : ∃ s5, when (negb recovering) (bunpin j) s4 = Done tt s5 ∧ Rep s5 c5 ∧ bframe s4 s5).
  { unfold c5. destruct recovering; simpl; [by exists s4|].
    destruct (bunpin_rep s4 c4 to j HR4) as (s5 & Hrun5 & HR5 & Hf5); [| | |by exists s5].
    - rewrite (bframe_held _ _ Hf4'), Hk. set_solver.
    - done.
    - simpl. rewrite upd_eq, !upd_ne by auto. specialize (Hpin eq_refl). lia. }
  destruct Hun as (s5 & Hrun5 & HR5 & Hf5). run_by (exact Hrun5). assert (Hf5' : bframe s s5) by (by etransitivity).
  destruct (brelse_rep s5 c5 from i HR5) as (s6 & Hrun6 & HR6 & Hf6); [by rewrite (bframe_held _ _ Hf5')| | |].
  { unfold c5. by destruct recovering. }
  { replace (c_refs c5 from) with (c_refs c from + 1) by (unfold c5; destruct recovering; simpl; rewrite !upd_ne by auto; by rewrite upd_eq).
    replace (c_content c5 from) with (c_content c from) by (unfold c5; destruct recovering; simpl; by rewrite !upd_ne by auto).
    replace (c_disk c5 from) with (c_disk c from) by (unfold c5; destruct recovering; simpl; by rewrite !upd_ne by auto).
    intros Hr. apply (Rep_clean s); [done|lia]. }
  run_by (exact Hrun6). assert (Hf6' : bframe s s6) by (by etransitivity).
  destruct (brelse_rep s6 _ to j HR6) as (s7 & Hrun7 & HR7 & Hf7); [by rewrite (bframe_held _ _ Hf6')| | |].
  { simpl. rewrite upd_ne by auto. unfold c5. by destruct recovering; simpl; rewrite upd_eq. }
  { unfold c5. destruct recovering; simpl; by rewrite !upd_eq. }
  exists s7. split; [exact Hrun7|]. split; [|by etransitivity]. eapply Rep_ceq; [|exact HR7].
  destruct Hto as [Hto _], Hfrom as [Hfrom _]. unfold c5.
  split; simpl; intros; destruct recovering; simpl; simpl_upd; try (set_solver).
Qed.

Lemma take_S_total bl (t : nat) : (t < length bl)%nat → take (S t) bl = take t bl ++ [bl !!! t].
Proof. intros Ht. apply take_S_r. by apply list_lookup_lookup_total_lt. Qed.

Lemma take_total_notin bl (t : nat) : NoDup bl → (t < length bl)%nat → bl !!! t ∉ take t bl.
Proof.
  intros Hnd Ht (i & Hi)%list_elem_of_lookup. apply lookup_take_Some in Hi as [Hi Hlt].
  assert (i = t); [|lia]. eapply NoDup_lookup; [done|exact Hi|by apply list_lookup_lookup_total_lt].
Qed.

Lemma a_unpin_snoc recovering bl c ws b d :
  b ∉ bl → ceq (a_unpin recovering [b] (a_writes [(b, d)] (a_unpin recovering bl (a_writes ws c))))
            (a_unpin recovering (bl ++ [b]) (a_writes (ws ++ [(b, d)]) c)).
Proof.
  intros Hb. split; simpl; try done; [| |intros x; by rewrite apply_writes_snoc|by rewrite app_assoc].
  - intros x. by rewrite apply_writes_snoc.
  - intros x. destruct recovering; [lia|]. repeat case_decide; try lia; set_solver.
Qed.

Lemma install_trans_run s c bl R recovering :
  Rep s c → k_held s = [] → log_ok (k_log s) bl → idle c (k_log s) bl R →
  (recovering = false → ∀ b, b ∈ bl → 0 < c_refs c b) →
  ∃ s', install_trans recovering s = Done tt s' ∧ bframe s s' ∧
    Rep s' (a_unpin recovering bl
              (a_writes (install_writes (l_start (k_log s)) (c_content c) bl (length bl)) c)).
Proof.
  intros HR Hk Hl Hid Hpin. unfold install_trans. run_by (unfold gets; reflexivity). set (l := k_log s) in *.
  rewrite (lo_n _ _ Hl), Nat2Z.id.
  set (ws := λ t, install_writes (l_start l) (c_content c) bl t).
  set (ct := λ t, a_unpin recovering (take t bl) (a_writes (ws t) c)).
  edestruct (for_each_inv (λ z s', bframe s s' ∧ Rep s' (ct (Z.to_nat z))) (length bl) 0)
    as (s' & Hrun & Hf & HR'); [| |exists s'; split; [exact Hrun|]; split; [exact Hf|]].
  - split; [done|]. eapply Rep_ceq; [|exact HR]. split; try done; simpl; [|by rewrite app_nil_r].
    intros x. destruct recovering; [lia|]. try (rewrite decide_False by set_solver). lia.
  - intros z s' Hz [Hf HR']. set (t := Z.to_nat z) in *. replace z with (Z.of_nat t) by lia.
    assert (Ht : (t < length bl)%nat) by lia. pose proof (take_total_notin bl t (lo_nodup _ _ Hl) Ht) as Hnin.
    pose proof (bframe_log _ _ Hf) as El. pose proof (log_elem bl t Ht) as Hin.
    destruct (lo_home _ _ Hl _ Hin) as [_ Hnl]. pose proof (lo_size _ _ Hl) as Hsz. fold l in Hnl, Hsz.
    assert (Hq : ∀ x, quiet c x → quiet (ct t) x).
    { intros x [Hq1 Hq2]. split; [done|]. simpl. destruct recovering; [lia|]. case_decide; lia. }
    assert (Href : c_refs (ct t) (bl !!! t) = c_refs c (bl !!! t)).
    { simpl. destruct recovering; [lia|]. rewrite decide_False by done. lia. }
    destruct (install_body s' (ct t) bl t R recovering HR') as (s2 & Hrun2 & HR2 & Hf2); rewrite ?El; fold l; try done.
    + by rewrite (bframe_held _ _ Hf).
    + apply Hq, (id_log _ _ _ _ Hid). lia.
    + by apply Hq, (id_home _ _ _ _ Hid).
    + intros x Hx. apply (id_few _ _ _ _ Hid). simpl in Hx. destruct recovering; [lia|]. case_decide; lia.
    + apply Hid.
    + rewrite Href. by apply (id_room _ _ _ _ Hid).
    + rewrite Href. auto.
    + rewrite El in Hrun2, HR2. fold l in Hrun2, HR2. exists s2. split; [exact Hrun2|]. split; [by etransitivity|].
      replace (Z.to_nat (Z.of_nat t + 1)) with (S t) by lia. unfold ct, ws.
      rewrite install_writes_S, take_S_total by done. eapply Rep_ceq; [by apply a_unpin_snoc|].
      replace (c_content (ct t) (l_start l + Z.of_nat t + 1)) with (c_content c (l_start l + Z.of_nat t + 1)) in HR2; [exact HR2|].
      simpl. symmetry. apply apply_writes_notin. unfold ws. rewrite install_writes_fst by lia.
      intros Hx%elem_of_take. destruct Hx as (k & Hk1 & Hk2).
      destruct (lo_home _ _ Hl (l_start l + Z.of_nat t + 1)) as [_ Hn]; [by eapply list_elem_of_lookup_2|].
      apply Hn. fold l. lia.
  - unfold ct, ws in HR'. rewrite Z.add_0_l, Nat2Z.id, take_ge in HR' by done. exact HR'.
Qed.

(** ** [write_head] *)

Lemma a_set_writes x d c c' :
  ceq c' (a_bwrite x (a_set x d c)) → ceq c' (a_writes [(x, d)] c).
Proof.
  intros [E1 E2 E3 E4 E5]. split; simpl in *; try done.
  - intros y. rewrite <- E4. unfold upd. case_decide; [|done]. by rewrite decide_True.
  - by rewrite <- E5, upd_eq.
Qed.

Lemma write_head_run s c bl R :
  Rep s c → k_held s = [] → log_ok (k_log s) bl → quiet c (l_start (k_log s)) →
  few c R → (length R < NBUF)%nat →
  ∃ s', write_head s = Done tt s' ∧ bframe s s' ∧
    Rep s' (a_writes [(l_start (k_log s), head_enc (c_content c (l_start (k_log s))) bl)] c).
Proof.
  intros HR Hk Hl [Hq1 Hq2] Hfew Hlen. unfold write_head. run_by (unfold gets; reflexivity).
  set (l := k_log s) in *. pose proof (lo_start _ _ Hl) as Hst. pose proof (lo_size _ _ Hl) as Hsz.
  assert (Edev : u32 (l_dev l) = ROOTDEV) by (by rewrite (lo_dev _ _ Hl)).
  rewrite Edev, (u32_small (l_start l)) by lia. set (x := l_start l) in *.
  destruct (bread_rep s c x HR Hk Hq1 Hq2) as (i & s1 & Hrun1 & HR1 & Hf1); [right; by exists R|].
  run_by (exact Hrun1). run_by (apply upd_buf_run).
  set (c1 := a_bread x i c) in *. assert (Hm1 : c_hold c1 x = Mine i) by (simpl; apply upd_eq).
  rewrite (buf_data_rep _ _ _ _ HR1 Hm1). change (c_content c1 x) with (c_content c x). rewrite (lo_n _ _ Hl).
  set (d0 := put32 _ 0 _). pose proof (set_data_rep s1 c1 x i d0 HR1 Hm1) as HR2. set (s2 := put_buf i _ s1) in *.
  assert (Hf2 : bframe s s2) by (etransitivity; [exact Hf1|apply bframe_put]).
  destruct (for_each_inv (λ z s', bframe s s' ∧ Rep s' (a_set x (put_blocks d0 0 (take (Z.to_nat z) bl)) c1))
    (Z.to_nat (Z.of_nat (length bl))) 0
    (λ k, bno ← log_block k; upd_buf i (λ b, set_b_data (put32 (b_data b) (head_off k) bno) b)) s2) as (s3 & Hrun3 & Hf3 & HR3).
  - split; [exact Hf2|]. exact HR2.
  - intros z s' Hz [Hf HR']. set (t := Z.to_nat z) in *. replace z with (Z.of_nat t) by lia.
    assert (Ht : (t < length bl)%nat) by lia.
    eexists. split; [|split].
    + run_by (apply (log_block_run s' bl); [by rewrite (bframe_log _ _ Hf)|done]). apply upd_buf_run.
    + etransitivity; [exact Hf|apply bframe_put].
    + cbn beta. rewrite (buf_data_rep s' _ x i HR') by done. simpl c_content. rewrite upd_eq.
      eapply Rep_ceq; [|eapply set_data_rep; [exact HR'|done]].
      replace (Z.to_nat (Z.of_nat t + 1)) with (S t) by lia. rewrite take_S_total, put_blocks_snoc by done.
      rewrite length_take, Nat.min_l, Z.add_0_l by lia.
      split; simpl; intros; unfold upd; try done; by repeat case_decide.
  - run_by (exact Hrun3). rewrite Nat2Z.id, Z.add_0_l, Nat2Z.id, take_ge in HR3 by done.
    assert (Hd : put_blocks d0 0 bl = head_enc (c_content c x) bl) by done. rewrite Hd in HR3.
    set (d := head_enc _ _) in *.
    destruct (bwrite_rep s3 _ x i HR3) as (s4 & Hrun4 & HR4 & Hf4); [by rewrite (bframe_held _ _ Hf3)|done|].
    run_by (exact Hrun4). assert (Hf4' : bframe s s4) by (by etransitivity).
    destruct (brelse_rep s4 _ x i HR4) as (s5 & Hrun5 & HR5 & Hf5); [by rewrite (bframe_held _ _ Hf4')|done| |].
    { simpl. by rewrite !upd_eq. }
    exists s5. split; [exact Hrun5|]. split; [by etransitivity|]. eapply Rep_ceq; [|exact HR5].
    split; simpl; intros; simpl_upd.
Qed.
End logrun.
