(* ===== verification/LogHead.v ===== *)
(** * The header of the log on the disk, recovery and commit as block writes *)

From S2P Require Import Prelude Memory Params State Sched Block Bio BioList BioInv BioSpec Log LogRun.

(** ** Reading a header block *)

Definition head_n (d : list Z) : Z := i32 (get32 d 0).
Definition head_blocks (d : list Z) : list Z :=
  map (λ i, i32 (get32 d (head_off (Z.of_nat i)))) (seq 0 (Z.to_nat (head_n d))).

Lemma length_head_blocks d : length (head_blocks d) = Z.to_nat (head_n d).
Proof. unfold head_blocks. by rewrite length_map, length_seq. Qed.

Lemma head_blocks_empty d : head_n d = 0 → head_blocks d = [].
Proof. unfold head_blocks. by intros ->. Qed.

Lemma length_put_blocks d i bl :
  0 <= i → 4 + 4 * (i + Z.of_nat (length bl)) <= Z.of_nat (length d) → length (put_blocks d i bl) = length d.
Proof.
  revert d i. induction bl as [|b bl IH]; intros d i Hi Hlen; [done|]. simpl in *.
  rewrite IH; rewrite ?length_put32; unfold head_off; lia.
Qed.

Lemma put_blocks_other d i bl off :
  0 <= i → 4 + 4 * (i + Z.of_nat (length bl)) <= Z.of_nat (length d) → Z.of_nat off + 4 <= 4 + 4 * i →
  get32 (put_blocks d i bl) off = get32 d off.
Proof.
  revert d i. induction bl as [|b bl IH]; intros d i Hi Hlen Hoff; [done|]. simpl in *.
  rewrite IH; rewrite ?length_put32; unfold head_off; try lia.
  apply get_put32_other; unfold head_off; lia.
Qed.

Lemma put_blocks_get d i bl (k : nat) :
  0 <= i → 4 + 4 * (i + Z.of_nat (length bl)) <= Z.of_nat (length d) → (k < length bl)%nat →
  get32 (put_blocks d i bl) (head_off (i + Z.of_nat k)) = u32 (bl !!! k).
Proof.
  revert d i k. induction bl as [|b bl IH]; intros d i k Hi Hlen Hk; simpl in *; [lia|].
  destruct k as [|k].
  - simpl. rewrite Z.add_0_r, put_blocks_other; rewrite ?length_put32; unfold head_off; try lia.
    apply get_put32. lia.
  - replace (i + Z.of_nat (S k)) with (i + 1 + Z.of_nat k) by lia.
    change ((b :: bl) !!! S k) with (bl !!! k). apply IH; rewrite ?length_put32; unfold head_off; lia.
Qed.

(** ** Round trip of the header *)

Section codec.
Context (d bl : list Z) (Hd : length d = 1024%nat) (Hbl : Z.of_nat (length bl) <= LOGSIZE)
        (Hr : Forall (λ b, 0 <= b < 2 ^ 31) bl).

Let Hbl' : (length bl <= 30)%nat.
Proof. unfold LOGSIZE, MAXOPBLOCKS in Hbl. lia. Qed.

Lemma length_head_enc : length (head_enc d bl) = length d.
Proof. unfold head_enc. rewrite length_put_blocks; rewrite ?length_put32; lia. Qed.

Lemma head_n_enc : head_n (head_enc d bl) = Z.of_nat (length bl).
Proof.
  unfold head_n, head_enc. rewrite put_blocks_other; rewrite ?length_put32; try lia.
  rewrite get_put32, u32_small by lia. apply i32_small. lia.
Qed.

Lemma head_blocks_enc : head_blocks (head_enc d bl) = bl.
Proof.
  apply list_eq. intros k. unfold head_blocks. rewrite head_n_enc, Nat2Z.id.
  destruct (decide (k < length bl)%nat) as [Hk|Hk].
  - rewrite list_lookup_fmap, lookup_seq_lt by done. simpl.
    destruct (lookup_lt_is_Some_2 _ _ Hk) as [b Hb]. rewrite Hb. f_equal.
    pose proof (put_blocks_get (put32 d 0 (Z.of_nat (length bl))) 0 bl k) as Hg.
    unfold head_enc. change (Z.of_nat k) with (0 + Z.of_nat k). rewrite Hg; rewrite ?length_put32; try lia.
    rewrite (list_lookup_total_correct _ _ _ Hb).
    pose proof (Forall_lookup_1 _ _ _ _ Hr Hb). simpl in *. rewrite u32_small by lia. apply i32_small. lia.
  - rewrite lookup_ge_None_2 by (rewrite length_map, length_seq; lia). symmetry. apply lookup_ge_None. lia.
Qed.
End codec.

(** ** Writes of a commit and of a recovery *)

Section writes.
Context (start size : Z).
Implicit Types (f : Z → list Z) (bl : list Z).

Definition commit_writes f bl : list (Z * list Z) :=
  log_writes start f bl (length bl) ++ [(start, head_enc (f start) bl)] ++
  map (λ b, (b, f b)) bl ++ [(start, head_enc (head_enc (f start) bl) [])].

Definition recover_writes f : list (Z * list Z) :=
  let bl := head_blocks (f start) in
  install_writes start f bl (length bl) ++ [(start, head_enc (f start) [])].

(** What recovery makes of the disk [f]. *)
Definition recover f : Z → list Z := apply_writes (recover_writes f) f.

(** A header block that a commit can have left behind. *)
Record head_ok (d : list Z) : Prop := {
  ho_len : length d = 1024%nat;
  ho_n : 0 <= head_n d <= LOGSIZE;
  ho_size : head_n d < size;
  ho_nodup : NoDup (head_blocks d);
  ho_home : ∀ b, b ∈ head_blocks d → 0 <= b < 2 ^ 31 ∧ ¬ (start <= b < start + size);
}.

(** The log has a block for each one of the transaction. *)
Record trans_ok bl : Prop := {
  to_size : Z.of_nat (length bl) < size;
  to_cap : Z.of_nat (length bl) <= LOGSIZE;
  to_nodup : NoDup bl;
  to_home : ∀ b, b ∈ bl → 0 <= b < 2 ^ 31 ∧ ¬ (start <= b < start + size);
}.

Lemma trans_range bl : trans_ok bl → Forall (λ b, 0 <= b < 2 ^ 31) bl.
Proof. intros Ht. apply Forall_forall. intros b Hb. by apply (to_home _ Ht). Qed.

Lemma head_ok_enc d bl : length d = 1024%nat → trans_ok bl → head_ok (head_enc d bl) ∧ head_blocks (head_enc d bl) = bl.
Proof.
  intros Hd Ht. pose proof (trans_range _ Ht) as Hr. destruct Ht as [T1 T2 T3 T4].
  assert (Eb : head_blocks (head_enc d bl) = bl) by (by apply head_blocks_enc).
  assert (En : head_n (head_enc d bl) = Z.of_nat (length bl)) by (by apply head_n_enc).
  split; [|done]. split; rewrite ?Eb, ?En; try done; [by rewrite length_head_enc|lia].
Qed.

Lemma head_enc_nil d : length d = 1024%nat → head_n (head_enc d []) = 0 ∧ length (head_enc d []) = 1024%nat.
Proof. intros Hd. split; [by rewrite head_n_enc|by rewrite length_head_enc]. Qed.

(** Recovery of a disk whose log is empty changes nothing outside the log. *)
Lemma recover_empty f x : head_n (f start) = 0 → x ≠ start → recover f x = f x.
Proof.
  intros Hn Hx. unfold recover, recover_writes. rewrite (head_blocks_empty _ Hn). simpl. by apply upd_ne.
Qed.

(** Recovery of a disk with a committed transaction installs it. *)
Lemma recover_committed f x :
  head_ok (f start) → ¬ (start <= x < start + size) → 0 < size →
  recover f x =
    match list_find (λ b, b = x) (head_blocks (f start)) with
    | Some (i, _) => f (start + Z.of_nat i + 1)
    | None => f x
    end.
Proof.
  intros Hh Hx Hs. unfold recover, recover_writes. set (bl := head_blocks (f start)) in *.
  rewrite apply_writes_snoc, upd_ne by lia.
  destruct (list_find (λ b, b = x) bl) as [[i b]|] eqn:E.
  - apply list_find_Some in E as (Hi & -> & _). apply apply_writes_in.
    + unfold install_writes. rewrite map_map. simpl.
      assert (Em : map (λ k, bl !!! k) (seq 0 (length bl)) = bl); [|rewrite Em; apply Hh].
      apply list_eq. intros k. rewrite list_lookup_fmap.
      destruct (decide (k < length bl)%nat) as [Hk|Hk].
      * rewrite lookup_seq_lt by done. simpl. symmetry. by apply list_lookup_lookup_total_lt.
      * rewrite lookup_seq_ge by lia. symmetry. apply lookup_ge_None. lia.
    + unfold install_writes. apply list_elem_of_fmap. exists i. split.
      * by rewrite (list_lookup_total_correct _ _ _ Hi).
      * apply elem_of_seq. apply lookup_lt_Some in Hi. lia.
  - apply list_find_None in E. apply apply_writes_notin. rewrite install_writes_fst by done.
    rewrite take_ge by done. intros Hin. by apply (Forall_elem _ _ _ E Hin).
Qed.

(** Two disks that agree on the log and on the blocks it does not name are
    recovered to the same. *)
Lemma recover_agree f g x :
  head_ok (f start) → g start = f start → ¬ (start <= x < start + size) →
  (∀ y, start < y < start + size → g y = f y) → (x ∉ head_blocks (f start) → g x = f x) →
  recover g x = recover f x.
Proof.
  intros Hh Hst Hx Hlog Hhome. pose proof (ho_size _ Hh) as Hs. pose proof (ho_n _ Hh) as Hn.
  rewrite !recover_committed; rewrite ?Hst; try done; try lia.
  destruct (list_find _ _) as [[i b]|] eqn:E.
  - apply list_find_Some in E as (Hi & _). apply Hlog. apply lookup_lt_Some in Hi.
    rewrite length_head_blocks in Hi. lia.
  - apply Hhome. intros Hin. apply list_find_None in E. by apply (Forall_elem _ _ _ E Hin).
Qed.

Lemma recover_ext f g x :
  (∀ y, g y = f y) → head_ok (f start) → ¬ (start <= x < start + size) → recover g x = recover f x.
Proof. intros Hfg Hh Hx. by apply recover_agree. Qed.

(** ** A crash at any point of a commit *)

Lemma take_app_cases {A} (l1 l2 : list A) k :
  take k (l1 ++ l2) = if decide (k <= length l1)%nat then take k l1 else l1 ++ take (k - length l1) l2.
Proof. rewrite take_app. case_decide; [|by rewrite take_ge by lia]. replace (k - length l1)%nat with 0%nat by lia. apply app_nil_r. Qed.

Lemma map_fst_take {A B} (l : list (A * B)) k x : x ∈ map fst (take k l) → x ∈ map fst l.
Proof. intros Hx. rewrite <- (take_drop k l), map_app. apply elem_of_app. by left. Qed.

Lemma home_fst f bl : map fst (map (λ b, (b, f b)) bl) = bl.
Proof. rewrite map_map. apply map_id. Qed.

Lemma home_writes_in f bl g x k :
  NoDup bl → (length bl <= k)%nat → x ∈ bl → apply_writes (take k (map (λ b, (b, f b)) bl)) g x = f x.
Proof.
  intros Hnd Hk Hx. rewrite take_ge by (by rewrite length_map).
  apply apply_writes_in; [by rewrite home_fst|]. apply list_elem_of_fmap. by exists x.
Qed.

Lemma log_writes_apply bl f g (i : nat) :
  (i < length bl)%nat → apply_writes (log_writes start f bl (length bl)) g (start + Z.of_nat i + 1) = f (bl !!! i).
Proof.
  intros Hi. apply apply_writes_in.
  - unfold log_writes. rewrite map_map. simpl. apply NoDup_fmap_2_strong; [|apply NoDup_seq]. intros; lia.
  - unfold log_writes. apply list_elem_of_fmap. exists i. split; [done|]. apply elem_of_seq. lia.
Qed.

Lemma apply_home_values f bl g x : NoDup bl → x ∈ bl → apply_writes (map (λ b, (b, f b)) bl) g x = f x.
Proof. intros Hnd Hx. rewrite <- (take_ge (map _ bl) (length bl)) by (by rewrite length_map). by apply home_writes_in. Qed.

(** [f] is the cache and [g] the disk before the commit; the log is empty. *)
Lemma commit_crash f g bl k x :
  trans_ok bl → length (f start) = 1024%nat → head_n (g start) = 0 → 0 < size →
  ¬ (start <= x < start + size) →
  recover (apply_writes (take k (commit_writes f bl)) g) x =
    if decide (k <= length bl)%nat then g x else if decide (x ∈ bl) then f x else g x.
Proof.
  intros Ht Hlen Hn Hs Hx. pose proof Ht as [T1 T2 T3 T4]. unfold commit_writes.
  set (hd := head_enc (f start) bl). set (lw := log_writes start f bl (length bl)).
  assert (Hll : length lw = length bl) by (unfold lw, log_writes; by rewrite length_map, length_seq).
  assert (Hlx : ∀ y, y ∈ map fst lw → start < y < start + size) by (intros y Hy%log_writes_fst; lia).
  destruct (head_ok_enc (f start) bl Hlen Ht) as [Hok Eb]. fold hd in Hok, Eb.
  rewrite take_app_cases, Hll. case_decide as Hk1.
  - (* the header is not written yet *)
    rewrite recover_empty; [|rewrite apply_writes_notin; [done|]|lia].
    + apply apply_writes_notin. intros Hy%map_fst_take%Hlx. lia.
    + intros Hy%map_fst_take%Hlx. lia.
  - rewrite !apply_writes_app. set (g1 := apply_writes lw g).
    destruct (k - length bl)%nat as [|k1] eqn:Ek; [lia|]. cbn [take app apply_writes foldl fst snd].
    rewrite take_app_cases, length_map. case_decide as Hk2.
    + (* the header is written, the blocks are being installed *)
      change (foldl _ _ ?ws) with (apply_writes ws (upd start hd g1)).
      set (g2 := upd start hd g1). set (ws := take k1 (map _ bl)).
      assert (Hws : ∀ y, y ∈ map fst ws → y ∈ bl) by (intros y Hy%map_fst_take; by rewrite home_fst in Hy).
      assert (E2 : g2 start = hd) by apply upd_eq.
      rewrite (recover_agree g2); rewrite ?E2; try done.
      * rewrite recover_committed; rewrite ?E2; try done. rewrite Eb.
        destruct (list_find _ bl) as [[i b]|] eqn:E.
        -- apply list_find_Some in E as (Hi & -> & _). rewrite decide_True by (by eapply list_elem_of_lookup_2).
           unfold g2, g1. rewrite upd_ne by lia. unfold lw. rewrite log_writes_apply by (by eapply lookup_lt_Some).
           by rewrite (list_lookup_total_correct _ _ _ Hi).
        -- apply list_find_None in E. rewrite decide_False by (intros Hin; by apply (Forall_elem _ _ _ E Hin)).
           unfold g2, g1. rewrite upd_ne by lia. apply apply_writes_notin. intros Hy%Hlx. lia.
      * rewrite apply_writes_notin; [done|]. intros Hy%Hws. apply T4 in Hy. lia.
      * intros y Hy. apply apply_writes_notin. intros Hy'%Hws. apply T4 in Hy'. lia.
      * rewrite Eb. intros Hy. apply apply_writes_notin. by intros Hy'%Hws.
    + (* the log is empty again *)
      change (foldl _ _ ?ws) with (apply_writes ws (upd start hd g1)).
      destruct (k1 - length bl)%nat as [|k2] eqn:Ek2; [lia|]. cbn [take].
      rewrite firstn_nil, apply_writes_snoc. set (g2 := apply_writes _ (upd start hd g1)).
      rewrite recover_empty; [rewrite upd_ne by lia|by rewrite upd_eq; apply head_enc_nil; unfold hd; rewrite length_head_enc|lia].
      unfold g2. case_decide as Hin; [by apply apply_home_values|].
      rewrite apply_writes_notin by (by rewrite home_fst). rewrite upd_ne by lia.
      apply apply_writes_notin. intros Hy%Hlx. lia.
Qed.

(** ** A crash at any point of a recovery *)

Lemma recover_crash f k x :
  head_ok (f start) → ¬ (start <= x < start + size) →
  recover (apply_writes (take k (recover_writes f)) f) x = recover f x.
Proof.
  intros Hh Hx. pose proof (ho_size _ Hh) as Hs. pose proof (ho_n _ Hh) as Hn0.
  assert (Hin : ∀ t y, y ∈ map fst (take t (install_writes start f (head_blocks (f start)) (length (head_blocks (f start))))) →
    y ∈ head_blocks (f start)).
  { intros t y Hy%map_fst_take. rewrite install_writes_fst in Hy by done. by rewrite take_ge in Hy. }
  unfold recover_writes. rewrite take_app_cases. case_decide as Hk.
  - apply recover_agree; try done.
    + apply apply_writes_notin. intros Hy%Hin%(ho_home _ Hh). lia.
    + intros y Hy. apply apply_writes_notin. intros Hy'%Hin%(ho_home _ Hh). lia.
    + intros Hy. apply apply_writes_notin. by intros Hy'%Hin.
  - rewrite (take_ge [_]) by (simpl; lia). fold (recover_writes f). fold (recover f).
    apply recover_empty; [|lia]. unfold recover, recover_writes. rewrite apply_writes_snoc, upd_eq.
    apply head_enc_nil. apply Hh.
Qed.

Lemma recover_writes_head f k :
  head_ok (f start) → head_ok (apply_writes (take k (recover_writes f)) f start).
Proof.
  intros Hh. pose proof (ho_size _ Hh) as Hs. pose proof (ho_n _ Hh) as Hn0.
  unfold recover_writes. rewrite take_app_cases. case_decide as Hk.
  - rewrite apply_writes_notin; [done|]. intros Hy%map_fst_take. rewrite install_writes_fst, take_ge in Hy by done.
    apply (ho_home _ Hh) in Hy. lia.
  - rewrite (take_ge [_]) by (simpl; lia). rewrite apply_writes_snoc, upd_eq.
    apply head_ok_enc; [apply Hh|]. split; try done; simpl; [lia|constructor|set_solver].
Qed.
End writes.
