(* ===== verification/LogCommit.v ===== *)
(** * Commit, recovery and crashes

    What [commit] and [recover_from_log] do to the disk, and that a crash
    between any two block writes of either leaves a disk from which recovery
    makes the state before or after the whole transaction. *)

From S2P Require Import Prelude Memory Params State Sched Block Bio BioList BioInv BioSpec BioInit.
From S2P Require Import Log LogRun LogHead.

Section logcommit.
Context `{DiskRw} `{WaitFuel}.
Implicit Types (s : kst) (c : cache) (bl : list Z).

(** ** [read_head] *)

Definition load_head (d : list Z) (l : logstate) : logstate :=
  mk_log (l_start l) (l_size l) (l_outstanding l) (l_committing l) (l_dev l) (head_n d)
    (head_blocks d ++ drop (length (head_blocks d)) (lh_block l)).

(** Changes of the log variables and what [bframe] allows. *)
Definition lframe s s' : Prop := bframe (set_log (k_log s') s) s'.

Lemma lframe_set s s' l' : bframe s s' → lframe s (set_log l' s').
Proof.
  intros [E L P]. split; [|exact L|exact P]. simpl. rewrite E at 1. done.
Qed.

Lemma bframe_lframe s s' : bframe s s' → lframe s s'.
Proof. intros Hf. unfold lframe. rewrite (bframe_log _ _ Hf). by destruct s. Qed.

Lemma lframe_trans s1 s2 s3 : lframe s1 s2 → lframe s2 s3 → lframe s1 s3.
Proof.
  unfold lframe. intros H1 H2. pose proof (bframe_cur _ _ H1) as Hc.
  destruct H1 as [E1 L1 P1], H2 as [E2 L2 P2]. split.
  - rewrite E2 at 1. rewrite E1. done.
  - by rewrite L2.
  - intros i. destruct (P2 i) as [E|(Hi & Hs & E)]; rewrite E.
    + exact (P1 i).
    + change (get_proc (set_log (k_log s3) s2) i) with (get_proc s2 i) in *.
      change (get_proc (set_log (k_log s3) s1) i) with (get_proc s1 i) in *.
      change (get_proc (set_log (k_log s2) s1) i) with (get_proc s1 i) in *.
      simpl in Hi, Hc. rewrite Hc in Hi.
      destruct (P1 i) as [E1'|(_ & _ & E1')]; rewrite E1' in *; [by right|done].
Qed.

Lemma lframe_held s s' : lframe s s' → k_held s' = k_held s.
Proof. intros Hf. apply bframe_held in Hf. done. Qed.

Lemma Rep_log s c l : Rep s c → Rep (set_log l s) c.
Proof. by apply Rep_ext. Qed.

Lemma store_log_block_run s i b :
  0 <= i < LOGSIZE → store_log_block i b s = Done tt (set_log (set_log_block i b (k_log s)) s).
Proof. intros Hi. unfold store_log_block. rewrite (proj2 (andb_true_iff _ _)) by (split; lia). done. Qed.

Lemma insert_load (l1 l2 : list Z) (i : nat) b :
  i = length l1 → (i < length l2)%nat → <[i := b]> (l1 ++ drop i l2) = l1 ++ [b] ++ drop (S i) l2.
Proof.
  intros -> Hi. destruct (lookup_lt_is_Some_2 _ _ Hi) as [y Hy]. rewrite (drop_S _ _ _ Hy).
  rewrite insert_app_r_alt by done. by rewrite Nat.sub_diag.
Qed.

Lemma read_head_run s c R :
  Rep s c → k_held s = [] → l_dev (k_log s) = ROOTDEV → 0 <= l_start (k_log s) < 2 ^ 31 →
  quiet c (l_start (k_log s)) → few c R → (length R < NBUF)%nat →
  length (lh_block (k_log s)) = Z.to_nat LOGSIZE →
  let d := c_content c (l_start (k_log s)) in
  0 <= head_n d <= LOGSIZE →
  ∃ s', read_head s = Done tt s' ∧ k_log s' = load_head d (k_log s) ∧ lframe s s' ∧ Rep s' c.
Proof.
  intros HR Hk Hdev Hst [Hq1 Hq2] Hfew Hlen Harr d Hn. unfold read_head. run_by (unfold gets; reflexivity).
  set (l := k_log s) in *. rewrite Hdev, (u32_small ROOTDEV), (u32_small (l_start l)) by (unfold ROOTDEV; lia).
  set (x := l_start l) in *.
  destruct (bread_rep s c x HR Hk Hq1 Hq2) as (i & s1 & Hrun1 & HR1 & Hf1); [right; by exists R|].
  run_by (exact Hrun1). run_by (unfold buf_get, gets; reflexivity).
  assert (Hm1 : c_hold (a_bread x i c) x = Mine i) by (simpl; apply upd_eq).
  rewrite (buf_data_rep _ _ _ _ HR1 Hm1). change (c_content (a_bread x i c) x) with d.
  run_by (unfold upd_log, modify; reflexivity). run_by (unfold gets; reflexivity).
  rewrite (bframe_log _ _ Hf1). fold l (head_n d). simpl.
  set (lt := λ t, mk_log (l_start l) (l_size l) (l_outstanding l) (l_committing l) (l_dev l) (head_n d)
    (take t (head_blocks d) ++ drop t (lh_block l))).
  destruct (for_each_inv (λ z s', s' = set_log (lt (Z.to_nat z)) s1) (Z.to_nat (head_n d)) 0
    (λ i, store_log_block i (i32 (get32 d (head_off i)))) (set_log (set_log_n (head_n d) l) s1))
    as (s2 & Hrun2 & ->).
  - unfold lt. simpl. by rewrite drop_0.
  - intros z s' Hz ->. eexists. split; [apply store_log_block_run; lia|].
    unfold set_log_block, lt. simpl. set (t := Z.to_nat z).
    replace (Z.to_nat (z + 1)) with (S t) by lia.
    assert (Hb : head_blocks d !! t = Some (i32 (get32 d (head_off z)))).
    { unfold head_blocks. rewrite list_lookup_fmap, lookup_seq_lt by lia. simpl. do 3 f_equal. f_equal. lia. }
    rewrite insert_load; [by rewrite (take_S_r _ _ _ Hb), <- app_assoc| |].
    + rewrite length_take, length_head_blocks. lia.
    + rewrite Harr. lia.
  - run_by (exact Hrun2). rewrite Z.add_0_l, Z2Nat.id by lia. set (s2 := set_log _ s1).
    destruct (brelse_rep s2 (a_bread x i c) x i) as (s3 & Hrun3 & HR3 & Hf3); try done.
    + by apply Rep_log.
    + change (k_held s2) with (k_held s1). by rewrite (bframe_held _ _ Hf1).
    + simpl. rewrite upd_eq. intros Hr. apply (Rep_clean s); [done|lia].
    + exists s3. split; [exact Hrun3|]. split_and!.
      * rewrite (bframe_log _ _ Hf3). simpl. unfold lt, load_head.
        by rewrite take_ge, length_head_blocks by (rewrite length_head_blocks; lia).
      * apply (lframe_trans _ s2); [by apply lframe_set|by apply bframe_lframe].
      * eapply Rep_ceq; [|exact HR3]. split; simpl; try done.
        -- intros y. unfold upd. case_decide; [subst y|done]. rewrite decide_True by done. lia.
        -- intros y. unfold upd. by case_decide; [subst y|].
Qed.

(** ** Recovery *)

(** The variables of the log describe the area [start, start+size) of the disk. *)
Record log_area (l : logstate) : Prop := {
  la_dev : l_dev l = ROOTDEV;
  la_start : 0 <= l_start l ∧ l_start l + l_size l < 2 ^ 31 ∧ 0 < l_size l;
  la_arr : length (lh_block l) = Z.to_nat LOGSIZE;
}.

Lemma load_head_ok d l :
  log_area l → head_ok (l_start l) (l_size l) d → log_ok (load_head d l) (head_blocks d).
Proof.
  intros [A1 A2 A3] Hh. pose proof (length_head_blocks d) as Hl. pose proof (ho_n _ _ _ Hh) as Hn.
  pose proof (ho_size _ _ _ Hh) as Hs.
  split; simpl; try done; try lia.
  - rewrite length_app, length_drop. lia.
  - by rewrite take_app_length.
  - apply Hh.
  - intros b Hb. by apply (ho_home _ _ _ Hh).
Qed.

(** Nothing is referenced: the kernel has just booted. *)
Definition fresh_cache c : Prop := (∀ x, c_refs c x = 0) ∧ (∀ x, c_hold c x = Free).

Lemma fresh_quiet c x : fresh_cache c → quiet c x.
Proof. intros [Hr Hh]. split; [done|]. rewrite Hr. lia. Qed.

Lemma fresh_few c : fresh_cache c → few c [].
Proof. intros [Hr _] x. rewrite Hr. lia. Qed.

Lemma fresh_idle c l bl : fresh_cache c → idle c l bl [].
Proof.
  intros Hf. split; try (intros; by apply fresh_quiet).
  - by apply fresh_few.
  - unfold NBUF. simpl. lia.
  - intros. right. unfold NBUF. simpl. lia.
Qed.

Lemma clear_log_ok l bl : log_ok l bl → 0 < l_size l → log_ok (set_log_n 0 l) [].
Proof. intros Hl Hs. destruct Hl. split; simpl; try done; [constructor|set_solver]. Qed.

Lemma recover_run s c :
  Rep s c → k_held s = [] → log_area (k_log s) → fresh_cache c →
  let l := k_log s in
  head_ok (l_start l) (l_size l) (c_content c (l_start l)) →
  ∃ s', recover_from_log s = Done tt s' ∧ lframe s s' ∧
    k_log s' = set_log_n 0 (load_head (c_content c (l_start l)) l) ∧
    Rep s' (a_writes (recover_writes (l_start l) (c_content c)) c).
Proof.
  intros HR Hk Hl Hfresh l Hhd. set (d := c_content c (l_start l)) in *. set (bl := head_blocks d).
  destruct (la_start _ Hl) as (Hst1 & Hst2 & Hst3). fold l in Hst1, Hst2, Hst3.
  destruct (read_head_run s c []) as (s1 & Hrun1 & El1 & Hf1 & HR1); try done; try apply Hl.
  - fold l. lia.
  - by apply fresh_quiet.
  - by apply fresh_few.
  - unfold NBUF. simpl. lia.
  - apply Hhd.
  - fold l in El1. fold d in El1. unfold recover_from_log. run_by (exact Hrun1).
    assert (Hok1 : log_ok (k_log s1) bl) by (rewrite El1; by apply load_head_ok).
    assert (Hk1 : k_held s1 = []) by (by rewrite (lframe_held _ _ Hf1)).
    destruct (install_trans_run s1 c bl [] true HR1 Hk1 Hok1) as (s2 & Hrun2 & Hf2 & HR2);
      [by apply fresh_idle|done|].
    run_by (exact Hrun2). run_by (unfold upd_log, modify; reflexivity).
    rewrite (bframe_log _ _ Hf2), El1 in *. change (l_start (load_head d l)) with (l_start l) in *.
    set (s3 := set_log _ s2). set (c2 := a_unpin true bl _) in HR2.
    assert (Hfresh2 : fresh_cache c2) by (destruct Hfresh as [Hr Hh]; split; simpl; [intros; rewrite Hr; lia|done]).
    destruct (write_head_run s3 c2 [] []) as (s4 & Hrun4 & Hf4 & HR4).
    + by apply Rep_log.
    + change (k_held s3) with (k_held s2). by rewrite (bframe_held _ _ Hf2).
    + by eapply clear_log_ok.
    + by apply fresh_quiet.
    + by apply fresh_few.
    + unfold NBUF. simpl. lia.
    + exists s4. split; [exact Hrun4|]. change (k_log s3) with (set_log_n 0 (load_head d l)) in *.
      change (l_start (set_log_n 0 (load_head d l))) with (l_start l) in HR4. split_and!.
      * apply (lframe_trans _ s1); [done|]. apply (lframe_trans _ s3); [by apply lframe_set|by apply bframe_lframe].
      * by rewrite (bframe_log _ _ Hf4).
      * assert (Hd : c_content c2 (l_start l) = d).
        { simpl. apply apply_writes_notin. rewrite install_writes_fst, take_ge by done.
          intros Hin%(ho_home _ _ _ Hhd). lia. }
        rewrite Hd in HR4. unfold recover_writes. fold d bl.
        eapply Rep_ceq; [|exact HR4]. rewrite a_writes_app.
        split; simpl; try done. intros x. lia.
Qed.

(** ** [commit] *)

Lemma apply_log_content start f bl x :
  ¬ (start + 1 <= x < start + 1 + Z.of_nat (length bl)) →
  apply_writes (log_writes start f bl (length bl)) f x = f x.
Proof. intros Hx. apply apply_writes_notin. by rewrite log_writes_fst. Qed.

(** The data installed from the log is the data of the cache. *)
Lemma install_from_log start f g bl :
  (∀ i, (i < length bl)%nat → g (start + Z.of_nat i + 1) = f (bl !!! i)) →
  install_writes start g bl (length bl) = map (λ b, (b, f b)) bl.
Proof.
  intros Hg. apply list_eq. intros k. unfold install_writes. rewrite !list_lookup_fmap.
  destruct (decide (k < length bl)%nat) as [Hk|Hk].
  - rewrite lookup_seq_lt by done. simpl. rewrite Hg by done.
    destruct (lookup_lt_is_Some_2 _ _ Hk) as [b Hb]. rewrite Hb. by rewrite (list_lookup_total_correct _ _ _ Hb).
  - rewrite lookup_seq_ge by lia. by rewrite lookup_ge_None_2 by lia.
Qed.

Lemma log_ok_trans l bl : log_ok l bl → trans_ok (l_start l) (l_size l) bl.
Proof. intros []. by split. Qed.

Lemma commit_run s c bl R :
  Rep s c → k_held s = [] → log_ok (k_log s) bl → bl ≠ [] → idle c (k_log s) bl R →
  (∀ b, b ∈ bl → 0 < c_refs c b) →
  let l := k_log s in
  ∃ s', commit s = Done tt s' ∧ k_log s' = set_log_n 0 l ∧ lframe s s' ∧
    Rep s' (a_unpin false bl (a_writes (commit_writes (l_start l) (c_content c) bl) c)).
Proof.
  intros HR Hk Hl Hne Hid Hpin l. set (f := c_content c). set (x := l_start l).
  pose proof (lo_size _ _ Hl) as Hsz. pose proof (lo_start _ _ Hl) as Hst. fold l in Hsz, Hst.
  assert (Hsz0 : 0 < l_size l) by lia.
  unfold commit. run_by (unfold gets; reflexivity).
  assert (Hn : lh_n (k_log s) >? 0 = true).
  { rewrite (lo_n _ _ Hl), Z.gtb_ltb. apply Z.ltb_lt. destruct bl; [done|]. cbn [length]. lia. }
  rewrite Hn. unfold when.
  destruct (write_log_run s c bl R HR Hk Hl Hid) as (s1 & Hrun1 & Hf1 & HR1).
  run_by (exact Hrun1). pose proof (bframe_log _ _ Hf1) as El1. fold l x f in HR1, El1.
  set (c1 := a_writes _ c) in HR1.
  assert (Hc1x : c_content c1 x = f x) by (apply apply_log_content; lia).
  destruct (write_head_run s1 c1 bl R HR1) as (s2 & Hrun2 & Hf2 & HR2); rewrite ?El1; try done;
    [by rewrite (bframe_held _ _ Hf1)|apply (id_log _ _ _ _ Hid); fold l; lia|apply Hid|apply Hid|].
  run_by (exact Hrun2). pose proof (bframe_log _ _ Hf2) as El2. rewrite El1 in El2.
  rewrite El1 in HR2. fold x in HR2. rewrite Hc1x in HR2. set (c2 := a_writes _ c1) in HR2.
  assert (Hk2 : k_held s2 = []) by (by rewrite (bframe_held _ _ Hf2), (bframe_held _ _ Hf1)).
  destruct (install_trans_run s2 c2 bl R false HR2 Hk2) as (s3 & Hrun3 & Hf3 & HR3); rewrite ?El2; try done;
    [by do 2 apply a_writes_idle|].
  run_by (exact Hrun3). rewrite El2 in HR3. fold x in HR3.
  rewrite (install_from_log x f) in HR3.
  2:{ intros i Hi. unfold c2. simpl. rewrite upd_ne by lia. by apply log_writes_apply. }
  run_by (unfold upd_log, modify; reflexivity). rewrite (bframe_log _ _ Hf3), El2.
  set (s4 := set_log _ s3). set (c3 := a_unpin false bl _) in HR3.
  assert (Hc3x : c_content c3 x = head_enc (f x) bl).
  { simpl. rewrite apply_writes_notin; [apply upd_eq|]. rewrite home_fst.
    intros Hin%(lo_home _ _ Hl). fold l in Hin. lia. }
  assert (Href3 : ∀ y, c_refs c3 y <= c_refs c y) by (intros y; simpl; case_decide; lia).
  destruct (write_head_run s4 c3 [] R) as (s5 & Hrun5 & Hf5 & HR5).
  - by apply Rep_log.
  - change (k_held s4) with (k_held s3). by rewrite (bframe_held _ _ Hf3).
  - by eapply clear_log_ok.
  - destruct (id_log _ _ _ _ Hid x) as [Hq1 Hq2]; [fold l; lia|]. split; [done|].
    change (l_start (k_log s4)) with x. specialize (Href3 x). lia.
  - intros y Hy. apply (id_few _ _ _ _ Hid). specialize (Href3 y). lia.
  - apply Hid.
  - exists s5. split; [exact Hrun5|]. split_and!.
    + by rewrite (bframe_log _ _ Hf5).
    + apply (lframe_trans _ s1); [by apply bframe_lframe|]. apply (lframe_trans _ s2); [by apply bframe_lframe|].
      apply (lframe_trans _ s4); [by apply lframe_set|by apply bframe_lframe].
    + change (l_start (k_log s4)) with x in HR5. rewrite Hc3x in HR5. unfold commit_writes.
      eapply Rep_ceq; [|exact HR5]. fold x f. rewrite !a_writes_app. by split.
Qed.
End logcommit.
