(* ===== verification/LogOps.v ===== *)
(** * begin_op, log_write, end_op and the properties of the log *)

From S2P Require Import Prelude Memory Params State Riscv Sched Block Bio BioList BioInv BioSpec BioInit.
From S2P Require Import Log LogRun LogHead LogCommit.

Section logops.
Context `{DiskRw} `{WaitFuel}.
Implicit Types (s : kst) (c : cache) (bl : list Z).

(** ** [begin_op] *)

(** The test of [begin_op]: there is room for one more operation. *)
Definition admits (l : logstate) : Prop :=
  l_committing l = false ∧ lh_n l + (l_outstanding l + 1) * MAXOPBLOCKS <= LOGSIZE.

#[global] Instance admits_dec l : Decision (admits l).
Proof. unfold admits. apply _. Defined.

Lemma begin_op_wait_go fuel s :
  k_held s = [LLog] → admits (k_log s) →
  begin_op_wait fuel s =
    Done tt (set_held [] (set_log (set_log_out (l_outstanding (k_log s) + 1) (k_log s)) s)).
Proof.
  intros Hk [Hc Hn]. destruct fuel; cbn [begin_op_wait];
    (run_by (unfold gets; reflexivity); rewrite Hc;
     rewrite Z.gtb_ltb, (proj2 (Z.ltb_ge _ _) Hn); run_by (unfold upd_log, modify; reflexivity);
     by apply (release_ok LLog []); [|set_solver]).
Qed.

Lemma begin_op_wait_sleep fuel s :
  k_held s = [LLog] → ¬ admits (k_log s) →
  begin_op_wait fuel s =
    match fuel with O => OutOfFuel | S fuel => (sleep ChLog LLog;; begin_op_wait fuel) s end.
Proof.
  intros Hk Hna.
  assert (Ht : l_committing (k_log s) = true ∨
    l_committing (k_log s) = false ∧ lh_n (k_log s) + (l_outstanding (k_log s) + 1) * MAXOPBLOCKS >? LOGSIZE = true).
  { destruct (l_committing (k_log s)) eqn:Ec; [by left|right]. split; [done|]. rewrite Z.gtb_ltb. apply Z.ltb_lt.
    unfold admits in Hna. destruct (decide (lh_n (k_log s) + (l_outstanding (k_log s) + 1) * MAXOPBLOCKS <= LOGSIZE)); [tauto|lia]. }
  destruct fuel; cbn [begin_op_wait]; (run_by (unfold gets; reflexivity);
    destruct Ht as [->|[-> ->]]; done).
Qed.

(** ** [log_write] *)

Lemma log_find_spec fuel i blocks bno :
  let n := (i + fuel)%nat in
  (∀ k, (i <= k < n)%nat → 0 <= blocks !!! k < 2 ^ 32) →
  ∃ k, log_find fuel (Z.of_nat i) blocks bno = Z.of_nat k ∧ (i <= k <= n)%nat ∧
    ((k < n)%nat → blocks !!! k = bno) ∧ (∀ j, (i <= j < k)%nat → blocks !!! j ≠ bno).
Proof.
  cbv zeta. revert i. induction fuel as [|fuel IH]; intros i Hr; cbn [log_find].
  - exists i. split_and!; try done; intros; lia.
  - rewrite Nat2Z.id, u32_small by (apply (Hr i); lia).
    destruct (Z.eqb_spec (blocks !!! i) bno) as [E|E].
    + exists i. split_and!; try done; intros; lia.
    + replace (Z.of_nat i + 1) with (Z.of_nat (S i)) by lia.
      destruct (IH (S i)) as (k & E1 & Hk & Hf & Hj); [intros; apply Hr; lia|].
      exists k. split_and!; [done|lia|lia|intros; apply Hf; lia|].
      intros j Hj'. destruct (decide (j = i)) as [->|]; [done|]. apply Hj. lia.
Qed.

(** The position of [bno] in the log, its length if it is not there. *)
Lemma log_find_log l bl bno :
  log_ok l bl → ∃ k, log_find (Z.to_nat (lh_n l)) 0 (lh_block l) bno = Z.of_nat k ∧ (k <= length bl)%nat ∧
    ((k < length bl)%nat ∧ bl !!! k = bno ∨ k = length bl ∧ bno ∉ bl).
Proof.
  intros Hl. rewrite (lo_n _ _ Hl), Nat2Z.id.
  assert (Heq : ∀ k, (k < length bl)%nat → lh_block l !!! k = bl !!! k).
  { intros k Hk. rewrite <- (lo_blocks _ _ Hl). by rewrite lookup_total_take_lt. }
  destruct (log_find_spec (length bl) 0 (lh_block l) bno) as (k & E & Hk & Hf & Hj).
  - intros k Hk. rewrite Heq by lia. pose proof (lo_home _ _ Hl _ (log_elem bl k ltac:(lia))). lia.
  - exists k. split_and!; [done|lia|]. destruct (decide (k < length bl)%nat) as [Hlt|Hge].
    + left. split; [done|]. rewrite <- Heq by done. by apply Hf.
    + right. split; [lia|]. intros (j & Hbj)%list_elem_of_lookup. pose proof (lookup_lt_Some _ _ _ Hbj).
      apply (Hj j); [lia|]. rewrite Heq by done. by apply list_lookup_total_correct.
Qed.

(** The log after [log_write] of block [bno]: nothing new if it is logged
    already. *)
Definition logged bl (bno : Z) : list Z := if decide (bno ∈ bl) then bl else bl ++ [bno].

Lemma take_insert_last (l bl : list Z) b :
  take (length bl) l = bl → (length bl < length l)%nat →
  take (S (length bl)) (<[length bl := b]> l) = bl ++ [b].
Proof.
  intros Ht Hlt. rewrite (take_S_r _ _ b) by (by apply list_lookup_insert_eq).
  by rewrite take_insert_ge, Ht by lia.
Qed.

Lemma log_add_ok l bl b :
  log_ok l bl → b ∉ bl → Z.of_nat (length bl) < l_size l - 1 → Z.of_nat (length bl) < LOGSIZE →
  0 <= b < 2 ^ 31 → ¬ (l_start l <= b < l_start l + l_size l) →
  log_ok (set_log_n (lh_n l + 1) (set_log_block (Z.of_nat (length bl)) b l)) (bl ++ [b]).
Proof.
  intros Hl Hb Hs Hc Hr Hh. destruct Hl as [L1 L2 L3 L4 L5 L6 L7 L8 L9].
  assert (Hlen : length (bl ++ [b]) = S (length bl)) by (rewrite length_app; simpl; lia).
  split; simpl; rewrite ?Hlen; try done; try lia.
  - by rewrite length_insert.
  - rewrite Nat2Z.id. apply take_insert_last; [done|lia].
  - apply NoDup_app. split_and!; [done|set_solver|apply NoDup_singleton].
  - intros x [Hx|Hx]%elem_of_app; [by apply L9|]. by apply list_elem_of_singleton in Hx as ->.
Qed.

Lemma log_same_ok l bl (k : nat) :
  log_ok l bl → (k < length bl)%nat → set_log_block (Z.of_nat k) (bl !!! k) l = l.
Proof.
  intros Hl Hk. destruct l as [? ? ? ? ? n blk]. unfold set_log_block. simpl. f_equal. rewrite Nat2Z.id.
  apply list_insert_id. pose proof (lo_blocks _ _ Hl) as Hb. simpl in Hb.
  assert (Hx : take (length bl) blk !! k = Some (bl !!! k)) by (rewrite Hb; by apply list_lookup_lookup_total_lt).
  by apply lookup_take_Some in Hx as [? _].
Qed.

Lemma log_write_run s c bl bno i :
  Rep s c → k_held s = [] → log_ok (k_log s) bl → c_hold c bno = Mine i → c_refs c bno + 1 < 2 ^ 32 →
  0 <= bno < 2 ^ 31 → ¬ (l_start (k_log s) <= bno < l_start (k_log s) + l_size (k_log s)) →
  1 <= l_outstanding (k_log s) →
  Z.of_nat (length bl) < l_size (k_log s) - 1 → Z.of_nat (length bl) < LOGSIZE →
  ∃ s', log_write i s = Done tt s' ∧ lframe s s' ∧ log_ok (k_log s') (logged bl bno) ∧
    l_outstanding (k_log s') = l_outstanding (k_log s) ∧ l_size (k_log s') = l_size (k_log s) ∧
    l_start (k_log s') = l_start (k_log s) ∧ l_committing (k_log s') = l_committing (k_log s) ∧
    Rep s' (if decide (bno ∈ bl) then c else a_refs bno (c_refs c bno + 1) c).
Proof.
  intros HR Hk Hl Hm Hr Hb Hnl Ho Hs Hc. pose proof (lo_n _ _ Hl) as Hn. set (l := k_log s) in *.
  unfold log_write. run_by (by apply acquire_ok; rewrite Hk; set_solver). rewrite Hk. set (s1 := set_held _ s).
  run_by (unfold gets; reflexivity). change (k_log s1) with l.
  rewrite (proj2 (orb_false_iff _ _)) by (split; rewrite Z.geb_leb; apply Z.leb_gt; lia).
  rewrite (proj2 (Z.ltb_ge _ _) Ho). run_by (unfold buf_get, gets; reflexivity).
  assert (HR1 : Rep s1 c) by (by eapply Rep_ext; [..|exact HR]).
  rewrite (buf_blockno_rep s1 c bno i HR1 Hm).
  destruct (log_find_log l bl bno Hl) as (k & Ek & Hk' & Hcase). rewrite Ek.
  run_by (apply store_log_block_run; lia). rewrite (i32_small bno) by lia. change (k_log s1) with l.
  destruct Hcase as [[Hlt Hbk]|[-> Hnin]].
  - assert (Hin : bno ∈ bl) by (rewrite <- Hbk; by apply log_elem).
    assert (Hsame : set_log_block (Z.of_nat k) bno l = l) by (rewrite <- Hbk; by apply log_same_ok).
    rewrite Hsame.
    rewrite (proj2 (Z.eqb_neq _ _)) by lia. unfold when. run_by reflexivity.
    erewrite (release_ok _ []); [|done|set_solver]. unfold logged. rewrite !decide_True by done.
    assert (E : set_held [] (set_log l s1) = s) by (unfold s1, l; destruct s; simpl in *; by subst).
    rewrite E. exists s. split_and!; try done. by apply bframe_lframe.
  - rewrite <- Hn, Z.eqb_refl. unfold when. set (s2 := set_log _ s1).
    assert (HR2 : Rep s2 c) by (by eapply Rep_ext; [..|exact HR1]).
    destruct (bpin_rep s2 c bno i HR2) as (s3 & Hrun3 & HR3 & Hf3); [simpl; set_solver|done|done|].
    assert (Hpin : (bpin i;; upd_log (λ l, set_log_n (lh_n l + 1) l)) s2 =
      Done tt (set_log (set_log_n (lh_n l + 1) (set_log_block (lh_n l) bno l)) s3)).
    { run_by (exact Hrun3). unfold upd_log, modify. by rewrite (bframe_log _ _ Hf3). }
    run_by (exact Hpin). assert (Hh3 : k_held s3 = [LLog]) by (by rewrite (bframe_held _ _ Hf3)).
    erewrite (release_ok _ []); [|exact Hh3|set_solver]. rewrite !decide_False by done.
    eexists. split; [reflexivity|]. unfold logged. rewrite !decide_False by done. split_and!; try done.
    + destruct Hf3 as [E3 L3 P3]. split; [|exact L3|exact P3]. simpl. rewrite E3. unfold s2, s1. simpl.
      destruct s; simpl in *. by subst.
    + simpl. pose proof (log_add_ok l bl bno Hl Hnin Hs Hc Hb Hnl) as Hadd. by rewrite <- Hn in Hadd.
    + eapply Rep_ext; [..|exact HR3]; done.
Qed.

(** ** Booting: [binit] and [initlog] *)

(** The kernel's memory right after a reset; the disk is what it was. *)
Record booted s : Prop := {
  bt_bufs : k_bufs s = replicate (S NBUF) zero_buf;
  bt_held : k_held s = [];
  bt_procs : length (ps_procs (k_proc s)) = NPROC;
  bt_log : length (lh_block (k_log s)) = Z.to_nat LOGSIZE;
}.

(** The superblock places the log at [start, start+size). *)
Definition sb_log (sb : superblock) (start size : Z) : Prop :=
  sb_logstart sb = start ∧ sb_nlog sb = size ∧ 0 <= start ∧ start + size < 2 ^ 31 ∧ 0 < size.

Lemma reboot_run s sb start size :
  booted s → sb_log sb start size → head_ok start size (dblock s start) →
  ∃ s', (binit;; initlog ROOTDEV sb) s = Done tt s' ∧
    (∀ x, dblock s' x = recover start (dblock s) x) ∧
    d_trace (k_disk s') = d_trace (k_disk s) ++ recover_writes start (dblock s).
Proof.
  intros [B1 B2 B3 B4] (E1 & E2 & Hst & Hsz & Hpos) Hh.
  destruct (binit_run s B1) as (bs & Hrun & Hf & Hl). run_by (exact Hrun).
  pose proof (fresh_rep s bs Hf Hl B3) as HR. set (s1 := set_bufs bs s) in *.
  unfold initlog. change (sizeof_logheader >=? BSIZE) with false. cbv iota.
  rewrite E1, E2, !i32_small by lia. run_by (unfold upd_log, modify; reflexivity). set (s2 := set_log _ s1).
  assert (Hfresh : fresh_cache (disk_cache s)) by (split; done).
  destruct (recover_run s2 (disk_cache s)) as (s3 & Hrun3 & _ & _ & HR3).
  - apply Rep_log. exact HR.
  - exact B2.
  - split; [reflexivity|exact (conj Hst (conj Hsz Hpos))|exact B4].
  - exact Hfresh.
  - exact Hh.
  - exists s3. split; [exact Hrun3|]. split; [intros x; by rewrite (rep_disk _ _ HR3)|by rewrite (rep_trace _ _ HR3)].
Qed.

(** ** Properties *)

Lemma commit_head_ok start size f g bl k :
  trans_ok start size bl → length (f start) = 1024%nat → head_ok start size (g start) →
  head_ok start size (apply_writes (take k (commit_writes start f bl)) g start).
Proof.
  intros Ht Hf Hg. destruct (head_ok_enc start size (f start) bl Hf Ht) as [Hok _].
  pose proof (to_size _ _ _ Ht) as Hsz. unfold commit_writes. set (lw := log_writes _ _ _ _).
  assert (Hlw : ∀ y k, y ∈ map fst (take k lw) → start < y) by (intros y k0 Hy%map_fst_take%log_writes_fst; lia).
  assert (Hll : length lw = length bl) by (unfold lw, log_writes; by rewrite length_map, length_seq).
  assert (Hnil : head_ok start size (head_enc (head_enc (f start) bl) [])).
  { apply head_ok_enc; [rewrite length_head_enc; [done|done|apply Ht]|]. split; try done; simpl; [lia|constructor|set_solver]. }
  rewrite take_app_cases. case_decide.
  { rewrite apply_writes_notin; [done|]. intros Hy%Hlw. lia. }
  rewrite apply_writes_app. destruct (k - length lw)%nat as [|k1] eqn:Ek; [lia|]. cbn [take app].
  change (apply_writes ((start, ?d) :: ?ws) ?g) with (apply_writes ws (upd start d g)).
  rewrite take_app_cases, length_map.
  assert (Hhome : ∀ t g', apply_writes (take t (map (λ b, (b, f b)) bl)) g' start = g' start).
  { intros t g'. apply apply_writes_notin. intros Hy%map_fst_take. rewrite home_fst in Hy. apply (to_home _ _ _ Ht) in Hy. lia. }
  case_decide; [by rewrite Hhome, upd_eq|].
  destruct (k1 - length bl)%nat as [|k2]; simpl.
  - rewrite app_nil_r, <- (take_ge (map _ bl) (length bl)) by (by rewrite length_map). by rewrite Hhome, upd_eq.
  - rewrite firstn_nil, apply_writes_snoc. by rewrite upd_eq.
Qed.

(** C1: crash safety of a commit.  The machine may stop after any number [k] of
    the block writes of [commit]; when the kernel then boots ([binit] and
    [initlog], which recovers), every block outside the log is as it was
    before the transaction if the header was not written yet, and otherwise
    as after it: all the logged blocks have their new content.  The blocks of
    the transaction are never mixed. *)
Theorem commit_crash_safe s c bl R sb :
  Rep s c → k_held s = [] → log_ok (k_log s) bl → bl ≠ [] → idle c (k_log s) bl R →
  (∀ b, b ∈ bl → 0 < c_refs c b) →
  let start := l_start (k_log s) in
  let size := l_size (k_log s) in
  sb_log sb start size → c_refs c start = 0 → head_n (c_disk c start) = 0 → length (c_disk c start) = 1024%nat →
  ∃ s' ws, commit s = Done tt s' ∧ d_trace (k_disk s') = d_trace (k_disk s) ++ ws ∧
    ∀ k boot, booted boot → (∀ x, dblock boot x = apply_writes (take k ws) (dblock s) x) →
      ∃ s'', (binit;; initlog ROOTDEV sb) boot = Done tt s'' ∧
        ∀ x, ¬ (start <= x < start + size) →
          dblock s'' x = if decide (length bl < k)%nat
                         then (if decide (x ∈ bl) then c_content c x else dblock s x)
                         else dblock s x.
Proof.
  intros HR Hk Hl Hne Hid Hpin start size Hsb Href Hn Hlen.
  destruct (commit_run s c bl R HR Hk Hl Hne Hid Hpin) as (s' & Hrun & _ & _ & HR').
  fold start in HR'. pose proof (Rep_clean s c start HR Href) as Hcl.
  pose proof (log_ok_trans _ _ Hl) as Ht. fold start size in Ht.
  assert (Hg : head_ok start size (dblock s start)).
  { rewrite (rep_disk _ _ HR). split; try done; rewrite ?(head_blocks_empty _ Hn), ?Hn; [done|destruct Hsb; lia|constructor|set_solver]. }
  exists s', (commit_writes start (c_content c) bl). split; [done|].
  split; [by rewrite (rep_trace _ _ HR'), (rep_trace _ _ HR)|].
  intros k boot Hb Hd.
  assert (Hst : dblock boot start = apply_writes (take k (commit_writes start (c_content c) bl)) (dblock s) start) by apply Hd.
  destruct (reboot_run boot sb start size Hb Hsb) as (s'' & Hrun'' & Hrec & _).
  { rewrite Hst. apply commit_head_ok; [exact Ht|rewrite Hcl; exact Hlen|exact Hg]. }
  exists s''. split; [done|]. intros x Hx. rewrite Hrec.
  assert (Hok : head_ok start size (apply_writes (take k (commit_writes start (c_content c) bl)) (dblock s) start)).
  { apply commit_head_ok; [exact Ht|rewrite Hcl; exact Hlen|exact Hg]. }
  rewrite (recover_ext start size _ _ x Hd Hok Hx).
  rewrite (commit_crash start size); [|exact Ht| | | |exact Hx].
  - destruct (decide (k <= length bl)%nat), (decide (length bl < k)%nat); try lia; done.
  - rewrite Hcl. exact Hlen.
  - rewrite (rep_disk _ _ HR). exact Hn.
  - destruct Hsb as (_ & _ & _ & _ & ?). done.
Qed.

(** C2: recovery can itself be interrupted.  If the machine stops after any
    number [k] of the block writes of a recovery and boots again, the second
    recovery ends with the same blocks outside the log as an undisturbed one. *)
Theorem recovery_crash_safe s sb start size :
  booted s → sb_log sb start size → head_ok start size (dblock s start) →
  ∃ s1 ws, (binit;; initlog ROOTDEV sb) s = Done tt s1 ∧ d_trace (k_disk s1) = d_trace (k_disk s) ++ ws ∧
    ∀ k boot, booted boot → (∀ x, dblock boot x = apply_writes (take k ws) (dblock s) x) →
      ∃ s2, (binit;; initlog ROOTDEV sb) boot = Done tt s2 ∧
        ∀ x, ¬ (start <= x < start + size) → dblock s2 x = dblock s1 x.
Proof.
  intros Hb Hsb Hh. destruct (reboot_run s sb start size Hb Hsb Hh) as (s1 & Hrun1 & Hd1 & Htr1).
  exists s1, (recover_writes start (dblock s)). split_and!; [done|done|].
  intros k boot Hb2 Hd2.
  assert (Hh2 : head_ok start size (apply_writes (take k (recover_writes start (dblock s))) (dblock s) start)).
  { by apply recover_writes_head. }
  destruct (reboot_run boot sb start size Hb2 Hsb) as (s2 & Hrun2 & Hd2' & _); [rewrite Hd2; exact Hh2|].
  exists s2. split; [exact Hrun2|]. intros x Hx. rewrite Hd2', Hd1, <- (recover_crash start size (dblock s) k x Hh Hx).
  exact (recover_ext start size _ _ x Hd2 Hh2 Hx).
Qed.

(** [begin_op] starts an operation at once exactly when no commit is running
    and the log has room for [MAXOPBLOCKS] more blocks for it and for each
    operation that runs; otherwise it sleeps on the log and tests again when
    it is woken up. *)
Theorem begin_op_spec s :
  k_held s = [] → (ps_cur (k_proc s) < length (ps_procs (k_proc s)))%nat →
  let me := ps_cur (k_proc s) in
  let s1 := set_held [LLog] s in
  (admits (k_log s) →
     begin_op s = Done tt (set_log (set_log_out (l_outstanding (k_log s) + 1) (k_log s)) s)) ∧
  (¬ admits (k_log s) → ∀ fuel, wait_fuel = S fuel →
     ∃ k, begin_op s = Swtch (asleep ChLog me s1) k ∧
       ∀ s2, k_held s2 = [LProc me] → ps_cur (k_proc s2) = me →
         k s2 = begin_op_wait fuel (awake LLog me (set_intena (intena s) s2))).
Proof.
  intros Hk Hcur me s1. assert (Hacq : acquire LLog s = Done tt s1).
  { rewrite acquire_ok by (rewrite Hk; set_solver). unfold s1. by rewrite Hk. }
  split.
  - intros Ha. unfold begin_op. run_by (exact Hacq). rewrite begin_op_wait_go by done.
    f_equal. destruct s; simpl in *. by subst.
  - intros Hna fuel Hfuel. unfold begin_op. rewrite (bind_Done _ _ _ _ _ Hacq), begin_op_wait_sleep by done.
    rewrite Hfuel.
    destruct (sleep_run ChLog LLog s1) as (k & Hs & Hres); [set_solver|done|done|].
    exists (λ x, obind (k x) (λ _, begin_op_wait fuel)). split; [by apply bind_Swtch|].
    intros s2 H1 H2. rewrite (Hres s2 H1 H2). done.
Qed.

(** [log_write] of a block the caller holds adds it to the transaction and
    pins it in the cache, unless it is in the transaction already: then
    nothing changes.  It panics when the log is full and outside of a
    transaction. *)
Theorem log_write_spec s c bl bno i :
  Rep s c → k_held s = [] → log_ok (k_log s) bl → c_hold c bno = Mine i → c_refs c bno + 1 < 2 ^ 32 →
  0 <= bno < 2 ^ 31 → ¬ (l_start (k_log s) <= bno < l_start (k_log s) + l_size (k_log s)) →
  let full := (lh_n (k_log s) >=? LOGSIZE) || (lh_n (k_log s) >=? l_size (k_log s) - 1) in
  (full = true → log_write i s = Panic "too big a transaction" (set_held [LLog] s)) ∧
  (full = false → l_outstanding (k_log s) < 1 →
     log_write i s = Panic "log_write outside of trans" (set_held [LLog] s)) ∧
  (full = false → 1 <= l_outstanding (k_log s) →
     ∃ s', log_write i s = Done tt s' ∧ lframe s s' ∧ log_ok (k_log s') (logged bl bno) ∧
       Rep s' (if decide (bno ∈ bl) then c else a_refs bno (c_refs c bno + 1) c)).
Proof.
  intros HR Hk Hl Hm Hr Hb Hnl full.
  assert (Hacq : acquire LLog s = Done tt (set_held [LLog] s)).
  { rewrite acquire_ok by (rewrite Hk; set_solver). by rewrite Hk. }
  split_and!.
  - intros Hfull. unfold log_write. run_by (exact Hacq). run_by (unfold gets; reflexivity).
    change (k_log (set_held [LLog] s)) with (k_log s). fold full. by rewrite Hfull.
  - intros Hfull Ho. unfold log_write. run_by (exact Hacq). run_by (unfold gets; reflexivity).
    change (k_log (set_held [LLog] s)) with (k_log s). fold full. by rewrite Hfull, (proj2 (Z.ltb_lt _ _) Ho).
  - intros Hfull Ho. apply orb_false_iff in Hfull as [Hf1 Hf2]. pose proof (lo_n _ _ Hl) as Hn.
    rewrite Hn in Hf1, Hf2.
    destruct (log_write_run s c bl bno i HR Hk Hl Hm Hr Hb Hnl Ho) as (s' & Hrun & Hlf & Hlo & _ & _ & _ & _ & HR');
      [lia|lia|]. by exists s'.
Qed.

(** ** [end_op] *)

Definition commit_log (bl : list Z) (start : Z) (f : Z → list Z) : list (Z * list Z) :=
  match bl with [] => [] | _ => commit_writes start f bl end.

Lemma commit_any s c bl R :
  Rep s c → k_held s = [] → log_ok (k_log s) bl → idle c (k_log s) bl R →
  (∀ b, b ∈ bl → 0 < c_refs c b) →
  ∃ s', commit s = Done tt s' ∧ k_log s' = set_log_n 0 (k_log s) ∧ lframe s s' ∧
    Rep s' (a_unpin false bl (a_writes (commit_log bl (l_start (k_log s)) (c_content c)) c)).
Proof.
  intros HR Hk Hl Hid Hpin. destruct bl as [|b bl]; [|by apply (commit_run s c (b :: bl) R)].
  exists s. pose proof (lo_n _ _ Hl) as Hn. simpl in Hn. split_and!.
  - unfold commit. run_by (unfold gets; reflexivity). by rewrite Hn.
  - destruct (k_log s). simpl in *. by subst.
  - by apply bframe_lframe.
  - eapply Rep_ceq; [|exact HR]. split; simpl; try done; [intros x|by rewrite app_nil_r].
    try (rewrite decide_False by set_solver). lia.
Qed.

Lemma wakeup_lframe ch s :
  no_proc_locks s → length (ps_procs (k_proc s)) = NPROC →
  wakeup ch s = Done tt (set_procs (woken_procs ch s) s) ∧ bframe s (set_procs (woken_procs ch s) s).
Proof.
  intros Hk Hn. split; [|apply bframe_woken]. by apply wakeup_run.
Qed.

(** [end_op] of an operation that is not the last one running only counts
    it off and wakes up the waiting ones.  The last one commits: afterwards
    the blocks of the transaction are on the disk and unpinned, and the log
    is empty, with no operation and no commit running. *)
Theorem end_op_spec s c bl R :
  Rep s c → k_held s = [] → log_ok (k_log s) bl → l_committing (k_log s) = false →
  let l := k_log s in
  (l_outstanding l ≠ 1 → end_op s =
     Done tt (set_procs (woken_procs ChLog s) (set_log (set_log_out (l_outstanding l - 1) l) s))) ∧
  (l_outstanding l = 1 → idle c l bl R → (∀ b, b ∈ bl → 0 < c_refs c b) →
     ∃ s', end_op s = Done tt s' ∧ lframe s s' ∧ k_log s' = set_log_n 0 (set_log_out 0 l) ∧
       Rep s' (a_unpin false bl (a_writes (commit_log bl (l_start l) (c_content c)) c))).
Proof.
  intros HR Hk Hl Hc l. set (l1 := set_log_out (l_outstanding l - 1) l).
  set (s1 := set_log l1 (set_held [LLog] s)).
  assert (Hnp : no_proc_locks s1) by (split; intros; simpl; set_solver).
  unfold end_op.
  assert (Hacq : acquire LLog s = Done tt (set_held [LLog] s)).
  { rewrite acquire_ok by (rewrite Hk; set_solver). by rewrite Hk. }
  assert (Hupd : upd_log (λ l, set_log_out (l_outstanding l - 1) l) (set_held [LLog] s) = Done tt s1) by done.
  assert (Hget : gets k_log s1 = Done l1 s1) by done.
  rewrite (bind_Done _ _ _ _ _ Hacq), (bind_Done _ _ _ _ _ Hupd), (bind_Done _ _ _ _ _ Hget).
  assert (Hc1 : l_committing l1 = false) by done. rewrite Hc1. cbv zeta.
  split; [intros Ho|intros Ho Hid Hpin].
  - rewrite (proj2 (Z.eqb_neq (l_outstanding l1) 0)) by (unfold l1; simpl; lia).
    destruct (wakeup_lframe ChLog s1 Hnp) as [Hw _]; [apply HR|].
    run_by (exact Hw). run_by (by apply (release_ok LLog []); [|set_solver]).
    unfold when, mret, M_ret. f_equal. unfold s1, woken_procs. destruct s; simpl in *. by subst.
  - rewrite (proj2 (Z.eqb_eq (l_outstanding l1) 0)) by (unfold l1; simpl; lia).
    run_by (unfold upd_log, modify; reflexivity). run_by (by apply (release_ok LLog []); [|set_solver]).
    set (s2 := set_held [] _). unfold when.
    assert (HR2 : Rep s2 c) by (by eapply Rep_ext; [..|exact HR]).
    assert (Hl2 : log_ok (k_log s2) bl) by (destruct Hl; by split).
    destruct (commit_any s2 c bl R HR2 eq_refl Hl2) as (s3 & Hrun3 & El3 & Hf3 & HR3); [destruct Hid; by split|done|].
    run_by (exact Hrun3). pose proof (lframe_held _ _ Hf3) as Hk3. simpl in Hk3.
    run_by (by apply acquire_ok; rewrite Hk3; set_solver). rewrite Hk3. run_by (unfold upd_log, modify; reflexivity).
    set (s4 := set_log _ _).
    destruct (wakeup_lframe ChLog s4) as [Hw Hfw]; [split; intros; simpl; set_solver|apply HR3|].
    run_by (exact Hw). erewrite (release_ok LLog []); [|done|set_solver]. eexists. split; [reflexivity|].
    assert (Hf34 : lframe s3 (set_held [] (set_procs (woken_procs ChLog s4) s4))).
    { destruct Hfw as [E L P]. split; [|exact L|exact P]. simpl. unfold s4. destruct s3; simpl in *. by subst. }
    assert (Hf2 : lframe s s2).
    { unfold s2, s1. split; [|done|by left]. destruct s as [? [] ? ? ? ? ? ? ? ? ? ? ? ? ? ?]; simpl in *. by subst. }
    split_and!.
    + apply (lframe_trans _ s2); [done|]. by apply (lframe_trans _ s3).
    + simpl. rewrite El3. unfold set_log_n, set_log_committing, set_log_out, s2, s1, l1. simpl. fold l.
      rewrite Ho. destruct l. simpl in *. by subst.
    + apply (Rep_ext (set_procs (woken_procs ChLog s4) s4)); [done|done|done|].
      apply (Rep_woken ChLog s4). eapply Rep_ext; [..|exact HR3]; done.
Qed.

(** what [write_head] puts on the disk, [read_head] reads back: from any
    state of the log variables it makes the same transaction again. *)
Theorem head_roundtrip s c bl R :
  Rep s c → k_held s = [] → log_ok (k_log s) bl → few c R → (length R < NBUF)%nat →
  let start := l_start (k_log s) in
  quiet c start → length (c_content c start) = 1024%nat →
  ∃ s1, write_head s = Done tt s1 ∧
    ∀ l, log_area l → l_start l = start → l_size l = l_size (k_log s) →
      ∃ s2, read_head (set_log l s1) = Done tt s2 ∧ log_ok (k_log s2) bl.
Proof.
  intros HR Hk Hl Hfew Hlen start Hq Hd.
  destruct (write_head_run s c bl R HR Hk Hl Hq Hfew Hlen) as (s1 & Hrun1 & Hf1 & HR1).
  exists s1. split; [exact Hrun1|]. intros l Hla Est Esz. fold start in HR1.
  destruct (head_ok_enc start (l_size (k_log s)) (c_content c start) bl Hd (log_ok_trans _ _ Hl)) as [Hok Hbl].
  set (d := head_enc (c_content c start) bl) in *. destruct (la_start _ Hla) as (Hs1 & Hs2 & Hs3).
  assert (Hct : c_content (a_writes [(start, d)] c) start = d) by (simpl; apply upd_eq).
  destruct (read_head_run (set_log l s1) (a_writes [(start, d)] c) R) as (s2 & Hrun2 & El2 & _); simpl k_log;
    rewrite ?Est; try apply Hla.
  - by apply Rep_log.
  - change (k_held (set_log l s1)) with (k_held s1). by rewrite (bframe_held _ _ Hf1).
  - lia.
  - exact Hq.
  - exact Hfew.
  - exact Hlen.
  - rewrite Hct. apply Hok.
  - exists s2. split; [exact Hrun2|]. simpl k_log in El2. rewrite El2, Est, Hct, <- Hbl.
    apply load_head_ok; [exact Hla|]. rewrite Est, Esz. exact Hok.
Qed.

(** ** The reservation *)

(** The calls of [log_write] of an operation. *)
Definition log_writes (bufs : list nat) : K unit := foldr (λ b m, log_write b;; m) (mret tt) bufs.

Definition blocknos s (bufs : list nat) : list Z := map (λ b, b_blockno (get_buf s b)) bufs.

Lemma length_blocknos s bufs : length (blocknos s bufs) = length bufs.
Proof. apply length_map. Qed.

(** A new block, whoever holds its buffer. *)
Lemma log_write_new b s bl :
  let bno := b_blockno (get_buf s b) in
  k_held s = [] → log_ok (k_log s) bl → bno ∉ bl → 0 <= bno < 2 ^ 31 →
  ¬ (l_start (k_log s) <= bno < l_start (k_log s) + l_size (k_log s)) → 1 <= l_outstanding (k_log s) →
  Z.of_nat (length bl) < l_size (k_log s) - 1 → Z.of_nat (length bl) < LOGSIZE →
  ∃ s', log_write b s = Done tt s' ∧ k_held s' = [] ∧ log_ok (k_log s') (bl ++ [bno]) ∧
    l_outstanding (k_log s') = l_outstanding (k_log s) ∧ l_size (k_log s') = l_size (k_log s) ∧
    l_start (k_log s') = l_start (k_log s) ∧ ∀ i, b_blockno (get_buf s' i) = b_blockno (get_buf s i).
Proof.
  intros bno Hk Hl Hnin Hb Hnl Ho Hs Hc. pose proof (lo_n _ _ Hl) as Hn. set (l := k_log s) in *.
  unfold log_write. run_by (by apply acquire_ok; rewrite Hk; set_solver). rewrite Hk. set (s1 := set_held _ s).
  run_by (unfold gets; reflexivity). change (k_log s1) with l.
  rewrite (proj2 (orb_false_iff _ _)) by (split; rewrite Z.geb_leb; apply Z.leb_gt; lia).
  rewrite (proj2 (Z.ltb_ge _ _) Ho). run_by (unfold buf_get, gets; reflexivity).
  change (b_blockno (get_buf s1 b)) with bno.
  destruct (log_find_log l bl bno Hl) as (k & Ek & Hk' & [[Hlt Hbk]|[-> _]]); [by apply (log_elem bl) in Hlt; rewrite Hbk in Hlt|].
  rewrite Ek. run_by (apply store_log_block_run; lia). rewrite (i32_small bno) by lia. change (k_log s1) with l.
  rewrite <- Hn, Z.eqb_refl. unfold when. set (s2 := set_log _ s1).
  assert (Hpin : bpin b s2 = Done tt (put_buf b (set_b_refcnt (u32 (b_refcnt (get_buf s b) + 1)) (get_buf s b)) s2)).
  { unfold bpin. run_by (by apply acquire_ok; set_solver). run_by (unfold upd_buf, modify; reflexivity).
    by erewrite release_ok; [|reflexivity|set_solver]. }
  erewrite bind_Done; [|run_by (exact Hpin); unfold upd_log, modify; reflexivity].
  erewrite (release_ok _ []); [|done|set_solver]. eexists. split; [reflexivity|]. split_and!; try done.
  - pose proof (log_add_ok l bl bno Hl Hnin Hs Hc Hb Hnl) as Hadd. by rewrite <- Hn in Hadd.
  - intros i. unfold get_buf at 1. cbn. destruct (decide (i = b)) as [->|Hne].
    + destruct (decide (b < length (k_bufs s))%nat) as [Hlt|Hge].
      * by rewrite list_lookup_total_insert_eq.
      * by rewrite list_insert_ge by lia.
    + by rewrite list_lookup_total_insert_ne.
Qed.

Lemma log_writes_new bufs s bl :
  k_held s = [] → log_ok (k_log s) bl → NoDup (bl ++ blocknos s bufs) →
  Forall (λ b, 0 <= b < 2 ^ 31 ∧ ¬ (l_start (k_log s) <= b < l_start (k_log s) + l_size (k_log s))) (blocknos s bufs) →
  1 <= l_outstanding (k_log s) → l_size (k_log s) = LOGSIZE → Z.of_nat (length bl + length bufs) <= LOGSIZE - 1 →
  ∃ s', log_writes bufs s = Done tt s' ∧ k_held s' = [] ∧ log_ok (k_log s') (bl ++ blocknos s bufs) ∧
    l_size (k_log s') = LOGSIZE ∧ l_outstanding (k_log s') = l_outstanding (k_log s) ∧
    l_start (k_log s') = l_start (k_log s) ∧ ∀ l, blocknos s' l = blocknos s l.
Proof.
  revert s bl. induction bufs as [|b bufs IH]; intros s bl Hk Hl Hnd Hf Ho Hs Hlen; cbn [log_writes foldr blocknos map length] in *.
  { exists s. rewrite app_nil_r. by split_and!. }
  apply Forall_cons in Hf as [[Hb Hnl] Hf].
  destruct (log_write_new b s bl) as (s1 & Hrun & Hk1 & Hl1 & Ho1 & Hs1 & Hst1 & Hb1); try (done || lia).
  { apply NoDup_app in Hnd as (_ & Hd & _). intros Hin. apply (Hd _ Hin). set_solver. }
  assert (Eb : ∀ l, blocknos s1 l = blocknos s l) by (intros l; apply map_ext; intros; apply Hb1).
  fold (blocknos s bufs) in *. run_by (exact Hrun).
  destruct (IH s1 (bl ++ [b_blockno (get_buf s b)])) as (s2 & Hrun2 & Hk2 & Hl2 & Hs2 & Ho2 & Hst2 & Hb2);
    rewrite ?Eb, ?Ho1, ?Hs1, ?Hst1, ?length_app, <- ?app_assoc in *; cbn [length app] in *; try (done || lia).
  exists s2. split_and!; try done. intros l. by rewrite Hb2.
Qed.

(** C38: the reservation of [begin_op] is not enough.  On an empty log of
    [LOGSIZE] blocks, as mkfs makes it, [begin_op] lets three operations start, and
    each of them may write [MAXOPBLOCKS] blocks; but as the header takes one block of
    the log, [log_write] panics on the last of their blocks if these are all
    different, after it has logged all the others. *)
Theorem log_reservation_gap s ops1 ops2 b ops3 :
  k_held s = [] → log_ok (k_log s) [] → l_size (k_log s) = LOGSIZE →
  l_outstanding (k_log s) = 0 → l_committing (k_log s) = false →
  Z.of_nat (length ops1) = MAXOPBLOCKS → Z.of_nat (length ops2) = MAXOPBLOCKS → Z.of_nat (length (ops3 ++ [b])) = MAXOPBLOCKS →
  NoDup (blocknos s (ops1 ++ ops2 ++ ops3 ++ [b])) →
  Forall (λ b, 0 <= b < 2 ^ 31 ∧ ¬ (l_start (k_log s) <= b < l_start (k_log s) + l_size (k_log s)))
    (blocknos s (ops1 ++ ops2 ++ ops3 ++ [b])) →
  ∃ s1 s2, (begin_op;; begin_op;; begin_op) s = Done tt s1 ∧
    (log_writes ops1;; log_writes ops2;; log_writes ops3) s1 = Done tt s2 ∧
    log_ok (k_log s2) (blocknos s (ops1 ++ ops2 ++ ops3)) ∧
    log_write b s2 = Panic "too big a transaction" (set_held [LLog] s2).
Proof.
  intros Hk Hl Hs Ho Hc H1 H2 H3 Hnd Hf. rewrite length_app in H3. cbn [length] in H3.
  assert (Hgo : ∀ n t, k_held t = [] → k_log t = set_log_out n (k_log s) → 0 <= n <= 2 →
    begin_op t = Done tt (set_log (set_log_out (n + 1) (k_log s)) t)).
  { intros n t Ht Hlt Hn. unfold begin_op. run_by (by apply acquire_ok; rewrite Ht; set_solver). rewrite Ht.
    rewrite begin_op_wait_go; [|done|].
    - cbn [k_log set_held]. rewrite Hlt. f_equal. destruct t. cbn in *. by subst.
    - cbn [k_log set_held]. rewrite Hlt. split; [done|]. cbn. rewrite (lo_n _ _ Hl). cbn. unfold LOGSIZE, MAXOPBLOCKS. lia. }
  set (s1 := set_log (set_log_out 3 (k_log s)) s). exists s1.
  assert (Hl1 : log_ok (k_log s1) []) by (destruct Hl; by split).
  unfold blocknos in Hnd, Hf. rewrite !map_app in Hnd, Hf. fold (blocknos s ops1) (blocknos s ops2) (blocknos s ops3) in Hnd, Hf.
  rewrite !Forall_app in Hf. destruct Hf as (Hf1 & Hf2 & Hf3 & _).
  rewrite !app_assoc in Hnd. apply NoDup_app in Hnd as (Hnd3 & _). pose proof Hnd3 as (Hnd2 & _)%NoDup_app.
  assert (LOGSIZE = 30 ∧ MAXOPBLOCKS = 10) as [HL HM] by done.
  destruct (log_writes_new ops1 s1 []) as (t1 & R1 & K1 & L1 & S1 & O1 & T1 & B1);
    try (done || (cbn [length]; lia)).
  { by apply NoDup_app in Hnd2 as (? & _). }
  destruct (log_writes_new ops2 t1 (blocknos s ops1)) as (t2 & R2 & K2 & L2 & S2 & O2 & T2 & B2);
    rewrite ?B1, ?O1, ?T1, ?S1, ?length_blocknos in *; try (done || (cbn; lia)); [by rewrite Hs in Hf2|].
  destruct (log_writes_new ops3 t2 (blocknos s ops1 ++ blocknos s ops2)) as (t3 & R3 & K3 & L3 & S3 & O3 & T3 & B3);
    rewrite ?B2, ?B1, ?O2, ?T2, ?S2, ?length_app, ?length_blocknos in *; try (done || (cbn; lia)); [by rewrite Hs in Hf3|].
  exists t3. split_and!.
  - run_by (by apply (Hgo 0); [|destruct (k_log s); cbn in Ho |- *; by subst|]).
    run_by (by apply (Hgo 1)). by rewrite (Hgo 2).
  - run_by (exact R1). by run_by (exact R2).
  - unfold blocknos. rewrite !map_app, app_assoc. exact L3.
  - unfold log_write. run_by (by apply acquire_ok; rewrite K3; set_solver). rewrite K3.
    run_by (unfold gets; reflexivity). change (k_log (set_held [LLog] t3)) with (k_log t3).
    rewrite (proj2 (orb_true_iff _ _)); [done|]. right. rewrite (lo_n _ _ L3), S3, !length_app, !length_blocknos.
    rewrite Z.geb_leb. apply Z.leb_le. lia.
Qed.
End logops.
