(* ===== verification/LogExample.v ===== *)
(** * The theorems on the log at a concrete transaction

    A disk with the log at block 2, as mkfs makes it; one operation has
    written block 100 of the file system. *)

From S2P Require Import Prelude Memory Params State Sched Block Bio BioList BioInv BioSpec BioInit.
From S2P Require Import Log LogRun LogHead LogCommit LogOps.

#[local] Existing Instance sync_disk.
#[local] Existing Instance one_wakeup.

Definition example_log : logstate := mk_log 2 30 1 false 1 0 (replicate 30 0).
Definition example_sb : superblock := mk_sb FSMAGIC 1000 954 200 30 2 32 45.
Definition example_data : list Z := replicate 1024 9.

Lemma example_area : log_area example_log.
Proof. split; [reflexivity|simpl; lia|reflexivity]. Qed.

Lemma example_sb_log : sb_log example_sb 2 30.
Proof. unfold sb_log. simpl. lia. Qed.

Lemma example_log_ok : log_ok example_log [].
Proof.
  split; simpl; [reflexivity|lia|lia|unfold LOGSIZE, MAXOPBLOCKS; lia|reflexivity..|constructor|set_solver].
Qed.

(** The state inside the operation, with block 100 locked and modified. *)
Lemma example_writing : ∃ s i,
  Rep s (a_set 100 example_data (a_bread 100 i (disk_cache bio_state))) ∧ k_held s = [] ∧ k_log s = example_log.
Proof.
  destruct bio_start as (s & HR & Hk & _).
  assert (HR0 : Rep (set_log example_log s) (disk_cache bio_state)) by (by apply Rep_log).
  destruct (bread_rep _ _ 100 HR0 Hk) as (i & s1 & _ & HR1 & Hf1); [reflexivity|simpl; lia|apply room_start|].
  exists (put_buf i (set_b_data example_data (get_buf s1 i)) s1), i. split_and!.
  - apply set_data_rep; [exact HR1|]. simpl. apply upd_eq.
  - change (k_held s1 = []). rewrite (bframe_held _ _ Hf1). exact Hk.
  - exact (bframe_log _ _ Hf1).
Qed.

Lemma log_write_spec_witness : ∃ s i s', log_write i s = Done tt s' ∧ log_ok (k_log s') [100].
Proof.
  destruct example_writing as (s & i & HR & Hk & Hl). exists s, i.
  destruct (log_write_spec s _ [] 100 i HR Hk) as (_ & _ & Hok).
  - rewrite Hl. exact example_log_ok.
  - simpl. apply upd_eq.
  - simpl. rewrite upd_eq. lia.
  - lia.
  - rewrite Hl. simpl. lia.
  - destruct Hok as (s' & Hrun & _ & Hlo & _); [rewrite Hl; reflexivity|rewrite Hl; simpl; lia|].
    exists s'. split; assumption.
Defined.

(** The cache when the operation is about to end. *)
Record example_tx (s : kst) (c : cache) : Prop := {
  ex_rep : Rep s c;
  ex_held : k_held s = [];
  ex_log : log_ok (k_log s) [100];
  ex_start : l_start (k_log s) = 2;
  ex_size : l_size (k_log s) = 30;
  ex_out : l_outstanding (k_log s) = 1;
  ex_committing : l_committing (k_log s) = false;
  ex_refs : ∀ x, c_refs c x = if decide (x = 100) then 1 else 0;
  ex_hold : ∀ x, c_hold c x = Free;
  ex_disk : ∀ x, c_disk c x = dblock bio_state x;
  ex_content : c_content c 100 = example_data;
}.

Lemma example_end : ∃ s c, example_tx s c.
Proof.
  destruct example_writing as (s & i & HR & Hk & Hl). set (c := a_set 100 _ _) in HR.
  assert (Hm : c_hold c 100 = Mine i) by apply upd_eq.
  destruct (log_write_run s c [] 100 i HR Hk) as (s1 & _ & Hf1 & Hlo & Ho & Hsz & Hst & Hc & HR1);
    rewrite ?Hl; simpl; rewrite ?upd_eq; try lia; [exact example_log_ok|reflexivity|unfold LOGSIZE, MAXOPBLOCKS; lia|].
  rewrite decide_False in HR1 by set_solver.
  destruct (brelse_rep s1 _ 100 i HR1) as (s2 & _ & HR2 & Hf2).
  - rewrite (lframe_held _ _ Hf1). exact Hk.
  - exact Hm.
  - simpl. rewrite !upd_eq. lia.
  - eexists s2, _. pose proof (bframe_log _ _ Hf2) as El.
    split; [exact HR2|rewrite (bframe_held _ _ Hf2), (lframe_held _ _ Hf1); exact Hk|rewrite El; exact Hlo|..];
      rewrite ?El, ?Hst, ?Hsz, ?Ho, ?Hc, ?Hl; try reflexivity; simpl.
    + intros x. unfold upd. case_decide; [|reflexivity]. subst x. rewrite !decide_True by reflexivity. reflexivity.
    + intros x. unfold upd. case_decide; reflexivity.
Qed.

Lemma example_idle s c : example_tx s c → idle c (k_log s) [100] [100].
Proof.
  intros []. assert (Hq : ∀ x, quiet c x) by (intros x; split; [auto|rewrite ex_refs0; case_decide; lia]).
  split; try (intros; apply Hq).
  - intros x. rewrite ex_refs0. case_decide; [set_solver|lia].
  - unfold NBUF. simpl. lia.
  - intros b Hb%list_elem_of_singleton. left. rewrite ex_refs0, decide_True by done. lia.
Qed.

Lemma example_pinned s c b : example_tx s c → b ∈ [100] → 0 < c_refs c b.
Proof. intros [] Hb%list_elem_of_singleton. rewrite ex_refs0, decide_True by done. lia. Qed.

Lemma commit_crash_safe_witness :
  ∃ s s' ws, commit s = Done tt s' ∧ d_trace (k_disk s') = d_trace (k_disk s) ++ ws ∧
    ∀ boot, booted boot → (∀ x, dblock boot x = apply_writes (take 2 ws) (dblock s) x) →
      ∃ s'', (binit;; initlog ROOTDEV example_sb) boot = Done tt s'' ∧ dblock s'' 100 = example_data.
Proof.
  destruct example_end as (s & c & Hx). exists s.
  destruct (commit_crash_safe s c [100] [100] example_sb (ex_rep _ _ Hx) (ex_held _ _ Hx) (ex_log _ _ Hx))
    as (s' & ws & Hrun & Htr & Hcrash).
  - discriminate.
  - exact (example_idle _ _ Hx).
  - intros b. exact (example_pinned _ _ b Hx).
  - rewrite (ex_start _ _ Hx), (ex_size _ _ Hx). exact example_sb_log.
  - rewrite (ex_start _ _ Hx), (ex_refs _ _ Hx). reflexivity.
  - rewrite (ex_start _ _ Hx), (ex_disk _ _ Hx). vm_compute. reflexivity.
  - rewrite (ex_start _ _ Hx), (ex_disk _ _ Hx). vm_compute. reflexivity.
  - exists s', ws. split; [exact Hrun|]. split; [exact Htr|]. intros boot Hb Hd.
    destruct (Hcrash 2%nat boot Hb Hd) as (s'' & Hrun'' & Hres). exists s''. split; [exact Hrun''|].
    rewrite Hres; [|rewrite (ex_start _ _ Hx), (ex_size _ _ Hx); lia].
    rewrite decide_True by (simpl; lia). rewrite decide_True by (apply list_elem_of_singleton; reflexivity).
    exact (ex_content _ _ Hx).
Defined.

Lemma end_op_spec_witness : ∃ s s', end_op s = Done tt s' ∧ dblock s' 100 = example_data.
Proof.
  destruct example_end as (s & c & Hx). exists s.
  destruct (end_op_spec s c [100] [100] (ex_rep _ _ Hx) (ex_held _ _ Hx) (ex_log _ _ Hx) (ex_committing _ _ Hx)) as [_ He].
  destruct (He (ex_out _ _ Hx) (example_idle _ _ Hx)) as (s' & Hrun & _ & _ & HR').
  - intros b. exact (example_pinned _ _ b Hx).
  - exists s'. split; [exact Hrun|]. rewrite (rep_disk _ _ HR'), (ex_start _ _ Hx). exact (ex_content _ _ Hx).
Defined.

Lemma head_roundtrip_witness :
  ∃ s s1, write_head s = Done tt s1 ∧ ∃ s2, read_head (set_log example_log s1) = Done tt s2 ∧ log_ok (k_log s2) [100].
Proof.
  destruct example_end as (s & c & Hx). exists s. pose proof (example_idle _ _ Hx) as Hid.
  destruct (head_roundtrip s c [100] [100] (ex_rep _ _ Hx) (ex_held _ _ Hx) (ex_log _ _ Hx)
    (id_few _ _ _ _ Hid) (id_len _ _ _ _ Hid)) as (s1 & Hrun & Hread).
  - apply (id_log _ _ _ _ Hid). rewrite (ex_start _ _ Hx), (ex_size _ _ Hx). lia.
  - rewrite (ex_start _ _ Hx), (Rep_clean _ _ 2 (ex_rep _ _ Hx)), (ex_disk _ _ Hx); [vm_compute; reflexivity|].
    rewrite (ex_refs _ _ Hx). reflexivity.
  - exists s1. split; [exact Hrun|]. apply Hread; [exact example_area| |].
    + rewrite (ex_start _ _ Hx). reflexivity.
    + rewrite (ex_size _ _ Hx). reflexivity.
Defined.

(** The kernel after a reset with the disk of [bio_state]. *)
Lemma example_booted : booted bio_state.
Proof. split; reflexivity. Qed.

(** The same with block 100 committed: its new contents are in block 3, and the
    header names it. *)
Definition committed_state : kst :=
  set_disk (mk_dstate {[ 2 := put32 (put32 (replicate 1024 0) 0 1) 4 100; 3 := replicate 1024 7 ]} []) bio_state.

Lemma committed_head : head_ok 2 30 (dblock committed_state 2).
Proof.
  assert (E : head_n (dblock committed_state 2) = 1) by (vm_compute; reflexivity).
  assert (Eb : head_blocks (dblock committed_state 2) = [100]) by (vm_compute; reflexivity).
  split; rewrite ?Eb, ?E; [vm_compute; reflexivity|unfold LOGSIZE, MAXOPBLOCKS; lia|lia|apply NoDup_singleton|].
  intros x ->%list_elem_of_singleton. lia.
Qed.

(** The disk after the block writes [ws], the kernel's memory reset. *)
Definition crashed (ws : list (Z * list Z)) (s : kst) : kst :=
  set_disk (mk_dstate (foldl (λ m w, <[w.1 := w.2]> m) (d_blocks (k_disk s)) ws) []) s.

Lemma crashed_blocks ws s x : dblock (crashed ws s) x = apply_writes ws (dblock s) x.
Proof.
  unfold dblock, crashed. cbn [k_disk set_disk d_blocks]. induction ws as [|[b d] ws IH] using rev_ind; [done|].
  rewrite foldl_app, apply_writes_app. cbn. unfold upd. case_decide as E; [subst; by rewrite lookup_insert_eq|].
  by rewrite lookup_insert_ne.
Qed.

(** A crash after the first write of the recovery. *)
Lemma recovery_crash_safe_witness : ∃ s1 s2, (binit;; initlog ROOTDEV example_sb) committed_state = Done tt s1 ∧
  (binit;; initlog ROOTDEV example_sb) (crashed (take 1 (d_trace (k_disk s1))) committed_state) = Done tt s2 ∧
  dblock s2 100 = dblock s1 100.
Proof.
  destruct (recovery_crash_safe committed_state example_sb 2 30) as (s1 & ws & Hrun & Htr & Hcrash).
  - split; reflexivity.
  - exact example_sb_log.
  - exact committed_head.
  - destruct (Hcrash 1%nat (crashed (take 1 ws) committed_state)) as (s2 & Hrun2 & Heq).
    + split; reflexivity.
    + intros x. apply crashed_blocks.
    + exists s1, s2. cbn in Htr. rewrite Htr. split_and!; [exact Hrun|exact Hrun2|apply Heq; lia].
Defined.

Lemma begin_op_spec_witness :
  begin_op (set_log example_log bio_state) = Done tt (set_log (set_log_out 2 example_log) bio_state).
Proof.
  destruct (begin_op_spec (set_log example_log bio_state)) as [Hgo _]; [reflexivity|simpl; unfold NPROC; lia|].
  apply Hgo. split; [reflexivity|]. simpl. unfold LOGSIZE, MAXOPBLOCKS. lia.
Defined.

(** Buffers of blocks 100 to 130, and an empty log. *)
Definition many_bufs : kst :=
  set_bufs (imap (λ i b, set_b_id 1 (100 + Z.of_nat i) b) (k_bufs boot_state))
    (set_log (set_log_out 0 example_log) bio_state).

Lemma log_reservation_gap_witness :
  ∃ s1 s2, (begin_op;; begin_op;; begin_op) many_bufs = Done tt s1 ∧
    (log_writes (seq 0 10);; log_writes (seq 10 10);; log_writes (seq 20 9)) s1 = Done tt s2 ∧
    log_write 29 s2 = Panic "too big a transaction" (set_held [LLog] s2).
Proof.
  assert (Eb : blocknos many_bufs (seq 0 10 ++ seq 10 10 ++ seq 20 9 ++ [29%nat]) = seqZ 100 30) by (vm_compute; reflexivity).
  destruct (log_reservation_gap many_bufs (seq 0 10) (seq 10 10) 29 (seq 20 9)) as (s1 & s2 & H1 & H2 & _ & H3).
  - reflexivity.
  - destruct example_log_ok. by split.
  - reflexivity.
  - reflexivity.
  - reflexivity.
  - reflexivity.
  - reflexivity.
  - reflexivity.
  - rewrite Eb. apply NoDup_seqZ.
  - rewrite Eb. apply Forall_forall. intros x Hx%elem_of_seqZ. cbn. lia.
  - exists s1, s2. split_and!; [exact H1|exact H2|exact H3].
Defined.
