(* ===== verification/Fs.v ===== *)
(** * kernel/fs.c: the code

    Blocks, inodes, directories and path names on top of the log.  Inodes are
    named by their index in [itable.inode]; a null pointer is [None].  The
    on-disk structures are bytes of the blocks that hold them. *)

From S2P Require Import Prelude Memory Params State CString Sched Kalloc Vm Block Bio Log Uart Console.

(** ** On-disk structures *)

(** [struct superblock] in the first bytes of block 1. *)
Definition dec_sb (d : list Z) : superblock :=
  mk_sb (get32 d 0) (get32 d 4) (get32 d 8) (get32 d 12) (get32 d 16) (get32 d 20) (get32 d 24) (get32 d 28).

Definition IBLOCK (i : Z) (sb : superblock) : Z := u32 (i / IPB + sb_inodestart sb).
Definition BBLOCK (b : Z) (sb : superblock) : Z := u32 (b / BPB + sb_bmapstart sb).

(** [sizeof(struct dinode)], and the offset of inode [inum] in its block. *)
Definition DINODE : nat := 64.
Definition dinode_off (inum : Z) : nat := (DINODE * Z.to_nat (inum mod IPB))%nat.

(** The thirteen words of [addrs] from byte [off] on. *)
Definition get_addrs (d : list Z) (off : nat) : list Z := map (λ k, get32 d (off + 4 * k)) (seq 0 13).

(** [struct dirent] *)
Definition DIRENT : Z := 16.
Definition enc_dirent (inum : Z) (name : list Z) : list Z := le_enc 2 inum ++ name.
Definition de_inum (de : list Z) : Z := get16 de 0.
Definition de_name (de : list Z) : list Z := drop 2 de.

(** ** Inodes in the state *)

Definition get_inode (s : kst) (i : nat) : inode := k_itable s !!! i.
Definition put_inode (i : nat) (ip : inode) (s : kst) : kst := set_itable (<[i := ip]> (k_itable s)) s.
Definition upd_inode (i : nat) (f : inode → inode) : K unit := modify (λ s, put_inode i (f (get_inode s i)) s).
Definition inode_get {A} (i : nat) (f : inode → A) : K A := gets (λ s, f (get_inode s i)).

Definition set_i_id dev inum ip := mk_inode dev inum (i_ref ip) (i_lock ip) (i_valid ip) (i_type ip) (i_major ip) (i_minor ip) (i_nlink ip) (i_size ip) (i_addrs ip).
Definition set_i_ref v ip := mk_inode (i_dev ip) (i_inum ip) v (i_lock ip) (i_valid ip) (i_type ip) (i_major ip) (i_minor ip) (i_nlink ip) (i_size ip) (i_addrs ip).
Definition set_i_lock v ip := mk_inode (i_dev ip) (i_inum ip) (i_ref ip) v (i_valid ip) (i_type ip) (i_major ip) (i_minor ip) (i_nlink ip) (i_size ip) (i_addrs ip).
Definition set_i_valid v ip := mk_inode (i_dev ip) (i_inum ip) (i_ref ip) (i_lock ip) v (i_type ip) (i_major ip) (i_minor ip) (i_nlink ip) (i_size ip) (i_addrs ip).
Definition set_i_type v ip := mk_inode (i_dev ip) (i_inum ip) (i_ref ip) (i_lock ip) (i_valid ip) v (i_major ip) (i_minor ip) (i_nlink ip) (i_size ip) (i_addrs ip).
Definition set_i_majmin ma mi ip := mk_inode (i_dev ip) (i_inum ip) (i_ref ip) (i_lock ip) (i_valid ip) (i_type ip) ma mi (i_nlink ip) (i_size ip) (i_addrs ip).
Definition set_i_nlink v ip := mk_inode (i_dev ip) (i_inum ip) (i_ref ip) (i_lock ip) (i_valid ip) (i_type ip) (i_major ip) (i_minor ip) v (i_size ip) (i_addrs ip).
Definition set_i_size v ip := mk_inode (i_dev ip) (i_inum ip) (i_ref ip) (i_lock ip) (i_valid ip) (i_type ip) (i_major ip) (i_minor ip) (i_nlink ip) v (i_addrs ip).
Definition set_i_addrs v ip := mk_inode (i_dev ip) (i_inum ip) (i_ref ip) (i_lock ip) (i_valid ip) (i_type ip) (i_major ip) (i_minor ip) (i_nlink ip) (i_size ip) v.
Definition set_i_addr (k : nat) v ip := set_i_addrs (<[k := v]> (i_addrs ip)) ip.

(** [dip->type = ip->type; ...; memmove(dip->addrs, ip->addrs, ...)] *)
Definition enc_dinode (ip : inode) : list Z :=
  le_enc 2 (i_type ip) ++ le_enc 2 (i_major ip) ++ le_enc 2 (i_minor ip) ++ le_enc 2 (i_nlink ip) ++
  le_enc 4 (i_size ip) ++ concat (map (le_enc 4) (i_addrs ip)).

(** [ip->type = dip->type; ...; memmove(ip->addrs, dip->addrs, ...)] with the
    inode at byte [off] of block [d]. *)
Definition load_dinode (d : list Z) (off : nat) (ip : inode) : inode :=
  mk_inode (i_dev ip) (i_inum ip) (i_ref ip) (i_lock ip) (i_valid ip)
    (i16 (get16 d off)) (i16 (get16 d (off + 2))) (i16 (get16 d (off + 4))) (i16 (get16 d (off + 6)))
    (get32 d (off + 8)) (get_addrs d (off + 12)).

(** The sleep lock of inode [i]. *)
Definition inode_sl (i : nat) (s : kst) : sleeplock := i_lock (get_inode s i).
Definition put_inode_sl (i : nat) (v : sleeplock) (s : kst) : kst := put_inode i (set_i_lock v (get_inode s i)) s.

(** Bit [bi] of a bitmap block, [bp->data[bi/8] & (1 << (bi % 8))]. *)
Definition bit_byte (bi : Z) : nat := Z.to_nat (bi / 8).
Definition bit_mask (bi : Z) : Z := Z.shiftl 1 (bi mod 8).
Definition bit_set (d : list Z) (bi : Z) : bool := negb (Z.land (d !!! bit_byte bi) (bit_mask bi) =? 0).
Definition set_bit (d : list Z) (bi : Z) : list Z := <[bit_byte bi := Z.lor (d !!! bit_byte bi) (bit_mask bi)]> d.
Definition clear_bit (d : list Z) (bi : Z) : list Z := <[bit_byte bi := Z.ldiff (d !!! bit_byte bi) (bit_mask bi)]> d.

Definition upd_data (b : nat) (f : list Z → list Z) : K unit := upd_buf b (λ x, set_b_data (f (b_data x)) x).

Section fs.
Context `{DiskRw} `{WaitFuel}.

(** ** Blocks *)

Definition readsb (dev : Z) : K superblock :=
  bp ← bread dev 1;
  d ← buf_get bp b_data;
  brelse bp;;
  mret (dec_sb d).

Definition fsinit (dev : Z) : K unit :=
  sb ← readsb dev;
  modify (set_sb sb);;
  if negb (sb_magic sb =? FSMAGIC) then panic "invalid file system" else
  initlog dev sb.

Definition bzero (dev bno : Z) : K unit :=
  bp ← bread dev (u32 bno);
  upd_data bp (λ _, replicate (Z.to_nat BSIZE) 0);;
  log_write bp;;
  brelse bp.

Definition balloc (dev : Z) : K Z :=
  size ← gets (λ s, sb_size (k_sb s));
  r ← for_find (Z.to_nat ((size + BPB - 1) / BPB)) 0 (λ k,
    let b := k * BPB in
    sb ← gets k_sb;
    bp ← bread dev (BBLOCK b sb);
    r ← for_find (Z.to_nat (Z.min BPB (size - b))) 0 (λ bi,
      d ← buf_get bp b_data;
      if bit_set d bi then mret None else
      upd_data bp (λ d, set_bit d bi);;
      log_write bp;;
      brelse bp;;
      bzero dev (b + bi);;
      mret (Some (b + bi)));
    match r with
    | Some b => mret (Some b)
    | None => brelse bp;; mret None
    end);
  match r with
  | Some b => mret b
  | None => panic "balloc: out of blocks"
  end.

Definition bfree (dev b : Z) : K unit :=
  sb ← gets k_sb;
  bp ← bread dev (BBLOCK b sb);
  let bi := b mod BPB in
  d ← buf_get bp b_data;
  if negb (bit_set d bi) then panic "freeing free block" else
  upd_data bp (λ d, clear_bit d bi);;
  log_write bp;;
  brelse bp.

(** ** Inodes *)

Definition iinit : K unit :=
  for_each NINODE 0 (λ i, initsleeplock (put_inode_sl (Z.to_nat i))).

(** The loop of [iget]: the entry of the inode, or else the first free one. *)
Fixpoint iget_scan (n i : nat) (dev inum : Z) (empty : option nat) : K (nat + option nat) :=
  match n with
  | O => mret (inr empty)
  | S n =>
      ip ← inode_get i id;
      if (i_ref ip >? 0) && (i_dev ip =? dev) && (i_inum ip =? inum) then mret (inl i) else
      let empty := match empty with
                   | None => if i_ref ip =? 0 then Some i else None
                   | Some _ => empty
                   end in
      iget_scan n (S i) dev inum empty
  end.

Definition iget (dev inum : Z) : K nat :=
  acquire LItable;;
  r ← iget_scan NINODE 0 dev inum None;
  match r with
  | inl i =>
      upd_inode i (λ ip, set_i_ref (i32 (i_ref ip + 1)) ip);;
      release LItable;;
      mret i
  | inr None => panic "iget: no inodes"
  | inr (Some i) =>
      upd_inode i (λ ip, set_i_valid false (set_i_ref 1 (set_i_id dev inum ip)));;
      release LItable;;
      mret i
  end.

Definition ialloc (dev type : Z) : K nat :=
  sb ← gets k_sb;
  r ← for_find (Z.to_nat (sb_ninodes sb - 1)) 1 (λ inum,
    bp ← bread dev (IBLOCK inum sb);
    d ← buf_get bp b_data;
    if i16 (get16 d (dinode_off inum)) =? 0 then
      upd_data bp (λ d, put16 (splice d (dinode_off inum) (replicate DINODE 0)) (dinode_off inum) type);;
      log_write bp;;
      brelse bp;;
      ip ← iget dev inum;
      mret (Some ip)
    else
      brelse bp;;
      mret None);
  match r with
  | Some ip => mret ip
  | None => panic "ialloc: no inodes"
  end.

Definition iupdate (i : nat) : K unit :=
  ip ← inode_get i id;
  sb ← gets k_sb;
  bp ← bread (i_dev ip) (IBLOCK (i_inum ip) sb);
  upd_data bp (λ d, splice d (dinode_off (i_inum ip)) (enc_dinode ip));;
  log_write bp;;
  brelse bp.

Definition idup (i : nat) : K nat :=
  acquire LItable;;
  upd_inode i (λ ip, set_i_ref (i32 (i_ref ip + 1)) ip);;
  release LItable;;
  mret i.

Definition acquiresleep_inode (i : nat) : K unit :=
  acquiresleep (LInodeSleep i) (ChInodeLock i) (inode_sl i) (put_inode_sl i).
Definition releasesleep_inode (i : nat) : K unit :=
  releasesleep (LInodeSleep i) (ChInodeLock i) (put_inode_sl i).
Definition holdingsleep_inode (i : nat) : K bool :=
  holdingsleep (LInodeSleep i) (inode_sl i).

Definition ilock (oi : option nat) : K unit :=
  match oi with
  | None => panic "ilock"
  | Some i =>
      ref ← inode_get i i_ref;
      if ref <? 1 then panic "ilock" else
      acquiresleep_inode i;;
      ip ← inode_get i id;
      if negb (i_valid ip) then
        sb ← gets k_sb;
        bp ← bread (i_dev ip) (IBLOCK (i_inum ip) sb);
        d ← buf_get bp b_data;
        upd_inode i (load_dinode d (dinode_off (i_inum ip)));;
        brelse bp;;
        upd_inode i (set_i_valid true);;
        type ← inode_get i i_type;
        if type =? 0 then panic "ilock: no type" else mret tt
      else mret tt
  end.

Definition iunlock (oi : option nat) : K unit :=
  match oi with
  | None => panic "iunlock"
  | Some i =>
      h ← holdingsleep_inode i;
      if negb h then panic "iunlock" else
      ref ← inode_get i i_ref;
      if ref <? 1 then panic "iunlock" else
      releasesleep_inode i
  end.

Definition itrunc (i : nat) : K unit :=
  dev ← inode_get i i_dev;
  for_each (Z.to_nat NDIRECT) 0 (λ k,
    a ← inode_get i (λ ip, i_addrs ip !!! Z.to_nat k);
    when (negb (a =? 0)) (
      bfree dev a;;
      upd_inode i (set_i_addr (Z.to_nat k) 0)));;
  ind ← inode_get i (λ ip, i_addrs ip !!! Z.to_nat NDIRECT);
  when (negb (ind =? 0)) (
    bp ← bread dev ind;
    for_each (Z.to_nat NINDIRECT) 0 (λ j,
      a ← buf_get bp (λ b, get32 (b_data b) (4 * Z.to_nat j));
      when (negb (a =? 0)) (bfree dev a));;
    brelse bp;;
    bfree dev ind;;
    upd_inode i (set_i_addr (Z.to_nat NDIRECT) 0));;
  upd_inode i (set_i_size 0);;
  iupdate i.

Definition iput (i : nat) : K unit :=
  acquire LItable;;
  ip ← inode_get i id;
  when ((i_ref ip =? 1) && i_valid ip && (i_nlink ip =? 0)) (
    acquiresleep_inode i;;
    release LItable;;
    itrunc i;;
    upd_inode i (set_i_type 0);;
    iupdate i;;
    upd_inode i (set_i_valid false);;
    releasesleep_inode i;;
    acquire LItable);;
  upd_inode i (λ ip, set_i_ref (i32 (i_ref ip - 1)) ip);;
  release LItable.

Definition iunlockput (i : nat) : K unit :=
  iunlock (Some i);;
  iput i.

(** ** Inode content *)

Definition bmap (i : nat) (bn : Z) : K Z :=
  dev ← inode_get i i_dev;
  if bn <? NDIRECT then
    addr ← inode_get i (λ ip, i_addrs ip !!! Z.to_nat bn);
    if addr =? 0 then
      addr ← balloc dev;
      upd_inode i (set_i_addr (Z.to_nat bn) addr);;
      mret addr
    else mret addr
  else
  let bn := bn - NDIRECT in
  if bn <? NINDIRECT then
    addr ← inode_get i (λ ip, i_addrs ip !!! Z.to_nat NDIRECT);
    addr ← (if addr =? 0 then
              addr ← balloc dev;
              upd_inode i (set_i_addr (Z.to_nat NDIRECT) addr);;
              mret addr
            else mret addr);
    bp ← bread dev addr;
    addr ← buf_get bp (λ b, get32 (b_data b) (4 * Z.to_nat bn));
    addr ← (if addr =? 0 then
              addr ← balloc dev;
              upd_data bp (λ d, put32 d (4 * Z.to_nat bn) addr);;
              log_write bp;;
              mret addr
            else mret addr);
    brelse bp;;
    mret addr
  else panic "bmap: out of range".

(** [struct stat] *)
Record stat : Type := mk_stat { st_dev : Z; st_ino : Z; st_type : Z; st_nlink : Z; st_size : Z }.

Definition stati (i : nat) : K stat :=
  inode_get i (λ ip, mk_stat (i_dev ip) (i_inum ip) (i_type ip) (i_nlink ip) (i_size ip)).

(** An iteration of the loops of [readi] and [writei] that is not the last
    one ends at a block boundary. *)
Definition io_fuel (n : Z) : nat := Z.to_nat (n / BSIZE + 2).

Definition io_chunk (n tot off : Z) : Z := Z.min (n - tot) (BSIZE - off mod BSIZE).

(** The result is the value returned and the bytes copied so far. *)
Fixpoint readi_loop (fuel : nat) (i : nat) (dst : iodst) (off n tot : Z) (acc : list Z) : K (Z * list Z) :=
  if negb (tot <? n) then mret (tot, acc) else
  match fuel with
  | O => out_of_fuel
  | S fuel =>
      dev ← inode_get i i_dev;
      addr ← bmap i (off / BSIZE);
      bp ← bread dev addr;
      let m := io_chunk n tot off in
      d ← buf_get bp b_data;
      let src := drop (Z.to_nat (off mod BSIZE)) d in
      r ← either_copyout dst src m;
      if r =? -1 then
        brelse bp;;
        mret (-1, acc)
      else
        brelse bp;;
        readi_loop fuel i (dst_add dst m) (off + m) n (tot + m) (acc ++ take (Z.to_nat m) src)
  end.

Definition readi (i : nat) (dst : iodst) (off n : Z) : K (Z * list Z) :=
  size ← inode_get i i_size;
  if (off >? size) || (u32 (off + n) <? off) then mret (0, []) else
  let n := if u32 (off + n) >? size then size - off else n in
  readi_loop (io_fuel n) i dst off n 0 [].

(** The result is [tot] and [off] when the loop ends. *)
Fixpoint writei_loop (fuel : nat) (i : nat) (src : iosrc) (off n tot : Z) : K (Z * Z) :=
  if negb (tot <? n) then mret (tot, off) else
  match fuel with
  | O => out_of_fuel
  | S fuel =>
      dev ← inode_get i i_dev;
      addr ← bmap i (off / BSIZE);
      bp ← bread dev addr;
      let m := io_chunk n tot off in
      r ← either_copyin src m;
      upd_data bp (λ d, splice d (Z.to_nat (off mod BSIZE)) r.2);;
      if r.1 =? -1 then
        brelse bp;;
        mret (tot, off)
      else
        log_write bp;;
        brelse bp;;
        writei_loop fuel i (src_add src m) (off + m) n (tot + m)
  end.

Definition writei (i : nat) (src : iosrc) (off n : Z) : K Z :=
  size ← inode_get i i_size;
  if (off >? size) || (u32 (off + n) <? off) then mret (-1) else
  if u32 (off + n) >? MAXFILE * BSIZE then mret (-1) else
  r ← writei_loop (io_fuel n) i src off n 0;
  when (r.2 >? size) (upd_inode i (set_i_size r.2));;
  iupdate i;;
  mret r.1.

(** ** Directories *)

Definition namecmp (s t : list Z) : Z := strncmp s t DIRSIZ.

(** The result is the inode and [*poff]. *)
Fixpoint dirlookup_loop (fuel : nat) (dp : nat) (name : list Z) (off : Z) : K (option (nat * Z)) :=
  size ← inode_get dp i_size;
  if negb (off <? size) then mret None else
  match fuel with
  | O => out_of_fuel
  | S fuel =>
      r ← readi dp DLocal off DIRENT;
      if negb (r.1 =? DIRENT) then panic "dirlookup read" else
      let de := r.2 in
      if de_inum de =? 0 then dirlookup_loop fuel dp name (off + DIRENT) else
      if namecmp name (de_name de) =? 0 then
        dev ← inode_get dp i_dev;
        ip ← iget dev (de_inum de);
        mret (Some (ip, off))
      else dirlookup_loop fuel dp name (off + DIRENT)
  end.

Definition dir_fuel (size : Z) : nat := Z.to_nat (size / DIRENT + 1).

Definition dirlookup (dp : nat) (name : list Z) : K (option (nat * Z)) :=
  type ← inode_get dp i_type;
  if negb (type =? T_DIR) then panic "dirlookup not DIR" else
  size ← inode_get dp i_size;
  dirlookup_loop (dir_fuel size) dp name 0.

(** [for(off = 0; off < dp->size; off += sizeof(de)) ...]: the offset of the
    first empty entry, or the size. *)
Fixpoint dirlink_find (fuel : nat) (dp : nat) (off : Z) : K Z :=
  size ← inode_get dp i_size;
  if negb (off <? size) then mret off else
  match fuel with
  | O => out_of_fuel
  | S fuel =>
      r ← readi dp DLocal off DIRENT;
      if negb (r.1 =? DIRENT) then panic "dirlink read" else
      if de_inum r.2 =? 0 then mret off else dirlink_find fuel dp (off + DIRENT)
  end.

Definition dirlink (dp : nat) (name : list Z) (inum : Z) : K Z :=
  r ← dirlookup dp name;
  match r with
  | Some (ip, _) => iput ip;; mret (-1)
  | None =>
      size ← inode_get dp i_size;
      off ← dirlink_find (dir_fuel size) dp 0;
      let de := enc_dirent inum (strncpy (replicate DIRSIZ 0) name DIRSIZ) in
      w ← writei dp (SLocal de) off DIRENT;
      if negb (w =? DIRENT) then panic "dirlink" else mret 0
  end.

(** ** Paths *)

(** The loop that moves [path] past slashes. *)
Fixpoint skip_slashes (path : list Z) : list Z :=
  match path with
  | c :: p => if c =? 47 then skip_slashes p else path
  | [] => []
  end.

(** The loop that moves [path] to the next slash or the end: the element and
    the rest. *)
Fixpoint path_elem (path : list Z) : list Z * list Z :=
  match path with
  | c :: p => if (c =? 47) || (c =? 0) then ([], path)
              else let r := path_elem p in (c :: r.1, r.2)
  | [] => ([], [])
  end.

(** [skipelem(path, name)] with the buffer [name] of [DIRSIZ] bytes. *)
Definition skipelem (path name : list Z) : option (list Z * list Z) :=
  let path := skip_slashes path in
  if chr path =? 0 then None else
  let (s, path) := path_elem path in
  let len := length s in
  let name := if (DIRSIZ <=? len)%nat then take DIRSIZ s
              else s ++ [0] ++ drop (S len) name in
  Some (skip_slashes path, name).

Fixpoint namex_loop (fuel : nat) (ip : nat) (path name : list Z) (parent : bool) : K (option (nat * list Z)) :=
  match skipelem path name with
  | None => if parent then iput ip;; mret None else mret (Some (ip, name))
  | Some (path, name) =>
      match fuel with
      | O => out_of_fuel
      | S fuel =>
          ilock (Some ip);;
          type ← inode_get ip i_type;
          if negb (type =? T_DIR) then iunlockput ip;; mret None else
          if parent && (chr path =? 0) then iunlock (Some ip);; mret (Some (ip, name)) else
          next ← dirlookup ip name;
          match next with
          | None => iunlockput ip;; mret None
          | Some (next, _) =>
              iunlockput ip;;
              namex_loop fuel next path name parent
          end
      end
  end.

(** [p->cwd] is null only for a process that exits; [idup] of it has no
    meaning in C. *)
Definition namex (path : list Z) (parent : bool) : K (option (nat * list Z)) :=
  ip ← (if chr path =? 47 then iget ROOTDEV ROOTINO
        else
          p ← myproc;
          cwd ← proc_get p p_cwd;
          match cwd with Some ip => idup ip | None => panic "null pointer" end);
  namex_loop (length path) ip path (replicate DIRSIZ 0) parent.

Definition namei (path : list Z) : K (option nat) :=
  r ← namex path false;
  mret (fst <$> r).

Definition nameiparent (path : list Z) : K (option (nat * list Z)) := namex path true.
End fs.
