(* ===== verification/Pipe.v ===== *)
(** * kernel/pipe.c: the code

    A pipe is named by the address of its page; its fields are the entry of
    [k_pipes] at this address. *)

From S2P Require Import Prelude Memory Params State Sched Kalloc Vm.

Definition PIPESIZE : Z := 512.

(** [kalloc] fills the page of the structure with the byte 5. *)
Definition raw_pipe : pipe := mk_pipe (replicate (Z.to_nat PIPESIZE) 5) 0 0 false false.
#[global] Instance pipe_inhabited : Inhabited pipe := populate raw_pipe.

Definition get_pipe (pi : Z) (s : kst) : pipe := default raw_pipe (k_pipes s !! pi).
Definition put_pipe (pi : Z) (p : pipe) (s : kst) : kst := set_pipes (<[pi := p]> (k_pipes s)) s.
Definition upd_pipe (pi : Z) (f : pipe → pipe) : K unit := modify (λ s, put_pipe pi (f (get_pipe pi s)) s).

Definition set_readopen v p := mk_pipe (pi_data p) (pi_nread p) (pi_nwrite p) v (pi_writeopen p).
Definition set_writeopen v p := mk_pipe (pi_data p) (pi_nread p) (pi_nwrite p) (pi_readopen p) v.

(** [pi->data[pi->nwrite++ % PIPESIZE] = ch;] *)
Definition pipe_put (ch : Z) (p : pipe) : pipe :=
  mk_pipe (<[Z.to_nat (pi_nwrite p mod PIPESIZE) := ch]> (pi_data p)) (pi_nread p) (u32 (pi_nwrite p + 1))
    (pi_readopen p) (pi_writeopen p).
(** [ch = pi->data[pi->nread++ % PIPESIZE];] *)
Definition pipe_peek (p : pipe) : Z := pi_data p !!! Z.to_nat (pi_nread p mod PIPESIZE).
Definition pipe_skip (p : pipe) : pipe :=
  mk_pipe (pi_data p) (u32 (pi_nread p + 1)) (pi_nwrite p) (pi_readopen p) (pi_writeopen p).

Definition pipe_full (p : pipe) : bool := pi_nwrite p =? u32 (pi_nread p + PIPESIZE).
Definition pipe_empty (p : pipe) : bool := pi_nread p =? pi_nwrite p.

Section pipe.
Context `{KernelImage} `{WaitFuel}.

Definition pipeclose (pi : Z) (writable : bool) : K unit :=
  acquire (LPipe pi);;
  (if writable then
     upd_pipe pi (set_writeopen false);;
     wakeup (ChPipeRead pi)
   else
     upd_pipe pi (set_readopen false);;
     wakeup (ChPipeWrite pi));;
  p ← gets (get_pipe pi);
  if negb (pi_readopen p) && negb (pi_writeopen p) then
    release (LPipe pi);;
    modify (λ s, set_pipes (delete pi (k_pipes s)) s);;
    kfree pi
  else release (LPipe pi).

(** One round of the loop of [pipewrite] up to a byte of free space; false
    when the read end is closed or the process killed. *)
Fixpoint pipe_space (fuel : nat) (pi : Z) (pr : nat) : K bool :=
  p ← gets (get_pipe pi);
  killed ← proc_get pr p_killed;
  if negb (pi_readopen p) || negb (killed =? 0) then mret false else
  if pipe_full p then
    match fuel with
    | O => out_of_fuel
    | S fuel => wakeup (ChPipeRead pi);; sleep (ChPipeWrite pi) (LPipe pi);; pipe_space fuel pi pr
    end
  else mret true.

(** The loop with [k] bytes to go; [None] stands for the return of -1. *)
Fixpoint pipewrite_loop (k : nat) (pi : Z) (pr : nat) (addr i : Z) : K (option Z) :=
  match k with
  | O => mret (Some i)
  | S k =>
      go ← pipe_space wait_fuel pi pr;
      if negb go then mret None else
      pt ← proc_get pr p_pagetable;
      c ← copyin pt (u64 (addr + i)) 1;
      if c.1 =? -1 then mret (Some i) else
      upd_pipe pi (pipe_put (hd 0 c.2));;
      pipewrite_loop k pi pr addr (i + 1)
  end.

Definition pipewrite (pi addr n : Z) : K Z :=
  pr ← myproc;
  acquire (LPipe pi);;
  r ← pipewrite_loop (Z.to_nat n) pi pr addr 0;
  match r with
  | None => release (LPipe pi);; mret (-1)
  | Some i =>
      wakeup (ChPipeRead pi);;
      release (LPipe pi);;
      mret i
  end.

(** [while(pi->nread == pi->nwrite && pi->writeopen)]: false when killed. *)
Fixpoint pipe_data (fuel : nat) (pi : Z) (pr : nat) : K bool :=
  p ← gets (get_pipe pi);
  if negb (pipe_empty p && pi_writeopen p) then mret true else
  killed ← proc_get pr p_killed;
  if negb (killed =? 0) then mret false else
  match fuel with
  | O => out_of_fuel
  | S fuel => sleep (ChPipeRead pi) (LPipe pi);; pipe_data fuel pi pr
  end.

Fixpoint piperead_loop (k : nat) (pi : Z) (pr : nat) (addr i : Z) : K Z :=
  match k with
  | O => mret i
  | S k =>
      p ← gets (get_pipe pi);
      if pipe_empty p then mret i else
      let ch := pipe_peek p in
      upd_pipe pi pipe_skip;;
      pt ← proc_get pr p_pagetable;
      r ← copyout pt (u64 (addr + i)) [ch] 1;
      if r =? -1 then mret i else piperead_loop k pi pr addr (i + 1)
  end.

Definition piperead (pi addr n : Z) : K Z :=
  pr ← myproc;
  acquire (LPipe pi);;
  go ← pipe_data wait_fuel pi pr;
  if negb go then release (LPipe pi);; mret (-1) else
  i ← piperead_loop (Z.to_nat n) pi pr addr 0;
  wakeup (ChPipeWrite pi);;
  release (LPipe pi);;
  mret i.
End pipe.
