(* ===== verification/File.v ===== *)
(** * kernel/file.c, and pipealloc of kernel/pipe.c: the code *)

From S2P Require Import Prelude Memory Params State Sched Kalloc Vm Block Bio Log Uart Console Fs Pipe.

(** ** Open files in the state *)

Definition get_file (s : kst) (i : nat) : file := k_ftable s !!! i.
Definition put_file (i : nat) (f : file) (s : kst) : kst := set_ftable (<[i := f]> (k_ftable s)) s.
Definition upd_file (i : nat) (g : file → file) : K unit := modify (λ s, put_file i (g (get_file s i)) s).
Definition file_get {A} (i : nat) (g : file → A) : K A := gets (λ s, g (get_file s i)).

Definition set_f_type v f := mk_file v (f_ref f) (f_readable f) (f_writable f) (f_pipe f) (f_ip f) (f_off f) (f_major f).
Definition set_f_ref v f := mk_file (f_type f) v (f_readable f) (f_writable f) (f_pipe f) (f_ip f) (f_off f) (f_major f).
Definition set_f_mode r w f := mk_file (f_type f) (f_ref f) r w (f_pipe f) (f_ip f) (f_off f) (f_major f).
Definition set_f_pipe v f := mk_file (f_type f) (f_ref f) (f_readable f) (f_writable f) v (f_ip f) (f_off f) (f_major f).
Definition set_f_ip v f := mk_file (f_type f) (f_ref f) (f_readable f) (f_writable f) (f_pipe f) v (f_off f) (f_major f).
Definition set_f_off v f := mk_file (f_type f) (f_ref f) (f_readable f) (f_writable f) (f_pipe f) (f_ip f) v (f_major f).
Definition set_f_major v f := mk_file (f_type f) (f_ref f) (f_readable f) (f_writable f) (f_pipe f) (f_ip f) (f_off f) v.

(** The bytes of [struct stat]: four bytes of padding before the size. *)
Definition enc_stat (st : stat) : list Z :=
  le_enc 4 (st_dev st) ++ le_enc 4 (st_ino st) ++ le_enc 2 (st_type st) ++ le_enc 2 (st_nlink st) ++
  replicate 4 0 ++ le_enc 8 (st_size st).
Definition SIZEOF_STAT : Z := 24.

Section file.
Context `{KernelImage} `{DiskRw} `{UartDev} `{WaitFuel}.

(** [initlock] of the table's lock: no lock is held at boot. *)
Definition fileinit : K unit := mret tt.

Definition filealloc : K (option nat) :=
  acquire LFtable;;
  r ← for_find NFILE 0 (λ z,
    let f := Z.to_nat z in
    ref ← file_get f f_ref;
    if ref =? 0 then
      upd_file f (set_f_ref 1);;
      release LFtable;;
      mret (Some f)
    else mret None);
  match r with
  | Some f => mret (Some f)
  | None => release LFtable;; mret None
  end.

Definition filedup (f : nat) : K nat :=
  acquire LFtable;;
  ref ← file_get f f_ref;
  if ref <? 1 then panic "filedup" else
  upd_file f (set_f_ref (i32 (ref + 1)));;
  release LFtable;;
  mret f.

Definition fileclose (f : nat) : K unit :=
  acquire LFtable;;
  ref ← file_get f f_ref;
  if ref <? 1 then panic "fileclose" else
  upd_file f (set_f_ref (ref - 1));;
  if ref - 1 >? 0 then release LFtable else
  ff ← file_get f id;
  upd_file f (λ x, set_f_type FD_NONE (set_f_ref 0 x));;
  release LFtable;;
  match f_type ff with
  | FD_PIPE => pipeclose (f_pipe ff) (f_writable ff)
  | FD_INODE | FD_DEVICE =>
      begin_op;;
      match f_ip ff with Some ip => iput ip | None => panic "null pointer" end;;
      end_op
  | FD_NONE => mret tt
  end.

Definition filestat (f : nat) (addr : Z) : K Z :=
  p ← myproc;
  x ← file_get f id;
  match f_type x, f_ip x with
  | FD_INODE, Some ip | FD_DEVICE, Some ip =>
      ilock (Some ip);;
      st ← stati ip;
      iunlock (Some ip);;
      pt ← proc_get p p_pagetable;
      r ← copyout pt addr (enc_stat st) SIZEOF_STAT;
      if r <? 0 then mret (-1) else mret 0
  | FD_INODE, None | FD_DEVICE, None => panic "ilock"
  | _, _ => mret (-1)
  end.

(** The entry of the device switch that a file names, [None] for the tests
    that make [fileread] and [filewrite] fail. *)
Definition dev_entry {A} (sw : Z → option A) (major : Z) : option A :=
  if (major <? 0) || (major >=? NDEV) then None else sw major.

Definition fileread (f : nat) (addr n : Z) : K Z :=
  x ← file_get f id;
  if negb (f_readable x) then mret (-1) else
  match f_type x with
  | FD_PIPE => piperead (f_pipe x) addr n
  | FD_DEVICE =>
      match dev_entry devsw_read (f_major x) with
      | None => mret (-1)
      | Some read => read (DUser addr) n
      end
  | FD_INODE =>
      ilock (f_ip x);;
      match f_ip x with
      | None => panic "ilock"
      | Some ip =>
          off ← file_get f f_off;
          r ← readi ip (DUser addr) off (u32 n);
          when (r.1 >? 0) (upd_file f (λ y, set_f_off (u32 (f_off y + r.1)) y));;
          iunlock (Some ip);;
          mret r.1
      end
  | FD_NONE => panic "fileread"
  end.

(** The most that [filewrite] writes in one transaction. *)
Definition WRITE_MAX : Z := (MAXOPBLOCKS - 1 - 1 - 2) / 2 * BSIZE.

(** [while(i < n)] of [filewrite]; every round writes [WRITE_MAX] bytes or is
    the last one. *)
Fixpoint filewrite_loop (fuel : nat) (f ip : nat) (addr n i : Z) : K Z :=
  if negb (i <? n) then mret i else
  match fuel with
  | O => out_of_fuel
  | S fuel =>
      let n1 := Z.min (n - i) WRITE_MAX in
      begin_op;;
      ilock (Some ip);;
      off ← file_get f f_off;
      r ← writei ip (SUser (u64 (addr + i))) off n1;
      when (r >? 0) (upd_file f (λ y, set_f_off (u32 (f_off y + r)) y));;
      iunlock (Some ip);;
      end_op;;
      if negb (r =? n1) then mret i else filewrite_loop fuel f ip addr n (i + r)
  end.

Definition filewrite (f : nat) (addr n : Z) : K Z :=
  x ← file_get f id;
  if negb (f_writable x) then mret (-1) else
  match f_type x with
  | FD_PIPE => pipewrite (f_pipe x) addr n
  | FD_DEVICE =>
      match dev_entry devsw_write (f_major x) with
      | None => mret (-1)
      | Some write => write (SUser addr) n
      end
  | FD_INODE =>
      match f_ip x with
      | None => panic "ilock"
      | Some ip =>
          i ← filewrite_loop (Z.to_nat (n / WRITE_MAX + 1)) f ip addr n 0;
          mret (if i =? n then n else -1)
      end
  | FD_NONE => panic "filewrite"
  end.

(** ** pipealloc *)

(** The label [bad] of [pipealloc]. *)
Definition pipealloc_bad (f0 f1 : option nat) : K (option (nat * nat)) :=
  match f0 with Some f => fileclose f | None => mret tt end;;
  match f1 with Some f => fileclose f | None => mret tt end;;
  mret None.

Definition pipealloc : K (option (nat * nat)) :=
  f0 ← filealloc;
  match f0 with
  | None => pipealloc_bad None None
  | Some a =>
      f1 ← filealloc;
      match f1 with
      | None => pipealloc_bad (Some a) None
      | Some b =>
          pi ← kalloc;
          if pi =? 0 then pipealloc_bad (Some a) (Some b) else
          modify (put_pipe pi (mk_pipe (pi_data raw_pipe) 0 0 true true));;
          upd_file a (λ f, set_f_pipe pi (set_f_mode true false (set_f_type FD_PIPE f)));;
          upd_file b (λ f, set_f_pipe pi (set_f_mode false true (set_f_type FD_PIPE f)));;
          mret (Some (a, b))
      end
  end.
End file.
