(* ===== verification/Proc.v ===== *)
(** * kernel/proc.c: the life of a process

    Creation, growth, exit and reaping of processes, and the scheduler loop of
    a hart.  [sleep], [wakeup], [kill] and [sched] are in Sched.v, page tables
    of processes in Vm.v, [forkret] in Trap.v. *)

From S2P Require Import Prelude Memory Params State CString Sched Kalloc Vm Block Bio Log Uart Console Fs Pipe File Riscv.

(** ** kernel/proc.h: struct trapframe

    Offsets in the trapframe page. *)
Definition TF_kernel_satp : Z := 0.
Definition TF_kernel_sp : Z := 8.
Definition TF_kernel_trap : Z := 16.
Definition TF_epc : Z := 24.
Definition TF_kernel_hartid : Z := 32.
Definition TF_sp : Z := 48.
Definition TF_a0 : Z := 112.
Definition TF_a1 : Z := 120.
Definition TF_a2 : Z := 128.
Definition TF_a3 : Z := 136.
Definition TF_a4 : Z := 144.
Definition TF_a5 : Z := 152.
Definition TF_a7 : Z := 168.
Definition SIZEOF_TRAPFRAME : nat := 288.

(** [p->trapframe->field] *)
Definition tf_get (p : nat) (field : Z) : K Z :=
  tf ← proc_get p p_trapframe;
  ld (tf + field).
Definition tf_set (p : nat) (field v : Z) : K unit :=
  tf ← proc_get p p_trapframe;
  st (tf + field) v.

(** The pointer [c->proc] of the hart, null past the table. *)
Definition NOPROC : nat := NPROC.
Definition set_cur (i : nat) (s : kst) : kst :=
  let q := k_proc s in
  set_proc (mk_pstate (ps_procs q) i (ps_initproc q) (ps_nextpid q) (ps_first q)) s.
Definition set_initproc (v : option nat) (s : kst) : kst :=
  let q := k_proc s in
  set_proc (mk_pstate (ps_procs q) (ps_cur q) v (ps_nextpid q) (ps_first q)) s.

(** The program that calls [exec("/init")]. *)
Definition initcode : list Z := [
  0x17; 0x05; 0x00; 0x00; 0x13; 0x05; 0x45; 0x02;
  0x97; 0x05; 0x00; 0x00; 0x93; 0x85; 0x35; 0x02;
  0x93; 0x08; 0x70; 0x00; 0x73; 0x00; 0x00; 0x00;
  0x93; 0x08; 0x20; 0x00; 0x73; 0x00; 0x00; 0x00;
  0xef; 0xf0; 0x9f; 0xff; 0x2f; 0x69; 0x6e; 0x69;
  0x74; 0x00; 0x00; 0x24; 0x00; 0x00; 0x00; 0x00;
  0x00; 0x00; 0x00; 0x00 ].

(** The fields [freeproc] clears once the memory is freed. *)
Definition reset_proc (p : proc) : proc :=
  set_p_state UNUSED (set_p_xstate 0 (set_p_killed 0 (set_p_chan None
    (set_p_name (<[0%nat := 0]> (p_name p)) (set_p_parent None (set_p_pid 0 (set_p_sz 0
      (set_p_pagetable 0 p)))))))).

Section proc.
Context `{KernelImage} `{DiskRw} `{UartDev} `{WaitFuel}.

Definition procinit : K unit :=
  for_each NPROC 0 (λ z, upd_proc (Z.to_nat z) (set_p_kstack (KSTACK z))).

Definition freeproc (p : nat) : K unit :=
  tf ← proc_get p p_trapframe;
  when (negb (tf =? 0)) (kfree tf);;
  upd_proc p (set_p_trapframe 0);;
  pt ← proc_get p p_pagetable;
  sz ← proc_get p p_sz;
  when (negb (pt =? 0)) (proc_freepagetable pt sz);;
  upd_proc p reset_proc.

(** The new process, with its lock held. *)
Definition allocproc : K (option nat) :=
  found ← for_find NPROC 0 (λ z,
    let p := Z.to_nat z in
    acquire (LProc p);;
    st ← proc_get p p_state;
    if bool_decide (st = UNUSED) then mret (Some p)
    else release (LProc p);; mret None);
  match found with
  | None => mret None
  | Some p =>
      pid ← allocpid;
      upd_proc p (set_p_pid pid);;
      upd_proc p (set_p_state USED);;
      tf ← kalloc;
      upd_proc p (set_p_trapframe tf);;
      if tf =? 0 then
        freeproc p;;
        release (LProc p);;
        mret None
      else
      pt ← proc_pagetable tf;
      upd_proc p (set_p_pagetable pt);;
      if pt =? 0 then
        freeproc p;;
        release (LProc p);;
        mret None
      else
      upd_proc p (λ x, set_p_context (mk_context forkret_addr (u64 (p_kstack x + PGSIZE)) (replicate 12 0)) x);;
      mret (Some p)
  end.

Definition userinit : K unit :=
  r ← allocproc;
  modify (set_initproc r);;
  match r with
  | None => panic "null pointer"
  | Some p =>
      pt ← proc_get p p_pagetable;
      uvminit pt initcode (Z.of_nat (length initcode));;
      upd_proc p (set_p_sz PGSIZE);;
      tf_set p TF_epc 0;;
      tf_set p TF_sp PGSIZE;;
      upd_proc p (λ x, set_p_name (safestrcpy (p_name x) (codes "initcode") 16) x);;
      cwd ← namei (codes "/");
      upd_proc p (set_p_cwd cwd);;
      upd_proc p (set_p_state RUNNABLE);;
      release (LProc p)
  end.

(** The local variable [sz] is a 32-bit [uint]. *)
Definition growproc (n : Z) : K Z :=
  p ← myproc;
  psz ← proc_get p p_sz;
  pt ← proc_get p p_pagetable;
  let sz := u32 psz in
  if n >? 0 then
    r ← uvmalloc pt sz (u32 (sz + n));
    if u32 r =? 0 then mret (-1) else
    upd_proc p (set_p_sz (u32 r));;
    mret 0
  else if n <? 0 then
    r ← uvmdealloc pt sz (u32 (sz + n));
    upd_proc p (set_p_sz (u32 r));;
    mret 0
  else
    upd_proc p (set_p_sz sz);;
    mret 0.

(** [for(i = 0; i < NOFILE; i++) if(p->ofile[i]) np->ofile[i] = filedup(p->ofile[i]);] *)
Definition dup_files (p np : nat) : K unit :=
  for_each NOFILE 0 (λ z,
    let i := Z.to_nat z in
    fs ← proc_get p p_ofile;
    match fs !!! i with
    | None => mret tt
    | Some f =>
        f' ← filedup f;
        upd_proc np (λ x, set_p_ofile (<[i := Some f']> (p_ofile x)) x)
    end).

Definition fork : K Z :=
  p ← myproc;
  r ← allocproc;
  match r with
  | None => mret (-1)
  | Some np =>
      old ← proc_get p p_pagetable;
      new ← proc_get np p_pagetable;
      sz ← proc_get p p_sz;
      c ← uvmcopy old new sz;
      if c <? 0 then
        freeproc np;;
        release (LProc np);;
        mret (-1)
      else
      upd_proc np (set_p_sz sz);;
      tf ← proc_get p p_trapframe;
      ntf ← proc_get np p_trapframe;
      regs ← gets (λ s, read_bytes (get_mem s) tf SIZEOF_TRAPFRAME);
      put_bytes ntf regs;;
      tf_set np TF_a0 0;;
      dup_files p np;;
      cwd ← proc_get p p_cwd;
      match cwd with
      | None => panic "null pointer"
      | Some ip =>
          ip' ← idup ip;
          upd_proc np (set_p_cwd (Some ip'))
      end;;
      name ← proc_get p p_name;
      upd_proc np (λ x, set_p_name (safestrcpy (p_name x) name 16) x);;
      pid ← proc_get np p_pid;
      release (LProc np);;
      acquire LWait;;
      upd_proc np (set_p_parent (Some p));;
      release LWait;;
      acquire (LProc np);;
      upd_proc np (set_p_state RUNNABLE);;
      release (LProc np);;
      mret pid
  end.

Definition reparent (p : nat) : K unit :=
  for_each NPROC 0 (λ z,
    let pp := Z.to_nat z in
    parent ← proc_get pp p_parent;
    when (bool_decide (parent = Some p)) (
      init ← gets (λ s, ps_initproc (k_proc s));
      upd_proc pp (set_p_parent init);;
      wakeup_proc init)).

(** [for(int fd = 0; fd < NOFILE; fd++)] of [exit]. *)
Definition close_files (p : nat) : K unit :=
  for_each NOFILE 0 (λ z,
    let fd := Z.to_nat z in
    fs ← proc_get p p_ofile;
    match fs !!! fd with
    | None => mret tt
    | Some f =>
        fileclose f;;
        upd_proc p (λ x, set_p_ofile (<[fd := None]> (p_ofile x)) x)
    end).

Definition exit {A} (status : Z) : K A :=
  p ← myproc;
  init ← gets (λ s, ps_initproc (k_proc s));
  if bool_decide (init = Some p) then panic "init exiting" else
  close_files p;;
  begin_op;;
  cwd ← proc_get p p_cwd;
  match cwd with Some ip => iput ip | None => panic "null pointer" end;;
  end_op;;
  upd_proc p (set_p_cwd None);;
  acquire LWait;;
  reparent p;;
  parent ← proc_get p p_parent;
  wakeup_proc parent;;
  acquire (LProc p);;
  upd_proc p (set_p_xstate status);;
  upd_proc p (set_p_state ZOMBIE);;
  release LWait;;
  sched;;
  panic "zombie exit".

(** One child in the scan of [wait]: [Some r] when [wait] returns [r]. *)
Definition wait_child (p np : nat) (addr : Z) : K (option Z) :=
  acquire (LProc np);;
  st ← proc_get np p_state;
  if bool_decide (st = ZOMBIE) then
    pid ← proc_get np p_pid;
    xstate ← proc_get np p_xstate;
    pt ← proc_get p p_pagetable;
    r ← (if addr =? 0 then mret 0 else copyout pt addr (le_enc 4 xstate) 4);
    if r <? 0 then
      release (LProc np);;
      release LWait;;
      mret (Some (-1))
    else
      freeproc np;;
      release (LProc np);;
      release LWait;;
      mret (Some pid)
  else
    release (LProc np);;
    mret None.

(** The scan of the table for exited children: [inl r] when [wait] returns
    [r], otherwise [havekids]. *)
Fixpoint wait_scan (n np : nat) (p : nat) (addr : Z) (havekids : bool) : K (Z + bool) :=
  match n with
  | O => mret (inr havekids)
  | S n =>
      parent ← proc_get np p_parent;
      if bool_decide (parent = Some p) then
        r ← wait_child p np addr;
        match r with
        | Some v => mret (inl v)
        | None => wait_scan n (S np) p addr true
        end
      else wait_scan n (S np) p addr havekids
  end.

Fixpoint wait_loop (fuel : nat) (p : nat) (addr : Z) : K Z :=
  r ← wait_scan NPROC 0 p addr false;
  match r with
  | inl v => mret v
  | inr havekids =>
      killed ← proc_get p p_killed;
      if negb havekids || negb (killed =? 0) then
        release LWait;;
        mret (-1)
      else
      match fuel with
      | O => out_of_fuel
      | S fuel => sleep (ChProc p) LWait;; wait_loop fuel p addr
      end
  end.

Definition wait (addr : Z) : K Z :=
  p ← myproc;
  acquire LWait;;
  wait_loop wait_fuel p addr.

(** ** The scheduler of a hart

    [swtch(&c->context, &p->context)] is the same switch seen from the other
    side: the outcome carries the rest of the round, which goes on when the
    process gives up the CPU. *)
Definition sched_one (p : nat) : K unit :=
  acquire (LProc p);;
  st ← proc_get p p_state;
  when (bool_decide (st = RUNNABLE)) (
    upd_proc p (set_p_state RUNNING);;
    modify (set_cur p);;
    swtch;;
    modify (set_cur NOPROC));;
  release (LProc p).

Definition sched_round : K unit := for_each NPROC 0 (λ z, sched_one (Z.to_nat z)).

(** The loop never returns; the bound is the number of rounds followed. *)
Fixpoint scheduler_loop (rounds : nat) : K unit :=
  match rounds with
  | O => out_of_fuel
  | S rounds => intr_on;; sched_round;; scheduler_loop rounds
  end.

Definition scheduler (rounds : nat) : K unit :=
  modify (set_cur NOPROC);;
  scheduler_loop rounds.
End proc.
