(* ===== verification/Exec.v ===== *)
(** * kernel/elf.h and kernel/exec.c: the code *)

From S2P Require Import Prelude Memory Params State CString Sched Kalloc Vm Block Bio Log Uart Console Fs Pipe File Proc.

(** ** kernel/elf.h *)

Definition get64 (d : list Z) (off : nat) : Z := le_dec (slice d off 8).

Definition ELF_MAGIC : Z := 0x464C457F.
Definition ELF_PROG_LOAD : Z := 1.

(** The fields of the file header that [exec] reads. *)
Record elfhdr : Type := mk_elf { e_magic : Z; e_entry : Z; e_phoff : Z; e_phnum : Z }.
Definition SIZEOF_ELFHDR : Z := 64.
Definition dec_elf (d : list Z) : elfhdr := mk_elf (get32 d 0) (get64 d 24) (get64 d 32) (get16 d 56).

(** The fields of a program header that [exec] reads. *)
Record proghdr : Type := mk_ph { ph_type : Z; ph_off : Z; ph_vaddr : Z; ph_filesz : Z; ph_memsz : Z }.
Definition SIZEOF_PROGHDR : Z := 56.
Definition dec_ph (d : list Z) : proghdr := mk_ph (get32 d 0) (get64 d 8) (get64 d 16) (get64 d 32) (get64 d 40).

(** The loop that moves [last] past the last slash of the path. *)
Fixpoint last_elem (s last : list Z) : list Z :=
  match s with
  | [] => last
  | c :: s' => if c =? 0 then last else if c =? 47 then last_elem s' s' else last_elem s' last
  end.

Section exec.
Context `{KernelImage} `{DiskRw} `{UartDev} `{WaitFuel}.

(** [for(i = 0; i < sz; i += PGSIZE)] of [loadseg]; [i] is a [uint]. *)
Fixpoint loadseg_loop (fuel : nat) (pagetable va : Z) (ip : nat) (offset sz i : Z) : K Z :=
  if negb (i <? sz) then mret 0 else
  match fuel with
  | O => out_of_fuel
  | S fuel =>
      pa ← walkaddr pagetable (u64 (va + i));
      if pa =? 0 then panic "loadseg: address should exist" else
      let n := if sz - i <? PGSIZE then sz - i else PGSIZE in
      r ← readi ip (DKernel pa) (u32 (offset + i)) n;
      if negb (u32 r.1 =? n) then mret (-1) else
      loadseg_loop fuel pagetable va ip offset sz (u32 (i + PGSIZE))
  end.

Definition loadseg (pagetable va : Z) (ip : nat) (offset sz : Z) : K Z :=
  loadseg_loop (Z.to_nat (sz / PGSIZE + 1)) pagetable va ip offset sz 0.

(** The loop over the [n] program headers that are left: whether all of them
    loaded, and the size reached. *)
Fixpoint exec_load (n : nat) (ip : nat) (pagetable off sz : Z) : K (bool * Z) :=
  match n with
  | O => mret (true, sz)
  | S n =>
      r ← readi ip DLocal (u32 off) SIZEOF_PROGHDR;
      if negb (r.1 =? SIZEOF_PROGHDR) then mret (false, sz) else
      let ph := dec_ph r.2 in
      let next := i32 (off + SIZEOF_PROGHDR) in
      if negb (ph_type ph =? ELF_PROG_LOAD) then exec_load n ip pagetable next sz else
      if ph_memsz ph <? ph_filesz ph then mret (false, sz) else
      if u64 (ph_vaddr ph + ph_memsz ph) <? ph_vaddr ph then mret (false, sz) else
      sz1 ← uvmalloc pagetable sz (u64 (ph_vaddr ph + ph_memsz ph));
      if sz1 =? 0 then mret (false, sz) else
      if negb (ph_vaddr ph mod PGSIZE =? 0) then mret (false, sz1) else
      l ← loadseg pagetable (ph_vaddr ph) ip (u32 (ph_off ph)) (u32 (ph_filesz ph));
      if l <? 0 then mret (false, sz1) else
      exec_load n ip pagetable next sz1
  end.

(** [sp -= n; sp -= sp % 16;] *)
Definition push (sp n : Z) : Z := let sp := u64 (sp - n) in sp - sp mod 16.

(** The loop that pushes the argument strings: the stack pointer and the
    array [ustack], or [None] for the jump to [bad]. *)
Fixpoint exec_args (argv : list (list Z)) (pagetable sp stackbase : Z) (ustack : list Z) : K (option (Z * list Z)) :=
  match argv with
  | [] => mret (Some (sp, ustack))
  | arg :: argv =>
      if (MAXARG <=? length ustack)%nat then mret None else
      let sp := push sp (strlen arg + 1) in
      if sp <? stackbase then mret None else
      r ← copyout pagetable sp (take (Z.to_nat (strlen arg)) arg ++ [0]) (strlen arg + 1);
      if r <? 0 then mret None else
      exec_args argv pagetable sp stackbase (ustack ++ [sp])
  end.

(** The label [bad]: [pagetable] is 0 when it is not allocated, [ip] is [None]
    once the file is closed. *)
Definition exec_bad (pagetable sz : Z) (ip : option nat) : K Z :=
  when (negb (pagetable =? 0)) (proc_freepagetable pagetable sz);;
  match ip with
  | None => mret tt
  | Some ip => iunlockput ip;; end_op
  end;;
  mret (-1).

(** From [Allocate two pages] on: the stack, the arguments and the commit. *)
Definition exec_stack (path : list Z) (argv : list (list Z)) (elf : elfhdr) (pagetable sz : Z) : K Z :=
  p ← myproc;
  oldsz ← proc_get p p_sz;
  let sz := PGROUNDUP sz in
  sz1 ← uvmalloc pagetable sz (u64 (sz + 2 * PGSIZE));
  if sz1 =? 0 then exec_bad pagetable sz None else
  let sz := sz1 in
  uvmclear pagetable (sz - 2 * PGSIZE);;
  let stackbase := sz - PGSIZE in
  a ← exec_args argv pagetable sz stackbase [];
  match a with
  | None => exec_bad pagetable sz None
  | Some (sp, ustack) =>
      let argc := Z.of_nat (length ustack) in
      if argc >=? Z.of_nat MAXARG then panic "ustack out of bounds" else
      let sp := push sp ((argc + 1) * 8) in
      if sp <? stackbase then exec_bad pagetable sz None else
      r ← copyout pagetable sp (concat (map (le_enc 8) (ustack ++ [0]))) ((argc + 1) * 8);
      if r <? 0 then exec_bad pagetable sz None else
      tf_set p TF_a1 sp;;
      upd_proc p (λ x, set_p_name (safestrcpy (p_name x) (last_elem path path) 16) x);;
      oldpagetable ← proc_get p p_pagetable;
      upd_proc p (set_p_pagetable pagetable);;
      upd_proc p (set_p_sz sz);;
      tf_set p TF_epc (e_entry elf);;
      tf_set p TF_sp sp;;
      proc_freepagetable oldpagetable oldsz;;
      mret argc
  end.

(** [argv] is the array up to its null pointer. *)
Definition exec (path : list Z) (argv : list (list Z)) : K Z :=
  p ← myproc;
  begin_op;;
  oip ← namei path;
  match oip with
  | None => end_op;; mret (-1)
  | Some ip =>
      ilock (Some ip);;
      r ← readi ip DLocal 0 SIZEOF_ELFHDR;
      if negb (r.1 =? SIZEOF_ELFHDR) then exec_bad 0 0 (Some ip) else
      let elf := dec_elf r.2 in
      if negb (e_magic elf =? ELF_MAGIC) then exec_bad 0 0 (Some ip) else
      tf ← proc_get p p_trapframe;
      pagetable ← proc_pagetable tf;
      if pagetable =? 0 then exec_bad 0 0 (Some ip) else
      l ← exec_load (Z.to_nat (e_phnum elf)) ip pagetable (i32 (e_phoff elf)) 0;
      if negb l.1 then exec_bad pagetable l.2 (Some ip) else
      iunlockput ip;;
      end_op;;
      exec_stack path argv elf pagetable l.2
  end.
End exec.
