(* ===== verification/Sysproc.v ===== *)
(** * kernel/sysproc.c and the argument fetching of kernel/syscall.c: the code

    A system call returns an integer that [syscall] converts to the 64 bits of
    register a0. *)

From S2P Require Import Prelude Memory Params State CString Sched Kalloc Vm Block Bio Log Uart Console Fs Pipe File Proc.

Section args.
Context `{KernelImage}.

(** The result and [*ip]. *)
Definition fetchaddr (addr : Z) : K (Z * Z) :=
  p ← myproc;
  sz ← proc_get p p_sz;
  if (addr >=? sz) || (u64 (addr + 8) >? sz) then mret (-1, 0) else
  pt ← proc_get p p_pagetable;
  c ← copyin pt addr 8;
  if negb (c.1 =? 0) then mret (-1, le_dec c.2) else mret (0, le_dec c.2).

(** The result and what is stored into [buf]. *)
Definition fetchstr (addr max : Z) : K (Z * list Z) :=
  p ← myproc;
  pt ← proc_get p p_pagetable;
  r ← copyinstr pt addr max;
  if r.1 <? 0 then mret r else mret (strlen r.2, r.2).

Definition argraw (n : Z) : K Z :=
  p ← myproc;
  if n =? 0 then tf_get p TF_a0
  else if n =? 1 then tf_get p TF_a1
  else if n =? 2 then tf_get p TF_a2
  else if n =? 3 then tf_get p TF_a3
  else if n =? 4 then tf_get p TF_a4
  else if n =? 5 then tf_get p TF_a5
  else panic "argraw".

(** [argint] and [argaddr] never fail: what they store. *)
Definition argint (n : Z) : K Z := a ← argraw n; mret (i32 a).
Definition argaddr (n : Z) : K Z := argraw n.
Definition argstr (n max : Z) : K (Z * list Z) := addr ← argaddr n; fetchstr addr max.
End args.

Section sysproc.
Context `{KernelImage} `{DiskRw} `{UartDev} `{WaitFuel}.

Definition sys_exit : K Z := n ← argint 0; exit n.

Definition sys_getpid : K Z := p ← myproc; proc_get p p_pid.

Definition sys_fork : K Z := fork.

Definition sys_wait : K Z := p ← argaddr 0; wait p.

(** The local variable [addr] is an [int]. *)
Definition sys_sbrk : K Z :=
  n ← argint 0;
  p ← myproc;
  addr ← proc_get p p_sz;
  r ← growproc n;
  if r <? 0 then mret (-1) else mret (i32 addr).

(** [while(ticks - ticks0 < n)]: the comparison is between [uint]s. *)
Fixpoint sys_sleep_loop (fuel : nat) (ticks0 n : Z) : K Z :=
  ticks ← gets k_ticks;
  if negb (u32 (ticks - ticks0) <? u32 n) then
    release LTicks;;
    mret 0
  else
  p ← myproc;
  killed ← proc_get p p_killed;
  if negb (killed =? 0) then
    release LTicks;;
    mret (-1)
  else
  match fuel with
  | O => out_of_fuel
  | S fuel => sleep ChTicks LTicks;; sys_sleep_loop fuel ticks0 n
  end.

Definition sys_sleep : K Z :=
  n ← argint 0;
  acquire LTicks;;
  ticks0 ← gets k_ticks;
  sys_sleep_loop wait_fuel ticks0 n.

Definition sys_kill : K Z := pid ← argint 0; kill pid.

Definition sys_uptime : K Z :=
  acquire LTicks;;
  xticks ← gets k_ticks;
  release LTicks;;
  mret xticks.
End sysproc.
