(* ===== verification/Sysfile.v ===== *)
(** * kernel/sysfile.c: the code *)

From S2P Require Import Prelude Memory Params State CString Sched Kalloc Vm Block Bio Log Uart Console Fs Pipe File Proc Exec.
From S2P Require Import Sysproc.

Section sysfile.
Context `{KernelImage} `{DiskRw} `{UartDev} `{WaitFuel}.

(** ** File descriptors *)

(** The descriptor and the file. *)
Definition argfd (n : Z) : K (option (nat * nat)) :=
  fd ← argint n;
  p ← myproc;
  if (fd <? 0) || (fd >=? Z.of_nat NOFILE) then mret None else
  fs ← proc_get p p_ofile;
  match fs !!! Z.to_nat fd with
  | None => mret None
  | Some f => mret (Some (Z.to_nat fd, f))
  end.

(** [p->ofile[fd] = f;] *)
Definition set_ofile (p fd : nat) (f : option nat) : K unit :=
  upd_proc p (λ x, set_p_ofile (<[fd := f]> (p_ofile x)) x).

Definition fdalloc (f : nat) : K Z :=
  p ← myproc;
  r ← for_find NOFILE 0 (λ fd,
    fs ← proc_get p p_ofile;
    match fs !!! Z.to_nat fd with
    | None => set_ofile p (Z.to_nat fd) (Some f);; mret (Some fd)
    | Some _ => mret None
    end);
  mret (default (-1) r).

Definition sys_dup : K Z :=
  a ← argfd 0;
  match a with
  | None => mret (-1)
  | Some (_, f) =>
      fd ← fdalloc f;
      if fd <? 0 then mret (-1) else
      _ ← filedup f;
      mret fd
  end.

Definition sys_read : K Z :=
  a ← argfd 0;
  match a with
  | None => mret (-1)
  | Some (_, f) =>
      n ← argint 2;
      p ← argaddr 1;
      fileread f p n
  end.

Definition sys_write : K Z :=
  a ← argfd 0;
  match a with
  | None => mret (-1)
  | Some (_, f) =>
      n ← argint 2;
      p ← argaddr 1;
      filewrite f p n
  end.

Definition sys_close : K Z :=
  a ← argfd 0;
  match a with
  | None => mret (-1)
  | Some (fd, f) =>
      p ← myproc;
      set_ofile p fd None;;
      fileclose f;;
      mret 0
  end.

Definition sys_fstat : K Z :=
  a ← argfd 0;
  match a with
  | None => mret (-1)
  | Some (_, f) =>
      st ← argaddr 1;
      filestat f st
  end.

(** ** Links *)

(** The label [bad] of [sys_link]. *)
Definition link_bad (ip : nat) : K Z :=
  ilock (Some ip);;
  upd_inode ip (λ x, set_i_nlink (i16 (i_nlink x - 1)) x);;
  iupdate ip;;
  iunlockput ip;;
  end_op;;
  mret (-1).

(** [sys_link] once both paths are fetched. *)
Definition link (old new : list Z) : K Z :=
  begin_op;;
  oip ← namei old;
  match oip with
  | None => end_op;; mret (-1)
  | Some ip =>
      ilock (Some ip);;
      type ← inode_get ip i_type;
      if type =? T_DIR then
        iunlockput ip;;
        end_op;;
        mret (-1)
      else
      upd_inode ip (λ x, set_i_nlink (i16 (i_nlink x + 1)) x);;
      iupdate ip;;
      iunlock (Some ip);;
      odp ← nameiparent new;
      match odp with
      | None => link_bad ip
      | Some (dp, name) =>
          ilock (Some dp);;
          ddev ← inode_get dp i_dev;
          dev ← inode_get ip i_dev;
          inum ← inode_get ip i_inum;
          r ← (if negb (ddev =? dev) then mret (-1) else dirlink dp name inum);
          if r <? 0 then
            iunlockput dp;;
            link_bad ip
          else
            iunlockput dp;;
            iput ip;;
            end_op;;
            mret 0
      end
  end.

Definition sys_link : K Z :=
  old ← argstr 0 MAXPATH;
  if old.1 <? 0 then mret (-1) else
  new ← argstr 1 MAXPATH;
  if new.1 <? 0 then mret (-1) else
  link old.2 new.2.

Fixpoint isdirempty_loop (fuel : nat) (dp : nat) (off : Z) : K bool :=
  size ← inode_get dp i_size;
  if negb (off <? size) then mret true else
  match fuel with
  | O => out_of_fuel
  | S fuel =>
      r ← readi dp DLocal off DIRENT;
      if negb (r.1 =? DIRENT) then panic "isdirempty: readi" else
      if negb (de_inum r.2 =? 0) then mret false else isdirempty_loop fuel dp (off + DIRENT)
  end.

Definition isdirempty (dp : nat) : K bool :=
  size ← inode_get dp i_size;
  isdirempty_loop (dir_fuel size) dp (2 * DIRENT).

(** The label [bad] of [sys_unlink]. *)
Definition unlink_bad (dp : nat) : K Z :=
  iunlockput dp;;
  end_op;;
  mret (-1).

(** [sys_unlink] once the path is fetched. *)
Definition unlink (path : list Z) : K Z :=
  begin_op;;
  odp ← nameiparent path;
  match odp with
  | None => end_op;; mret (-1)
  | Some (dp, name) =>
      ilock (Some dp);;
      if (namecmp name (codes ".") =? 0) || (namecmp name (codes "..") =? 0) then unlink_bad dp else
      r ← dirlookup dp name;
      match r with
      | None => unlink_bad dp
      | Some (ip, off) =>
          ilock (Some ip);;
          nlink ← inode_get ip i_nlink;
          if nlink <? 1 then panic "unlink: nlink < 1" else
          type ← inode_get ip i_type;
          empty ← (if type =? T_DIR then isdirempty ip else mret true);
          if negb empty then
            iunlockput ip;;
            unlink_bad dp
          else
          w ← writei dp (SLocal (replicate 16 0)) off DIRENT;
          if negb (w =? DIRENT) then panic "unlink: writei" else
          when (type =? T_DIR) (
            upd_inode dp (λ x, set_i_nlink (i16 (i_nlink x - 1)) x);;
            iupdate dp);;
          iunlockput dp;;
          upd_inode ip (λ x, set_i_nlink (i16 (i_nlink x - 1)) x);;
          iupdate ip;;
          iunlockput ip;;
          end_op;;
          mret 0
      end
  end.

Definition sys_unlink : K Z :=
  path ← argstr 0 MAXPATH;
  if path.1 <? 0 then mret (-1) else unlink path.2.

(** ** Creation *)

(** The inode, locked. *)
Definition create (path : list Z) (type major minor : Z) : K (option nat) :=
  odp ← nameiparent path;
  match odp with
  | None => mret None
  | Some (dp, name) =>
      ilock (Some dp);;
      r ← dirlookup dp name;
      match r with
      | Some (ip, _) =>
          iunlockput dp;;
          ilock (Some ip);;
          t ← inode_get ip i_type;
          if (type =? T_FILE) && ((t =? T_FILE) || (t =? T_DEVICE)) then mret (Some ip) else
          iunlockput ip;;
          mret None
      | None =>
          dev ← inode_get dp i_dev;
          ip ← ialloc dev type;
          ilock (Some ip);;
          upd_inode ip (λ x, set_i_nlink 1 (set_i_majmin major minor x));;
          iupdate ip;;
          inum ← inode_get ip i_inum;
          pinum ← inode_get dp i_inum;
          when (type =? T_DIR) (
            upd_inode dp (λ x, set_i_nlink (i16 (i_nlink x + 1)) x);;
            iupdate dp;;
            d1 ← dirlink ip (codes ".") inum;
            if d1 <? 0 then panic "create dots" else
            d2 ← dirlink ip (codes "..") pinum;
            if d2 <? 0 then panic "create dots" else mret tt);;
          d ← dirlink dp name inum;
          if d <? 0 then panic "create: dirlink" else
          iunlockput dp;;
          mret (Some ip)
      end
  end.

(** The inode that [sys_open] opens, locked. *)
Definition open_inode (path : list Z) (omode : Z) : K (option nat) :=
  if has omode O_CREATE then create path T_FILE 0 0 else
  oip ← namei path;
  match oip with
  | None => mret None
  | Some ip =>
      ilock (Some ip);;
      type ← inode_get ip i_type;
      if (type =? T_DIR) && negb (omode =? O_RDONLY) then
        iunlockput ip;;
        mret None
      else mret (Some ip)
  end.

(** The fields of the new file. *)
Definition open_file (f ip : nat) (omode : Z) : K unit :=
  type ← inode_get ip i_type;
  major ← inode_get ip i_major;
  (if type =? T_DEVICE then upd_file f (λ x, set_f_major major (set_f_type FD_DEVICE x))
   else upd_file f (λ x, set_f_off 0 (set_f_type FD_INODE x)));;
  upd_file f (λ x, set_f_mode (negb (has omode O_WRONLY)) (has omode O_WRONLY || has omode O_RDWR) (set_f_ip (Some ip) x)).

(** [sys_open] once its arguments are fetched. *)
Definition open (path : list Z) (omode : Z) : K Z :=
  begin_op;;
  oip ← open_inode path omode;
  match oip with
  | None => end_op;; mret (-1)
  | Some ip =>
      type ← inode_get ip i_type;
      major ← inode_get ip i_major;
      if (type =? T_DEVICE) && ((major <? 0) || (major >=? NDEV)) then
        iunlockput ip;;
        end_op;;
        mret (-1)
      else
      ofl ← filealloc;
      fd ← match ofl with None => mret (-1) | Some f => fdalloc f end;
      match ofl with
      | Some f =>
          if fd <? 0 then
            fileclose f;;
            iunlockput ip;;
            end_op;;
            mret (-1)
          else
          open_file f ip omode;;
          when (has omode O_TRUNC && (type =? T_FILE)) (itrunc ip);;
          iunlock (Some ip);;
          end_op;;
          mret fd
      | None =>
          iunlockput ip;;
          end_op;;
          mret (-1)
      end
  end.

Definition sys_open : K Z :=
  path ← argstr 0 MAXPATH;
  if path.1 <? 0 then mret (-1) else
  omode ← argint 1;
  open path.2 omode.

Definition sys_mkdir : K Z :=
  begin_op;;
  path ← argstr 0 MAXPATH;
  oip ← (if path.1 <? 0 then mret None else create path.2 T_DIR 0 0);
  match oip with
  | None => end_op;; mret (-1)
  | Some ip => iunlockput ip;; end_op;; mret 0
  end.

(** The parameters [major] and [minor] of [create] are [short]s. *)
Definition sys_mknod : K Z :=
  begin_op;;
  path ← argstr 0 MAXPATH;
  oip ← (if path.1 <? 0 then mret None else
           major ← argint 1;
           minor ← argint 2;
           create path.2 T_DEVICE (i16 major) (i16 minor));
  match oip with
  | None => end_op;; mret (-1)
  | Some ip => iunlockput ip;; end_op;; mret 0
  end.

Definition sys_chdir : K Z :=
  p ← myproc;
  begin_op;;
  path ← argstr 0 MAXPATH;
  oip ← (if path.1 <? 0 then mret None else namei path.2);
  match oip with
  | None => end_op;; mret (-1)
  | Some ip =>
      ilock (Some ip);;
      type ← inode_get ip i_type;
      if negb (type =? T_DIR) then
        iunlockput ip;;
        end_op;;
        mret (-1)
      else
      iunlock (Some ip);;
      cwd ← proc_get p p_cwd;
      match cwd with Some c => iput c | None => panic "null pointer" end;;
      end_op;;
      upd_proc p (set_p_cwd (Some ip));;
      mret 0
  end.

(** ** exec and pipe *)

(** The loop that fetches the arguments, with [n] free entries of [argv]: the
    pages allocated, and the strings in them unless the loop goes to [bad]. *)
Fixpoint fetch_argv (n : nat) (uargv i : Z) (pages : list Z) (strs : list (list Z)) : K (list Z * option (list (list Z))) :=
  match n with
  | O => mret (pages, None)
  | S n =>
      u ← fetchaddr (u64 (uargv + 8 * i));
      if u.1 <? 0 then mret (pages, None) else
      if u.2 =? 0 then mret (pages, Some strs) else
      page ← kalloc;
      if page =? 0 then mret (pages, None) else
      r ← fetchstr u.2 PGSIZE;
      put_bytes page r.2;;
      if r.1 <? 0 then mret (pages ++ [page], None) else
      fetch_argv n uargv (i + 1) (pages ++ [page]) (strs ++ [r.2])
  end.

Fixpoint free_argv (pages : list Z) : K unit :=
  match pages with
  | [] => mret tt
  | page :: pages => kfree page;; free_argv pages
  end.

Definition sys_exec : K Z :=
  path ← argstr 0 MAXPATH;
  if path.1 <? 0 then mret (-1) else
  uargv ← argaddr 1;
  a ← fetch_argv MAXARG uargv 0 [] [];
  match a.2 with
  | None => free_argv a.1;; mret (-1)
  | Some argv =>
      ret ← exec path.2 argv;
      free_argv a.1;;
      mret ret
  end.

Definition sys_pipe : K Z :=
  p ← myproc;
  fdarray ← argaddr 0;
  r ← pipealloc;
  match r with
  | None => mret (-1)
  | Some (rf, wf) =>
      fd0 ← fdalloc rf;
      fd1 ← (if fd0 <? 0 then mret (-1) else fdalloc wf);
      if (fd0 <? 0) || (fd1 <? 0) then
        when (fd0 >=? 0) (set_ofile p (Z.to_nat fd0) None);;
        fileclose rf;;
        fileclose wf;;
        mret (-1)
      else
      pt ← proc_get p p_pagetable;
      c0 ← copyout pt fdarray (le_enc 4 fd0) 4;
      c1 ← (if c0 <? 0 then mret (-1) else copyout pt (u64 (fdarray + 4)) (le_enc 4 fd1) 4);
      if (c0 <? 0) || (c1 <? 0) then
        set_ofile p (Z.to_nat fd0) None;;
        set_ofile p (Z.to_nat fd1) None;;
        fileclose rf;;
        fileclose wf;;
        mret (-1)
      else mret 0
  end.
End sysfile.
