(* ===== verification/Virtio.v ===== *)
(** * kernel/virtio.h, kernel/virtio_disk.c, kernel/plic.c: the code

    [disk_rw] is the function [virtio_disk_rw] of the driver itself; the buffer
    cache is verified against the interface [DiskRw] of Bio.v, which states
    what it promises.  The registers the device answers with and the address
    of [disk.pages] are parameters. *)

From S2P Require Import Prelude Memory Params State Sched Riscv Bio.

(** ** kernel/virtio.h *)

Definition VIRTIO_MMIO_MAGIC_VALUE : Z := 0x000.
Definition VIRTIO_MMIO_VERSION : Z := 0x004.
Definition VIRTIO_MMIO_DEVICE_ID : Z := 0x008.
Definition VIRTIO_MMIO_VENDOR_ID : Z := 0x00c.
Definition VIRTIO_MMIO_DEVICE_FEATURES : Z := 0x010.
Definition VIRTIO_MMIO_DRIVER_FEATURES : Z := 0x020.
Definition VIRTIO_MMIO_GUEST_PAGE_SIZE : Z := 0x028.
Definition VIRTIO_MMIO_QUEUE_SEL : Z := 0x030.
Definition VIRTIO_MMIO_QUEUE_NUM_MAX : Z := 0x034.
Definition VIRTIO_MMIO_QUEUE_NUM : Z := 0x038.
Definition VIRTIO_MMIO_QUEUE_PFN : Z := 0x040.
Definition VIRTIO_MMIO_QUEUE_NOTIFY : Z := 0x050.
Definition VIRTIO_MMIO_INTERRUPT_STATUS : Z := 0x060.
Definition VIRTIO_MMIO_INTERRUPT_ACK : Z := 0x064.
Definition VIRTIO_MMIO_STATUS : Z := 0x070.

Definition VIRTIO_CONFIG_S_ACKNOWLEDGE : Z := 1.
Definition VIRTIO_CONFIG_S_DRIVER : Z := 2.
Definition VIRTIO_CONFIG_S_DRIVER_OK : Z := 4.
Definition VIRTIO_CONFIG_S_FEATURES_OK : Z := 8.

Definition VIRTIO_BLK_F_RO : Z := 5.
Definition VIRTIO_BLK_F_SCSI : Z := 7.
Definition VIRTIO_BLK_F_CONFIG_WCE : Z := 11.
Definition VIRTIO_BLK_F_MQ : Z := 12.
Definition VIRTIO_F_ANY_LAYOUT : Z := 27.
Definition VIRTIO_RING_F_INDIRECT_DESC : Z := 28.
Definition VIRTIO_RING_F_EVENT_IDX : Z := 29.

Definition NUM : nat := 8.
Definition VRING_DESC_F_NEXT : Z := 1.
Definition VRING_DESC_F_WRITE : Z := 2.
Definition VIRTIO_BLK_T_IN : Z := 0.
Definition VIRTIO_BLK_T_OUT : Z := 1.
Definition SIZEOF_BLK_REQ : Z := 16.

(** ** Memory-mapped registers *)

Definition mmio_w (a v : Z) : K unit :=
  modify (λ s, let d := k_dev s in
    set_dev (mk_dev (<[a := u32 v]> (dv_mmio d)) (dv_irqs d) (pr_locking d) (panicked d) (started d)) s).

Class VirtioRegs := {
  virtio_reg : Z → Z;
  disk_pages : Z;
}.

(** [*R(r) = v] *)
Definition R_w (r v : Z) : K unit := mmio_w (VIRTIO0 + r) v.

(** ** The driver's structures *)

Definition upd_vd (f : vdisk → vdisk) : K unit := modify (λ s, set_vd (f (k_vd s)) s).
Definition vd_get {A} (f : vdisk → A) : K A := gets (λ s, f (k_vd s)).

Definition set_desc (i : nat) (d : virtq_desc) (v : vdisk) : vdisk :=
  mk_vdisk (<[i := d]> (vd_desc v)) (vd_avail_idx v) (vd_avail v) (vd_ring_idx v) (vd_ring v) (vd_free v) (vd_used_idx v)
    (vd_info_b v) (vd_status v) (vd_ops v) (vd_notify v).
Definition set_free (i : nat) (b : bool) (v : vdisk) : vdisk :=
  mk_vdisk (vd_desc v) (vd_avail_idx v) (vd_avail v) (vd_ring_idx v) (vd_ring v) (<[i := b]> (vd_free v)) (vd_used_idx v)
    (vd_info_b v) (vd_status v) (vd_ops v) (vd_notify v).
Definition set_op (i : nat) (r : virtio_blk_req) (v : vdisk) : vdisk :=
  mk_vdisk (vd_desc v) (vd_avail_idx v) (vd_avail v) (vd_ring_idx v) (vd_ring v) (vd_free v) (vd_used_idx v)
    (vd_info_b v) (vd_status v) (<[i := r]> (vd_ops v)) (vd_notify v).
Definition set_info_b (i : nat) (b : option nat) (v : vdisk) : vdisk :=
  mk_vdisk (vd_desc v) (vd_avail_idx v) (vd_avail v) (vd_ring_idx v) (vd_ring v) (vd_free v) (vd_used_idx v)
    (<[i := b]> (vd_info_b v)) (vd_status v) (vd_ops v) (vd_notify v).
Definition set_status (i : nat) (st : Z) (v : vdisk) : vdisk :=
  mk_vdisk (vd_desc v) (vd_avail_idx v) (vd_avail v) (vd_ring_idx v) (vd_ring v) (vd_free v) (vd_used_idx v)
    (vd_info_b v) (<[i := st]> (vd_status v)) (vd_ops v) (vd_notify v).
Definition set_used_idx (u : Z) (v : vdisk) : vdisk :=
  mk_vdisk (vd_desc v) (vd_avail_idx v) (vd_avail v) (vd_ring_idx v) (vd_ring v) (vd_free v) u
    (vd_info_b v) (vd_status v) (vd_ops v) (vd_notify v).

(** [disk.avail->ring[disk.avail->idx % NUM] = i;] *)
Definition put_avail (i : nat) (v : vdisk) : vdisk :=
  mk_vdisk (vd_desc v) (vd_avail_idx v) (<[Z.to_nat (vd_avail_idx v mod Z.of_nat NUM) := Z.of_nat i]> (vd_avail v))
    (vd_ring_idx v) (vd_ring v) (vd_free v) (vd_used_idx v) (vd_info_b v) (vd_status v) (vd_ops v) (vd_notify v).
(** [disk.avail->idx += 1;] *)
Definition inc_avail (v : vdisk) : vdisk :=
  mk_vdisk (vd_desc v) (u16 (vd_avail_idx v + 1)) (vd_avail v)
    (vd_ring_idx v) (vd_ring v) (vd_free v) (vd_used_idx v) (vd_info_b v) (vd_status v) (vd_ops v) (vd_notify v).
Definition inc_notify (v : vdisk) : vdisk :=
  mk_vdisk (vd_desc v) (vd_avail_idx v) (vd_avail v)
    (vd_ring_idx v) (vd_ring v) (vd_free v) (vd_used_idx v) (vd_info_b v) (vd_status v) (vd_ops v) (vd_notify v + 1).

(** [memset(disk.pages, 0, sizeof(disk.pages))]: the two rings and the
    descriptors are in these pages. *)
Definition zero_pages (v : vdisk) : vdisk :=
  mk_vdisk (replicate NUM zero_desc) 0 (replicate NUM 0) 0 (replicate NUM 0) (vd_free v) (vd_used_idx v)
    (vd_info_b v) (vd_status v) (vd_ops v) (vd_notify v).

(** [x &= ~(1 << b)] *)
Definition mask_off (x b : Z) : Z := Z.ldiff x (Z.shiftl 1 b).

Section virtio.
Context `{VirtioRegs} `{WaitFuel}.

Definition virtio_disk_init : K unit :=
  if negb (virtio_reg VIRTIO_MMIO_MAGIC_VALUE =? 0x74726976)
     || negb (virtio_reg VIRTIO_MMIO_VERSION =? 1)
     || negb (virtio_reg VIRTIO_MMIO_DEVICE_ID =? 2)
     || negb (virtio_reg VIRTIO_MMIO_VENDOR_ID =? 0x554d4551)
  then panic "could not find virtio disk" else
  let status := Z.lor 0 VIRTIO_CONFIG_S_ACKNOWLEDGE in
  R_w VIRTIO_MMIO_STATUS status;;
  let status := Z.lor status VIRTIO_CONFIG_S_DRIVER in
  R_w VIRTIO_MMIO_STATUS status;;
  let features := virtio_reg VIRTIO_MMIO_DEVICE_FEATURES in
  let features := mask_off features VIRTIO_BLK_F_RO in
  let features := mask_off features VIRTIO_BLK_F_SCSI in
  let features := mask_off features VIRTIO_BLK_F_CONFIG_WCE in
  let features := mask_off features VIRTIO_BLK_F_MQ in
  let features := mask_off features VIRTIO_F_ANY_LAYOUT in
  let features := mask_off features VIRTIO_RING_F_EVENT_IDX in
  let features := mask_off features VIRTIO_RING_F_INDIRECT_DESC in
  R_w VIRTIO_MMIO_DRIVER_FEATURES features;;
  let status := Z.lor status VIRTIO_CONFIG_S_FEATURES_OK in
  R_w VIRTIO_MMIO_STATUS status;;
  let status := Z.lor status VIRTIO_CONFIG_S_DRIVER_OK in
  R_w VIRTIO_MMIO_STATUS status;;
  R_w VIRTIO_MMIO_GUEST_PAGE_SIZE PGSIZE;;
  R_w VIRTIO_MMIO_QUEUE_SEL 0;;
  let max := virtio_reg VIRTIO_MMIO_QUEUE_NUM_MAX in
  if max =? 0 then panic "virtio disk has no queue 0" else
  if max <? Z.of_nat NUM then panic "virtio disk max queue too short" else
  R_w VIRTIO_MMIO_QUEUE_NUM (Z.of_nat NUM);;
  upd_vd zero_pages;;
  R_w VIRTIO_MMIO_QUEUE_PFN (Z.shiftr disk_pages PGSHIFT);;
  for_each NUM 0 (λ i, upd_vd (set_free (Z.to_nat i) true)).

Definition alloc_desc : K (option nat) :=
  for_find NUM 0 (λ z,
    let i := Z.to_nat z in
    f ← vd_get vd_free;
    if (f !!! i : bool) then upd_vd (set_free i false);; mret (Some i) else mret None).

Definition free_desc (i : nat) : K unit :=
  if (NUM <=? i)%nat then panic "free_desc 1" else
  f ← vd_get vd_free;
  if (f !!! i : bool) then panic "free_desc 2" else
  upd_vd (set_desc i zero_desc);;
  upd_vd (set_free i true);;
  wakeup ChDiskFree.

(** A chain that visits more than [NUM] descriptors frees one of them twice,
    which is a panic; the bound is never used up. *)
Fixpoint free_chain (fuel : nat) (i : nat) : K unit :=
  d ← vd_get (λ v, vd_desc v !!! i);
  free_desc i;;
  if has (d_flags d) VRING_DESC_F_NEXT then
    match fuel with
    | O => out_of_fuel
    | S fuel => free_chain fuel (Z.to_nat (d_next d))
    end
  else mret tt.

Fixpoint free_descs (l : list nat) : K unit :=
  match l with
  | [] => mret tt
  | i :: l => free_desc i;; free_descs l
  end.

(** The loop of [alloc3_desc] with [n] descriptors to go. *)
Fixpoint alloc3_loop (n : nat) (idx : list nat) : K (option (list nat)) :=
  match n with
  | O => mret (Some idx)
  | S n =>
      i ← alloc_desc;
      match i with
      | None => free_descs idx;; mret None
      | Some i => alloc3_loop n (idx ++ [i])
      end
  end.

Definition alloc3_desc : K (option (list nat)) := alloc3_loop 3 [].

(** [while(1){ if(alloc3_desc(idx) == 0) break; sleep(...); }] *)
Fixpoint alloc_wait (fuel : nat) : K (list nat) :=
  r ← alloc3_desc;
  match r with
  | Some idx => mret idx
  | None =>
      match fuel with
      | O => out_of_fuel
      | S fuel => sleep ChDiskFree LDisk;; alloc_wait fuel
      end
  end.

(** The three descriptors of a request. *)
Definition desc0 (i0 i1 : nat) : virtq_desc := mk_desc (DmaOp i0) SIZEOF_BLK_REQ VRING_DESC_F_NEXT (Z.of_nat i1).
Definition desc1 (b i2 : nat) (write : bool) : virtq_desc :=
  mk_desc (DmaBuf b) BSIZE (Z.lor (if write then 0 else VRING_DESC_F_WRITE) VRING_DESC_F_NEXT) (Z.of_nat i2).
Definition desc2 (i0 : nat) : virtq_desc := mk_desc (DmaStatus i0) 1 VRING_DESC_F_WRITE 0.

(** From the formatting of the descriptors to the notification. *)
Definition disk_submit (b : nat) (write : bool) (i0 i1 i2 : nat) : K unit :=
  bno ← buf_get b b_blockno;
  upd_vd (set_op i0 (mk_req (if write then VIRTIO_BLK_T_OUT else VIRTIO_BLK_T_IN) (u32 (bno * (BSIZE / 512)))));;
  upd_vd (set_desc i0 (desc0 i0 i1));;
  upd_vd (set_desc i1 (desc1 b i2 write));;
  upd_vd (set_status i0 0xff);;
  upd_vd (set_desc i2 (desc2 i0));;
  upd_buf b (set_b_disk true);;
  upd_vd (set_info_b i0 (Some b));;
  upd_vd (put_avail i0);;
  upd_vd inc_avail;;
  upd_vd inc_notify;;
  R_w VIRTIO_MMIO_QUEUE_NOTIFY 0.

(** [while(b->disk == 1) sleep(b, &disk.vdisk_lock);] *)
Fixpoint disk_wait (fuel : nat) (b : nat) : K unit :=
  busy ← buf_get b b_disk;
  if negb busy then mret tt else
  match fuel with
  | O => out_of_fuel
  | S fuel => sleep (ChDiskBuf b) LDisk;; disk_wait fuel b
  end.

Definition disk_rw (b : nat) (write : bool) : K unit :=
  acquire LDisk;;
  idx ← alloc_wait wait_fuel;
  match idx with
  | [i0; i1; i2] =>
      disk_submit b write i0 i1 i2;;
      disk_wait wait_fuel b;;
      upd_vd (set_info_b i0 None);;
      free_chain NUM i0;;
      release LDisk
  | _ => panic "alloc3_desc"
  end.

(** [while(disk.used_idx != disk.used->idx)], bounded by the number of
    entries between the two indices. *)
Fixpoint intr_loop (fuel : nat) : K unit :=
  v ← vd_get id;
  if vd_used_idx v =? vd_ring_idx v then mret tt else
  match fuel with
  | O => out_of_fuel
  | S fuel =>
      let i := Z.to_nat (vd_ring v !!! Z.to_nat (vd_used_idx v mod Z.of_nat NUM)) in
      if negb (vd_status v !!! i =? 0) then panic "virtio_disk_intr status" else
      match vd_info_b v !!! i with
      | None => panic "null pointer"
      | Some b =>
          upd_buf b (set_b_disk false);;
          wakeup (ChDiskBuf b);;
          upd_vd (set_used_idx (u16 (vd_used_idx v + 1)));;
          intr_loop fuel
      end
  end.

Definition virtio_disk_intr : K unit :=
  acquire LDisk;;
  R_w VIRTIO_MMIO_INTERRUPT_ACK (Z.land (virtio_reg VIRTIO_MMIO_INTERRUPT_STATUS) 0x3);;
  v ← vd_get id;
  intr_loop (Z.to_nat (u16 (vd_ring_idx v - vd_used_idx v)));;
  release LDisk.
End virtio.

(** ** kernel/plic.c *)

Definition PLIC_SENABLE (hart : Z) : Z := PLIC + 0x2080 + hart * 0x100.
Definition PLIC_SPRIORITY (hart : Z) : Z := PLIC + 0x201000 + hart * 0x2000.
Definition PLIC_SCLAIM (hart : Z) : Z := PLIC + 0x201004 + hart * 0x2000.

Definition plicinit : K unit :=
  mmio_w (PLIC + UART0_IRQ * 4) 1;;
  mmio_w (PLIC + VIRTIO0_IRQ * 4) 1.

Definition plicinithart : K unit :=
  hart ← cpuid;
  mmio_w (PLIC_SENABLE hart) (Z.lor (Z.shiftl 1 UART0_IRQ) (Z.shiftl 1 VIRTIO0_IRQ));;
  mmio_w (PLIC_SPRIORITY hart) 0.

(** Reading the claim register takes the next pending interrupt, 0 if there
    is none. *)
Definition plic_claim : K Z :=
  hart ← cpuid;
  irqs ← gets (λ s, dv_irqs (k_dev s));
  modify (λ s, let d := k_dev s in
    set_dev (mk_dev (dv_mmio d) (tl irqs) (pr_locking d) (panicked d) (started d)) s);;
  mret (hd 0 irqs).

Definition plic_complete (irq : Z) : K unit :=
  hart ← cpuid;
  mmio_w (PLIC_SCLAIM hart) irq.
