(* ===== verification/Trap.v ===== *)
(** * kernel/syscall.c, kernel/trap.c, forkret of kernel/proc.c: the code *)

From S2P Require Import Prelude Memory Params State CString Sched Riscv Kalloc Vm Block Bio Log Uart Console Fs Pipe File Proc.
From S2P Require Import Exec Sysproc Sysfile Virtio.

(** ** kernel/syscall.h *)

Definition SYS_fork : Z := 1.
Definition SYS_exit : Z := 2.
Definition SYS_wait : Z := 3.
Definition SYS_pipe : Z := 4.
Definition SYS_read : Z := 5.
Definition SYS_kill : Z := 6.
Definition SYS_exec : Z := 7.
Definition SYS_fstat : Z := 8.
Definition SYS_chdir : Z := 9.
Definition SYS_dup : Z := 10.
Definition SYS_getpid : Z := 11.
Definition SYS_sbrk : Z := 12.
Definition SYS_sleep : Z := 13.
Definition SYS_uptime : Z := 14.
Definition SYS_open : Z := 15.
Definition SYS_write : Z := 16.
Definition SYS_mknod : Z := 17.
Definition SYS_unlink : Z := 18.
Definition SYS_link : Z := 19.
Definition SYS_mkdir : Z := 20.
Definition SYS_close : Z := 21.

(** The jump to [userret]: its address and its two arguments. *)
Record user_return : Type := mk_user_return { ur_fn : Z; ur_trapframe : Z; ur_satp : Z }.

Definition upd_ticks (f : Z → Z) : K unit := modify (λ s, set_ticks (f (k_ticks s)) s).
Definition set_first (b : bool) (s : kst) : kst :=
  let q := k_proc s in
  set_proc (mk_pstate (ps_procs q) (ps_cur q) (ps_initproc q) (ps_nextpid q) b) s.

(** printf's formats end with a newline. *)
Definition fmt_line (s : string) : string := String.append s newline.

Section trap.
Context `{KernelImage} `{DiskRw} `{UartDev} `{WaitFuel} `{VirtioRegs}.

(** ** kernel/syscall.c *)

Definition syscalls (num : Z) : option (K Z) :=
  if num =? SYS_fork then Some sys_fork
  else if num =? SYS_exit then Some sys_exit
  else if num =? SYS_wait then Some sys_wait
  else if num =? SYS_pipe then Some sys_pipe
  else if num =? SYS_read then Some sys_read
  else if num =? SYS_kill then Some sys_kill
  else if num =? SYS_exec then Some sys_exec
  else if num =? SYS_fstat then Some sys_fstat
  else if num =? SYS_chdir then Some sys_chdir
  else if num =? SYS_dup then Some sys_dup
  else if num =? SYS_getpid then Some sys_getpid
  else if num =? SYS_sbrk then Some sys_sbrk
  else if num =? SYS_sleep then Some sys_sleep
  else if num =? SYS_uptime then Some sys_uptime
  else if num =? SYS_open then Some sys_open
  else if num =? SYS_write then Some sys_write
  else if num =? SYS_mknod then Some sys_mknod
  else if num =? SYS_unlink then Some sys_unlink
  else if num =? SYS_link then Some sys_link
  else if num =? SYS_mkdir then Some sys_mkdir
  else if num =? SYS_close then Some sys_close
  else None.

(** The bounds test before the table is read is part of [syscalls]: it has an
    entry exactly at the numbers 1 to 21. *)
Definition syscall : K unit :=
  p ← myproc;
  a7 ← tf_get p TF_a7;
  let num := i32 a7 in
  match syscalls num with
  | Some f =>
      r ← f;
      tf_set p TF_a0 (u64 r)
  | None =>
      pid ← proc_get p p_pid;
      name ← proc_get p p_name;
      printf (fmt_line "%d %s: unknown sys call %d") [PInt pid; PStr (Some (cstr name)); PInt num];;
      tf_set p TF_a0 (u64 (-1))
  end.

(** ** kernel/trap.c *)

(** [initlock] of the clock's lock. *)
Definition trapinit : K unit := mret tt.
Definition trapinithart : K unit := w_stvec kernelvec_addr.

Definition clockintr : K unit :=
  acquire LTicks;;
  upd_ticks (λ t, u32 (t + 1));;
  wakeup ChTicks;;
  release LTicks.

Definition devintr : K Z :=
  scause ← r_scause;
  if negb (Z.land scause 0x8000000000000000 =? 0) && (Z.land scause 0xff =? 9) then
    irq ← plic_claim;
    (if irq =? UART0_IRQ then uartintr
     else if irq =? VIRTIO0_IRQ then virtio_disk_intr
     else when (negb (irq =? 0)) (printf (fmt_line "unexpected interrupt irq=%d") [PInt irq]));;
    when (negb (irq =? 0)) (plic_complete irq);;
    mret 1
  else if scause =? 0x8000000000000001 then
    id ← cpuid;
    when (id =? 0) clockintr;;
    sip ← r_sip;
    w_sip (Z.ldiff sip 2);;
    mret 2
  else mret 0.

Definition usertrapret : K user_return :=
  p ← myproc;
  intr_off;;
  w_stvec (TRAMPOLINE + (uservec_addr - trampoline));;
  satp ← r_satp;
  tf_set p TF_kernel_satp satp;;
  kstack ← proc_get p p_kstack;
  tf_set p TF_kernel_sp (u64 (kstack + PGSIZE));;
  tf_set p TF_kernel_trap usertrap_addr;;
  hart ← r_tp;
  tf_set p TF_kernel_hartid hart;;
  x ← r_sstatus;
  w_sstatus (Z.lor (Z.ldiff x SSTATUS_SPP) SSTATUS_SPIE);;
  epc ← tf_get p TF_epc;
  w_sepc epc;;
  pt ← proc_get p p_pagetable;
  mret (mk_user_return (TRAMPOLINE + (userret_addr - trampoline)) TRAPFRAME (MAKE_SATP pt)).

Definition usertrap : K user_return :=
  sstatus ← r_sstatus;
  if negb (Z.land sstatus SSTATUS_SPP =? 0) then panic "usertrap: not from user mode" else
  w_stvec kernelvec_addr;;
  p ← myproc;
  sepc ← r_sepc;
  tf_set p TF_epc sepc;;
  scause ← r_scause;
  which_dev ← (if scause =? 8 then
      killed ← proc_get p p_killed;
      when (negb (killed =? 0)) (exit (-1));;
      epc ← tf_get p TF_epc;
      tf_set p TF_epc (u64 (epc + 4));;
      intr_on;;
      syscall;;
      mret 0
    else
      d ← devintr;
      if negb (d =? 0) then mret d else
      pid ← proc_get p p_pid;
      printf (fmt_line "usertrap(): unexpected scause %p pid=%d") [PPtr scause; PInt pid];;
      stval ← r_stval;
      printf (fmt_line "            sepc=%p stval=%p") [PPtr sepc; PPtr stval];;
      upd_proc p (set_p_killed 1);;
      mret 0);
  killed ← proc_get p p_killed;
  when (negb (killed =? 0)) (exit (-1));;
  when (which_dev =? 2) yield;;
  usertrapret.

Definition kerneltrap : K unit :=
  sepc ← r_sepc;
  sstatus ← r_sstatus;
  scause ← r_scause;
  if Z.land sstatus SSTATUS_SPP =? 0 then panic "kerneltrap: not from supervisor mode" else
  on ← intr_get;
  if on : bool then panic "kerneltrap: interrupts enabled" else
  which_dev ← devintr;
  (if which_dev =? 0 then
     printf (fmt_line "scause %p") [PPtr scause];;
     stval ← r_stval;
     printf (fmt_line "sepc=%p stval=%p") [PPtr sepc; PPtr stval];;
     panic "kerneltrap"
   else mret tt);;
  p ← myproc;
  st ← proc_get p p_state;
  when ((which_dev =? 2) && negb (p =? NOPROC)%nat && bool_decide (st = RUNNING)) yield;;
  w_sepc sepc;;
  w_sstatus sstatus.

(** ** kernel/proc.c: the first return of a process to user space *)

Definition forkret : K user_return :=
  p ← myproc;
  release (LProc p);;
  first ← gets (λ s, ps_first (k_proc s));
  when first (
    modify (set_first false);;
    fsinit ROOTDEV);;
  usertrapret.
End trap.
