(* ===== verification/Boot.v ===== *)
(** * kernel/start.c and kernel/main.c: the code

    [start] runs in machine mode, before there is a kernel state: it works on
    the registers of a hart.  [main] then runs on the kernel's state. *)

From S2P Require Import Prelude Memory Params State Sched Riscv Kalloc Vm Block Bio Log Uart Console Fs Pipe File Proc.
From S2P Require Import Exec Sysproc Sysfile Virtio Trap.

(** ** Machine mode: kernel/riscv.h, kernel/memlayout.h *)

Definition MSTATUS_MPP_MASK : Z := Z.shiftl 3 11.
Definition MSTATUS_MPP_S : Z := Z.shiftl 1 11.
Definition MSTATUS_MIE : Z := Z.shiftl 1 3.
Definition SIE_SEIE : Z := Z.shiftl 1 9.
Definition SIE_STIE : Z := Z.shiftl 1 5.
Definition SIE_SSIE : Z := Z.shiftl 1 1.
Definition MIE_MTIE : Z := Z.shiftl 1 7.
Definition CLINT_MTIMECMP (hartid : Z) : Z := CLINT + 0x4000 + 8 * hartid.

(** The registers of a hart, its privilege mode and program counter, and the
    timer: the time and the hart's compare register. *)
Record hart : Type := mk_hart {
  h_mhartid : Z; h_mstatus : Z; h_mepc : Z; h_satp : Z; h_medeleg : Z; h_mideleg : Z; h_sie : Z;
  h_pmpaddr0 : Z; h_pmpcfg0 : Z; h_mscratch : Z; h_mtvec : Z; h_mie : Z; h_tp : Z;
  h_mtime : Z; h_mtimecmp : Z; h_scratch : list Z; h_mode : Z; h_pc : Z
}.

Abbreviation H := (M hart).

Definition w_mstatus (x : Z) : H unit := modify (λ h, mk_hart (h_mhartid h) x (h_mepc h) (h_satp h) (h_medeleg h) (h_mideleg h) (h_sie h) (h_pmpaddr0 h) (h_pmpcfg0 h) (h_mscratch h) (h_mtvec h) (h_mie h) (h_tp h) (h_mtime h) (h_mtimecmp h) (h_scratch h) (h_mode h) (h_pc h)).
Definition w_mepc (x : Z) : H unit := modify (λ h, mk_hart (h_mhartid h) (h_mstatus h) x (h_satp h) (h_medeleg h) (h_mideleg h) (h_sie h) (h_pmpaddr0 h) (h_pmpcfg0 h) (h_mscratch h) (h_mtvec h) (h_mie h) (h_tp h) (h_mtime h) (h_mtimecmp h) (h_scratch h) (h_mode h) (h_pc h)).
Definition w_hsatp (x : Z) : H unit := modify (λ h, mk_hart (h_mhartid h) (h_mstatus h) (h_mepc h) x (h_medeleg h) (h_mideleg h) (h_sie h) (h_pmpaddr0 h) (h_pmpcfg0 h) (h_mscratch h) (h_mtvec h) (h_mie h) (h_tp h) (h_mtime h) (h_mtimecmp h) (h_scratch h) (h_mode h) (h_pc h)).
Definition w_medeleg (x : Z) : H unit := modify (λ h, mk_hart (h_mhartid h) (h_mstatus h) (h_mepc h) (h_satp h) x (h_mideleg h) (h_sie h) (h_pmpaddr0 h) (h_pmpcfg0 h) (h_mscratch h) (h_mtvec h) (h_mie h) (h_tp h) (h_mtime h) (h_mtimecmp h) (h_scratch h) (h_mode h) (h_pc h)).
Definition w_mideleg (x : Z) : H unit := modify (λ h, mk_hart (h_mhartid h) (h_mstatus h) (h_mepc h) (h_satp h) (h_medeleg h) x (h_sie h) (h_pmpaddr0 h) (h_pmpcfg0 h) (h_mscratch h) (h_mtvec h) (h_mie h) (h_tp h) (h_mtime h) (h_mtimecmp h) (h_scratch h) (h_mode h) (h_pc h)).
Definition w_sie (x : Z) : H unit := modify (λ h, mk_hart (h_mhartid h) (h_mstatus h) (h_mepc h) (h_satp h) (h_medeleg h) (h_mideleg h) x (h_pmpaddr0 h) (h_pmpcfg0 h) (h_mscratch h) (h_mtvec h) (h_mie h) (h_tp h) (h_mtime h) (h_mtimecmp h) (h_scratch h) (h_mode h) (h_pc h)).
Definition w_pmpaddr0 (x : Z) : H unit := modify (λ h, mk_hart (h_mhartid h) (h_mstatus h) (h_mepc h) (h_satp h) (h_medeleg h) (h_mideleg h) (h_sie h) x (h_pmpcfg0 h) (h_mscratch h) (h_mtvec h) (h_mie h) (h_tp h) (h_mtime h) (h_mtimecmp h) (h_scratch h) (h_mode h) (h_pc h)).
Definition w_pmpcfg0 (x : Z) : H unit := modify (λ h, mk_hart (h_mhartid h) (h_mstatus h) (h_mepc h) (h_satp h) (h_medeleg h) (h_mideleg h) (h_sie h) (h_pmpaddr0 h) x (h_mscratch h) (h_mtvec h) (h_mie h) (h_tp h) (h_mtime h) (h_mtimecmp h) (h_scratch h) (h_mode h) (h_pc h)).
Definition w_mscratch (x : Z) : H unit := modify (λ h, mk_hart (h_mhartid h) (h_mstatus h) (h_mepc h) (h_satp h) (h_medeleg h) (h_mideleg h) (h_sie h) (h_pmpaddr0 h) (h_pmpcfg0 h) x (h_mtvec h) (h_mie h) (h_tp h) (h_mtime h) (h_mtimecmp h) (h_scratch h) (h_mode h) (h_pc h)).
Definition w_mtvec (x : Z) : H unit := modify (λ h, mk_hart (h_mhartid h) (h_mstatus h) (h_mepc h) (h_satp h) (h_medeleg h) (h_mideleg h) (h_sie h) (h_pmpaddr0 h) (h_pmpcfg0 h) (h_mscratch h) x (h_mie h) (h_tp h) (h_mtime h) (h_mtimecmp h) (h_scratch h) (h_mode h) (h_pc h)).
Definition w_mie (x : Z) : H unit := modify (λ h, mk_hart (h_mhartid h) (h_mstatus h) (h_mepc h) (h_satp h) (h_medeleg h) (h_mideleg h) (h_sie h) (h_pmpaddr0 h) (h_pmpcfg0 h) (h_mscratch h) (h_mtvec h) x (h_tp h) (h_mtime h) (h_mtimecmp h) (h_scratch h) (h_mode h) (h_pc h)).
Definition w_tp (x : Z) : H unit := modify (λ h, mk_hart (h_mhartid h) (h_mstatus h) (h_mepc h) (h_satp h) (h_medeleg h) (h_mideleg h) (h_sie h) (h_pmpaddr0 h) (h_pmpcfg0 h) (h_mscratch h) (h_mtvec h) (h_mie h) x (h_mtime h) (h_mtimecmp h) (h_scratch h) (h_mode h) (h_pc h)).
Definition w_mtimecmp (x : Z) : H unit := modify (λ h, mk_hart (h_mhartid h) (h_mstatus h) (h_mepc h) (h_satp h) (h_medeleg h) (h_mideleg h) (h_sie h) (h_pmpaddr0 h) (h_pmpcfg0 h) (h_mscratch h) (h_mtvec h) (h_mie h) (h_tp h) (h_mtime h) x (h_scratch h) (h_mode h) (h_pc h)).
Definition w_scratch (i : nat) (x : Z) : H unit := modify (λ h, mk_hart (h_mhartid h) (h_mstatus h) (h_mepc h) (h_satp h) (h_medeleg h) (h_mideleg h) (h_sie h) (h_pmpaddr0 h) (h_pmpcfg0 h) (h_mscratch h) (h_mtvec h) (h_mie h) (h_tp h) (h_mtime h) (h_mtimecmp h) (<[i := x]> (h_scratch h)) (h_mode h) (h_pc h)).

Definition r_mstatus : H Z := gets h_mstatus.
Definition r_mhartid : H Z := gets h_mhartid.
Definition r_sie : H Z := gets h_sie.
Definition r_mie : H Z := gets h_mie.

(** The instruction [mret]: the mode and the program counter are those that
    mstatus.MPP and mepc hold. *)
Definition mret_insn : H unit := modify (λ h,
  mk_hart (h_mhartid h) (h_mstatus h) (h_mepc h) (h_satp h) (h_medeleg h) (h_mideleg h) (h_sie h) (h_pmpaddr0 h) (h_pmpcfg0 h) (h_mscratch h) (h_mtvec h) (h_mie h) (h_tp h) (h_mtime h) (h_mtimecmp h) (h_scratch h) (Z.land (Z.shiftr (h_mstatus h) 11) 3) (h_mepc h)).

(** The addresses of [main], [timervec] and [timer_scratch]. *)
Class StartImage := { main_addr : Z; timervec_addr : Z; timer_scratch : Z }.

Section start.
Context `{StartImage}.

Definition timerinit : H unit :=
  id ← r_mhartid;
  let interval := 1000000 in
  mtime ← gets h_mtime;
  w_mtimecmp (u64 (mtime + interval));;
  w_scratch 3 (CLINT_MTIMECMP id);;
  w_scratch 4 interval;;
  w_mscratch (timer_scratch + 40 * id);;
  w_mtvec timervec_addr;;
  x ← r_mstatus;
  w_mstatus (Z.lor x MSTATUS_MIE);;
  x ← r_mie;
  w_mie (Z.lor x MIE_MTIE).

Definition start : H unit :=
  x ← r_mstatus;
  w_mstatus (Z.lor (Z.ldiff x MSTATUS_MPP_MASK) MSTATUS_MPP_S);;
  w_mepc main_addr;;
  w_hsatp 0;;
  w_medeleg 0xffff;;
  w_mideleg 0xffff;;
  sie ← r_sie;
  w_sie (Z.lor (Z.lor (Z.lor sie SIE_SEIE) SIE_STIE) SIE_SSIE);;
  w_pmpaddr0 0x3fffffffffffff;;
  w_pmpcfg0 0xf;;
  timerinit;;
  id ← r_mhartid;
  w_tp id;;
  mret_insn.
End start.

(** ** kernel/main.c *)

Definition set_started (b : bool) (d : devstate) : devstate :=
  mk_dev (dv_mmio d) (dv_irqs d) (pr_locking d) (panicked d) b.

Section main.
Context `{KernelImage} `{DiskRw} `{UartDev} `{WaitFuel} `{VirtioRegs}.

(** The calls of the first hart before it enters the scheduler. *)
Definition main_hart0 : K unit :=
  consoleinit;;
  printfinit;;
  printf newline [];;
  printf (fmt_line "xv6 kernel is booting") [];;
  printf newline [];;
  kinit;;
  kvminit;;
  kvminithart;;
  procinit;;
  trapinit;;
  trapinithart;;
  plicinit;;
  plicinithart;;
  binit;;
  iinit;;
  fileinit;;
  virtio_disk_init;;
  userinit;;
  modify (λ s, set_dev (set_started true (k_dev s)) s).

(** The other harts wait for the flag; no other hart runs in this model, so
    that an unset flag stays unset. *)
Definition main_other : K unit :=
  go ← gets (λ s, started (k_dev s));
  if negb go then spin else
  id ← cpuid;
  printf (fmt_line "hart %d starting") [PInt id];;
  kvminithart;;
  trapinithart;;
  plicinithart.

Definition main (rounds : nat) : K unit :=
  id ← cpuid;
  (if id =? 0 then main_hart0 else main_other);;
  scheduler rounds.
End main.
