(* ===== verification/PipeSpec.v ===== *)
(** * Pipes: the ring buffer refines a queue *)

From S2P Require Import Prelude Memory Params State CString Sched Kalloc Vm PageTable VmMap Uvm UvmAlloc UvmCopy VmExample.
From S2P Require Import Pipe.

(** * Ring buffers

    The pipe, the console input and the UART output are arrays of [N] bytes
    with two counters that grow past [N] and are reduced modulo [N] at every
    access.  [ring d r n] is the sequence of [n] bytes from counter [r] on. *)

Definition ring (N : Z) (d : list Z) (r : Z) (n : nat) : list Z :=
  map (λ k, d !!! Z.to_nat ((r + Z.of_nat k) mod N)) (seq 0 n).

Section ring.
Context (N : Z) (HN : 0 < N).
Implicit Types (d : list Z) (r w : Z) (n : nat).

Lemma length_ring d r n : length (ring N d r n) = n.
Proof. unfold ring. by rewrite length_map, length_seq. Qed.

(** The counter matters modulo [N] only; a machine counter wraps at a multiple
    of [N]. *)
Lemma ring_wrap M d r n : (N | M) → 0 < M → ring N d (r mod M) n = ring N d r n.
Proof.
  intros [q ->] HM. unfold ring. apply map_ext. intros k. do 2 f_equal.
  rewrite (Z.mod_eq r (q * N)) by lia.
  replace (r - q * N * (r / (q * N)) + Z.of_nat k) with (r + Z.of_nat k + (- (q * (r / (q * N)))) * N) by ring.
  by rewrite Z.mod_add by lia.
Qed.

(** Reading the first byte. *)
Lemma ring_get d r n : ring N d r (S n) = d !!! Z.to_nat (r mod N) :: ring N d (r + 1) n.
Proof.
  unfold ring. cbn [seq map]. rewrite Z.add_0_r. f_equal.
  rewrite <- seq_shift, map_map. apply map_ext. intros k. do 3 f_equal. lia.
Qed.

Lemma ring_index_ne r i j :
  0 <= i < N → 0 <= j < N → i ≠ j → (r + i) mod N ≠ (r + j) mod N.
Proof.
  intros Hi Hj Hne E.
  assert (D : (i - j) mod N = 0).
  { replace (i - j) with ((r + i) - (r + j)) by ring. rewrite Zminus_mod, E, Z.sub_diag. apply Z.mod_0_l. lia. }
  apply Z.mod_divide in D as [q Hq]; [|lia].
  assert (-1 < q < 1) by nia. assert (q = 0) by lia. subst q. lia.
Qed.

(** Writing behind the last byte. *)
Lemma ring_put d r n c :
  Z.of_nat (length d) = N → Z.of_nat n < N →
  ring N (<[Z.to_nat ((r + Z.of_nat n) mod N) := c]> d) r (S n) = ring N d r n ++ [c].
Proof.
  intros Hd Hn. unfold ring. rewrite seq_S, map_app. cbn [map]. rewrite Nat.add_0_l.
  pose proof (Z.mod_pos_bound (r + Z.of_nat n) N HN).
  f_equal.
  - apply map_ext_in. intros k Hk%in_seq. apply list_lookup_total_insert_ne.
    pose proof (ring_index_ne r (Z.of_nat n) (Z.of_nat k) ltac:(lia) ltac:(lia) ltac:(lia)).
    pose proof (Z.mod_pos_bound (r + Z.of_nat k) N HN). lia.
  - f_equal. apply list_lookup_total_insert_eq. lia.
Qed.
End ring.

(** * Pipes: the ring buffer refines a queue

    [pipe_q] is the sequence of bytes in flight.  [pipewrite] appends to it
    the bytes of the writer's memory, [piperead] moves its first bytes to the
    reader's memory. *)

(** ** The queue in a pipe *)

Definition pipe_len (p : pipe) : Z := u32 (pi_nwrite p - pi_nread p).
Definition pipe_q (p : pipe) : list Z := ring PIPESIZE (pi_data p) (pi_nread p) (Z.to_nat (pipe_len p)).

Record pipe_wf (p : pipe) : Prop := {
  pw_data : Z.of_nat (length (pi_data p)) = PIPESIZE;
  pw_read : 0 <= pi_nread p < 2 ^ 32;
  pw_write : 0 <= pi_nwrite p < 2 ^ 32;
  pw_len : pipe_len p <= PIPESIZE;
}.

Lemma pipe_q_length p : Z.of_nat (length (pipe_q p)) = pipe_len p.
Proof. unfold pipe_q. rewrite length_ring. pose proof (u32_bound (pi_nwrite p - pi_nread p)). unfold pipe_len. lia. Qed.

(** The counters differ by the length modulo 2^32. *)
Lemma pipe_len_cases p :
  pipe_wf p → pi_nwrite p = pi_nread p + pipe_len p ∨ pi_nwrite p = pi_nread p + pipe_len p - 2 ^ 32.
Proof.
  intros [_ Hr Hw _]. unfold pipe_len, u32. destruct (decide (pi_nread p <= pi_nwrite p)).
  - left. rewrite Z.mod_small by lia. lia.
  - right. rewrite <- (Z.mod_add _ 1) by lia. rewrite Z.mod_small; lia.
Qed.

Lemma pipe_len_nonneg p : 0 <= pipe_len p.
Proof. apply u32_bound. Qed.

Lemma u32_idem x y : 0 <= x < 2 ^ 32 → (y = x ∨ y = x + 2 ^ 32 ∨ y = x - 2 ^ 32) → u32 y = x.
Proof.
  intros Hx Hy. unfold u32. destruct Hy as [-> | [-> | ->] ].
  - by apply Z.mod_small.
  - rewrite <- (Z.mod_add _ (-1)) by lia. rewrite Z.mod_small; lia.
  - rewrite <- (Z.mod_add _ 1) by lia. rewrite Z.mod_small; lia.
Qed.

Lemma pipe_full_q p : pipe_wf p → pipe_full p = bool_decide (Z.of_nat (length (pipe_q p)) = PIPESIZE).
Proof.
  intros Hp. rewrite pipe_q_length. unfold pipe_full.
  destruct (pipe_len_cases p Hp) as [E|E]; destruct Hp as [_ Hr Hw Hl]; pose proof (pipe_len_nonneg p);
    unfold PIPESIZE in *; case_bool_decide as Hf.
  all: apply Z.eqb_eq || apply Z.eqb_neq; unfold u32.
  all: destruct (decide (pi_nread p + 512 < 2 ^ 32)) as [Hs|Hs].
  all: first [rewrite Z.mod_small by lia|rewrite <- (Z.mod_add _ (-1)) by lia; rewrite Z.mod_small by lia].
  all: lia.
Qed.

Lemma pipe_empty_q p : pipe_wf p → pipe_empty p = bool_decide (pipe_q p = []).
Proof.
  intros Hp. pose proof (pipe_q_length p) as Hl. unfold pipe_empty.
  destruct (pipe_len_cases p Hp) as [E|E]; destruct Hp as [_ Hr Hw Hk]; pose proof (pipe_len_nonneg p);
    unfold PIPESIZE in *; case_bool_decide as Hf;
    (apply Z.eqb_eq || apply Z.eqb_neq); try rewrite Hf in Hl; cbn [length] in Hl; try lia.
  intros Heq. apply Hf, nil_length_inv. lia.
Qed.

Lemma pipe_put_q p c :
  pipe_wf p → Z.of_nat (length (pipe_q p)) < PIPESIZE →
  pipe_wf (pipe_put c p) ∧ pipe_q (pipe_put c p) = pipe_q p ++ [c].
Proof.
  intros Hp Hlt. rewrite pipe_q_length in Hlt. pose proof (pipe_len_nonneg p).
  assert (Hlen : pipe_len (pipe_put c p) = pipe_len p + 1).
  { unfold pipe_len at 1. cbn [pi_nwrite pi_nread pipe_put]. pose proof (u32_bound (pi_nwrite p + 1)).
    destruct (pipe_len_cases p Hp) as [E|E]; destruct Hp as [_ Hr Hw Hl]; unfold PIPESIZE in *.
    all: destruct (decide (pi_nwrite p + 1 < 2 ^ 32)) as [Hs|Hs].
    all: first [rewrite (u32_small (pi_nwrite p + 1)) by lia|rewrite (u32_idem 0 (pi_nwrite p + 1)) by lia].
    all: apply u32_idem; lia. }
  split.
  - destruct Hp as [Hd Hr Hw Hl]. split; cbn [pi_data pi_nread pi_nwrite pipe_put];
      [by rewrite length_insert|done|apply u32_bound|unfold PIPESIZE in *; lia].
  - unfold pipe_q. rewrite Hlen. cbn [pi_data pi_nread pipe_put].
    replace (Z.to_nat (pipe_len p + 1)) with (S (Z.to_nat (pipe_len p))) by lia.
    rewrite <- (ring_put PIPESIZE) by (unfold PIPESIZE in *; apply Hp || lia). do 3 f_equal.
    rewrite Z2Nat.id by lia. destruct (pipe_len_cases p Hp) as [->| ->]; [done|].
    unfold PIPESIZE. change (2 ^ 32) with (8388608 * 512).
    replace (pi_nread p + pipe_len p - 8388608 * 512) with (pi_nread p + pipe_len p + (-8388608) * 512) by lia.
    by rewrite Z.mod_add.
Qed.

Lemma pipe_get_q p :
  pipe_wf p → pipe_q p ≠ [] →
  pipe_wf (pipe_skip p) ∧ pipe_q p = pipe_peek p :: pipe_q (pipe_skip p).
Proof.
  intros Hp Hne. assert (0 < pipe_len p) as Hpos.
  { rewrite <- pipe_q_length. destruct (pipe_q p); [done|]. simpl. lia. }
  assert (Hlen : pipe_len (pipe_skip p) = pipe_len p - 1).
  { unfold pipe_len at 1. cbn [pi_nwrite pi_nread pipe_skip].
    destruct (pipe_len_cases p Hp) as [E|E]; destruct Hp as [_ Hr Hw Hl]; unfold PIPESIZE in *.
    all: destruct (decide (pi_nread p + 1 < 2 ^ 32)) as [Hs|Hs].
    all: first [rewrite (u32_small (pi_nread p + 1)) by lia|rewrite (u32_idem 0 (pi_nread p + 1)) by lia].
    all: apply u32_idem; lia. }
  split.
  - destruct Hp as [Hd Hr Hw Hl]. split; cbn [pi_data pi_nread pi_nwrite pipe_skip]; [done|apply u32_bound|done|lia].
  - unfold pipe_q. rewrite Hlen. cbn [pi_data pi_nread pipe_skip].
    replace (Z.to_nat (pipe_len p)) with (S (Z.to_nat (pipe_len p - 1))) by lia.
    rewrite ring_get. f_equal. symmetry. apply ring_wrap; [unfold PIPESIZE; lia|by exists 8388608|lia].
Qed.

(** ** The operations *)

Lemma get_put_pipe pi p s : get_pipe pi (put_pipe pi p s) = p.
Proof. unfold get_pipe, put_pipe. cbn [k_pipes set_pipes]. by rewrite lookup_insert_eq. Qed.
Lemma put_put_pipe pi p q s : put_pipe pi p (put_pipe pi q s) = put_pipe pi p s.
Proof. unfold put_pipe. cbn [k_pipes set_pipes]. rewrite insert_insert_eq. by destruct s. Qed.
#[local] Hint Rewrite get_put_pipe put_put_pipe : kst.

Section pipe_spec.
Context `{KernelImage} `{WaitFuel}.
Implicit Types (s : kst) (fl : list Z) (own : gmap Z tag) (pi : Z) (pr : nat).

Lemma pipe_space_true fuel pi pr s :
  pi_readopen (get_pipe pi s) = true → p_killed (get_proc s pr) = 0 → pipe_full (get_pipe pi s) = false →
  pipe_space fuel pi pr s = Done true s.
Proof.
  intros H1 H2 H3. destruct fuel; cbn [pipe_space]; run_by (unfold gets; reflexivity);
    run_by (unfold proc_get, gets; reflexivity); by rewrite H1, H2, H3.
Qed.

Lemma pipe_space_false fuel pi pr s :
  pi_readopen (get_pipe pi s) = false ∨ p_killed (get_proc s pr) ≠ 0 → pipe_space fuel pi pr s = Done false s.
Proof.
  intros Hor. destruct fuel; cbn [pipe_space]; run_by (unfold gets; reflexivity);
    run_by (unfold proc_get, gets; reflexivity);
    (replace (_ || _) with true; [done|]; symmetry; apply orb_true_iff; destruct Hor as [->|Hk]; [by left|right];
     by rewrite (proj2 (Z.eqb_neq _ 0) Hk)).
Qed.

Lemma get_pipe_at pi p s : k_pipes s !! pi = Some p → get_pipe pi s = p.
Proof. unfold get_pipe. by intros ->. Qed.
Lemma put_pipe_id pi p s : k_pipes s !! pi = Some p → put_pipe pi p s = s.
Proof. intros Hp. unfold put_pipe. rewrite insert_id by done. by destruct s. Qed.

Lemma pipewrite_loop_run k s fl own root pi pr addr i p :
  uvm_ok s fl own → uroot s own root → p_pagetable (get_proc s pr) = root → p_killed (get_proc s pr) = 0 →
  k_pipes s !! pi = Some p → pipe_wf p → pi_readopen p = true →
  Z.of_nat (length (pipe_q p) + k) <= PIPESIZE →
  0 <= addr + i → addr + i + Z.of_nat k <= 2 ^ 64 →
  ∃ bs p', pipewrite_loop k pi pr addr i s = Done (Some (i + Z.of_nat (length bs))) (put_pipe pi p' s) ∧
    pipe_wf p' ∧ pipe_q p' = pipe_q p ++ bs ∧
    pi_readopen p' = pi_readopen p ∧ pi_writeopen p' = pi_writeopen p ∧
    uholds (get_mem s) root (addr + i) bs ∧
    (length bs = k ∨ (length bs < k)%nat ∧ uaccess (get_mem s) root (addr + i + Z.of_nat (length bs)) = false).
Proof.
  revert s p i. induction k as [|k IH]; intros s p i Hok Hr Hpt Hkl Hp Hwf Ho Hroom Hlo Hhi; cbn [pipewrite_loop].
  { exists [], p. rewrite app_nil_r, Z.add_0_r, put_pipe_id by done. split_and!; try done. by left. }
  pose proof (get_pipe_at _ _ _ Hp) as Hg.
  run_by (apply pipe_space_true; rewrite ?Hg; [done|done|rewrite pipe_full_q by done; apply bool_decide_eq_false; lia]).
  cbn [negb]. run_by (unfold proc_get, gets; reflexivity). rewrite Hpt, u64_small by lia.
  destruct (copyin_run s fl own root (addr + i) 1 Hok Hr ltac:(lia) ltac:(lia)) as (r & bs & Hc & Hh & Hres).
  run_by (exact Hc). cbn [fst snd]. destruct Hres as [[-> Hl]|(-> & Hl & Hacc)].
  - destruct bs as [|c [|]]; [done| |cbn [length] in Hl; lia].
    cbn [Z.eqb]. change (0 =? -1) with false. cbn iota. cbn [hd].
    run_by (unfold upd_pipe, modify; rewrite Hg; reflexivity).
    destruct (pipe_put_q p c Hwf) as [Hwf' Hq']; [lia|].
    destruct (IH (put_pipe pi (pipe_put c p) s) (pipe_put c p) (i + 1)) as (bs & p' & Hrun & H1 & H2 & H3 & H4 & H5 & H6).
    + eapply uvm_ok_state; [| |exact Hok]; [done|apply Hok].
    + done.
    + done.
    + done.
    + unfold put_pipe. cbn [k_pipes set_pipes]. by rewrite lookup_insert_eq.
    + done.
    + done.
    + rewrite Hq', length_app. simpl. lia.
    + lia.
    + lia.
    + exists (c :: bs), p'. rewrite Hrun, put_put_pipe. cbn [length]. split_and!.
      * do 2 f_equal. lia.
      * done.
      * by rewrite H2, Hq', <- app_assoc.
      * done.
      * done.
      * apply (uholds_app _ _ _ [c]); [done|]. cbn [length]. by rewrite <- Z.add_assoc.
      * destruct H6 as [->|[Hlt Ha]]; [by left|right]. split; [lia|].
        by replace (addr + i + Z.of_nat (S (length bs))) with (addr + (i + 1) + Z.of_nat (length bs)) by lia.
  - change (-1 =? -1) with true. cbn iota. exists [], p. assert (bs = []) as -> by (apply nil_length_inv; lia).
    rewrite app_nil_r, Z.add_0_r, put_pipe_id by done. cbn [length] in *. split_and!; try done. right. split; [lia|done].
Qed.

(** C28: [pipewrite]: (1) with room for the [n] bytes, the read end open and the
    caller not killed, it appends to the queue the [n] bytes that the caller has
    at [addr], or those before the first address the caller may not access,
    returns their number, wakes the readers and changes nothing else; (2) with
    the read end closed or the caller killed it returns -1 and changes nothing;
    (3) with a full pipe it wakes the readers and goes to sleep until a reader
    makes room. *)
Theorem pipewrite_spec s fl own root pi addr n p :
  let me := ps_cur (k_proc s) in
  uvm_ok s fl own → uroot s own root → p_pagetable (get_proc s me) = root →
  k_held s = [] → length (ps_procs (k_proc s)) = NPROC → k_pipes s !! pi = Some p → pipe_wf p →
  0 <= addr → 0 <= n → addr + n <= 2 ^ 64 →
  (pi_readopen p = true → p_killed (get_proc s me) = 0 → Z.of_nat (length (pipe_q p)) + n <= PIPESIZE →
   ∃ bs p', pipewrite pi addr n s = Done (Z.of_nat (length bs)) (wake (ChPipeRead pi) (put_pipe pi p' s)) ∧
     pipe_wf p' ∧ pipe_q p' = pipe_q p ++ bs ∧ pi_readopen p' = pi_readopen p ∧ pi_writeopen p' = pi_writeopen p ∧
     uholds (get_mem s) root addr bs ∧
     (Z.of_nat (length bs) = n ∨
      Z.of_nat (length bs) < n ∧ uaccess (get_mem s) root (addr + Z.of_nat (length bs)) = false)) ∧
  (pi_readopen p = false ∨ p_killed (get_proc s me) ≠ 0 → 0 < n → pipewrite pi addr n s = Done (-1) s) ∧
  (pi_readopen p = true → p_killed (get_proc s me) = 0 → Z.of_nat (length (pipe_q p)) = PIPESIZE → 0 < n →
   (me < NPROC)%nat → ∀ fuel, wait_fuel = S fuel →
   ∃ k, pipewrite pi addr n s = Swtch (asleep (ChPipeWrite pi) me (wake (ChPipeRead pi) (set_held [LPipe pi] s))) k).
Proof.
  intros me Hok Hr Hpt Hh Hn Hp Hwf Ha Hn0 Hhi. set (s1 := set_held [LPipe pi] s).
  assert (Hacq : acquire (LPipe pi) s = Done tt s1) by (rewrite acquire_ok by (rewrite Hh; set_solver); by rewrite Hh).
  assert (Hs : set_held [] s = s) by (rewrite <- Hh; apply set_held_id).
  assert (Hg : get_pipe pi s1 = p) by (by apply get_pipe_at).
  split_and!.
  - intros Ho Hk Hroom.
    destruct (pipewrite_loop_run (Z.to_nat n) s1 fl own root pi me addr 0 p) as (bs & p' & Hrun & H1 & H2 & H3 & H4 & H5 & H6);
      try (done || lia).
    { eapply uvm_ok_state; [| |exact Hok]; [done|set_solver]. }
    rewrite Z.add_0_r in H5, H6. exists bs, p'. unfold pipewrite. run_by (unfold myproc, gets; reflexivity).
    run_by (exact Hacq). run_by (exact Hrun).
    split_and!; try done.
    + rewrite (bind_Done _ _ _ _ _ (wake_run (ChPipeRead pi) (LPipe pi) (put_pipe pi p' s1) eq_refl ltac:(done) ltac:(done) Hn)).
      erewrite bind_Done; [|eapply release_ok; [reflexivity|set_solver]].
      unfold s1. rewrite <- Hs at 2. by destruct s.
    + destruct H6 as [H6|[Hlt Hacc]]; [left; lia|right; split; [lia|done]].
  - intros Hor Hpos. unfold pipewrite. run_by (unfold myproc, gets; reflexivity). run_by (exact Hacq).
    replace (Z.to_nat n) with (S (Z.to_nat (n - 1))) by lia.
    erewrite bind_Done; [|cbn [pipewrite_loop]; run_by (apply pipe_space_false; rewrite Hg; exact Hor); reflexivity].
    cbn iota. erewrite bind_Done; [|eapply release_ok; [reflexivity|set_solver]]. by rewrite <- Hs at 1; destruct s.
  - intros Ho Hk Hfull Hpos Hme fuel Hf. unfold pipewrite. run_by (unfold myproc, gets; reflexivity). run_by (exact Hacq).
    replace (Z.to_nat n) with (S (Z.to_nat (n - 1))) by lia. cbn [pipewrite_loop]. rewrite Hf. cbn [pipe_space].
    assert (Hw : wakeup (ChPipeRead pi) s1 = Done tt (wake (ChPipeRead pi) s1)) by (by apply (wake_run _ (LPipe pi))).
    destruct (sleep_run (ChPipeWrite pi) (LPipe pi) (wake (ChPipeRead pi) s1)) as (k & Hsl & _);
      [set_solver|cbn; rewrite length_imap, Hn; exact Hme|done|].
    eexists. do 2 apply bind_Swtch. run_by (unfold gets; reflexivity). run_by (unfold proc_get, gets; reflexivity).
    rewrite Hg, Ho. change (p_killed (get_proc s1 (ps_cur (k_proc s)))) with (p_killed (get_proc s me)). rewrite Hk.
    rewrite pipe_full_q by done. rewrite bool_decide_true by done. cbn [negb orb]. change (0 =? 0) with true. cbn [negb].
    rewrite (bind_Done _ _ _ _ _ Hw). apply bind_Swtch. exact Hsl.
Qed.

(** ** Reading *)

(** The effect of one byte, then of the rest. *)
Lemma ustep_poke_cons s fl own s2 s3 root dst c q m :
  ustep s fl own s2 fl own (poke (uview (get_mem s)) root dst [c] 1) →
  ustep s2 fl own s3 fl own (poke (uview (get_mem s2)) root (dst + 1) q m) → 0 <= m →
  ustep s fl own s3 fl own (poke (uview (get_mem s)) root dst (c :: q) (1 + m)).
Proof.
  intros H1 H2 Hm. eapply ustep_view; [exact (ustep_trans _ _ _ _ _ _ _ _ _ _ _ H1 H2)|]. intros r va Hr Hva.
  rewrite <- poke_join by (cbn [length]; lia). change (drop (Z.to_nat 1) (c :: q)) with q.
  apply poke_ext; [|done]. rewrite (us_view _ _ _ _ _ _ _ H1) by done. apply poke_ext; [done|].
  intros [|j] Hj; [done|lia].
Qed.

Lemma piperead_loop_run k s fl own root pi pr addr i p :
  uvm_ok s fl own → uroot s own root → p_pagetable (get_proc s pr) = root →
  k_pipes s !! pi = Some p → pipe_wf p → 0 <= addr + i → addr + i + Z.of_nat k <= 2 ^ 64 →
  let len := Nat.min k (length (pipe_q p)) in
  ∃ m s1 p', piperead_loop k pi pr addr i s = Done (i + Z.of_nat m) (put_pipe pi p' s1) ∧
    ustep s fl own s1 fl own (poke (uview (get_mem s)) root (addr + i) (pipe_q p) (Z.of_nat m)) ∧
    pipe_wf p' ∧ pi_readopen p' = pi_readopen p ∧ pi_writeopen p' = pi_writeopen p ∧
    (m = len ∧ pipe_q p' = drop m (pipe_q p) ∨
     (m < len)%nat ∧ pipe_q p' = drop (S m) (pipe_q p) ∧ uaccess (get_mem s) root (addr + i + Z.of_nat m) = false).
Proof.
  revert s p i. induction k as [|k IH]; intros s p i Hok Hr Hpt Hp Hwf Hlo Hhi len; cbn [piperead_loop].
  { exists 0%nat, s, p. rewrite Z.add_0_r, put_pipe_id by done. split_and!; try done; [by apply ustep_poke_0|by left]. }
  pose proof (get_pipe_at _ _ _ Hp) as Hg. run_by (unfold gets; reflexivity). rewrite Hg, pipe_empty_q by done.
  destruct (decide (pipe_q p = [])) as [E|Hne].
  { rewrite bool_decide_true by done. exists 0%nat, s, p. rewrite Z.add_0_r, put_pipe_id by done.
    split_and!; try done; [by apply ustep_poke_0|left]. subst len. by rewrite E, Nat.min_0_r. }
  rewrite bool_decide_false by done. destruct (pipe_get_q p Hwf Hne) as [Hwf' Hq].
  set (c := pipe_peek p) in *. set (p1 := pipe_skip p) in *.
  run_by (unfold upd_pipe, modify; rewrite Hg; reflexivity). fold p1. set (t := put_pipe pi p1 s).
  run_by (unfold proc_get, gets; reflexivity). change (p_pagetable (get_proc t pr)) with (p_pagetable (get_proc s pr)).
  rewrite Hpt, u64_small by lia.
  assert (Hokt : uvm_ok t fl own) by (eapply uvm_ok_state; [| |exact Hok]; [done|apply Hok]).
  destruct (copyout_run t fl own root (addr + i) [c] 1 Hokt Hr ltac:(lia) ltac:(cbn [length]; lia))
    as (r & t' & k1 & Hc & Hk1 & Hst & _ & Hres).
  run_by (exact Hc). pose proof (us_mem _ _ _ _ _ _ _ Hst) as Hmo. apply mem_only_set in Hmo.
  apply (ustep_state s) in Hst; [|done|apply Hok]. set (s2 := set_mem (k_mem t') s) in *.
  assert (Ht' : t' = put_pipe pi p1 s2) by (rewrite Hmo; by destruct s).
  destruct Hres as [[-> ->]|(-> & Hk & Hacc)].
  - change (0 =? -1) with false. cbn iota.
    destruct (IH t' p1 (i + 1)) as (m & t3 & p' & Hrun & Hst3 & H1 & H2 & H3 & H4); try (done || lia).
    + eapply uvm_ok_state; [| |apply Hst]; [done|]. rewrite Ht'. apply Hok.
    + rewrite Ht'. apply (ustep_uroot _ _ _ _ _ _ _ root Hst). done.
    + by rewrite Ht'.
    + rewrite Ht'. unfold put_pipe. cbn [k_pipes set_pipes]. by rewrite lookup_insert_eq.
    + pose proof (us_mem _ _ _ _ _ _ _ Hst3) as Hmo3. apply mem_only_set in Hmo3.
      apply (ustep_state s2) in Hst3; [|done|apply Hok].
      exists (S m), (set_mem (k_mem t3) s2), p'. rewrite Hrun, Hmo3, Ht'. rewrite Hq.
      split_and!; try done.
      * f_equal; [lia|]. unfold put_pipe. cbn [k_pipes set_pipes set_mem]. rewrite insert_insert_eq. by destruct s.
      * replace (Z.of_nat (S m)) with (1 + Z.of_nat m) by lia.
        eapply ustep_poke_cons; [exact Hst| |lia]. rewrite <- Z.add_assoc. exact Hst3.
      * subst len. rewrite Hq. cbn [length drop]. destruct H4 as [[-> ->]|(Hlt & -> & Ha)]; [left|right].
        -- split; [lia|done].
        -- split_and!; [lia|done|]. replace (addr + i + Z.of_nat (S m)) with (addr + (i + 1) + Z.of_nat m) by lia.
           rewrite Ht' in Ha. change (get_mem (put_pipe pi p1 s2)) with (get_mem s2) in Ha.
           by rewrite (uaccess_poke _ _ _ _ _ _ _ _ _ _ _ _ Hst) in Ha by (done || lia).
  - change (-1 =? -1) with true. cbn iota. assert (k1 = 0) as -> by lia.
    exists 0%nat, s2, p1. rewrite Z.add_0_r, Ht'. split_and!; try done.
    + eapply ustep_view; [exact Hst|]. intros r va _ _. unfold poke. by rewrite !decide_False by lia.
    + right. subst len. rewrite Hq. cbn [length drop]. rewrite !Z.add_0_r in *. split_and!; [lia|done|exact Hacc].
Qed.

(** C29: [piperead] from a pipe that has data, or whose write end is closed,
    does not wait: it stores the first [m] bytes of the queue at [addr], where
    [m] is the smaller of [n] and the number of bytes in the pipe, returns [m],
    wakes the writers and changes nothing else.  When the reader may not access
    [addr+m] it stops there, returns [m], and the byte it could not store is
    lost. *)
Theorem piperead_spec s fl own root pi addr n p :
  let me := ps_cur (k_proc s) in
  uvm_ok s fl own → uroot s own root → p_pagetable (get_proc s me) = root →
  k_held s = [] → length (ps_procs (k_proc s)) = NPROC → k_pipes s !! pi = Some p → pipe_wf p →
  pipe_q p ≠ [] ∨ pi_writeopen p = false → 0 <= addr → 0 <= n → addr + n <= 2 ^ 64 →
  let len := Nat.min (Z.to_nat n) (length (pipe_q p)) in
  ∃ m s1 p', piperead pi addr n s = Done (Z.of_nat m) (wake (ChPipeWrite pi) (put_pipe pi p' s1)) ∧
    ustep s fl own s1 fl own (poke (uview (get_mem s)) root addr (pipe_q p) (Z.of_nat m)) ∧
    pipe_wf p' ∧ pi_readopen p' = pi_readopen p ∧ pi_writeopen p' = pi_writeopen p ∧
    (m = len ∧ pipe_q p' = drop m (pipe_q p) ∨
     (m < len)%nat ∧ pipe_q p' = drop (S m) (pipe_q p) ∧ uaccess (get_mem s) root (addr + Z.of_nat m) = false).
Proof.
  intros me Hok Hr Hpt Hh Hn Hp Hwf Hgo Ha Hn0 Hhi len. set (s1 := set_held [LPipe pi] s).
  assert (Hacq : acquire (LPipe pi) s = Done tt s1) by (rewrite acquire_ok by (rewrite Hh; set_solver); by rewrite Hh).
  assert (Hs : set_held [] s = s) by (rewrite <- Hh; apply set_held_id).
  assert (Hg : get_pipe pi s1 = p) by (by apply get_pipe_at).
  assert (Hdata : pipe_data wait_fuel pi me s1 = Done true s1).
  { assert (E : pipe_empty p && pi_writeopen p = false).
    { rewrite pipe_empty_q by done. destruct Hgo as [Hq| ->]; [by rewrite bool_decide_false|by rewrite andb_false_r]. }
    destruct wait_fuel; cbn [pipe_data]; run_by (unfold gets; reflexivity); by rewrite Hg, E. }
  destruct (piperead_loop_run (Z.to_nat n) s1 fl own root pi me addr 0 p) as (m & t & p' & Hrun & Hst & H1 & H2 & H3 & H4);
    try (done || lia).
  { eapply uvm_ok_state; [| |exact Hok]; [done|set_solver]. }
  rewrite Z.add_0_r in Hst, H4. pose proof (us_mem _ _ _ _ _ _ _ Hst) as Hmo. apply mem_only_set in Hmo.
  apply (ustep_state s) in Hst; [|done|rewrite Hh; set_solver].
  exists m, (set_mem (k_mem t) s), p'. split_and!; try done.
  unfold piperead. run_by (unfold myproc, gets; reflexivity). run_by (exact Hacq). run_by (exact Hdata). cbn [negb].
  run_by (exact Hrun). rewrite Hmo.
  rewrite (bind_Done _ _ _ _ _ (wake_run (ChPipeWrite pi) (LPipe pi) (put_pipe pi p' (set_mem (k_mem t) s1)) eq_refl ltac:(done) ltac:(done) Hn)).
  erewrite bind_Done; [|eapply release_ok; [reflexivity|set_solver]].
  unfold s1. clear -Hh. destruct s. cbn in Hh. by subst.
Qed.
End pipe_spec.

(** ** A concrete pipe: process 0 of the example address space *)

#[local] Instance two_wakeups : WaitFuel := 2%nat.

Definition example_pi : Z := 0x80200000.
(** One byte in flight, the counter of the reader about to wrap. *)
Definition example_pipe : pipe :=
  mk_pipe (<[511%nat := 42]> (replicate 512 5)) 4294967295 0 true true.
Definition pipe_state : kst :=
  set_pipes {[ example_pi := example_pipe ]}
    (set_proc (mk_pstate (<[0%nat := set_p_pagetable VmExample.R zero_proc]> (replicate NPROC zero_proc)) 0 None 1 true)
       VmExample.s).

Lemma example_pipe_wf : pipe_wf example_pipe.
Proof. split; vm_compute; repeat split; congruence. Qed.

Lemma pipe_state_ok : uvm_ok pipe_state VmExample.fl VmExample.own.
Proof. apply (uvm_ok_state VmExample.s); [reflexivity|by apply unlocked_nil|exact VmExample.is_ok]. Qed.

Lemma pipewrite_spec_witness :
  ∃ bs p', pipewrite example_pi 0 2 pipe_state =
             Done (Z.of_nat (length bs)) (wake (ChPipeRead example_pi) (put_pipe example_pi p' pipe_state)) ∧
           pipe_q p' = 42 :: bs.
Proof.
  destruct (pipewrite_spec pipe_state VmExample.fl VmExample.own VmExample.R example_pi 0 2 example_pipe) as [Hw _].
  - exact pipe_state_ok.
  - exact VmExample.uroot_R.
  - reflexivity.
  - reflexivity.
  - reflexivity.
  - apply lookup_singleton_eq.
  - exact example_pipe_wf.
  - lia.
  - lia.
  - lia.
  - destruct (Hw eq_refl eq_refl) as (bs & p' & Hrun & _ & Hq & _); [vm_compute; congruence|].
    exists bs, p'. split; [exact Hrun|]. rewrite Hq. reflexivity.
Defined.

Lemma piperead_spec_witness :
  ∃ m s1 p', piperead example_pi 0 2 pipe_state =
               Done (Z.of_nat m) (wake (ChPipeWrite example_pi) (put_pipe example_pi p' s1)).
Proof.
  destruct (piperead_spec pipe_state VmExample.fl VmExample.own VmExample.R example_pi 0 2 example_pipe)
    as (m & s1 & p' & Hrun & _).
  - exact pipe_state_ok.
  - exact VmExample.uroot_R.
  - reflexivity.
  - reflexivity.
  - reflexivity.
  - apply lookup_singleton_eq.
  - exact example_pipe_wf.
  - left. vm_compute. discriminate.
  - lia.
  - lia.
  - lia.
  - exists m, s1, p'. exact Hrun.
Defined.
