(* ===== verification/ConsSpec.v ===== *)
(** * The console: the input buffer refines a line editor

    [cons.buf] with its three counters is two sequences of bytes: the input
    that readers may have, and the line that is being edited.  [consoleintr]
    edits them and shows the list of processes for control-P, the loop of
    [uartintr] does so for all the characters that wait in the device or arrive
    meanwhile, and [consoleread] takes the next line. *)

From S2P Require Import Prelude Memory Params State CString Sched Kalloc Vm PageTable VmMap Uvm UvmAlloc UvmCopy VmExample.
From S2P Require Import Uart Console PipeSpec.

(** ** The line editor *)

Record editor : Type := mk_editor { ed_ready : list Z; ed_line : list Z }.

Definition ed_len (k : editor) : Z := Z.of_nat (length (ed_ready k) + length (ed_line k)).

(** Return is stored and echoed as newline. *)
Definition cr (c : Z) : Z := if c =? 13 then 10 else c.

Definition erases (c : Z) : bool := (c =? ctrl_H) || (c =? 0x7f).
Definition accepts (c : Z) (k : editor) : bool := negb (c =? 0) && (ed_len k <? INPUT_BUF).

(** The characters that end a line, or fill the buffer. *)
Definition ends (c : Z) (k : editor) : bool := (cr c =? 10) || (cr c =? ctrl_D) || (ed_len k + 1 =? INPUT_BUF).

Definition commits (c : Z) (k : editor) : bool :=
  negb (c =? ctrl_P) && negb (c =? ctrl_U) && negb (erases c) && accepts c k && ends c k.

Definition edit (c : Z) (k : editor) : editor :=
  if c =? ctrl_P then k
  else if c =? ctrl_U then mk_editor (ed_ready k) []
  else if erases c then mk_editor (ed_ready k) (removelast (ed_line k))
  else if accepts c k then
    let line := ed_line k ++ [cr c] in
    if ends c k then mk_editor (ed_ready k ++ line) [] else mk_editor (ed_ready k) line
  else k.

Definition rubout : list Z := [8; 32; 8].

(** What [consputc] sends. *)
Definition glyph (c : Z) : list Z := if c =? BACKSPACE then rubout else [u8 c].
Definition glyphs (l : list Z) : list Z := concat (map glyph l).

(** The table of processes, as [procdump] shows it: the number, the state and
    the name of each process, one to a line. *)
Definition proc_line (p : proc) : list Z :=
  if bool_decide (p_state p = UNUSED) then []
  else glyphs (reverse (printint_buf (p_pid p) 10 true)) ++ [32] ++ glyphs (codes (state_name (p_state p))) ++ [32] ++
       glyphs (cstr (p_name p)) ++ [10].
Definition proc_lines (s : kst) (i n : nat) : list Z := concat (map (λ i, proc_line (get_proc s i)) (seq i n)).
Definition dump (s : kst) : list Z := 10 :: proc_lines s 0 NPROC.

(** What is sent back to the terminal. *)
Definition echo (c : Z) (k : editor) (s : kst) : list Z :=
  if c =? ctrl_P then dump s
  else if c =? ctrl_U then concat (replicate (length (ed_line k)) rubout)
  else if erases c then (match ed_line k with [] => [] | _ => rubout end)
  else if accepts c k then [cr c]
  else [].

(** A read of [n] bytes: the bytes it returns and the input that is left;
    [None] if it has to wait.  [first] is true as long as it has no byte. *)
Fixpoint getline (first : bool) (n : nat) (q : list Z) : option (list Z * list Z) :=
  match n, q with
  | O, _ => Some ([], q)
  | S _, [] => None
  | S n, c :: q' =>
      if c =? ctrl_D then Some ([], if first then q' else q)
      else if c =? 10 then Some ([c], q')
      else '(l, rest) ← getline false n q'; Some (c :: l, rest)
  end.

(** ** The representation *)

Record cons_rep (co : consstate) (k : editor) : Prop := {
  cr_buf : Z.of_nat (length (cons_buf co)) = INPUT_BUF;
  cr_r : 0 <= cons_r co < 2 ^ 32;
  cr_w : cons_w co = u32 (cons_r co + Z.of_nat (length (ed_ready k)));
  cr_e : cons_e co = u32 (cons_r co + ed_len k);
  cr_q : ring INPUT_BUF (cons_buf co) (cons_r co) (Z.to_nat (ed_len k)) = ed_ready k ++ ed_line k;
  cr_len : ed_len k <= INPUT_BUF;
  cr_line : 10 ∉ ed_line k;
}.

(** ** Counters *)

Lemma u32_add x y : u32 (u32 x + y) = u32 (x + y).
Proof. apply Zplus_mod_idemp_l. Qed.
Lemma u32_sub x y : u32 (u32 x - y) = u32 (x - y).
Proof. apply Zminus_mod_idemp_l. Qed.

Lemma u32_index x : u32 x mod INPUT_BUF = x mod INPUT_BUF.
Proof. unfold u32, INPUT_BUF. apply Z.mod_mod_divide. by exists 33554432. Qed.

Lemma u32_eqb r n m : 0 <= n < 2 ^ 32 → 0 <= m < 2 ^ 32 → (u32 (r + n) =? u32 (r + m)) = (n =? m).
Proof.
  intros Hn Hm. destruct (Z.eqb_spec n m) as [->|Hne]; [apply Z.eqb_refl|].
  apply Z.eqb_neq. by apply ring_index_ne.
Qed.

Lemma ring_last N d r n : ring N d r (S n) = ring N d r n ++ [d !!! Z.to_nat ((r + Z.of_nat n) mod N)].
Proof. unfold ring. by rewrite seq_S, map_app. Qed.

Section editor.
Implicit Types (co : consstate) (k : editor) (c : Z).

Lemma ed_len_nonneg k : 0 <= ed_len k.
Proof. unfold ed_len. lia. Qed.

(** The last character of the line is the one before [cons.e]. *)
Lemma rep_last co ready line c :
  cons_rep co (mk_editor ready (line ++ [c])) →
  cons_buf co !!! Z.to_nat (u32 (cons_e co - 1) mod INPUT_BUF) = c ∧
  cons_rep (set_cons_e (u32 (cons_e co - 1)) co) (mk_editor ready line).
Proof.
  intros [Hb Hr Hw He Hq Hl Hn].
  assert (Hlen : ed_len (mk_editor ready (line ++ [c])) = ed_len (mk_editor ready line) + 1)
    by (unfold ed_len; cbn [ed_ready ed_line]; rewrite length_app; cbn [length]; lia).
  pose proof (ed_len_nonneg (mk_editor ready line)). set (n := ed_len (mk_editor ready line)) in *.
  rewrite Hlen in *. rewrite He, u32_sub. replace (cons_r co + (n + 1) - 1) with (cons_r co + n) by lia.
  replace (Z.to_nat (n + 1)) with (S (Z.to_nat n)) in Hq by lia.
  cbn [ed_ready ed_line] in *. rewrite ring_last, app_assoc in Hq. apply app_inj_tail in Hq as [Hq Hc].
  rewrite Z2Nat.id in Hc by lia. rewrite u32_index. split; [done|].
  split; cbn [set_cons_e cons_buf cons_r cons_w cons_e ed_ready ed_line]; try done; [lia|set_solver].
Qed.

(** [cons.e == cons.w] when there is nothing to erase. *)
Lemma rep_edited co k : cons_rep co k → (cons_e co =? cons_w co) = bool_decide (ed_line k = []).
Proof.
  intros [Hb Hr Hw He Hq Hl Hn]. unfold ed_len, INPUT_BUF in *. rewrite Hw, He, u32_eqb by lia.
  destruct (ed_line k); cbn [length]; case_bool_decide; try done; [apply Z.eqb_eq|apply Z.eqb_neq]; lia.
Qed.

(** [cons.r == cons.w] when there is nothing to read. *)
Lemma rep_readable co k : cons_rep co k → (cons_r co =? cons_w co) = bool_decide (ed_ready k = []).
Proof.
  intros [Hb Hr Hw He Hq Hl Hn]. unfold ed_len, INPUT_BUF in *. rewrite Hw.
  rewrite <- (u32_small (cons_r co)) at 1 by done. rewrite <- (Z.add_0_r (cons_r co)) at 1. rewrite u32_eqb by lia.
  destruct (ed_ready k); cbn [length]; case_bool_decide; try done; apply Z.eqb_neq; lia.
Qed.

Lemma rep_room co k : cons_rep co k → u32 (cons_e co - cons_r co) = ed_len k.
Proof.
  intros [Hb Hr Hw He Hq Hl Hn]. pose proof (ed_len_nonneg k). unfold INPUT_BUF in *. rewrite He, u32_sub.
  replace (cons_r co + ed_len k - cons_r co) with (ed_len k) by lia. apply u32_small. lia.
Qed.

Lemma rep_line_len co k : cons_rep co k → u32 (cons_e co - cons_w co) = Z.of_nat (length (ed_line k)).
Proof.
  intros [Hb Hr Hw He Hq Hl Hn]. rewrite Hw, He. unfold u32. rewrite <- Zminus_mod. unfold ed_len, INPUT_BUF in *.
  rewrite Z.mod_small; lia.
Qed.

Definition cons_put (c : Z) (co : consstate) : consstate :=
  mk_cons (<[Z.to_nat (cons_e co mod INPUT_BUF) := u8 c]> (cons_buf co)) (cons_r co) (cons_w co) (u32 (cons_e co + 1)).

(** Storing a character, and the test for a full buffer afterwards. *)
Lemma rep_put co k c :
  cons_rep co k → ed_len k < INPUT_BUF → 0 <= c < 256 →
  let co1 := cons_put c co in
  let k1 := mk_editor (ed_ready k) (ed_line k ++ [c]) in
  (cons_e co1 =? u32 (cons_r co1 + INPUT_BUF)) = (ed_len k + 1 =? INPUT_BUF) ∧
  (c ≠ 10 → cons_rep co1 k1) ∧
  cons_rep (set_cons_w (cons_e co1) co1) (mk_editor (ed_ready k ++ ed_line k ++ [c]) []).
Proof.
  intros [Hb Hr Hw He Hq Hl Hn] Hlt Hc co1 k1. pose proof (ed_len_nonneg k).
  assert (Hlen : ed_len k1 = ed_len k + 1) by (unfold ed_len, k1; cbn [ed_ready ed_line]; rewrite length_app; cbn [length]; lia).
  assert (He1 : cons_e co1 = u32 (cons_r co + (ed_len k + 1))).
  { unfold co1, cons_put. cbn [cons_e]. rewrite He, u32_add. f_equal. lia. }
  assert (Hq1 : ring INPUT_BUF (cons_buf co1) (cons_r co) (Z.to_nat (ed_len k + 1)) = ed_ready k ++ ed_line k ++ [c]).
  { unfold co1, cons_put. cbn [cons_buf]. rewrite He, u32_index.
    replace (Z.to_nat (ed_len k + 1)) with (S (Z.to_nat (ed_len k))) by lia.
    rewrite <- (Z2Nat.id (ed_len k)) at 1 by lia.
    rewrite ring_put, Hq, <- app_assoc by (unfold INPUT_BUF in *; done || lia). by rewrite u8_small. }
  split_and!.
  - rewrite He1. unfold co1, cons_put, INPUT_BUF in *. cbn [cons_r]. by rewrite u32_eqb by lia.
  - intros Hnl. split; rewrite ?Hlen; try done; [unfold co1, cons_put; cbn [cons_buf]; by rewrite length_insert|lia|].
    unfold k1. cbn [ed_line]. set_solver.
  - assert (Hl2 : ed_len (mk_editor (ed_ready k ++ ed_line k ++ [c]) []) = ed_len k + 1).
    { rewrite <- Hlen. unfold ed_len, k1. cbn [ed_ready ed_line]. rewrite !length_app. cbn [length]. lia. }
    split; rewrite ?Hl2; cbn [set_cons_w cons_buf cons_r cons_w cons_e ed_ready ed_line]; try done;
      [unfold co1, cons_put; cbn [cons_buf]; by rewrite length_insert| |by rewrite app_nil_r|lia|set_solver].
    rewrite He1. f_equal. rewrite <- Hl2. unfold ed_len. cbn [ed_ready ed_line length]. unfold co1, cons_put. cbn [cons_r]. lia.
Qed.

(** Reading a character. *)
Lemma rep_get co c q line :
  cons_rep co (mk_editor (c :: q) line) →
  cons_buf co !!! Z.to_nat (cons_r co mod INPUT_BUF) = c ∧
  u32 (u32 (cons_r co + 1) - 1) = cons_r co ∧
  cons_rep (set_cons_r (u32 (cons_r co + 1)) co) (mk_editor q line).
Proof.
  intros [Hb Hr Hw He Hq Hl Hn].
  assert (Hlen : ed_len (mk_editor (c :: q) line) = ed_len (mk_editor q line) + 1)
    by (unfold ed_len; cbn [ed_ready ed_line length]; lia).
  pose proof (ed_len_nonneg (mk_editor q line)). set (n := ed_len (mk_editor q line)) in *.
  rewrite Hlen in *. replace (Z.to_nat (n + 1)) with (S (Z.to_nat n)) in Hq by lia.
  rewrite ring_get in Hq. cbn [ed_ready ed_line app length] in *. injection Hq as Hc Hq.
  split_and!; [done|rewrite u32_sub; replace (cons_r co + 1 - 1) with (cons_r co) by lia; by apply u32_small|].
  split; cbn [set_cons_r cons_buf cons_r cons_w cons_e ed_ready ed_line]; try done.
  - apply u32_bound.
  - rewrite u32_add, Hw. f_equal. lia.
  - rewrite u32_add, He. f_equal. fold n. lia.
  - fold n. rewrite <- Hq. apply ring_wrap; [unfold INPUT_BUF; lia|by exists 33554432|lia].
  - fold n. lia.
Qed.
End editor.

(** ** Output *)

(** The device after the bytes [l]; [n] is the room it has left, and [g] more
    characters have arrived. *)
Definition uart_out (n : nat) (l : list Z) (g : nat) (u : uartstate) : uartstate :=
  mk_uart (uart_tx_buf u) (uart_tx_w u) (uart_tx_r u) n (ua_sent u ++ l) (ua_rx u ++ take g (ua_line u)) (ua_regs u)
    (drop g (ua_line u)).

(** The state after [l] went to the device and the input buffer became [co]. *)
Definition shown (n : nat) (l : list Z) (g : nat) (co : consstate) (s : kst) : kst :=
  set_uart (uart_out n l g (k_uart s)) (set_cons co s).

Lemma shown_nil s : shown (ua_idle (k_uart s)) [] 0 (k_cons s) s = s.
Proof. unfold shown, uart_out. rewrite !app_nil_r. destruct s as [? ? ? ? ? ? ? ? ? ? ? u]. by destruct u. Qed.

Lemma uart_out_out n1 l1 g1 n2 l2 g2 u : uart_out n2 l2 g2 (uart_out n1 l1 g1 u) = uart_out n2 (l1 ++ l2) (g1 + g2) u.
Proof.
  unfold uart_out. cbn [ua_sent uart_tx_buf uart_tx_w uart_tx_r ua_rx ua_regs ua_line].
  by rewrite <- !app_assoc, take_take_drop, drop_drop.
Qed.

Lemma shown_shown n1 l1 g1 co1 n2 l2 g2 co2 s :
  shown n2 l2 g2 co2 (shown n1 l1 g1 co1 s) = shown n2 (l1 ++ l2) (g1 + g2) co2 s.
Proof. unfold shown. cbn [k_uart set_uart]. by rewrite uart_out_out. Qed.

Lemma shown_cons n l g co co' s : set_cons co' (shown n l g co s) = shown n l g co' s.
Proof. done. Qed.

Definition wake_if (b : bool) (ch : chan) (s : kst) : kst := if b then wake ch s else s.

Lemma wake_if_held b ch s : k_held (wake_if b ch s) = k_held s.
Proof. by destruct b. Qed.

Lemma wake_pagetable b ch s i : p_pagetable (get_proc (wake_if b ch s) i) = p_pagetable (get_proc s i).
Proof.
  destruct b; [|done]. unfold get_proc, wake. cbn [wake_if k_proc set_procs set_proc ps_procs].
  rewrite !list_lookup_total_alt. cbn. rewrite list_lookup_imap. destruct (ps_procs (k_proc s) !! i) as [p|]; [|done].
  cbn. unfold woken. by case_bool_decide.
Qed.

(** The console can print. *)
Definition printing (s : kst) : Prop := panicked (k_dev s) = false ∧ baud_latch (k_uart s) = false.

Lemma lsr_idle u : (Z.land (lsr u) LSR_TX_IDLE =? 0) = (ua_idle u =? 0)%nat.
Proof. unfold lsr. by destruct (ua_idle u); destruct (ua_rx u). Qed.

(** ** The transmit buffer *)

(** [uart_tx_buf] with its counters is the queue [q]. *)
Record tx_rep (u : uartstate) (q : list Z) : Prop := {
  tx_buf : Z.of_nat (length (uart_tx_buf u)) = UART_TX_BUF_SIZE;
  tx_r : 0 <= uart_tx_r u < 2 ^ 64;
  tx_w : uart_tx_w u = u64 (uart_tx_r u + Z.of_nat (length q));
  tx_q : ring UART_TX_BUF_SIZE (uart_tx_buf u) (uart_tx_r u) (length q) = q;
  tx_len : Z.of_nat (length q) <= UART_TX_BUF_SIZE;
  tx_bytes : Forall (λ c, 0 <= c < 256) q;
}.

(** The bytes [l] were put behind the queue [q]: what was sent, followed by
    what waits, has grown by [l]. *)
Record sends (u : uartstate) (q l : list Z) (u' : uartstate) (q' : list Z) : Prop := {
  sd_rep : tx_rep u' q';
  sd_out : ua_sent u' ++ q' = ua_sent u ++ q ++ l;
  sd_rx : ua_rx u' = ua_rx u;
  sd_regs : ua_regs u' = ua_regs u;
  sd_line : ua_line u' = ua_line u;
  sd_len : (length q' <= length q + length l)%nat;
}.

(** Nothing waits while the device has room. *)
Definition busy (u : uartstate) (q : list Z) : Prop := q = [] ∨ ua_idle u = 0%nat.

Lemma u64_eqb r n m : 0 <= n < 2 ^ 64 → 0 <= m < 2 ^ 64 → (u64 (r + n) =? u64 (r + m)) = (n =? m).
Proof.
  intros Hn Hm. destruct (Z.eqb_spec n m) as [->|Hne]; [apply Z.eqb_refl|].
  apply Z.eqb_neq. by apply ring_index_ne.
Qed.

Lemma tx_empty u q : tx_rep u q → (uart_tx_w u =? uart_tx_r u) = bool_decide (q = []).
Proof.
  intros [Hb Hr Hw Hq Hl _]. unfold UART_TX_BUF_SIZE in *. rewrite Hw.
  rewrite <- (u64_small (uart_tx_r u)) at 2 by done. rewrite <- (Z.add_0_r (uart_tx_r u)) at 2. rewrite u64_eqb by lia.
  destruct q; cbn [length]; case_bool_decide; try done; apply Z.eqb_neq; lia.
Qed.

Lemma tx_full u q :
  tx_rep u q → (uart_tx_w u =? u64 (uart_tx_r u + UART_TX_BUF_SIZE)) = (Z.of_nat (length q) =? UART_TX_BUF_SIZE).
Proof. intros [Hb Hr Hw Hq Hl _]. unfold UART_TX_BUF_SIZE in *. rewrite Hw. apply u64_eqb; lia. Qed.

Lemma tx_count u q : tx_rep u q → u64 (uart_tx_w u - uart_tx_r u) = Z.of_nat (length q).
Proof.
  intros [Hb Hr Hw Hq Hl _]. unfold UART_TX_BUF_SIZE in *. rewrite Hw. unfold u64. rewrite Zminus_mod_idemp_l.
  rewrite Z.mod_small; lia.
Qed.

(** The device has taken the first byte of the queue. *)
Definition tx_next (u : uartstate) (c : Z) : uartstate :=
  mk_uart (uart_tx_buf u) (uart_tx_w u) (u64 (uart_tx_r u + 1)) (pred (ua_idle u)) (ua_sent u ++ [c]) (ua_rx u) (ua_regs u) (ua_line u).

Lemma tx_get u c q :
  tx_rep u (c :: q) → uart_tx_buf u !!! Z.to_nat (uart_tx_r u mod UART_TX_BUF_SIZE) = c ∧ 0 <= c < 256 ∧ tx_rep (tx_next u c) q.
Proof.
  intros [Hb Hr Hw Hq Hl [Hc Hf]%Forall_cons]. cbn [length] in *. rewrite ring_get in Hq. injection Hq as E Hq.
  split_and!; [done|lia..|]. split; cbn [tx_next uart_tx_buf uart_tx_w uart_tx_r]; try done.
  - apply u64_bound.
  - rewrite Hw. unfold u64. rewrite Zplus_mod_idemp_l. f_equal. lia.
  - rewrite <- Hq at 2. apply ring_wrap; [unfold UART_TX_BUF_SIZE; lia|by exists 576460752303423488|lia].
  - lia.
Qed.

Definition tx_put (c : Z) (u : uartstate) : uartstate :=
  mk_uart (<[Z.to_nat (uart_tx_w u mod UART_TX_BUF_SIZE) := u8 c]> (uart_tx_buf u))
    (u64 (uart_tx_w u + 1)) (uart_tx_r u) (ua_idle u) (ua_sent u) (ua_rx u) (ua_regs u) (ua_line u).

Lemma tx_put_rep u q c :
  tx_rep u q → Z.of_nat (length q) < UART_TX_BUF_SIZE → tx_rep (tx_put c u) (q ++ [u8 c]).
Proof.
  intros [Hb Hr Hw Hq Hl Hf] Hlt. split; cbn [tx_put uart_tx_buf uart_tx_w uart_tx_r]; rewrite ?length_app; cbn [length].
  - by rewrite length_insert.
  - done.
  - rewrite Hw. unfold u64. rewrite Zplus_mod_idemp_l. f_equal. lia.
  - rewrite Nat.add_1_r, Hw. unfold u64, UART_TX_BUF_SIZE in *. rewrite Z.mod_mod_divide by (by exists 576460752303423488).
    by rewrite ring_put, Hq by lia.
  - lia.
  - apply Forall_app. split; [done|]. repeat constructor; apply u8_bound.
Qed.

Section transmit.
Context `{Ud : UartDev} `{Wf : WaitFuel}.

Lemma uartstart_loop_run q s :
  tx_rep (k_uart s) q → baud_latch (k_uart s) = false → k_held s = [LUart] → length (ps_procs (k_proc s)) = NPROC →
  ∃ b u' q', uartstart_loop (length q) s = Done tt (wake_if b ChUart (set_uart u' s)) ∧ sends (k_uart s) q [] u' q' ∧ busy u' q'.
Proof.
  revert s. induction q as [|c q IH]; intros s Hrep Hbl Hh Hn.
  - exists false, (k_uart s), []. cbn [length uartstart_loop]. run_by (unfold gets; reflexivity).
    rewrite (tx_empty _ _ Hrep). split_and!; [by destruct s|by split|by left].
  - cbn [length uartstart_loop]. run_by (unfold gets; reflexivity). rewrite (tx_empty _ _ Hrep). cbn [bool_decide].
    rewrite bool_decide_false by done. run_by (unfold ReadReg, gets; reflexivity). rewrite lsr_idle.
    destruct (ua_idle (k_uart s) =? 0)%nat eqn:Ei.
    { exists false, (k_uart s), (c :: q). split_and!; [by destruct s|split; try done; [by rewrite app_nil_r|cbn; lia]|].
      right. by apply Nat.eqb_eq. }
    destruct (tx_get _ _ _ Hrep) as (Hc & Hb & Hrep'). rewrite Hc. run_by (unfold upd_uart, modify; reflexivity).
    set (s1 := set_uart _ _).
    run_by (by apply (wake_run ChUart LUart)). run_by (unfold WriteReg, upd_uart, modify; reflexivity).
    change (THR =? THR) with true. change (baud_latch (k_uart (wake ChUart s1))) with (baud_latch (k_uart s)). rewrite Hbl.
    cbn [andb negb]. rewrite u8_small by done.
    change (set_uart _ (wake ChUart s1)) with (wake ChUart (set_uart (tx_next (k_uart s) c) s)).
    set (s2 := wake ChUart (set_uart (tx_next (k_uart s) c) s)).
    destruct (IH s2) as (b & u' & q' & Hrun & [H1 H2 H3 H4 H4' H5] & H6); try done; [cbn; by rewrite length_imap|].
    exists true, u', q'. split_and!; [| |done].
    + rewrite Hrun. f_equal. destruct b; [|done]. exact (wake_wake ChUart (set_uart u' s)).
    + split; try done; [|cbn in *; lia]. rewrite H2. cbn. by rewrite <- app_assoc.
Qed.

Lemma uartstart_run q s :
  tx_rep (k_uart s) q → baud_latch (k_uart s) = false → k_held s = [LUart] → length (ps_procs (k_proc s)) = NPROC →
  ∃ b u' q', uartstart s = Done tt (wake_if b ChUart (set_uart u' s)) ∧ sends (k_uart s) q [] u' q' ∧ busy u' q'.
Proof.
  intros Hrep. unfold uartstart. run_by (unfold gets; reflexivity). rewrite (tx_count _ _ Hrep), Nat2Z.id.
  by apply uartstart_loop_run.
Qed.

Lemma uartputc_run c s q :
  tx_rep (k_uart s) q → printing s → Z.of_nat (length q) < UART_TX_BUF_SIZE →
  k_held s = [] → length (ps_procs (k_proc s)) = NPROC →
  ∃ b u' q', uartputc c s = Done tt (wake_if b ChUart (set_uart u' s)) ∧ sends (k_uart s) q [u8 c] u' q' ∧ busy u' q'.
Proof.
  intros Htx [Hp Hb] Hlt Hh Hn. unfold uartputc.
  assert (Hacq : acquire LUart s = Done tt (set_held [LUart] s)) by (rewrite acquire_ok by (rewrite Hh; set_solver); by rewrite Hh).
  run_by (exact Hacq). run_by (unfold gets; reflexivity). change (panicked (k_dev (set_held [LUart] s))) with (panicked (k_dev s)).
  rewrite Hp.
  destruct (uartstart_run (q ++ [u8 c]) (set_held [LUart] (set_uart (tx_put c (k_uart s)) s)))
    as (b & u' & q' & Hst & [H1 H2 H3 H4 H4' H5] & H6); try done; [by apply tx_put_rep|].
  exists b, u', q'. split_and!; [| |done].
  - assert (E : uart_tx_w (k_uart s) =? u64 (uart_tx_r (k_uart s) + UART_TX_BUF_SIZE) = false)
      by (rewrite (tx_full _ _ Htx); apply Z.eqb_neq; lia).
    destruct wait_fuel; cbn [uartputc_loop]; run_by (unfold gets; reflexivity);
      change (k_uart (set_held [LUart] s)) with (k_uart s); rewrite E; run_by (unfold upd_uart, modify; reflexivity);
      run_by (exact Hst); (erewrite release_ok; [|by destruct b|set_solver]);
      clear -Hh; destruct s; cbn in Hh; subst; by destruct b.
  - split; try done; [by rewrite app_nil_r in H2|]. rewrite length_app in H5. cbn [length] in *. lia.
Qed.
End transmit.

(** ** The interrupt *)

Section cons_spec.
Context `{Ud : UartDev} `{Wf : WaitFuel}.

(** What is known of the device: between two polls it sends or finishes
    sending, and characters that the terminal sends may arrive; it is ready for
    another byte after at most [wait_fuel] polls. *)
Hypothesis poll_out : ∀ u, ∃ n g, uart_poll u = uart_out n [] g u.
Hypothesis poll_ready : ∀ u, ∃ i, (i <= wait_fuel)%nat ∧ ua_idle (Nat.iter i uart_poll u) ≠ 0%nat.
Implicit Types (s : kst) (co : consstate) (k : editor) (c : Z).

Lemma tx_wait_run fuel s :
  (∃ i, (i <= fuel)%nat ∧ ua_idle (Nat.iter i uart_poll (k_uart s)) ≠ 0%nat) →
  ∃ n g, tx_wait fuel s = Done tt (shown n [] g (k_cons s) s).
Proof using poll_out.
  assert (Hl : ∀ t, ReadReg LSR t = Done (lsr (k_uart t)) t) by done.
  revert s. induction fuel as [|fuel IH]; intros s (i & Hi & Hr); cbn [tx_wait]; run_by (apply Hl); rewrite lsr_idle;
    (destruct (ua_idle (k_uart s) =? 0)%nat eqn:E; cbn [negb]; [|exists (ua_idle (k_uart s)), 0%nat; by rewrite shown_nil]);
    apply Nat.eqb_eq in E.
  - by assert (i = 0%nat) as -> by lia.
  - destruct i as [|i]; [done|]. rewrite Nat.iter_succ_r in Hr. destruct (poll_out (k_uart s)) as (n1 & g1 & H1).
    run_by (unfold upd_uart, modify; reflexivity). rewrite H1 in *.
    destruct (IH (shown n1 [] g1 (k_cons s) s)) as (n & g & Hrun); [exists i; split; [lia|done]|].
    exists n, (g1 + g)%nat. rewrite shown_shown in Hrun. cbn [app] in Hrun. by destruct s.
Qed.

(** [m] sends the bytes [l] and does nothing else. *)
Definition prints (m : K unit) (l : list Z) : Prop :=
  ∀ s, printing s → ∃ n g, m s = Done tt (shown n l g (k_cons s) s).

Lemma prints_ret : prints (mret tt) [].
Proof. intros s _. exists (ua_idle (k_uart s)), 0%nat. by rewrite shown_nil. Qed.

Lemma prints_bind m l m' l' : prints m l → prints m' l' → prints (m;; m') (l ++ l').
Proof.
  intros H H' s Hp. destruct (H s Hp) as (n & g & E). destruct (H' (shown n l g (k_cons s) s) Hp) as (n' & g' & E').
  exists n', (g + g')%nat. run_by (exact E). by rewrite E', shown_shown.
Qed.

Lemma uartputc_sync_prints c : prints (uartputc_sync c) [u8 c].
Proof using poll_out poll_ready.
  intros s [Hp Hb]. unfold uartputc_sync. run_by (unfold gets; reflexivity). rewrite Hp.
  destruct (tx_wait_run wait_fuel s (poll_ready _)) as (n & g & Hn). run_by (exact Hn). exists (pred n), g.
  unfold WriteReg, upd_uart, modify. change (THR =? THR) with true.
  change (baud_latch (k_uart (shown n [] g (k_cons s) s))) with (baud_latch (k_uart s)). rewrite Hb. cbn [andb negb].
  unfold shown, uart_out. cbn. by rewrite app_nil_r.
Qed.

Lemma consputc_prints c : prints (consputc c) (glyph c).
Proof using poll_out poll_ready.
  unfold consputc, glyph. destruct (c =? BACKSPACE); [|apply uartputc_sync_prints].
  apply (prints_bind _ [8]), (prints_bind _ [32]); apply uartputc_sync_prints.
Qed.

Lemma putcs_prints l : prints (putcs l) (glyphs l).
Proof using poll_out poll_ready.
  induction l as [|c l IH]; [apply prints_ret|]. apply prints_bind; [apply consputc_prints|done].
Qed.

(** *** The list of processes *)

Lemma print_fmt_plain c fmt ap l : c ≠ 37 → c ≠ BACKSPACE → prints (print_fmt fmt ap) l → prints (print_fmt (c :: fmt) ap) (u8 c :: l).
Proof using poll_out poll_ready.
  intros H1 H2 Hl. cbn [print_fmt]. rewrite (proj2 (Z.eqb_neq c 37) H1). cbn [negb].
  apply (prints_bind _ [u8 c]); [|done]. pose proof (consputc_prints c) as Hc. unfold glyph in Hc.
  by rewrite (proj2 (Z.eqb_neq c _) H2) in Hc.
Qed.

Lemma print_fmt_d fmt x ap l :
  prints (print_fmt fmt ap) l → prints (print_fmt (37 :: 100 :: fmt) (PInt x :: ap)) (glyphs (reverse (printint_buf x 10 true)) ++ l).
Proof using poll_out poll_ready. intros Hl. exact (prints_bind _ _ _ _ (putcs_prints _) Hl). Qed.

Lemma print_fmt_s fmt x ap l :
  prints (print_fmt fmt ap) l → prints (print_fmt (37 :: 115 :: fmt) (PStr (Some x) :: ap)) (glyphs x ++ l).
Proof using poll_out poll_ready. intros Hl. exact (prints_bind _ _ _ _ (putcs_prints _) Hl). Qed.

(** [printf] while the console is locked. *)
Lemma printf_run fmt ap l s :
  prints (print_fmt (codes fmt) ap) l → printing s → k_held s = [LCons] →
  ∃ n g, printf fmt ap s = Done tt (shown n l g (k_cons s) s).
Proof.
  intros Hl Hp Hh. unfold printf. run_by (unfold gets; reflexivity). destruct (pr_locking (k_dev s)); cbn [when].
  - run_by (apply acquire_ok; rewrite Hh; set_solver). destruct (Hl (set_held (LPrintf :: k_held s) s) Hp) as (n & g & E).
    exists n, g. run_by (exact E). rewrite Hh. erewrite release_ok; [|reflexivity|set_solver].
    clear -Hh. destruct s. cbn in Hh. by subst.
  - run_by reflexivity. destruct (Hl s Hp) as (n & g & E). exists n, g. by run_by (exact E).
Qed.

Lemma newline_run s : printing s → k_held s = [LCons] → ∃ n g, printf newline [] s = Done tt (shown n [10] g (k_cons s) s).
Proof using poll_out poll_ready.
  intros Hp Hh. apply printf_run; try done. apply (print_fmt_plain 10); [done..|]. apply prints_ret.
Qed.

Lemma proc_fmt_prints p :
  prints (print_fmt (codes "%d %s %s")
            [PInt (p_pid p); PStr (Some (codes (state_name (p_state p)))); PStr (Some (cstr (p_name p)))])
    (glyphs (reverse (printint_buf (p_pid p) 10 true)) ++ [32] ++ glyphs (codes (state_name (p_state p))) ++ [32] ++
     glyphs (cstr (p_name p))).
Proof using poll_out poll_ready.
  change (codes "%d %s %s") with [37; 100; 32; 37; 115; 32; 37; 115].
  apply print_fmt_d, (print_fmt_plain 32); [done..|]. apply print_fmt_s, (print_fmt_plain 32); [done..|].
  rewrite <- (app_nil_r (glyphs (cstr (p_name p)))). apply print_fmt_s, prints_ret.
Qed.

Lemma proc_lines_S s i n : proc_lines s i (S n) = proc_line (get_proc s i) ++ proc_lines s (S i) n.
Proof. done. Qed.

Lemma proc_lines_run n i s :
  printing s → k_held s = [LCons] →
  ∃ m g, for_each n (Z.of_nat i) (λ i,
      p ← gets (λ s, get_proc s (Z.to_nat i));
      if bool_decide (p_state p = UNUSED) then mret tt else
      printf "%d %s %s" [PInt (p_pid p); PStr (Some (codes (state_name (p_state p)))); PStr (Some (cstr (p_name p)))];;
      printf newline []) s = Done tt (shown m (proc_lines s i n) g (k_cons s) s).
Proof using poll_out poll_ready.
  revert i s. induction n as [|n IH]; intros i s Hp Hh; [by apply prints_ret|]. cbn [for_each].
  rewrite proc_lines_S. replace (Z.of_nat i + 1) with (Z.of_nat (S i)) by lia.
  assert (∃ m g, (p ← gets (λ s, get_proc s (Z.to_nat (Z.of_nat i)));
      if bool_decide (p_state p = UNUSED) then mret tt else
      printf "%d %s %s" [PInt (p_pid p); PStr (Some (codes (state_name (p_state p)))); PStr (Some (cstr (p_name p)))];;
      printf newline []) s = Done tt (shown m (proc_line (get_proc s i)) g (k_cons s) s)) as (m1 & g1 & E1).
  { rewrite Nat2Z.id. run_by (unfold gets; reflexivity). set (p := get_proc s i). unfold proc_line.
    destruct (bool_decide _); [by apply prints_ret|].
    destruct (printf_run _ _ _ _ (proc_fmt_prints p) Hp Hh) as (m1 & g1 & E1).
    match type of E1 with _ = Done tt ?s1 => destruct (newline_run s1 Hp Hh) as (m2 & g2 & E2) end. exists m2, (g1 + g2)%nat.
    run_by (exact E1). rewrite E2, shown_shown. by rewrite <- !app_assoc. }
  run_by (exact E1). destruct (IH (S i) (shown m1 (proc_line (get_proc s i)) g1 (k_cons s) s) Hp Hh) as (m & g & E).
  exists m, (g1 + g)%nat. by rewrite E, shown_shown.
Qed.

Lemma procdump_run s : printing s → k_held s = [LCons] → ∃ n g, procdump s = Done tt (shown n (dump s) g (k_cons s) s).
Proof using poll_out poll_ready.
  intros Hp Hh. unfold procdump. destruct (newline_run s Hp Hh) as (n & g & E). run_by (exact E).
  destruct (proc_lines_run NPROC 0 (shown n [10] g (k_cons s) s) Hp Hh) as (n' & g' & E'). exists n', (g + g')%nat.
  change 0 with (Z.of_nat 0). by rewrite E', shown_shown.
Qed.

(** *** Input *)

Lemma kill_line_run line s ready :
  printing s → cons_rep (k_cons s) (mk_editor ready line) →
  ∃ n g co, kill_line (length line) s = Done tt (shown n (concat (replicate (length line) rubout)) g co s) ∧
    cons_rep co (mk_editor ready []).
Proof using poll_out poll_ready.
  revert s. induction line as [|c line IH] using rev_ind; intros s Hp Hrep.
  - exists (ua_idle (k_uart s)), 0%nat, (k_cons s). cbn [length kill_line replicate concat]. run_by (unfold gets; reflexivity).
    rewrite (rep_edited _ _ Hrep), shown_nil. done.
  - pose proof (rep_edited _ _ Hrep) as He. pose proof (cr_line _ _ Hrep) as Hnl. cbn [ed_line] in He, Hnl.
    rewrite bool_decide_false in He by (by destruct line).
    destruct (rep_last _ _ _ _ Hrep) as [Hc Hrep']. rewrite length_app, Nat.add_1_r. cbn [kill_line].
    run_by (unfold gets; reflexivity). rewrite He, Hc, (proj2 (Z.eqb_neq c 10)) by set_solver. cbn [negb andb].
    run_by (unfold upd_cons, modify; reflexivity). set (co1 := set_cons_e _ _).
    destruct (consputc_prints BACKSPACE (set_cons co1 s)) as (n1 & g1 & H1); [done|]. run_by (exact H1).
    change (glyph BACKSPACE) with rubout.
    destruct (IH (shown n1 rubout g1 co1 s)) as (n & g & co & Hrun & Hco); [done|done|].
    exists n, (g1 + g)%nat, co. cbn [replicate concat]. split; [|done].
    change (shown n1 rubout g1 _ (set_cons co1 s)) with (shown n1 rubout g1 co1 s). by rewrite Hrun, shown_shown.
Qed.

Lemma erase_run s k :
  printing s → cons_rep (k_cons s) k →
  ∃ n g co, (co ← gets k_cons;
           when (negb (cons_e co =? cons_w co)) (
             upd_cons (λ co, set_cons_e (u32 (cons_e co - 1)) co);;
             consputc BACKSPACE)) s =
          Done tt (shown n (match ed_line k with [] => [] | _ => rubout end) g co s) ∧
    cons_rep co (mk_editor (ed_ready k) (removelast (ed_line k))).
Proof using poll_out poll_ready.
  intros Hp Hrep. run_by (unfold gets; reflexivity). rewrite (rep_edited _ _ Hrep).
  destruct k as [ready line]. cbn [ed_line ed_ready]. destruct line as [|c line _] using rev_ind.
  - exists (ua_idle (k_uart s)), 0%nat, (k_cons s). by rewrite bool_decide_true, shown_nil.
  - rewrite bool_decide_false by (by destruct line). cbn [negb when].
    destruct (rep_last _ _ _ _ Hrep) as [_ Hrep']. run_by (unfold upd_cons, modify; reflexivity). set (co1 := set_cons_e _ _).
    destruct (consputc_prints BACKSPACE (set_cons co1 s)) as (n1 & g1 & H1); [done|]. exists n1, g1, co1.
    rewrite removelast_last, H1. split; [by destruct line|done].
Qed.

Lemma consoleintr_default_run c s k :
  printing s → cons_rep (k_cons s) k → 0 <= c < 256 → c ≠ ctrl_P → c ≠ ctrl_U → erases c = false →
  k_held s = [LCons] → length (ps_procs (k_proc s)) = NPROC →
  ∃ n g co, consoleintr_default c s = Done tt (wake_if (commits c k) ChCons (shown n (echo c k s) g co s)) ∧
    cons_rep co (edit c k).
Proof using poll_out poll_ready.
  intros Hp Hrep Hc HP Hu He Hh Hn. unfold consoleintr_default, echo, commits, edit.
  rewrite (proj2 (Z.eqb_neq _ _) HP), (proj2 (Z.eqb_neq _ _) Hu), He. cbn [negb andb]. run_by (unfold gets; reflexivity).
  rewrite (rep_room _ _ Hrep). fold (accepts c k). destruct (accepts c k) eqn:Ha; cbn [andb].
  2: { exists (ua_idle (k_uart s)), 0%nat, (k_cons s). by rewrite shown_nil. }
  apply andb_true_iff in Ha as [_ Hlt%Z.ltb_lt]. fold (cr c).
  assert (Hcr : 0 <= cr c < 256) by (unfold cr; case_match; lia).
  destruct (consputc_prints (cr c) s Hp) as (n1 & g1 & H1). run_by (exact H1).
  assert (glyph (cr c) = [cr c]) as ->.
  { unfold glyph, BACKSPACE. rewrite (proj2 (Z.eqb_neq _ _)) by lia. by rewrite u8_small. }
  run_by (unfold upd_cons, modify; reflexivity). change (k_cons (shown n1 [cr c] g1 (k_cons s) s)) with (k_cons s).
  fold (cons_put (cr c) (k_cons s)). set (co1 := cons_put _ _).
  destruct (rep_put (k_cons s) k (cr c) Hrep Hlt Hcr) as (Hfull & Hkeep & Hcommit). fold co1 in Hfull, Hkeep, Hcommit.
  run_by (unfold gets; reflexivity). rewrite shown_cons. change (k_cons (shown n1 [cr c] g1 co1 s)) with co1.
  rewrite Hfull. unfold ends. destruct ((cr c =? 10) || (cr c =? ctrl_D) || (ed_len k + 1 =? INPUT_BUF)) eqn:Hend; cbn [when].
  - run_by (unfold upd_cons, modify; reflexivity). rewrite shown_cons.
    exists n1, g1, (set_cons_w (cons_e co1) co1). split; [|done]. by rewrite (wake_run ChCons LCons).
  - exists n1, g1, co1. split; [done|]. apply Hkeep. intros E. rewrite E in Hend. done.
Qed.

(** [consoleintr] edits, echoes, wakes the readers if a line is complete, and
    changes nothing else. *)
Lemma consoleintr_run c s k :
  printing s → cons_rep (k_cons s) k → 0 <= c < 256 →
  k_held s = [] → length (ps_procs (k_proc s)) = NPROC →
  ∃ n g co, consoleintr c s = Done tt (wake_if (commits c k) ChCons (shown n (echo c k s) g co s)) ∧
    cons_rep co (edit c k).
Proof using poll_out poll_ready.
  intros Hp Hrep Hc Hh Hn. set (s1 := set_held [LCons] s).
  assert (Hacq : acquire LCons s = Done tt s1) by (rewrite acquire_ok by (rewrite Hh; set_solver); by rewrite Hh).
  unfold consoleintr. run_by (exact Hacq).
  assert (Hbody : ∀ m n l g co b, m s1 = Done tt (wake_if b ChCons (shown n l g co s1)) →
    (m;; release LCons) s1 = Done tt (wake_if b ChCons (shown n l g co s))).
  { intros m n l g co b Hm. run_by (exact Hm). erewrite release_ok; [|by destruct b|set_solver].
    clear -Hh. destruct s. cbn in Hh. subst. by destruct b. }
  destruct (Z.eqb_spec c ctrl_P) as [HP|HP]; [|destruct (Z.eqb_spec c ctrl_U) as [HU|HU]; [|fold (erases c); destruct (erases c) eqn:He]].
  - destruct (procdump_run s1 Hp eq_refl) as (n & g & Hrun). exists n, g, (k_cons s). unfold commits, echo, edit. rewrite HP.
    split; [|done]. by apply (Hbody _ _ _ _ _ false).
  - destruct k as [ready line]. destruct (kill_line_run line s1 ready Hp Hrep) as (n & g & co & Hrun & Hco).
    exists n, g, co. unfold commits, echo, edit. rewrite HU. split; [|done]. apply (Hbody _ _ _ _ _ false).
    run_by (unfold gets; reflexivity). change (k_cons s1) with (k_cons s). rewrite (rep_line_len _ _ Hrep), Nat2Z.id. exact Hrun.
  - destruct (erase_run s1 k Hp Hrep) as (n & g & co & Hrun & Hco). exists n, g, co. unfold commits, echo, edit.
    rewrite (proj2 (Z.eqb_neq _ _) HP), (proj2 (Z.eqb_neq _ _) HU), He. split; [|done]. by apply (Hbody _ _ _ _ _ false).
  - destruct (consoleintr_default_run c s1 k Hp Hrep Hc HP HU He eq_refl Hn) as (n & g & co & Hrun & Hco).
    exists n, g, co. split; [|done]. by apply Hbody.
Qed.

(** *** All the characters that wait *)

(** The editor after the characters [l], what is echoed, and whether a line
    was completed. *)
Definition edits (l : list Z) (k : editor) : editor := foldl (λ k c, edit c k) k l.
Fixpoint echoes (l : list Z) (k : editor) (s : kst) : list Z :=
  match l with [] => [] | c :: l => echo c k s ++ echoes l (edit c k) (wake_if (commits c k) ChCons s) end.
Fixpoint completes (l : list Z) (k : editor) : bool :=
  match l with [] => false | c :: l => commits c k || completes l (edit c k) end.

(** The echoes depend on the table of processes alone. *)
Lemma echoes_proc l k s s' : k_proc s' = k_proc s → echoes l k s' = echoes l k s.
Proof.
  revert k s s'. induction l as [|c l IH]; intros k s s' E; [done|]. cbn [echoes]. f_equal.
  - unfold echo, dump, proc_lines, get_proc. by rewrite E.
  - apply IH. destruct (commits c k); [|done]. unfold wake_if, wake, set_procs. cbn. by rewrite E.
Qed.

(** The device after [l] went out and all that had arrived was read, when [g]
    more characters had. *)
Definition drained (n : nat) (l : list Z) (g : nat) (u : uartstate) : uartstate :=
  mk_uart (uart_tx_buf u) (uart_tx_w u) (uart_tx_r u) n (ua_sent u ++ l) [] (ua_regs u) (drop g (ua_line u)).

Definition arrived (g : nat) (u : uartstate) : list Z := ua_rx u ++ take g (ua_line u).

Definition rx_rest (rx : list Z) (u : uartstate) : uartstate :=
  mk_uart (uart_tx_buf u) (uart_tx_w u) (uart_tx_r u) (ua_idle u) (ua_sent u) rx (ua_regs u) (ua_line u).

Lemma drained_step n1 g1 rx n2 l2 g2 n l g u :
  drained n l g (uart_out n2 l2 g2 (rx_rest rx (uart_out n1 [] g1 u))) = drained n (l2 ++ l) (g1 + (g2 + g)) u.
Proof. unfold drained, uart_out, rx_rest. cbn. by rewrite app_nil_r, <- app_assoc, !drop_drop. Qed.

Lemma uartgetc_run s : ∃ n g, let u := uart_out n [] g (k_uart s) in
  uartgetc s = match ua_rx u with [] => Done (-1) (set_uart u s) | c :: rx => Done c (set_uart (rx_rest rx u) s) end.
Proof using poll_out.
  destruct (poll_out (k_uart s)) as (n & g & E). exists n, g. set (u := uart_out n [] g (k_uart s)) in *. cbn zeta.
  unfold uartgetc. run_by (unfold upd_uart, modify; rewrite E; reflexivity). run_by (unfold ReadReg, gets; reflexivity).
  change (k_uart (set_uart u s)) with u. clearbody u. unfold lsr. destruct (ua_rx u) as [|c rx] eqn:Erx; [by destruct (ua_idle u)|].
  replace (negb _) with true by (by destruct (ua_idle u)). unfold ReadReg. run_by (unfold gets; reflexivity).
  cbn. unfold upd_uart, modify, mbind, M_bind. cbn. rewrite Erx. done.
Qed.

Lemma uartintr_loop_run fuel s k :
  (length (ua_rx (k_uart s)) + length (ua_line (k_uart s)) <= fuel)%nat →
  printing s → cons_rep (k_cons s) k → Forall (λ c, 0 <= c < 256) (ua_rx (k_uart s) ++ ua_line (k_uart s)) →
  k_held s = [] → length (ps_procs (k_proc s)) = NPROC →
  ∃ n g co, let l := arrived g (k_uart s) in uartintr_loop fuel s =
          Done tt (wake_if (completes l k) ChCons (set_uart (drained n (echoes l k s) g (k_uart s)) (set_cons co s))) ∧
    cons_rep co (edits l k).
Proof using poll_out poll_ready.
  revert s k. induction fuel as [|fuel IH]; intros s k Hf Hp Hrep Hl Hh Hn; cbn [uartintr_loop];
    destruct (uartgetc_run s) as (n1 & g1 & Hg); cbn zeta in Hg;
    change (ua_rx (uart_out n1 [] g1 (k_uart s))) with (arrived g1 (k_uart s)) in Hg;
    (destruct (arrived g1 (k_uart s)) as [|c rx] eqn:Ea;
      [exists n1, g1, (k_cons s); rewrite Ea; split; [|done]; run_by (exact Hg); unfold uart_out;
       fold (arrived g1 (k_uart s)); rewrite Ea; by destruct s|]).
  - exfalso. unfold arrived in Ea. destruct (ua_rx (k_uart s)), (ua_line (k_uart s)); [|cbn in Hf; lia..].
    by rewrite take_nil in Ea.
  - set (u1 := rx_rest rx (uart_out n1 [] g1 (k_uart s))) in *. set (s1 := set_uart u1 s) in *.
    assert (Hbytes : Forall (λ c, 0 <= c < 256) ((c :: rx) ++ drop g1 (ua_line (k_uart s)))).
    { rewrite <- Ea. unfold arrived. by rewrite <- app_assoc, take_drop. }
    assert (Hlen : (S (length rx) + length (drop g1 (ua_line (k_uart s))) = length (ua_rx (k_uart s)) + length (ua_line (k_uart s)))%nat).
    { change (S (length rx)) with (length (c :: rx)). rewrite <- Ea. unfold arrived.
      rewrite <- (take_drop g1 (ua_line (k_uart s))) at 3. rewrite !length_app. lia. }
    apply Forall_cons in Hbytes as [Hc Hbytes]. run_by (exact Hg). rewrite (proj2 (Z.eqb_neq c (-1))) by lia.
    destruct (consoleintr_run c s1 k) as (n2 & g2 & co & Hrun & Hco); try done. run_by (exact Hrun).
    set (s2 := shown n2 (echo c k s1) g2 co s1) in *.
    assert (Hu : k_uart (wake_if (commits c k) ChCons s2) = uart_out n2 (echo c k s1) g2 u1) by (by destruct (commits c k)).
    assert (Ha : ∀ g, arrived (g1 + (g2 + g)) (k_uart s) = c :: arrived g (uart_out n2 (echo c k s1) g2 u1)).
    { intros g. unfold arrived. cbn [uart_out ua_rx ua_line u1 rx_rest].
      rewrite <- take_take_drop, app_assoc. fold (arrived g1 (k_uart s)). rewrite Ea. cbn [app].
      by rewrite <- take_take_drop, app_assoc. }
    destruct (IH (wake_if (commits c k) ChCons s2) (edit c k)) as (n & g & co' & Hrun' & Hco').
    { rewrite Hu. cbn [uart_out ua_rx ua_line u1 rx_rest]. rewrite length_app, <- Nat.add_assoc, <- length_app, take_drop. lia. }
    { by destruct (commits c k). }
    { by destruct (commits c k). }
    { rewrite Hu. cbn [uart_out ua_rx ua_line u1 rx_rest]. by rewrite <- app_assoc, take_drop. }
    { by rewrite wake_if_held. }
    { destruct (commits c k); cbn; by rewrite ?length_imap. }
    cbn zeta in Hrun', Hco'. rewrite Hu in Hrun', Hco'.
    exists n, (g1 + (g2 + g))%nat, co'. rewrite Ha. split; [|done]. rewrite Hrun'. cbn [echoes completes].
    set (l := arrived g _) in *.
    rewrite (echoes_proc l _ (wake_if (commits c k) ChCons s)) by (by destruct (commits c k)).
    unfold u1. rewrite drained_step. change (echo c k s1) with (echo c k s). set (u2 := drained n _ _ (k_uart s)). f_equal.
    destruct (commits c k), (completes l (edit c k)); cbn [orb wake_if]; try done.
    exact (wake_wake ChCons (set_uart u2 (set_cons co' s))).
Qed.

(** C13: [uartintr] takes every character that waits in the device, and every
    one that arrives while it works, through the line editor, in order:
    control-U erases the line, backspace its last character, control-P changes
    nothing, any other character but NUL is appended to the line if the buffer of
    128 bytes has room, and a newline, control-D or a full buffer hands the line to
    the readers and wakes them.  The terminal gets exactly the echoes, one
    rubout for each erased character and the list of processes, in their states
    at that moment, for a control-P, and then bytes of the transmit buffer in
    order, until the buffer is empty or the device is busy; the writers that wait
    for room are woken.  Nothing else changes.  It needs a device that is ready to
    send after some number of polls. *)
Theorem uartintr_spec s k q :
  printing s → cons_rep (k_cons s) k → tx_rep (k_uart s) q →
  Forall (λ c, 0 <= c < 256) (ua_rx (k_uart s) ++ ua_line (k_uart s)) →
  k_held s = [] → length (ps_procs (k_proc s)) = NPROC →
  ∃ g co b u' q', let l := ua_rx (k_uart s) ++ take g (ua_line (k_uart s)) in
    uartintr s = Done tt (wake_if b ChUart (wake_if (completes l k) ChCons (set_uart u' (set_cons co s)))) ∧
    cons_rep co (edits l k) ∧ ua_rx u' = [] ∧ ua_line u' = drop g (ua_line (k_uart s)) ∧
    ua_regs u' = ua_regs (k_uart s) ∧ tx_rep u' q' ∧
    ua_sent u' ++ q' = ua_sent (k_uart s) ++ echoes l k s ++ q ∧ busy u' q'.
Proof using poll_out poll_ready.
  intros Hp Hrep Htx Hl Hh Hn. unfold uartintr. run_by (unfold gets; reflexivity).
  destruct (uartintr_loop_run _ s k ltac:(done) Hp Hrep Hl Hh Hn) as (n & g & co & Hrun & Hco). cbn zeta in *.
  set (l := arrived g (k_uart s)) in *.
  set (s1 := set_uart (drained n (echoes l k s) g (k_uart s)) (set_cons co s)) in *. set (s2 := wake_if (completes l k) ChCons s1) in *.
  assert (Hacq : acquire LUart s2 = Done tt (set_held [LUart] s2)).
  { assert (k_held s2 = []) as E by (unfold s2; by destruct (completes l k)).
    rewrite acquire_ok by (rewrite E; set_solver). by rewrite E. }
  assert (Hu : k_uart s2 = k_uart s1) by (unfold s2; by destruct (completes l k)).
  destruct (uartstart_run q (set_held [LUart] s2)) as (b & u' & q' & Hst & [H1 H2 H3 H4 H4' H5] & H6); try done.
  { change (k_uart (set_held [LUart] s2)) with (k_uart s2). rewrite Hu. destruct Htx. by split. }
  { change (k_uart (set_held [LUart] s2)) with (k_uart s2). rewrite Hu. apply Hp. }
  { unfold s2. destruct (completes l k); cbn; by rewrite ?length_imap. }
  change (k_uart (set_held [LUart] s2)) with (k_uart s2) in *. rewrite Hu in *.
  exists g, co, b, u', q'. fold (arrived g (k_uart s)). fold l. split_and!; try done.
  - run_by (exact Hrun). run_by (exact Hacq). run_by (exact Hst).
    erewrite release_ok; [|by destruct b|set_solver]. unfold s2. clear -Hh. destruct s. cbn in Hh. subst.
    by destruct b, (completes l k).
  - rewrite H2, app_nil_r. cbn. by rewrite <- app_assoc.
Qed.

End cons_spec.

(** ** The system calls of a process *)

Section user.
Context `{Ki : KernelImage} `{Ud : UartDev} `{Wf : WaitFuel}.
Implicit Types (s : kst) (fl : list Z) (own : gmap Z tag) (root : Z).

Lemma uread_byte m root va b : uread m root va = Some b → 0 <= b < 256.
Proof.
  unfold uread, uview. repeat case_match; intros; simplify_eq. apply rd_byte.
Qed.

Lemma sends_trans u q l u1 q1 l1 u2 q2 :
  sends u q l u1 q1 → sends u1 q1 l1 u2 q2 → sends u q (l ++ l1) u2 q2.
Proof.
  intros [H1 H2 H3 H4 H4' H5] [G1 G2 G3 G4 G4' G5]. split; try done; try congruence.
  - by rewrite G2, app_assoc, H2, !app_assoc.
  - rewrite length_app. lia.
Qed.

Lemma consolewrite_loop_run m s fl own root addr i q :
  uvm_ok s fl own → uroot s own root → p_pagetable (get_proc s (ps_cur (k_proc s))) = root →
  printing s → tx_rep (k_uart s) q →
  Z.of_nat (length q + m) <= UART_TX_BUF_SIZE →
  k_held s = [] → length (ps_procs (k_proc s)) = NPROC → 0 <= addr → addr + Z.of_nat m < 2 ^ 64 →
  ∃ bs b u' q', consolewrite_loop m (SUser addr) i s =
      Done (i + Z.of_nat (length bs)) (wake_if b ChUart (set_uart u' s)) ∧
    sends (k_uart s) q bs u' q' ∧ uholds (get_mem s) root addr bs ∧
    (length bs = m ∨ (length bs < m)%nat ∧ uaccess (get_mem s) root (addr + Z.of_nat (length bs)) = false).
Proof.
  revert s addr i q. induction m as [|m IH]; intros s addr i q Hok Hr Hpt Hp Htx Hroom Hh Hn Hlo Hhi; cbn [consolewrite_loop].
  { exists [], false, (k_uart s), q. rewrite Z.add_0_r. split_and!; [by destruct s| |done|by left].
    split; try done; [by rewrite app_nil_r|cbn; lia]. }
  destruct (copyin_run s fl own root addr 1 Hok Hr ltac:(lia) ltac:(lia)) as (r & bs & Hc & Hb & Hres).
  assert (Hei : either_copyin (SUser addr) 1 s = Done (r, bs) s).
  { unfold either_copyin. run_by (unfold myproc, gets; reflexivity). run_by (unfold proc_get, gets; reflexivity).
    by rewrite Hpt. }
  run_by (exact Hei). cbn [fst snd]. destruct Hres as [[-> Hl]|(-> & Hl & Hacc)].
  - destruct bs as [|c [|]]; [done| |cbn [length] in Hl; lia]. change (0 =? -1) with false. cbn [hd].
    assert (Hc8 : u8 c = c) by (apply u8_small, (uread_byte (get_mem s) root addr); rewrite <- (Hb 0%nat c eq_refl); f_equal; lia).
    destruct (uartputc_run c s q Htx Hp ltac:(lia) Hh Hn) as (b & u1 & q1 & Hput & Hs1 & _). run_by (exact Hput).
    rewrite Hc8 in Hs1. set (s1 := wake_if b ChUart (set_uart u1 s)). cbn [src_add]. rewrite u64_small by lia.
    pose proof (sd_len _ _ _ _ _ Hs1) as Hlen. cbn [length] in Hlen.
    destruct (IH s1 (addr + 1) (i + 1) q1) as (bs & b2 & u2 & q2 & Hrun & Hs2 & Hb2 & Hres); try lia.
    + apply (uvm_ok_state s); [by destruct b|subst s1; rewrite wake_if_held; cbn; rewrite Hh; set_solver|done].
    + by destruct b.
    + subst s1. rewrite wake_pagetable. by destruct b.
    + destruct Hp as [Hpk Hbl]. split; [by destruct b|]. unfold baud_latch in *. rewrite <- (sd_regs _ _ _ _ _ Hs1) in Hbl. by destruct b.
    + destruct Hs1. by destruct b.
    + subst s1. by rewrite wake_if_held.
    + destruct b; cbn; by rewrite ?length_imap.
    + exists (c :: bs), (b || b2), u2, q2. split_and!.
      * rewrite Hrun. cbn [length]. f_equal; [lia|]. subst s1.
        destruct b, b2; cbn [orb wake_if]; try done. exact (wake_wake ChUart (set_uart u2 s)).
      * apply (sends_trans _ _ [c] u1 q1); [done|]. by destruct b.
      * apply (uholds_app _ _ _ [c]); [done|]. by destruct b.
      * cbn [length]. replace (addr + Z.of_nat (S (length bs))) with (addr + 1 + Z.of_nat (length bs)) by lia.
        destruct Hres as [->|[Hlt Ha]]; [by left|right]. split; [lia|by destruct b].
  - change (-1 =? -1) with true. exists [], false, (k_uart s), q.
    assert (bs = []) as -> by (apply nil_length_inv; lia). rewrite Z.add_0_r. cbn [length] in *.
    split_and!; [by destruct s| |done|right; split; [lia|done] ].
    split; try done; [by rewrite app_nil_r|cbn; lia].
Qed.

(** C30: [consolewrite] from a process: (1) with room for [n] bytes in the
    transmit buffer it hands to the device or queues, behind what was written
    before and in order, the [n] bytes that the caller has at [addr], or those before the
    first address the caller may not access, and returns their number without
    waiting; (2) with a full buffer it goes to sleep until the device has
    taken a byte. *)
Theorem consolewrite_spec s fl own root addr n q :
  let me := ps_cur (k_proc s) in
  uvm_ok s fl own → uroot s own root → p_pagetable (get_proc s me) = root →
  printing s → tx_rep (k_uart s) q → k_held s = [] → length (ps_procs (k_proc s)) = NPROC →
  0 <= addr → 0 <= n → addr + n < 2 ^ 64 →
  (Z.of_nat (length q) + n <= UART_TX_BUF_SIZE →
   ∃ bs b u' q', consolewrite (SUser addr) n s = Done (Z.of_nat (length bs)) (wake_if b ChUart (set_uart u' s)) ∧
     sends (k_uart s) q bs u' q' ∧ uholds (get_mem s) root addr bs ∧
     (Z.of_nat (length bs) = n ∨
      Z.of_nat (length bs) < n ∧ uaccess (get_mem s) root (addr + Z.of_nat (length bs)) = false)) ∧
  (Z.of_nat (length q) = UART_TX_BUF_SIZE → 0 < n → uaccess (get_mem s) root addr = true → (me < NPROC)%nat →
   ∀ fuel, wait_fuel = S fuel → ∃ next, consolewrite (SUser addr) n s = Swtch (asleep ChUart me s) next).
Proof.
  intros me Hok Hr Hpt Hp Htx Hh Hn Ha Hn0 Hhi. split.
  - intros Hroom. destruct (consolewrite_loop_run (Z.to_nat n) s fl own root addr 0 q) as (bs & b & u' & q' & Hrun & H1 & H2 & H3);
      try (done || lia).
    exists bs, b, u', q'. split_and!; try done. destruct H3 as [H3|[H3 H4]]; [left; lia|right; split; [lia|done] ].
  - intros Hfull Hpos Hacc Hme fuel Hf. unfold consolewrite. replace (Z.to_nat n) with (S (Z.to_nat (n - 1))) by lia.
    cbn [consolewrite_loop].
    destruct (copyin_run s fl own root addr 1 Hok Hr ltac:(lia) ltac:(lia)) as (r & bs & Hc & Hb & Hres).
    assert (Hei : either_copyin (SUser addr) 1 s = Done (r, bs) s).
    { unfold either_copyin. run_by (unfold myproc, gets; reflexivity). run_by (unfold proc_get, gets; reflexivity).
      fold me. by rewrite Hpt. }
    destruct Hres as [[-> Hl]|(_ & Hl & Hno)].
    2: { assert (bs = []) as -> by (apply nil_length_inv; lia). cbn [length] in Hno. rewrite Z.add_0_r in Hno. congruence. }
    set (s1 := set_held [LUart] s).
    assert (Hacq : acquire LUart s = Done tt s1) by (rewrite acquire_ok by (rewrite Hh; set_solver); by rewrite Hh).
    destruct (sleep_run ChUart LUart s1) as (k & Hsl & _); [set_solver|cbn; by rewrite Hn|done|].
    eexists. run_by (exact Hei). cbn [fst snd]. change (0 =? -1) with false. cbn iota.
    unfold uartputc. apply bind_Swtch. run_by (exact Hacq). run_by (unfold gets; reflexivity).
    change (panicked (k_dev s1)) with (panicked (k_dev s)). rewrite (proj1 Hp).
    rewrite Hf. cbn [uartputc_loop]. run_by (unfold gets; reflexivity).
    change (k_uart s1) with (k_uart s). rewrite (tx_full _ _ Htx), (proj2 (Z.eqb_eq _ _) Hfull).
    apply bind_Swtch. exact Hsl.
Qed.

(** ** Reading *)

Lemma console_wait_true fuel s k :
  cons_rep (k_cons s) k → ed_ready k ≠ [] → console_wait fuel s = Done true s.
Proof.
  intros Hrep Hne. destruct fuel; cbn [console_wait]; run_by (unfold gets; reflexivity);
    by rewrite (rep_readable _ _ Hrep), bool_decide_false.
Qed.

(** The bytes at [addr] and [co] in the console's buffer. *)
Lemma consoleread_loop_run m s fl own root addr target n ready line l rest :
  uvm_ok s fl own → uroot s own root → p_pagetable (get_proc s (ps_cur (k_proc s))) = root →
  cons_rep (k_cons s) (mk_editor ready line) → getline (n =? target) m ready = Some (l, rest) → n <= target →
  0 <= addr → addr + Z.of_nat m < 2 ^ 64 →
  (∀ va, addr <= va < addr + Z.of_nat (length l) → uaccess (get_mem s) root va = true) →
  ∃ s1 co, consoleread_loop m (DUser addr) target n s = Done (Some (n - Z.of_nat (length l))) (set_cons co s1) ∧
    ustep s fl own s1 fl own (poke (uview (get_mem s)) root addr l (Z.of_nat (length l))) ∧
    cons_rep co (mk_editor rest line).
Proof.
  revert s addr n ready l rest.
  induction m as [|m IH]; intros s addr n ready l rest Hok Hr Hpt Hrep Hg Hnt Hlo Hhi Hacc; cbn [consoleread_loop getline] in *.
  { simplify_eq. exists s, (k_cons s). rewrite Z.sub_0_r. split_and!; [by destruct s|by apply ustep_poke_0|done]. }
  destruct ready as [|c q]; [done|].
  run_by (by eapply console_wait_true). cbn [negb]. run_by (unfold gets; reflexivity).
  destruct (rep_get _ _ _ _ Hrep) as (Hc & Hback & Hrep1). rewrite Hc.
  run_by (unfold upd_cons, modify; reflexivity). set (co1 := set_cons_r _ _) in *. set (t := set_cons co1 s).
  destruct (Z.eqb_spec c ctrl_D) as [HD|HD].
  { simplify_eq. destruct (Z.eqb_spec n target) as [->|Hne].
    - exists s, co1. rewrite Z.ltb_irrefl. cbn [when length]. rewrite Z.sub_0_r. split_and!; [done|by apply ustep_poke_0|done].
    - exists s, (k_cons s). rewrite (proj2 (Z.ltb_lt _ _)) by lia. cbn [when length]. rewrite Z.sub_0_r.
      run_by (unfold upd_cons, modify; reflexivity). split_and!; [|by apply ustep_poke_0|done].
      unfold t, co1, set_cons_r. cbn. rewrite Hback. destruct s as [? ? ? ? ? ? ? ? ? ? co]. by destruct co. }
  assert (Hokt : uvm_ok t fl own) by (apply (uvm_ok_state s); [done|apply Hok|done]).
  destruct (copyout_run t fl own root addr [c] 1 Hokt Hr ltac:(lia) ltac:(cbn [length]; lia))
    as (r & t' & k1 & Hco & Hk1 & Hst & _ & Hres).
  assert (Heo : either_copyout (DUser addr) [c] 1 t = Done r t').
  { unfold either_copyout. run_by (unfold myproc, gets; reflexivity). run_by (unfold proc_get, gets; reflexivity).
    change (p_pagetable (get_proc t (ps_cur (k_proc t)))) with (p_pagetable (get_proc s (ps_cur (k_proc s)))). by rewrite Hpt. }
  run_by (exact Heo). pose proof (us_mem _ _ _ _ _ _ _ Hst) as Hmo. apply mem_only_set in Hmo.
  apply (ustep_state s) in Hst; [|done|apply Hok]. set (s2 := set_mem (k_mem t') s) in *.
  assert (Ht' : t' = set_cons co1 s2) by (rewrite Hmo; by destruct s).
  assert (Hl1 : (0 < length l)%nat).
  { destruct (c =? 10); [by simplify_eq/=; lia|]. destruct (getline false m q) as [[? ?]|]; [|done]. simplify_eq/=. lia. }
  destruct Hres as [[-> ->]|(_ & Hk & Hno)].
  2: { assert (k1 = 0) as -> by lia. rewrite Z.add_0_r in Hno. change (get_mem t) with (get_mem s) in Hno.
       by rewrite Hacc in Hno by lia. }
  change (0 =? -1) with false. cbn iota. destruct (Z.eqb_spec c 10) as [H10|H10].
  { simplify_eq. exists s2, co1. cbn [length]. rewrite Ht'. split_and!; [done|exact Hst|done]. }
  destruct (getline false m q) as [[l' rest']|] eqn:Hg'; [|done]. cbn in Hg. injection Hg as <- ->. cbn [dst_add length] in *.
  rewrite u64_small by lia.
  destruct (IH t' (addr + 1) (n - 1) q l' rest) as (t3 & co & Hrun & Hst3 & Hco3); try (done || lia).
  - apply (uvm_ok_state s2); [by rewrite Ht'|rewrite Ht'; apply Hok|apply Hst].
  - rewrite Ht'. apply (ustep_uroot _ _ _ _ _ _ _ root Hst). done.
  - by rewrite Ht'.
  - by rewrite Ht'.
  - by rewrite (proj2 (Z.eqb_neq (n - 1) target)) by lia.
  - intros va Hva. rewrite Ht'. change (get_mem (set_cons co1 s2)) with (get_mem s2).
    rewrite (uaccess_poke _ _ _ _ _ _ _ _ _ _ _ _ Hst) by (done || lia). apply Hacc. lia.
  - pose proof (us_mem _ _ _ _ _ _ _ Hst3) as Hmo3. apply mem_only_set in Hmo3.
    apply (ustep_state s2) in Hst3; [|by rewrite Ht'|apply Hok].
    exists (set_mem (k_mem t3) s2), co. rewrite Hrun, Hmo3, Ht'. split_and!; try done.
    + do 2 f_equal. lia.
    + replace (Z.of_nat (S (length l'))) with (1 + Z.of_nat (length l')) by lia.
      eapply ustep_poke_cons; [exact Hst|exact Hst3|lia].
Qed.

(** C14: [consoleread] of [n] bytes by a process: (1) when the input holds
    enough, it stores at [addr] and returns the next line with its newline, or
    its first [n] bytes, or what comes before a control-D; the control-D is
    taken by a read that has nothing else, which returns 0, and is left for the next read
    otherwise.  The line that is being edited, and everything else but the
    input and the bytes stored, is as before.  (2) With no input it returns -1
    if the process was killed, and (3) otherwise goes to sleep until a line
    is complete. *)
Theorem consoleread_spec s fl own root addr n k :
  let me := ps_cur (k_proc s) in
  uvm_ok s fl own → uroot s own root → p_pagetable (get_proc s me) = root →
  cons_rep (k_cons s) k → k_held s = [] → (me < length (ps_procs (k_proc s)))%nat →
  0 <= addr → 0 <= n → addr + n < 2 ^ 64 →
  (∀ l rest, getline true (Z.to_nat n) (ed_ready k) = Some (l, rest) →
   (∀ va, addr <= va < addr + Z.of_nat (length l) → uaccess (get_mem s) root va = true) →
   ∃ s1 co, consoleread (DUser addr) n s = Done (Z.of_nat (length l)) (set_cons co s1) ∧
     ustep s fl own s1 fl own (poke (uview (get_mem s)) root addr l (Z.of_nat (length l))) ∧
     cons_rep co (mk_editor rest (ed_line k))) ∧
  (ed_ready k = [] → 0 < n → p_killed (get_proc s me) ≠ 0 → consoleread (DUser addr) n s = Done (-1) s) ∧
  (ed_ready k = [] → 0 < n → p_killed (get_proc s me) = 0 → ∀ fuel, wait_fuel = S fuel →
   ∃ next, consoleread (DUser addr) n s = Swtch (asleep ChCons me s) next).
Proof.
  intros me Hok Hr Hpt Hrep Hh Hme Ha Hn0 Hhi. set (s1 := set_held [LCons] s). unfold consoleread.
  assert (Hacq : acquire LCons s = Done tt s1) by (rewrite acquire_ok by (rewrite Hh; set_solver); by rewrite Hh).
  assert (Hempty : ed_ready k = [] → cons_r (k_cons s1) =? cons_w (k_cons s1) = true).
  { intros E. change (k_cons s1) with (k_cons s). by rewrite (rep_readable _ _ Hrep), bool_decide_true. }
  split_and!.
  - intros l rest Hg Hacc. destruct k as [ready line].
    destruct (consoleread_loop_run (Z.to_nat n) s1 fl own root addr n n ready line l rest) as (t & co & Hrun & Hst & Hco);
      try (done || lia).
    { apply (uvm_ok_state s); [done|set_solver|done]. }
    { by rewrite Z.eqb_refl. }
    pose proof (us_mem _ _ _ _ _ _ _ Hst) as Hmo. apply mem_only_set in Hmo.
    apply (ustep_state s) in Hst; [|done|rewrite Hh; set_solver].
    exists (set_mem (k_mem t) s), co. split_and!; try done.
    run_by (exact Hacq). run_by (exact Hrun). rewrite Hmo.
    erewrite bind_Done; [|eapply release_ok; [reflexivity|set_solver] ].
    unfold mret, M_ret. f_equal; [lia|]. unfold s1. clear -Hh. destruct s. cbn in Hh. by subst.
  - intros E Hpos Hk. run_by (exact Hacq). replace (Z.to_nat n) with (S (Z.to_nat (n - 1))) by lia.
    assert (Hw : console_wait wait_fuel s1 = Done false s1).
    { destruct wait_fuel; cbn [console_wait]; run_by (unfold gets; reflexivity); rewrite (Hempty E); cbn [negb];
        run_by (unfold myproc, gets; reflexivity); run_by (unfold proc_get, gets; reflexivity);
        (change (p_killed _) with (p_killed (get_proc s me)); by rewrite (proj2 (Z.eqb_neq _ _) Hk)). }
    erewrite bind_Done; [|cbn [consoleread_loop]; run_by (exact Hw); reflexivity].
    erewrite bind_Done; [|eapply release_ok; [reflexivity|set_solver] ].
    unfold s1. clear -Hh. destruct s. cbn in Hh. by subst.
  - intros E Hpos Hk fuel Hf. destruct (sleep_run ChCons LCons s1) as (next & Hsl & _); [set_solver|exact Hme|done|].
    eexists. run_by (exact Hacq). replace (Z.to_nat n) with (S (Z.to_nat (n - 1))) by lia. cbn [consoleread_loop]. rewrite Hf.
    apply bind_Swtch. apply bind_Swtch. cbn [console_wait]. run_by (unfold gets; reflexivity). rewrite (Hempty E). cbn [negb].
    run_by (unfold myproc, gets; reflexivity). run_by (unfold proc_get, gets; reflexivity).
    change (p_killed _) with (p_killed (get_proc s me)). rewrite Hk. apply bind_Swtch. exact Hsl.
Qed.
End user.

(** ** A concrete console: process 0 of the example address space *)

(** A character arrives at each poll, and at every other one the device
    becomes ready to send. *)
#[local] Instance slow_uart : UartDev := {|
  uart_poll u := uart_out (if Nat.even (length (ua_line u)) then 1 else 0) [] 1 u
|}.
#[local] Instance few_wakeups : WaitFuel := 4%nat.

(** "ok", a newline and control-D may be read and "x" is being edited, the
    counters about to wrap; "!" waits to be sent, backspace and "y" wait in the
    device, and control-P and return are on their way. *)
Definition cons_state : kst :=
  set_cons (mk_cons ([10; 4; 120] ++ replicate 123 0 ++ [111; 107]) 4294967294 2 3)
    (set_uart (mk_uart (33 :: replicate 31 0) 1 0 0 [] [8; 121] ∅ [16; 13]) pipe_state).

Definition cons_editor : editor := mk_editor [111; 107; 10; 4] [120].

Lemma cons_state_rep : cons_rep (k_cons cons_state) cons_editor.
Proof. split; [reflexivity|cbn; lia|reflexivity|reflexivity|reflexivity|by vm_compute|]. cbn. set_solver by lia. Qed.

Lemma cons_state_tx : tx_rep (k_uart cons_state) [33].
Proof. split; [reflexivity|cbn; lia|reflexivity|reflexivity|by vm_compute|repeat constructor; lia]. Qed.

Lemma cons_state_ok : uvm_ok cons_state VmExample.fl VmExample.own.
Proof. apply (uvm_ok_state pipe_state); [reflexivity|by apply unlocked_nil|exact pipe_state_ok]. Qed.

Lemma slow_uart_out u : ∃ n g, uart_poll u = uart_out n [] g u.
Proof. by eexists _, _. Qed.

Lemma slow_uart_ready u : ∃ i, (i <= wait_fuel)%nat ∧ ua_idle (Nat.iter i uart_poll u) ≠ 0%nat.
Proof.
  destruct (Nat.even (length (ua_line u))) eqn:E.
  - exists 1%nat. split; [unfold wait_fuel, few_wakeups; lia|]. cbn. by rewrite E.
  - exists 2%nat. split; [unfold wait_fuel, few_wakeups; lia|]. cbn [Nat.iter nat_rect uart_poll slow_uart uart_out ua_line].
    destruct (ua_line u) as [|c l]; [done|]. cbn [drop length] in *. rewrite Nat.even_succ, <- Nat.negb_even in E.
    cbn [ua_idle uart_out]. rewrite drop_0. by destruct (Nat.even (length l)).
Qed.

Lemma uartintr_spec_witness :
  ∃ g co b u' q', let l := [8; 121] ++ take g [16; 13] in
    uartintr cons_state = Done tt (wake_if b ChUart (wake_if (completes l cons_editor) ChCons (set_uart u' (set_cons co cons_state)))) ∧
    cons_rep co (edits l cons_editor) ∧ ua_rx u' = [] ∧ ua_line u' = drop g [16; 13] ∧
    ua_sent u' ++ q' = echoes l cons_editor cons_state ++ [33].
Proof.
  destruct (uartintr_spec slow_uart_out slow_uart_ready cons_state cons_editor [33])
    as (g & co & b & u' & q' & Hrun & Hco & Hrx & Hline & _ & _ & Hout & _).
  - split; reflexivity.
  - exact cons_state_rep.
  - exact cons_state_tx.
  - repeat constructor; vm_compute; congruence.
  - reflexivity.
  - reflexivity.
  - exists g, co, b, u', q'. split; [exact Hrun|]. split; [exact Hco|]. split; [exact Hrx|]. split; [exact Hline|exact Hout].
Defined.

(** The editor and the echoes when all four characters are there in time, and
    the list of processes with one that sleeps. *)
Example cons_state_echoes :
  edits [8; 121; 16; 13] cons_editor = mk_editor [111; 107; 10; 4; 121; 10] [] ∧
  completes [8; 121; 16; 13] cons_editor = true ∧
  echoes [8; 121; 16; 13] cons_editor cons_state = rubout ++ [121] ++ dump cons_state ++ [10].
Proof. split_and!; reflexivity. Qed.

Example dump_sleeper :
  dump (set_procs (<[1%nat := set_p_name [115; 104; 0] (set_p_pid 42 (set_p_state SLEEPING zero_proc))]> (replicate NPROC zero_proc))
          cons_state) = 10 :: codes "42 sleep  sh" ++ [10].
Proof. reflexivity. Qed.

Lemma consolewrite_spec_witness :
  ∃ bs b u' q', consolewrite (SUser 0) 2 cons_state =
      Done (Z.of_nat (length bs)) (wake_if b ChUart (set_uart u' cons_state)) ∧
    ua_sent u' ++ q' = 33 :: bs.
Proof.
  destruct (consolewrite_spec cons_state VmExample.fl VmExample.own VmExample.R 0 2 [33]) as [Hw _].
  - exact cons_state_ok.
  - exact VmExample.uroot_R.
  - reflexivity.
  - split; reflexivity.
  - exact cons_state_tx.
  - reflexivity.
  - reflexivity.
  - lia.
  - lia.
  - lia.
  - destruct Hw as (bs & b & u' & q' & Hrun & Hs & _); [vm_compute; congruence|].
    exists bs, b, u', q'. split; [exact Hrun|exact (sd_out _ _ _ _ _ Hs)].
Defined.

Lemma consoleread_spec_witness :
  ∃ s1 co, consoleread (DUser 0) 10 cons_state = Done 3 (set_cons co s1) ∧ cons_rep co (mk_editor [4] [120]).
Proof.
  destruct (consoleread_spec cons_state VmExample.fl VmExample.own VmExample.R 0 10 cons_editor) as [Hr _].
  - exact cons_state_ok.
  - exact VmExample.uroot_R.
  - reflexivity.
  - exact cons_state_rep.
  - reflexivity.
  - vm_compute. lia.
  - lia.
  - lia.
  - lia.
  - destruct (Hr [111; 107; 10] [4] eq_refl) as (s1 & co & Hrun & _ & Hco).
    + intros va Hva. cbn [length] in Hva. assert (va = 0 ∨ va = 1 ∨ va = 2) as [->|[->| ->] ] by lia; vm_compute; reflexivity.
    + exists s1, co. split; [exact Hrun|exact Hco].
Defined.
