(* ===== verification/SchedSpec.v ===== *)
(** * The scheduler of a hart

    A round of the scheduler as the sequence of processes it hands the CPU to.
    What a process does with the CPU is a parameter: it gets the state of the
    switch and gives back the state in which it calls [swtch] itself. *)

From Stdlib Require Import Sorted.
From S2P Require Import Prelude Memory Params State Sched Riscv Kalloc Vm Block Bio Log Uart Console Fs Pipe File Proc.

(** ** One process *)

(** The state with which process [p] gets the CPU. *)
Definition dispatched (p : nat) (s : kst) : kst :=
  set_cur p (set_procs (<[p := set_p_state RUNNING (get_proc s p)]> (ps_procs (k_proc s))) (set_held (LProc p :: k_held s) s)).

Lemma sched_one_run p s :
  unlocked (LProc p) s → p_state (get_proc s p) = RUNNABLE →
  ∃ k, sched_one p s = Swtch (dispatched p s) k ∧
    ∀ s2 l, k_held s2 = LProc p :: l → LProc p ∉ LIntr :: l → k s2 = Done tt (set_held l (set_cur NOPROC s2)).
Proof.
  intros Hh Hst. unfold sched_one.
  rewrite (bind_Done _ _ _ _ _ (acquire_ok _ _ Hh)). run_by (unfold proc_get, gets; reflexivity).
  autorewrite with kst. rewrite Hst, bool_decide_true by done. unfold when. eexists. split.
  - apply bind_Swtch. run_by (unfold upd_proc, modify; reflexivity). run_by (unfold modify; reflexivity).
    apply bind_Swtch. reflexivity.
  - intros s2 l Hl Hnl. cbn. erewrite release_ok; [reflexivity|exact Hl|exact Hnl].
Qed.

Lemma sched_one_skip p s :
  unlocked (LProc p) s → p_state (get_proc s p) ≠ RUNNABLE → sched_one p s = Done tt s.
Proof.
  intros Hh Hst. unfold sched_one.
  rewrite (bind_Done _ _ _ _ _ (acquire_ok _ _ Hh)). run_by (unfold proc_get, gets; reflexivity).
  autorewrite with kst. rewrite bool_decide_false by done. run_by (unfold when; reflexivity).
  erewrite release_ok; [|reflexivity|apply Hh]. by destruct s.
Qed.

(** ** A round *)

(** The processes a computation of the scheduler switches to, and its result,
    when [env] is what the processes do. *)
Fixpoint drive {A} (env : kst → kst) (o : outcome kst A) : list nat * option (A * kst) :=
  match o with
  | Done a s => ([], Some (a, s))
  | Swtch s k => let r := drive env (k (env s)) in (ps_cur (k_proc s) :: r.1, r.2)
  | Panic _ _ | OutOfFuel => ([], None)
  end.

Lemma drive_bind {A B} env (m : K A) (f : A → K B) s tr a s' :
  drive env (m s) = (tr, Some (a, s')) →
  drive env ((m ≫= f) s) = (tr ++ (drive env (f a s')).1, (drive env (f a s')).2).
Proof.
  unfold mbind, M_bind. generalize (m s). clear. intros o. revert tr.
  induction o as [a1 s1|msg s1|s1 k IH|]; intros tr; cbn [drive obind]; try discriminate.
  - intros [= <- <- <-]. by destruct (drive env (f a1 s1)).
  - intros [= <- Hr]. destruct (drive env (k (env s1))) as [tr1 r1] eqn:E. cbn [fst snd] in *. subst r1.
    by rewrite (IH _ _ E).
Qed.

(** What the theorem asks of the processes: a process gives the CPU back with
    its lock held as [sched] demands, and does not take another process off
    the run queue. *)
Definition cooperates (env : kst → kst) : Prop :=
  ∀ s p, ps_cur (k_proc s) = p → k_held s = [LProc p] →
    k_held (env s) = [LProc p] ∧ length (ps_procs (k_proc (env s))) = length (ps_procs (k_proc s)) ∧
    ∀ q, q ≠ p → p_state (get_proc s q) = RUNNABLE → p_state (get_proc (env s) q) = RUNNABLE.

Lemma sched_one_drive env p s :
  cooperates env → k_held s = [] → (p < length (ps_procs (k_proc s)))%nat →
  ∃ s', drive env (sched_one p s) = (if decide (p_state (get_proc s p) = RUNNABLE) then [p] else [], Some (tt, s')) ∧
    k_held s' = [] ∧ length (ps_procs (k_proc s')) = length (ps_procs (k_proc s)) ∧
    ∀ q, q ≠ p → p_state (get_proc s q) = RUNNABLE → p_state (get_proc s' q) = RUNNABLE.
Proof.
  intros Henv Hh Hp. assert (Hn : unlocked (LProc p) s) by (by apply unlocked_nil). case_decide as Hst.
  - destruct (sched_one_run p s Hn Hst) as (k & -> & Hk). cbn [drive].
    destruct (Henv (dispatched p s) p) as (Hh2 & Hl2 & Hq2); [done|cbn; by rewrite Hh|].
    rewrite (Hk (env (dispatched p s)) []) by (exact Hh2 || set_solver). cbn [drive fst snd].
    eexists. split_and!; [reflexivity|reflexivity| |].
    + cbn. rewrite Hl2. cbn. by rewrite length_insert.
    + intros q Hq Hr. change (p_state (get_proc (env (dispatched p s)) q) = RUNNABLE). apply Hq2; [done|].
      unfold dispatched, get_proc. cbn. by rewrite list_lookup_total_insert_ne.
  - rewrite sched_one_skip by done. exists s. by split_and!.
Qed.

Lemma sched_round_drive env n z s :
  cooperates env → k_held s = [] → (z + n = length (ps_procs (k_proc s)))%nat →
  ∃ tr s', drive env (for_each n (Z.of_nat z) (λ i, sched_one (Z.to_nat i)) s) = (tr, Some (tt, s')) ∧
    k_held s' = [] ∧ StronglySorted lt tr ∧ Forall (λ p, z <= p)%nat tr ∧
    ∀ p, (z <= p < z + n)%nat → p_state (get_proc s p) = RUNNABLE → p ∈ tr.
Proof.
  intros Henv. revert z s. induction n as [|n IH]; intros z s Hh Hlen; cbn [for_each].
  { exists [], s. split_and!; [done|done|constructor|constructor|lia]. }
  destruct (sched_one_drive env z s Henv Hh ltac:(lia)) as (s1 & Hd & Hh1 & Hl1 & Hq1).
  destruct (IH (S z) s1 Hh1 ltac:(lia)) as (tr & s' & Hd' & Hh' & Hs & Hf & Hin).
  assert (Hd1 : drive env (sched_one (Z.to_nat (Z.of_nat z)) s) =
            (if decide (p_state (get_proc s z) = RUNNABLE) then [z] else [], Some (tt, s1))) by (by rewrite Nat2Z.id).
  rewrite (drive_bind _ _ _ _ _ _ _ Hd1). replace (Z.of_nat z + 1) with (Z.of_nat (S z)) by lia. rewrite Hd'. cbn [fst snd].
  assert (Hf' : Forall (λ p, z < p)%nat tr) by (eapply Forall_impl; [exact Hf|]; intros; simpl in *; lia).
  eexists _, s'. split_and!; [reflexivity|done| | |].
  - case_decide; cbn [app]; [by constructor|done].
  - case_decide; cbn [app]; [constructor; [lia|]|]; (eapply Forall_impl; [exact Hf'|]; intros; simpl in *; lia).
  - intros p Hp Hr. destruct (decide (p = z)) as [->|Hne].
    + rewrite decide_True by done. set_solver.
    + apply elem_of_app. right. apply Hin; [lia|]. by apply Hq1.
Qed.

(** A round of the scheduler terminates, hands the CPU to each process at most
    once, in the order of the table, and to every process that is runnable when
    the round starts: no runnable process starves.  The hypothesis on the
    processes is that they call [sched] with their own lock only. *)
Theorem sched_round_fair env s :
  cooperates env → k_held s = [] → length (ps_procs (k_proc s)) = NPROC →
  ∃ tr s', drive env (sched_round s) = (tr, Some (tt, s')) ∧ k_held s' = [] ∧ StronglySorted lt tr ∧
    ∀ p, (p < NPROC)%nat → p_state (get_proc s p) = RUNNABLE → p ∈ tr.
Proof.
  intros Henv Hh Hlen. destruct (sched_round_drive env NPROC 0 s Henv Hh (eq_sym Hlen)) as (tr & s' & Hd & Hh' & Hs & _ & Hin).
  exists tr, s'. split_and!; [exact Hd|done|done|]. intros p Hp. apply Hin. lia.
Qed.

(** Processes 3 and 5 are runnable and exit when they run. *)
Definition exits (s : kst) : kst :=
  let p := ps_cur (k_proc s) in
  set_procs (<[p := set_p_state ZOMBIE (get_proc s p)]> (ps_procs (k_proc s))) s.

Definition round_state : kst :=
  set_procs (<[3%nat := set_p_state RUNNABLE zero_proc]> (<[5%nat := set_p_state RUNNABLE zero_proc]> (replicate NPROC zero_proc)))
    boot_state.

Lemma sched_round_fair_witness :
  ∃ tr s', drive exits (sched_round round_state) = (tr, Some (tt, s')) ∧ 3%nat ∈ tr ∧ 5%nat ∈ tr.
Proof.
  destruct (sched_round_fair exits round_state) as (tr & s' & Hd & _ & _ & Hin).
  - intros s p Hp Hh. split_and!; [exact Hh|unfold exits; cbn; apply length_insert|].
    intros q Hq Hr. unfold exits, get_proc. cbn. rewrite list_lookup_total_insert_ne by congruence. exact Hr.
  - reflexivity.
  - reflexivity.
  - exists tr, s'. split; [exact Hd|]. split; apply Hin; (reflexivity || (unfold NPROC; lia)).
Defined.
