(* ===== verification/VirtioSpec.v ===== *)
(** * The disk driver, the device, the interrupt handler and the scheduler

    One request from the call of the driver to its return.  The device is a
    parameter with the contract of the virtio specification: it serves the
    next chain of the available ring.  The theorem composes the four parts and
    gives the effect that the interface [DiskRw] of the buffer cache states. *)

From S2P Require Import Prelude Memory Params State Sched Riscv Bio Virtio Proc SchedSpec.

(** ** Descriptors *)

Definition free_idx (v : vdisk) : list nat := filter (λ i, vd_free v !!! i = true) (seq 0 NUM).

Lemma free_idx_nodup v : NoDup (free_idx v).
Proof. apply NoDup_filter, NoDup_seq. Qed.

Lemma free_idx_spec v i : i ∈ free_idx v ↔ (i < NUM)%nat ∧ vd_free v !!! i = true.
Proof. unfold free_idx. rewrite list_elem_of_filter, elem_of_seq. intuition lia. Qed.

Lemma alloc_desc_run s i r :
  length (vd_free (k_vd s)) = NUM → free_idx (k_vd s) = i :: r →
  alloc_desc s = Done (Some i) (set_vd (set_free i false (k_vd s)) s) ∧ free_idx (set_free i false (k_vd s)) = r.
Proof.
  intros Hlen Hf. destruct (filter_seq_head _ _ _ _ _ Hf) as (Hi & Hfree & Hno). split.
  - unfold alloc_desc. apply (for_find_first _ _ _ _ (Z.of_nat i)); [lia| |].
    + intros j Hj. run_by (unfold vd_get, gets; reflexivity). specialize (Hno (Z.to_nat j) ltac:(lia)).
      by destruct (vd_free (k_vd s) !!! Z.to_nat j).
    + run_by (unfold vd_get, gets; reflexivity). by rewrite Nat2Z.id, Hfree.
  - assert (E : free_idx (set_free i false (k_vd s)) = filter (λ j, j ≠ i) (free_idx (k_vd s))).
    { unfold free_idx. rewrite list_filter_filter. apply list_filter_iff. intros j. cbn [vd_free set_free].
      destruct (decide (j = i)) as [->|Hne].
      - rewrite list_lookup_total_insert_eq by lia. split; [done|tauto].
      - rewrite list_lookup_total_insert_ne by done. tauto. }
    rewrite E, Hf, filter_cons_False by auto. pose proof (free_idx_nodup (k_vd s)) as Hnd. rewrite Hf in Hnd.
    apply NoDup_cons in Hnd as [Hi' _]. clear -Hi'. induction r as [|x r IH]; [done|].
    apply not_elem_of_cons in Hi' as [Hx Hr]. rewrite filter_cons_True by auto. f_equal. auto.
Qed.

Definition claim3 (i0 i1 i2 : nat) (v : vdisk) : vdisk :=
  set_free i2 false (set_free i1 false (set_free i0 false v)).

Lemma alloc3_desc_run s i0 i1 i2 r :
  length (vd_free (k_vd s)) = NUM → free_idx (k_vd s) = i0 :: i1 :: i2 :: r →
  alloc3_desc s = Done (Some [i0; i1; i2]) (set_vd (claim3 i0 i1 i2 (k_vd s)) s).
Proof.
  intros Hlen Hf. unfold alloc3_desc. cbn [alloc3_loop].
  destruct (alloc_desc_run s i0 (i1 :: i2 :: r) Hlen Hf) as [H0 Hf0]. run_by (exact H0). cbn [app].
  set (s0 := set_vd _ s).
  destruct (alloc_desc_run s0 i1 (i2 :: r)) as [H1 Hf1]; [by unfold s0; cbn; rewrite length_insert|done|].
  run_by (exact H1). cbn [app]. set (s1 := set_vd _ s0).
  destruct (alloc_desc_run s1 i2 r) as [H2 _]; [by unfold s1, s0; cbn; rewrite !length_insert|done|].
  run_by (exact H2). done.
Qed.

(** ** The device *)

(** The request that starts at descriptor [i0] of the next available entry:
    block [bno] to or from buffer [b]. *)
Record pending (v : vdisk) (i0 i1 i2 b : nat) (w : bool) (bno : Z) : Prop := {
  pe_idx : vd_avail_idx v = u16 (vd_ring_idx v + 1);
  pe_head : vd_avail v !!! Z.to_nat (vd_ring_idx v mod Z.of_nat NUM) = Z.of_nat i0;
  pe_d0 : vd_desc v !!! i0 = desc0 i0 i1;
  pe_d1 : vd_desc v !!! i1 = desc1 b i2 w;
  pe_d2 : vd_desc v !!! i2 = desc2 i0;
  pe_op : vd_ops v !!! i0 = mk_req (if w then VIRTIO_BLK_T_OUT else VIRTIO_BLK_T_IN) (2 * bno);
}.

(** The device writes the status and an entry of the used ring. *)
Definition used_put (i0 : nat) (v : vdisk) : vdisk :=
  mk_vdisk (vd_desc v) (vd_avail_idx v) (vd_avail v) (u16 (vd_ring_idx v + 1))
    (<[Z.to_nat (vd_ring_idx v mod Z.of_nat NUM) := Z.of_nat i0]> (vd_ring v)) (vd_free v) (vd_used_idx v)
    (vd_info_b v) (<[i0 := 0]> (vd_status v)) (vd_ops v) (vd_notify v).

(** The transfer of block [bno]. *)
Definition transfer (b : nat) (w : bool) (bno : Z) (s : kst) : kst :=
  if w then
    set_disk (mk_dstate (<[bno := b_data (get_buf s b)]> (d_blocks (k_disk s)))
                (d_trace (k_disk s) ++ [(bno, b_data (get_buf s b))])) s
  else put_buf b (set_b_data (dblock s bno) (get_buf s b)) s.

Class VirtioDevice := {
  dev_step : kst → kst;
  dev_step_ok : ∀ s i0 i1 i2 b w bno, pending (k_vd s) i0 i1 i2 b w bno →
    dev_step s = set_vd (used_put i0 (k_vd s)) (transfer b w bno s);
}.

(** ** The driver's structures between requests *)

Record vd_quiet (v : vdisk) : Prop := {
  vq_desc : length (vd_desc v) = NUM;
  vq_avail : length (vd_avail v) = NUM;
  vq_ring : length (vd_ring v) = NUM;
  vq_free : length (vd_free v) = NUM;
  vq_info : length (vd_info_b v) = NUM;
  vq_status : length (vd_status v) = NUM;
  vq_ops : length (vd_ops v) = NUM;
  vq_served : vd_ring_idx v = vd_avail_idx v;
  vq_seen : vd_used_idx v = vd_ring_idx v;
  vq_range : 0 <= vd_ring_idx v < 65536;
}.

(** The structures after [disk_submit]. *)
Definition submit_vd (b : nat) (w : bool) (i0 i1 i2 : nat) (bno : Z) (v : vdisk) : vdisk :=
  inc_notify (inc_avail (put_avail i0 (set_info_b i0 (Some b) (set_desc i2 (desc2 i0) (set_status i0 0xff
    (set_desc i1 (desc1 b i2 w) (set_desc i0 (desc0 i0 i1)
      (set_op i0 (mk_req (if w then VIRTIO_BLK_T_OUT else VIRTIO_BLK_T_IN) (u32 (bno * (BSIZE / 512)))) v)))))))).

Definition notified (s : kst) : devstate :=
  let d := k_dev s in
  mk_dev (<[VIRTIO0 + VIRTIO_MMIO_QUEUE_NOTIFY := u32 0]> (dv_mmio d)) (dv_irqs d) (pr_locking d) (panicked d) (started d).

Lemma k_vd_set_vd v s : k_vd (set_vd v s) = v.
Proof. done. Qed.
Lemma set_vd_set_vd v w s : set_vd v (set_vd w s) = set_vd v s.
Proof. done. Qed.
Lemma k_vd_put_buf b x s : k_vd (put_buf b x s) = k_vd s.
Proof. done. Qed.
Lemma set_vd_put_buf v b x s : set_vd v (put_buf b x s) = put_buf b x (set_vd v s).
Proof. done. Qed.
Lemma upd_vd_run f s : upd_vd f s = Done tt (set_vd (f (k_vd s)) s).
Proof. done. Qed.
Lemma buf_upd_run b f s : upd_buf b f s = Done tt (put_buf b (f (get_buf s b)) s).
Proof. done. Qed.
#[local] Hint Rewrite k_vd_set_vd set_vd_set_vd k_vd_put_buf set_vd_put_buf : kst.

(** One assignment to the driver's structures. *)
Ltac vd_step := rewrite (bind_Done _ _ _ _ _ (upd_vd_run _ _)); cbn beta; autorewrite with kst.

Lemma disk_submit_run b w i0 i1 i2 s :
  disk_submit b w i0 i1 i2 s =
    Done tt (set_dev (notified s) (put_buf b (set_b_disk true (get_buf s b))
      (set_vd (submit_vd b w i0 i1 i2 (b_blockno (get_buf s b)) (k_vd s)) s))).
Proof.
  unfold disk_submit. run_by (unfold buf_get, gets; reflexivity).
  do 5 vd_step. rewrite (bind_Done _ _ _ _ _ (buf_upd_run _ _ _)). do 4 vd_step. reflexivity.
Qed.

(** Three different descriptors. *)
Record triple (i0 i1 i2 : nat) : Prop := {
  tr_0 : (i0 < NUM)%nat;
  tr_1 : (i1 < NUM)%nat;
  tr_2 : (i2 < NUM)%nat;
  tr_01 : i0 ≠ i1;
  tr_02 : i0 ≠ i2;
  tr_12 : i1 ≠ i2;
}.

Lemma free_idx_triple v i0 i1 i2 r : free_idx v = i0 :: i1 :: i2 :: r → triple i0 i1 i2.
Proof.
  intros Hf. pose proof (free_idx_nodup v) as Hnd. pose proof (free_idx_spec v) as Hs. rewrite Hf in *.
  rewrite !NoDup_cons, !not_elem_of_cons in Hnd.
  split; try tauto; eapply Hs; set_solver.
Qed.

(** Lookups in updated lists whose indices are known to differ. *)
Ltac lookups := repeat first [rewrite list_lookup_total_insert_eq by (rewrite ?length_insert; lia)
                             |rewrite list_lookup_total_insert_ne by congruence].

Lemma submit_pending b w i0 i1 i2 bno v :
  vd_quiet v → triple i0 i1 i2 → 0 <= bno < 2 ^ 31 →
  pending (submit_vd b w i0 i1 i2 bno v) i0 i1 i2 b w bno.
Proof.
  intros [] [T0 T1 T2 N01 N02 N12] Hb. unfold NUM in *. split; cbn.
  - congruence.
  - rewrite vq_served0. change (Z.of_nat NUM) with 8. apply list_lookup_total_insert_eq. pose proof (Z.mod_pos_bound (vd_avail_idx v) 8). lia.
  - by lookups.
  - by lookups.
  - by lookups.
  - lookups. f_equal. change (BSIZE / 512) with 2. rewrite u32_small; lia.
Qed.

Lemma k_vd_wake ch s : k_vd (wake ch s) = k_vd s.
Proof. done. Qed.
Lemma set_vd_wake v ch s : set_vd v (wake ch s) = wake ch (set_vd v s).
Proof. done. Qed.
#[local] Hint Rewrite k_vd_wake set_vd_wake wake_wake : kst.

Lemma length_wake ch s : length (ps_procs (k_proc (wake ch s))) = length (ps_procs (k_proc s)).
Proof. unfold wake. autorewrite with kst. apply length_imap. Qed.

(** ** Freeing the chain *)

Definition free1 (i : nat) (v : vdisk) : vdisk := set_free i true (set_desc i zero_desc v).

Lemma free_desc_run i s :
  (i < NUM)%nat → vd_free (k_vd s) !!! i = false → k_held s = [LDisk] → length (ps_procs (k_proc s)) = NPROC →
  free_desc i s = Done tt (wake ChDiskFree (set_vd (free1 i (k_vd s)) s)).
Proof.
  intros Hi Hf Hh Hn. unfold free_desc. rewrite (proj2 (Nat.leb_gt _ _) Hi). run_by (unfold vd_get, gets; reflexivity).
  rewrite Hf. do 2 vd_step. by apply (wake_run _ LDisk).
Qed.

Lemma free_chain_run i0 i1 i2 b w s :
  triple i0 i1 i2 → length (vd_desc (k_vd s)) = NUM → length (vd_free (k_vd s)) = NUM →
  vd_desc (k_vd s) !!! i0 = desc0 i0 i1 → vd_desc (k_vd s) !!! i1 = desc1 b i2 w → vd_desc (k_vd s) !!! i2 = desc2 i0 →
  vd_free (k_vd s) !!! i0 = false → vd_free (k_vd s) !!! i1 = false → vd_free (k_vd s) !!! i2 = false →
  k_held s = [LDisk] → length (ps_procs (k_proc s)) = NPROC →
  free_chain NUM i0 s = Done tt (wake ChDiskFree (set_vd (free1 i2 (free1 i1 (free1 i0 (k_vd s)))) s)).
Proof.
  intros [T0 T1 T2 N01 N02 N12] Hd Hl D0 D1 D2 F0 F1 F2 Hh Hn. change (free_chain NUM) with (free_chain (S (S 6))). cbn [free_chain].
  run_by (unfold vd_get, gets; reflexivity). rewrite D0.
  rewrite (bind_Done _ _ _ _ _ (free_desc_run i0 s T0 F0 Hh Hn)). cbn beta.
  replace (has (d_flags (desc0 i0 i1)) VRING_DESC_F_NEXT) with true by reflexivity. cbn [d_next desc0]. rewrite Nat2Z.id.
  set (s1 := wake ChDiskFree (set_vd (free1 i0 (k_vd s)) s)).
  run_by (unfold vd_get, gets; reflexivity).
  replace (vd_desc (k_vd s1) !!! i1) with (desc1 b i2 w) by (cbn; by lookups).
  rewrite (bind_Done _ _ _ _ _ (free_desc_run i1 s1 T1 ltac:(cbn; by lookups) Hh ltac:(unfold s1; rewrite length_wake; exact Hn))).
  cbn beta. replace (has (d_flags (desc1 b i2 w)) VRING_DESC_F_NEXT) with true by (by destruct w).
  cbn [d_next desc1]. rewrite Nat2Z.id.
  set (s2 := wake ChDiskFree (set_vd (free1 i1 (k_vd s1)) s1)).
  run_by (unfold vd_get, gets; reflexivity).
  replace (vd_desc (k_vd s2) !!! i2) with (desc2 i0) by (cbn; by lookups).
  rewrite (bind_Done _ _ _ _ _ (free_desc_run i2 s2 T2 ltac:(cbn; by lookups) Hh ltac:(unfold s2, s1; repeat (rewrite length_wake; cbn [k_proc set_vd]); exact Hn))).
  cbn beta. replace (has (d_flags (desc2 i0)) VRING_DESC_F_NEXT) with false by reflexivity.
  unfold s2, s1. autorewrite with kst. reflexivity.
Qed.

Section virtio_spec.
Context `{VirtioRegs} `{WaitFuel}.

(** ** The driver up to its sleep, and from there to its return *)

(** The state in which the driver sleeps, but for the process table. *)
Definition submitted (b : nat) (w : bool) (i0 i1 i2 : nat) (s : kst) : kst :=
  set_dev (notified s) (put_buf b (set_b_disk true (get_buf s b))
    (set_vd (submit_vd b w i0 i1 i2 (b_blockno (get_buf s b)) (claim3 i0 i1 i2 (k_vd s))) s)).

(** The structures when the driver returns. *)
Definition retire (i0 i1 i2 : nat) (v : vdisk) : vdisk :=
  free1 i2 (free1 i1 (free1 i0 (set_info_b i0 None v))).

Lemma disk_wait_done fuel b s : b_disk (get_buf s b) = false → disk_wait fuel b s = Done tt s.
Proof. intros Hb. destruct fuel; cbn [disk_wait]; run_by (unfold buf_get, gets; reflexivity); by rewrite Hb. Qed.

Lemma disk_rw_run b w i0 i1 i2 r fuel s :
  let me := ps_cur (k_proc s) in
  k_held s = [] → length (vd_free (k_vd s)) = NUM → free_idx (k_vd s) = i0 :: i1 :: i2 :: r →
  (me < length (ps_procs (k_proc s)))%nat → (b < length (k_bufs s))%nat → wait_fuel = S fuel →
  ∃ k, disk_rw b w s = Swtch (asleep (ChDiskBuf b) me (submitted b w i0 i1 i2 s)) k ∧
    ∀ s2, k_held s2 = [LProc me] → ps_cur (k_proc s2) = me → length (ps_procs (k_proc s2)) = NPROC →
      b_disk (get_buf s2 b) = false → length (vd_desc (k_vd s2)) = NUM → length (vd_free (k_vd s2)) = NUM →
      vd_desc (k_vd s2) !!! i0 = desc0 i0 i1 → vd_desc (k_vd s2) !!! i1 = desc1 b i2 w → vd_desc (k_vd s2) !!! i2 = desc2 i0 →
      vd_free (k_vd s2) !!! i0 = false → vd_free (k_vd s2) !!! i1 = false → vd_free (k_vd s2) !!! i2 = false →
      k s2 = Done tt (set_held [] (wake ChDiskFree (set_vd (retire i0 i1 i2 (k_vd s2))
               (set_procs (<[me := set_p_chan None (get_proc s2 me)]> (ps_procs (k_proc s2))) (set_intena (intena s) s2))))).
Proof.
  intros me Hh Hlen Hf Hme Hb Hfuel. pose proof (free_idx_triple _ _ _ _ _ Hf) as Ht.
  unfold disk_rw.
  assert (Hacq : acquire LDisk s = Done tt (set_held [LDisk] s)) by (rewrite acquire_ok by (rewrite Hh; set_solver); by rewrite Hh).
  run_by (exact Hacq). set (s0 := set_held [LDisk] s).
  assert (Hal : alloc_wait wait_fuel s0 = Done [i0; i1; i2] (set_vd (claim3 i0 i1 i2 (k_vd s)) s0)).
  { rewrite Hfuel. cbn [alloc_wait]. by run_by (by apply (alloc3_desc_run s0 i0 i1 i2 r)). }
  run_by (exact Hal). run_by (apply disk_submit_run).
  set (s1 := set_held [LDisk] (submitted b w i0 i1 i2 s)).
  match goal with |- context [(_ ≫= _) ?x] => change x with s1 end.
  destruct (sleep_run (ChDiskBuf b) LDisk s1) as (k & Hsl & Hk); [set_solver|exact Hme|done|].
  assert (Hw : disk_wait wait_fuel b s1 = Swtch (asleep (ChDiskBuf b) me s1) (λ x, obind (k x) (λ _, disk_wait fuel b))).
  { rewrite Hfuel. cbn [disk_wait]. run_by (unfold buf_get, gets; reflexivity).
    replace (b_disk (get_buf s1 b)) with true; [by apply bind_Swtch|].
    unfold s1, submitted, get_buf, put_buf. cbn. by rewrite list_lookup_total_insert_eq. }
  eexists. split; [exact (bind_Swtch _ _ _ _ _ Hw)|].
  intros s2 Hh2 Hc2 Hn2 Hb2 Hd2 Hl2 D0 D1 D2 F0 F1 F2. cbn beta. rewrite (Hk s2 Hh2 Hc2). cbn [obind].
  set (s3 := awake LDisk (ps_cur (k_proc s1)) (set_intena (intena s1) s2)).
  rewrite (disk_wait_done fuel b s3) by exact Hb2. cbn [obind]. vd_step.
  set (s4 := set_vd _ s3).
  assert (Hfc : free_chain NUM i0 s4 = Done tt (wake ChDiskFree (set_vd (free1 i2 (free1 i1 (free1 i0 (k_vd s4)))) s4))).
  { apply (free_chain_run i0 i1 i2 b w); try done. unfold s4, s3, awake. cbn. by rewrite length_insert. }
  rewrite (bind_Done _ _ _ _ _ Hfc).
  erewrite release_ok; [|reflexivity|set_solver]. reflexivity.
Qed.

(** ** The interrupt handler *)

Definition acked (s : kst) : devstate :=
  let d := k_dev s in
  mk_dev (<[VIRTIO0 + VIRTIO_MMIO_INTERRUPT_ACK := u32 (Z.land (virtio_reg VIRTIO_MMIO_INTERRUPT_STATUS) 0x3)]> (dv_mmio d))
    (dv_irqs d) (pr_locking d) (panicked d) (started d).

Lemma intr_run i0 b s :
  let v := k_vd s in
  k_held s = [] → length (ps_procs (k_proc s)) = NPROC → 0 <= vd_used_idx v < 65536 →
  vd_ring_idx v = u16 (vd_used_idx v + 1) → vd_ring v !!! Z.to_nat (vd_used_idx v mod Z.of_nat NUM) = Z.of_nat i0 →
  vd_status v !!! i0 = 0 → vd_info_b v !!! i0 = Some b →
  virtio_disk_intr s = Done tt (set_vd (set_used_idx (vd_ring_idx v) v)
    (wake (ChDiskBuf b) (put_buf b (set_b_disk false (get_buf s b)) (set_dev (acked s) s)))).
Proof.
  intros v Hh Hn Hu Hr Hring Hst Hi. unfold virtio_disk_intr.
  run_by (apply acquire_ok; rewrite Hh; set_solver). rewrite Hh.
  run_by (unfold R_w, mmio_w, modify; reflexivity). run_by (unfold vd_get, gets; reflexivity). cbn [id].
  set (s1 := set_dev _ _). change (k_vd s1) with v.
  assert (Hfuel : u16 (vd_ring_idx v - vd_used_idx v) = 1).
  { rewrite Hr. unfold u16. rewrite Zminus_mod_idemp_l. replace (vd_used_idx v + 1 - vd_used_idx v) with 1 by lia. done. }
  rewrite Hfuel. change (Z.to_nat 1) with 1%nat.
  assert (Hne : (vd_used_idx v =? vd_ring_idx v) = false).
  { apply Z.eqb_neq. intros E. rewrite <- E, Z.sub_diag in Hfuel. done. }
  assert (Hloop : intr_loop 1 s1 = Done tt (set_vd (set_used_idx (vd_ring_idx v) v)
            (wake (ChDiskBuf b) (put_buf b (set_b_disk false (get_buf s b)) s1)))).
  { cbn [intr_loop]. run_by (unfold vd_get, gets; reflexivity). cbn [id]. change (k_vd s1) with v.
    rewrite Hne, Hring, Nat2Z.id, Hst, Hi. change (0 =? 0) with true. cbn [negb].
    rewrite (bind_Done _ _ _ _ _ (buf_upd_run _ _ _)).
    assert (Hw : wakeup (ChDiskBuf b) (put_buf b (set_b_disk false (get_buf s1 b)) s1) =
             Done tt (wake (ChDiskBuf b) (put_buf b (set_b_disk false (get_buf s1 b)) s1))).
    { by apply (wake_run _ LDisk). }
    rewrite (bind_Done _ _ _ _ _ Hw). vd_step. rewrite <- Hr. run_by (unfold vd_get, gets; reflexivity). cbn [id].
    change (k_vd (put_buf b (set_b_disk false (get_buf s1 b)) s1)) with v.
    cbn [vd_used_idx vd_ring_idx set_used_idx k_vd set_vd wake]. rewrite Z.eqb_refl. reflexivity. }
  run_by (exact Hloop). erewrite release_ok; [|reflexivity|set_solver].
  unfold s1. clear -Hh. destruct s. cbn in Hh. subst. reflexivity.
Qed.

(** ** A request from the call to the return *)

Context `{VirtioDevice}.

(** The hart is back in its scheduler, which has released the lock. *)
Definition idle_hart (s : kst) : kst := set_held [] (set_cur NOPROC s).

Lemma free1_free i v f : vd_free v = f → vd_free (free1 i v) = <[i := true]> f.
Proof. by intros <-. Qed.

Lemma retire_quiet i0 i1 i2 v : vd_quiet v → vd_quiet (retire i0 i1 i2 v).
Proof. intros []. split; cbn; rewrite ?length_insert; done. Qed.

(** The structures after the device and the handler. *)
Definition served_vd (i0 : nat) (v : vdisk) : vdisk :=
  set_used_idx (u16 (vd_ring_idx v + 1)) (used_put i0 v).

Lemma served_quiet b w i0 i1 i2 bno v :
  vd_quiet v → vd_quiet (served_vd i0 (submit_vd b w i0 i1 i2 bno (claim3 i0 i1 i2 v))).
Proof.
  intros []. split; cbn; rewrite ?length_insert; try done.
  - by rewrite vq_served0.
  - apply u16_bound.
Qed.

(** The descriptors are free again. *)
Lemma retire_free b w i0 i1 i2 r bno v :
  length (vd_free v) = NUM → free_idx v = i0 :: i1 :: i2 :: r →
  vd_free (retire i0 i1 i2 (served_vd i0 (submit_vd b w i0 i1 i2 bno (claim3 i0 i1 i2 v)))) = vd_free v.
Proof.
  intros Hlen Hf. pose proof (free_idx_spec v) as Hs. rewrite Hf in Hs. cbn.
  assert (∀ i, i ∈ [i0; i1; i2] → vd_free v !! i = Some true) as Hv.
  { intros i Hi. destruct (Hs i) as [[Hlt Ht] _]; [set_solver|]. rewrite <- Ht. apply list_lookup_lookup_total_lt. lia. }
  apply list_eq. intros j. destruct (decide (j ∈ [i0; i1; i2])) as [Hj|Hj].
  - rewrite (Hv j Hj). assert (j < NUM)%nat by (destruct (Hs j) as [[? _] _]; [set_solver|done]).
    rewrite !list_lookup_insert, !length_insert, Hlen. repeat case_decide; try done; set_solver by lia.
  - rewrite !list_lookup_insert_ne by set_solver. done.
Qed.

(** [t] differs from [s] at most in the locks, the process table, the buffers,
    the disk, the driver's structures and the device registers. *)
Record dframe (s t : kst) : Prop := {
  df_mem : k_mem t = k_mem s;
  df_log : k_log t = k_log s;
  df_sb : k_sb t = k_sb s;
  df_itable : k_itable t = k_itable s;
  df_ftable : k_ftable t = k_ftable s;
  df_pipes : k_pipes t = k_pipes s;
  df_cons : k_cons t = k_cons s;
  df_uart : k_uart t = k_uart s;
  df_ticks : k_ticks t = k_ticks s;
  df_csrs : k_csrs t = k_csrs s;
}.

#[local] Instance dframe_preorder : PreOrder dframe.
Proof. split; [by split|]. intros s t u [] []. split; congruence. Qed.

Lemma dframe_held s l t : dframe s t → dframe s (set_held l t).
Proof. intros []. by split. Qed.
Lemma dframe_bufs s l t : dframe s t → dframe s (set_bufs l t).
Proof. intros []. by split. Qed.
Lemma dframe_disk s d t : dframe s t → dframe s (set_disk d t).
Proof. intros []. by split. Qed.
Lemma dframe_vd s v t : dframe s t → dframe s (set_vd v t).
Proof. intros []. by split. Qed.
Lemma dframe_dev s d t : dframe s t → dframe s (set_dev d t).
Proof. intros []. by split. Qed.
Lemma dframe_procs s l t : dframe s t → dframe s (set_procs l t).
Proof. intros []. by split. Qed.
Lemma dframe_cur s p t : dframe s t → dframe s (set_cur p t).
Proof. intros []. by split. Qed.
Lemma dframe_wake s ch t : dframe s t → dframe s (wake ch t).
Proof. intros []. by split. Qed.
Lemma dframe_buf s b x t : dframe s t → dframe s (put_buf b x t).
Proof. intros []. by split. Qed.

(** The frame of a state that is written as a sequence of updates. *)
Ltac dframe_tac :=
  repeat lazymatch goal with
  | |- dframe _ (set_held _ _) => apply dframe_held
  | |- dframe _ (set_procs _ _) => apply dframe_procs
  | |- dframe _ (set_cur _ _) => apply dframe_cur
  | |- dframe _ (wake _ _) => apply dframe_wake
  | |- dframe _ (put_buf _ _ _) => apply dframe_buf
  | |- dframe _ (set_bufs _ _) => apply dframe_bufs
  | |- dframe _ (set_disk _ _) => apply dframe_disk
  | |- dframe _ (set_vd _ _) => apply dframe_vd
  | |- dframe _ (set_dev _ _) => apply dframe_dev
  end; reflexivity.

Lemma dframe_eq s t bufs d :
  dframe s t → k_held t = k_held s → k_bufs t = bufs → k_disk t = d →
  t = set_proc (k_proc t) (set_vd (k_vd t) (set_dev (k_dev t) (set_bufs bufs (set_disk d s)))).
Proof. intros [] Hh <- <-. destruct s, t. cbn in *. by subst. Qed.

(** The buffer when the request is done: only a read has changed it. *)
Lemma buf_after (b : nat) (w : bool) (x : buf) d (bufs : list buf) :
  (b < length bufs)%nat → bufs !!! b = x → b_disk x = false →
  let bufs1 := <[b := set_b_disk true x]> bufs in
  let bufs2 := if w then bufs1 else <[b := set_b_data d (bufs1 !!! b)]> bufs1 in
  <[b := set_b_disk false (bufs2 !!! b)]> bufs2 = if w then bufs else <[b := set_b_data d x]> bufs.
Proof.
  intros Hb Hx Hd bufs1 bufs2. subst bufs1 bufs2. destruct w; cbn.
  - rewrite list_lookup_total_insert_eq by done. rewrite list_insert_insert_eq. apply list_insert_id.
    rewrite (list_lookup_lookup_total_lt _ _ Hb), Hx. f_equal. destruct x. cbn in *. by subst.
  - rewrite !list_lookup_total_insert_eq by (rewrite ?length_insert; done). rewrite !list_insert_insert_eq.
    f_equal. destruct x. cbn in *. by subst.
Qed.

(** The process table along the request. *)
Lemma proc_after (me : nat) ch (ps : list proc) :
  (me < length ps)%nat → length ps = NPROC → p_state (ps !!! me) = RUNNING → p_chan (ps !!! me) = None →
  let ps1 := <[me := set_p_state SLEEPING (set_p_chan (Some ch) (ps !!! me))]> ps in
  let ps2 := imap (woken ch NOPROC) ps1 in
  p_state (ps2 !!! me) = RUNNABLE ∧
  set_p_chan None (set_p_state RUNNING (ps2 !!! me)) = ps !!! me.
Proof.
  intros Hme Hn Hst Hc ps1 ps2.
  assert (E : ps2 !!! me = set_p_state RUNNABLE (set_p_chan (Some ch) (ps !!! me))).
  { apply list_lookup_total_correct. unfold ps2, ps1. rewrite list_lookup_imap, list_lookup_insert_eq by done. cbn.
    f_equal. unfold woken. rewrite bool_decide_true; [done|]. split_and!; [unfold NOPROC; lia|done|done]. }
  rewrite E. split; [done|]. destruct (ps !!! me). cbn in *. by subst.
Qed.

Lemma transfer_frame b w bno s :
  ∃ bufs, transfer b w bno s = set_bufs bufs (set_disk (k_disk (transfer b w bno s)) s) ∧
    bufs = (if w then k_bufs s else <[b := set_b_data (dblock s bno) (k_bufs s !!! b)]> (k_bufs s)).
Proof. destruct w; eexists; (split; [|reflexivity]); by destruct s. Qed.

Lemma transfer_disk b w bno s :
  k_disk (transfer b w bno s) =
    if w then mk_dstate (<[bno := b_data (k_bufs s !!! b)]> (d_blocks (k_disk s)))
                (d_trace (k_disk s) ++ [(bno, b_data (k_bufs s !!! b))])
    else k_disk s.
Proof. by destruct w. Qed.

(** The caller of [wakeup] is not woken. *)
Lemma woken_me ch me (ps : list proc) : (me < length ps)%nat → imap (woken ch me) ps !!! me = ps !!! me.
Proof.
  intros Hme. apply list_lookup_total_correct. rewrite list_lookup_imap, (list_lookup_lookup_total_lt _ _ Hme). cbn.
  f_equal. unfold woken. by rewrite bool_decide_false by tauto.
Qed.

Lemma desc_served i0 v : vd_desc (served_vd i0 v) = vd_desc v.
Proof. done. Qed.
Lemma free_served b w i0 i1 i2 bno v : vd_free (served_vd i0 (submit_vd b w i0 i1 i2 bno v)) = vd_free v.
Proof. done. Qed.

Lemma claim3_free i0 i1 i2 v :
  triple i0 i1 i2 → length (vd_free v) = NUM →
  vd_free (claim3 i0 i1 i2 v) !!! i0 = false ∧ vd_free (claim3 i0 i1 i2 v) !!! i1 = false ∧
  vd_free (claim3 i0 i1 i2 v) !!! i2 = false.
Proof. intros [T0 T1 T2 N01 N02 N12] Hl. cbn. split_and!; by lookups. Qed.

(** The device and the handler, after the driver has submitted its request. *)
Lemma serve_run b w i0 i1 i2 bno v s :
  k_vd s = submit_vd b w i0 i1 i2 bno v → vd_quiet v → triple i0 i1 i2 → 0 <= bno < 2 ^ 31 →
  length (ps_procs (k_proc s)) = NPROC →
  let t := transfer b w bno (idle_hart s) in
  virtio_disk_intr (dev_step (idle_hart s)) =
    Done tt (set_vd (served_vd i0 (k_vd s)) (wake (ChDiskBuf b) (put_buf b (set_b_disk false (get_buf t b)) (set_dev (acked s) t)))).
Proof.
  intros Hv Hq Ht Hb Hn t. pose proof (submit_pending b w i0 i1 i2 bno v Hq Ht Hb) as Hp. rewrite <- Hv in Hp.
  rewrite (dev_step_ok (idle_hart s) i0 i1 i2 b w bno Hp). fold t.
  destruct (transfer_frame b w bno (idle_hart s)) as (bufs & Htr & _). fold t in Htr.
  destruct Hq, Ht as [T0 T1 T2 N01 N02 N12]. change (k_vd (idle_hart s)) with (k_vd s).
  assert (Hm8 : (Z.to_nat (vd_ring_idx v mod Z.of_nat NUM) < length (vd_ring v))%nat).
  { rewrite vq_ring0. change (Z.of_nat NUM) with 8. pose proof (Z.mod_pos_bound (vd_ring_idx v) 8). unfold NUM. lia. }
  rewrite (intr_run i0 b).
  - rewrite Hv. cbn [k_vd set_vd vd_ring_idx used_put]. rewrite Htr. reflexivity.
  - rewrite Htr. reflexivity.
  - rewrite Htr. exact Hn.
  - cbn [k_vd set_vd]. rewrite Hv. cbn. lia.
  - cbn [k_vd set_vd]. rewrite Hv. cbn. by rewrite vq_seen0.
  - cbn [k_vd set_vd]. rewrite Hv. cbn. rewrite vq_seen0. by apply list_lookup_total_insert_eq.
  - cbn [k_vd set_vd]. rewrite Hv. cbn. apply list_lookup_total_insert_eq. rewrite length_insert. lia.
  - cbn [k_vd set_vd]. rewrite Hv. cbn. apply list_lookup_total_insert_eq. lia.
Qed.

(** C11: The disk driver, the device, the interrupt handler and the scheduler
    together carry out a request.  [virtio_disk_rw] on a driver that has no
    request under way and three free descriptors puts a well-formed chain into
    the available ring and sleeps; when the device has served the chain, the
    handler wakes the process, the scheduler hands it the CPU, and the driver
    returns.  The block is then on the disk, or in the buffer; all descriptors
    are free again; the state differs from the one the buffer cache expects
    ([disk_effect]) only in the process table, where the caller is as before,
    the driver's structures and the device registers. *)
Theorem virtio_request_spec b w s fuel :
  let me := ps_cur (k_proc s) in
  let bno := b_blockno (get_buf s b) in
  k_held s = [] → vd_quiet (k_vd s) → (3 <= length (free_idx (k_vd s)))%nat →
  length (ps_procs (k_proc s)) = NPROC → (me < NPROC)%nat → p_state (get_proc s me) = RUNNING → p_chan (get_proc s me) = None →
  (b < length (k_bufs s))%nat → b_disk (get_buf s b) = false → 0 <= bno < 2 ^ 31 → wait_fuel = S fuel →
  ∃ s1 k s2 s3 k3 s4,
    disk_rw b w s = Swtch s1 k ∧
    virtio_disk_intr (dev_step (idle_hart s1)) = Done tt s2 ∧
    sched_one me s2 = Swtch s3 k3 ∧
    k s3 = Done tt s4 ∧
    s4 = set_proc (k_proc s4) (set_vd (k_vd s4) (set_dev (k_dev s4) (disk_effect b w s))) ∧
    vd_quiet (k_vd s4) ∧ vd_free (k_vd s4) = vd_free (k_vd s) ∧ get_proc s4 me = get_proc s me ∧ ps_cur (k_proc s4) = me.
Proof.
  intros me bno Hh Hq Hfree Hn Hme Hrun Hch Hb Hbd Hbno Hfuel.
  destruct (free_idx (k_vd s)) as [|i0 [|i1 [|i2 r] ] ] eqn:Hf; cbn [length] in Hfree; try lia.
  pose proof (free_idx_triple _ _ _ _ _ Hf) as Ht. pose proof (vq_free _ Hq) as Hlf.
  destruct (disk_rw_run b w i0 i1 i2 r fuel s Hh Hlf Hf ltac:(rewrite Hn; exact Hme) Hb Hfuel) as (k & Hrw & Hk).
  fold me in Hrw, Hk. set (ch := ChDiskBuf b) in *.
  set (v := claim3 i0 i1 i2 (k_vd s)) in *. assert (Hqc : vd_quiet v) by (destruct Hq; split; cbn; rewrite ?length_insert; done).
  set (s1 := asleep ch me _) in Hrw.
  pose proof (serve_run b w i0 i1 i2 bno v s1 eq_refl Hqc Ht Hbno ltac:(cbn; by rewrite length_insert)) as Hserve. cbn zeta in Hserve.
  destruct (transfer_frame b w bno (idle_hart s1)) as (bufs & Htr & Hbufs). rewrite Htr in Hserve.
  set (d := k_disk (transfer b w bno (idle_hart s1))) in *. set (s2 := set_vd _ _) in Hserve.
  destruct (proc_after me ch (ps_procs (k_proc s)) ltac:(lia) Hn Hrun Hch) as [Hst2 Hback].
  set (ps2 := imap (woken ch NOPROC) _) in Hst2, Hback.
  assert (Hps2 : ps_procs (k_proc s2) = ps2) by (exact eq_refl).
  destruct (sched_one_run me s2 (unlocked_nil (LProc me) s2 eq_refl ltac:(done)) Hst2) as (k3 & Hsched & _). set (s3 := dispatched me s2) in Hsched.
  assert (Hlen2 : length ps2 = NPROC) by (unfold ps2; by rewrite length_imap, length_insert).
  assert (Hlb : length bufs = length (k_bufs s)).
  { rewrite Hbufs. destruct w; rewrite ?length_insert; cbn; by rewrite length_insert. }
  pose proof (submit_pending b w i0 i1 i2 bno v Hqc Ht Hbno) as [_ _ D0 D1 D2 _].
  destruct (claim3_free i0 i1 i2 (k_vd s) Ht Hlf) as (F0 & F1 & F2).
  pose proof (served_quiet b w i0 i1 i2 bno _ Hq) as Hq3.
  assert (Hv3 : k_vd s3 = served_vd i0 (submit_vd b w i0 i1 i2 bno v)) by (exact eq_refl).
  assert (Hb3 : k_bufs s3 = <[b := set_b_disk false (bufs !!! b)]> bufs) by (exact eq_refl).
  assert (Hp3 : ps_procs (k_proc s3) = <[me := set_p_state RUNNING (ps2 !!! me)]> ps2) by (exact eq_refl).
  pose proof (Hk s3) as Hk3. unfold get_buf in Hk3. rewrite Hb3, Hv3, Hp3 in Hk3.
  specialize (Hk3 eq_refl). specialize (Hk3 eq_refl).
  specialize (Hk3 ltac:(rewrite length_insert; exact Hlen2)).
  specialize (Hk3 ltac:(rewrite list_lookup_total_insert_eq by (rewrite Hlb; exact Hb); reflexivity)).
  specialize (Hk3 (vq_desc _ Hq3) (vq_free _ Hq3)). rewrite desc_served, free_served in Hk3.
  specialize (Hk3 D0 D1 D2 F0 F1 F2). rewrite (set_intena_same s s3) in Hk3 by exact eq_refl.
  set (s4 := set_held _ _) in Hk3. exists s1, k, s2, s3, k3, s4. split_and!; [exact Hrw|exact Hserve|exact Hsched|exact Hk3|..].
  - destruct (transfer_frame b w bno s) as (bufs' & Htr' & Hbufs'). change (disk_effect b w s) with (transfer b w bno s).
    rewrite Htr', transfer_disk. apply dframe_eq.
    + unfold s4, s3, s2, s1, dispatched, idle_hart, asleep, submitted. dframe_tac.
    + exact (eq_sym Hh).
    + change (<[b := set_b_disk false (bufs !!! b)]> bufs = bufs').
      rewrite Hbufs, Hbufs'. exact (buf_after b w (get_buf s b) (dblock s bno) (k_bufs s) Hb eq_refl Hbd).
    + change (d = if w then mk_dstate (<[bno := b_data (k_bufs s !!! b)]> (d_blocks (k_disk s)))
                (d_trace (k_disk s) ++ [(bno, b_data (k_bufs s !!! b))]) else k_disk s).
      unfold d. rewrite transfer_disk. change (k_bufs (idle_hart s1)) with (<[b := set_b_disk true (get_buf s b)]> (k_bufs s)).
      rewrite list_lookup_total_insert_eq by exact Hb. exact eq_refl.
  - exact (retire_quiet i0 i1 i2 _ (served_quiet b w i0 i1 i2 bno _ Hq)).
  - exact (retire_free b w i0 i1 i2 r bno (k_vd s) Hlf Hf).
  - change (imap (woken ChDiskFree me) (<[me := set_p_chan None (ps_procs (k_proc s3) !!! me)]> (ps_procs (k_proc s3))) !!! me
            = ps_procs (k_proc s) !!! me).
    rewrite Hp3, woken_me by (rewrite !length_insert; lia).
    rewrite !list_lookup_total_insert_eq by (rewrite ?length_insert; lia). exact Hback.
  - exact eq_refl.
Qed.
End virtio_spec.

(** ** A concrete device and request *)

(** A device that follows the chain in memory. *)
Definition ram_disk (s : kst) : kst :=
  let v := k_vd s in
  let i0 := Z.to_nat (vd_avail v !!! Z.to_nat (vd_ring_idx v mod Z.of_nat NUM)) in
  let op := vd_ops v !!! i0 in
  match d_addr (vd_desc v !!! Z.to_nat (d_next (vd_desc v !!! i0))) with
  | DmaBuf b => set_vd (used_put i0 v) (transfer b (rq_type op =? VIRTIO_BLK_T_OUT) (rq_sector op / 2) s)
  | _ => s
  end.

#[local] Instance ram_disk_device : VirtioDevice.
Proof.
  exists ram_disk. intros s i0 i1 i2 b w bno [Hi Hh H0 H1 H2 Ho]. unfold ram_disk.
  rewrite Hh, Nat2Z.id, H0. cbn [d_next desc0]. rewrite Nat2Z.id, H1, Ho. cbn [d_addr desc1 rq_type rq_sector].
  rewrite (Z.mul_comm 2), Z.div_mul by lia. by destruct w.
Defined.

#[local] Instance zero_regs : VirtioRegs := {| virtio_reg := λ _, 0; disk_pages := 0x80020000 |}.
#[local] Instance one_sleep : WaitFuel := 1%nat.

(** All descriptors are free, the 16-bit indices are about to wrap, and buffer
    0 holds block 7. *)
Definition disk_state : kst :=
  set_vd (mk_vdisk (replicate 8 zero_desc) 65535 (replicate 8 0) 65535 (replicate 8 0) (replicate 8 true) 65535
            (replicate 8 None) (replicate 8 0) (replicate 8 (mk_req 0 0)) 0)
    (put_buf 0 (mk_buf true false 1 7 (mk_sleeplock true 1) 1 0 0 (replicate 1024 9))
      (set_proc (mk_pstate (<[0%nat := set_p_state RUNNING zero_proc]> (replicate NPROC zero_proc)) 0 None 1 true) boot_state)).

Lemma virtio_request_spec_witness :
  ∃ s1 k s2 s3 k3 s4, disk_rw 0 true disk_state = Swtch s1 k ∧
    virtio_disk_intr (dev_step (idle_hart s1)) = Done tt s2 ∧ sched_one 0 s2 = Swtch s3 k3 ∧ k s3 = Done tt s4 ∧
    d_blocks (k_disk s4) !! 7 = Some (replicate 1024 9).
Proof.
  destruct (virtio_request_spec 0 true disk_state 0) as (s1 & k & s2 & s3 & k3 & s4 & H1 & H2 & H3 & H4 & H5 & _).
  - reflexivity.
  - split; vm_compute; repeat split; congruence.
  - vm_compute. lia.
  - reflexivity.
  - vm_compute. lia.
  - reflexivity.
  - reflexivity.
  - vm_compute. lia.
  - reflexivity.
  - vm_compute. split; congruence.
  - reflexivity.
  - exists s1, k, s2, s3, k3, s4. split; [exact H1|]. split; [exact H2|]. split; [exact H3|]. split; [exact H4|].
    rewrite H5. apply lookup_insert_eq.
Defined.
