(* ===== verification/Tx.v ===== *)
(** * Transactions: what the log and the buffer cache promise to fs.c

    Inside a transaction a thread of the file system sees a function from block
    numbers to contents, the list of blocks it has logged, and the blocks it
    holds locked.  [tx] states this view of a kernel state; the lemmas below are
    the rules for [bread], [log_write] and [brelse] on it.  The proofs about
    fs.c use these rules and nothing else of bio.c and log.c. *)

From stdpp Require Import gmap.
From S2P Require Import Prelude Memory Params State Sched Block Bio BioList BioInv BioSpec BioInit.
From S2P Require Import Log LogRun LogHead LogCommit LogOps Fs.

(** ** The frame of a file system operation *)

(** Buffers, disk, sleeping processes, log variables and the inode table may
    change, and nothing else. *)
Definition fframe (s s' : kst) : Prop := lframe (set_itable (k_itable s') s) s'.

Lemma bframe_fframe s s' : bframe s s' → fframe s s'.
Proof. intros Hf. unfold fframe. rewrite (bframe_itable _ _ Hf). destruct s. by apply bframe_lframe. Qed.

Lemma lframe_itable s s' : lframe s s' → k_itable s' = k_itable s.
Proof. intros Hf. by apply bframe_itable in Hf. Qed.
Lemma lframe_sb s s' : lframe s s' → k_sb s' = k_sb s.
Proof. intros Hf. by apply bframe_sb in Hf. Qed.
Lemma lframe_mem s s' : lframe s s' → k_mem s' = k_mem s.
Proof. intros Hf. by apply bframe_mem in Hf. Qed.
Lemma lframe_fframe s s' : lframe s s' → fframe s s'.
Proof. intros Hf. unfold fframe. rewrite (lframe_itable _ _ Hf). by destruct s. Qed.

Lemma fframe_sb s s' : fframe s s' → k_sb s' = k_sb s.
Proof. intros Hf. by apply lframe_sb in Hf. Qed.
Lemma fframe_mem s s' : fframe s s' → k_mem s' = k_mem s.
Proof. intros Hf. by apply lframe_mem in Hf. Qed.

Lemma lframe_set_itable it s s' : lframe s s' → lframe (set_itable it s) (set_itable it s').
Proof.
  intros [E L P]. split; [|exact L|exact P]. rewrite E at 1. done.
Qed.

Lemma fframe_trans s1 s2 s3 : fframe s1 s2 → fframe s2 s3 → fframe s1 s3.
Proof.
  unfold fframe. intros H1 H2. eapply lframe_trans; [|exact H2].
  exact (lframe_set_itable (k_itable s3) _ _ H1).
Qed.
#[export] Instance fframe_preorder : PreOrder fframe.
Proof. split; [intros s; apply bframe_fframe; reflexivity|exact fframe_trans]. Qed.

Lemma fframe_put_inode i ip s : fframe s (put_inode i ip s).
Proof. apply bframe_lframe. reflexivity. Qed.

(** ** The view *)

(** The log on disk: its first block and its number of blocks. *)
Record region : Type := mk_region { rg_start : Z; rg_size : Z }.

(** A block of the file system proper, which may be logged. *)
Definition home (lg : region) (x : Z) : Prop := 0 <= x < 2 ^ 31 ∧ ¬ (rg_start lg <= x < rg_start lg + rg_size lg).

(** The number of blocks a transaction may log. *)
Definition tx_cap (lg : region) : Z := Z.min (rg_size lg - 1) LOGSIZE.

Definition tx_refs (bl : list Z) (hs : gmap Z nat) (x : Z) : Z :=
  (if decide (x ∈ bl) then 1 else 0) + (if decide (is_Some (hs !! x)) then 1 else 0).

Definition tx_hold (hs : gmap Z nat) (x : Z) : hold :=
  match hs !! x with Some i => Mine i | None => Free end.

Definition tx_cache (D : Z → list Z) bl hs disk tr : cache := mk_cache D (tx_refs bl hs) (tx_hold hs) disk tr.

(** Blocks read as [D]; [bl] have been logged and [hs] are locked by this
    thread, each with its buffer.  A block that was not logged is as on disk. *)
Record tx `{DiskRw} `{WaitFuel} (lg : region) (s : kst) (D : Z → list Z) (bl : list Z) (hs : gmap Z nat) : Prop := {
  tx_rep : ∃ disk tr, Rep s (tx_cache D bl hs disk tr) ∧ ∀ x, x ∉ bl → D x = disk x;
  tx_held : k_held s = [];
  tx_log : log_ok (k_log s) bl;
  tx_start : l_start (k_log s) = rg_start lg;
  tx_size : l_size (k_log s) = rg_size lg;
  tx_out : 1 <= l_outstanding (k_log s);
}.

Section tx.
Context `{DiskRw} `{WaitFuel}.
Implicit Types (s : kst) (D : Z → list Z) (bl : list Z) (hs : gmap Z nat) (lg : region).

Lemma tx_bread lg s D bl hs x :
  tx lg s D bl hs → hs !! x = None → (length bl + size hs < NBUF)%nat →
  ∃ i s', bread ROOTDEV x s = Done i s' ∧ tx lg s' D bl (<[x := i]> hs) ∧ lframe s s'.
Proof.
  intros [(disk & tr & HR & Hcl) Hk Hl Hst Hsz Ho] Hx Hroom.
  destruct (bread_rep s _ x HR Hk) as (i & s1 & Hrun & HR1 & Hf1).
  - simpl. unfold tx_hold. by rewrite Hx.
  - simpl. unfold tx_refs. repeat case_decide; lia.
  - right. exists (bl ++ elements (dom hs)). split.
    + intros y. simpl. unfold tx_refs. rewrite elem_of_app, elem_of_elements, elem_of_dom.
      intros Hy. repeat case_decide; [by left|by left|by right|lia].
    + rewrite length_app, <- (size_dom (D := gset Z)) in *. exact Hroom.
  - exists i, s1. split; [exact Hrun|]. pose proof (bframe_log _ _ Hf1) as El.
    split; [|by apply bframe_lframe]. split; rewrite ?El; try done; [|by rewrite (bframe_held _ _ Hf1)].
    exists disk, tr. split; [|done]. eapply Rep_ceq; [|exact HR1]. split; try done; intros y; simpl.
    + unfold tx_refs, upd. destruct (decide (y = x)) as [->|Hne].
      * rewrite lookup_insert_eq, Hx, (decide_False (P := is_Some None)), (decide_True (P := is_Some (Some i)));
          [lia|done|by intros [? ?]].
      * by rewrite lookup_insert_ne.
    + unfold tx_hold, upd. destruct (decide (y = x)) as [->|Hne]; [by rewrite lookup_insert_eq|].
      by rewrite lookup_insert_ne.
Qed.

Lemma tx_data lg s D bl hs x i : tx lg s D bl hs → hs !! x = Some i → b_data (get_buf s i) = D x.
Proof.
  intros [(disk & tr & HR & Hcl) _ _ _ _ _] Hx. apply (buf_data_rep _ _ _ _ HR). simpl.
  unfold tx_hold. by rewrite Hx.
Qed.

Lemma tx_brelse lg s D bl hs x i :
  tx lg s D bl hs → hs !! x = Some i →
  ∃ s', brelse i s = Done tt s' ∧ tx lg s' D bl (delete x hs) ∧ lframe s s'.
Proof.
  intros [(disk & tr & HR & Hcl) Hk Hl Hst Hsz Ho] Hx.
  destruct (brelse_rep s _ x i HR Hk) as (s1 & Hrun & HR1 & Hf1).
  - simpl. unfold tx_hold. by rewrite Hx.
  - simpl. unfold tx_refs. rewrite Hx, (decide_True (P := is_Some (Some i))) by done.
    case_decide; [lia|]. intros _. by apply Hcl.
  - exists s1. split; [exact Hrun|]. pose proof (bframe_log _ _ Hf1) as El.
    split; [|by apply bframe_lframe]. split; rewrite ?El; try done; [|by rewrite (bframe_held _ _ Hf1)].
    exists disk, tr. split; [|done]. eapply Rep_ceq; [|exact HR1]. split; try done; intros y; simpl.
    + unfold tx_refs, upd. destruct (decide (y = x)) as [->|Hne].
      * rewrite lookup_delete_eq, Hx, (decide_False (P := is_Some None)), (decide_True (P := is_Some (Some i)));
          [lia|done|by intros [? ?]].
      * by rewrite lookup_delete_ne.
    + unfold tx_hold, upd. destruct (decide (y = x)) as [->|Hne]; [by rewrite lookup_delete_eq|].
      by rewrite lookup_delete_ne.
Qed.

(** The bytes of a locked block are replaced and the block logged. *)
Lemma tx_write lg s D bl hs x i d :
  tx lg s D bl hs → hs !! x = Some i → home lg x → Z.of_nat (length bl) < tx_cap lg →
  ∃ s', log_write i (put_buf i (set_b_data d (get_buf s i)) s) = Done tt s' ∧
    tx lg s' (upd x d D) (logged bl x) hs ∧ lframe s s'.
Proof.
  intros [(disk & tr & HR & Hcl) Hk Hl Hst Hsz Ho] Hx [Hx1 Hx2] Hcap. unfold tx_cap in Hcap.
  assert (Hm : tx_hold hs x = Mine i) by (unfold tx_hold; by rewrite Hx).
  pose proof (set_data_rep s _ x i d HR Hm) as HR0. set (s0 := put_buf _ _ _) in *.
  assert (Hf0 : bframe s s0) by apply bframe_put.
  destruct (log_write_run s0 _ bl x i HR0) as (s1 & Hrun & Hf1 & Hlo & Ho1 & Hsz1 & Hst1 & Hc1 & HR1);
    rewrite ?(bframe_log _ _ Hf0), ?(bframe_held _ _ Hf0), ?Hst, ?Hsz; try done; try lia.
  { simpl. unfold tx_refs. repeat case_decide; lia. }
  exists s1. split; [exact Hrun|].
  assert (Hf : lframe s s1) by (eapply lframe_trans; [by apply bframe_lframe|exact Hf1]).
  split; [|exact Hf]. rewrite (bframe_log _ _ Hf0) in *.
  split; [|by rewrite (lframe_held _ _ Hf)|exact Hlo|by rewrite Hst1|by rewrite Hsz1|by rewrite Ho1].
  exists disk, tr. split.
  - eapply Rep_ceq; [|exact HR1]. unfold logged. case_decide as Hin; split; try done; intros y; simpl.
    unfold tx_refs, upd. destruct (decide (y = x)) as [->|Hne].
    + rewrite (decide_True (P := x ∈ bl ++ [x])) by set_solver. rewrite (decide_False (P := x ∈ bl)) by done. lia.
    + rewrite (decide_ext (y ∈ bl ++ [x]) (y ∈ bl)); [done|]. set_solver.
  - intros y Hy. unfold logged in Hy. unfold upd.
    destruct (decide (y = x)) as [->|Hne]; [case_decide; set_solver|].
    apply Hcl. case_decide; set_solver.
Qed.

(** A state that differs in fields the view does not look at. *)
Lemma tx_ext lg s s' D bl hs :
  k_bufs s' = k_bufs s → k_disk s' = k_disk s → k_proc s' = k_proc s → k_log s' = k_log s → k_held s' = k_held s →
  tx lg s D bl hs → tx lg s' D bl hs.
Proof.
  intros E1 E2 E3 E4 E5 [(disk & tr & HR & Hcl) Hk Hl Hst Hsz Ho]. split; rewrite ?E4, ?E5; try done.
  exists disk, tr. split; [|done]. by eapply Rep_ext; [..|exact HR].
Qed.

(** The contents matter only block by block. *)
Lemma tx_content lg s D D' bl hs : (∀ x, D' x = D x) → tx lg s D bl hs → tx lg s D' bl hs.
Proof.
  intros E [(disk & tr & HR & Hcl) Hk Hl Hst Hsz Ho]. split; try done. exists disk, tr.
  split; [|intros x Hx; rewrite E; by apply Hcl]. eapply Rep_ceq; [|exact HR]. by split.
Qed.

Lemma tx_put_inode lg s D bl hs i ip : tx lg s D bl hs → tx lg (put_inode i ip s) D bl hs.
Proof. by apply tx_ext. Qed.

Lemma tx_nodup lg s D bl hs : tx lg s D bl hs → NoDup bl.
Proof. intros Ht. apply (lo_nodup _ _ (tx_log _ _ _ _ _ Ht)). Qed.

Lemma tx_upd_data s i f : upd_data i f s = Done tt (put_buf i (set_b_data (f (b_data (get_buf s i))) (get_buf s i)) s).
Proof. reflexivity. Qed.
End tx.

Lemma logged_subseteq bl x (T : list Z) : bl ⊆ T → x ∈ T → logged bl x ⊆ T.
Proof. intros H1 H2. unfold logged. case_decide; set_solver. Qed.

Lemma logged_length bl x : (length bl <= length (logged bl x) <= length bl + 1)%nat.
Proof. unfold logged. case_decide; rewrite ?length_app; simpl; lia. Qed.
