(* ===== verification/FsAlloc.v ===== *)
(** * The block allocator of kernel/fs.c

    [balloc] and [bfree] as operations on the set of allocated blocks that the
    bitmap represents, inside a transaction. *)

From stdpp Require Import gmap.
From S2P Require Import Prelude Memory Params State Sched Block Bio BioSpec Log LogCommit LogOps Fs Tx.

Implicit Types (s : kst) (D : Z → list Z) (bl : list Z) (hs : gmap Z nat) (lg : region) (sb : superblock).

(** ** Bits of a block *)

Lemma bit_set_testbit d bi : bit_set d bi = Z.testbit (d !!! bit_byte bi) (bi mod 8).
Proof.
  unfold bit_set, bit_mask. pose proof (Z.mod_pos_bound bi 8 ltac:(lia)) as Hb.
  set (a := d !!! bit_byte bi). set (k := bi mod 8) in *.
  rewrite Z.shiftl_1_l. destruct (Z.testbit a k) eqn:E.
  - apply negb_true_iff, Z.eqb_neq. intros E0. apply (f_equal (λ z, Z.testbit z k)) in E0.
    by rewrite Z.land_spec, Z.pow2_bits_true, E, Z.bits_0 in E0 by lia.
  - apply negb_false_iff, Z.eqb_eq, Z.bits_inj'. intros n Hn. rewrite Z.land_spec, Z.bits_0, Z.pow2_bits_eqb by lia.
    destruct (Z.eqb_spec k n) as [->|]; [by rewrite E|apply andb_false_r].
Qed.

Lemma bit_mask_testbit bi k : 0 <= k < 8 → Z.testbit (bit_mask bi) k = bool_decide (k = bi mod 8).
Proof.
  intros Hk. unfold bit_mask. pose proof (Z.mod_pos_bound bi 8 ltac:(lia)) as Hb.
  rewrite Z.shiftl_1_l, Z.pow2_bits_eqb by lia. case_bool_decide; [by apply Z.eqb_eq|apply Z.eqb_neq; lia].
Qed.

Definition bits_in (d : list Z) (bi : Z) : Prop := 0 <= bi < 8 * Z.of_nat (length d).

Lemma bit_byte_lt d bi : bits_in d bi → (bit_byte bi < length d)%nat.
Proof. unfold bits_in, bit_byte. intros H. pose proof (Z.div_lt_upper_bound bi 8 (Z.of_nat (length d))). lia. Qed.

Lemma same_bit bi bj : 0 <= bi → 0 <= bj → bit_byte bi = bit_byte bj → bi mod 8 = bj mod 8 → bi = bj.
Proof. unfold bit_byte. intros ? ? Hd Hm. pose proof (Z.div_mod bi 8). pose proof (Z.div_mod bj 8).
  pose proof (Z.div_pos bi 8). pose proof (Z.div_pos bj 8). lia. Qed.

Lemma set_bit_spec d bi bj : bits_in d bi → 0 <= bj → bit_set (set_bit d bi) bj = bool_decide (bj = bi) || bit_set d bj.
Proof.
  intros Hi Hj. rewrite !bit_set_testbit. unfold set_bit. pose proof (bit_byte_lt _ _ Hi) as Hlt.
  pose proof (Z.mod_pos_bound bj 8 ltac:(lia)).
  destruct (decide (bit_byte bj = bit_byte bi)) as [Eb|Hne].
  - rewrite Eb, list_lookup_total_insert_eq by done. rewrite Z.lor_spec, bit_mask_testbit by lia.
    rewrite orb_comm. f_equal. apply bool_decide_ext. split; [|by intros ->].
    intros Em. apply same_bit; [done|apply Hi|done|done].
  - rewrite list_lookup_total_insert_ne by done. rewrite bool_decide_eq_false_2; [done|by intros ->].
Qed.

Lemma clear_bit_spec d bi bj : bits_in d bi → 0 <= bj → bit_set (clear_bit d bi) bj = negb (bool_decide (bj = bi)) && bit_set d bj.
Proof.
  intros Hi Hj. rewrite !bit_set_testbit. unfold clear_bit. pose proof (bit_byte_lt _ _ Hi) as Hlt.
  pose proof (Z.mod_pos_bound bj 8 ltac:(lia)).
  destruct (decide (bit_byte bj = bit_byte bi)) as [Eb|Hne].
  - rewrite Eb, list_lookup_total_insert_eq by done. rewrite Z.ldiff_spec, bit_mask_testbit by lia.
    rewrite andb_comm. f_equal. f_equal. apply bool_decide_ext. split; [|by intros ->].
    intros Em. apply same_bit; [done|apply Hi|done|done].
  - rewrite list_lookup_total_insert_ne by done. rewrite bool_decide_eq_false_2; [done|by intros ->].
Qed.

(** ** The layout of the disk *)

(** The blocks of the bitmap, and the first block behind it. *)
Definition nbitmap sb : Z := (sb_size sb + BPB - 1) / BPB.
Definition data_start sb : Z := sb_bmapstart sb + nbitmap sb.

(** Boot block, super block, log, inodes, bitmap and data in this order, as in
    the comment of mkfs and fs.h. *)
Record layout lg sb : Prop := {
  ly_log : 2 <= rg_start lg ∧ 0 <= rg_size lg;
  ly_inode : rg_start lg + rg_size lg <= sb_inodestart sb;
  ly_bmap : 0 <= sb_ninodes sb ∧ sb_inodestart sb + sb_ninodes sb / IPB + 1 <= sb_bmapstart sb;
  ly_data : data_start sb <= sb_size sb;
  ly_size : sb_size sb < 2 ^ 31 - BPB;
}.

Definition data_block sb (x : Z) : Prop := data_start sb <= x < sb_size sb.

(** The bit of block [b]. *)
Definition allocated sb D (b : Z) : bool := bit_set (D (BBLOCK b sb)) (b mod BPB).

(** All blocks have their size, and those before the data are in use. *)
Record disk_ok lg sb D : Prop := {
  dk_layout : layout lg sb;
  dk_len : ∀ x, length (D x) = Z.to_nat BSIZE;
  dk_meta : ∀ b, 0 <= b < data_start sb → allocated sb D b = true;
}.

(** What the operations do to the contents of the blocks. *)
Definition mark sb (b : Z) D : Z → list Z := upd (BBLOCK b sb) (set_bit (D (BBLOCK b sb)) (b mod BPB)) D.
Definition unmark sb (b : Z) D : Z → list Z := upd (BBLOCK b sb) (clear_bit (D (BBLOCK b sb)) (b mod BPB)) D.
Definition zeroed (x : Z) D : Z → list Z := upd x (replicate (Z.to_nat BSIZE) 0) D.

Section layout.
Context {lg sb} (Hly : layout lg sb).

Lemma nbitmap_pos : 0 < nbitmap sb.
Proof.
  destruct Hly as [? ? [Hn ?] Hd _]. unfold nbitmap, data_start, nbitmap, BPB, BSIZE in *.
  assert (0 <= sb_ninodes sb / IPB) by (apply Z.div_pos; [done|by compute]).
  assert (0 < sb_size sb); [|apply Z.div_str_pos; lia].
  destruct (decide (0 < sb_size sb)); [done|]. exfalso.
  assert (-1 <= (sb_size sb + 1024 * 8 - 1) / (1024 * 8) \/ (sb_size sb + 1024 * 8 - 1) / (1024 * 8) < -1) as [?|Hx] by lia; [lia|].
  pose proof (Z.div_mod (sb_size sb + 1024 * 8 - 1) (1024 * 8) ltac:(lia)).
  pose proof (Z.mod_pos_bound (sb_size sb + 1024 * 8 - 1) (1024 * 8) ltac:(lia)). lia.
Qed.

Lemma bmap_start_pos : 0 < sb_bmapstart sb.
Proof. destruct Hly as [? ? [Hn ?] Hd _]. assert (0 <= sb_ninodes sb / IPB) by (apply Z.div_pos; [done|by compute]). lia. Qed.

Lemma BBLOCK_eq b : 0 <= b < sb_size sb → BBLOCK b sb = sb_bmapstart sb + b / BPB ∧ b / BPB < nbitmap sb.
Proof.
  intros Hb. pose proof bmap_start_pos. destruct Hly as [_ _ _ Hd Hs]. unfold data_start in Hd.
  assert (Hlt : b / BPB < nbitmap sb).
  { unfold nbitmap. apply Z.div_lt_upper_bound; [by compute|].
    pose proof (Z.div_mod (sb_size sb + BPB - 1) BPB ltac:(by compute)).
    pose proof (Z.mod_pos_bound (sb_size sb + BPB - 1) BPB ltac:(by compute)). lia. }
  split; [|exact Hlt]. assert (0 <= b / BPB) by (apply Z.div_pos; [lia|by compute]).
  unfold BBLOCK. rewrite u32_small; [lia|]. unfold BPB, BSIZE in *. lia.
Qed.

Lemma BBLOCK_range b : 0 <= b < sb_size sb → sb_bmapstart sb <= BBLOCK b sb < data_start sb.
Proof.
  intros Hb. destruct (BBLOCK_eq b Hb) as [-> Hlt]. assert (0 <= b / BPB) by (apply Z.div_pos; [lia|by compute]).
  unfold data_start. lia.
Qed.

Lemma bitmap_home x : sb_bmapstart sb <= x < sb_size sb → home lg x.
Proof.
  intros Hx. destruct Hly as [? ? [Hn ?] Hd Hs].
  assert (0 <= sb_ninodes sb / IPB) by (apply Z.div_pos; [done|by compute]). unfold BPB, BSIZE in *.
  split; lia.
Qed.

Lemma BBLOCK_home b : 0 <= b < sb_size sb → home lg (BBLOCK b sb).
Proof. intros Hb. apply bitmap_home. pose proof (BBLOCK_range b Hb). pose proof (ly_data _ _ Hly). lia. Qed.

Lemma data_home b : data_block sb b → home lg b.
Proof. intros Hb. apply bitmap_home. pose proof nbitmap_pos. unfold data_block, data_start in Hb. lia. Qed.

(** Two blocks have the same bit in the same bitmap block only if equal. *)
Lemma BBLOCK_inj b b' : 0 <= b < sb_size sb → 0 <= b' < sb_size sb →
  BBLOCK b sb = BBLOCK b' sb → b mod BPB = b' mod BPB → b = b'.
Proof.
  intros Hb Hb' E Em. rewrite (proj1 (BBLOCK_eq _ Hb)), (proj1 (BBLOCK_eq _ Hb')) in E.
  rewrite (Z.div_mod b BPB), (Z.div_mod b' BPB) by (by compute). rewrite Em. f_equal. f_equal. lia.
Qed.
End layout.

Lemma mod_BPB b : 0 <= b mod BPB < BPB.
Proof. apply Z.mod_pos_bound. by compute. Qed.

Section diskok.
Context {lg sb}.

Lemma disk_bits D b x : disk_ok lg sb D → bits_in (D x) (b mod BPB).
Proof. intros Hd. unfold bits_in. rewrite (dk_len _ _ _ Hd). pose proof (mod_BPB b). unfold BPB, BSIZE in *. lia. Qed.

Lemma allocated_mark D b b' : disk_ok lg sb D → 0 <= b < sb_size sb → 0 <= b' < sb_size sb →
  allocated sb (mark sb b D) b' = bool_decide (b' = b) || allocated sb D b'.
Proof.
  intros Hd Hb Hb'. unfold allocated, mark, upd. pose proof (dk_layout _ _ _ Hd) as Hly. pose proof (mod_BPB b').
  destruct (decide (BBLOCK b' sb = BBLOCK b sb)) as [E|Hne].
  - rewrite set_bit_spec by (try lia; by apply disk_bits). rewrite E. f_equal. apply bool_decide_ext.
    split; [intros Em; by apply (BBLOCK_inj Hly)|by intros ->].
  - rewrite bool_decide_eq_false_2; [done|by intros ->].
Qed.

Lemma allocated_unmark D b b' : disk_ok lg sb D → 0 <= b < sb_size sb → 0 <= b' < sb_size sb →
  allocated sb (unmark sb b D) b' = negb (bool_decide (b' = b)) && allocated sb D b'.
Proof.
  intros Hd Hb Hb'. unfold allocated, unmark, upd. pose proof (dk_layout _ _ _ Hd) as Hly. pose proof (mod_BPB b').
  destruct (decide (BBLOCK b' sb = BBLOCK b sb)) as [E|Hne].
  - rewrite clear_bit_spec by (try lia; by apply disk_bits). rewrite E. f_equal. f_equal. apply bool_decide_ext.
    split; [intros Em; by apply (BBLOCK_inj Hly)|by intros ->].
  - rewrite bool_decide_eq_false_2; [done|by intros ->].
Qed.

(** Writing a data block leaves the bitmap alone. *)
Lemma allocated_data D x d b : layout lg sb → data_start sb <= x → 0 <= b < sb_size sb →
  allocated sb (upd x d D) b = allocated sb D b.
Proof.
  intros Hly Hx Hb. unfold allocated. rewrite upd_ne; [done|]. pose proof (BBLOCK_range Hly b Hb). lia.
Qed.

Lemma disk_ok_data D x d : disk_ok lg sb D → data_start sb <= x → length d = Z.to_nat BSIZE → disk_ok lg sb (upd x d D).
Proof.
  intros [Hly Hl Hm] Hx Hd. split; [done| |].
  - intros y. unfold upd. by case_decide.
  - intros b Hb. rewrite allocated_data; try done; [by apply Hm|]. pose proof (ly_data _ _ Hly). lia.
Qed.

Lemma disk_ok_mark D b : disk_ok lg sb D → 0 <= b < sb_size sb → disk_ok lg sb (mark sb b D).
Proof.
  intros Hd Hb. pose proof Hd as [Hly Hl Hm]. split; [done| |].
  - intros y. unfold mark, upd. case_decide; [|done]. unfold set_bit. by rewrite length_insert.
  - intros b' Hb'. pose proof (ly_data _ _ Hly). rewrite allocated_mark by (try done; lia). rewrite Hm by done. apply orb_true_r.
Qed.

Lemma disk_ok_unmark D b : disk_ok lg sb D → data_block sb b → disk_ok lg sb (unmark sb b D).
Proof.
  intros Hd Hb. pose proof Hd as [Hly Hl Hm]. unfold data_block in Hb.
  pose proof (ly_data _ _ Hly). pose proof (nbitmap_pos Hly). pose proof (bmap_start_pos Hly). unfold data_start in *.
  split; [done| |].
  - intros y. unfold unmark, upd. case_decide; [|done]. unfold clear_bit. by rewrite length_insert.
  - intros b' Hb'. unfold data_start in Hb'. rewrite allocated_unmark by (try done; lia).
    rewrite Hm by done. rewrite bool_decide_eq_false_2; [done|lia].
Qed.
End diskok.

Section alloc.
Context `{DiskRw} `{WaitFuel}.

(** [upd_data; log_write; brelse] on a block just read: the three steps at the
    end of every update of a block. *)
Lemma tx_finish lg s D bl hs x i f :
  tx lg s D bl (<[x := i]> hs) → hs !! x = None → home lg x → Z.of_nat (length bl) < tx_cap lg →
  ∃ s1 s2, upd_data i f s = Done tt s1 ∧ log_write i s1 = Done tt s2 ∧
    tx lg s2 (upd x (f (D x)) D) (logged bl x) (<[x := i]> hs) ∧ lframe s s2.
Proof.
  intros Ht Hx Hh Hc. destruct (tx_write lg s D bl _ x i (f (D x)) Ht) as (s2 & Hrun & Ht2 & Hf2);
    [apply lookup_insert_eq|done|done|].
  eexists _, s2. split; [apply tx_upd_data|]. rewrite (tx_data _ _ _ _ _ x i Ht) by apply lookup_insert_eq. done.
Qed.

Lemma tx_done lg s D bl hs x i :
  tx lg s D bl (<[x := i]> hs) → hs !! x = None → ∃ s', brelse i s = Done tt s' ∧ tx lg s' D bl hs ∧ lframe s s'.
Proof.
  intros Ht Hx. destruct (tx_brelse lg s D bl _ x i Ht) as (s' & Hrun & Ht' & Hf'); [apply lookup_insert_eq|].
  exists s'. rewrite delete_insert_id in Ht' by done. done.
Qed.

Lemma bzero_run lg s D bl hs b :
  tx lg s D bl hs → hs !! b = None → home lg b → (length bl + size hs < NBUF)%nat → Z.of_nat (length bl) < tx_cap lg →
  ∃ s', bzero ROOTDEV b s = Done tt s' ∧ tx lg s' (zeroed b D) (logged bl b) hs ∧ lframe s s'.
Proof.
  intros Ht Hb Hh Hroom Hcap. unfold bzero. rewrite u32_small by (destruct Hh; lia).
  destruct (tx_bread lg s D bl hs b Ht Hb Hroom) as (i & s1 & Hr1 & Ht1 & Hf1). run_by (exact Hr1).
  destruct (tx_finish lg s1 D bl hs b i (λ _, replicate (Z.to_nat BSIZE) 0) Ht1 Hb Hh Hcap) as (s2 & s3 & Hr2 & Hr3 & Ht3 & Hf3).
  run_by (exact Hr2). run_by (exact Hr3).
  destruct (tx_done lg s3 _ _ hs b i Ht3 Hb) as (s4 & Hr4 & Ht4 & Hf4). exists s4. split; [exact Hr4|].
  split; [exact Ht4|]. eapply lframe_trans; [exact Hf1|]. by eapply lframe_trans.
Qed.

(** ** [bfree] *)

Lemma bfree_run lg sb s D bl hs b :
  tx lg s D bl hs → k_sb s = sb → disk_ok lg sb D → 0 <= b < sb_size sb → hs !! BBLOCK b sb = None →
  (length bl + size hs < NBUF)%nat → Z.of_nat (length bl) < tx_cap lg →
  if allocated sb D b then
    ∃ s', bfree ROOTDEV b s = Done tt s' ∧ tx lg s' (unmark sb b D) (logged bl (BBLOCK b sb)) hs ∧ lframe s s'
  else ∃ s', bfree ROOTDEV b s = Panic "freeing free block" s'.
Proof.
  intros Ht Hsb Hd Hb Hx Hroom Hcap. unfold bfree. run_by (unfold gets; reflexivity). rewrite Hsb.
  destruct (tx_bread lg s D bl hs _ Ht Hx Hroom) as (i & s1 & Hr1 & Ht1 & Hf1). run_by (exact Hr1).
  run_by (unfold buf_get, gets; reflexivity). rewrite (tx_data _ _ _ _ _ _ i Ht1) by apply lookup_insert_eq.
  fold (allocated sb D b). destruct (allocated sb D b) eqn:Ea; cbn [negb]; [|by eexists].
  destruct (tx_finish lg s1 D bl hs _ i (λ d, clear_bit d (b mod BPB)) Ht1 Hx) as (s2 & s3 & Hr2 & Hr3 & Ht3 & Hf3);
    [by apply (BBLOCK_home (dk_layout _ _ _ Hd))|done|].
  run_by (exact Hr2). run_by (exact Hr3).
  destruct (tx_done lg s3 _ _ hs _ i Ht3 Hx) as (s4 & Hr4 & Ht4 & Hf4). exists s4. split; [exact Hr4|].
  split; [exact Ht4|]. eapply lframe_trans; [exact Hf1|]. by eapply lframe_trans.
Qed.

(** ** [balloc] *)

(** The blocks of the group with index [k], whose bits are in one block. *)
Lemma group_block lg sb k bi : layout lg sb → 0 <= k < nbitmap sb → 0 <= bi < Z.min BPB (sb_size sb - k * BPB) →
  0 <= k * BPB + bi < sb_size sb ∧ (k * BPB + bi) / BPB = k ∧ (k * BPB + bi) mod BPB = bi ∧
  BBLOCK (k * BPB + bi) sb = BBLOCK (k * BPB) sb.
Proof.
  intros Hly Hk Hbi. assert (HP : 0 < BPB) by (by compute).
  assert (Hd : (k * BPB + bi) / BPB = k) by (rewrite Z.div_add_l by lia; rewrite Z.div_small by lia; lia).
  split_and!; try nia.
  - rewrite Z.add_comm, Z.mod_add by lia. apply Z.mod_small. lia.
  - unfold BBLOCK. by rewrite Hd, Z.div_mul by lia.
Qed.

Lemma group_nonempty lg sb k : layout lg sb → 0 <= k < nbitmap sb → 0 < sb_size sb - k * BPB.
Proof.
  intros Hly Hk. unfold nbitmap in Hk. assert (HP : 0 < BPB) by (by compute).
  pose proof (Z.div_mod (sb_size sb + BPB - 1) BPB ltac:(lia)).
  pose proof (Z.mod_pos_bound (sb_size sb + BPB - 1) BPB ltac:(lia)). nia.
Qed.

Record balloc_pre lg sb s D bl hs : Prop := {
  bp_tx : tx lg s D bl hs;
  bp_sb : k_sb s = sb;
  bp_disk : disk_ok lg sb D;
  bp_held : ∀ x, is_Some (hs !! x) → data_block sb x ∧ allocated sb D x = true;
  bp_room : (length bl + size hs + 1 < NBUF)%nat;
  bp_cap : ∀ b, 0 <= b < sb_size sb → Z.of_nat (length (logged bl (BBLOCK b sb))) < tx_cap lg;
}.

Lemma balloc_bitmap_free lg sb s D bl hs b : balloc_pre lg sb s D bl hs → 0 <= b < sb_size sb → hs !! BBLOCK b sb = None.
Proof.
  intros Hp Hb. destruct (hs !! BBLOCK b sb) as [i|] eqn:E; [|done]. exfalso.
  destruct (bp_held _ _ _ _ _ _ Hp (BBLOCK b sb)) as [Hx _]; [by rewrite E|].
  pose proof (BBLOCK_range (dk_layout _ _ _ (bp_disk _ _ _ _ _ _ Hp)) b Hb). unfold data_block in Hx. lia.
Qed.

Lemma balloc_data_block lg sb D b : disk_ok lg sb D → 0 <= b < sb_size sb → allocated sb D b = false → data_block sb b.
Proof.
  intros Hd Hb Hf. split; [|lia]. destruct (decide (data_start sb <= b)); [done|].
  rewrite (dk_meta _ _ _ Hd) in Hf by lia. done.
Qed.

(** The contents after [balloc] took [b]. *)
Definition fresh sb (b : Z) D : Z → list Z := zeroed b (mark sb b D).

(** What one iteration of the outer loop does on a block of the bitmap. *)
Definition balloc_body (size k : Z) : K (option Z) :=
  let b := k * BPB in
  sb ← gets k_sb;
  bp ← bread ROOTDEV (BBLOCK b sb);
  r ← for_find (Z.to_nat (Z.min BPB (size - b))) 0 (λ bi,
    d ← buf_get bp b_data;
    if bit_set d bi then mret None else
    upd_data bp (λ d, set_bit d bi);;
    log_write bp;;
    brelse bp;;
    bzero ROOTDEV (b + bi);;
    mret (Some (b + bi)));
  match r with
  | Some b => mret (Some b)
  | None => brelse bp;; mret None
  end.

(** Block [b] was the first free one and is now allocated and zero. *)
Definition balloc_took lg sb D bl hs (b : Z) s' : Prop :=
  data_block sb b ∧ allocated sb D b = false ∧ (∀ b', 0 <= b' < b → allocated sb D b' = true) ∧
  tx lg s' (fresh sb b D) (logged (logged bl (BBLOCK b sb)) b) hs.

Lemma balloc_take lg sb s D bl hs (i : nat) k bi :
  balloc_pre lg sb s D bl hs → ∀ s1,
  let b := k * BPB + bi in
  0 <= k < nbitmap sb → 0 <= bi < Z.min BPB (sb_size sb - k * BPB) →
  tx lg s1 D bl (<[BBLOCK b sb := i]> hs) → allocated sb D b = false →
  ∃ s', (upd_data i (λ d, set_bit d bi);; log_write i;; brelse i;; bzero ROOTDEV b;; mret (Some b)) s1 = Done (Some b) s' ∧
    tx lg s' (fresh sb b D) (logged (logged bl (BBLOCK b sb)) b) hs ∧ lframe s1 s'.
Proof.
  intros Hp s1 b Hk Hbi Ht1 Hfree. pose proof (bp_disk _ _ _ _ _ _ Hp) as Hd. pose proof (dk_layout _ _ _ Hd) as Hly.
  pose proof (bp_room _ _ _ _ _ _ Hp) as Hroom.
  destruct (group_block lg sb k bi Hly Hk Hbi) as (Hb & _ & Em & _). fold b in Hb, Em.
  pose proof (bp_cap _ _ _ _ _ _ Hp b Hb) as Hcap. pose proof (logged_length bl (BBLOCK b sb)) as Hlen.
  assert (Hx : hs !! BBLOCK b sb = None) by (by eapply balloc_bitmap_free).
  destruct (tx_finish lg s1 D bl hs _ i (λ d, set_bit d bi) Ht1 Hx) as (s2 & s3 & Hr2 & Hr3 & Ht3 & Hf3);
    [by apply (BBLOCK_home Hly)|lia|]. run_by (exact Hr2). run_by (exact Hr3).
  destruct (tx_done lg s3 _ _ hs _ i Ht3 Hx) as (s4 & Hr4 & Ht4 & Hf4). run_by (exact Hr4).
  assert (Hdb : data_block sb b) by (by eapply balloc_data_block).
  destruct (bzero_run lg s4 _ _ hs b Ht4) as (s5 & Hr5 & Ht5 & Hf5).
  - destruct (hs !! b) as [j|] eqn:E; [|done]. destruct (bp_held _ _ _ _ _ _ Hp b) as [_ Ha]; [by rewrite E|congruence].
  - by apply (data_home Hly).
  - lia.
  - exact Hcap.
  - run_by (exact Hr5). exists s5. split; [done|]. unfold fresh, mark. rewrite Em. split; [exact Ht5|].
    eapply lframe_trans; [exact Hf3|]. by eapply lframe_trans.
Qed.

Lemma balloc_body_run lg sb s D bl hs k :
  balloc_pre lg sb s D bl hs → 0 <= k < nbitmap sb → (∀ b, 0 <= b < k * BPB → allocated sb D b = true) →
  (∃ s', balloc_body (sb_size sb) k s = Done None s' ∧ tx lg s' D bl hs ∧ lframe s s' ∧
    ∀ b, 0 <= b < Z.min ((k + 1) * BPB) (sb_size sb) → allocated sb D b = true) ∨
  (∃ b s', balloc_body (sb_size sb) k s = Done (Some b) s' ∧ balloc_took lg sb D bl hs b s' ∧ lframe s s').
Proof.
  intros Hp Hk Hbelow. pose proof (bp_disk _ _ _ _ _ _ Hp) as Hd. pose proof (dk_layout _ _ _ Hd) as Hly.
  assert (HP : 0 < BPB) by (by compute). pose proof (group_nonempty lg sb k Hly Hk) as Hne.
  set (n := Z.min BPB (sb_size sb - k * BPB)). set (BB := BBLOCK (k * BPB) sb).
  assert (Hx : hs !! BB = None) by (eapply balloc_bitmap_free; [exact Hp|nia]).
  unfold balloc_body. run_by (unfold gets; reflexivity). rewrite (bp_sb _ _ _ _ _ _ Hp). fold BB n.
  destruct (tx_bread lg s D bl hs BB) as (i & s1 & Hr1 & Ht1 & Hf1);
    [apply Hp|done|pose proof (bp_room _ _ _ _ _ _ Hp); lia|]. run_by (exact Hr1).
  assert (Hdata : b_data (get_buf s1 i) = D BB) by (apply (tx_data _ _ _ _ _ BB i Ht1), lookup_insert_eq).
  assert (Hbit : ∀ bi, 0 <= bi < n → bit_set (D BB) bi = allocated sb D (k * BPB + bi)).
  { intros bi Hbi. destruct (group_block lg sb k bi Hly Hk Hbi) as (_ & _ & Em & EB).
    unfold allocated. by rewrite Em, EB. }
  destruct (all_or_first (bit_set (D BB)) (Z.to_nat n) 0) as [Hall|(bi & Hbi & Hf & Hfst)].
  - left. rewrite (bind_Done _ _ s1 None s1).
    2: { apply for_find_none. intros j Hj. unfold buf_get, gets. run_by reflexivity. rewrite Hdata, Hall by done. done. }
    cbn iota. destruct (tx_done lg s1 _ _ hs _ i Ht1 Hx) as (s2 & Hr2 & Ht2 & Hf2). run_by (exact Hr2).
    exists s2. split_and!; [done|done|by eapply lframe_trans|]. intros b Hb.
    destruct (decide (b < k * BPB)); [apply Hbelow; lia|]. replace b with (k * BPB + (b - k * BPB)) by lia.
    rewrite <- Hbit, Hall; [done|lia..].
  - right. rewrite Z2Nat.id, Z.add_0_l in Hbi by lia. set (b := k * BPB + bi).
    assert (Hfree : allocated sb D b = false) by (unfold b; by rewrite <- Hbit by lia).
    destruct (group_block lg sb k bi Hly Hk Hbi) as (Hb & _ & _ & EB). fold b in Hb, EB.
    destruct (balloc_take lg sb s D bl hs i k bi Hp s1 Hk Hbi) as (s2 & Hr2 & Ht2 & Hf2); [by fold b; rewrite EB|done|].
    fold b in Hr2, Ht2. exists b, s2. erewrite (bind_Done _ _ s1 (Some b) s2); [split; [done|]|].
    + split; [|by eapply lframe_trans]. split_and!; [by eapply balloc_data_block|done| |done].
      intros b' Hb'. destruct (decide (b' < k * BPB)); [apply Hbelow; lia|].
      replace b' with (k * BPB + (b' - k * BPB)) by lia. rewrite <- Hbit, Hfst; [done|lia..].
    + apply (for_find_first _ _ _ s1 bi); [lia| |].
      * intros j Hj. unfold buf_get, gets. run_by reflexivity. rewrite Hdata, Hfst by done. done.
      * unfold buf_get, gets. run_by reflexivity. rewrite Hdata, Hf. exact Hr2.
Qed.

Lemma balloc_run lg sb s D bl hs :
  balloc_pre lg sb s D bl hs →
  ((∀ b, 0 <= b < sb_size sb → allocated sb D b = true) ∧ ∃ s', balloc ROOTDEV s = Panic "balloc: out of blocks" s') ∨
  (∃ b s', balloc ROOTDEV s = Done b s' ∧ balloc_took lg sb D bl hs b s' ∧ lframe s s').
Proof.
  intros Hp. pose proof (bp_disk _ _ _ _ _ _ Hp) as Hd. pose proof (dk_layout _ _ _ Hd) as Hly.
  unfold balloc. run_by (unfold gets; reflexivity). rewrite (bp_sb _ _ _ _ _ _ Hp). fold (nbitmap sb).
  set (P := λ (k : Z) s1, tx lg s1 D bl hs ∧ lframe s s1 ∧ ∀ b, 0 <= b < Z.min (k * BPB) (sb_size sb) → allocated sb D b = true).
  set (Q := λ b s', balloc_took lg sb D bl hs b s' ∧ lframe s s').
  pose proof (nbitmap_pos Hly) as Hnb. assert (HP : 0 < BPB) by (by compute).
  destruct (for_find_inv P Q (Z.to_nat (nbitmap sb)) 0 (balloc_body (sb_size sb)) s) as [(s1 & Hrun & HPn)|(b & s1 & Hrun & HQ)].
  - split_and!; [apply Hp|apply bframe_lframe; reflexivity|lia].
  - intros k s1 Hk (Ht1 & Hf1 & Hall). pose proof (group_nonempty lg sb k Hly ltac:(lia)).
    assert (Hp1 : balloc_pre lg sb s1 D bl hs).
    { split; try apply Hp; [done|]. rewrite (lframe_sb _ _ Hf1). apply Hp. }
    destruct (balloc_body_run lg sb s1 D bl hs k Hp1) as [(s2 & Hr & Ht & Hf & Ha)|(b & s2 & Hr & Ht & Hf)]; [lia|intros; apply Hall; lia|..].
    + left. exists s2. split; [exact Hr|]. split_and!; [done|by eapply lframe_trans|exact Ha].
    + right. exists b, s2. split; [exact Hr|]. split; [exact Ht|by eapply lframe_trans].
  - left. destruct HPn as (_ & _ & Hall). split.
    + intros b Hb. apply Hall. split; [lia|]. rewrite Z2Nat.id, Z.add_0_l by lia.
      pose proof (BBLOCK_eq Hly b Hb) as [_ Hlt].
      pose proof (Z.div_mod b BPB ltac:(lia)). pose proof (mod_BPB b). nia.
    + exists s1. by run_by (exact Hrun).
  - right. exists b, s1. split; [by run_by (exact Hrun)|exact HQ].
Qed.
End alloc.

(** ** Counting the free blocks *)

Definition nfree sb D : nat := length (filter (λ b, allocated sb D b = false) (seqZ 0 (sb_size sb))).

Lemma filter_agree {A} (P Q : A → Prop) `{∀ x, Decision (P x)} `{∀ x, Decision (Q x)} (l : list A) :
  (∀ x, x ∈ l → P x ↔ Q x) → filter P l = filter Q l.
Proof.
  induction l as [|a l IH]; intros HPQ; [done|]. rewrite !filter_cons, IH by (intros x Hx; apply HPQ; by right).
  by rewrite (decide_ext (P a) (Q a)) by (apply HPQ; left).
Qed.

Lemma filter_remove `{EqDecision A} (P Q : A → Prop) `{∀ x, Decision (P x)} `{∀ x, Decision (Q x)} (l : list A) b :
  NoDup l → b ∈ l → P b → (∀ x, x ∈ l → Q x ↔ P x ∧ x ≠ b) → length (filter P l) = S (length (filter Q l)).
Proof.
  induction l as [|a l IH]; intros Hn Hin HP HQ; [by apply not_elem_of_nil in Hin|].
  apply NoDup_cons in Hn as [Ha Hn]. rewrite !filter_cons. destruct (decide (a = b)) as [->|Hne].
  - rewrite decide_True by done. rewrite (decide_False (P := Q b)) by (rewrite HQ by left; tauto).
    simpl. f_equal. f_equal. apply filter_agree. intros x Hx. rewrite HQ by (by right).
    split; [intros ?; split; [done|by intros ->]|tauto].
  - assert (Hb : b ∈ l) by (by apply elem_of_cons in Hin as [?|?]).
    rewrite (decide_ext (Q a) (P a)) by (rewrite HQ by left; tauto).
    pose proof (IH Hn Hb HP ltac:(intros x Hx; apply HQ; by right)). case_decide; simpl; lia.
Qed.

Lemma nfree_zero sb D : nfree sb D = 0%nat → ∀ b, 0 <= b < sb_size sb → allocated sb D b = true.
Proof.
  intros Hn b Hb. apply nil_length_inv in Hn. destruct (allocated sb D b) eqn:E; [done|].
  assert (Hin : b ∈ filter (λ b, allocated sb D b = false) (seqZ 0 (sb_size sb)))
    by (apply list_elem_of_filter; split; [done|apply elem_of_seqZ; lia]).
  rewrite Hn in Hin. by apply not_elem_of_nil in Hin.
Qed.

Lemma nfree_agree sb D D' : (∀ b, 0 <= b < sb_size sb → allocated sb D' b = allocated sb D b) → nfree sb D' = nfree sb D.
Proof.
  intros E. unfold nfree. f_equal. apply filter_agree. intros b Hb%elem_of_seqZ. by rewrite E by lia.
Qed.

(** ** What taking a free block does *)


Section fresh.
Context {lg sb D} {b : Z} (Hd : disk_ok lg sb D) (Hb : data_block sb b) (Hfree : allocated sb D b = false).

Lemma data_in x : data_block sb x → 0 <= x < sb_size sb.
Proof.
  pose proof (nbitmap_pos (dk_layout _ _ _ Hd)). pose proof (bmap_start_pos (dk_layout _ _ _ Hd)).
  unfold data_block, data_start. lia.
Qed.

Lemma fresh_same : fresh sb b D b = replicate (Z.to_nat BSIZE) 0.
Proof. apply upd_eq. Qed.

Lemma fresh_data x : data_start sb <= x → x ≠ b → fresh sb b D x = D x.
Proof.
  intros Hx Hne. unfold fresh, zeroed, mark. rewrite !upd_ne; [done| |done].
  pose proof (BBLOCK_range (dk_layout _ _ _ Hd) b (data_in b Hb)). lia.
Qed.

Lemma fresh_low x : x < sb_bmapstart sb → fresh sb b D x = D x.
Proof.
  intros Hx. unfold fresh, zeroed, mark. pose proof (BBLOCK_range (dk_layout _ _ _ Hd) b (data_in b Hb)).
  unfold data_block in Hb. rewrite !upd_ne; [done|lia..].
Qed.

Lemma fresh_allocated x : 0 <= x < sb_size sb → allocated sb (fresh sb b D) x = bool_decide (x = b) || allocated sb D x.
Proof.
  intros Hx. unfold fresh, zeroed. rewrite (allocated_data (lg := lg)); [|apply Hd|apply Hb|done].
  eapply allocated_mark; [exact Hd|by apply data_in|done].
Qed.

Lemma fresh_disk_ok : disk_ok lg sb (fresh sb b D).
Proof.
  apply disk_ok_data; [|apply Hb|by rewrite length_replicate]. apply disk_ok_mark; [done|by apply data_in].
Qed.

Lemma fresh_nfree : nfree sb D = S (nfree sb (fresh sb b D)).
Proof.
  apply (filter_remove _ _ _ b); [apply NoDup_seqZ|apply elem_of_seqZ; pose proof (data_in b Hb); lia|done|].
  intros x Hx%elem_of_seqZ. rewrite fresh_allocated by lia. case_bool_decide; simpl; naive_solver.
Qed.
End fresh.

(** ** The properties *)

Section alloc_spec.
Context `{DiskRw} `{WaitFuel}.

(** C31: [balloc] returns the first block that is free in the bitmap, a data
    block, and fills it with zeros; afterwards exactly this block is allocated
    in addition, and no other block has changed but the bitmap block with its
    bit.  If there is no free block it panics. *)
Theorem balloc_spec lg sb s D bl hs :
  balloc_pre lg sb s D bl hs →
  (nfree sb D = 0%nat ∧ ∃ s', balloc ROOTDEV s = Panic "balloc: out of blocks" s') ∨
  (∃ b s' D', balloc ROOTDEV s = Done b s' ∧
    data_block sb b ∧ allocated sb D b = false ∧ (∀ x, 0 <= x < b → allocated sb D x = true) ∧
    tx lg s' D' (logged (logged bl (BBLOCK b sb)) b) hs ∧ disk_ok lg sb D' ∧
    D' b = replicate (Z.to_nat BSIZE) 0 ∧ (∀ x, x ≠ b → x ≠ BBLOCK b sb → D' x = D x) ∧
    (∀ x, 0 <= x < sb_size sb → allocated sb D' x = bool_decide (x = b) || allocated sb D x) ∧
    nfree sb D = S (nfree sb D') ∧ lframe s s').
Proof.
  intros Hp. pose proof (bp_disk _ _ _ _ _ _ Hp) as Hd.
  destruct (balloc_run lg sb s D bl hs Hp) as [[Hall Hpan]|(b & s' & Hrun & (Hb & Hf & Hfst & Ht) & Hfr)]; [left|right].
  - split; [|exact Hpan]. unfold nfree. rewrite (filter_agree _ (λ _, False)); [|intros x Hx%elem_of_seqZ; rewrite Hall by lia; by split].
    generalize (seqZ 0 (sb_size sb)). intros l. induction l as [|x l IH]; [done|]. rewrite filter_cons_False; [exact IH|tauto].
  - exists b, s', (fresh sb b D). split_and!; try done.
    + by apply (fresh_disk_ok Hd Hb).
    + apply fresh_same.
    + intros x Hx1 Hx2. unfold fresh, zeroed, mark. by rewrite !upd_ne.
    + intros x Hx. by apply (fresh_allocated Hd Hb).
    + by apply (fresh_nfree Hd Hb Hf).
Qed.

(** C39: [bfree] of an allocated data block makes exactly this block free and
    changes nothing but the bitmap block with its bit; freeing a block that is
    free already panics. *)
Theorem bfree_spec lg sb s D bl hs b :
  tx lg s D bl hs → k_sb s = sb → disk_ok lg sb D → data_block sb b → hs !! BBLOCK b sb = None →
  (length bl + size hs < NBUF)%nat → Z.of_nat (length bl) < tx_cap lg →
  if allocated sb D b then
    ∃ s' D', bfree ROOTDEV b s = Done tt s' ∧ tx lg s' D' (logged bl (BBLOCK b sb)) hs ∧ disk_ok lg sb D' ∧
      (∀ x, x ≠ BBLOCK b sb → D' x = D x) ∧
      (∀ x, 0 <= x < sb_size sb → allocated sb D' x = negb (bool_decide (x = b)) && allocated sb D x) ∧ lframe s s'
  else ∃ s', bfree ROOTDEV b s = Panic "freeing free block" s'.
Proof.
  intros Ht Hsb Hd Hb Hx Hroom Hcap. pose proof (bfree_run lg sb s D bl hs b Ht Hsb Hd (data_in Hd b Hb) Hx Hroom Hcap) as Hrun.
  destruct (allocated sb D b); [|exact Hrun]. destruct Hrun as (s' & Hrun & Ht' & Hf). exists s', (unmark sb b D).
  split_and!; try done.
  - by apply disk_ok_unmark.
  - intros x Hne. by apply upd_ne.
  - intros x Hxr. eapply allocated_unmark; [exact Hd|by apply (data_in Hd)|done].
Qed.
End alloc_spec.
