(* ===== verification/FsInode.v ===== *)
(** * Inodes on disk: [iupdate] and [ilock] of kernel/fs.c

    The encoding of an inode in its block, and that [ilock] of an entry that is
    not valid reads back what [iupdate] wrote. *)

From stdpp Require Import gmap.
From S2P Require Import Prelude Memory Params State Sched Block Bio BioInv BioSpec Log LogCommit LogOps Fs Tx FsAlloc.

Implicit Types (s : kst) (D : Z → list Z) (bl : list Z) (hs : gmap Z nat) (lg : region) (sb : superblock) (ip : inode).

(** ** Slices of structures *)

Lemma slice_splice_in d off l j n : (off + length l <= length d)%nat → (j + n <= length l)%nat →
  slice (splice d off l) (off + j) n = slice l j n.
Proof.
  intros H1 H2. apply list_eq. intros i. destruct (decide (i < n)%nat) as [Hi|Hi].
  - rewrite !lookup_slice, lookup_splice, decide_True by lia. f_equal. lia.
  - unfold slice. by rewrite !lookup_take_ge by lia.
Qed.

Lemma slice_app_r (l1 l2 : list Z) j n : slice (l1 ++ l2) (length l1 + j) n = slice l2 j n.
Proof. unfold slice. rewrite <- drop_drop. by rewrite drop_app_length. Qed.

Lemma slice_head (l1 l2 : list Z) : slice (l1 ++ l2) 0 (length l1) = l1.
Proof. unfold slice. rewrite drop_0. by apply take_app_length. Qed.

Lemma length_words (l : list Z) : length (concat (map (le_enc 4) l)) = (4 * length l)%nat.
Proof. induction l as [|a l IH]; [done|]. cbn [map concat length]. rewrite length_app, length_le_enc, IH. lia. Qed.

Lemma slice_words (l : list Z) (k : nat) v : l !! k = Some v → slice (concat (map (le_enc 4) l)) (4 * k) 4 = le_enc 4 v.
Proof.
  revert k. induction l as [|a l IH]; intros [|k] Hk; try done; cbn [map concat].
  - injection Hk as ->. rewrite <- (length_le_enc 4 v) at 2. apply slice_head.
  - replace (4 * S k)%nat with (length (le_enc 4 a) + 4 * k)%nat by (rewrite length_le_enc; lia).
    rewrite slice_app_r. by apply IH.
Qed.

(** ** The encoding *)

Definition short (x : Z) : Prop := -2 ^ 15 <= x < 2 ^ 15.
Definition word (x : Z) : Prop := 0 <= x < 2 ^ 32.

(** The fields are in the range of their C types. *)
Record inode_wf ip : Prop := {
  iw_type : short (i_type ip);
  iw_major : short (i_major ip);
  iw_minor : short (i_minor ip);
  iw_nlink : short (i_nlink ip);
  iw_size : word (i_size ip);
  iw_addrs : length (i_addrs ip) = 13%nat;
  iw_addr : Forall word (i_addrs ip);
}.

Lemma length_enc_dinode ip : inode_wf ip → length (enc_dinode ip) = DINODE.
Proof. intros Hw. unfold enc_dinode. rewrite !length_app, length_words, !length_le_enc, (iw_addrs _ Hw). done. Qed.

Lemma short_dec v : short v → i16 (le_dec (le_enc 2 v)) = v.
Proof.
  unfold short. intros Hv. rewrite le_dec_enc. change (256 ^ Z.of_nat 2) with (2 ^ 16). unfold i16.
  rewrite Zplus_mod_idemp_l. rewrite Z.mod_small; lia.
Qed.

Lemma word_dec v : word v → le_dec (le_enc 4 v) = v.
Proof. unfold word. intros Hv. rewrite le_dec_enc. change (256 ^ Z.of_nat 4) with (2 ^ 32). by apply Z.mod_small. Qed.

(** The entry [ip0] with the fields that are on disk taken from [ip]. *)
Definition with_disk ip0 ip : inode :=
  mk_inode (i_dev ip0) (i_inum ip0) (i_ref ip0) (i_lock ip0) (i_valid ip0)
    (i_type ip) (i_major ip) (i_minor ip) (i_nlink ip) (i_size ip) (i_addrs ip).

(** Slices of the encoded inode, field by field. *)
Lemma enc_dinode_fields ip : inode_wf ip →
  slice (enc_dinode ip) 0 2 = le_enc 2 (i_type ip) ∧ slice (enc_dinode ip) 2 2 = le_enc 2 (i_major ip) ∧
  slice (enc_dinode ip) 4 2 = le_enc 2 (i_minor ip) ∧ slice (enc_dinode ip) 6 2 = le_enc 2 (i_nlink ip) ∧
  slice (enc_dinode ip) 8 4 = le_enc 4 (i_size ip) ∧
  ∀ k v, i_addrs ip !! k = Some v → slice (enc_dinode ip) (12 + 4 * k) 4 = le_enc 4 v.
Proof.
  intros _. split_and!; try reflexivity. intros k v Hk. rewrite <- (slice_words _ _ _ Hk).
  unfold enc_dinode. rewrite !app_assoc. set (h := (_ ++ le_enc 4 _)). exact (slice_app_r h _ _ 4).
Qed.

Lemma load_enc_dinode d off ip0 ip : inode_wf ip → (off + DINODE <= length d)%nat →
  load_dinode (splice d off (enc_dinode ip)) off ip0 = with_disk ip0 ip.
Proof.
  intros Hw Hd. pose proof (length_enc_dinode ip Hw) as Hl. unfold DINODE in *.
  destruct (enc_dinode_fields ip Hw) as (E1 & E2 & E3 & E4 & E5 & E6).
  assert (Hs : ∀ j n, (j + n <= 64)%nat → slice (splice d off (enc_dinode ip)) (off + j) n = slice (enc_dinode ip) j n)
    by (intros j n Hj; apply slice_splice_in; lia).
  pose proof (Hs 0%nat 2%nat ltac:(lia)) as H0. rewrite Nat.add_0_r in H0.
  unfold load_dinode, with_disk, get16, get32. rewrite H0, !Hs by lia.
  rewrite E1, E2, E3, E4, E5. rewrite !short_dec by apply Hw. rewrite word_dec by apply Hw. f_equal.
  apply list_eq. intros k. unfold get_addrs, get32. rewrite list_lookup_fmap.
  destruct (decide (k < 13)%nat) as [Hk|Hk].
  - rewrite lookup_seq_lt by done. cbn [fmap option_fmap option_map]. rewrite Nat.add_0_l. destruct (lookup_lt_is_Some_2 (i_addrs ip) k) as [v Hv]; [rewrite (iw_addrs _ Hw); lia|].
    rewrite <- Nat.add_assoc, Hs by lia. rewrite (E6 k v Hv), Hv, word_dec; [done|].
    exact (Forall_lookup_1 _ _ _ _ (iw_addr _ Hw) Hv).
  - rewrite !lookup_ge_None_2; [done|rewrite (iw_addrs _ Hw); lia|rewrite length_seq; lia].
Qed.

(** The other inodes of the block are not touched. *)
Lemma load_dinode_other d off off' ip0 l : (off + length l <= length d)%nat → length l = DINODE →
  (off' + DINODE <= off ∨ off + DINODE <= off')%nat → load_dinode (splice d off l) off' ip0 = load_dinode d off' ip0.
Proof.
  intros Hd Hl Ho. unfold DINODE in *.
  assert (Hs : ∀ j n, (j + n <= 64)%nat → slice (splice d off l) (off' + j) n = slice d (off' + j) n)
    by (intros j n Hj; apply slice_splice_other; lia).
  pose proof (Hs 0%nat 2%nat ltac:(lia)) as H0. rewrite Nat.add_0_r in H0.
  unfold load_dinode, get16, get32. rewrite H0, !Hs by lia. f_equal.
  unfold get_addrs, get32. apply map_ext_in. intros k Hk%in_seq. by rewrite <- !Nat.add_assoc, Hs by lia.
Qed.

Lemma dinode_off_range inum : 0 <= inum → (dinode_off inum + DINODE <= Z.to_nat BSIZE)%nat.
Proof.
  intros Hi. unfold dinode_off, DINODE. change IPB with 16. pose proof (Z.mod_pos_bound inum 16 ltac:(lia)).
  unfold BSIZE. lia.
Qed.

(** ** The block of an inode *)

Section iblock.
Context {lg sb} (Hly : layout lg sb).

Lemma IBLOCK_eq inum : 0 <= inum < sb_ninodes sb → IBLOCK inum sb = inum / IPB + sb_inodestart sb ∧
  sb_inodestart sb <= IBLOCK inum sb < sb_bmapstart sb.
Proof.
  intros Hi. destruct Hly as [? ? [? Hb] Hd Hs]. unfold data_start in Hd.
  assert (0 <= inum / IPB) by (apply Z.div_pos; [lia|by compute]).
  assert (inum / IPB <= sb_ninodes sb / IPB) by (apply Z.div_le_mono; [by compute|lia]).
  pose proof (nbitmap_pos Hly). unfold IBLOCK. rewrite u32_small; [lia|]. unfold BPB, BSIZE in *. lia.
Qed.

Lemma IBLOCK_home inum : 0 <= inum < sb_ninodes sb → home lg (IBLOCK inum sb).
Proof.
  intros Hi. destruct (IBLOCK_eq inum Hi) as [_ Hr]. pose proof (bmap_start_pos Hly). pose proof (nbitmap_pos Hly).
  destruct Hly as [? ? [? ?] Hd Hs]. unfold data_start, BPB, BSIZE in *. split; lia.
Qed.

(** Two inodes in one block have disjoint places there. *)
Lemma dinode_disjoint i j : 0 <= i < sb_ninodes sb → 0 <= j < sb_ninodes sb → i ≠ j → IBLOCK i sb = IBLOCK j sb →
  (dinode_off j + DINODE <= dinode_off i ∨ dinode_off i + DINODE <= dinode_off j)%nat.
Proof.
  intros Hi Hj Hne E. destruct (IBLOCK_eq i Hi) as [Ei _], (IBLOCK_eq j Hj) as [Ej _]. unfold dinode_off, DINODE.
  pose proof (Z.div_mod i IPB ltac:(by compute)). pose proof (Z.div_mod j IPB ltac:(by compute)).
  pose proof (Z.mod_pos_bound i IPB ltac:(by compute)). pose proof (Z.mod_pos_bound j IPB ltac:(by compute)).
  assert (i / IPB = j / IPB) by lia. assert (i mod IPB ≠ j mod IPB) by congruence. lia.
Qed.
End iblock.

(** The inode [inum] as it is on disk, in a table entry [ip0]. *)
Definition disk_inode sb D (inum : Z) ip0 : inode := load_dinode (D (IBLOCK inum sb)) (dinode_off inum) ip0.

(** The disk after [iupdate] of [ip]. *)
Definition iupdated sb D ip : Z → list Z :=
  upd (IBLOCK (i_inum ip) sb) (splice (D (IBLOCK (i_inum ip) sb)) (dinode_off (i_inum ip)) (enc_dinode ip)) D.

Section iupdate.
Context {lg sb D} (Hd : disk_ok lg sb D).

Lemma iupdated_same ip ip0 : inode_wf ip → 0 <= i_inum ip → disk_inode sb (iupdated sb D ip) (i_inum ip) ip0 = with_disk ip0 ip.
Proof.
  intros Hw Hi. unfold disk_inode, iupdated. rewrite upd_eq. apply load_enc_dinode; [done|].
  rewrite (dk_len _ _ _ Hd). by apply dinode_off_range.
Qed.

Lemma iupdated_other ip inum ip0 : inode_wf ip → 0 <= i_inum ip < sb_ninodes sb → 0 <= inum < sb_ninodes sb → inum ≠ i_inum ip →
  disk_inode sb (iupdated sb D ip) inum ip0 = disk_inode sb D inum ip0.
Proof.
  intros Hw Hi Hj Hne. unfold disk_inode, iupdated, upd. case_decide as E; [|done]. rewrite E.
  apply load_dinode_other; [|by apply length_enc_dinode|].
  - rewrite (dk_len _ _ _ Hd), length_enc_dinode by done. apply dinode_off_range. lia.
  - destruct (dinode_disjoint (dk_layout _ _ _ Hd) (i_inum ip) inum); try done; [by left|by right].
Qed.

(** Only the block of the inode changes, and it keeps its size. *)
Lemma iupdated_block ip x : x ≠ IBLOCK (i_inum ip) sb → iupdated sb D ip x = D x.
Proof. intros Hx. by apply upd_ne. Qed.

Lemma iupdated_disk_ok ip : inode_wf ip → 0 <= i_inum ip < sb_ninodes sb → disk_ok lg sb (iupdated sb D ip).
Proof.
  intros Hw Hi. pose proof (dk_layout _ _ _ Hd) as Hly. split; [done| |].
  - intros x. unfold iupdated, upd. case_decide; [|apply Hd]. rewrite length_splice; [apply Hd|].
    rewrite (dk_len _ _ _ Hd), length_enc_dinode by done. apply dinode_off_range. lia.
  - intros b Hb. pose proof (ly_data _ _ Hly). rewrite <- (dk_meta _ _ _ Hd b Hb). unfold allocated.
    rewrite iupdated_block; [done|]. destruct (IBLOCK_eq Hly _ Hi). pose proof (BBLOCK_range Hly b). lia.
Qed.

Lemma iupdated_allocated ip b : 0 <= i_inum ip < sb_ninodes sb → 0 <= b < sb_size sb →
  allocated sb (iupdated sb D ip) b = allocated sb D b.
Proof.
  intros Hi Hb. pose proof (dk_layout _ _ _ Hd) as Hly. unfold allocated. rewrite iupdated_block; [done|].
  destruct (IBLOCK_eq Hly _ Hi). pose proof (BBLOCK_range Hly b Hb). lia.
Qed.
End iupdate.

Section run.
Context `{DiskRw} `{WaitFuel}.

Lemma iupdate_run lg sb s D bl i ip :
  tx lg s D bl ∅ → k_sb s = sb → disk_ok lg sb D → get_inode s i = ip → i_dev ip = ROOTDEV →
  0 <= i_inum ip < sb_ninodes sb → (length bl < NBUF)%nat → Z.of_nat (length bl) < tx_cap lg →
  ∃ s', iupdate i s = Done tt s' ∧ tx lg s' (iupdated sb D ip) (logged bl (IBLOCK (i_inum ip) sb)) ∅ ∧ lframe s s'.
Proof.
  intros Ht Hsb Hd Hip Hdev Hi Hroom Hcap. unfold iupdate. run_by (unfold inode_get, gets; reflexivity).
  run_by (unfold gets; reflexivity). rewrite Hip, Hsb. unfold id. rewrite Hdev.
  destruct (tx_bread lg s D bl ∅ (IBLOCK (i_inum ip) sb) Ht) as (j & s1 & Hr1 & Ht1 & Hf1); [done|rewrite map_size_empty; lia|].
  run_by (exact Hr1).
  destruct (tx_finish lg s1 D bl ∅ _ j (λ d, splice d (dinode_off (i_inum ip)) (enc_dinode ip)) Ht1) as (s2 & s3 & Hr2 & Hr3 & Ht3 & Hf3);
    [done|by apply (IBLOCK_home (dk_layout _ _ _ Hd))|done|]. run_by (exact Hr2). run_by (exact Hr3).
  destruct (tx_done lg s3 _ _ ∅ _ j Ht3) as (s4 & Hr4 & Ht4 & Hf4); [done|]. exists s4. split; [exact Hr4|].
  split; [exact Ht4|]. eapply lframe_trans; [exact Hf1|]. by eapply lframe_trans.
Qed.

(** ** [ilock] *)

Lemma get_put_inode s i ip : (i < length (k_itable s))%nat → get_inode (put_inode i ip s) i = ip.
Proof. intros Hi. unfold get_inode. simpl. by apply list_lookup_total_insert_eq. Qed.

Lemma put_put_inode s i ip ip' : put_inode i ip' (put_inode i ip s) = put_inode i ip' s.
Proof. unfold put_inode. simpl. by rewrite list_insert_insert_eq. Qed.

(** The inode that [ilock] leaves in the table: locked, and loaded if it was not. *)
Definition ilocked sb D s ip : inode :=
  let ip := set_i_lock (my_lock s) ip in
  if i_valid ip then ip else set_i_valid true (disk_inode sb D (i_inum ip) ip).

Lemma ilock_run lg sb s D bl i ip :
  tx lg s D bl ∅ → k_sb s = sb → k_itable s !! i = Some ip → i_dev ip = ROOTDEV → (length bl < NBUF)%nat →
  1 <= i_ref ip → sl_locked (i_lock ip) = false →
  let ip' := ilocked sb D s ip in
  if i_valid ip || negb (i_type ip' =? 0) then
    ∃ s', ilock (Some i) s = Done tt s' ∧ tx lg s' D bl ∅ ∧ fframe s s' ∧ k_itable s' = <[i := ip']> (k_itable s)
  else ∃ s', ilock (Some i) s = Panic "ilock: no type" s'.
Proof.
  intros Ht Hsb Hi Hdev Hroom Href Hlk ip'. pose proof (lookup_lt_Some _ _ _ Hi) as Hlt.
  assert (Hip : get_inode s i = ip) by (by apply list_lookup_total_correct).
  pose proof (tx_held _ _ _ _ _ Ht) as Hh. set (ip1 := set_i_lock (my_lock s) ip). set (s1 := put_inode i ip1 s).
  assert (Hacq : acquiresleep_inode i s = Done tt s1).
  { unfold s1, ip1. rewrite <- Hip. apply (acquiresleep_run (LInodeSleep i) (ChInodeLock i) (inode_sl i) (put_inode_sl i)); try done.
    - rewrite Hh. set_solver.
    - unfold inode_sl. by rewrite Hip. }
  assert (Hip1 : get_inode s1 i = ip1) by (by apply get_put_inode).
  unfold ilock. run_by (unfold inode_get, gets; reflexivity). rewrite Hip, (proj2 (Z.ltb_ge _ _)) by lia.
  run_by (exact Hacq). run_by (unfold inode_get, gets; reflexivity). rewrite Hip1. unfold id.
  change (i_valid ip1) with (i_valid ip). unfold ip', ilocked. fold ip1. change (i_valid ip1) with (i_valid ip).
  destruct (i_valid ip); cbn [negb orb].
  { exists s1. split_and!; [done|by apply tx_put_inode|apply fframe_put_inode|done]. }
  run_by (unfold gets; reflexivity). change (k_sb s1) with (k_sb s). rewrite Hsb. change (i_dev ip1) with (i_dev ip). rewrite Hdev.
  destruct (tx_bread lg s1 D bl ∅ (IBLOCK (i_inum ip1) sb)) as (j & s2 & Hr2 & Ht2 & Hf2);
    [by apply tx_put_inode|done|rewrite map_size_empty; lia|]. run_by (exact Hr2).
  run_by (unfold buf_get, gets; reflexivity). rewrite (tx_data _ _ _ _ _ _ j Ht2) by apply lookup_insert_eq.
  assert (Hlt2 : (i < length (k_itable s2))%nat) by (rewrite (lframe_itable _ _ Hf2); simpl; by rewrite length_insert).
  assert (Hip2 : get_inode s2 i = ip1) by (unfold get_inode; by rewrite (lframe_itable _ _ Hf2)).
  run_by (unfold upd_inode, modify; reflexivity). rewrite Hip2. fold (disk_inode sb D (i_inum ip1) ip1).
  set (ip3 := disk_inode _ _ _ _). set (s3 := put_inode i ip3 s2).
  destruct (tx_done lg s3 D bl ∅ (IBLOCK (i_inum ip1) sb) j) as (s4 & Hr4 & Ht4 & Hf4); [by apply tx_put_inode|done|]. run_by (exact Hr4).
  assert (Hip4 : get_inode s4 i = ip3) by (unfold get_inode; rewrite (lframe_itable _ _ Hf4); by apply get_put_inode).
  run_by (unfold upd_inode, modify; reflexivity). rewrite Hip4. set (s5 := put_inode i _ s4).
  run_by (unfold inode_get, gets; reflexivity). unfold s5. rewrite get_put_inode by (rewrite (lframe_itable _ _ Hf4); simpl; by rewrite length_insert).
  destruct (i_type (set_i_valid true ip3) =? 0); cbn [negb]; [by eexists|]. exists s5. split_and!; [done|by apply tx_put_inode| |].
  - etransitivity; [apply fframe_put_inode|]. etransitivity; [by apply lframe_fframe|].
    etransitivity; [apply fframe_put_inode|]. etransitivity; [by apply lframe_fframe|apply fframe_put_inode].
  - simpl. rewrite (lframe_itable _ _ Hf4). simpl. rewrite (lframe_itable _ _ Hf2). simpl. by rewrite !list_insert_insert_eq.
Qed.

(** C32: an inode that [iupdate] wrote comes back from the disk: [ilock] of an
    unlocked table entry for the same inode that is not valid loads type,
    device numbers, link count, size and block addresses as they were when
    [iupdate] was called, and no other inode on disk has changed. *)
Theorem inode_roundtrip lg sb s D bl i ip j ipj :
  tx lg s D bl ∅ → k_sb s = sb → disk_ok lg sb D → k_itable s !! i = Some ip → k_itable s !! j = Some ipj →
  i_dev ip = ROOTDEV → i_dev ipj = ROOTDEV → i_inum ipj = i_inum ip → 0 <= i_inum ip < sb_ninodes sb →
  inode_wf ip → i_type ip ≠ 0 → i_valid ipj = false → 1 <= i_ref ipj → sl_locked (i_lock ipj) = false →
  (length bl + 1 < NBUF)%nat → Z.of_nat (length bl) < tx_cap lg →
  ∃ s1 s2 D', iupdate i s = Done tt s1 ∧ ilock (Some j) s1 = Done tt s2 ∧
    tx lg s2 D' (logged bl (IBLOCK (i_inum ip) sb)) ∅ ∧
    k_itable s2 !! j = Some (set_i_valid true (with_disk (set_i_lock (my_lock s1) ipj) ip)) ∧
    (∀ k ip0, 0 <= k < sb_ninodes sb → k ≠ i_inum ip → disk_inode sb D' k ip0 = disk_inode sb D k ip0) ∧ fframe s s2.
Proof.
  intros Ht Hsb Hd Hi Hj Hdev Hdevj Hin Hr Hw Hty Hv Href Hlk Hroom Hcap.
  assert (Hip : get_inode s i = ip) by (by apply list_lookup_total_correct).
  destruct (iupdate_run lg sb s D bl i ip Ht Hsb Hd Hip Hdev Hr) as (s1 & Hr1 & Ht1 & Hf1); [lia|lia|].
  pose proof (lframe_itable _ _ Hf1) as Et. pose proof (logged_length bl (IBLOCK (i_inum ip) sb)) as Hl.
  pose proof (ilock_run lg sb s1 (iupdated sb D ip) _ j ipj Ht1) as Hlock.
  assert (El : ilocked sb (iupdated sb D ip) s1 ipj = set_i_valid true (with_disk (set_i_lock (my_lock s1) ipj) ip)).
  { unfold ilocked. change (i_valid (set_i_lock (my_lock s1) ipj)) with (i_valid ipj). rewrite Hv.
    change (i_inum (set_i_lock (my_lock s1) ipj)) with (i_inum ipj). rewrite Hin. f_equal. apply (iupdated_same Hd); [done|lia]. }
  rewrite El, Hv in Hlock. cbn [orb i_type set_i_valid with_disk] in Hlock. rewrite (proj2 (Z.eqb_neq _ _) Hty) in Hlock. cbn [negb] in Hlock.
  destruct Hlock as (s2 & Hr2 & Ht2 & Hf2 & Et2); [by rewrite (lframe_sb _ _ Hf1)|by rewrite Et|done|lia|done|done|].
  exists s1, s2, (iupdated sb D ip). split_and!; try done.
  - rewrite Et2, Et. apply list_lookup_insert_eq. by eapply lookup_lt_Some.
  - intros k ip0 Hk Hne. by apply (iupdated_other Hd).
  - etransitivity; [by apply lframe_fframe|done].
Qed.
End run.
