(* ===== verification/FsFile.v ===== *)
(** * The blocks of a file: [bmap] of kernel/fs.c

    An inode maps the block indices of its file to disk blocks, directly and
    through an indirect block.  The state of a file is seen here as the
    contents of its blocks, with zeros where there is none yet; [bmap] never
    changes this, and leaves the blocks of other files alone. *)

From stdpp Require Import gmap.
From S2P Require Import Prelude Memory Params State Sched Block Bio BioSpec Log LogCommit LogOps Fs Tx FsAlloc.

Implicit Types (s : kst) (D : Z → list Z) (bl T : list Z) (hs : gmap Z nat) (lg : region) (sb : superblock) (ip : inode).

(** ** The block map *)

Definition ind ip : Z := i_addrs ip !!! Z.to_nat NDIRECT.

(** The entry for index [k] in an indirect block. *)
Definition ind_off (k : Z) : nat := (4 * Z.to_nat (k - NDIRECT))%nat.

(** The disk block in slot [k], 0 if there is none; slot [MAXFILE] is the
    indirect block itself. *)
Definition slot D ip (k : Z) : Z :=
  if k <? NDIRECT then i_addrs ip !!! Z.to_nat k else
  if k =? MAXFILE then ind ip else
  if ind ip =? 0 then 0 else get32 (D (ind ip)) (ind_off k).

Definition is_slot (k : Z) : Prop := 0 <= k <= MAXFILE.

Record file_ok sb D ip : Prop := {
  fo_addrs : length (i_addrs ip) = 13%nat;
  fo_block : ∀ k, is_slot k → slot D ip k ≠ 0 → data_block sb (slot D ip k) ∧ allocated sb D (slot D ip k) = true;
  fo_inj : ∀ k k', is_slot k → is_slot k' → slot D ip k = slot D ip k' → slot D ip k ≠ 0 → k = k';
}.

Definition zeros : list Z := replicate (Z.to_nat BSIZE) 0.

(** The contents of block [k] of the file. *)
Definition fblk D ip (k : Z) : list Z := if slot D ip k =? 0 then zeros else D (slot D ip k).

(** The file keeps its blocks and may have got new ones; every allocated block
    that is not in the file is as before. *)
Record fkeep sb D ip D' ip' : Prop := {
  fk_ip : ip' = set_i_addrs (i_addrs ip') ip;
  fk_slot : ∀ k, is_slot k → slot D ip k ≠ 0 → slot D' ip' k = slot D ip k;
  fk_new : ∀ k, is_slot k → slot D' ip' k ≠ slot D ip k →
    data_block sb (slot D' ip' k) ∧ allocated sb D (slot D' ip' k) = false;
  fk_low : ∀ x, x < sb_bmapstart sb → D' x = D x;
  fk_other : ∀ x, data_block sb x → allocated sb D x = true → (∀ k, is_slot k → slot D ip k ≠ x) → D' x = D x;
  fk_alloc : ∀ x, 0 <= x < sb_size sb → allocated sb D x = true → allocated sb D' x = true;
}.

(** In addition the contents of the file are the same. *)
Record fgrow sb D ip D' ip' : Prop := {
  fg_keep : fkeep sb D ip D' ip';
  fg_blk : ∀ k, 0 <= k < MAXFILE → fblk D' ip' k = fblk D ip k;
}.

Lemma fkeep_refl sb D ip : fkeep sb D ip D ip.
Proof. split; try done. by destruct ip. Qed.

Lemma data_nonzero lg sb x : layout lg sb → data_block sb x → 0 < x < sb_size sb.
Proof. intros Hly. pose proof (nbitmap_pos Hly). pose proof (bmap_start_pos Hly). unfold data_block, data_start. lia. Qed.

Lemma fkeep_trans lg sb D1 ip1 D2 ip2 D3 ip3 : layout lg sb →
  fkeep sb D1 ip1 D2 ip2 → fkeep sb D2 ip2 D3 ip3 → fkeep sb D1 ip1 D3 ip3.
Proof.
  intros Hly H1 H2. assert (Hin : ∀ x, data_block sb x → 0 <= x < sb_size sb).
  { intros x Hx. pose proof (data_nonzero lg sb x Hly Hx). lia. }
  split.
  - rewrite (fk_ip _ _ _ _ _ H2), (fk_ip _ _ _ _ _ H1). done.
  - intros k Hk Hs. pose proof (fk_slot _ _ _ _ _ H1 k Hk Hs) as E. rewrite <- E. apply H2; congruence.
  - intros k Hk Hs. destruct (decide (slot D3 ip3 k = slot D2 ip2 k)) as [E|Hne].
    + rewrite E in *. by apply H1.
    + pose proof (fk_new _ _ _ _ _ H2 k Hk Hne) as [Hb Hf]. split; [done|].
      destruct (allocated sb D1 (slot D3 ip3 k)) eqn:E; [|done].
      by rewrite (fk_alloc _ _ _ _ _ H1) in Hf by auto.
  - intros x Hx. by rewrite (fk_low _ _ _ _ _ H2), (fk_low _ _ _ _ _ H1).
  - intros x Hx Ha Hns. rewrite (fk_other _ _ _ _ _ H2); [by apply (fk_other _ _ _ _ _ H1)|done| |].
    + apply (fk_alloc _ _ _ _ _ H1); auto.
    + intros k Hk E. destruct (decide (slot D2 ip2 k = slot D1 ip1 k)) as [E2|Hne]; [by apply (Hns k Hk); congruence|].
      pose proof (fk_new _ _ _ _ _ H1 k Hk Hne) as [_ Hf]. rewrite E in Hf. congruence.
  - intros x Hx Ha. apply (fk_alloc _ _ _ _ _ H2); [done|]. by apply (fk_alloc _ _ _ _ _ H1).
Qed.

Lemma fgrow_refl sb D ip : fgrow sb D ip D ip.
Proof. split; [apply fkeep_refl|done]. Qed.

Lemma fgrow_trans lg sb D1 ip1 D2 ip2 D3 ip3 : layout lg sb →
  fgrow sb D1 ip1 D2 ip2 → fgrow sb D2 ip2 D3 ip3 → fgrow sb D1 ip1 D3 ip3.
Proof.
  intros Hly [K1 B1] [K2 B2]. split; [by eapply fkeep_trans|]. intros k Hk. by rewrite B2, B1.
Qed.

(** ** Reading the block map *)

Lemma get32_zeros off : get32 zeros off = 0.
Proof.
  unfold get32, slice, zeros. rewrite drop_replicate, take_replicate. generalize (Nat.min 4 (Z.to_nat BSIZE - off)).
  intros n. induction n as [|n IH]; [done|]. cbn [replicate le_dec]. by rewrite IH.
Qed.

Lemma slot_direct D ip k : k < NDIRECT → slot D ip k = i_addrs ip !!! Z.to_nat k.
Proof. intros Hk. unfold slot. by rewrite (proj2 (Z.ltb_lt _ _) Hk). Qed.

Lemma slot_ind D ip : slot D ip MAXFILE = ind ip.
Proof. reflexivity. Qed.

Lemma slot_indirect D ip k : NDIRECT <= k < MAXFILE →
  slot D ip k = if ind ip =? 0 then 0 else get32 (D (ind ip)) (ind_off k).
Proof.
  intros Hk. unfold slot. rewrite (proj2 (Z.ltb_ge _ _)), (proj2 (Z.eqb_neq _ _)) by lia. done.
Qed.

(** The map depends on the disk only through the indirect block. *)
Lemma slot_ext D D' ip k : (ind ip ≠ 0 → D' (ind ip) = D (ind ip)) → slot D' ip k = slot D ip k.
Proof.
  intros E. unfold slot. destruct (Z.eqb_spec (ind ip) 0) as [|Hne]; [done|]. by rewrite E.
Qed.

Lemma fblk_ext D D' ip k :
  slot D' ip k = slot D ip k → (slot D ip k ≠ 0 → D' (slot D ip k) = D (slot D ip k)) → fblk D' ip k = fblk D ip k.
Proof. intros E Hc. unfold fblk. rewrite E. destruct (Z.eqb_spec (slot D ip k) 0); auto. Qed.

Lemma ind_off_lt k : NDIRECT <= k < MAXFILE → (ind_off k + 4 <= Z.to_nat BSIZE)%nat.
Proof. unfold ind_off, MAXFILE, NINDIRECT, NDIRECT, BSIZE. intros Hk. change (1024 / 4) with 256 in Hk. lia. Qed.

Lemma maxfile_direct : NDIRECT < MAXFILE.
Proof. by compute. Qed.

(** ** Putting a new block in the map *)

(** Slot [k] was empty and now holds [b], which was free. *)
Record installs sb D ip D' ip' (k b : Z) : Prop := {
  is_ip : ip' = set_i_addrs (i_addrs ip') ip;
  is_len : length (i_addrs ip') = 13%nat;
  is_k : is_slot k;
  is_empty : slot D ip k = 0;
  is_block : data_block sb b;
  is_free : allocated sb D b = false;
  is_taken : allocated sb D' b = true;
  is_mono : ∀ x, 0 <= x < sb_size sb → allocated sb D x = true → allocated sb D' x = true;
  is_slots : ∀ j, is_slot j → slot D' ip' j = if decide (j = k) then b else slot D ip j;
  is_zero : k < MAXFILE → D' b = zeros;
  is_low : ∀ x, x < sb_bmapstart sb → D' x = D x;
  is_other : ∀ x, data_block sb x → allocated sb D x = true → x ≠ ind ip → D' x = D x;
}.

Lemma installs_grow lg sb D ip D' ip' k b :
  layout lg sb → file_ok sb D ip → installs sb D ip D' ip' k b → file_ok sb D' ip' ∧ fgrow sb D ip D' ip'.
Proof.
  intros Hly Hf Hi. pose proof (data_nonzero lg sb) as Hnz.
  assert (Hout : ∀ j, is_slot j → slot D ip j ≠ b).
  { intros j Hj E. pose proof (Hnz b Hly (is_block _ _ _ _ _ _ _ Hi)).
    destruct (fo_block _ _ _ Hf j Hj) as [_ Ha]; [lia|]. rewrite E, (is_free _ _ _ _ _ _ _ Hi) in Ha. done. }
  split; [split|split; [split|]].
  - apply Hi.
  - intros j Hj. rewrite (is_slots _ _ _ _ _ _ _ Hi) by done. case_decide; [intros _; split; apply Hi|].
    intros Hs. destruct (fo_block _ _ _ Hf j Hj Hs) as [Hb Ha]. split; [done|].
    apply (is_mono _ _ _ _ _ _ _ Hi); [|done]. pose proof (Hnz _ Hly Hb). lia.
  - intros j j' Hj Hj'. rewrite !(is_slots _ _ _ _ _ _ _ Hi) by done. repeat case_decide; try congruence.
    + intros E. by destruct (Hout j' Hj').
    + intros E. by destruct (Hout j Hj).
    + by apply (fo_inj _ _ _ Hf).
  - apply Hi.
  - intros j Hj Hs. rewrite (is_slots _ _ _ _ _ _ _ Hi) by done. case_decide as Ej; [|done].
    subst j. by rewrite (is_empty _ _ _ _ _ _ _ Hi) in Hs.
  - intros j Hj. rewrite (is_slots _ _ _ _ _ _ _ Hi) by done. case_decide; [intros _; split; apply Hi|done].
  - apply Hi.
  - intros x Hx Ha Hns. apply (is_other _ _ _ _ _ _ _ Hi); [done..|]. rewrite <- (slot_ind D). intros ->.
    apply (Hns MAXFILE); [unfold is_slot; pose proof maxfile_direct; unfold NDIRECT in *; lia|done].
  - apply Hi.
  - intros j Hj. assert (Hs : is_slot j) by (unfold is_slot; lia). unfold fblk. rewrite (is_slots _ _ _ _ _ _ _ Hi) by done.
    case_decide as Ej.
    + subst j. rewrite (is_empty _ _ _ _ _ _ _ Hi). pose proof (Hnz b Hly (is_block _ _ _ _ _ _ _ Hi)).
      rewrite (proj2 (Z.eqb_neq _ _)) by lia. apply Hi. lia.
    + destruct (Z.eqb_spec (slot D ip j) 0) as [|Hne]; [done|]. destruct (fo_block _ _ _ Hf j Hs Hne) as [Hb Ha].
      apply (is_other _ _ _ _ _ _ _ Hi); [done..|]. intros E. rewrite <- (slot_ind D) in E.
      apply (fo_inj _ _ _ Hf) in E; [lia|done|unfold is_slot; pose proof maxfile_direct; unfold NDIRECT in *; lia|done].
Qed.

Section install.
Context {lg sb D ip} {b : Z} (Hd : disk_ok lg sb D) (Hf : file_ok sb D ip).
Context (Hb : data_block sb b) (Hfree : allocated sb D b = false).

Lemma ind_block : ind ip ≠ 0 → data_block sb (ind ip) ∧ allocated sb D (ind ip) = true.
Proof. rewrite <- (slot_ind D). apply (fo_block _ _ _ Hf). unfold is_slot. pose proof maxfile_direct. unfold NDIRECT in *. lia. Qed.

Lemma ind_fresh : ind ip ≠ 0 → fresh sb b D (ind ip) = D (ind ip).
Proof.
  intros Hne. destruct (ind_block Hne) as [Hx Ha]. apply (fresh_data Hd Hb); [apply Hx|]. intros E. congruence.
Qed.

Lemma fresh_mono x : 0 <= x < sb_size sb → allocated sb D x = true → allocated sb (fresh sb b D) x = true.
Proof. intros Hx Ha. rewrite (fresh_allocated Hd Hb) by done. rewrite Ha. apply orb_true_r. Qed.

Lemma fresh_taken : allocated sb (fresh sb b D) b = true.
Proof. rewrite (fresh_allocated Hd Hb) by (by apply (data_in Hd)). by rewrite bool_decide_eq_true_2. Qed.

Lemma fresh_other x : data_block sb x → allocated sb D x = true → fresh sb b D x = D x.
Proof. intros Hx Ha. apply (fresh_data Hd Hb); [apply Hx|]. intros E. congruence. Qed.

Lemma set_i_addr_len k v : length (i_addrs (set_i_addr k v ip)) = 13%nat.
Proof. simpl. rewrite length_insert. apply Hf. Qed.

Lemma ind_set_direct k v : 0 <= k < NDIRECT → ind (set_i_addr (Z.to_nat k) v ip) = ind ip.
Proof. intros Hk. unfold ind. simpl. apply list_lookup_total_insert_ne. unfold NDIRECT in *. lia. Qed.

Lemma ind_set v : ind (set_i_addr (Z.to_nat NDIRECT) v ip) = v.
Proof. unfold ind. simpl. apply list_lookup_total_insert_eq. rewrite (fo_addrs _ _ _ Hf). unfold NDIRECT. lia. Qed.

Lemma install_direct k : 0 <= k < NDIRECT → slot D ip k = 0 →
  installs sb D ip (fresh sb b D) (set_i_addr (Z.to_nat k) b ip) k b.
Proof.
  intros Hk Hs. pose proof maxfile_direct. split; try done.
  - apply set_i_addr_len.
  - unfold is_slot. lia.
  - apply fresh_taken.
  - apply fresh_mono.
  - intros j Hj. unfold is_slot in Hj. destruct (decide (j < NDIRECT)) as [Hlt|Hge].
    + rewrite !slot_direct by done. simpl. case_decide as E.
      * subst j. apply list_lookup_total_insert_eq. rewrite (fo_addrs _ _ _ Hf). unfold NDIRECT in *. lia.
      * apply list_lookup_total_insert_ne. lia.
    + rewrite decide_False by lia. destruct (decide (j = MAXFILE)) as [->|Hne].
      * rewrite !slot_ind. by apply ind_set_direct.
      * rewrite !slot_indirect by lia. rewrite ind_set_direct by done.
        destruct (Z.eqb_spec (ind ip) 0); [done|]. by rewrite ind_fresh.
  - intros _. apply fresh_same.
  - intros x. by apply (fresh_low Hd Hb).
  - intros x Hx Ha _. by apply fresh_other.
Qed.

Lemma install_ind : ind ip = 0 →
  installs sb D ip (fresh sb b D) (set_i_addr (Z.to_nat NDIRECT) b ip) MAXFILE b.
Proof.
  intros Hs. pose proof maxfile_direct. split; try done.
  - apply set_i_addr_len.
  - apply fresh_taken.
  - apply fresh_mono.
  - intros j Hj. unfold is_slot in Hj. destruct (decide (j < NDIRECT)) as [Hlt|Hge].
    + rewrite decide_False by lia. rewrite !slot_direct by done. simpl. apply list_lookup_total_insert_ne. lia.
    + case_decide as Ej; [subst j; rewrite slot_ind; apply ind_set|].
      rewrite !slot_indirect by lia. rewrite ind_set, Hs. simpl.
      rewrite (proj2 (Z.eqb_neq _ _)) by (pose proof (data_nonzero lg sb b (dk_layout _ _ _ Hd) Hb); lia).
      rewrite fresh_same. apply get32_zeros.
  - intros x. by apply (fresh_low Hd Hb).
  - intros x Hx Ha _. by apply fresh_other.
Qed.

Lemma ind_off_inj j k : NDIRECT <= j → NDIRECT <= k → j ≠ k → (ind_off j + 4 <= ind_off k ∨ ind_off k + 4 <= ind_off j)%nat.
Proof. unfold ind_off. lia. Qed.

Lemma install_entry k : NDIRECT <= k < MAXFILE → ind ip ≠ 0 → slot D ip k = 0 →
  installs sb D ip (upd (ind ip) (put32 (D (ind ip)) (ind_off k) b) (fresh sb b D)) ip k b.
Proof.
  intros Hk Hne Hs. destruct (ind_block Hne) as [Hx Ha]. pose proof maxfile_direct.
  pose proof (dk_layout _ _ _ Hd) as Hly. pose proof (data_nonzero lg sb b Hly Hb).
  assert (Hib : ind ip ≠ b) by (intros E; congruence).
  assert (Hal : ∀ x, 0 <= x < sb_size sb → allocated sb (upd (ind ip) (put32 (D (ind ip)) (ind_off k) b) (fresh sb b D)) x =
    allocated sb (fresh sb b D) x) by (intros x Hxr; eapply allocated_data; [exact Hly|apply Hx|done]).
  assert (Hle : (ind_off k + 4 <= length (D (ind ip)))%nat) by (rewrite (dk_len _ _ _ Hd); by apply ind_off_lt).
  split; try done.
  - by destruct ip.
  - apply Hf.
  - unfold is_slot. unfold NDIRECT in *. lia.
  - rewrite Hal by lia. apply fresh_taken.
  - intros x Hxr Hax. rewrite Hal by done. by apply fresh_mono.
  - intros j Hj. unfold is_slot in Hj. destruct (decide (j < NDIRECT)) as [Hlt|Hge].
    + rewrite decide_False by lia. by rewrite !slot_direct by done.
    + destruct (decide (j = MAXFILE)) as [->|Hnj]; [by rewrite decide_False by lia|].
      rewrite !slot_indirect by lia. rewrite (proj2 (Z.eqb_neq _ _) Hne), upd_eq. case_decide as Ej.
      * subst j. rewrite get_put32 by done. apply u32_small. pose proof (ly_size _ _ Hly). unfold BPB, BSIZE in *. lia.
      * rewrite get_put32_other; [done|done|]. pose proof (ind_off_inj j k). lia.
  - intros _. rewrite upd_ne by done. apply fresh_same.
  - intros x Hxl. unfold data_block in Hx. pose proof (nbitmap_pos Hly). unfold data_start in *.
    rewrite upd_ne by lia. by apply (fresh_low Hd Hb).
  - intros x Hxd Hax Hxi. rewrite upd_ne by done. by apply fresh_other.
Qed.
End install.

(** ** A transaction that works on a file *)

(** What is left for a transaction: it must log fewer blocks than the log takes,
    and leave buffers for the blocks it holds. *)
Definition budget lg : Z := Z.min (tx_cap lg) (Z.of_nat NBUF - 2).

(** 1 if the file has no indirect block yet. *)
Definition no_ind ip : nat := if ind ip =? 0 then 1 else 0.

(** Inode table entry [i] is [ip], a file on disk [D]; the blocks logged so far
    are in [T], and so are the blocks that any allocation writes. *)
Record ftx `{DiskRw} `{WaitFuel} lg sb (i : nat) s D bl T ip : Prop := {
  ft_tx : tx lg s D bl ∅;
  ft_sb : k_sb s = sb;
  ft_disk : disk_ok lg sb D;
  ft_ip : k_itable s !! i = Some ip;
  ft_dev : i_dev ip = ROOTDEV;
  ft_file : file_ok sb D ip;
  ft_logged : bl ⊆ T;
  ft_bitmap : ∀ b, 0 <= b < sb_size sb → BBLOCK b sb ∈ T;
  ft_ind : ind ip ≠ 0 → ind ip ∈ T;
}.

Section bmap.
Context `{DiskRw} `{WaitFuel}.

Lemma logged_nodup bl x : NoDup bl → NoDup (logged bl x).
Proof.
  intros Hn. unfold logged. case_decide; [done|]. apply NoDup_app. split_and!; [done|set_solver|apply NoDup_singleton].
Qed.

Lemma nodup_length (l T : list Z) : NoDup l → l ⊆ T → (length l <= length T)%nat.
Proof. intros Hn Hs. apply submseteq_length. by apply NoDup_submseteq. Qed.

Lemma ftx_inode lg sb i s D bl T ip : ftx lg sb i s D bl T ip → get_inode s i = ip.
Proof. intros Hf. unfold get_inode. apply list_lookup_total_correct, Hf. Qed.

Lemma ftx_length lg sb i s D bl T ip : ftx lg sb i s D bl T ip → (length bl <= length T)%nat.
Proof. intros Hf. eapply nodup_length; [|apply Hf]. eapply tx_nodup, Hf. Qed.

(** [balloc] with room for it. *)
Lemma balloc_ok lg sb s D bl hs T :
  tx lg s D bl hs → k_sb s = sb → disk_ok lg sb D → bl ⊆ T → (∀ b, 0 <= b < sb_size sb → BBLOCK b sb ∈ T) →
  (∀ x, is_Some (hs !! x) → data_block sb x ∧ allocated sb D x = true) →
  (length T + size hs + 1 < NBUF)%nat → Z.of_nat (length T) < tx_cap lg → (0 < nfree sb D)%nat →
  ∃ b s', balloc ROOTDEV s = Done b s' ∧ balloc_took lg sb D bl hs b s' ∧ lframe s s'.
Proof.
  intros Ht Hsb Hd Hbl Hbm Hhs Hroom Hcap Hfree. pose proof (tx_nodup _ _ _ _ _ Ht) as Hn.
  pose proof (nodup_length bl T Hn Hbl) as Hlen.
  destruct (balloc_run lg sb s D bl hs) as [[Hall _]|Hok]; [|exfalso|exact Hok].
  - split; try done; [lia|]. intros b Hb.
    pose proof (nodup_length (logged bl (BBLOCK b sb)) T (logged_nodup _ _ Hn)
      (logged_subseteq _ _ _ Hbl (Hbm b Hb))). lia.
  - unfold nfree in Hfree. destruct (filter _ _) as [|b l] eqn:E; [simpl in Hfree; lia|].
    assert (Hin : b ∈ b :: l) by left. rewrite <- E in Hin. apply list_elem_of_filter in Hin as [Hf Hb%elem_of_seqZ].
    rewrite Hall in Hf by lia. done.
Qed.

(** *** The block is there *)

Lemma bmap_found lg s D bl i ip bn :
  tx lg s D bl ∅ → get_inode s i = ip → i_dev ip = ROOTDEV → (length bl < NBUF)%nat →
  0 <= bn < MAXFILE → slot D ip bn ≠ 0 →
  ∃ s', bmap i bn s = Done (slot D ip bn) s' ∧ tx lg s' D bl ∅ ∧ lframe s s'.
Proof.
  intros Ht Hip Hdev Hroom Hbn Hs. unfold bmap. run_by (unfold inode_get, gets; reflexivity).
  rewrite Hip, Hdev. destruct (Z.ltb_spec bn NDIRECT) as [Hlt|Hge].
  - run_by (unfold inode_get, gets; reflexivity). rewrite Hip, <- (slot_direct D) by done.
    rewrite (proj2 (Z.eqb_neq _ _) Hs). exists s. split_and!; [done..|]. by apply bframe_lframe.
  - rewrite (proj2 (Z.ltb_lt _ _)) by (unfold MAXFILE in Hbn; lia).
    run_by (unfold inode_get, gets; reflexivity). rewrite Hip. fold (ind ip).
    rewrite slot_indirect in * by lia. destruct (Z.eqb_spec (ind ip) 0) as [|Hne]; [done|].
    run_by (done). destruct (tx_bread lg s D bl ∅ (ind ip) Ht) as (j & s1 & Hr1 & Ht1 & Hf1);
      [done|rewrite map_size_empty; lia|]. run_by (exact Hr1).
    run_by (unfold buf_get, gets; reflexivity). rewrite (tx_data _ _ _ _ _ (ind ip) j Ht1) by apply lookup_insert_eq.
    fold (ind_off bn). rewrite (proj2 (Z.eqb_neq _ _) Hs). run_by (done).
    destruct (tx_done lg s1 _ _ ∅ (ind ip) j Ht1) as (s2 & Hr2 & Ht2 & Hf2); [done|]. run_by (exact Hr2).
    exists s2. split_and!; [done..|]. by eapply lframe_trans.
Qed.

(** *** The block is allocated *)

(** The file after a new block [b] was put in slot [k]. *)
Record grown lg sb i s D bl T ip (k : Z) s' D' bl' T' ip' : Prop := {
  gr_ftx : ftx lg sb i s' D' bl' T' ip';
  gr_grow : fgrow sb D ip D' ip';
  gr_slot : slot D' ip' k ≠ 0;
  gr_T : T ⊆ T' ∧ slot D' ip' k ∈ T' ∧ (length T' <= length T + 1)%nat;
  gr_free : nfree sb D = S (nfree sb D');
  gr_frame : fframe s s';
  gr_table : k_itable s' = <[i := ip']> (k_itable s);
}.

Lemma grown_addr lg sb i s D bl T ip k (j : nat) b s1 :
  ftx lg sb i s D bl T ip → balloc_took lg sb D bl ∅ b s1 → lframe s s1 →
  installs sb D ip (fresh sb b D) (set_i_addr j b ip) k b → (ind (set_i_addr j b ip) = ind ip ∨ ind (set_i_addr j b ip) = b) →
  grown lg sb i s D bl T ip k (put_inode i (set_i_addr j b ip) s1) (fresh sb b D)
    (logged (logged bl (BBLOCK b sb)) b) (T ++ [b]) (set_i_addr j b ip).
Proof.
  intros Hft (Hb & Hfree & _ & Ht1) Hf1 Hi Hind. pose proof (ft_disk _ _ _ _ _ _ _ _ Hft) as Hd.
  pose proof (dk_layout _ _ _ Hd) as Hly.
  destruct (installs_grow lg sb _ _ _ _ _ _ Hly (ft_file _ _ _ _ _ _ _ _ Hft) Hi) as [Hfo Hg].
  assert (Es : slot (fresh sb b D) (set_i_addr j b ip) k = b)
    by (rewrite (is_slots _ _ _ _ _ _ _ Hi) by apply Hi; by rewrite decide_True).
  pose proof (data_nonzero lg sb b Hly Hb). pose proof (lframe_itable _ _ Hf1) as Et.
  pose proof (ft_ip _ _ _ _ _ _ _ _ Hft) as Hip. pose proof (lookup_lt_Some _ _ _ Hip) as Hlt.
  split; [split|..]; try done.
  - by apply tx_put_inode.
  - cbn [k_sb put_inode set_itable]. rewrite (lframe_sb _ _ Hf1). apply Hft.
  - by apply (fresh_disk_ok Hd Hb).
  - simpl. rewrite Et. by apply list_lookup_insert_eq.
  - apply Hft.
  - apply logged_subseteq; [|set_solver]. apply logged_subseteq; [pose proof (ft_logged _ _ _ _ _ _ _ _ Hft); set_solver|].
    apply elem_of_app. left. apply (ft_bitmap _ _ _ _ _ _ _ _ Hft). lia.
  - intros x Hx. apply elem_of_app. left. by apply (ft_bitmap _ _ _ _ _ _ _ _ Hft).
  - intros Hne. destruct Hind as [E | ->]; [|set_solver]. rewrite E in *. apply elem_of_app. left.
    by apply (ft_ind _ _ _ _ _ _ _ _ Hft).
  - rewrite Es. lia.
  - rewrite Es, length_app. simpl. split_and!; [set_solver..|lia].
  - by apply (fresh_nfree Hd Hb).
  - etransitivity; [by apply lframe_fframe|apply fframe_put_inode].
  - simpl. by rewrite Et.
Qed.

Lemma ftx_more lg sb i s D bl T T' ip : T ⊆ T' → ftx lg sb i s D bl T ip → ftx lg sb i s D bl T' ip.
Proof. intros HT [? ? ? ? ? ? ? Hbm Hi]. split; try done; [set_solver| |]; intros; apply HT; auto. Qed.

Lemma ftx_lframe lg sb i s s' D bl T ip : lframe s s' → tx lg s' D bl ∅ → ftx lg sb i s D bl T ip → ftx lg sb i s' D bl T ip.
Proof.
  intros Hf Ht [_ ? ? ? ? ? ? ? ?]. split; try done; [by rewrite (lframe_sb _ _ Hf)|by rewrite (lframe_itable _ _ Hf)].
Qed.

(** [if((addr = ip->addrs[bn]) == 0) ip->addrs[bn] = addr = balloc(ip->dev)] *)
Lemma alloc_direct_run lg sb i s D bl T ip bn :
  ftx lg sb i s D bl T ip → 0 <= bn < NDIRECT → slot D ip bn = 0 →
  Z.of_nat (length T) + 1 < budget lg → (0 < nfree sb D)%nat →
  ∃ b s' bl', (addr ← balloc ROOTDEV; upd_inode i (set_i_addr (Z.to_nat bn) addr);; mret addr) s = Done b s' ∧
    slot (fresh sb b D) (set_i_addr (Z.to_nat bn) b ip) bn = b ∧ ind (set_i_addr (Z.to_nat bn) b ip) = ind ip ∧
    grown lg sb i s D bl T ip bn s' (fresh sb b D) bl' (T ++ [b]) (set_i_addr (Z.to_nat bn) b ip).
Proof.
  intros Hft Hbn Hs Hbud Hfree. unfold budget in Hbud.
  destruct (balloc_ok lg sb s D bl ∅ T) as (b & s1 & Hr & Htook & Hf1); try apply Hft; try done.
  { intros x [? Hx]. done. } { rewrite map_size_empty. lia. } { lia. }
  run_by (exact Hr). run_by (unfold upd_inode, modify; reflexivity).
  unfold get_inode. rewrite (lframe_itable _ _ Hf1). fold (get_inode s i). rewrite (ftx_inode _ _ _ _ _ _ _ _ Hft).
  pose proof (ft_disk _ _ _ _ _ _ _ _ Hft) as Hd. pose proof (ft_file _ _ _ _ _ _ _ _ Hft) as Hfo.
  destruct Htook as (Hb & Hfr & Hfst & Ht1).
  pose proof (install_direct Hd Hfo Hb Hfr bn Hbn Hs) as Hi. pose proof (ind_set_direct (ip := ip) bn b Hbn) as Ei.
  eexists b, _, _. split; [done|]. split_and!; [rewrite (is_slots _ _ _ _ _ _ _ Hi) by apply Hi; by rewrite decide_True|done|].
  eapply grown_addr; [exact Hft|by split_and!|exact Hf1|exact Hi|by left].
Qed.

(** The indirect block, which is allocated if there is none. *)
Lemma alloc_ind_run lg sb i s D bl T ip :
  ftx lg sb i s D bl T ip → ind ip = 0 →
  Z.of_nat (length T) + 1 < budget lg → (0 < nfree sb D)%nat →
  ∃ b s' bl', (addr ← balloc ROOTDEV; upd_inode i (set_i_addr (Z.to_nat NDIRECT) addr);; mret addr) s = Done b s' ∧
    ind (set_i_addr (Z.to_nat NDIRECT) b ip) = b ∧ b ≠ 0 ∧
    grown lg sb i s D bl T ip MAXFILE s' (fresh sb b D) bl' (T ++ [b]) (set_i_addr (Z.to_nat NDIRECT) b ip).
Proof.
  intros Hft Hs Hbud Hfree. unfold budget in Hbud.
  destruct (balloc_ok lg sb s D bl ∅ T) as (b & s1 & Hr & Htook & Hf1); try apply Hft; try done.
  { intros x [? Hx]. done. } { rewrite map_size_empty. lia. } { lia. }
  run_by (exact Hr). run_by (unfold upd_inode, modify; reflexivity).
  unfold get_inode. rewrite (lframe_itable _ _ Hf1). fold (get_inode s i). rewrite (ftx_inode _ _ _ _ _ _ _ _ Hft).
  pose proof (ft_disk _ _ _ _ _ _ _ _ Hft) as Hd. pose proof (ft_file _ _ _ _ _ _ _ _ Hft) as Hfo.
  destruct Htook as (Hb & Hfr & Hfst & Ht1).
  pose proof (install_ind Hd Hfo Hb Hfr Hs) as Hi. pose proof (ind_set Hfo b) as Ei.
  eexists b, _, _. split; [done|]. split_and!; [done|pose proof (data_nonzero lg sb b (dk_layout _ _ _ Hd) Hb); lia|].
  eapply grown_addr; [exact Hft|by split_and!|exact Hf1|exact Hi|by right].
Qed.

(** The part of [bmap] that reads the indirect block. *)
Definition bmap_entry (addr bn : Z) : K Z :=
  bp ← bread ROOTDEV addr;
  addr ← buf_get bp (λ b, get32 (b_data b) (ind_off bn));
  addr ← (if addr =? 0 then
            addr ← balloc ROOTDEV;
            upd_data bp (λ d, put32 d (ind_off bn) addr);;
            log_write bp;;
            mret addr
          else mret addr);
  brelse bp;;
  mret addr.

Lemma alloc_entry_run lg sb i s D bl T ip bn :
  ftx lg sb i s D bl T ip → NDIRECT <= bn < MAXFILE → ind ip ≠ 0 → slot D ip bn = 0 →
  Z.of_nat (length T) + 1 < budget lg → (0 < nfree sb D)%nat →
  ∃ s' D' bl' T', bmap_entry (ind ip) bn s = Done (slot D' ip bn) s' ∧
    grown lg sb i s D bl T ip bn s' D' bl' T' ip.
Proof.
  intros Hft Hbn Hne Hs Hbud Hfree. unfold budget in Hbud. pose proof (ftx_length _ _ _ _ _ _ _ _ Hft) as Hlen.
  pose proof (ft_disk _ _ _ _ _ _ _ _ Hft) as Hd. pose proof (ft_file _ _ _ _ _ _ _ _ Hft) as Hfo.
  pose proof (dk_layout _ _ _ Hd) as Hly. destruct (ind_block Hfo Hne) as [Hidb Hia].
  unfold bmap_entry. destruct (tx_bread lg s D bl ∅ (ind ip)) as (j & s1 & Hr1 & Ht1 & Hf1);
    [apply Hft|done|rewrite map_size_empty; lia|]. run_by (exact Hr1).
  run_by (unfold buf_get, gets; reflexivity). rewrite (tx_data _ _ _ _ _ (ind ip) j Ht1) by apply lookup_insert_eq.
  rewrite slot_indirect, (proj2 (Z.eqb_neq _ _) Hne) in Hs by done. rewrite Hs, Z.eqb_refl.
  destruct (balloc_ok lg sb s1 D bl (<[ind ip := j]> ∅) T) as (b & s2 & Hr2 & Htook & Hf2); try apply Hft; try done.
  { rewrite (lframe_sb _ _ Hf1). apply Hft. }
  { intros x [? Hx]. apply lookup_insert_Some in Hx as [[<- _]|[_ Hx]]; done. }
  { rewrite map_size_insert_None, map_size_empty by done. lia. } { lia. }
  destruct Htook as (Hb & Hfr & _ & Ht2). set (bl2 := logged (logged bl (BBLOCK b sb)) b) in *.
  assert (Hbl2 : bl2 ⊆ T ++ [b]).
  { apply logged_subseteq; [|set_solver]. apply logged_subseteq; [pose proof (ft_logged _ _ _ _ _ _ _ _ Hft); set_solver|].
    apply elem_of_app. left. apply (ft_bitmap _ _ _ _ _ _ _ _ Hft). pose proof (data_nonzero lg sb b Hly Hb). lia. }
  pose proof (nodup_length _ _ (tx_nodup _ _ _ _ _ Ht2) Hbl2) as Hlen2. rewrite length_app in Hlen2. simpl in Hlen2.
  destruct (tx_finish lg s2 _ bl2 ∅ (ind ip) j (λ d, put32 d (ind_off bn) b) Ht2) as (s3 & s4 & Hr3 & Hr4 & Ht4 & Hf4);
    [done|by apply (data_home Hly)|lia|]. rewrite (ind_fresh Hd Hfo Hb Hfr Hne) in Ht4.
  rewrite (bind_Done _ _ s1 b s4) by (run_by (exact Hr2); run_by (exact Hr3); by run_by (exact Hr4)). cbn beta.
  destruct (tx_done lg s4 _ _ ∅ (ind ip) j Ht4) as (s5 & Hr5 & Ht5 & Hf5); [done|]. run_by (exact Hr5).
  assert (Hs' : slot D ip bn = 0) by (by rewrite slot_indirect, (proj2 (Z.eqb_neq _ _) Hne)).
  pose proof (install_entry Hd Hfo Hb Hfr bn Hbn Hne Hs') as Hi. set (D' := upd (ind ip) _ _) in *.
  destruct (installs_grow lg sb _ _ _ _ _ _ Hly Hfo Hi) as [Hfo' Hg].
  assert (Es : slot D' ip bn = b) by (rewrite (is_slots _ _ _ _ _ _ _ Hi) by apply Hi; by rewrite decide_True).
  assert (Hf : lframe s s5) by (do 3 (eapply lframe_trans; [eassumption|]); done).
  pose proof (ft_ind _ _ _ _ _ _ _ _ Hft Hne) as HiT.
  exists s5, D', (logged bl2 (ind ip)), (T ++ [b]). rewrite Es. split; [done|]. split; rewrite ?Es.
  - split; try done; try apply Hft.
    + rewrite (lframe_sb _ _ Hf). apply Hft.
    + apply disk_ok_data; [by apply (fresh_disk_ok Hd Hb)|apply Hidb|].
      rewrite length_put32; [apply (dk_len _ _ _ Hd)|rewrite (dk_len _ _ _ Hd); by apply ind_off_lt].
    + rewrite (lframe_itable _ _ Hf). apply Hft.
    + apply logged_subseteq; [done|set_solver].
    + intros x Hx. apply elem_of_app. left. by apply (ft_bitmap _ _ _ _ _ _ _ _ Hft).
    + intros _. set_solver.
  - exact Hg.
  - pose proof (data_nonzero lg sb b Hly Hb). lia.
  - rewrite length_app. simpl. split_and!; [set_solver..|lia].
  - rewrite (fresh_nfree Hd Hb Hfr). f_equal. symmetry. apply nfree_agree. intros x Hx.
    eapply allocated_data; [exact Hly|apply Hidb|done].
  - by apply lframe_fframe.
  - rewrite (lframe_itable _ _ Hf). symmetry. apply list_insert_id, Hft.
Qed.

(** *** Both cases *)

(** What [bmap] of index [k] leaves: the file has a block there, at the cost of
    at most one block of the log and one free block beside the indirect one. *)
Record bmapped lg sb i s D T ip (k : Z) s' D' bl' T' ip' : Prop := {
  bm_ftx : ftx lg sb i s' D' bl' T' ip';
  bm_grow : fgrow sb D ip D' ip';
  bm_slot : slot D' ip' k ≠ 0;
  bm_T : T ⊆ T' ∧ slot D' ip' k ∈ T';
  bm_cost : (length T' + no_ind ip' <= length T + no_ind ip + 1)%nat;
  bm_free : (nfree sb D + no_ind ip' <= nfree sb D' + no_ind ip + 1)%nat;
  bm_frame : fframe s s';
  bm_table : k_itable s' = <[i := ip']> (k_itable s);
}.

Lemma grown_bmapped lg sb i s D bl T ip k s' D' bl' T' ip' :
  no_ind ip' = no_ind ip → grown lg sb i s D bl T ip k s' D' bl' T' ip' → bmapped lg sb i s D T ip k s' D' bl' T' ip'.
Proof.
  intros En [Hft Hg Hs (HT & Hin & Hl) Hfree Hfr Ht]. split; try done; rewrite ?En; lia.
Qed.

Lemma grown_trans lg sb i s D bl T ip k s1 D1 bl1 T1 ip1 s2 D2 bl2 T2 ip2 :
  ftx lg sb i s D bl T ip → no_ind ip = 1%nat → no_ind ip2 = 0%nat →
  grown lg sb i s D bl T ip MAXFILE s1 D1 bl1 T1 ip1 → grown lg sb i s1 D1 bl1 T1 ip1 k s2 D2 bl2 T2 ip2 →
  bmapped lg sb i s D T ip k s2 D2 bl2 T2 ip2.
Proof.
  intros Hft E1 E2 [Hft1 Hg1 Hs1 (HT1 & Hin1 & Hl1) Hfree1 Hfr1 Ht1] [Hft2 Hg2 Hs2 (HT2 & Hin2 & Hl2) Hfree2 Hfr2 Ht2].
  split; try done; [| |lia..|by etransitivity|].
  - eapply fgrow_trans; [|exact Hg1|exact Hg2]. apply Hft.
  - split; [set_solver|done].
  - rewrite Ht2, Ht1. apply list_insert_insert_eq.
Qed.

Lemma bmap_indirect i bn s ip :
  NDIRECT <= bn < MAXFILE → get_inode s i = ip → i_dev ip = ROOTDEV →
  bmap i bn s = (addr ← (if ind ip =? 0 then
                          addr ← balloc ROOTDEV; upd_inode i (set_i_addr (Z.to_nat NDIRECT) addr);; mret addr
                        else mret (ind ip));
                 bmap_entry addr bn) s.
Proof.
  intros Hbn Hip Hdev. unfold bmap. run_by (unfold inode_get, gets; reflexivity).
  rewrite Hip, Hdev. rewrite (proj2 (Z.ltb_ge _ _)) by lia.
  rewrite (proj2 (Z.ltb_lt _ _)) by (unfold MAXFILE in Hbn; lia).
  run_by (unfold inode_get, gets; reflexivity). rewrite Hip. fold (ind ip). reflexivity.
Qed.

Lemma bmap_run lg sb i s D bl T ip bn :
  ftx lg sb i s D bl T ip → 0 <= bn < MAXFILE →
  (length bl < NBUF)%nat →
  (slot D ip bn = 0 → Z.of_nat (length T + no_ind ip) + 1 < budget lg ∧ (no_ind ip < nfree sb D)%nat) →
  ∃ s' D' bl' T' ip', bmap i bn s = Done (slot D' ip' bn) s' ∧ bmapped lg sb i s D T ip bn s' D' bl' T' ip'.
Proof.
  intros Hft Hbn Hroom Halloc. pose proof (ftx_inode _ _ _ _ _ _ _ _ Hft) as Hip.
  pose proof (ft_dev _ _ _ _ _ _ _ _ Hft) as Hdev.
  destruct (decide (slot D ip bn = 0)) as [Hs|Hs].
  - destruct (Halloc Hs) as [Hbud Hfree]. unfold no_ind in Hbud, Hfree.
    destruct (decide (bn < NDIRECT)) as [Hlt|Hge].
    + destruct (alloc_direct_run lg sb i s D bl T ip bn Hft) as (b & s' & bl' & Hr & Es & Ei & Hg); [lia|done|lia|lia|].
      eexists s', _, bl', _, _. split; [|eapply grown_bmapped; [|exact Hg]; unfold no_ind; by rewrite Ei].
      unfold bmap. run_by (unfold inode_get, gets; reflexivity). rewrite Hip, Hdev, (proj2 (Z.ltb_lt _ _) Hlt).
      run_by (unfold inode_get, gets; reflexivity). rewrite Hip, <- (slot_direct D), Hs, Z.eqb_refl by done. by rewrite Hr, Es.
    + rewrite (bmap_indirect i bn s ip) by (done || lia). destruct (Z.eqb_spec (ind ip) 0) as [Hi|Hi].
      * destruct (alloc_ind_run lg sb i s D bl T ip Hft Hi) as (b & s1 & bl1 & Hr1 & Eb & Hnz & Hg1); [lia|lia|].
        run_by (exact Hr1). set (ip1 := set_i_addr _ _ _) in *. set (D1 := fresh sb b D) in *.
        pose proof (gr_grow _ _ _ _ _ _ _ _ _ _ _ _ _ _ Hg1) as Hgr.
        assert (Hs1 : slot D1 ip1 bn = 0).
        { pose proof (ft_disk _ _ _ _ _ _ _ _ Hft) as Hd. rewrite slot_indirect, Eb, (proj2 (Z.eqb_neq _ _) Hnz) by lia.
          unfold D1. rewrite fresh_same. apply get32_zeros. }
        destruct (alloc_entry_run lg sb i s1 D1 bl1 (T ++ [b]) ip1 bn) as (s2 & D2 & bl2 & T2 & Hr2 & Hg2);
          [apply Hg1|lia|by rewrite Eb|done|rewrite length_app; simpl; lia| |].
        { pose proof (gr_free _ _ _ _ _ _ _ _ _ _ _ _ _ _ Hg1). lia. }
        rewrite Eb in Hr2. exists s2, D2, bl2, T2, ip1. split; [exact Hr2|].
        eapply grown_trans; [exact Hft| | |exact Hg1|exact Hg2]; unfold no_ind; [by rewrite Hi|].
        rewrite Eb. by rewrite (proj2 (Z.eqb_neq _ _) Hnz).
      * run_by (done). destruct (alloc_entry_run lg sb i s D bl T ip bn Hft) as (s2 & D2 & bl2 & T2 & Hr2 & Hg2);
          [lia|done|done|lia|lia|]. exists s2, D2, bl2, T2, ip. split; [exact Hr2|]. by eapply grown_bmapped.
  - destruct (bmap_found lg s D bl i ip bn) as (s' & Hr & Ht & Hf); try done; [apply Hft|].
    exists s', D, bl, (T ++ [slot D ip bn]), ip. split; [exact Hr|]. split.
    + apply (ftx_more _ _ _ _ _ _ T); [set_solver|]. by eapply ftx_lframe.
    + apply fgrow_refl.
    + done.
    + set_solver.
    + rewrite length_app. simpl. lia.
    + lia.
    + by apply lframe_fframe.
    + rewrite (lframe_itable _ _ Hf). symmetry. apply list_insert_id, Hft.
Qed.
End bmap.
