(* ===== verification/FsRead.v ===== *)
(** * Reading a file: [readi] of kernel/fs.c

    The bytes of a file, and that [readi] delivers them to its destination. *)

From stdpp Require Import gmap.
From S2P Require Import Prelude Memory Params State Sched Kalloc Vm PageTable VmMap Uvm UvmAlloc UvmCopy Console.
From S2P Require Import Block Bio BioSpec Log LogCommit LogOps Fs Tx FsAlloc FsFile.

Implicit Types (s : kst) (D : Z → list Z) (bl T : list Z) (lg : region) (sb : superblock) (ip : inode).

(** ** The bytes of a file *)

Definition fbyte D ip (o : Z) : Z := fblk D ip (o / BSIZE) !!! Z.to_nat (o mod BSIZE).
Definition fbytes D ip (off n : Z) : list Z := map (λ j, fbyte D ip (off + j)) (seqZ 0 n).

Lemma length_fbytes D ip off n : 0 <= n → length (fbytes D ip off n) = Z.to_nat n.
Proof. intros Hn. unfold fbytes. by rewrite length_map, length_seqZ. Qed.

Lemma lookup_fbytes D ip off n (j : nat) : Z.of_nat j < n → fbytes D ip off n !! j = Some (fbyte D ip (off + Z.of_nat j)).
Proof.
  intros Hj. unfold fbytes. rewrite list_lookup_fmap, lookup_seqZ_lt by lia. done.
Qed.

Lemma fbytes_app D ip off n m : 0 <= n → 0 <= m → fbytes D ip off (n + m) = fbytes D ip off n ++ fbytes D ip (off + n) m.
Proof.
  intros Hn Hm. apply list_eq. intros j. destruct (decide (Z.of_nat j < n)) as [H1|H1].
  - rewrite lookup_app_l by (rewrite length_fbytes; lia). by rewrite !lookup_fbytes by lia.
  - rewrite lookup_app_r by (rewrite length_fbytes; lia). rewrite length_fbytes by lia.
    destruct (decide (Z.of_nat j < n + m)) as [H2|H2].
    + rewrite !lookup_fbytes by lia. f_equal. f_equal. lia.
    + rewrite !lookup_ge_None_2; [done|rewrite length_fbytes; lia..].
Qed.

Lemma fblk_length lg sb D ip k : disk_ok lg sb D → length (fblk D ip k) = Z.to_nat BSIZE.
Proof. intros Hd. unfold fblk, zeros. case_match; [apply length_replicate|apply Hd]. Qed.

Lemma BSIZE_pos : 0 < BSIZE.
Proof. by compute. Qed.

(** An offset inside the block of [off]. *)
Lemma block_split off j : 0 <= off → 0 <= j < BSIZE - off mod BSIZE →
  (off + j) / BSIZE = off / BSIZE ∧ (off + j) mod BSIZE = off mod BSIZE + j.
Proof.
  intros Ho Hj. pose proof BSIZE_pos. pose proof (Z.div_mod off BSIZE ltac:(lia)). pose proof (Z.mod_pos_bound off BSIZE ltac:(lia)).
  assert (E : off + j = BSIZE * (off / BSIZE) + (off mod BSIZE + j)) by lia.
  split; [symmetry; apply (Z.div_unique _ _ _ (off mod BSIZE + j))|symmetry; apply (Z.mod_unique _ _ (off / BSIZE))]; lia.
Qed.

(** The piece of block [off/BSIZE] that an iteration copies. *)
Lemma fbytes_chunk lg sb D ip off m : disk_ok lg sb D → 0 <= off → 0 <= m <= BSIZE - off mod BSIZE →
  take (Z.to_nat m) (drop (Z.to_nat (off mod BSIZE)) (fblk D ip (off / BSIZE))) = fbytes D ip off m.
Proof.
  intros Hd Ho Hm. pose proof BSIZE_pos. pose proof (Z.mod_pos_bound off BSIZE ltac:(lia)).
  pose proof (fblk_length lg sb D ip (off / BSIZE) Hd) as Hl.
  apply list_eq. intros j. destruct (decide (Z.of_nat j < m)) as [Hj|Hj].
  - rewrite lookup_fbytes, lookup_take_lt, lookup_drop by lia. unfold fbyte.
    destruct (block_split off (Z.of_nat j)) as [-> ->]; [lia..|].
    rewrite (list_lookup_lookup_total_lt (fblk D ip (off / BSIZE))) by lia. f_equal. f_equal. lia.
  - rewrite lookup_take_ge by lia. rewrite lookup_ge_None_2; [done|rewrite length_fbytes; lia].
Qed.

(** ** The loop over the blocks *)

(** The number of blocks that the bytes [off, off+n) touch. *)
Definition nblocks (off n : Z) : Z := (off + n + BSIZE - 1) / BSIZE - off / BSIZE.

Lemma nblocks_pos off n : 0 <= off → 0 < n → 0 < nblocks off n.
Proof.
  intros Ho Hn. unfold nblocks. pose proof BSIZE_pos.
  assert (off / BSIZE + 1 <= (off + n + BSIZE - 1) / BSIZE); [|lia].
  apply Z.div_le_lower_bound; [lia|]. pose proof (Z.mul_div_le off BSIZE ltac:(lia)). lia.
Qed.

Lemma nblocks_fuel off n : 0 <= off → 0 <= n → nblocks off n <= Z.of_nat (io_fuel n).
Proof.
  intros Ho Hn. unfold nblocks, io_fuel, BSIZE.
  pose proof (Z.div_pos n 1024). rewrite Z2Nat.id by lia.
  pose proof (Z.div_mod off 1024). pose proof (Z.mod_pos_bound off 1024).
  pose proof (Z.div_mod n 1024). pose proof (Z.mod_pos_bound n 1024).
  assert ((off + n + 1024 - 1) / 1024 <= off / 1024 + n / 1024 + 2); [|lia].
  apply Z.lt_succ_r, Z.div_lt_upper_bound; lia.
Qed.

(** An iteration of the loops copies something, stays in its block, and ends the
    loop or the block. *)
Lemma io_chunk_spec n tot off : 0 <= off → 0 <= tot < n →
  let m := io_chunk n tot off in
  0 < m <= n - tot ∧ m <= BSIZE - off mod BSIZE ∧
  (tot + m = n ∨ nblocks (off + m) (n - (tot + m)) = nblocks off (n - tot) - 1).
Proof.
  intros Ho Ht. unfold io_chunk. pose proof BSIZE_pos. pose proof (Z.mod_pos_bound off BSIZE ltac:(lia)).
  pose proof (Z.div_mod off BSIZE ltac:(lia)). cbv zeta.
  destruct (Z.min_spec (n - tot) (BSIZE - off mod BSIZE)) as [[? ->]|[? ->]]; (split; [lia|split; [lia|]]); [by left; lia|right].
  unfold nblocks. replace (off + (BSIZE - off mod BSIZE)) with ((off / BSIZE + 1) * BSIZE) by lia.
  rewrite Z.div_mul by lia. replace ((off / BSIZE + 1) * BSIZE + (n - (tot + (BSIZE - off mod BSIZE))) + BSIZE - 1)
    with (off + (n - tot) + BSIZE - 1) by lia. lia.
Qed.

Lemma nblocks_nonneg off n : 0 <= off → 0 <= n → 0 <= nblocks off n.
Proof.
  intros Ho Hn. unfold nblocks. pose proof BSIZE_pos.
  assert (off / BSIZE <= (off + n + BSIZE - 1) / BSIZE) by (apply Z.div_le_mono; lia). lia.
Qed.

(** ** Where the bytes go *)

Definition dst_at (dst : iodst) (t : Z) : iodst :=
  match dst with DUser va => DUser (u64 (va + t)) | DKernel a => DKernel (a + t) | DLocal => DLocal end.

Lemma dst_add_at dst t m : dst_add (dst_at dst t) m = dst_at dst (t + m).
Proof.
  destruct dst; simpl; [|by rewrite Z.add_assoc|done]. f_equal. unfold u64. rewrite Zplus_mod_idemp_l. f_equal. lia.
Qed.

(** What [readi] needs of its destination: [J t] holds when the first [t] bytes
    of [want] have been delivered, [E] when a copy failed; work on blocks
    disturbs neither. *)
Record sink (dst : iodst) (want : list Z) (J : Z → kst → Prop) (E : kst → Prop) : Prop := {
  sk_frame : ∀ t s s', lframe s s' → J t s → J t s';
  sk_fail : ∀ s s', lframe s s' → E s → E s';
  sk_copy : ∀ t m s src, 0 <= t → 0 < m → t + m <= Z.of_nat (length want) → m <= Z.of_nat (length src) →
    take (Z.to_nat m) src = take (Z.to_nat m) (drop (Z.to_nat t) want) → J t s →
    ∃ r s', either_copyout (dst_at dst t) src m s = Done r s' ∧ s' = set_mem (k_mem s') s ∧
      (r = 0 ∧ J (t + m) s' ∨ r = -1 ∧ E s');
}.

(** Frames of a computation that also writes to memory. *)
Definition mframe s s' : Prop := lframe (set_mem (k_mem s') s) s'.

Lemma lframe_set_mem ms s s' : lframe s s' → lframe (set_mem ms s) (set_mem ms s').
Proof. intros [El L P]. split; [|exact L|exact P]. rewrite El at 1. done. Qed.

Lemma lframe_mframe s s' : lframe s s' → mframe s s'.
Proof. intros Hf. unfold mframe. rewrite (lframe_mem _ _ Hf). by destruct s. Qed.

Lemma mframe_trans s1 s2 s3 : mframe s1 s2 → mframe s2 s3 → mframe s1 s3.
Proof. unfold mframe. intros H1 H2. exact (lframe_trans _ _ _ (lframe_set_mem (k_mem s3) _ _ H1) H2). Qed.

Lemma mframe_mem s s' : s' = set_mem (k_mem s') s → mframe s s'.
Proof. intros El. unfold mframe. rewrite <- El. apply bframe_lframe, bframe_refl. Qed.

#[export] Instance mframe_preorder : PreOrder mframe.
Proof. split; [intros s; apply lframe_mframe; apply bframe_lframe, bframe_refl|exact mframe_trans]. Qed.

Section readi.
Context `{KernelImage} `{DiskRw} `{WaitFuel}.

(** Every block of the file up to its size is there. *)
Definition dense D ip : Prop := ∀ k, 0 <= k → k * BSIZE < i_size ip → slot D ip k ≠ 0.

(** What reading keeps and uses. *)
Record reading lg sb i s D bl ip : Prop := {
  rd_tx : tx lg s D bl ∅;
  rd_ip : get_inode s i = ip;
  rd_disk : disk_ok lg sb D;
  rd_dev : i_dev ip = ROOTDEV;
  rd_size : 0 <= i_size ip <= MAXFILE * BSIZE;
  rd_dense : dense D ip;
  rd_room : (length bl < NBUF)%nat;
}.

Lemma reading_lframe lg sb i s s' D bl ip :
  lframe s s' → tx lg s' D bl ∅ → reading lg sb i s D bl ip → reading lg sb i s' D bl ip.
Proof. intros Hf Ht [? Hip ? ? ? ? ?]. split; try done. unfold get_inode in *. by rewrite (lframe_itable _ _ Hf). Qed.

(** One iteration of the loop. *)
Lemma readi_step lg sb dst want J E fuel i s D bl ip off n tot acc :
  sink dst want J E → reading lg sb i s D bl ip → 0 <= tot < n → 0 <= off - tot → off + (n - tot) <= i_size ip →
  want = fbytes D ip (off - tot) n → J tot s →
  let m := io_chunk n tot off in
  ∃ s', reading lg sb i s' D bl ip ∧ mframe s s' ∧
    (readi_loop (S fuel) i (dst_at dst tot) off n tot acc s =
       readi_loop fuel i (dst_at dst (tot + m)) (off + m) n (tot + m) (acc ++ fbytes D ip off m) s' ∧ J (tot + m) s' ∨
     readi_loop (S fuel) i (dst_at dst tot) off n tot acc s = Done (-1, acc) s' ∧ E s').
Proof.
  intros Hsk Hrd Ht Ho Hsz Hw HJ m. pose proof Hrd as [Htx Hip Hd Hdev Hfs Hdense Hroom]. pose proof BSIZE_pos.
  cbn [readi_loop]. rewrite (proj2 (Z.ltb_lt _ _)) by lia. cbn [negb].
  set (k := off / BSIZE). assert (Hk : 0 <= k) by (apply Z.div_pos; lia).
  assert (Hks : k * BSIZE < i_size ip) by (pose proof (Z.mul_div_le off BSIZE ltac:(lia)); unfold k; lia).
  assert (Hkm : k < MAXFILE) by nia. pose proof (Hdense k Hk Hks) as Hs.
  erewrite bind_Done; [|unfold inode_get, gets; reflexivity]. cbv beta. rewrite Hip, Hdev.
  destruct (bmap_found lg s D bl i ip k Htx Hip Hdev Hroom) as (s1 & Hr1 & Ht1 & Hf1); [lia|done|].
  rewrite (bind_Done _ _ _ _ _ Hr1).
  destruct (tx_bread lg s1 D bl ∅ (slot D ip k) Ht1) as (j & s2 & Hr2 & Ht2 & Hf2); [done|rewrite map_size_empty; lia|].
  rewrite (bind_Done _ _ _ _ _ Hr2). erewrite bind_Done; [|unfold buf_get, gets; reflexivity]. cbv beta zeta.
  rewrite (tx_data _ _ _ _ _ (slot D ip k) j Ht2) by apply lookup_insert_eq.
  assert (Eb : D (slot D ip k) = fblk D ip k) by (unfold fblk; by rewrite (proj2 (Z.eqb_neq _ _) Hs)). rewrite Eb.
  destruct (io_chunk_spec n tot off) as (Hm & Hmb & _); [lia..|]. fold m in Hm, Hmb |- *.
  set (src := drop _ _). pose proof (Z.mod_pos_bound off BSIZE ltac:(lia)) as Hmod.
  assert (Hsrc : take (Z.to_nat m) src = fbytes D ip off m) by (apply (fbytes_chunk lg sb); [done|lia|lia]).
  destruct (sk_copy _ _ _ _ Hsk tot m s2 src) as (r & s3 & Hr3 & E3 & Hres); try lia.
  { rewrite Hw, length_fbytes; lia. }
  { unfold src. rewrite length_drop, (fblk_length lg sb) by done. lia. }
  { rewrite Hsrc, Hw. replace n with (tot + (m + (n - tot - m))) by lia. rewrite fbytes_app by lia.
    rewrite drop_app_length' by (rewrite length_fbytes; lia). rewrite fbytes_app by lia.
    rewrite take_app_length' by (rewrite length_fbytes; lia). f_equal. lia. }
  { exact (sk_frame _ _ _ _ Hsk _ _ _ Hf2 (sk_frame _ _ _ _ Hsk _ _ _ Hf1 HJ)). }
  rewrite (bind_Done _ _ _ _ _ Hr3).
  assert (Ht3 : tx lg s3 D bl (<[slot D ip k:=j]> ∅)) by (rewrite E3; by eapply tx_ext; [..|exact Ht2]).
  destruct (tx_done lg s3 _ _ ∅ _ j Ht3) as (s4 & Hr4 & Ht4 & Hf4); [done|]. exists s4. split_and!.
  - split; try done. unfold get_inode. rewrite (lframe_itable _ _ Hf4), E3. cbn [k_itable set_mem].
    rewrite (lframe_itable _ _ Hf2), (lframe_itable _ _ Hf1). exact Hip.
  - etransitivity; [apply lframe_mframe, (lframe_trans _ _ _ Hf1 Hf2)|].
    etransitivity; [apply mframe_mem, E3|]. by apply lframe_mframe.
  - destruct Hres as [[-> HJ3]|[-> HE3]]; [left|right]; cbn [Z.eqb Pos.eqb]; rewrite (bind_Done _ _ _ _ _ Hr4).
    + rewrite dst_add_at, Hsrc. split; [done|]. exact (sk_frame _ _ _ _ Hsk _ _ _ Hf4 HJ3).
    + split; [done|]. exact (sk_fail _ _ _ _ Hsk _ _ Hf4 HE3).
Qed.

Lemma readi_loop_end fuel i dst off n acc s : readi_loop fuel i dst off n n acc s = Done (n, acc) s.
Proof. destruct fuel; cbn [readi_loop]; by rewrite Z.ltb_irrefl. Qed.

Lemma readi_loop_run lg sb dst want J E fuel i s D bl ip off n tot acc :
  sink dst want J E → reading lg sb i s D bl ip → 0 <= tot <= n → 0 <= off - tot → off + (n - tot) <= i_size ip →
  want = fbytes D ip (off - tot) n → (tot < n → nblocks off (n - tot) <= Z.of_nat fuel) → J tot s →
  ∃ r s', readi_loop fuel i (dst_at dst tot) off n tot acc s = Done r s' ∧ reading lg sb i s' D bl ip ∧ mframe s s' ∧
    (r = (n, acc ++ fbytes D ip off (n - tot)) ∧ J n s' ∨ r.1 = -1 ∧ E s').
Proof.
  intros Hsk. revert s off tot acc. induction fuel as [|fuel IH]; intros s off tot acc Hrd Ht Ho Hsz Hw Hfuel HJ;
    (destruct (decide (tot = n)) as [->|Hne];
      [rewrite readi_loop_end; eexists _, s; split_and!; [done..|left]; by rewrite Z.sub_diag, app_nil_r|]).
  - pose proof (nblocks_pos off (n - tot)). lia.
  - destruct (io_chunk_spec n tot off) as (Hm & _ & Hnb); [lia..|]. set (m := io_chunk n tot off) in *.
    destruct (readi_step lg sb dst want J E fuel i s D bl ip off n tot acc) as (s1 & Hrd1 & Hf1 & [[-> HJ1]|[-> HE1]]);
      try done; [lia|..].
    + fold m in HJ1 |- *. destruct (IH s1 (off + m) (tot + m) (acc ++ fbytes D ip off m)) as (r & s' & Hrun & Hrd' & Hf' & Hcase);
        [done|lia|lia|lia|rewrite Hw; f_equal; lia|intros Hlt; lia|done|].
      exists r, s'. split_and!; [exact Hrun|done|by etransitivity|]. destruct Hcase as [[-> ?]|?]; [left|by right].
      split; [|done]. f_equal. rewrite <- app_assoc. f_equal. replace (n - tot) with (m + (n - (tot + m))) by lia.
      by rewrite fbytes_app by lia.
    + eexists _, s1. split_and!; [done..|by right].
Qed.

(** [readi] of a range: what the file has of it. *)
Lemma readi_run lg sb dst J E i s D bl ip off n :
  reading lg sb i s D bl ip → 0 <= off <= i_size ip → 0 <= n → off + n < 2 ^ 32 →
  let k := Z.min n (i_size ip - off) in
  sink dst (fbytes D ip off k) J E → J 0 s → dst = dst_at dst 0 →
  ∃ r s', readi i dst off n s = Done r s' ∧ reading lg sb i s' D bl ip ∧ mframe s s' ∧
    (r = (k, fbytes D ip off k) ∧ J k s' ∨ r.1 = -1 ∧ E s').
Proof.
  intros Hrd Ho Hn Hov k Hsk HJ Hdst. unfold readi. run_by (unfold inode_get, gets; reflexivity).
  rewrite (rd_ip _ _ _ _ _ _ _ Hrd), u32_small by lia. rewrite (proj2 (orb_false_iff _ _)) by (rewrite Z.gtb_ltb; split; apply Z.ltb_ge; lia).
  assert (Ek : (if off + n >? i_size ip then i_size ip - off else n) = k)
    by (unfold k; rewrite Z.gtb_ltb; destruct (Z.ltb_spec (i_size ip) (off + n)); lia).
  rewrite Ek, Hdst. destruct (readi_loop_run lg sb dst _ J E (io_fuel k) i s D bl ip off k 0 [] Hsk Hrd) as (r & s' & Hrun & Hrd' & Hf & Hc);
    [lia|lia|lia|by rewrite Z.sub_0_r|rewrite Z.sub_0_r; intros _; apply nblocks_fuel; lia|done|].
  exists r, s'. rewrite Z.sub_0_r in Hc. done.
Qed.
End readi.

(** ** Destinations *)

Lemma lframe_cur s s' : lframe s s' → ps_cur (k_proc s') = ps_cur (k_proc s).
Proof. intros Hf. exact (bframe_cur _ _ Hf). Qed.

Lemma lframe_pagetable s s' :
  lframe s s' → p_pagetable (get_proc s' (ps_cur (k_proc s))) = p_pagetable (get_proc s (ps_cur (k_proc s))).
Proof. intros Hf. destruct (bf_procs _ _ Hf (ps_cur (k_proc s))) as [->|(? & _ & ->)]; done. Qed.

Section sinks.
Context `{KernelImage} `{DiskRw} `{WaitFuel}.

Lemma local_sink want : sink DLocal want (λ _ _, True) (λ _, False).
Proof.
  split; try done. intros t m s src _ _ _ _ _ _. exists 0, s. unfold either_copyout. run_by (unfold myproc, gets; reflexivity).
  split_and!; [done|by destruct s|by left].
Qed.

(** The first [t] bytes of [want] are at [va] of the address space [root], which
    is the one of the current process. *)
Record delivered s fl own root va (want : list Z) (t : Z) s' : Prop := {
  dl_cur : ps_cur (k_proc s') = ps_cur (k_proc s);
  dl_pt : p_pagetable (get_proc s' (ps_cur (k_proc s))) = root;
  dl_held : k_held s' = [];
  dl_step : ustep s fl own (set_mem (k_mem s') s) fl own (poke (uview (get_mem s)) root va want t);
  dl_access : ∀ a, va <= a < va + t → uaccess (get_mem s) root a = true;
}.

(** [copyout] stopped at a byte that the user may not access. *)
Definition faulted s fl own root va (want : list Z) s' : Prop :=
  ∃ j, 0 <= j < Z.of_nat (length want) ∧ delivered s fl own root va want j s' ∧ uaccess (get_mem s) root (va + j) = false.

Lemma delivered_frame s fl own root va want t s1 s2 :
  lframe s1 s2 → delivered s fl own root va want t s1 → delivered s fl own root va want t s2.
Proof.
  intros Hf [Hc Hp Hh Hs Ha]. split.
  - by rewrite (lframe_cur _ _ Hf).
  - rewrite <- Hc, (lframe_pagetable _ _ Hf), Hc. exact Hp.
  - by rewrite (lframe_held _ _ Hf).
  - by rewrite (lframe_mem _ _ Hf).
  - exact Ha.
Qed.

Lemma user_sink s fl own root va want :
  uroot s own root → k_held s = [] → 0 <= va → va + Z.of_nat (length want) <= 2 ^ 64 →
  sink (DUser va) want (delivered s fl own root va want) (faulted s fl own root va want).
Proof.
  intros Hr Hh Hva Hhi. split.
  - intros t s1 s2. apply delivered_frame.
  - intros s1 s2 Hf (j & Hj & Hd & Hu). exists j. split_and!; [lia..| |done]. by eapply delivered_frame.
  - intros t m s1 src Ht Hm Hlen Hsrc Heq [Hc Hp Hh1 Hs Ha]. set (s0 := set_mem (k_mem s1) s) in *.
    assert (Hok : uvm_ok s1 fl own) by (eapply uvm_ok_state; [| |apply Hs]; [done|rewrite Hh1; set_solver]).
    assert (Hr0 : uroot s0 own root) by (by eapply ustep_uroot).
    assert (Hr1 : uroot s1 own root) by (by rewrite (uroot_state s0)).
    unfold either_copyout. run_by (unfold myproc, gets; reflexivity). cbn [dst_at].
    run_by (unfold proc_get, gets; reflexivity). rewrite Hc, Hp, u64_small by lia.
    destruct (copyout_run s1 fl own root (va + t) src m Hok Hr1) as (r & s2 & k & Hrun & Hk & Hst & Hacc & Hcase); [lia..|].
    pose proof (us_mem _ _ _ _ _ _ _ Hst) as Hmo. apply mem_only_set in Hmo.
    exists r, s2. split_and!; [exact Hrun|exact Hmo|].
    apply (ustep_state s0) in Hst; [|done|change (k_held s0) with (k_held s); rewrite Hh; set_solver].
    assert (Hd : delivered s fl own root va want (t + k) s2).
    { split.
      - by rewrite Hmo.
      - rewrite Hmo. exact Hp.
      - by rewrite Hmo.
      - change (set_mem (k_mem s2) s) with (set_mem (k_mem s2) s0). eapply ustep_poke_more; [exact Hs|exact Hst|lia|lia|].
        intros j Hj. apply (f_equal (λ l, l !!! j)) in Heq. rewrite !list_lookup_total_alt in *.
        rewrite !lookup_take_lt in Heq by lia. exact Heq.
      - intros a Hva'. destruct (decide (a < va + t)); [apply Ha; lia|]. rewrite <- (Hacc a) by lia.
        symmetry. change (get_mem s1) with (get_mem s0). by apply (uaccess_poke _ _ _ _ _ _ _ _ _ _ _ _ Hs); [|lia]. }
    destruct Hcase as [[-> ->]|(-> & Hlt & Hu)]; [by left|right; split; [done|]]. exists (t + k).
    split_and!; [lia|lia|done|]. rewrite <- Hu, Z.add_assoc. symmetry. change (get_mem s1) with (get_mem s0).
    apply (uaccess_poke _ _ _ _ _ _ _ _ _ _ _ _ Hs); [done|lia].
Qed.

(** C12: [readi] to user memory at [va] stores there exactly the bytes of the
    file from [off] on, [n] of them or as many as the file has, and returns
    their number; if the user may not access one of these addresses it returns
    -1, having stored the bytes before the first such address.  The blocks,
    the table of inodes and all else but these bytes, the buffer cache and the
    processes that wait for it are as before. *)
Theorem readi_spec lg sb i s D bl ip off n fl own root va :
  reading lg sb i s D bl ip → 0 <= off <= i_size ip → 0 <= n → off + n < 2 ^ 32 →
  uvm_ok s fl own → uroot s own root → p_pagetable (get_proc s (ps_cur (k_proc s))) = root →
  0 <= va → va + n < 2 ^ 64 →
  let k := Z.min n (i_size ip - off) in
  let want := fbytes D ip off k in
  ∃ r s', readi i (DUser va) off n s = Done r s' ∧ tx lg s' D bl ∅ ∧ mframe s s' ∧ k_itable s' = k_itable s ∧
    (r.1 = k ∧ delivered s fl own root va want k s' ∨ r.1 = -1 ∧ faulted s fl own root va want s').
Proof.
  intros Hrd Ho Hn Hov Hok Hr Hp Hva Hhi k want.
  assert (Hl : Z.of_nat (length want) = k) by (unfold want; rewrite length_fbytes; lia).
  pose proof (tx_held _ _ _ _ _ (rd_tx _ _ _ _ _ _ _ Hrd)) as Hh.
  destruct (readi_run lg sb (DUser va) (delivered s fl own root va want) (faulted s fl own root va want)
    i s D bl ip off n Hrd Ho Hn Hov) as (r & s' & Hrun & Hrd' & Hf & Hc).
  - apply user_sink; [done|done|lia|]. fold k want. lia.
  - split; try done; [|lia]. replace (set_mem (k_mem s) s) with s by (by destruct s). by apply ustep_poke_0.
  - simpl. by rewrite Z.add_0_r, u64_small by lia.
  - exists r, s'. split_and!; [exact Hrun|apply Hrd'|done|exact (lframe_itable _ _ Hf)|]. fold k want in Hc.
    destruct Hc as [[-> ?]|?]; [by left|by right].
Qed.
End sinks.
