(* ===== verification/FsWrite.v ===== *)
(** * Writing a file: [writei] of kernel/fs.c

    [writei] replaces a range of the bytes of a file, appends to it and
    allocates what it needs, and leaves every other file alone. *)

From stdpp Require Import gmap.
From S2P Require Import Prelude Memory Params State Sched Kalloc Vm PageTable VmMap Uvm UvmAlloc UvmCopy Console.
From S2P Require Import Block Bio BioSpec Log LogCommit LogOps Fs Tx FsAlloc FsInode FsFile FsRead.

Implicit Types (s : kst) (D : Z → list Z) (bl T : list Z) (lg : region) (sb : superblock) (ip : inode).

(** ** Where the bytes come from *)

Definition src_at (src : iosrc) (t : Z) : iosrc :=
  match src with SUser va => SUser (u64 (va + t)) | SLocal l => SLocal (drop (Z.to_nat t) l) end.

Lemma src_add_at src t m : 0 <= t → 0 <= m → src_add (src_at src t) m = src_at src (t + m).
Proof.
  intros Ht Hm. destruct src; simpl; f_equal.
  - unfold u64. rewrite Zplus_mod_idemp_l. f_equal. lia.
  - rewrite drop_drop. f_equal. lia.
Qed.

(** What [writei] needs of its source: the bytes [bs] can be read there, piece by
    piece, and work on blocks and inodes does not change this. *)
Record source (src : iosrc) (bs : list Z) (J : kst → Prop) : Prop := {
  so_frame : ∀ s s', fframe s s' → J s → J s';
  so_copy : ∀ t m s, 0 <= t → 0 <= m → t + m <= Z.of_nat (length bs) → J s →
    either_copyin (src_at src t) m s = Done (0, take (Z.to_nat m) (drop (Z.to_nat t) bs)) s;
}.

Lemma local_source bs : source (SLocal bs) bs (λ _, True).
Proof. split; [done|]. intros t m s _ _ _ _. unfold either_copyin. by run_by (unfold myproc, gets; reflexivity). Qed.

(** The bytes at [va] of the address space [root] of the current process. *)
Record user_bytes `{KernelImage} s root va (bs : list Z) : Prop := {
  ub_ok : ∃ fl own, uvm_ok s fl own ∧ uroot s own root;
  ub_pt : p_pagetable (get_proc s (ps_cur (k_proc s))) = root;
  ub_held : k_held s = [];
  ub_range : 0 <= va ∧ va + Z.of_nat (length bs) < 2 ^ 64;
  ub_bytes : uholds (get_mem s) root va bs;
  ub_access : ∀ a, va <= a < va + Z.of_nat (length bs) → uaccess (get_mem s) root a = true;
}.

Section user_source.
Context `{KernelImage}.

Lemma uholds_det m root va bs bs' : uholds m root va bs → uholds m root va bs' → length bs = length bs' → bs = bs'.
Proof.
  intros H1 H2 Hl. apply list_eq. intros j. destruct (bs !! j) as [b|] eqn:E1, (bs' !! j) as [b'|] eqn:E2; try done.
  - pose proof (H1 _ _ E1). pose proof (H2 _ _ E2). congruence.
  - apply lookup_lt_Some in E1. apply lookup_ge_None in E2. lia.
  - apply lookup_ge_None in E1. apply lookup_lt_Some in E2. lia.
Qed.

Lemma uholds_piece m root va bs (t k : nat) : uholds m root va bs → uholds m root (va + Z.of_nat t) (take k (drop t bs)).
Proof.
  intros Hb j b Hj. apply lookup_take_Some in Hj as [Hj _]. rewrite lookup_drop in Hj. pose proof (Hb _ _ Hj) as E.
  rewrite <- E. f_equal. lia.
Qed.

Lemma user_source root va bs : source (SUser va) bs (λ s, user_bytes s root va bs).
Proof.
  split.
  - intros s s' Hf [(fl & own & Hok & Hr) Hp Hh Hva Hb Ha]. pose proof (fframe_mem _ _ Hf) as Em.
    assert (Ec : ps_cur (k_proc s') = ps_cur (k_proc s)) by exact (lframe_cur _ _ Hf).
    assert (Eh : k_held s' = []) by (rewrite <- Hh; exact (lframe_held _ _ Hf)).
    split; unfold get_mem; rewrite ?Em, ?Ec; try done.
    + exists fl, own. split; [eapply uvm_ok_state; [exact Em|rewrite Eh; set_solver|exact Hok]|by rewrite (uroot_state s)].
    + rewrite <- Hp. exact (lframe_pagetable _ _ Hf).
  - intros t m s Ht Hm Hlen [(fl & own & Hok & Hr) Hp Hh [Hva Hhi] Hb Ha].
    unfold either_copyin. run_by (unfold myproc, gets; reflexivity). cbn [src_at].
    run_by (unfold proc_get, gets; reflexivity). rewrite Hp, u64_small by lia.
    destruct (copyin_run s fl own root (va + t) m Hok Hr) as (r & cs & Hrun & Hc & Hcase); [lia..|].
    destruct Hcase as [[-> Hl]|(-> & Hl & Hu)]; [|by rewrite Ha in Hu by lia].
    rewrite Hrun. do 2 f_equal. eapply uholds_det; [exact Hc| |].
    + replace t with (Z.of_nat (Z.to_nat t)) at 1 by lia. by apply uholds_piece.
    + rewrite length_take, length_drop. lia.
Qed.
End user_source.

(** ** Writing a block of the file *)

(** The bytes [off, off + length bs) of the file were replaced by [bs]. *)
Definition wrote D ip D' ip' (off : Z) (bs : list Z) : Prop :=
  ∀ o, 0 <= o < MAXFILE * BSIZE →
    fbyte D' ip' o = if decide (off <= o < off + Z.of_nat (length bs)) then bs !!! Z.to_nat (o - off) else fbyte D ip o.

Section put.
Context {lg sb D ip} {k : Z}.
Context (Hd : disk_ok lg sb D) (Hf : file_ok sb D ip) (Hk : 0 <= k < MAXFILE) (Hs : slot D ip k ≠ 0).

Lemma put_is_slot : is_slot k.
Proof. unfold is_slot. lia. Qed.

Lemma put_block : data_block sb (slot D ip k) ∧ allocated sb D (slot D ip k) = true.
Proof. apply (fo_block _ _ _ Hf); [apply put_is_slot|done]. Qed.

(** A data block is not the indirect block. *)
Lemma put_not_ind : slot D ip k ≠ ind ip.
Proof.
  rewrite <- (slot_ind D). intros E. apply (fo_inj _ _ _ Hf) in E; [lia|apply put_is_slot| |done].
  unfold is_slot. pose proof maxfile_direct. unfold NDIRECT in *. lia.
Qed.

Context {d : list Z}.
Let D' := upd (slot D ip k) d D.

Lemma put_slot j : slot D' ip j = slot D ip j.
Proof. apply slot_ext. intros _. apply upd_ne. intros E. by apply put_not_ind. Qed.

Lemma put_allocated x : 0 <= x < sb_size sb → allocated sb D' x = allocated sb D x.
Proof. intros Hx. eapply allocated_data; [apply Hd|apply put_block|done]. Qed.

Lemma put_disk_ok : length d = Z.to_nat BSIZE → disk_ok lg sb D'.
Proof. intros Hl. apply disk_ok_data; [done|apply put_block|done]. Qed.

Lemma put_file_ok : file_ok sb D' ip.
Proof.
  split; [apply Hf| |].
  - intros j Hj. rewrite put_slot. intros Hs'. destruct (fo_block _ _ _ Hf j Hj Hs') as [Hb Ha]. split; [done|].
    rewrite put_allocated; [done|]. pose proof (data_nonzero lg sb _ (dk_layout _ _ _ Hd) Hb). lia.
  - intros j j' Hj Hj'. rewrite !put_slot. by apply Hf.
Qed.

Lemma put_keep : fkeep sb D ip D' ip.
Proof.
  destruct put_block as [Hb _]. split.
  - by destruct ip.
  - intros j _ _. apply put_slot.
  - intros j _ Hne. by rewrite put_slot in Hne.
  - intros x Hx. apply upd_ne. pose proof (nbitmap_pos (dk_layout _ _ _ Hd)). unfold data_block, data_start in Hb. lia.
  - intros x _ _ Hns. apply upd_ne. intros ->. by apply (Hns k put_is_slot).
  - intros x Hx. by rewrite put_allocated.
Qed.

Lemma put_fblk j : 0 <= j < MAXFILE → fblk D' ip j = if decide (j = k) then d else fblk D ip j.
Proof.
  intros Hj. unfold fblk. rewrite put_slot. destruct (Z.eqb_spec (slot D ip j) 0) as [E|Hne].
  - rewrite decide_False; [done|]. intros ->. done.
  - case_decide as Ej; [subst j; apply upd_eq|]. apply upd_ne. intros E. apply Ej.
    apply (fo_inj _ _ _ Hf); try done; unfold is_slot; lia.
Qed.
End put.

(** Writing the piece [bs] at [off], which lies in one block. *)
Lemma put_wrote lg sb D ip off (bs : list Z) :
  disk_ok lg sb D → file_ok sb D ip → 0 <= off → off / BSIZE < MAXFILE → slot D ip (off / BSIZE) ≠ 0 →
  Z.of_nat (length bs) <= BSIZE - off mod BSIZE →
  let a := slot D ip (off / BSIZE) in
  wrote D ip (upd a (splice (D a) (Z.to_nat (off mod BSIZE)) bs) D) ip off bs.
Proof.
  intros Hd Hf Ho Hk Hs Hbs a o Hor. pose proof BSIZE_pos. pose proof (Z.mod_pos_bound off BSIZE ltac:(lia)).
  pose proof (Z.mod_pos_bound o BSIZE ltac:(lia)). assert (Hk' : 0 <= off / BSIZE < MAXFILE) by (split; [apply Z.div_pos; lia|done]).
  assert (Hfit : (Z.to_nat (off mod BSIZE) + length bs <= length (D a))%nat) by (rewrite (dk_len _ _ _ Hd); lia).
  assert (Ho' : 0 <= o / BSIZE < MAXFILE) by (split; [apply Z.div_pos; lia|apply Z.div_lt_upper_bound; lia]).
  unfold fbyte, a. rewrite (put_fblk Hf Hk' Hs) by done. fold a.
  pose proof (Z.div_mod o BSIZE ltac:(lia)). pose proof (Z.div_mod off BSIZE ltac:(lia)).
  destruct (decide (o / BSIZE = off / BSIZE)) as [Eb|Hne].
  - rewrite !list_lookup_total_alt, lookup_splice by done.
    assert (Ea : fblk D ip (o / BSIZE) = D a) by (unfold fblk; rewrite Eb; by rewrite (proj2 (Z.eqb_neq _ _) Hs)).
    rewrite Ea. rewrite Eb in *. destruct (decide (off <= o < off + Z.of_nat (length bs))) as [Hin|Hout].
    + rewrite decide_True by lia. do 2 f_equal. lia.
    + by rewrite decide_False by lia.
  - rewrite decide_False; [done|]. intros Hin. apply Hne.
    destruct (block_split off (o - off)) as [E _]; [lia..|]. by rewrite Z.add_sub_assoc, Z.add_simpl_l in E.
Qed.

Lemma wrote_nil D ip D' ip' off : (∀ k, 0 <= k < MAXFILE → fblk D' ip' k = fblk D ip k) → wrote D ip D' ip' off [].
Proof.
  intros E o Ho. rewrite decide_False by (simpl; lia). unfold fbyte. rewrite E; [done|].
  pose proof BSIZE_pos. split; [apply Z.div_pos; lia|apply Z.div_lt_upper_bound; lia].
Qed.

Lemma wrote_app D1 ip1 D2 ip2 D3 ip3 off (bs cs : list Z) :
  wrote D1 ip1 D2 ip2 off bs → wrote D2 ip2 D3 ip3 (off + Z.of_nat (length bs)) cs → wrote D1 ip1 D3 ip3 off (bs ++ cs).
Proof.
  intros H1 H2 o Ho. rewrite H2, H1 by done. rewrite length_app.
  destruct (decide (off + Z.of_nat (length bs) <= o < off + Z.of_nat (length bs) + Z.of_nat (length cs))) as [Ha|Ha].
  - rewrite decide_True by lia. rewrite !list_lookup_total_alt, lookup_app_r by lia. do 2 f_equal. lia.
  - destruct (decide (off <= o < off + Z.of_nat (length bs))) as [Hb|Hb].
    + rewrite decide_True by lia. rewrite !list_lookup_total_alt, lookup_app_l by lia. done.
    + by rewrite decide_False by lia.
Qed.

(** Blocks that [bmap] allocated do not change the bytes. *)
Lemma fgrow_wrote sb D ip D1 ip1 D2 ip2 off bs :
  fgrow sb D ip D1 ip1 → wrote D1 ip1 D2 ip2 off bs → wrote D ip D2 ip2 off bs.
Proof.
  intros Hg Hw. rewrite <- (app_nil_l bs). eapply wrote_app; [apply wrote_nil, Hg|]. simpl. by rewrite Z.add_0_r.
Qed.

(** ** The loop *)

(** What a part of the loop that writes [bs] at [off] did; [k] bounds the blocks
    it touched. *)
Record wstep `{DiskRw} `{WaitFuel} lg sb (i : nat) s D T ip (off : Z) (bs : list Z) (k : Z) s' D' bl' T' ip' : Prop := {
  ws_ftx : ftx lg sb i s' D' bl' T' ip';
  ws_keep : fkeep sb D ip D' ip';
  ws_wrote : wrote D ip D' ip' off bs;
  ws_dense : ∀ o, off <= o < off + Z.of_nat (length bs) → slot D' ip' (o / BSIZE) ≠ 0;
  ws_T : T ⊆ T';
  ws_cost : Z.of_nat (length T' + no_ind ip') <= Z.of_nat (length T + no_ind ip) + k;
  ws_free : Z.of_nat (nfree sb D + no_ind ip') <= Z.of_nat (nfree sb D' + no_ind ip) + k;
  ws_frame : fframe s s';
  ws_table : k_itable s' = <[i := ip']> (k_itable s);
}.

Section writei.
Context `{KernelImage} `{DiskRw} `{WaitFuel}.

Lemma wstep_refl lg sb i s D bl T ip off : ftx lg sb i s D bl T ip → wstep lg sb i s D T ip off [] 0 s D bl T ip.
Proof.
  intros Hft. split; try done; try lia.
  - apply fkeep_refl.
  - by apply wrote_nil.
  - intros o Ho. simpl in Ho. lia.
  - symmetry. apply list_insert_id, Hft.
Qed.

(** An offset of the file is in one of its blocks. *)
Lemma block_of_slot o : 0 <= o < MAXFILE * BSIZE → 0 <= o / BSIZE < MAXFILE ∧ is_slot (o / BSIZE).
Proof.
  intros Ho. pose proof BSIZE_pos. assert (0 <= o / BSIZE < MAXFILE)
    by (split; [apply Z.div_pos; lia|apply Z.div_lt_upper_bound; lia]). unfold is_slot. split; lia.
Qed.

Lemma wstep_trans lg sb i s D T ip off bs k s1 D1 bl1 T1 ip1 cs k' s2 D2 bl2 T2 ip2 :
  layout lg sb → 0 <= off → off + Z.of_nat (length bs) <= MAXFILE * BSIZE →
  wstep lg sb i s D T ip off bs k s1 D1 bl1 T1 ip1 →
  wstep lg sb i s1 D1 T1 ip1 (off + Z.of_nat (length bs)) cs k' s2 D2 bl2 T2 ip2 →
  wstep lg sb i s D T ip off (bs ++ cs) (k + k') s2 D2 bl2 T2 ip2.
Proof.
  intros Hly Ho Hmax [Hft1 Hk1 Hw1 Hd1 HT1 Hc1 Hf1 Hfr1 Ht1] [Hft2 Hk2 Hw2 Hd2 HT2 Hc2 Hf2 Hfr2 Ht2].
  split; [done|by eapply fkeep_trans|by eapply wrote_app| |set_solver|lia|lia|by etransitivity|].
  - intros o Hr. rewrite length_app in Hr. destruct (decide (o < off + Z.of_nat (length bs))); [|apply Hd2; lia].
    destruct (block_of_slot o) as [_ Hs]; [lia|]. pose proof (Hd1 o ltac:(lia)) as Hne.
    by rewrite (fk_slot _ _ _ _ _ Hk2).
  - rewrite Ht2, Ht1. apply list_insert_insert_eq.
Qed.

(** The block of [off] was mapped and then written. *)
Lemma bmapped_put lg sb i s D T ip off piece s1 D1 bl1 T1 ip1 s2 :
  0 <= off < MAXFILE * BSIZE → Z.of_nat (length piece) <= BSIZE - off mod BSIZE →
  bmapped lg sb i s D T ip (off / BSIZE) s1 D1 bl1 T1 ip1 →
  let a := slot D1 ip1 (off / BSIZE) in
  let D2 := upd a (splice (D1 a) (Z.to_nat (off mod BSIZE)) piece) D1 in
  tx lg s2 D2 (logged bl1 a) ∅ → lframe s1 s2 →
  wstep lg sb i s D T ip off piece 1 s2 D2 (logged bl1 a) T1 ip1.
Proof.
  intros Ho Hp [Hft1 Hg1 Hs1 [HT1 Hin1] Hc1 Hfr1 Hf1 Ht1] a D2 Htx2 Hf.
  destruct (block_of_slot off Ho) as [Hk _]. set (k := off / BSIZE) in *.
  pose proof (ft_disk _ _ _ _ _ _ _ _ Hft1) as Hd1. pose proof (ft_file _ _ _ _ _ _ _ _ Hft1) as Hfo1.
  pose proof (dk_layout _ _ _ Hd1) as Hly. pose proof BSIZE_pos. pose proof (Z.mod_pos_bound off BSIZE ltac:(lia)) as Hmod.
  split; [split| | | | | | | |]; try apply Hft1; try done.
  - rewrite (lframe_sb _ _ Hf). apply Hft1.
  - apply (put_disk_ok Hd1 Hfo1 Hk Hs1). rewrite length_splice; rewrite (dk_len _ _ _ Hd1); lia.
  - rewrite (lframe_itable _ _ Hf). apply Hft1.
  - by apply (put_file_ok Hd1 Hfo1 Hk Hs1).
  - apply logged_subseteq; [apply Hft1|done].
  - eapply fkeep_trans; [exact Hly|apply Hg1|]. by apply (put_keep Hd1 Hfo1 Hk Hs1).
  - eapply fgrow_wrote; [exact Hg1|]. apply (put_wrote lg sb); try done; lia.
  - intros o Hr. destruct (block_split off (o - off)) as [E _]; [lia..|].
    rewrite Z.add_sub_assoc, Z.add_simpl_l in E. rewrite E. fold k. unfold D2. by rewrite (put_slot Hfo1 Hk Hs1).
  - lia.
  - unfold D2. rewrite (nfree_agree sb D1 (upd a _ D1)); [lia|]. intros x Hx. by apply (put_allocated Hd1 Hfo1 Hk Hs1).
  - etransitivity; [exact Hf1|by apply lframe_fframe].
  - by rewrite (lframe_itable _ _ Hf).
Qed.

(** One iteration of the loop. *)
Lemma writei_step lg sb src bs J fuel i s D bl T ip off n tot :
  source src bs J → ftx lg sb i s D bl T ip → J s → n = Z.of_nat (length bs) → 0 <= tot < n → 0 <= off →
  off + (n - tot) <= MAXFILE * BSIZE →
  Z.of_nat (length T + no_ind ip) + 1 < budget lg → (no_ind ip < nfree sb D)%nat →
  let m := io_chunk n tot off in
  ∃ s' D' bl' T' ip',
    writei_loop (S fuel) i (src_at src tot) off n tot s =
      writei_loop fuel i (src_at src (tot + m)) (off + m) n (tot + m) s' ∧
    wstep lg sb i s D T ip off (take (Z.to_nat m) (drop (Z.to_nat tot) bs)) 1 s' D' bl' T' ip' ∧ J s'.
Proof.
  intros Hsrc Hft HJ Hn Ht Ho Hmax Hbud Hfree m. cbn [writei_loop]. rewrite (proj2 (Z.ltb_lt _ _)) by lia. cbn [negb].
  destruct (io_chunk_spec n tot off) as (Hm & Hmb & _); [lia..|]. fold m in Hm, Hmb |- *.
  set (k := off / BSIZE). destruct (block_of_slot off) as [Hk Hks]; [lia|]. fold k in Hk, Hks.
  pose proof BSIZE_pos. pose proof (Z.mod_pos_bound off BSIZE ltac:(lia)) as Hmod. unfold budget in Hbud.
  erewrite bind_Done; [|unfold inode_get, gets; reflexivity]. cbv beta.
  rewrite (ftx_inode _ _ _ _ _ _ _ _ Hft), (ft_dev _ _ _ _ _ _ _ _ Hft).
  pose proof (ftx_length _ _ _ _ _ _ _ _ Hft) as Hlen.
  destruct (bmap_run lg sb i s D bl T ip k Hft Hk) as (s1 & D1 & bl1 & T1 & ip1 & Hr1 & Hb); [lia|unfold budget; lia|].
  rewrite (bind_Done _ _ _ _ _ Hr1). pose proof Hb as [Hft1 _ Hs1 _ Hc1 _ Hf1 _].
  pose proof (ftx_length _ _ _ _ _ _ _ _ Hft1) as Hlen1. set (a := slot D1 ip1 k) in *.
  destruct (tx_bread lg s1 D1 bl1 ∅ a) as (j & s2 & Hr2 & Ht2 & Hf2); [apply Hft1|done|rewrite map_size_empty; lia|].
  rewrite (bind_Done _ _ _ _ _ Hr2). cbv zeta.
  assert (HJ2 : J s2) by (eapply (so_frame _ _ _ Hsrc); [|exact HJ]; etransitivity; [exact Hf1|by apply lframe_fframe]).
  rewrite (bind_Done _ _ _ _ _ (so_copy _ _ _ Hsrc tot m s2 ltac:(lia) ltac:(lia) ltac:(lia) HJ2)). cbn [fst snd].
  set (piece := take _ _). assert (Hp : Z.of_nat (length piece) = m) by (unfold piece; rewrite length_take, length_drop; lia).
  pose proof (ft_file _ _ _ _ _ _ _ _ Hft1) as Hfo1. destruct (put_block Hfo1 Hk Hs1) as [Hdb _]. fold a in Hdb.
  destruct (tx_finish lg s2 D1 bl1 ∅ a j (λ d, splice d (Z.to_nat (off mod BSIZE)) piece) Ht2) as (s3 & s4 & Hr3 & Hr4 & Ht4 & Hf4);
    [done|apply (data_home (dk_layout _ _ _ (ft_disk _ _ _ _ _ _ _ _ Hft1))); done|lia|].
  rewrite (bind_Done _ _ _ _ _ Hr3). change (0 =? -1) with false. cbn iota. rewrite (bind_Done _ _ _ _ _ Hr4).
  destruct (tx_done lg s4 _ _ ∅ a j Ht4) as (s5 & Hr5 & Ht5 & Hf5); [done|]. rewrite (bind_Done _ _ _ _ _ Hr5).
  rewrite src_add_at by lia. assert (Hf : lframe s1 s5) by (eapply lframe_trans; [exact Hf2|]; by eapply lframe_trans).
  eexists s5, _, _, T1, ip1. split; [done|]. split.
  - eapply bmapped_put; [lia|lia|exact Hb|exact Ht5|exact Hf].
  - eapply (so_frame _ _ _ Hsrc); [|exact HJ]. etransitivity; [exact Hf1|by apply lframe_fframe].
Qed.

Lemma writei_loop_end fuel i src off n s : writei_loop fuel i src off n n s = Done (n, off) s.
Proof. destruct fuel; cbn [writei_loop]; by rewrite Z.ltb_irrefl. Qed.

Lemma writei_loop_run lg sb src bs J fuel i s D bl T ip off n tot :
  source src bs J → ftx lg sb i s D bl T ip → J s → n = Z.of_nat (length bs) → 0 <= tot <= n → 0 <= off →
  off + (n - tot) <= MAXFILE * BSIZE →
  let k := if decide (tot < n) then nblocks off (n - tot) else 0 in
  k <= Z.of_nat fuel → Z.of_nat (length T + no_ind ip) + k < budget lg → Z.of_nat (no_ind ip) + k <= Z.of_nat (nfree sb D) →
  ∃ s' D' bl' T' ip', writei_loop fuel i (src_at src tot) off n tot s = Done (n, off + (n - tot)) s' ∧
    wstep lg sb i s D T ip off (drop (Z.to_nat tot) bs) k s' D' bl' T' ip'.
Proof.
  intros Hsrc. revert s D bl T ip off tot. induction fuel as [|fuel IH]; intros s D bl T ip off tot Hft HJ Hn Ht Ho Hmax k Hfuel Hbud Hfree;
    (destruct (decide (tot = n)) as [->|Hne];
      [rewrite writei_loop_end, Z.sub_diag, Z.add_0_r; exists s, D, bl, T, ip; split; [done|];
       unfold k; rewrite decide_False, drop_ge by lia; by apply wstep_refl|]);
    unfold k in *; rewrite decide_True in * by lia; clear k; pose proof (nblocks_pos off (n - tot) ltac:(lia) ltac:(lia)).
  - lia.
  - destruct (io_chunk_spec n tot off) as (Hm & _ & Hnb); [lia..|]. set (m := io_chunk n tot off) in *.
    destruct (writei_step lg sb src bs J fuel i s D bl T ip off n tot) as (s1 & D1 & bl1 & T1 & ip1 & -> & Hw1 & HJ1); try (done || lia).
    fold m in Hw1 |- *. pose proof Hw1 as [Hft1 Hk1 _ _ _ Hc1 Hf1 _ _]. set (piece := take _ _) in *.
    assert (Hp : Z.of_nat (length piece) = m) by (unfold piece; rewrite length_take, length_drop; lia).
    set (k' := if decide (tot + m < n) then nblocks (off + m) (n - (tot + m)) else 0).
    assert (Hk' : 0 <= k' <= nblocks off (n - tot) - 1).
    { unfold k'. case_decide; [|lia]. destruct Hnb as [?|Hnb]; [lia|]. rewrite Hnb. split; [|lia].
      rewrite <- Hnb. apply nblocks_nonneg; lia. }
    destruct (IH s1 D1 bl1 T1 ip1 (off + m) (tot + m)) as (s2 & D2 & bl2 & T2 & ip2 & Hrun & Hw2); fold k'; try (done || lia).
    exists s2, D2, bl2, T2, ip2. split; [rewrite Hrun; do 2 f_equal; lia|].
    assert (Hly : layout lg sb) by (apply Hft). fold k' in Hw2.
    assert (Hw : wstep lg sb i s D T ip off (piece ++ drop (Z.to_nat (tot + m)) bs) (1 + k') s2 D2 bl2 T2 ip2).
    { eapply wstep_trans; [done|lia|lia|exact Hw1|]. by rewrite Hp. }
    assert (El : piece ++ drop (Z.to_nat (tot + m)) bs = drop (Z.to_nat tot) bs).
    { unfold piece. rewrite <- (take_drop (Z.to_nat m) (drop (Z.to_nat tot) bs)) at 2. rewrite drop_drop. do 2 f_equal. lia. }
    rewrite El in Hw. destruct Hw as [? ? ? ? ? ? ? ? ?]. split; try done; lia.
Qed.

(** ** [writei] *)

Definition bitmap_blocks sb : list Z := map (λ k, sb_bmapstart sb + k) (seqZ 0 (nbitmap sb)).

(** The blocks that a write to the file may log beside those of the data. *)
Definition meta_blocks sb ip : list Z :=
  bitmap_blocks sb ++ (if ind ip =? 0 then [] else [ind ip]) ++ [IBLOCK (i_inum ip) sb].

Lemma bitmap_blocks_in lg sb b : layout lg sb → 0 <= b < sb_size sb → BBLOCK b sb ∈ bitmap_blocks sb.
Proof.
  intros Hly Hb. destruct (BBLOCK_eq Hly b Hb) as [-> Hlt]. apply list_elem_of_fmap. exists (b / BPB). split; [done|].
  apply elem_of_seqZ. assert (0 <= b / BPB) by (apply Z.div_pos; [lia|by compute]). lia.
Qed.

Lemma meta_length lg sb ip : layout lg sb → Z.of_nat (length (meta_blocks sb ip) + no_ind ip) = nbitmap sb + 2.
Proof.
  intros Hly. pose proof (nbitmap_pos Hly). unfold meta_blocks, bitmap_blocks, no_ind.
  rewrite !length_app, length_map, length_seqZ. destruct (ind ip =? 0); simpl; lia.
Qed.

(** The state in which a file is written: a transaction that holds no block, and
    entry [i] of the inode table with a well-formed file. *)
Record writing lg sb (i : nat) s D bl ip : Prop := {
  wr_tx : tx lg s D bl ∅;
  wr_sb : k_sb s = sb;
  wr_disk : disk_ok lg sb D;
  wr_ip : k_itable s !! i = Some ip;
  wr_dev : i_dev ip = ROOTDEV;
  wr_inum : 0 <= i_inum ip < sb_ninodes sb;
  wr_wf : inode_wf ip;
  wr_size : i_size ip <= MAXFILE * BSIZE;
  wr_file : file_ok sb D ip;
}.

Lemma writing_ftx lg sb i s D bl ip : writing lg sb i s D bl ip → ftx lg sb i s D bl (bl ++ meta_blocks sb ip) ip.
Proof.
  intros [Ht Hsb Hd Hip Hdev Hi Hw Hz Hf]. split; try done; [set_solver| |].
  - intros b Hb. apply elem_of_app. right. apply elem_of_app. left. eapply bitmap_blocks_in; [apply Hd|done].
  - intros Hne. unfold meta_blocks. rewrite (proj2 (Z.eqb_neq _ _) Hne). set_solver.
Qed.

(** The map has words only. *)
Lemma file_addrs_word lg sb D ip : layout lg sb → file_ok sb D ip → Forall word (i_addrs ip).
Proof.
  intros Hly Hf. apply Forall_lookup. intros k a Hk. pose proof (lookup_lt_Some _ _ _ Hk) as Hlt.
  rewrite (fo_addrs _ _ _ Hf) in Hlt. pose proof (ly_size _ _ Hly).
  assert (Hs : ∃ j, is_slot j ∧ slot D ip j = a).
  { destruct (decide (k = 12%nat)) as [->|Hne].
    - exists MAXFILE. split; [by compute|]. rewrite slot_ind. unfold ind. by apply list_lookup_total_correct.
    - exists (Z.of_nat k). split; [unfold is_slot; change MAXFILE with 268; lia|]. rewrite slot_direct by (unfold NDIRECT; lia).
      rewrite Nat2Z.id. by apply list_lookup_total_correct. }
  destruct Hs as (j & Hj & <-). destruct (decide (slot D ip j = 0)) as [->|Hne]; [by compute|].
  destruct (fo_block _ _ _ Hf j Hj Hne) as [Hb _]. pose proof (data_nonzero lg sb _ Hly Hb). unfold word, BPB, BSIZE in *. lia.
Qed.

(** What [writei] of [bs] at [off] leaves. *)
Record written lg sb (i : nat) s D bl ip (off : Z) (bs : list Z) s' D' bl' ip' : Prop := {
  wt_writing : writing lg sb i s' D' bl' ip';
  wt_ip : ip' = set_i_size (Z.max (i_size ip) (off + Z.of_nat (length bs))) (set_i_addrs (i_addrs ip') ip);
  wt_bytes : wrote D ip D' ip' off bs;
  wt_dense : dense D ip → dense D' ip';
  wt_inode : ∀ ip0, disk_inode sb D' (i_inum ip) ip0 = with_disk ip0 ip';
  wt_inodes : ∀ j ip0, 0 <= j < sb_ninodes sb → j ≠ i_inum ip → disk_inode sb D' j ip0 = disk_inode sb D j ip0;
  wt_other : ∀ x, data_block sb x → allocated sb D x = true → (∀ k, is_slot k → slot D ip k ≠ x) →
    D' x = D x ∧ allocated sb D' x = true;
  wt_logged : Z.of_nat (length bl') <= Z.of_nat (length bl) + nbitmap sb + 2 + nblocks off (Z.of_nat (length bs));
  wt_frame : fframe s s';
  wt_table : k_itable s' = <[i := ip']> (k_itable s);
}.

(** The inode block is not a data block, and not of the bitmap. *)
Lemma iupdated_data lg sb D ip x : disk_ok lg sb D → 0 <= i_inum ip < sb_ninodes sb → sb_bmapstart sb <= x →
  iupdated sb D ip x = D x.
Proof. intros Hd Hi Hx. apply iupdated_block. destruct (IBLOCK_eq (dk_layout _ _ _ Hd) _ Hi). lia. Qed.

Lemma iupdated_slot lg sb D ip0 ip k : disk_ok lg sb D → file_ok sb D ip → 0 <= i_inum ip0 < sb_ninodes sb →
  slot (iupdated sb D ip0) ip k = slot D ip k.
Proof.
  intros Hd Hf Hi. apply slot_ext. intros Hne. eapply iupdated_data; [exact Hd|done|].
  destruct (ind_block Hf Hne) as [Hb _]. pose proof (nbitmap_pos (dk_layout _ _ _ Hd)). unfold data_block, data_start in Hb. lia.
Qed.

Lemma iupdated_file_ok lg sb D ip0 ip : disk_ok lg sb D → file_ok sb D ip → 0 <= i_inum ip0 < sb_ninodes sb →
  file_ok sb (iupdated sb D ip0) ip.
Proof.
  intros Hd Hf Hi. split; [apply Hf| |].
  - intros k Hk. rewrite (iupdated_slot lg) by done. intros Hs. destruct (fo_block _ _ _ Hf k Hk Hs) as [Hb Ha]. split; [done|].
    rewrite (iupdated_allocated Hd); [done|done|]. pose proof (data_nonzero lg sb _ (dk_layout _ _ _ Hd) Hb). lia.
  - intros k k' Hk Hk'. rewrite !(iupdated_slot lg) by done. by apply Hf.
Qed.

Lemma iupdated_fblk lg sb D ip0 ip k : disk_ok lg sb D → file_ok sb D ip → 0 <= i_inum ip0 < sb_ninodes sb → is_slot k →
  fblk (iupdated sb D ip0) ip k = fblk D ip k.
Proof.
  intros Hd Hf Hi Hk. apply fblk_ext; [by eapply iupdated_slot|]. intros Hs. eapply iupdated_data; [exact Hd|done|].
  destruct (fo_block _ _ _ Hf k Hk Hs) as [Hb _]. pose proof (nbitmap_pos (dk_layout _ _ _ Hd)). unfold data_block, data_start in Hb. lia.
Qed.

(** After the loop: the size and the inode on disk. *)
Lemma wstep_written lg sb i s D bl ip off bs s1 D1 bl1 T1 ip1 s2 :
  let n := Z.of_nat (length bs) in
  let k := if decide (0 < n) then nblocks off n else 0 in
  let ip2 := set_i_size (Z.max (i_size ip) (off + n)) ip1 in
  writing lg sb i s D bl ip → 0 <= off <= i_size ip → off + n <= MAXFILE * BSIZE →
  wstep lg sb i s D (bl ++ meta_blocks sb ip) ip off bs k s1 D1 bl1 T1 ip1 →
  tx lg s2 (iupdated sb D1 ip2) (logged bl1 (IBLOCK (i_inum ip) sb)) ∅ → fframe s1 s2 → k_itable s2 = <[i := ip2]> (k_itable s1) →
  written lg sb i s D bl ip off bs s2 (iupdated sb D1 ip2) (logged bl1 (IBLOCK (i_inum ip) sb)) ip2.
Proof.
  intros n k ip2 Hwr Ho Hmax [Hft1 Hk1 Hw1 Hde1 HT1 Hc1 _ Hfr1 Ht1] Htx2 Hf2 Ht2.
  pose proof (ft_disk _ _ _ _ _ _ _ _ Hft1) as Hd1. pose proof (ft_file _ _ _ _ _ _ _ _ Hft1) as Hfo1.
  pose proof (dk_layout _ _ _ Hd1) as Hly. pose proof (wr_inum _ _ _ _ _ _ _ Hwr) as Hi. pose proof (fk_ip _ _ _ _ _ Hk1) as E1.
  assert (Ei : i_inum ip2 = i_inum ip) by (unfold ip2; rewrite E1; done).
  assert (Hi2 : 0 <= i_inum ip2 < sb_ninodes sb) by (by rewrite Ei).
  assert (Hfo2 : file_ok sb D1 ip2) by (by destruct Hfo1; split).
  assert (Hwf2 : inode_wf ip2).
  { destruct (wr_wf _ _ _ _ _ _ _ Hwr). unfold ip2. rewrite E1. split; simpl; try done; [|apply Hfo1|by eapply file_addrs_word].
    unfold word in *. change (MAXFILE * BSIZE) with 274432 in *. lia. }
  pose proof (fframe_sb _ _ Hf2) as Esb. pose proof (ft_ip _ _ _ _ _ _ _ _ Hft1) as Hip1.
  split.
  - split; try done.
    + rewrite Esb. apply Hft1.
    + by apply (iupdated_disk_ok Hd1).
    + rewrite Ht2. apply list_lookup_insert_eq. by eapply lookup_lt_Some.
    + unfold ip2. rewrite E1. apply Hwr.
    + simpl. pose proof (wr_size _ _ _ _ _ _ _ Hwr). lia.
    + by eapply iupdated_file_ok.
  - unfold ip2. rewrite E1. done.
  - intros o Hor. rewrite <- Hw1 by done. unfold fbyte. destruct (block_of_slot o Hor) as [_ Hs].
    by rewrite (iupdated_fblk lg sb D1 ip2 ip2).
  - intros Hdense j Hj Hjs. rewrite (iupdated_slot lg) by done. change (slot D1 ip2 j) with (slot D1 ip1 j).
    simpl in Hjs. pose proof BSIZE_pos. destruct (decide (j * BSIZE < i_size ip)) as [Hlt|Hge].
    + pose proof (Hdense j Hj Hlt) as Hne. rewrite (fk_slot _ _ _ _ _ Hk1); [done| |done].
      pose proof (wr_size _ _ _ _ _ _ _ Hwr). unfold is_slot. nia.
    + rewrite <- (Z.div_mul j BSIZE) by lia. apply Hde1. fold n. lia.
  - intros ip0. rewrite <- Ei. apply (iupdated_same Hd1); [done|lia].
  - intros j ip0 Hj Hne. rewrite (iupdated_other Hd1) by (done || by rewrite Ei). unfold disk_inode.
    destruct (IBLOCK_eq Hly j Hj) as [_ Hr]. by rewrite (fk_low _ _ _ _ _ Hk1) by lia.
  - intros x Hx Ha Hns. pose proof (data_nonzero lg sb x Hly Hx). split.
    + rewrite <- (fk_other _ _ _ _ _ Hk1 x Hx Ha Hns). eapply iupdated_data; [exact Hd1|done|].
      pose proof (nbitmap_pos Hly). unfold data_block, data_start in Hx. lia.
    + rewrite (iupdated_allocated Hd1) by (done || lia). apply (fk_alloc _ _ _ _ _ Hk1); [lia|done].
  - assert (Hin : IBLOCK (i_inum ip) sb ∈ T1) by (apply HT1, elem_of_app; right; unfold meta_blocks; set_solver).
    pose proof (nodup_length _ _ (tx_nodup _ _ _ _ _ Htx2) (logged_subseteq _ _ _ (ft_logged _ _ _ _ _ _ _ _ Hft1) Hin)).
    pose proof (meta_length lg sb ip Hly). rewrite length_app in Hc1. pose proof (nblocks_nonneg off n ltac:(lia) ltac:(lia)).
    fold n. unfold k in Hc1. case_decide; lia.
  - by etransitivity.
  - rewrite Ht2, Ht1. apply list_insert_insert_eq.
Qed.

Lemma put_inode_id i ip s : k_itable s !! i = Some ip → put_inode i ip s = s.
Proof. intros Hi. unfold put_inode. rewrite list_insert_id by done. by destruct s. Qed.

(** C4: [writei] of the bytes [bs] at offset [off].  It returns -1 and changes
    nothing if [off] is beyond the end of the file or the file would get larger
    than [MAXFILE] blocks.  Otherwise, with enough room in the log and enough
    free blocks, it returns the number of bytes and the file has the new bytes
    in this range, its old bytes elsewhere, and the larger of its old size and
    the end of the range as its size; the inode on disk is the one in memory,
    no other inode and no block of another file changes, and the transaction
    has grown by no more than the data blocks, the bitmap, the indirect block
    and the inode block. *)
Theorem writei_spec lg sb src bs J i s D bl ip off :
  let n := Z.of_nat (length bs) in
  source src bs J → J s → src = src_at src 0 → writing lg sb i s D bl ip → 0 <= off → off + n < 2 ^ 32 →
  (Z.of_nat (length bl) + nbitmap sb + 2 + nblocks off n < budget lg) →
  Z.of_nat (no_ind ip) + nblocks off n <= Z.of_nat (nfree sb D) →
  if decide (off <= i_size ip ∧ off + n <= MAXFILE * BSIZE) then
    ∃ s' D' bl' ip', writei i src off n s = Done n s' ∧ written lg sb i s D bl ip off bs s' D' bl' ip'
  else writei i src off n s = Done (-1) s.
Proof.
  intros n Hsrc HJ Hat Hwr Ho Hov Hbud Hfree. pose proof (writing_ftx _ _ _ _ _ _ _ Hwr) as Hft.
  pose proof (ftx_inode _ _ _ _ _ _ _ _ Hft) as Hip. assert (Hn : 0 <= n) by (unfold n; lia).
  unfold writei. case_decide as Hc.
  - destruct Hc as [Hoff Hmax].
    set (k := if decide (0 < n) then nblocks off n else 0).
    assert (Hk : 0 <= k <= nblocks off n) by (unfold k; pose proof (nblocks_nonneg off n Ho Hn); case_decide; lia).
    pose proof (meta_length lg sb ip (dk_layout _ _ _ (wr_disk _ _ _ _ _ _ _ Hwr))) as Hml.
    destruct (writei_loop_run lg sb src bs J (io_fuel n) i s D bl _ ip off n 0 Hsrc Hft HJ) as (s1 & D1 & bl1 & T1 & ip1 & Hrun & Hw);
      rewrite ?Z.sub_0_r, ?length_app; fold k; try (done || lia).
    { pose proof (nblocks_fuel off n Ho Hn). lia. }
    rewrite Z.sub_0_r in Hrun, Hw. fold k in Hw. change (drop (Z.to_nat 0) bs) with bs in Hw. rewrite <- Hat in Hrun.
    pose proof Hw as [Hft1 Hk1 _ _ _ Hc1 _ Hfr1 _]. pose proof (ftx_length _ _ _ _ _ _ _ _ Hft1) as Hl1. rewrite length_app in Hc1.
    set (ip2 := set_i_size (Z.max (i_size ip) (off + n)) ip1). set (s2 := put_inode i ip2 s1).
    assert (Hwhen : when (off + n >? i_size ip) (upd_inode i (set_i_size (off + n))) s1 = Done tt s2).
    { unfold when. rewrite Z.gtb_ltb. pose proof (ftx_inode _ _ _ _ _ _ _ _ Hft1) as Hip1.
      destruct (Z.ltb_spec (i_size ip) (off + n)) as [Hlt|Hge].
      - unfold upd_inode, modify, s2, ip2. rewrite Hip1, Z.max_r by lia. done.
      - assert (E2 : ip2 = ip1) by (unfold ip2; rewrite Z.max_l by lia; rewrite (fk_ip _ _ _ _ _ Hk1); by destruct ip).
        unfold s2. rewrite E2, put_inode_id by apply Hft1. done. }
    unfold budget in Hbud. assert (Ei : i_inum ip2 = i_inum ip) by (unfold ip2; rewrite (fk_ip _ _ _ _ _ Hk1); done).
    assert (Hip2 : get_inode s2 i = ip2).
    { unfold get_inode. simpl. apply list_lookup_total_insert_eq. eapply lookup_lt_Some, Hft1. }
    destruct (iupdate_run lg sb s2 D1 bl1 i ip2) as (s3 & Hr3 & Ht3 & Hf3); try done.
    { apply tx_put_inode, Hft1. } { simpl. apply Hft1. } { apply Hft1. } { unfold ip2. simpl. apply Hft1. }
    { rewrite Ei. apply Hwr. } { lia. } { lia. }
    rewrite Ei in Ht3. exists s3. eexists _, _, ip2. split.
    + run_by (unfold inode_get, gets; reflexivity). rewrite Hip. rewrite u32_small by lia. rewrite !Z.gtb_ltb.
      rewrite (proj2 (Z.ltb_ge (i_size ip) off)), (proj2 (Z.ltb_ge (off + n) off)), (proj2 (Z.ltb_ge _ (off + n))) by lia.
      cbn [orb]. run_by (exact Hrun). cbn [fst snd]. run_by (exact Hwhen). by run_by (exact Hr3).
    + eapply wstep_written; try done.
      * etransitivity; [apply fframe_put_inode|by apply lframe_fframe].
      * by rewrite (lframe_itable _ _ Hf3).
  - run_by (unfold inode_get, gets; reflexivity). rewrite Hip. rewrite u32_small by lia. rewrite !Z.gtb_ltb.
    destruct (Z.ltb_spec (i_size ip) off); [done|]. destruct (Z.ltb_spec (off + n) off); [done|]. cbn [orb].
    destruct (Z.ltb_spec (MAXFILE * BSIZE) (off + n)); [done|lia].
Qed.
End writei.
