(* ===== verification/FsExample.v ===== *)
(** * The theorems on the file system at a concrete disk

    A disk with the layout that mkfs gives it and one file of five bytes in
    block 46, open in entry 0 of the inode table; entry 1 is for the same inode
    and not loaded.  Process 0 runs in the example address space, inside a
    transaction that has written nothing yet. *)

From stdpp Require Import gmap.
From S2P Require Import Prelude Memory Params State Sched Kalloc Vm PageTable VmMap Uvm UvmAlloc UvmCopy VmExample Console.
From S2P Require Import Block Bio BioInv BioSpec BioInit Log LogRun LogCommit LogOps LogExample Fs Tx FsAlloc FsInode FsFile FsRead FsWrite.

#[local] Existing Instance sync_disk.
#[local] Existing Instance one_wakeup.

Definition ex_file : inode :=
  mk_inode 1 2 1 (mk_sleeplock false 0) true 2 0 0 1 5 (46 :: replicate 12 0).
Definition ex_unloaded : inode :=
  mk_inode 1 2 1 (mk_sleeplock false 0) false 0 0 0 0 0 (replicate 13 0).
Definition ex_bitmap : list Z := Eval vm_compute in replicate 5 255 ++ [127] ++ replicate 1018 0.
Definition ex_hello : list Z := Eval vm_compute in [104; 101; 108; 108; 111] ++ replicate 1019 0.

Definition ex_region : region := mk_region 2 30.

(** The boot state with this disk, before [binit]. *)
Definition ex_boot : kst :=
  set_disk (mk_dstate {[ 45 := ex_bitmap; 46 := ex_hello ]} [])
    (set_log example_log (set_sb example_sb
      (set_itable (<[1%nat := ex_unloaded]> (<[0%nat := ex_file]> (replicate NINODE zero_inode)))
        (set_proc (mk_pstate (<[0%nat := set_p_pagetable VmExample.R zero_proc]> (replicate NPROC zero_proc)) 0 None 1 true)
           VmExample.s)))).

Definition ex_disk : Z → list Z := dblock ex_boot.

Lemma ex_disk_at x : ex_disk x = if decide (x = 45) then ex_bitmap else if decide (x = 46) then ex_hello else zero_block.
Proof.
  unfold ex_disk, dblock. cbn [k_disk d_blocks ex_boot set_disk].
  destruct (decide (x = 45)) as [->|H1]; [by rewrite lookup_insert_eq|]. rewrite lookup_insert_ne by done.
  destruct (decide (x = 46)) as [->|H2]; [by rewrite lookup_singleton_eq|]. by rewrite lookup_singleton_ne.
Qed.

Lemma ex_layout : layout ex_region example_sb.
Proof. split; vm_compute; intuition congruence. Qed.

Lemma ex_disk_ok : disk_ok ex_region example_sb ex_disk.
Proof.
  split; [exact ex_layout| |].
  - intros x. rewrite ex_disk_at. repeat case_decide; reflexivity.
  - assert (Hall : Forall (λ b, allocated example_sb ex_disk b = true) (seqZ 0 46))
      by (apply (bool_decide_eq_true_1 _); by vm_compute).
    intros b Hb. change (data_start example_sb) with 46 in Hb. apply (proj1 (Forall_forall _ _) Hall).
    apply elem_of_seqZ. lia.
Qed.

(** The state after [binit]. *)
Lemma ex_start : ∃ bs, tx ex_region (set_bufs bs ex_boot) ex_disk [] ∅.
Proof.
  destruct (binit_run ex_boot) as (bs & _ & Hf & Hl); [reflexivity|]. exists bs.
  split; [|reflexivity|exact example_log_ok|reflexivity|reflexivity|simpl; lia].
  exists ex_disk, []. split; [|done]. eapply Rep_ceq; [|by apply (fresh_rep ex_boot bs)].
  split; done.
Qed.

Lemma ex_slot k : is_slot k → slot ex_disk ex_file k = if decide (k = 0) then 46 else 0.
Proof.
  intros Hk. unfold slot. change (ind ex_file) with 0. destruct (Z.ltb_spec k NDIRECT) as [Hlt|Hge].
  - unfold is_slot, NDIRECT in *.
    assert (Hall : Forall (λ k, i_addrs ex_file !!! Z.to_nat k = if decide (k = 0) then 46 else 0) (seqZ 0 12))
      by (apply (bool_decide_eq_true_1 _); by vm_compute).
    apply (proj1 (Forall_forall _ _) Hall). apply elem_of_seqZ. lia.
  - rewrite decide_False by (unfold NDIRECT in *; lia). by case_match.
Qed.

Lemma ex_file_ok : file_ok example_sb ex_disk ex_file.
Proof.
  split; [reflexivity| |].
  - intros k Hk. rewrite ex_slot by done. case_decide; [intros _|done]. split; [vm_compute; intuition congruence|by vm_compute].
  - intros k k' Hk Hk'. rewrite !ex_slot by done. repeat case_decide; congruence.
Qed.

Lemma ex_inode_wf : inode_wf ex_file.
Proof.
  split; [unfold short; simpl; lia..|unfold word; simpl; lia|reflexivity|].
  cbn [i_addrs ex_file replicate]. repeat (constructor; [unfold word; lia|]). constructor.
Qed.

Lemma ex_nfree : nfree example_sb ex_disk = 953%nat.
Proof. by vm_compute. Qed.

Lemma ex_nbitmap : nbitmap example_sb = 1.
Proof. reflexivity. Qed.

Lemma ex_writing bs : tx ex_region (set_bufs bs ex_boot) ex_disk [] ∅ →
  writing ex_region example_sb 0 (set_bufs bs ex_boot) ex_disk [] ex_file.
Proof.
  intros Ht. split; [exact Ht|reflexivity|exact ex_disk_ok|reflexivity|reflexivity|simpl; lia|exact ex_inode_wf| |exact ex_file_ok].
  by vm_compute.
Qed.

Lemma ex_reading bs : tx ex_region (set_bufs bs ex_boot) ex_disk [] ∅ →
  reading ex_region example_sb 0 (set_bufs bs ex_boot) ex_disk [] ex_file.
Proof.
  intros Ht. split; [exact Ht|reflexivity|exact ex_disk_ok|reflexivity|by vm_compute| |unfold NBUF; simpl; lia].
  intros k Hk Hks. simpl in Hks. unfold BSIZE in Hks. assert (k = 0) as -> by lia. by vm_compute.
Qed.

Lemma ex_uvm bs : uvm_ok (set_bufs bs ex_boot) VmExample.fl VmExample.own.
Proof. apply (uvm_ok_state VmExample.s); [reflexivity|by apply unlocked_nil|exact VmExample.is_ok]. Qed.

Lemma balloc_spec_witness : ∃ s s', balloc ROOTDEV s = Done 47 s'.
Proof.
  destruct ex_start as [bs Ht]. set (s := set_bufs bs ex_boot) in *. exists s.
  destruct (balloc_spec ex_region example_sb s ex_disk [] ∅) as [[Hz _]|(b & s' & D' & Hrun & Hb & Hf & Hfst & _)].
  - split; [exact Ht|reflexivity|exact ex_disk_ok| |rewrite map_size_empty; unfold NBUF; simpl; lia|].
    + intros x [? Hx]. discriminate Hx.
    + intros b _. by vm_compute.
  - rewrite ex_nfree in Hz. discriminate Hz.
  - assert (b = 47) as ->; [|exists s'; exact Hrun].
    assert (H47 : allocated example_sb ex_disk 47 = false) by (by vm_compute).
    assert (H46 : allocated example_sb ex_disk 46 = true) by (by vm_compute).
    change (data_block example_sb b) with (46 <= b < 1000) in Hb.
    destruct (decide (b < 47)) as [Hlt|Hge].
    + assert (b = 46) as -> by lia. rewrite H46 in Hf. discriminate Hf.
    + destruct (decide (47 < b)) as [Hgt|Hle]; [|lia]. rewrite Hfst in H47 by lia. discriminate H47.
Defined.

Lemma bfree_spec_witness : ∃ s s' D', bfree ROOTDEV 46 s = Done tt s' ∧
  (∀ x, 0 <= x < 1000 → allocated example_sb D' x = negb (bool_decide (x = 46)) && allocated example_sb ex_disk x).
Proof.
  destruct ex_start as [bs Ht]. set (s := set_bufs bs ex_boot) in *.
  pose proof (bfree_spec ex_region example_sb s ex_disk [] ∅ 46 Ht eq_refl ex_disk_ok) as Hsp.
  assert (Ea : allocated example_sb ex_disk 46 = true) by (by vm_compute). rewrite Ea in Hsp.
  destruct Hsp as (s' & D' & Hrun & _ & _ & _ & Hal & _).
  - vm_compute. intuition congruence.
  - reflexivity.
  - rewrite map_size_empty. unfold NBUF. simpl. lia.
  - by vm_compute.
  - exists s, s', D'. split; [exact Hrun|exact Hal].
Defined.

Lemma inode_roundtrip_witness : ∃ s s1 s2, iupdate 0 s = Done tt s1 ∧ ilock (Some 1%nat) s1 = Done tt s2 ∧
  i_size <$> k_itable s2 !! 1%nat = Some 5.
Proof.
  destruct ex_start as [bs Ht]. set (s := set_bufs bs ex_boot) in *.
  destruct (inode_roundtrip ex_region example_sb s ex_disk [] 0 ex_file 1 ex_unloaded Ht eq_refl ex_disk_ok)
    as (s1 & s2 & D' & Hr1 & Hr2 & _ & Hi & _); try reflexivity.
  - simpl. lia.
  - exact ex_inode_wf.
  - discriminate.
  - unfold NBUF. simpl. lia.
  - exists s, s1, s2. split_and!; [exact Hr1|exact Hr2|]. rewrite Hi. reflexivity.
Defined.

Lemma readi_spec_witness : ∃ s r s', readi 0 (DUser 16) 1 100 s = Done r s' ∧ (r.1 = 4 ∨ r.1 = -1).
Proof.
  destruct ex_start as [bs Ht]. set (s := set_bufs bs ex_boot) in *.
  destruct (readi_spec ex_region example_sb 0 s ex_disk [] ex_file 1 100 VmExample.fl VmExample.own VmExample.R 16)
    as (r & s' & Hrun & _ & _ & _ & Hc).
  - apply ex_reading, Ht.
  - simpl. lia.
  - lia.
  - lia.
  - apply ex_uvm.
  - exact VmExample.uroot_R.
  - reflexivity.
  - lia.
  - lia.
  - exists s, r, s'. split; [exact Hrun|]. change (Z.min 100 (i_size ex_file - 1)) with 4 in Hc.
    destruct Hc as [[-> _]|[-> _]]; [by left|by right].
Defined.

(** Appending 1100 bytes to the file allocates block 47 and fills two blocks. *)
Lemma writei_spec_witness : ∃ s s' D' ip', writei 0 (SLocal (replicate 1100 33)) 5 1100 s = Done 1100 s' ∧
  i_size ip' = 1105 ∧ fbyte D' ip' 1104 = 33 ∧ fbyte D' ip' 0 = 104.
Proof.
  destruct ex_start as [bs Ht]. set (s := set_bufs bs ex_boot) in *.
  pose proof (writei_spec ex_region example_sb (SLocal (replicate 1100 33)) (replicate 1100 33) (λ _, True) 0 s ex_disk [] ex_file 5
    (local_source _) I eq_refl (ex_writing bs Ht) ltac:(lia)) as Hsp.
  rewrite length_replicate in Hsp. rewrite decide_True in Hsp by (split; by vm_compute).
  destruct Hsp as (s' & D' & bl' & ip' & Hrun & Hw).
  - lia.
  - by vm_compute.
  - rewrite ex_nfree. by vm_compute.
  - exists s, s', D', ip'. pose proof (wt_bytes _ _ _ _ _ _ _ _ _ _ _ _ _ Hw) as Hb. split_and!; [exact Hrun| | |].
    + rewrite (wt_ip _ _ _ _ _ _ _ _ _ _ _ _ _ Hw). reflexivity.
    + rewrite Hb by (change (MAXFILE * BSIZE) with 274432; lia). rewrite length_replicate, decide_True by lia.
      apply lookup_total_replicate_2. lia.
    + rewrite Hb by (change (MAXFILE * BSIZE) with 274432; lia). rewrite length_replicate, decide_False by lia. by vm_compute.
Defined.
