(* ===== verification/FsTable.v ===== *)
(** * The inode table: [iget] and [idup] of kernel/fs.c

    An entry with references stands for one inode, and an inode has at most one
    entry; [iget] keeps this and returns the entry of the inode it is asked
    for. *)

From S2P Require Import Prelude Memory Params State Sched Fs.

Implicit Types (s : kst) (ip : inode) (it : list inode).

(** Entry [ip] is in use for inode [inum] of device [dev]. *)
Definition names (dev inum : Z) ip : Prop := 0 < i_ref ip ∧ i_dev ip = dev ∧ i_inum ip = inum.

Record itable_ok it : Prop := {
  it_len : length it = NINODE;
  it_refs : ∀ i ip, it !! i = Some ip → 0 <= i_ref ip;
  it_unique : ∀ i j ip jp, it !! i = Some ip → it !! j = Some jp → 0 < i_ref ip → 0 < i_ref jp →
    i_dev ip = i_dev jp → i_inum ip = i_inum jp → i = j;
}.

(** The references that an inode has in the table. *)
Definition hits (dev inum : Z) ip : bool := (i_ref ip >? 0) && (i_dev ip =? dev) && (i_inum ip =? inum).

Lemma hits_names dev inum ip : hits dev inum ip = true ↔ names dev inum ip.
Proof. unfold hits, names. rewrite !andb_true_iff, Z.gtb_lt, !Z.eqb_eq. tauto. Qed.

(** ** The scan *)

Lemma iget_scan_run n i dev inum empty s :
  (i + n <= length (k_itable s))%nat →
  (∃ j ip, (i <= j < i + n)%nat ∧ k_itable s !! j = Some ip ∧ names dev inum ip ∧
     iget_scan n i dev inum empty s = Done (inl j) s) ∨
  (∃ e, (∀ j ip, (i <= j < i + n)%nat → k_itable s !! j = Some ip → ¬ names dev inum ip) ∧
     iget_scan n i dev inum empty s = Done (inr e) s ∧
     match empty with
     | Some k => e = Some k
     | None =>
         match e with
         | Some k => (i <= k < i + n)%nat ∧ (∃ ip, k_itable s !! k = Some ip ∧ i_ref ip = 0) ∧
             ∀ j ip, (i <= j < k)%nat → k_itable s !! j = Some ip → i_ref ip ≠ 0
         | None => ∀ j ip, (i <= j < i + n)%nat → k_itable s !! j = Some ip → i_ref ip ≠ 0
         end
     end).
Proof.
  revert i empty. induction n as [|n IH]; intros i empty Hlen.
  - right. exists empty. split_and!; [lia|done|]. destruct empty; [done|lia].
  - destruct (lookup_lt_is_Some_2 (k_itable s) i ltac:(lia)) as [ip Hip].
    assert (Hg : get_inode s i = ip) by (by apply list_lookup_total_correct).
    cbn [iget_scan]. erewrite bind_Done; [|unfold inode_get, gets; reflexivity]. cbv beta zeta. rewrite Hg. unfold id.
    fold (hits dev inum ip). destruct (hits dev inum ip) eqn:Eh.
    { left. exists i, ip. apply hits_names in Eh. split_and!; [lia..|done|done|done]. }
    assert (Hno : ¬ names dev inum ip) by (intros Hn%hits_names; congruence).
    set (e1 := match empty with None => _ | Some _ => _ end).
    destruct (IH (S i) e1 ltac:(lia)) as [(j & jp & Hj & Hjp & Hn & Hrun)|(e & Hall & Hrun & He)].
    + left. exists j, jp. split_and!; [lia..|done|done|exact Hrun].
    + right. exists e. split_and!; [|exact Hrun|].
      * intros j jp Hj Hjp. destruct (decide (j = i)) as [->|]; [by simplify_eq|]. eapply Hall; [|done]. lia.
      * unfold e1 in He. destruct empty as [k|]; [done|]. destruct (Z.eqb_spec (i_ref ip) 0) as [E0|Hne].
        -- subst e. split_and!; [lia|lia|by exists ip|lia].
        -- destruct e as [k|].
           { destruct He as (? & ? & Hk). split_and!; [lia|lia|done|]. intros j jp Hj Hjp.
             destruct (decide (j = i)) as [->|]; [by simplify_eq|]. eapply Hk; [|done]. lia. }
           intros j jp Hj Hjp. destruct (decide (j = i)) as [->|]; [by simplify_eq|]. eapply He; [|done]. lia.
Qed.

Lemma itable_ok_insert it i ip :
  itable_ok it → (i < length it)%nat → 0 <= i_ref ip →
  (0 < i_ref ip → ∀ j jp, it !! j = Some jp → j ≠ i → ¬ names (i_dev ip) (i_inum ip) jp) → itable_ok (<[i := ip]> it).
Proof.
  intros [Hl Hr Hu] Hi Href Hno. split.
  - by rewrite length_insert.
  - intros j jp Hj. destruct (decide (j = i)) as [->|Hne].
    + rewrite list_lookup_insert_eq in Hj by done. by simplify_eq.
    + rewrite list_lookup_insert_ne in Hj by done. by eapply Hr.
  - intros j k jp kp Hj Hk H1 H2 E1 E2. destruct (decide (j = i)) as [->|Hj'], (decide (k = i)) as [->|Hk']; try done.
    + rewrite list_lookup_insert_eq in Hj by done. rewrite list_lookup_insert_ne in Hk by done. simplify_eq.
      destruct (Hno H1 k kp Hk Hk'). by split_and!.
    + rewrite list_lookup_insert_eq in Hk by done. rewrite list_lookup_insert_ne in Hj by done. simplify_eq.
      destruct (Hno H2 j jp Hj Hj'). by split_and!.
    + rewrite list_lookup_insert_ne in Hj, Hk by done. by eapply Hu.
Qed.

(** C33: [iget] returns the table entry of the inode it is asked for: the one it
    has, with one more reference, or else the first free one, set up for it and
    not loaded.  It changes no other entry and nothing else, and keeps at most
    one entry per inode; it panics only when all entries are in use for other
    inodes. *)
Theorem iget_spec s dev inum :
  itable_ok (k_itable s) → unlocked LItable s → (∀ i ip, k_itable s !! i = Some ip → i_ref ip < 2 ^ 31 - 1) →
  (∃ i ip ip', iget dev inum s = Done i (put_inode i ip' s) ∧ k_itable s !! i = Some ip ∧
     names dev inum ip' ∧ itable_ok (<[i := ip']> (k_itable s)) ∧
     (names dev inum ip ∧ ip' = set_i_ref (i_ref ip + 1) ip ∨
      (∀ j jp, k_itable s !! j = Some jp → ¬ names dev inum jp) ∧ i_ref ip = 0 ∧ i_ref ip' = 1 ∧ i_valid ip' = false ∧
      ∀ j jp, (j < i)%nat → k_itable s !! j = Some jp → 0 < i_ref jp)) ∨
  ((∀ j jp, k_itable s !! j = Some jp → ¬ names dev inum jp ∧ 0 < i_ref jp) ∧
   ∃ s', iget dev inum s = Panic "iget: no inodes" s').
Proof.
  intros Hok Hlk Hsmall. unfold iget. run_by (apply acquire_ok, Hlk). set (s1 := set_held _ s).
  assert (Hrel : ∀ i ip, release LItable (put_inode i ip s1) = Done tt (put_inode i ip s)).
  { intros i ip. rewrite (release_ok _ (k_held s)); [|done|apply Hlk]. unfold s1. by destruct s. }
  destruct (iget_scan_run NINODE 0 dev inum None s1) as [(i & ip & Hi & Hip & Hn & Hrun)|(e & Hno & Hrun & He)].
  { change (k_itable s1) with (k_itable s). rewrite (it_len _ Hok). lia. }
  - left. run_by (exact Hrun). change (k_itable s1) with (k_itable s) in *.
    assert (Hg : get_inode s1 i = ip) by (by apply list_lookup_total_correct). destruct Hn as (Hr & Hd & Hin).
    exists i, ip, (set_i_ref (i_ref ip + 1) ip). split_and!.
    + run_by (unfold upd_inode, modify; reflexivity). rewrite Hg, i32_small by (pose proof (Hsmall _ _ Hip); lia).
      by run_by (apply Hrel).
    + done.
    + split_and!; simpl; (done || lia).
    + apply itable_ok_insert; [done|by eapply lookup_lt_Some|simpl; lia|]. intros _ j jp Hj Hne (H1 & H2 & H3). cbn [i_dev i_inum set_i_ref] in H2, H3.
      apply Hne. eapply (it_unique _ Hok); try done; congruence.
    + left. by split_and!.
  - change (k_itable s1) with (k_itable s) in *.
    assert (Hall : ∀ j jp, k_itable s !! j = Some jp → ¬ names dev inum jp).
    { intros j jp Hj. eapply Hno; [|done]. apply lookup_lt_Some in Hj as Hlt. rewrite (it_len _ Hok) in Hlt. lia. }
    destruct e as [k|].
    + left. destruct He as (Hk & (ip & Hip & Href) & Hfirst). run_by (exact Hrun).
      set (ip' := set_i_valid false (set_i_ref 1 (set_i_id dev inum ip))).
      assert (Hg : get_inode s1 k = ip) by (by apply list_lookup_total_correct).
      exists k, ip, ip'. split_and!.
      * run_by (unfold upd_inode, modify; reflexivity). rewrite Hg. by run_by (apply Hrel).
      * done.
      * by split_and!.
      * apply itable_ok_insert; [done|by eapply lookup_lt_Some|done|]. intros _ j jp Hj _. exact (Hall j jp Hj).
      * right. split_and!; try done. intros j jp Hj Hjp. pose proof (it_refs _ Hok j jp Hjp).
        pose proof (Hfirst j jp ltac:(lia) Hjp). lia.
    + right. split; [|eexists; by run_by (exact Hrun)]. intros j jp Hj. split; [by eapply Hall|].
      pose proof (it_refs _ Hok j jp Hj). assert (i_ref jp ≠ 0); [|lia]. eapply He; [|done].
      apply lookup_lt_Some in Hj as Hlt. rewrite (it_len _ Hok) in Hlt. lia.
Qed.

(** ** A table with one inode in use *)

Definition table_state : kst :=
  set_itable (<[3%nat := mk_inode 1 7 2 (mk_sleeplock false 0) true 2 0 0 1 0 (replicate 13 0)]> (replicate NINODE zero_inode)) boot_state.

Lemma table_lookup i ip : k_itable table_state !! i = Some ip → i = 3%nat ∧ i_ref ip = 2 ∨ i_ref ip = 0.
Proof.
  cbn [k_itable table_state set_itable]. destruct (decide (i = 3%nat)) as [->|Hne]; [intros [= <-]; by left|].
  rewrite list_lookup_insert_ne by done. intros [-> _]%lookup_replicate. by right.
Qed.

Lemma iget_spec_witness : ∃ s', iget 1 7 table_state = Done 3%nat s' ∧ i_ref (get_inode s' 3) = 3.
Proof.
  destruct (iget_spec table_state 1 7) as [(i & ip & ip' & Hrun & Hip & Hn & _ & Hc)|[Hno _]].
  - split; [reflexivity| |].
    + intros i ip Hi. destruct (table_lookup i ip Hi) as [[_ E]|E]; rewrite E; lia.
    + intros i j ip jp Hi Hj H1 H2 _ _. destruct (table_lookup i ip Hi) as [[-> _]|E]; [|lia].
      destruct (table_lookup j jp Hj) as [[-> _]|E]; [done|lia].
  - by apply unlocked_nil.
  - intros i ip Hi. destruct (table_lookup i ip Hi) as [[_ E]|E]; rewrite E; lia.
  - destruct Hc as [[(Hr & _) ->]|[Hall _]].
    + destruct (table_lookup i ip Hip) as [[-> E]|E]; [|lia]. eexists. split; [exact Hrun|]. 
      change (get_inode (put_inode 3 (set_i_ref (i_ref ip + 1) ip) table_state) 3) with (set_i_ref (i_ref ip + 1) ip).
      simpl. lia.
    + exfalso. refine (Hall 3%nat _ eq_refl _). by split_and!.
  - exfalso. destruct (Hno 3%nat _ eq_refl) as [Hn _]. apply Hn. by split_and!.
Defined.
