(* ===== verification/FsPath.v ===== *)
(** * Path names: [skipelem] of kernel/fs.c

    A path is the list of its elements, the parts between slashes that are not
    empty; [skipelem] takes the first of them off. *)

From S2P Require Import Prelude Params State CString Fs.

(** The elements of the path in the C string [path]. *)
Definition elems (path : list Z) : list (list Z) := filter (λ e, e ≠ []) (split_on 47 (cstr path)).

(** ** Elements *)

Lemma elems_slash l : elems (47 :: l) = elems l.
Proof. reflexivity. Qed.

(** What [path_elem] leaves: the end of the string or a slash. *)
Definition at_end (r : list Z) : Prop := chr r = 0 ∨ ∃ r', r = 47 :: r'.

Lemma elems_app e r : e ≠ [] → Forall (λ c, c ≠ 47 ∧ c ≠ 0) e → at_end r → elems (e ++ r) = e :: elems r.
Proof.
  intros Hne He Hr. assert (H47 : Forall (λ c, c ≠ 47) e) by (eapply Forall_impl; [exact He|]; naive_solver).
  assert (H0 : Forall (λ c, c ≠ 0) e) by (eapply Forall_impl; [exact He|]; naive_solver).
  unfold elems. destruct Hr as [Hr|(r' & ->)].
  - rewrite (chr_cstr r Hr). assert (E : cstr (e ++ r) = e).
    { destruct r as [|c r]; [rewrite app_nil_r; by apply cstr_id|]. simpl in Hr. subst c. by apply cstr_app_nul. }
    rewrite E, split_last by done. rewrite filter_cons_True by done. done.
  - assert (E : cstr (e ++ 47 :: r') = e ++ 47 :: cstr r').
    { clear -H0. induction H0 as [|c e Hc _ IH]; simpl; [done|]. by rewrite (proj2 (Z.eqb_neq _ _) Hc), IH. }
    rewrite E, split_app by done. rewrite filter_cons_True by done. done.
Qed.

(** ** The two loops of [skipelem] *)

Lemma skip_slashes_spec p : elems (skip_slashes p) = elems p ∧ chr (skip_slashes p) ≠ 47 ∧ (length (skip_slashes p) <= length p)%nat.
Proof.
  induction p as [|c p (IH1 & IH2 & IH3)]; simpl; [done|]. destruct (Z.eqb_spec c 47) as [->|Hc]; [|by split_and!].
  rewrite IH1, elems_slash. split_and!; [done|done|lia].
Qed.

Lemma path_elem_spec p : let (e, r) := path_elem p in
  p = e ++ r ∧ Forall (λ c, c ≠ 47 ∧ c ≠ 0) e ∧ at_end r ∧ (chr p ≠ 0 → chr p ≠ 47 → e ≠ []).
Proof.
  induction p as [|c p IH]; simpl; [split_and!; [done|constructor|by left|done]|].
  destruct (Z.eqb_spec c 47) as [->|H47]; simpl; [split_and!; [done|constructor|right; by eexists|done]|].
  destruct (Z.eqb_spec c 0) as [->|H0]; simpl; [split_and!; [done|constructor|by left|done]|].
  destruct (path_elem p) as [e r]. destruct IH as (-> & He & Hr & _). simpl. split_and!; [done|by constructor|done|done].
Qed.

(** C34: [skipelem] takes a path apart as its list of elements says: it returns
    null exactly when there are none, and otherwise leaves the rest of the path,
    which has no slash in front, is shorter, and consists of the elements behind
    the first one; [name] is the first element, cut to [DIRSIZ] characters. *)
Theorem skipelem_spec path name :
  length name = DIRSIZ →
  match elems path with
  | [] => skipelem path name = None
  | e :: es => ∃ rest name', skipelem path name = Some (rest, name') ∧ elems rest = es ∧
      chr rest ≠ 47 ∧ (length rest < length path)%nat ∧ cstr name' = take DIRSIZ e ∧ length name' = DIRSIZ
  end.
Proof.
  intros Hname. unfold skipelem. destruct (skip_slashes_spec path) as (Es & Hs & Hl). rewrite <- Es.
  set (p := skip_slashes path) in *. destruct (Z.eqb_spec (chr p) 0) as [H0|H0].
  { unfold elems. by rewrite (chr_cstr p H0). }
  pose proof (path_elem_spec p) as Hpe. destruct (path_elem p) as [e r]. destruct Hpe as (Ep & He & Hr & Hne).
  specialize (Hne H0 Hs). rewrite Ep, elems_app by done. destruct (skip_slashes_spec r) as (Er & Hsr & Hlr).
  assert (Hnz : Forall (λ c, c ≠ 0) e) by (eapply Forall_impl; [exact He|]; naive_solver).
  assert (Hlen : (length p = length e + length r)%nat) by (rewrite Ep; apply length_app).
  assert (He0 : (0 < length e)%nat) by (destruct e; [done|simpl; lia]).
  eexists _, _. split; [done|]. split_and!; [done|done|lia| |].
  - case_match eqn:E; [apply Nat.leb_le in E|apply Nat.leb_gt in E].
    + apply cstr_id. by apply Forall_take.
    + rewrite take_ge by lia. simpl. by apply cstr_app_nul.
  - case_match eqn:E; [apply Nat.leb_le in E|apply Nat.leb_gt in E].
    + rewrite length_take. lia.
    + rewrite length_app. cbn [app length]. rewrite length_drop. lia.
Qed.

Lemma skipelem_spec_witness : ∃ rest name', skipelem [47; 47; 97; 98; 47; 99; 0] (replicate 14 0) = Some (rest, name') ∧
  elems rest = [[99]] ∧ cstr name' = [97; 98].
Proof.
  destruct (skipelem_spec [47; 47; 97; 98; 47; 99; 0] (replicate 14 0) eq_refl) as (rest & name' & H1 & H2 & _ & _ & H3 & _).
  exists rest, name'. split; [exact H1|]. split; [exact H2|]. exact H3.
Defined.
