(* ===== verification/PrintSpec.v ===== *)
(** * Numbers printed by [printint] of kernel/printf.c

    The characters that [printint] sends to the console are the number in the
    given base, and they fit the buffer of 16 characters they are built in. *)

From S2P Require Import Prelude Params State Sched Uart.

(** ** Reading a number *)

(** The value of a digit, '0' to '9' and 'a' to 'f'. *)
Definition digit_val (c : Z) : Z := if c <=? 57 then c - 48 else c - 87.

Definition parse_nat (base : Z) (l : list Z) : Z := foldl (λ a c, a * base + digit_val c) 0 l.

(** With '-' in front of a negative number. *)
Definition parse_int (base : Z) (l : list Z) : Z :=
  match l with
  | c :: l' => if c =? 45 then - parse_nat base l' else parse_nat base l
  | [] => 0
  end.

(** ** The digits, from the lowest on *)

Definition value (base : Z) (l : list Z) : Z := foldr (λ c a, a * base + digit_val c) 0 l.

Lemma parse_reverse base l : parse_nat base (reverse l) = value base l.
Proof.
  induction l as [|c l IH]; [done|]. unfold parse_nat in *. rewrite reverse_cons, foldl_app, IH. done.
Qed.

Lemma digit_ok k : 0 <= k < 16 → digit_val (digits !!! Z.to_nat k) = k ∧ digits !!! Z.to_nat k ≠ 45.
Proof.
  intros Hk. assert (Hall : Forall (λ k, digit_val (digits !!! Z.to_nat k) = k ∧ digits !!! Z.to_nat k ≠ 45) (seqZ 0 16))
    by (apply (bool_decide_eq_true_1 _); by vm_compute).
  apply (proj1 (Forall_forall _ _) Hall). apply elem_of_seqZ. lia.
Qed.

Lemma digits_loop_spec n x base : 2 <= base <= 16 → 0 <= x < base ^ Z.of_nat n → (0 < n)%nat →
  let l := digits_loop n x base in
  value base l = x ∧ (0 < length l <= n)%nat ∧ Forall (λ c, c ≠ 45) l.
Proof.
  intros Hb. revert x. induction n as [|n IH]; intros x Hx Hn; [lia|]. cbn [digits_loop].
  pose proof (Z.mod_pos_bound x base ltac:(lia)) as Hm. destruct (digit_ok (x mod base) ltac:(lia)) as [Hd Hne].
  pose proof (Z.div_mod x base ltac:(lia)) as Hdm. assert (0 <= x / base) by (apply Z.div_pos; lia).
  destruct (Z.eqb_spec (x / base) 0) as [E|Hnz].
  - cbn [value foldr length]. rewrite Hd. split_and!; [lia..|by repeat constructor].
  - assert (Hx' : 0 <= x / base < base ^ Z.of_nat n).
    { split; [done|]. apply Z.div_lt_upper_bound; [lia|]. rewrite Nat2Z.inj_succ, Z.pow_succ_r in Hx by lia. lia. }
    assert (Hn' : (0 < n)%nat) by (destruct n; [|lia]; simpl in Hx'; lia).
    destruct (IH (x / base) Hx' Hn') as (Hv & Hl & Hf). cbn [value foldr length]. unfold value in Hv. rewrite Hv, Hd.
    split_and!; [lia..|by constructor].
Qed.

(** More fuel than digits changes nothing. *)
Lemma digits_loop_fuel n m x base : 2 <= base → 0 <= x < base ^ Z.of_nat n → (0 < n <= m)%nat →
  digits_loop m x base = digits_loop n x base.
Proof.
  intros Hb. revert m x. induction n as [|n IH]; intros m x Hx Hn; [lia|]. destruct m as [|m]; [lia|]. cbn [digits_loop]. f_equal.
  destruct (Z.eqb_spec (x / base) 0) as [E|Hnz]; [done|]. assert (0 <= x / base) by (apply Z.div_pos; lia).
  assert (Hx' : 0 <= x / base < base ^ Z.of_nat n).
  { split; [done|]. apply Z.div_lt_upper_bound; [lia|]. rewrite Nat2Z.inj_succ, Z.pow_succ_r in Hx by lia. lia. }
  apply IH; [done|]. destruct n; [simpl in Hx'; lia|lia].
Qed.

(** the characters [printint] prints, in base 10 or 16, are a number that
    reads back as its argument (as the unsigned number when it is not asked for
    a sign), also for the smallest [int]; there are at most 11 of them, so that
    they fit [buf]. *)
Theorem printint_roundtrip xx base sign :
  base = 10 ∨ base = 16 → -2 ^ 31 <= xx < 2 ^ 31 →
  let out := reverse (printint_buf xx base sign) in
  parse_int base out = (if sign then xx else u32 xx) ∧ (0 < length out <= 11)%nat.
Proof.
  intros Hb Hxx out. unfold out, printint_buf. set (neg := sign && (xx <? 0)).
  set (x := if neg then u32 (- xx) else u32 xx). assert (Hx32 : 0 <= x < 4294967296) by (unfold x; case_match; apply u32_bound).
  assert (Hx : 0 <= x < base ^ Z.of_nat 10) by (change (Z.of_nat 10) with 10; destruct Hb as [-> | ->]; lia).
  rewrite (digits_loop_fuel 10 32 x base) by (done || lia).
  destruct (digits_loop_spec 10 x base ltac:(lia) Hx ltac:(lia)) as (Hv & Hl & Hf). set (l := digits_loop 10 x base) in *.
  rewrite <- parse_reverse in Hv. assert (Hr : Forall (λ c, c ≠ 45) (reverse l)) by (by apply Forall_reverse).
  rewrite reverse_app, length_app, !length_reverse. split; [|destruct neg; cbn [length]; lia].
  destruct neg eqn:En.
  - apply andb_true_iff in En as [-> Hneg%Z.ltb_lt]. cbn [reverse app rev_append parse_int].
    change (parse_int base (45 :: reverse l) = xx). cbn [parse_int]. rewrite Z.eqb_refl, Hv. unfold x.
    rewrite u32_small by lia. lia.
  - change (parse_int base (reverse l) = if sign then xx else u32 xx). unfold parse_int.
    destruct (reverse l) as [|c r] eqn:E; [apply (f_equal length) in E; rewrite length_reverse in E; simpl in E; lia|].
    apply Forall_cons in Hr as [Hc _]. rewrite (proj2 (Z.eqb_neq _ _) Hc), Hv. unfold x. destruct sign; [|done].
    apply u32_small. apply Z.ltb_ge in En. lia.
Qed.

Lemma printint_roundtrip_witness : parse_int 10 (reverse (printint_buf (-2147483648) 10 true)) = -2147483648.
Proof. exact (proj1 (printint_roundtrip (-2147483648) 10 true (or_introl eq_refl) ltac:(lia))). Defined.
