(* ===== verification/Asm.v ===== *)
(** * The assembly of the kernel

    kernel/trampoline.S, kernel/swtch.S, kernel/kernelvec.S and kernel/entry.S,
    instruction by instruction, over the registers of a hart, the control
    registers they use and the byte memory.  [user/initcode.S] is assembled into
    bytes.  How an address reaches memory is a parameter of the run: through the
    page table that satp names, or directly in machine mode. *)

From S2P Require Import Prelude Memory Params Uart Trap.

Inductive reg : Set :=
| Ra | Sp | Gp | Tp | T0 | T1 | T2 | T3 | T4 | T5 | T6
| S0 | S1 | S2 | S3 | S4 | S5 | S6 | S7 | S8 | S9 | S10 | S11
| A0 | A1 | A2 | A3 | A4 | A5 | A6 | A7.

#[export] Instance reg_eq : EqDecision reg.
Proof. solve_decision. Defined.

Inductive csr : Set := Sscratch | Satp | Mscratch | Sip | Mhartid.

#[export] Instance csr_eq : EqDecision csr.
Proof. solve_decision. Defined.

Inductive instr : Type :=
| ISd (r : reg) (off : Z) (b : reg)
| ILd (r : reg) (off : Z) (b : reg)
| IAddi (r a : reg) (n : Z)
| IAdd (r a b : reg)
| IMul (r a b : reg)
| ILi (r : reg) (n : Z)
| ILa (r : reg) (label : string)
| ICsrrw (r : reg) (c : csr) (a : reg)
| ICsrr (r : reg) (c : csr)
| ICsrw (c : csr) (a : reg)
| ISfence
| IJr (r : reg)
| IRet
| ISret
| IMret
| ICall (label : string)
| IJ (label : string).

(** [m_tlb] is the value of satp that the hart's translations come from: a write
    of satp has its effect with the next [sfence.vma]. *)
Record mach : Type := mk_mach { m_reg : reg → Z; m_csr : csr → Z; m_tlb : Z; m_mem : mem }.

Definition set_reg (r : reg) (v : Z) (s : mach) : mach :=
  mk_mach (λ x, if decide (x = r) then v else m_reg s x) (m_csr s) (m_tlb s) (m_mem s).
Definition set_csr (c : csr) (v : Z) (s : mach) : mach :=
  mk_mach (m_reg s) (λ x, if decide (x = c) then v else m_csr s x) (m_tlb s) (m_mem s).
Definition set_tlb (v : Z) (s : mach) : mach := mk_mach (m_reg s) (m_csr s) v (m_mem s).
Definition set_mem (m : mem) (s : mach) : mach := mk_mach (m_reg s) (m_csr s) (m_tlb s) m.

(** Where a run leaves the code. *)
Inductive outcome : Type :=
| Jump (target : Z) (s : mach)
| SReturn (s : mach)
| MReturn (s : mach)
| Called (label : string) (rest : list instr) (s : mach)
| Goes (label : string) (s : mach)
| Fault
| Ends (s : mach).

Section Run.
Context (va : mach → Z → option Z) (sym : string → Z).

Fixpoint run (code : list instr) (s : mach) : outcome :=
  match code with
  | [] => Ends s
  | ISd r off b :: code =>
      match va s (u64 (m_reg s b + off)) with
      | Some a => run code (set_mem (store64 (m_mem s) a (m_reg s r)) s)
      | None => Fault
      end
  | ILd r off b :: code =>
      match va s (u64 (m_reg s b + off)) with
      | Some a => run code (set_reg r (load64 (m_mem s) a) s)
      | None => Fault
      end
  | IAddi r a n :: code => run code (set_reg r (u64 (m_reg s a + n)) s)
  | IAdd r a b :: code => run code (set_reg r (u64 (m_reg s a + m_reg s b)) s)
  | IMul r a b :: code => run code (set_reg r (u64 (m_reg s a * m_reg s b)) s)
  | ILi r n :: code => run code (set_reg r (u64 n) s)
  | ILa r l :: code => run code (set_reg r (sym l) s)
  | ICsrrw r c a :: code => run code (set_reg r (m_csr s c) (set_csr c (m_reg s a) s))
  | ICsrr r c :: code => run code (set_reg r (m_csr s c) s)
  | ICsrw c a :: code => run code (set_csr c (m_reg s a) s)
  | ISfence :: code => run code (set_tlb (m_csr s Satp) s)
  | IJr r :: _ => Jump (m_reg s r) s
  | IRet :: _ => Jump (m_reg s Ra) s
  | ISret :: _ => SReturn s
  | IMret :: _ => MReturn s
  | ICall l :: code => Called l code s
  | IJ l :: _ => Goes l s
  end.
End Run.

(** ** kernel/trampoline.S *)

Definition uservec : list instr := [
  ICsrrw A0 Sscratch A0;
  ISd Ra 40 A0; ISd Sp 48 A0; ISd Gp 56 A0; ISd Tp 64 A0;
  ISd T0 72 A0; ISd T1 80 A0; ISd T2 88 A0;
  ISd S0 96 A0; ISd S1 104 A0;
  ISd A1 120 A0; ISd A2 128 A0; ISd A3 136 A0; ISd A4 144 A0; ISd A5 152 A0; ISd A6 160 A0; ISd A7 168 A0;
  ISd S2 176 A0; ISd S3 184 A0; ISd S4 192 A0; ISd S5 200 A0; ISd S6 208 A0;
  ISd S7 216 A0; ISd S8 224 A0; ISd S9 232 A0; ISd S10 240 A0; ISd S11 248 A0;
  ISd T3 256 A0; ISd T4 264 A0; ISd T5 272 A0; ISd T6 280 A0;
  ICsrr T0 Sscratch;
  ISd T0 112 A0;
  ILd Sp 8 A0;
  ILd Tp 32 A0;
  ILd T0 16 A0;
  ILd T1 0 A0;
  ICsrw Satp T1;
  ISfence;
  IJr T0 ].

Definition userret : list instr := [
  ICsrw Satp A1;
  ISfence;
  ILd T0 112 A0;
  ICsrw Sscratch T0;
  ILd Ra 40 A0; ILd Sp 48 A0; ILd Gp 56 A0; ILd Tp 64 A0;
  ILd T0 72 A0; ILd T1 80 A0; ILd T2 88 A0;
  ILd S0 96 A0; ILd S1 104 A0;
  ILd A1 120 A0; ILd A2 128 A0; ILd A3 136 A0; ILd A4 144 A0; ILd A5 152 A0; ILd A6 160 A0; ILd A7 168 A0;
  ILd S2 176 A0; ILd S3 184 A0; ILd S4 192 A0; ILd S5 200 A0; ILd S6 208 A0;
  ILd S7 216 A0; ILd S8 224 A0; ILd S9 232 A0; ILd S10 240 A0; ILd S11 248 A0;
  ILd T3 256 A0; ILd T4 264 A0; ILd T5 272 A0; ILd T6 280 A0;
  ICsrrw A0 Sscratch A0;
  ISret ].

(** ** kernel/swtch.S *)

Definition swtch : list instr := [
  ISd Ra 0 A0; ISd Sp 8 A0; ISd S0 16 A0; ISd S1 24 A0; ISd S2 32 A0; ISd S3 40 A0; ISd S4 48 A0;
  ISd S5 56 A0; ISd S6 64 A0; ISd S7 72 A0; ISd S8 80 A0; ISd S9 88 A0; ISd S10 96 A0; ISd S11 104 A0;
  ILd Ra 0 A1; ILd Sp 8 A1; ILd S0 16 A1; ILd S1 24 A1; ILd S2 32 A1; ILd S3 40 A1; ILd S4 48 A1;
  ILd S5 56 A1; ILd S6 64 A1; ILd S7 72 A1; ILd S8 80 A1; ILd S9 88 A1; ILd S10 96 A1; ILd S11 104 A1;
  IRet ].

(** ** kernel/kernelvec.S *)

Definition kernelvec : list instr := [
  IAddi Sp Sp (-256);
  ISd Ra 0 Sp; ISd Sp 8 Sp; ISd Gp 16 Sp; ISd Tp 24 Sp; ISd T0 32 Sp; ISd T1 40 Sp; ISd T2 48 Sp;
  ISd S0 56 Sp; ISd S1 64 Sp;
  ISd A0 72 Sp; ISd A1 80 Sp; ISd A2 88 Sp; ISd A3 96 Sp; ISd A4 104 Sp; ISd A5 112 Sp; ISd A6 120 Sp; ISd A7 128 Sp;
  ISd S2 136 Sp; ISd S3 144 Sp; ISd S4 152 Sp; ISd S5 160 Sp; ISd S6 168 Sp;
  ISd S7 176 Sp; ISd S8 184 Sp; ISd S9 192 Sp; ISd S10 200 Sp; ISd S11 208 Sp;
  ISd T3 216 Sp; ISd T4 224 Sp; ISd T5 232 Sp; ISd T6 240 Sp;
  ICall "kerneltrap";
  ILd Ra 0 Sp; ILd Sp 8 Sp; ILd Gp 16 Sp; ILd T0 32 Sp; ILd T1 40 Sp; ILd T2 48 Sp;
  ILd S0 56 Sp; ILd S1 64 Sp;
  ILd A0 72 Sp; ILd A1 80 Sp; ILd A2 88 Sp; ILd A3 96 Sp; ILd A4 104 Sp; ILd A5 112 Sp; ILd A6 120 Sp; ILd A7 128 Sp;
  ILd S2 136 Sp; ILd S3 144 Sp; ILd S4 152 Sp; ILd S5 160 Sp; ILd S6 168 Sp;
  ILd S7 176 Sp; ILd S8 184 Sp; ILd S9 192 Sp; ILd S10 200 Sp; ILd S11 208 Sp;
  ILd T3 216 Sp; ILd T4 224 Sp; ILd T5 232 Sp; ILd T6 240 Sp;
  IAddi Sp Sp 256;
  ISret ].

Definition timervec : list instr := [
  ICsrrw A0 Mscratch A0;
  ISd A1 0 A0; ISd A2 8 A0; ISd A3 16 A0;
  ILd A1 24 A0;
  ILd A2 32 A0;
  ILd A3 0 A1;
  IAdd A3 A3 A2;
  ISd A3 0 A1;
  ILi A1 2;
  ICsrw Sip A1;
  ILd A3 16 A0; ILd A2 8 A0; ILd A1 0 A0;
  ICsrrw A0 Mscratch A0;
  IMret ].

(** ** kernel/entry.S *)

Definition entry : list instr := [
  ILa Sp "stack0";
  ILi A0 (1024 * 4);
  ICsrr A1 Mhartid;
  IAddi A1 A1 1;
  IMul A0 A0 A1;
  IAdd Sp Sp A0;
  ICall "start";
  IJ "spin" ].

(** ** user/initcode.S, assembled *)

Definition enc_addi (rd rs imm : Z) : Z := 0x13 + rd * 2 ^ 7 + rs * 2 ^ 15 + (imm mod 2 ^ 12) * 2 ^ 20.
Definition enc_auipc (rd imm : Z) : Z := 0x17 + rd * 2 ^ 7 + (imm mod 2 ^ 20) * 2 ^ 12.
Definition enc_ecall : Z := 0x73.
Definition enc_jal (rd off : Z) : Z :=
  0x6f + rd * 2 ^ 7 + (off / 2 ^ 12) mod 2 ^ 8 * 2 ^ 12 + (off / 2 ^ 11) mod 2 * 2 ^ 20 +
  (off / 2) mod 2 ^ 10 * 2 ^ 21 + (off / 2 ^ 20) mod 2 * 2 ^ 31.

(** The first instructions of [la], with the label and the place of the
    instruction. *)
Definition enc_la (rd label at_ : Z) : list Z := [enc_auipc rd 0; enc_addi rd rd (label - at_)].

Definition initcode_S (align : bool) : list Z :=
  let init := 36 in
  let str := codes "/init" ++ [0; 0] in
  let pad := if align then replicate (Z.to_nat (- (init + Z.of_nat (length str)) mod 4)) 0 else [] in
  let argv := init + Z.of_nat (length (str ++ pad)) in
  concat (map (le_enc 4)
    (enc_la 10 init 0 ++ enc_la 11 argv 8 ++
     [enc_addi 17 0 SYS_exec; enc_ecall; enc_addi 17 0 SYS_exit; enc_ecall; enc_jal 1 (-8)])) ++
  str ++ pad ++ le_enc 4 init ++ le_enc 4 0.
