(* ===== verification/AsmSpec.v ===== *)
(** * The assembly of the kernel is correct

    A trap from user space and the return from it keep every register of the
    program, [swtch] resumes a thread with the registers it was left with, an
    interrupt of the kernel changes no register but tp, and the timer interrupt
    changes none. *)

From S2P Require Import Prelude Memory Params State Uart Trap Proc Asm.

Implicit Types (s : mach) (m : mem) (l : list (reg * Z)).

(** ** Blocks of loads and stores *)

Definition saves l (b : reg) : list instr := map (λ p, ISd p.1 p.2 b) l.
Definition loads l (b : reg) : list instr := map (λ p, ILd p.1 p.2 b) l.

(** The memory and the registers after them. *)
Definition put_frame (a : Z) l (f : reg → Z) m : mem := foldl (λ m p, store64 m (a + p.2) (f p.1)) m l.
Definition get_frame (a : Z) l m (f : reg → Z) : reg → Z :=
  foldl (λ f p, λ x, if decide (x = p.1) then load64 m (a + p.2) else f x) f l.
Definition set_regs (f : reg → Z) s : mach := mk_mach f (m_csr s) (m_tlb s) (m_mem s).

(** Fields that do not overlap. *)
Fixpoint spaced l : Prop :=
  match l with
  | [] => True
  | p :: l => Forall (λ q : reg * Z, p.2 + 8 <= q.2 ∨ q.2 + 8 <= p.2) l ∧ spaced l
  end.

#[export] Instance spaced_dec l : Decision (spaced l).
Proof. induction l as [|p l IH]; cbn; apply _. Defined.

Lemma put_cons a p l f m : put_frame a (p :: l) f m = put_frame a l f (store64 m (a + p.2) (f p.1)).
Proof. done. Qed.
Lemma get_cons a p l m f :
  get_frame a (p :: l) m f = get_frame a l m (λ x, if decide (x = p.1) then load64 m (a + p.2) else f x).
Proof. done. Qed.

Lemma load_put_out a l f m x : Forall (λ q, x + 8 <= a + q.2 ∨ a + q.2 + 8 <= x) l → load64 (put_frame a l f m) x = load64 m x.
Proof.
  revert m. induction l as [|p l IH]; intros m H; [done|]. apply Forall_cons in H as [Hp H]. rewrite put_cons, IH by done.
  apply load_store64_disjoint. lia.
Qed.

Lemma load_put a l f m r off : spaced l → (r, off) ∈ l → load64 (put_frame a l f m) (a + off) = u64 (f r).
Proof.
  revert m. induction l as [|p l IH]; intros m Hs Hin; [by apply elem_of_nil in Hin|]. destruct Hs as [Hp Hs]. rewrite put_cons.
  apply elem_of_cons in Hin as [<-|Hin]; [|by apply IH]. cbn [fst snd] in *.
  rewrite load_put_out by (eapply Forall_impl; [exact Hp|]; cbn; lia). apply load_store64_same.
Qed.

Lemma rd_put_out a l f m x : Forall (λ q, x < a + q.2 ∨ a + q.2 + 8 <= x) l → rd (put_frame a l f m) x = rd m x.
Proof.
  revert m. induction l as [|p l IH]; intros m H; [done|]. apply Forall_cons in H as [Hp H]. rewrite put_cons, IH by done.
  apply rd_store64_out. lia.
Qed.

Lemma get_frame_out a l m f r : r ∉ l.*1 → get_frame a l m f r = f r.
Proof.
  revert f. induction l as [|p l IH]; intros f H; [done|]. rewrite get_cons. cbn in H.
  rewrite IH by set_solver. rewrite decide_False by set_solver. done.
Qed.

Lemma get_frame_in a l m f r off : NoDup l.*1 → (r, off) ∈ l → get_frame a l m f r = load64 m (a + off).
Proof.
  revert f. induction l as [|p l IH]; intros f Hn Hin; [by apply elem_of_nil in Hin|]. rewrite get_cons. cbn in Hn. apply NoDup_cons in Hn as [Hp Hn].
  apply elem_of_cons in Hin as [<-|Hin]; [|by apply IH].
  rewrite get_frame_out by done. by rewrite decide_True.
Qed.

Section Blocks.
Context (va : mach → Z → option Z) (sym : string → Z).

(** The way to memory depends on the control registers only. *)
Class Steady : Prop := steady : ∀ s s', m_csr s = m_csr s' → m_tlb s = m_tlb s' → va s = va s'.
Context {Hva : Steady}.

(** The fields at [b] are at [a] in memory. *)
Definition reach s (b a : Z) l : Prop := Forall (λ p : reg * Z, va s (u64 (b + p.2)) = Some (a + p.2)) l.

Lemma run_saves l b a s code : reach s (m_reg s b) a l →
  run va sym (saves l b ++ code) s = run va sym code (set_mem (put_frame a l (m_reg s) (m_mem s)) s).
Proof.
  intros H. set (m := m_mem s). assert (E : s = set_mem m s) by by destruct s. rewrite E at 1. clearbody m.
  clear E. revert m. induction H as [|p l Hp _ IH]; intros m; [done|]. cbn [saves map app run].
  rewrite (steady _ s) by done. cbn [set_mem m_reg m_mem]. rewrite Hp. exact (IH _).
Qed.

Lemma run_loads l b a s code : reach s (m_reg s b) a l → (∀ off, (b, off) ∈ l → load64 (m_mem s) (a + off) = m_reg s b) →
  run va sym (loads l b ++ code) s = run va sym code (set_regs (get_frame a l (m_mem s) (m_reg s)) s).
Proof.
  assert (Hrun : ∀ v f, f b = v → reach s v a l → (∀ off, (b, off) ∈ l → load64 (m_mem s) (a + off) = v) →
    run va sym (loads l b ++ code) (set_regs f s) = run va sym code (set_regs (get_frame a l (m_mem s) f) s)).
  { intros v f Hf H. revert f Hf. induction H as [|p l Hp _ IH]; intros f Hf Hb; [done|]. cbn [loads map app run].
    rewrite (steady _ s) by done. cbn [set_regs m_reg m_mem]. rewrite Hf, Hp.
    apply (IH (λ x, if decide (x = p.1) then load64 (m_mem s) (a + p.2) else f x)).
    - case_decide as E; [|done]. apply Hb. rewrite E. destruct p. set_solver.
    - intros off Hin. apply Hb. set_solver. }
  intros H Hb. rewrite <- (Hrun _ (m_reg s) eq_refl H Hb). by destruct s.
Qed.
End Blocks.

(** ** Addresses through a page table *)

Definition paged (tr : Z → Z → option Z) s (a : Z) : option Z :=
  if decide (m_tlb s = m_csr s Satp) then tr (m_tlb s) a else None.

#[export] Instance paged_steady tr : Steady (paged tr).
Proof. intros s s' E E'. unfold paged. by rewrite E, E'. Qed.

(** The [n] bytes at [va] are those at [pa] in memory. *)
Definition mapped (tr : Z → Z → option Z) (satp va pa n : Z) : Prop :=
  ∀ k, 0 <= k → k + 8 <= n → tr satp (u64 (va + k)) = Some (pa + k).

Definition within (n : Z) l : Prop := Forall (λ p : reg * Z, 0 <= p.2 ∧ p.2 + 8 <= n) l.

#[export] Instance within_dec n l : Decision (within n l).
Proof. unfold within. apply _. Defined.

Lemma mapped_reach tr satp va pa n s l : mapped tr satp va pa n → m_tlb s = satp → m_csr s Satp = satp → within n l →
  reach (paged tr) s va pa l.
Proof.
  intros Hm Ht Hs Hl. eapply Forall_impl; [exact Hl|]. intros p [??]. unfold paged. rewrite Ht, Hs, decide_True by done. by apply Hm.
Qed.

Lemma mapped_at tr satp va pa n s k : mapped tr satp va pa n → m_tlb s = satp → m_csr s Satp = satp → 0 <= k → k + 8 <= n →
  paged tr s (u64 (va + k)) = Some (pa + k).
Proof. intros Hm Ht Hs ??. unfold paged. rewrite Ht, Hs, decide_True by done. by apply Hm. Qed.

Section Steps.
Context (va : mach → Z → option Z) (sym : string → Z).

Lemma run_sd r off b code s a : va s (u64 (m_reg s b + off)) = Some a →
  run va sym (ISd r off b :: code) s = run va sym code (set_mem (store64 (m_mem s) a (m_reg s r)) s).
Proof. intros E. cbn [run]. by rewrite E. Qed.

Lemma run_ld r off b code s a : va s (u64 (m_reg s b + off)) = Some a →
  run va sym (ILd r off b :: code) s = run va sym code (set_reg r (load64 (m_mem s) a) s).
Proof. intros E. cbn [run]. by rewrite E. Qed.

Lemma run_csrrw r c a code s :
  run va sym (ICsrrw r c a :: code) s = run va sym code (set_reg r (m_csr s c) (set_csr c (m_reg s a) s)).
Proof. done. Qed.
Lemma run_csrr r c code s : run va sym (ICsrr r c :: code) s = run va sym code (set_reg r (m_csr s c) s).
Proof. done. Qed.
Lemma run_csrw c a code s : run va sym (ICsrw c a :: code) s = run va sym code (set_csr c (m_reg s a) s).
Proof. done. Qed.
Lemma run_sfence code s : run va sym (ISfence :: code) s = run va sym code (set_tlb (m_csr s Satp) s).
Proof. done. Qed.
Lemma run_addi r a n code s : run va sym (IAddi r a n :: code) s = run va sym code (set_reg r (u64 (m_reg s a + n)) s).
Proof. done. Qed.
Lemma run_add r a b code s : run va sym (IAdd r a b :: code) s = run va sym code (set_reg r (u64 (m_reg s a + m_reg s b)) s).
Proof. done. Qed.
Lemma run_li r n code s : run va sym (ILi r n :: code) s = run va sym code (set_reg r (u64 n) s).
Proof. done. Qed.
End Steps.

Lemma put_ext a l f g m : Forall (λ p, f p.1 = g p.1) l → put_frame a l f m = put_frame a l g m.
Proof. intros H. revert m. induction H as [|p l Hp _ IH]; intros m; [done|]. rewrite !put_cons, Hp. apply IH. Qed.

Lemma put_snoc a l r off f m : store64 (put_frame a l f m) (a + off) (f r) = put_frame a (l ++ [(r, off)]) f m.
Proof. unfold put_frame. by rewrite foldl_app. Qed.

(** The registers hold words. *)
Definition words s : Prop := ∀ r, 0 <= m_reg s r < 2 ^ 64.

(** ** Traps from user space

    The fields of [struct trapframe] for the registers. *)
Definition tf_off (r : reg) : Z :=
  match r with
  | Ra => 40 | Sp => 48 | Gp => 56 | Tp => 64
  | T0 => 72 | T1 => 80 | T2 => 88 | S0 => 96 | S1 => 104
  | A0 => 112 | A1 => 120 | A2 => 128 | A3 => 136 | A4 => 144 | A5 => 152 | A6 => 160 | A7 => 168
  | S2 => 176 | S3 => 184 | S4 => 192 | S5 => 200 | S6 => 208
  | S7 => 216 | S8 => 224 | S9 => 232 | S10 => 240 | S11 => 248
  | T3 => 256 | T4 => 264 | T5 => 272 | T6 => 280
  end.

Definition with_off (off : reg → Z) (rs : list reg) : list (reg * Z) := map (λ r, (r, off r)) rs.

Definition not_a0 : list reg :=
  [Ra; Sp; Gp; Tp; T0; T1; T2; S0; S1; A1; A2; A3; A4; A5; A6; A7; S2; S3; S4; S5; S6; S7; S8; S9; S10; S11; T3; T4; T5; T6].

Definition tf_rest : list (reg * Z) := with_off tf_off not_a0.
Definition tf_regs : list (reg * Z) := with_off tf_off (not_a0 ++ [A0]).

(** The registers of a list of fields. *)
Lemma with_off_regs off rs : (with_off off rs).*1 = rs.
Proof. unfold with_off. rewrite <- list_fmap_compose. apply list_fmap_id. Qed.

Lemma with_off_in off rs r : r ∈ rs → (r, off r) ∈ with_off off rs.
Proof. apply (list_elem_of_fmap_2 (λ r, (r, off r))). Qed.

Lemma with_off_inv off rs r k : (r, k) ∈ with_off off rs → r ∈ rs.
Proof. intros (x&[= -> _]&Hx)%list_elem_of_fmap_1. done. Qed.

Lemma a0_or_not r : r = A0 ∨ r ∈ not_a0.
Proof. destruct r; auto; right; apply (bool_decide_unpack _); by vm_compute. Qed.

Lemma a0_not : A0 ∉ not_a0.
Proof. apply (bool_decide_unpack _). by vm_compute. Qed.

Lemma not_a0_nodup : NoDup not_a0.
Proof. apply (bool_decide_unpack _). by vm_compute. Qed.

Lemma tf_regs_in r : (r, tf_off r) ∈ tf_regs.
Proof. apply with_off_in, elem_of_app. destruct (a0_or_not r) as [->|Hr]; [right; set_solver|by left]. Qed.

Lemma tf_spaced : spaced tf_regs.
Proof. apply (bool_decide_unpack _). by vm_compute. Qed.

Lemma tf_within : within 288 tf_regs ∧ within 288 tf_rest.
Proof. split; apply (bool_decide_unpack _); by vm_compute. Qed.

Lemma tf_within_low : Forall (λ p : reg * Z, 40 <= p.2 ∧ p.2 + 8 <= 288) tf_regs.
Proof. apply (bool_decide_unpack _). by vm_compute. Qed.

Section Trap.
Context (tr : Z → Z → option Z) (sym : string → Z).
(** The trapframe of the process is at [TRAPFRAME] in its page table. *)
Context (usatp pa : Z) (Hmap : mapped tr usatp TRAPFRAME pa 288).
Notation run := (run (paged tr) sym).

Lemma at_trapframe s k : m_tlb s = usatp → m_csr s Satp = usatp → m_reg s A0 = TRAPFRAME → 0 <= k → k + 8 <= 288 →
  paged tr s (u64 (m_reg s A0 + k)) = Some (pa + k).
Proof. intros ?? -> ??. by apply (mapped_at tr usatp TRAPFRAME pa 288). Qed.

(** The memory of the trapframe below the registers. *)
Lemma below_regs f m k : 0 <= k <= 32 → load64 (put_frame pa tf_regs f m) (pa + k) = load64 m (pa + k).
Proof.
  intros Hk. apply load_put_out. unfold tf_regs, with_off, not_a0. cbn [map app tf_off]. repeat constructor; cbn [snd]; lia.
Qed.

Lemma uservec_split : uservec = ICsrrw A0 Sscratch A0 :: saves tf_rest A0 ++
  [ICsrr T0 Sscratch; ISd T0 112 A0; ILd Sp 8 A0; ILd Tp 32 A0; ILd T0 16 A0; ILd T1 0 A0; ICsrw Satp T1; ISfence; IJr T0].
Proof. reflexivity. Qed.

Lemma uservec_run s : m_csr s Sscratch = TRAPFRAME → m_csr s Satp = usatp → m_tlb s = usatp →
  ∃ s', run uservec s = Jump (load64 (m_mem s) (pa + TF_kernel_trap)) s' ∧
    m_mem s' = put_frame pa tf_regs (m_reg s) (m_mem s) ∧
    m_reg s' Sp = load64 (m_mem s) (pa + TF_kernel_sp) ∧ m_reg s' Tp = load64 (m_mem s) (pa + TF_kernel_hartid) ∧
    m_csr s' Satp = load64 (m_mem s) (pa + TF_kernel_satp) ∧ m_tlb s' = m_csr s' Satp.
Proof.
  unfold TF_kernel_trap, TF_kernel_sp, TF_kernel_hartid, TF_kernel_satp. intros Hss Hsatp Htlb. rewrite uservec_split, run_csrrw, Hss. set (s0 := set_reg A0 TRAPFRAME _).
  rewrite (run_saves _ _ _ _ pa) by (apply (mapped_reach _ usatp _ _ 288); try done; apply tf_within).
  rewrite run_csrr. erewrite run_sd by by apply at_trapframe. cbn [set_mem m_mem].
  set (m1 := put_frame pa tf_regs (m_reg s) (m_mem s)).
  match goal with |- context [store64 ?m ?a ?v] => assert (Em : store64 m a v = m1) end.
  { rewrite (put_ext pa tf_rest (m_reg s0) (m_reg s)) by (repeat constructor). exact (put_snoc pa tf_rest A0 112 (m_reg s) (m_mem s)). }
  rewrite Em. do 4 (erewrite run_ld by by apply at_trapframe). rewrite run_csrw, run_sfence.
  cbn [Asm.run set_reg set_csr set_mem set_tlb m_reg m_csr m_mem m_tlb]. repeat (rewrite decide_True by done || rewrite decide_False by done).
  eexists. split; [f_equal; apply below_regs; lia|]. cbn [set_reg set_csr set_mem set_tlb m_reg m_csr m_mem m_tlb].
  repeat (rewrite decide_True by done || rewrite decide_False by done). split_and!; [done|apply below_regs; lia..|done].
Qed.

Lemma userret_split : userret = ICsrw Satp A1 :: ISfence :: ILd T0 112 A0 :: ICsrw Sscratch T0 ::
  loads tf_rest A0 ++ [ICsrrw A0 Sscratch A0; ISret].
Proof. reflexivity. Qed.

Lemma userret_run s : m_reg s A0 = TRAPFRAME → m_reg s A1 = usatp →
  ∃ s', run userret s = SReturn s' ∧ (∀ r, m_reg s' r = load64 (m_mem s) (pa + tf_off r)) ∧
    m_mem s' = m_mem s ∧ m_csr s' Sscratch = TRAPFRAME ∧ m_csr s' Satp = usatp ∧ m_tlb s' = usatp.
Proof.
  intros H0 H1. rewrite userret_split, run_csrw, run_sfence, H1. erewrite run_ld by by apply at_trapframe. rewrite run_csrw.
  set (s0 := set_csr Sscratch _ _).
  rewrite (run_loads _ _ _ _ pa).
  2: { apply (mapped_reach _ usatp _ _ 288); [by rewrite <- H0 in Hmap|done|done|apply tf_within]. }
  2: { intros off Hin. by apply with_off_inv, a0_not in Hin. }
  rewrite run_csrrw. cbn [Asm.run]. eexists. split; [done|]. split_and!; try done.
  intros r. cbn [set_reg set_regs set_csr m_reg m_csr]. destruct (a0_or_not r) as [->|Hr].
  - by rewrite decide_True.
  - rewrite decide_False by (intros ->; by apply a0_not). apply (get_frame_in _ tf_rest).
    + unfold tf_rest. rewrite with_off_regs. apply not_a0_nodup.
    + by apply with_off_in.
Qed.

(** C8: A trap from user space and the return from it keep the registers of the
    program.  [uservec], entered with the trapframe in sscratch, stores every
    register in its field of the trapframe and nothing elsewhere, and goes to
    [kernel_trap] on the kernel stack, with the hart number in tp and the kernel's
    page table.  Whatever the kernel does then, [userret] returns with every
    register as its field says, so that a register whose field the kernel left
    alone is as it was, with the page table of the process, and with sscratch
    ready for the next trap. *)
Theorem trap_roundtrip s : words s → m_csr s Sscratch = TRAPFRAME → m_csr s Satp = usatp → m_tlb s = usatp →
  ∃ s1, run uservec s = Jump (load64 (m_mem s) (pa + TF_kernel_trap)) s1 ∧
    m_reg s1 Sp = load64 (m_mem s) (pa + TF_kernel_sp) ∧ m_reg s1 Tp = load64 (m_mem s) (pa + TF_kernel_hartid) ∧
    m_csr s1 Satp = load64 (m_mem s) (pa + TF_kernel_satp) ∧ m_tlb s1 = m_csr s1 Satp ∧
    (∀ r, load64 (m_mem s1) (pa + tf_off r) = m_reg s r) ∧
    (∀ x, x < pa + 40 ∨ pa + 288 <= x → rd (m_mem s1) x = rd (m_mem s) x) ∧
    ∀ s2, m_reg s2 A0 = TRAPFRAME → m_reg s2 A1 = usatp →
    ∃ s3, run userret s2 = SReturn s3 ∧ m_mem s3 = m_mem s2 ∧
      m_csr s3 Sscratch = TRAPFRAME ∧ m_csr s3 Satp = usatp ∧ m_tlb s3 = usatp ∧
      (∀ r, m_reg s3 r = load64 (m_mem s2) (pa + tf_off r)) ∧
      ∀ r, load64 (m_mem s2) (pa + tf_off r) = load64 (m_mem s1) (pa + tf_off r) → m_reg s3 r = m_reg s r.
Proof.
  intros Hw Hss Hsatp Htlb. destruct (uservec_run s Hss Hsatp Htlb) as (s1&E1&Em&Esp&Etp&Esatp&Etlb).
  assert (Hregs : ∀ r, load64 (m_mem s1) (pa + tf_off r) = m_reg s r).
  { intros r. rewrite Em, (load_put _ _ _ _ r) by (apply tf_spaced || apply tf_regs_in). apply u64_small, Hw. }
  exists s1. split_and!; try done.
  - intros x Hx. rewrite Em. apply rd_put_out. eapply Forall_impl; [apply tf_within_low|]. cbn. lia.
  - intros s2 H0 H1. destruct (userret_run s2 H0 H1) as (s3&E3&Hr&Hm&Hs&Hp&Ht). exists s3. split_and!; try done.
    intros r Er. by rewrite Hr, Er.
Qed.
End Trap.

(** A program with the number of each register's field in it; its trapframe is at
    0x87f6e000. *)
Definition trap_tr (satp a : Z) : option Z :=
  if (satp =? 5) && (TRAPFRAME <=? a) && (a <? TRAPFRAME + 4096) then Some (a - TRAPFRAME + 0x87f6e000) else None.

Definition trap_start : mach :=
  mk_mach tf_off (λ c, match c with Sscratch => TRAPFRAME | Satp => 5 | _ => 0 end) 5 ∅.

Lemma trap_roundtrip_witness :
  ∃ s1, run (paged trap_tr) (λ _, 0) uservec trap_start = Jump 0 s1 ∧ load64 (m_mem s1) (0x87f6e000 + 104) = 104 ∧
  ∃ s3, run (paged trap_tr) (λ _, 0) userret (set_reg A0 TRAPFRAME (set_reg A1 5 s1)) = SReturn s3 ∧ m_reg s3 S1 = 104.
Proof.
  assert (Hmap : mapped trap_tr 5 TRAPFRAME 0x87f6e000 288).
  { assert (E : TRAPFRAME = 274877898752) by by compute. intros k Hk Hk'. unfold trap_tr. rewrite E, u64_small by lia.
    rewrite (proj2 (Z.leb_le _ _)), (proj2 (Z.ltb_lt _ _)) by lia. cbn [Z.eqb Pos.eqb andb]. f_equal. lia. }
  destruct (trap_roundtrip trap_tr (λ _, 0) 5 0x87f6e000 Hmap trap_start) as (s1&E1&_&_&_&_&Hr&_&H2).
  - intros r. destruct r; by vm_compute.
  - done.
  - done.
  - done.
  - exists s1. split; [exact E1|]. split; [exact (Hr S1)|].
    destruct (H2 (set_reg A0 TRAPFRAME (set_reg A1 5 s1)) eq_refl eq_refl) as (s3&E3&_&_&_&_&_&Hs). exists s3. split; [exact E3|].
    exact (Hs S1 eq_refl).
Defined.

(** ** Switching threads

    The fields of [struct context]. *)
Definition ctx_off (r : reg) : Z :=
  match r with
  | Ra => 0 | Sp => 8 | S0 => 16 | S1 => 24 | S2 => 32 | S3 => 40 | S4 => 48
  | S5 => 56 | S6 => 64 | S7 => 72 | S8 => 80 | S9 => 88 | S10 => 96 | S11 => 104
  | _ => 112
  end.

Definition saved_s : list reg := [S0; S1; S2; S3; S4; S5; S6; S7; S8; S9; S10; S11].
Definition saved : list reg := Ra :: Sp :: saved_s.
Definition ctx_regs : list (reg * Z) := with_off ctx_off saved.

(** The context in the registers and the one at an address. *)
Definition regs_ctx s : context := mk_context (m_reg s Ra) (m_reg s Sp) (map (m_reg s) saved_s).
Definition ctx_at m (a : Z) : context :=
  mk_context (load64 m (a + 0)) (load64 m (a + 8)) (map (λ r, load64 m (a + ctx_off r)) saved_s).

Lemma ctx_eq s m a : regs_ctx s = ctx_at m a ↔ ∀ r, r ∈ saved → m_reg s r = load64 m (a + ctx_off r).
Proof.
  unfold regs_ctx, ctx_at, saved. split.
  - intros [= E1 E2 E3]. assert (E : map (m_reg s) saved_s = map (λ r, load64 m (a + ctx_off r)) saved_s) by (cbn; congruence).
    intros r [->|[->|Hr]%elem_of_cons]%elem_of_cons; [done..|]. revert Hr E. clear. generalize saved_s. intros l.
    induction l as [|x l IH]; intros Hr E; [by apply elem_of_nil in Hr|]. cbn in E. injection E as E1 E2.
    apply elem_of_cons in Hr as [->|Hr]; auto.
  - intros H. f_equal; [apply (H Ra); set_solver|apply (H Sp); set_solver|]. apply list_fmap_ext. intros i r Hr.
    apply H. apply list_elem_of_lookup_2 in Hr. set_solver.
Qed.

Lemma ctx_spaced : spaced ctx_regs ∧ within 112 ctx_regs ∧ NoDup saved ∧ A1 ∉ saved.
Proof. split_and!; apply (bool_decide_unpack _); by vm_compute. Qed.

Section Switch.
Context (tr : Z → Z → option Z) (sym : string → Z) (ksatp : Z).
Notation run := (run (paged tr) sym).

(** The kernel's page table maps a context where it is. *)
Definition ctx_mapped (a : Z) : Prop := mapped tr ksatp a a 112.

Lemma swtch_split : swtch = saves ctx_regs A0 ++ loads ctx_regs A1 ++ [IRet].
Proof. reflexivity. Qed.

Lemma swtch_run s o n : m_csr s Satp = ksatp → m_tlb s = ksatp → m_reg s A0 = o → m_reg s A1 = n →
  ctx_mapped o → ctx_mapped n → o + 112 <= n ∨ n + 112 <= o →
  ∃ s', run swtch s = Jump (ctx_ra (ctx_at (m_mem s) n)) s' ∧ regs_ctx s' = ctx_at (m_mem s) n ∧
    m_mem s' = put_frame o ctx_regs (m_reg s) (m_mem s) ∧ (∀ r, r ∉ saved → m_reg s' r = m_reg s r).
Proof.
  intros Hs Ht H0 H1 Mo Mn Hd. destruct ctx_spaced as (Hsp&Hwi&Hnd&Hna). rewrite swtch_split.
  rewrite (run_saves _ _ _ _ o) by (rewrite H0; by apply (mapped_reach _ ksatp _ _ 112)).
  set (m1 := put_frame o ctx_regs (m_reg s) (m_mem s)).
  rewrite (run_loads _ _ _ _ n).
  2: { cbn [set_mem m_reg]. rewrite H1. by apply (mapped_reach _ ksatp _ _ 112). }
  2: { intros off Hin. by apply with_off_inv in Hin. }
  assert (Hm : ∀ r, r ∈ saved → load64 m1 (n + ctx_off r) = load64 (m_mem s) (n + ctx_off r)).
  { intros r Hr. apply load_put_out. pose proof Hwi as Hwi'. unfold within in Hwi'. rewrite Forall_forall in Hwi'.
    pose proof (Hwi' _ (with_off_in ctx_off saved r Hr)) as Hk. cbn [snd] in Hk.
    eapply Forall_impl; [exact Hwi|]. cbn beta. intros p Hp. lia. }
  assert (Hg : ∀ r, r ∈ saved → get_frame n ctx_regs m1 (m_reg s) r = load64 (m_mem s) (n + ctx_off r)).
  { intros r Hr. rewrite (get_frame_in _ _ _ _ r (ctx_off r)); [by apply Hm| |by apply with_off_in].
    unfold ctx_regs. by rewrite with_off_regs. }
  eexists. cbn [Asm.run set_regs set_mem m_reg m_mem]. split; [f_equal; apply (Hg Ra); set_solver|]. split_and!.
  - apply ctx_eq. exact Hg.
  - done.
  - intros r Hr. apply get_frame_out. unfold ctx_regs. by rewrite with_off_regs.
Qed.

(** C9: [swtch] switches threads.  It goes on where the new context says, with
    the return address, stack and callee-saved registers of the new context, and
    stores those of the calling thread in the old one, nothing elsewhere.  A later
    [swtch] to the old context, from whatever thread, with the context as it was
    left, returns to the caller of the first one with its stack and its
    callee-saved registers as they were. *)
Theorem swtch_resumes s o n : words s → m_csr s Satp = ksatp → m_tlb s = ksatp → m_reg s A0 = o → m_reg s A1 = n →
  ctx_mapped o → ctx_mapped n → o + 112 <= n ∨ n + 112 <= o →
  ∃ s1, run swtch s = Jump (ctx_ra (ctx_at (m_mem s) n)) s1 ∧ regs_ctx s1 = ctx_at (m_mem s) n ∧
    ctx_at (m_mem s1) o = regs_ctx s ∧ (∀ x, x < o ∨ o + 112 <= x → rd (m_mem s1) x = rd (m_mem s) x) ∧
    ∀ s2 x, m_csr s2 Satp = ksatp → m_tlb s2 = ksatp → m_reg s2 A0 = x → m_reg s2 A1 = o →
      ctx_mapped x → x + 112 <= o ∨ o + 112 <= x → ctx_at (m_mem s2) o = ctx_at (m_mem s1) o →
    ∃ s3, run swtch s2 = Jump (m_reg s Ra) s3 ∧ regs_ctx s3 = regs_ctx s.
Proof.
  intros Hw Hs Ht H0 H1 Mo Mn Hd. destruct ctx_spaced as (Hsp&Hwi&_&_).
  destruct (swtch_run s o n Hs Ht H0 H1 Mo Mn Hd) as (s1&E1&C1&Em&_).
  assert (Ho : ctx_at (m_mem s1) o = regs_ctx s).
  { symmetry. apply ctx_eq. intros r Hr. rewrite Em, (load_put _ _ _ _ r) by (done || by apply with_off_in).
    symmetry. apply u64_small, Hw. }
  exists s1. split_and!; try done.
  - intros x Hx. rewrite Em. apply rd_put_out. eapply Forall_impl; [exact Hwi|]. cbn beta. intros p Hp. lia.
  - intros s2 x Hs2 Ht2 Hx Hox Mx Hdx Hc. destruct (swtch_run s2 x o Hs2 Ht2 Hx Hox Mx Mo Hdx) as (s3&E3&C3&_&_).
    exists s3. rewrite E3, C3, Hc, Ho. done.
Qed.
End Switch.

Definition flat_tr (satp a : Z) : option Z := Some a.

Lemma flat_mapped satp a n : 0 <= a → a + n < 2 ^ 64 → mapped flat_tr satp a a n.
Proof. intros Ha Hn k Hk Hk'. unfold flat_tr. by rewrite u64_small by lia. Qed.

(** A thread with context at 4096 gives way to one with context at 8192; the
    scheduler at 12288 switches back. *)
Definition swtch_start : mach :=
  mk_mach (λ r, match r with A0 => 4096 | A1 => 8192 | r => tf_off r end) (λ _, 9) 9 (store64 ∅ 8192 0x80001234).

Lemma swtch_resumes_witness :
  ∃ s1, run (paged flat_tr) (λ _, 0) swtch swtch_start = Jump 0x80001234 s1 ∧
  ∃ s3, run (paged flat_tr) (λ _, 0) swtch (mk_mach (λ r, match r with A0 => 12288 | A1 => 4096 | _ => 0 end) (λ _, 9) 9 (m_mem s1)) =
    Jump 40 s3 ∧ regs_ctx s3 = regs_ctx swtch_start.
Proof.
  destruct (swtch_resumes flat_tr (λ _, 0) 9 swtch_start 4096 8192) as (s1&E1&_&_&_&H2).
  - intros r. destruct r; by vm_compute.
  - reflexivity.
  - reflexivity.
  - reflexivity.
  - reflexivity.
  - apply flat_mapped; lia.
  - apply flat_mapped; lia.
  - left. lia.
  - exists s1. split.
    { replace (ctx_ra (ctx_at (m_mem swtch_start) 8192)) with 0x80001234 in E1 by (by vm_compute). exact E1. }
    apply (H2 (mk_mach (λ r, match r with A0 => 12288 | A1 => 4096 | _ => 0 end) (λ _, 9) 9 (m_mem s1)) 12288 eq_refl eq_refl eq_refl eq_refl).
    + apply flat_mapped; lia.
    + right. lia.
    + reflexivity.
Defined.

(** ** Interrupts of the kernel *)

Definition kv_off (r : reg) : Z :=
  match r with
  | Ra => 0 | Sp => 8 | Gp => 16 | Tp => 24 | T0 => 32 | T1 => 40 | T2 => 48 | S0 => 56 | S1 => 64
  | A0 => 72 | A1 => 80 | A2 => 88 | A3 => 96 | A4 => 104 | A5 => 112 | A6 => 120 | A7 => 128
  | S2 => 136 | S3 => 144 | S4 => 152 | S5 => 160 | S6 => 168
  | S7 => 176 | S8 => 184 | S9 => 192 | S10 => 200 | S11 => 208
  | T3 => 216 | T4 => 224 | T5 => 232 | T6 => 240
  end.

Definition after_tp : list reg :=
  [T0; T1; T2; S0; S1; A0; A1; A2; A3; A4; A5; A6; A7; S2; S3; S4; S5; S6; S7; S8; S9; S10; S11; T3; T4; T5; T6].
Definition kv_saved : list (reg * Z) := with_off kv_off ([Ra; Sp; Gp; Tp] ++ after_tp).
Definition kv_loaded : list (reg * Z) := with_off kv_off ([Ra; Sp; Gp] ++ after_tp).

Lemma kv_fields : spaced kv_saved ∧ within 256 kv_saved ∧ within 256 kv_loaded ∧ NoDup kv_loaded.*1.
Proof. split_and!; apply (bool_decide_unpack _); by vm_compute. Qed.

Lemma kv_tp_or r : r = Tp ∨ r ∈ [Ra; Sp; Gp] ++ after_tp.
Proof. destruct r; auto; right; apply (bool_decide_unpack _); by vm_compute. Qed.

Lemma kv_tp : Tp ∉ [Ra; Sp; Gp] ++ after_tp.
Proof. apply (bool_decide_unpack _). by vm_compute. Qed.

Lemma kv_sub r off : (r, off) ∈ kv_loaded → off = kv_off r ∧ (r, off) ∈ kv_saved.
Proof.
  intros (x&[= -> ->]&Hx)%list_elem_of_fmap_1. split; [done|]. apply with_off_in. set_solver.
Qed.

Definition kv_rest : list instr := loads kv_loaded Sp ++ [IAddi Sp Sp 256; ISret].

Lemma kernelvec_split : kernelvec = IAddi Sp Sp (-256) :: saves kv_saved Sp ++ ICall "kerneltrap" :: kv_rest.
Proof. reflexivity. Qed.

Section Kernelvec.
Context (tr : Z → Z → option Z) (sym : string → Z).
Notation run := (run (paged tr) sym).

(** C22: An interrupt of the kernel is transparent.  [kernelvec] stores all
    registers below the stack pointer and calls [kerneltrap]; when that returns
    with the stack pointer, the page table and the 256 bytes as they were, every
    register is as before the interrupt, but tp, which is that of the hart the
    thread is on now, and the memory is as [kerneltrap] left it. *)
Theorem kernelvec_transparent s pa satp : words s → m_csr s Satp = satp → m_tlb s = satp → 256 <= m_reg s Sp →
  mapped tr satp (m_reg s Sp - 256) pa 256 →
  ∃ s1, run kernelvec s = Called "kerneltrap" kv_rest s1 ∧ (∀ r, r ≠ Sp → m_reg s1 r = m_reg s r) ∧ m_reg s1 Sp = m_reg s Sp - 256 ∧
    (∀ x, x < pa ∨ pa + 256 <= x → rd (m_mem s1) x = rd (m_mem s) x) ∧
    ∀ s2, m_reg s2 Sp = m_reg s1 Sp → m_csr s2 Satp = satp → m_tlb s2 = satp →
      (∀ x, pa <= x < pa + 256 → rd (m_mem s2) x = rd (m_mem s1) x) →
    ∃ s3, run kv_rest s2 = SReturn s3 ∧ m_mem s3 = m_mem s2 ∧ m_reg s3 Tp = m_reg s2 Tp ∧
      ∀ r, r ≠ Tp → m_reg s3 r = m_reg s r.
Proof.
  intros Hw Hs Ht Hsp Hmap. destruct kv_fields as (Hspc&Hw1&Hw2&Hnd).
  assert (Esp : u64 (m_reg s Sp + -256) = m_reg s Sp - 256) by (pose proof (Hw Sp); rewrite u64_small by lia; lia).
  rewrite kernelvec_split, run_addi, Esp. set (s0 := set_reg Sp _ s).
  rewrite (run_saves _ _ _ _ pa) by by apply (mapped_reach _ satp _ _ 256). cbn [Asm.run]. eexists. split; [done|].
  split_and!; [intros r Hr; cbn; by rewrite decide_False|done| |].
  { intros x Hx. apply rd_put_out. eapply Forall_impl; [exact Hw1|]. cbn beta. intros p Hp. lia. }
  set (m1 := put_frame pa kv_saved (m_reg s0) (m_mem s0)). intros s2 E2 Hs2 Ht2 Hm2. cbn [set_mem m_reg m_mem] in E2, Hm2.
  change (m_reg s0 Sp) with (m_reg s Sp - 256) in E2.
  assert (Hl : ∀ r off, (r, off) ∈ kv_loaded → load64 (m_mem s2) (pa + off) = m_reg s0 r).
  { intros r off Hin. pose proof (kv_sub r off Hin) as [_ Hin']. unfold within in Hw1. rewrite Forall_forall in Hw1.
    pose proof (Hw1 _ Hin') as Hk. cbn [snd] in Hk. rewrite (load64_ext _ m1) by (intros x Hx; apply Hm2; lia).
    unfold m1. rewrite (load_put _ _ _ _ r) by done. apply u64_small. unfold s0. cbn.
    case_decide; [pose proof (Hw Sp); lia|apply Hw]. }
  unfold kv_rest. rewrite (run_loads _ _ _ _ pa).
  2: { rewrite E2. by apply (mapped_reach _ satp _ _ 256). }
  2: { intros off Hin. rewrite (Hl Sp off Hin), E2. done. }
  rewrite run_addi. cbn [Asm.run]. eexists. split; [done|]. cbn [set_reg set_regs m_reg m_mem].
  assert (Hg : ∀ r, r ≠ Tp → get_frame pa kv_loaded (m_mem s2) (m_reg s2) r = m_reg s0 r).
  { intros r Hr. destruct (kv_tp_or r) as [|Hin]; [done|]. pose proof (with_off_in kv_off _ r Hin) as Hin'.
    rewrite (get_frame_in _ _ _ _ r (kv_off r)) by done. by apply Hl. }
  split_and!; [done| |].
  - rewrite decide_False by done. apply get_frame_out. unfold kv_loaded. rewrite with_off_regs. apply kv_tp.
  - intros r Hr. case_decide as E.
    + subst r. rewrite Hg by done. change (m_reg s0 Sp) with (m_reg s Sp - 256). rewrite u64_small; pose proof (Hw Sp); lia.
    + rewrite Hg by done. unfold s0. cbn. by rewrite decide_False.
Qed.
End Kernelvec.

Lemma kernelvec_transparent_witness :
  ∃ s1, run (paged flat_tr) (λ _, 0) kernelvec (set_reg Sp 8192 swtch_start) = Called "kerneltrap" kv_rest s1 ∧
  ∃ s3, run (paged flat_tr) (λ _, 0) kv_rest (mk_mach (λ r, match r with Sp => 7936 | Tp => 1 | _ => 77 end) (λ _, 9) 9 (m_mem s1)) = SReturn s3 ∧
    m_reg s3 Tp = 1 ∧ m_reg s3 Ra = 40 ∧ m_reg s3 Sp = 8192 ∧ m_reg s3 T6 = 280.
Proof.
  destruct (kernelvec_transparent flat_tr (λ _, 0) (set_reg Sp 8192 swtch_start) 7936 9) as (s1&E1&_&Hsp&_&H2).
  - intros r. destruct r; by vm_compute.
  - reflexivity.
  - reflexivity.
  - by vm_compute.
  - apply (flat_mapped 9 7936 256); lia.
  - exists s1. split; [exact E1|].
    destruct (H2 (mk_mach (λ r, match r with Sp => 7936 | Tp => 1 | _ => 77 end) (λ _, 9) 9 (m_mem s1))) as (s3&E3&_&Htp&Hr).
    + rewrite Hsp. reflexivity.
    + reflexivity.
    + reflexivity.
    + intros x _. reflexivity.
    + exists s3. split; [exact E3|]. split; [exact Htp|].
      split_and!; [exact (Hr Ra ltac:(discriminate))|exact (Hr Sp ltac:(discriminate))|exact (Hr T6 ltac:(discriminate))].
Defined.

(** ** The timer interrupt

    Machine mode does not translate addresses. *)
Definition bare s (a : Z) : option Z := Some a.

#[export] Instance bare_steady : Steady bare.
Proof. done. Qed.

Lemma reg_same r v s : m_reg (set_reg r v s) r = v.
Proof. cbn. by rewrite decide_True. Qed.
Lemma reg_other r v s x : x ≠ r → m_reg (set_reg r v s) x = m_reg s x.
Proof. intros. cbn. by rewrite decide_False. Qed.
Lemma csr_same c v s : m_csr (set_csr c v s) c = v.
Proof. cbn. by rewrite decide_True. Qed.
Lemma csr_other c v s x : x ≠ c → m_csr (set_csr c v s) x = m_csr s x.
Proof. intros. cbn. by rewrite decide_False. Qed.

(** What a register or a control register holds after some steps. *)
Ltac look :=
  repeat first [rewrite reg_same | rewrite reg_other by discriminate | rewrite csr_same | rewrite csr_other by discriminate
    | progress change (m_reg (set_csr ?c ?v ?x)) with (m_reg x) | progress change (m_csr (set_reg ?r ?v ?x)) with (m_csr x)
    | progress change (m_reg (set_mem ?m ?x)) with (m_reg x) | progress change (m_csr (set_mem ?m ?x)) with (m_csr x)
    | progress change (m_mem (set_reg ?r ?v ?x)) with (m_mem x) | progress change (m_mem (set_csr ?r ?v ?x)) with (m_mem x)
    | progress change (m_mem (set_mem ?m ?x)) with m ].

(** The scratch area of [timerinit] at [sc]: three words to save registers in,
    the address of mtimecmp and the interval. *)
Theorem timervec_spec sym s sc cmp : words s → m_csr s Mscratch = sc → 0 <= sc → sc + 40 < 2 ^ 64 →
  load64 (m_mem s) (sc + 24) = cmp → cmp + 8 <= sc ∨ sc + 40 <= cmp →
  ∃ s', run bare sym timervec s = MReturn s' ∧ (∀ r, m_reg s' r = m_reg s r) ∧ m_csr s' Mscratch = sc ∧ m_csr s' Sip = 2 ∧
    load64 (m_mem s') cmp = u64 (load64 (m_mem s) cmp + load64 (m_mem s) (sc + 32)) ∧
    ∀ x, (x < sc ∨ sc + 24 <= x) → (x < cmp ∨ cmp + 8 <= x) → rd (m_mem s') x = rd (m_mem s) x.
Proof.
  intros Hw Hsc H0 Hmax Hcmp Hd. unfold timervec. rewrite run_csrrw, Hsc. set (s0 := set_reg A0 sc _).
  set (l := [(A1, 0); (A2, 8); (A3, 16)]).
  assert (Hu : ∀ k, 0 <= k <= 32 → u64 (sc + k) = sc + k) by (intros; apply u64_small; lia).
  assert (Hr : reach bare s0 (m_reg s0 A0) sc l) by (repeat constructor; unfold bare; f_equal; apply Hu; cbn; lia).
  pose proof (load64_bound (m_mem s) (sc + 24)) as Hb. rewrite Hcmp in Hb.
  match goal with |- context [run bare sym ?c s0] =>
    change (run bare sym c s0) with (run bare sym (saves l A0 ++ drop 3 c) s0) end.
  rewrite (run_saves _ _ _ _ sc) by exact Hr. cbn [drop]. set (m1 := put_frame sc l (m_reg s0) (m_mem s0)).
  assert (Hout : ∀ x, x + 8 <= sc ∨ sc + 24 <= x → load64 m1 x = load64 (m_mem s) x).
  { intros x Hx. apply load_put_out. unfold l. rewrite !Forall_cons, Forall_nil. cbn [snd]. lia. }
  assert (Hin : ∀ r k, (r, k) ∈ l → load64 m1 (sc + k) = m_reg s r).
  { intros r k Hk. unfold m1. rewrite (load_put _ _ _ _ r k) by (done || (apply (bool_decide_unpack _); by vm_compute)).
    rewrite u64_small; unfold s0; cbn; [|case_decide; [lia|apply Hw]]. rewrite decide_False; [done|]. intros ->. set_solver. }
  assert (Ea : m_reg s0 A0 = sc) by apply reg_same.
  erewrite run_ld by (look; unfold bare; by rewrite Ea, Hu by lia). look. rewrite Hout, Hcmp by lia.
  erewrite run_ld by (look; unfold bare; by rewrite Ea, Hu by lia). look. rewrite Hout by lia.
  erewrite run_ld by (look; unfold bare; by rewrite Z.add_0_r, u64_small by lia). look. rewrite Hout by lia.
  rewrite run_add. look.
  erewrite run_sd by (look; unfold bare; by rewrite Z.add_0_r, u64_small by lia). look. set (m2 := store64 m1 cmp _).
  rewrite run_li, run_csrw. look.
  assert (Hin2 : ∀ r k, (r, k) ∈ l → 0 <= k <= 16 → load64 m2 (sc + k) = m_reg s r).
  { intros r k Hk Hk'. unfold m2. rewrite load_store64_disjoint by lia. by apply Hin. }
  erewrite run_ld by (look; unfold bare; by rewrite Ea, Hu by lia). look. rewrite (Hin2 A3) by (repeat constructor || lia).
  erewrite run_ld by (look; unfold bare; by rewrite Ea, Hu by lia). look. rewrite (Hin2 A2) by (repeat constructor || lia).
  erewrite run_ld by (look; unfold bare; by rewrite Ea, Hu by lia). look. rewrite (Hin2 A1) by (repeat constructor || lia).
  rewrite run_csrrw. look. cbn [run]. eexists. split; [done|]. split_and!.
  - intros r. destruct (decide (r = A0)) as [->|]; [by look|]. destruct (decide (r = A1)) as [->|]; [by look|].
    destruct (decide (r = A2)) as [->|]; [by look|]. destruct (decide (r = A3)) as [->|]; [by look|].
    cbn. by rewrite !decide_False by done.
  - by look.
  - by look.
  - look. unfold m2. rewrite load_store64_same. apply u64_small, u64_bound.
  - intros x Hx Hx'. look. unfold m2. rewrite rd_store64_out by lia. apply rd_put_out. unfold l. rewrite !Forall_cons, Forall_nil. cbn [snd]. lia.
Qed.

(** ** The first instructions

    Each hart calls [start] with the stack pointer at the end of its own 4096
    bytes of [stack0]. *)
Theorem entry_spec va sym s : 0 <= m_csr s Mhartid → 0 <= sym "stack0" → sym "stack0" + 4096 * (m_csr s Mhartid + 1) < 2 ^ 64 →
  ∃ s', run va sym entry s = Called "start" [IJ "spin"] s' ∧ m_reg s' Sp = sym "stack0" + 4096 * (m_csr s Mhartid + 1) ∧ m_mem s' = m_mem s.
Proof.
  intros H0 H1 H2. unfold entry. cbn [run]. eexists. split; [done|]. split; [|done]. look.
  change (u64 (1024 * 4)) with 4096. rewrite (u64_small (_ + 1)), (u64_small (4096 * _)) by lia. apply u64_small. lia.
Qed.

(** The array [initcode] in kernel/proc.c is user/initcode.S assembled without
    the [.p2align 2] of the source, with one byte more: [argv] is at 0x2b and not
    at 0x2c.  The pointers that [exec] finds there are the same. *)
Theorem initcode_assembly :
  initcode = initcode_S false ++ [0] ∧ initcode ≠ initcode_S true ∧
  take 6 (drop 36 initcode) = codes "/init" ++ [0] ∧
  le_dec (take 8 (drop 43 initcode)) = 36 ∧ le_dec (take 8 (drop 44 (initcode_S true))) = 36.
Proof. split_and!; [by vm_compute|apply (bool_decide_unpack _); by vm_compute|by vm_compute..]. Qed.
