(* ===== verification/User.v ===== *)
(** * User programs and their system calls (user/user.h)

    A user program is a tree of system calls: at each node it asks the kernel
    for something and goes on with the answer.  [fork] is a call like the others:
    the child goes on with the answer 0 and the parent with the other one, from
    the same node.  The contents of the program's own memory are values of the
    model; a buffer is the list of its bytes. *)

From S2P Require Import Prelude Memory Params CString.

(** [struct stat] as the program sees it. *)
Record ustat : Type := mk_ustat { us_dev : Z; us_ino : Z; us_type : Z; us_nlink : Z; us_size : Z }.

(** Calls whose argument is an address that need not be that of a value of the
    program; [RegSp] is the stack pointer. *)
Inductive rawcall : Set :=
| WriteAt (fd a n : Z)
| ReadAt (fd a n : Z)
| OpenAt (a mode : Z)
| UnlinkAt (a : Z)
| LinkAt (a b : Z)
| LinkTo (old : list Z) (a : Z)
| ExecAt (a : Z) (argv : list (list Z))
| ExecPtrs (path : list Z) (argv : list Z)
| PipeAt (a : Z)
| RegSp.

(** The system calls, with the type of the answer.  [read] answers with the
    value returned and the bytes stored, [fstat] with the value returned and the
    structure, [pipe] with the value returned and the two descriptors, and [wait]
    with a pointer to a status with the status when it stores one.  The loads and
    stores of a program through a pointer of its own making are asked for in the
    same way, since the kernel decides what happens at such an address. *)
Inductive sysreq : Set → Type :=
| RFork : sysreq Z
| RWait : sysreq Z
| RWaitStatus : sysreq (Z * option Z)
| RPipe : sysreq (Z * (Z * Z))
| RWrite (fd : Z) (bytes : list Z) : sysreq Z
| RRead (fd n : Z) : sysreq (Z * list Z)
| RClose (fd : Z) : sysreq Z
| RKill (pid : Z) : sysreq Z
| RExec (path : list Z) (argv : list (list Z)) : sysreq Z
| ROpen (path : list Z) (mode : Z) : sysreq Z
| RMknod (path : list Z) (major minor : Z) : sysreq Z
| RUnlink (path : list Z) : sysreq Z
| RFstat (fd : Z) : sysreq (Z * ustat)
| RLink (old new : list Z) : sysreq Z
| RMkdir (path : list Z) : sysreq Z
| RChdir (path : list Z) : sysreq Z
| RDup (fd : Z) : sysreq Z
| RGetpid : sysreq Z
| RSbrk (n : Z) : sysreq Z
| RSleep (n : Z) : sysreq Z
| RLoad (a : Z) : sysreq Z
| RStore (a v : Z) : sysreq Z
| RRaw (c : rawcall) : sysreq Z.

Inductive uprog (A : Type) : Type :=
| URet (a : A)
| UCall {X : Set} (r : sysreq X) (k : X → uprog A)
| UExit (status : Z)
| UFuel.
Arguments URet {_} _.
Arguments UCall {_ _} _ _.
Arguments UExit {_} _.
Arguments UFuel {_}.

Fixpoint ubind {A B} (f : A → uprog B) (m : uprog A) : uprog B :=
  match m with
  | URet a => f a
  | UCall r k => UCall r (λ x, ubind f (k x))
  | UExit n => UExit n
  | UFuel => UFuel
  end.
#[global] Instance uprog_ret : MRet uprog := λ A, URet.
#[global] Instance uprog_bind : MBind uprog := λ A B, ubind.

Definition call {X : Set} (r : sysreq X) : uprog X := UCall r URet.

Definition u_fork : uprog Z := call RFork.
Definition u_wait : uprog Z := call RWait.
Definition u_wait_status : uprog (Z * option Z) := call RWaitStatus.
Definition u_pipe : uprog (Z * (Z * Z)) := call RPipe.
Definition u_write (fd : Z) (bytes : list Z) : uprog Z := call (RWrite fd bytes).
Definition u_read (fd n : Z) : uprog (Z * list Z) := call (RRead fd n).
Definition u_close (fd : Z) : uprog Z := call (RClose fd).
Definition u_kill (pid : Z) : uprog Z := call (RKill pid).
Definition u_exec (path : list Z) (argv : list (list Z)) : uprog Z := call (RExec path argv).
Definition u_open (path : list Z) (mode : Z) : uprog Z := call (ROpen path mode).
Definition u_mknod (path : list Z) (major minor : Z) : uprog Z := call (RMknod path major minor).
Definition u_unlink (path : list Z) : uprog Z := call (RUnlink path).
Definition u_fstat (fd : Z) : uprog (Z * ustat) := call (RFstat fd).
Definition u_link (old new : list Z) : uprog Z := call (RLink old new).
Definition u_mkdir (path : list Z) : uprog Z := call (RMkdir path).
Definition u_chdir (path : list Z) : uprog Z := call (RChdir path).
Definition u_dup (fd : Z) : uprog Z := call (RDup fd).
Definition u_getpid : uprog Z := call RGetpid.
Definition u_sbrk (n : Z) : uprog Z := call (RSbrk n).
Definition u_sleep (n : Z) : uprog Z := call (RSleep n).
Definition u_load (a : Z) : uprog Z := call (RLoad a).
Definition u_store (a v : Z) : uprog Z := call (RStore a v).
Definition u_raw (c : rawcall) : uprog Z := call (RRaw c).
Definition u_exit {A} (status : Z) : uprog A := UExit status.
Definition u_when (b : bool) (m : uprog unit) : uprog unit := if b then m else mret tt.

(** ** Running a program that does not fork

    A world answers each call and moves on. *)

Record world (W : Type) : Type := mk_world { answer : ∀ X, sysreq X → W → X * W }.
Arguments answer {_} _ {_} _ _.

Inductive uresult (A : Type) : Type := Returned (a : A) | Exited (status : Z) | Stuck.
Arguments Returned {_} _.
Arguments Exited {_} _.
Arguments Stuck {_}.

Fixpoint urun {W A} (w : world W) (m : uprog A) (s : W) : uresult A * W :=
  match m with
  | URet a => (Returned a, s)
  | UCall r k => let (x, s) := answer w r s in urun w (k x) s
  | UExit n => (Exited n, s)
  | UFuel => (Stuck, s)
  end.

Lemma urun_bind {W A B} (w : world W) (m : uprog A) (f : A → uprog B) s :
  urun w (m ≫= f) s =
    match urun w m s with
    | (Returned a, s') => urun w (f a) s'
    | (Exited n, s') => (Exited n, s')
    | (Stuck, s') => (Stuck, s')
    end.
Proof.
  revert s. induction m as [a|X r k IH|n|]; intros s; try done.
  cbn [urun]. change (mbind f (UCall r k)) with (UCall r (λ x, k x ≫= f)). cbn [urun].
  destruct (answer w r s) as [x s1]. apply IH.
Qed.

Lemma urun_ret {W A} (w : world W) (m : uprog A) a s s' B (f : A → uprog B) :
  urun w m s = (Returned a, s') → urun w (m ≫= f) s = urun w (f a) s'.
Proof. intros E. by rewrite urun_bind, E. Qed.

Lemma urun_call {W} {X : Set} (w : world W) (r : sysreq X) s :
  urun w (call r) s = (Returned (answer w r s).1, (answer w r s).2).
Proof. cbn. by destruct (answer w r s). Qed.

(** ** A stream in, a stream out

    The world of a filter: [read] takes characters off the input, as many at a
    time as [grain] says, and [write] adds to the output, under its descriptor.
    Every other call fails. *)

Record stream : Type := mk_stream { s_in : list Z; s_out : list (Z * Z) }.

Definition stream_answer (grain : list Z → Z → nat) (X : Set) (r : sysreq X) : stream → X * stream :=
  match r with
  | RRead fd n => λ s,
      let k := grain (s_in s) n in
      ((Z.of_nat k, take k (s_in s)), mk_stream (drop k (s_in s)) (s_out s))
  | RWrite fd bytes => λ s, (Z.of_nat (length bytes), mk_stream (s_in s) (s_out s ++ map (pair fd) bytes))
  | RPipe => λ s, ((-1, (-1, -1)), s)
  | RWaitStatus => λ s, ((-1, None), s)
  | RFstat fd => λ s, ((-1, mk_ustat 0 0 0 0 0), s)
  | RFork | RWait | RClose _ | RKill _ | RExec _ _ | ROpen _ _ | RMknod _ _ _ | RUnlink _ | RLink _ _ | RMkdir _
  | RChdir _ | RDup _ | RGetpid | RSbrk _ | RSleep _ | RLoad _ | RStore _ _ | RRaw _ => λ s, (-1, s)
  end.
Definition stream_world (grain : list Z → Z → nat) : world stream := mk_world _ (stream_answer grain).

(** What [read] promises: no more than it was asked for, and something unless
    the input is at its end. *)
Class Grain (grain : list Z → Z → nat) : Prop := {
  grain_le : ∀ l n, 0 <= n → (grain l n ≤ length l)%nat ∧ Z.of_nat (grain l n) <= n;
  grain_pos : ∀ l n, 0 < n → l ≠ [] → (0 < grain l n)%nat }.

(** As much as possible, and a character at a time: a file and a terminal. *)
Definition grain_all (l : list Z) (n : Z) : nat := Nat.min (length l) (Z.to_nat n).
Definition grain_one (l : list Z) (n : Z) : nat := Nat.min (length l) (Nat.min 1 (Z.to_nat n)).
#[global] Instance grain_all_ok : Grain grain_all.
Proof. split; unfold grain_all; [lia|]. intros [|? l] n ? ?; [done|cbn [length]; lia]. Qed.
#[global] Instance grain_one_ok : Grain grain_one.
Proof. split; unfold grain_one; [lia|]. intros [|? l] n ? ?; [done|cbn [length]; lia]. Qed.

Section Streams.
Context (grain : list Z → Z → nat) `{HG : !Grain grain}.
Notation w := (stream_world grain).

Lemma stream_read fd n i o :
  urun w (u_read fd n) (mk_stream i o) =
    (Returned (Z.of_nat (grain i n), take (grain i n) i), mk_stream (drop (grain i n) i) o).
Proof. done. Qed.

Lemma stream_write fd b i o :
  urun w (u_write fd b) (mk_stream i o) = (Returned (Z.of_nat (length b)), mk_stream i (o ++ map (pair fd) b)).
Proof. done. Qed.

(** A read of a positive size ends the input, or takes a part of it. *)
Lemma stream_read_cases fd n i o : 0 < n →
  (i = [] ∧ urun w (u_read fd n) (mk_stream i o) = (Returned (0, []), mk_stream [] o)) ∨
  (∃ c i', i = c ++ i' ∧ c ≠ [] ∧ Z.of_nat (length c) <= n ∧
     urun w (u_read fd n) (mk_stream i o) = (Returned (Z.of_nat (length c), c), mk_stream i' o)).
Proof.
  intros Hn. rewrite stream_read. destruct (grain_le i n) as [H1 H2]; [lia|].
  destruct (decide (i = [])) as [->|Hi].
  - left. simpl in H1. replace (grain [] n) with O by lia. done.
  - right. pose proof (grain_pos i n Hn Hi) as H3. exists (take (grain i n) i), (drop (grain i n) i).
    assert (length (take (grain i n) i) = grain i n) as El by (rewrite length_take; lia).
    rewrite take_drop, El. repeat split; [|lia]. intros E. rewrite E in El. simpl in El. lia.
Qed.
End Streams.

(** ** Running a program with its children

    A child runs to its end as soon as it is forked, from a copy of its parent's
    state; the parent goes on from what the child leaves of it.  [exec] ends a
    process in a command, and what is noted of the commands is collected in the
    order in which they start.  [wait] answers as the world says. *)

Definition command : Type := list Z * list (list Z).

Record procs (W E : Type) : Type := mk_procs {
  p_world : world W;
  p_join : W → W → W;         (* the parent at the fork, the child at its end *)
  p_note : command → W → E }.
Arguments mk_procs {_ _} _ _ _.
Arguments p_world {_ _} _.
Arguments p_join {_ _} _ _ _.
Arguments p_note {_ _} _ _ _.

Section Processes.
Context {W E : Type} (P : procs W E).

Definition run_call {A} {X : Set} (r : sysreq X) :
    (X → W → uresult A * W * list E) → W → uresult A * W * list E :=
  match r in sysreq X return (X → W → uresult A * W * list E) → W → uresult A * W * list E with
  | RFork => λ f s,
      let '(_, s', cs) := f 0 s in
      let '(a, s'', cs') := f 1 (p_join P s s') in
      (a, s'', cs ++ cs')
  | RExec path argv => λ _ s, (Exited 0, s, [p_note P (path, argv) s])
  | r => λ f s, let (x, s) := answer (p_world P) r s in f x s
  end.

Fixpoint run_tree {A} (m : uprog A) (s : W) : uresult A * W * list E :=
  match m with
  | URet a => (Returned a, s, [])
  | UCall r k => run_call r (λ x, run_tree (k x)) s
  | UExit n => (Exited n, s, [])
  | UFuel => (Stuck, s, [])
  end.

(** A part without [fork] and [exec] runs as before. *)
Fixpoint plain {A} (m : uprog A) : Prop :=
  match m with
  | UCall r k => match r with RFork | RExec _ _ => False | _ => True end ∧ ∀ x, plain (k x)
  | _ => True
  end.

Lemma run_tree_plain {A B} (m : uprog A) (f : A → uprog B) s : plain m →
  run_tree (m ≫= f) s =
    match urun (p_world P) m s with
    | (Returned a, s') => run_tree (f a) s'
    | (Exited n, s') => (Exited n, s', [])
    | (Stuck, s') => (Stuck, s', [])
    end.
Proof.
  revert s. induction m as [a|X r k IH|n|]; intros s Hp; try done.
  destruct Hp as [Hr Hk]. change (mbind f (UCall r k)) with (UCall r (λ x, k x ≫= f)). cbn [urun run_tree].
  destruct r; try done; cbn [run_call];
    match goal with |- context [answer _ ?r s] => destruct (answer (p_world P) r s) end; by apply IH.
Qed.

(** Both sides of a [fork]. *)
Lemma run_tree_fork {A} (k : Z → uprog A) s a s1 cs :
  run_tree (k 0) s = (a, s1, cs) →
  run_tree (u_fork ≫= k) s =
    ((run_tree (k 1) (p_join P s s1)).1, cs ++ (run_tree (k 1) (p_join P s s1)).2).
Proof.
  intros E1. change (u_fork ≫= k) with (UCall RFork (λ x, URet x ≫= k)).
  change (run_tree (UCall RFork (λ x, URet x ≫= k)) s) with
    (let '(_, s', cs) := run_tree (k 0) s in let '(a, s'', cs') := run_tree (k 1) (p_join P s s') in (a, s'', cs ++ cs')).
  rewrite E1. by destruct (run_tree (k 1) (p_join P s s1)) as [[??]?].
Qed.

Lemma run_tree_exec {A} path argv (k : Z → uprog A) s :
  run_tree (u_exec path argv ≫= k) s = (Exited 0, s, [p_note P (path, argv) s]).
Proof. done. Qed.

Lemma run_tree_assoc {A B C} (m : uprog A) (f : A → uprog B) (g : B → uprog C) s :
  run_tree ((m ≫= f) ≫= g) s = run_tree (m ≫= λ x, f x ≫= g) s.
Proof.
  revert s. induction m as [a|X r k IH|n|]; intros s; try done.
  change ((UCall r k ≫= f) ≫= g) with (UCall r (λ x, (k x ≫= f) ≫= g)).
  change (UCall r k ≫= λ x, f x ≫= g) with (UCall r (λ x, k x ≫= λ x, f x ≫= g)). cbn [run_tree].
  destruct r; cbn [run_call]; try (by destruct (answer (p_world P) _ s); apply IH); [|done].
  rewrite IH. destruct (run_tree _ s) as [[? s1] ?]. by rewrite IH.
Qed.
End Processes.

(** Processes that share their streams, and what they run. *)
Definition stream_procs (grain : list Z → Z → nat) : procs stream command :=
  mk_procs (stream_world grain) (λ _ s, s) (λ c _, c).
