(* ===== verification/Ulib.v ===== *)
(** * The C library of user programs: user/ulib.c and user/printf.c

    Strings and buffers are lists of bytes, read as NUL beyond their end; the
    block functions act on the memory of the process. *)

From S2P Require Import Prelude Memory Params CString Uart User.

(** ** user/ulib.c *)

(** The buffer at [s] after the call. *)
Fixpoint strcpy (s t : list Z) : list Z :=
  match t with
  | [] => 0 :: tl s
  | c :: t => if c =? 0 then 0 :: tl s else c :: strcpy (tl s) t
  end.

Fixpoint strcmp (p q : list Z) : Z :=
  match p with
  | [] => 0 - u8 (chr q)
  | c :: p => if negb (c =? 0) && (c =? chr q) then strcmp p (tl q) else u8 c - u8 (chr q)
  end.

Fixpoint u_strlen (s : list Z) : Z :=
  match s with
  | [] => 0
  | c :: s => if c =? 0 then 0 else 1 + u_strlen s
  end.

Definition u_memset (m : mem) (dst c n : Z) : mem := memset_loop (Z.to_nat n) m dst c 0.

(** The index of the character found, [None] for a null pointer. *)
Fixpoint strchr (s : list Z) (c : Z) : option nat :=
  match s with
  | [] => None
  | x :: s => if x =? 0 then None else if x =? c then Some O else S <$> strchr s c
  end.

(** [for(i=0; i+1 < max; ) ...]: the characters stored, with [k] more to come at
    most. *)
Fixpoint gets_loop (k : nat) : uprog (list Z) :=
  match k with
  | O => mret []
  | S k =>
      r ← u_read 0 1;
      if r.1 <? 1 then mret [] else
      let c := hd 0 r.2 in
      if (c =? 10) || (c =? 13) then mret [c] else
      l ← gets_loop k;
      mret (c :: l)
  end.

(** The buffer after the call. *)
Definition u_gets (buf : list Z) (max : Z) : uprog (list Z) :=
  l ← gets_loop (Z.to_nat (max - 1));
  mret (l ++ 0 :: drop (S (length l)) buf).

Definition u_stat (n : list Z) (st : ustat) : uprog (Z * ustat) :=
  fd ← u_open n 0;
  if fd <? 0 then mret (-1, st) else
  r ← u_fstat fd;
  u_close fd;;
  mret r.

Fixpoint atoi_loop (n : Z) (s : list Z) : Z :=
  match s with
  | [] => n
  | c :: s => if (48 <=? c) && (c <=? 57) then atoi_loop (i32 (n * 10 + c - 48)) s else n
  end.
Definition atoi (s : list Z) : Z := atoi_loop 0 s.

Definition u_memmove (m : mem) (vdst vsrc n : Z) : mem :=
  if vsrc >? vdst then copy_up (Z.to_nat n) m vdst vsrc
  else copy_down (Z.to_nat n) m (vdst + n) (vsrc + n).

Definition u_memcmp (m : mem) (s1 s2 n : Z) : Z := memcmp_loop (Z.to_nat n) m s1 s2.

Definition u_memcpy (m : mem) (dst src n : Z) : mem := u_memmove m dst src n.

(** ** user/printf.c *)

Definition u_digits : list Z := codes "0123456789ABCDEF".

Definition putc (fd c : Z) : uprog unit := u_write fd [u8 c];; mret tt.

(** [do { buf[i++] = digits[x % base]; } while((x /= base) != 0);] *)
Fixpoint u_digits_loop (fuel : nat) (x base : Z) : list Z :=
  match fuel with
  | O => []
  | S fuel => u_digits !!! Z.to_nat (x mod base) ::
              (if x / base =? 0 then [] else u_digits_loop fuel (x / base) base)
  end.

(** The buffer that [printint] prints from its end on; [x] is a [uint], so that
    32 digits are enough for any base. *)
Definition u_printint_buf (xx base : Z) (sgn : bool) : list Z :=
  let neg := sgn && (xx <? 0) in
  let x := if neg then u32 (- xx) else u32 xx in
  u_digits_loop 32 x base ++ (if neg then [45] else []).

Fixpoint u_putcs (fd : Z) (l : list Z) : uprog unit :=
  match l with
  | [] => mret tt
  | c :: l => putc fd c;; u_putcs fd l
  end.

Definition u_printint (fd xx base : Z) (sgn : bool) : uprog unit :=
  u_putcs fd (reverse (u_printint_buf xx base sgn)).

Fixpoint u_printptr_loop (n : nat) (fd x : Z) : uprog unit :=
  match n with
  | O => mret tt
  | S n => putc fd (u_digits !!! Z.to_nat (Z.shiftr x 60));; u_printptr_loop n fd (u64 (Z.shiftl x 4))
  end.

Definition u_printptr (fd x : Z) : uprog unit :=
  putc fd 48;; putc fd 120;; u_printptr_loop 16 fd x.

(** The arguments of [printf].  [%l] takes a [uint64] and passes it on as an
    [int]. *)
Inductive uarg : Type := AInt (x : Z) | ALong (x : Z) | APtr (x : Z) | AStr (s : option (list Z)) | AChar (c : Z).

(** The loop of [vprintf] from a character of the format on; [percent] is
    [state == '%'].  An argument of the wrong type, or none, has no meaning in C
    and prints nothing here. *)
Fixpoint vprintf (fd : Z) (fmt : list Z) (percent : bool) (ap : list uarg) : uprog unit :=
  match fmt with
  | [] => mret tt
  | c :: fmt =>
      if c =? 0 then mret tt else
      if negb percent then
        if c =? 37 then vprintf fd fmt true ap else putc fd c;; vprintf fd fmt false ap
      else if c =? 100 then
        match ap with AInt x :: ap => u_printint fd x 10 true;; vprintf fd fmt false ap | _ => mret tt end
      else if c =? 108 then
        match ap with ALong x :: ap => u_printint fd (i32 x) 10 false;; vprintf fd fmt false ap | _ => mret tt end
      else if c =? 120 then
        match ap with AInt x :: ap => u_printint fd x 16 false;; vprintf fd fmt false ap | _ => mret tt end
      else if c =? 112 then
        match ap with APtr x :: ap => u_printptr fd x;; vprintf fd fmt false ap | _ => mret tt end
      else if c =? 115 then
        match ap with
        | AStr s :: ap => u_putcs fd (cstr (default (codes "(null)") s));; vprintf fd fmt false ap
        | _ => mret tt
        end
      else if c =? 99 then
        match ap with AChar x :: ap => putc fd x;; vprintf fd fmt false ap | _ => mret tt end
      else if c =? 37 then putc fd c;; vprintf fd fmt false ap
      else putc fd 37;; putc fd c;; vprintf fd fmt false ap
  end.

Definition fprintf (fd : Z) (fmt : list Z) (ap : list uarg) : uprog unit := vprintf fd fmt false ap.
Definition u_printf (fmt : list Z) (ap : list uarg) : uprog unit := vprintf 1 fmt false ap.

(** A format that ends in a newline. *)
Definition line (s : string) : list Z := codes s ++ [10].
