(* ===== verification/Grep.v ===== *)
(** * grep: user/grep.c

    The matcher of Kernighan and Pike against a semantics of its patterns, and
    the loop that cuts the input into lines, for any sizes in which [read]
    delivers it. *)

From S2P Require Import Prelude Memory Params CString Uart User Ulib.

(** ** The matcher *)

(** [matchstar(c, re, text)], with [here] for [matchhere(re, _)]. *)
Definition matchstar (here : list Z → bool) (c : Z) : list Z → bool :=
  fix go (text : list Z) : bool :=
    here text ||
    match text with
    | [] => false
    | x :: text => if x =? 0 then false else ((x =? c) || (c =? 46)) && go text
    end.

Fixpoint matchhere (re text : list Z) : bool :=
  match re with
  | [] => true
  | c :: re =>
      if c =? 0 then true else
      let rest :=
        if (c =? 36) && (chr re =? 0) then chr text =? 0 else
        negb (chr text =? 0) && ((c =? 46) || (c =? chr text)) && matchhere re (tl text) in
      match re with
      | d :: re' => if d =? 42 then matchstar (matchhere re') c text else rest
      | [] => rest
      end
  end.

(** The loop of [match], which looks at the empty string too. *)
Fixpoint match_loop (re text : list Z) : bool :=
  matchhere re text ||
  match text with
  | [] => false
  | x :: text => if x =? 0 then false else match_loop re text
  end.

Definition match_ (re text : list Z) : bool :=
  if chr re =? 94 then matchhere (tl re) text else match_loop re text.

(** ** The program *)

(** [while((q = strchr(p, '\n')) != 0) ...]: [p] is the rest of the buffer, up to
    its end; the rest left when the loop ends.  A turn takes a character at
    least. *)
Fixpoint grep_lines (fuel : nat) (pattern p : list Z) : uprog (list Z) :=
  match fuel with
  | O => UFuel
  | S fuel =>
      match strchr p 10 with
      | None => mret p
      | Some q =>
          u_when (match_ pattern (take q p)) (u_write 1 (take (S q) p);; mret tt);;
          grep_lines fuel pattern (drop (S q) p)
      end
  end.

(** [grep] from the head of its loop on, with the first [m] characters of [buf]. *)
Fixpoint grep (fuel : nat) (pattern : list Z) (fd : Z) (buf : list Z) : uprog unit :=
  match fuel with
  | O => UFuel
  | S fuel =>
      r ← u_read fd (1024 - Z.of_nat (length buf) - 1);
      if r.1 <=? 0 then mret tt else
      let p := buf ++ r.2 in
      rest ← grep_lines (S (length p)) pattern p;
      grep fuel pattern fd rest
  end.

Fixpoint grep_files (fuel : nat) (pattern : list Z) (files : list (list Z)) : uprog unit :=
  match files with
  | [] => mret tt
  | f :: files =>
      fd ← u_open f 0;
      (if fd <? 0 then u_printf (line "grep: cannot open %s") [AStr (Some f)];; u_exit 1 else
       grep fuel pattern fd [];;
       u_close fd;;
       grep_files fuel pattern files)
  end.

Definition grep_main (fuel : nat) (argv : list (list Z)) : uprog unit :=
  match argv with
  | _ :: pattern :: files =>
      match files with
      | [] => grep fuel pattern 0 [];; u_exit 0
      | _ => grep_files fuel pattern files;; u_exit 0
      end
  | _ => fprintf 2 (line "usage: grep pattern [file ...]") [];; u_exit 1
  end.

(** ** What a pattern means *)

(** A character, and any number of them; [.] is any character. *)
Inductive atom : Type := One (c : Z) | Rep (c : Z).
Definition stands_for (c x : Z) : Prop := c = 46 ∨ c = x.

(** The strings a list of atoms matches. *)
Inductive lang : list atom → list Z → Prop :=
| lang_nil : lang [] []
| lang_one c x r s : stands_for c x → lang r s → lang (One c :: r) (x :: s)
| lang_rep c l r s : Forall (stands_for c) l → lang r s → lang (Rep c :: r) (l ++ s).

(** The atoms of a pattern, and whether a final [$] ties it to the end of the
    line. *)
Fixpoint atoms (re : list Z) : list atom * bool :=
  match re with
  | [] => ([], false)
  | c :: re =>
      let one := if (c =? 36) && bool_decide (re = []) then ([], true) else (One c :: (atoms re).1, (atoms re).2) in
      match re with
      | d :: re' => if d =? 42 then (Rep c :: (atoms re').1, (atoms re').2) else one
      | [] => one
      end
  end.

(** [s] starts with a match. *)
Definition starts (re s : list Z) : Prop :=
  ∃ mid post, s = mid ++ post ∧ lang (atoms re).1 mid ∧ ((atoms re).2 = true → post = []).

(** [s] contains a match; [^] ties it to the start. *)
Definition occurs (re s : list Z) : Prop :=
  if chr re =? 94 then starts (tl re) s else ∃ pre rest, s = pre ++ rest ∧ starts re rest.

Definition nonul (s : list Z) : Prop := Forall (λ c, c ≠ 0) s.

Lemma lang_one_inv c r s : lang (One c :: r) s → ∃ x s', s = x :: s' ∧ stands_for c x ∧ lang r s'.
Proof. inversion 1; subst; eauto. Qed.

Lemma lang_rep_inv c r s : lang (Rep c :: r) s → ∃ l s', s = l ++ s' ∧ Forall (stands_for c) l ∧ lang r s'.
Proof. inversion 1; subst; eauto. Qed.

(** A star takes characters it stands for, then lets the rest match. *)
Lemma matchstar_iff here c text : nonul text →
  matchstar here c text = true ↔ ∃ l s, text = l ++ s ∧ Forall (stands_for c) l ∧ here s = true.
Proof.
  induction 1 as [|x t Hx _ IH]; simpl.
  - rewrite orb_false_r. split; [intros; exists [], []; by auto|]. intros (l&s&E&_&H).
    by apply eq_sym, app_nil in E as [-> ->].
  - rewrite (proj2 (Z.eqb_neq x 0) Hx), orb_true_iff, andb_true_iff, orb_true_iff, !Z.eqb_eq, IH. split.
    + intros [H|[Hc (l&s&->&Hl&H)]]; [by exists [], (x :: t)|].
      exists (x :: l), s. split; [done|]. split; [|done]. constructor; [|done]. unfold stands_for. intuition.
    + intros ([|y l]&s&E&Hl&H); simpl in E; simplify_eq; [by left|right].
      apply Forall_cons in Hl as [Hy Hl]. unfold stands_for in Hy. split; [intuition|eauto].
Qed.

Lemma nonul_tl s : nonul s → nonul (tl s).
Proof. destruct 1; [constructor|done]. Qed.

Lemma nonul_chr s : nonul s → (chr s =? 0) = bool_decide (s = []).
Proof. destruct 1 as [|c s Hc]; simpl; [done|]. by rewrite (proj2 (Z.eqb_neq c 0) Hc). Qed.

(** One character of the pattern that is not starred. *)
Lemma starts_one c re s : nonul s → c ≠ 0 →
  (if bool_decide (s = []) then false else ((c =? 46) || (c =? chr s))) = true ∧ starts re (tl s) ↔
  ∃ mid post, s = mid ++ post ∧ lang (One c :: (atoms re).1) mid ∧ ((atoms re).2 = true → post = []).
Proof.
  intros Hs Hc. split.
  - destruct s as [|x s]; simpl; [naive_solver|]. rewrite orb_true_iff, !Z.eqb_eq.
    intros [Hx (mid&post&->&Hl&Hp)]. exists (x :: mid), post. split_and!; [done| |done]. by constructor.
  - intros (mid&post&->&Hl&Hp). apply lang_one_inv in Hl as (x&mid'&->&Hx&Hl). simpl.
    rewrite orb_true_iff, !Z.eqb_eq. split; [done|]. by exists mid', post.
Qed.

Lemma matchhere_iff re text : nonul re → nonul text → matchhere re text = true ↔ starts re text.
Proof.
  revert text. induction re as [re IH] using (induction_ltof1 _ (@length Z)). unfold ltof in IH.
  intros text Hre Ht. destruct re as [|c re]; [split; [exists [], text; by repeat constructor|done]|].
  apply Forall_cons in Hre as [Hc Hre].
  assert ((if (c =? 36) && (chr re =? 0) then chr text =? 0 else
             negb (chr text =? 0) && ((c =? 46) || (c =? chr text)) && matchhere re (tl text)) = true ↔
          ∃ mid post, text = mid ++ post ∧
            lang (if (c =? 36) && bool_decide (re = []) then ([], true) else (One c :: (atoms re).1, (atoms re).2)).1 mid ∧
            ((if (c =? 36) && bool_decide (re = []) then ([], true) else (One c :: (atoms re).1, (atoms re).2)).2 = true →
             post = [])) as Hone.
  { rewrite !nonul_chr by done. destruct ((c =? 36) && bool_decide (re = [])); simpl.
    - rewrite bool_decide_eq_true. split; [intros ->; exists [], []; by repeat constructor|].
      intros (mid&post&->&Hl&Hp). rewrite Hp by done. by inversion Hl.
    - rewrite <- starts_one by done. rewrite <- IH by (simpl; auto using nonul_tl; lia).
      rewrite !andb_true_iff. by case_bool_decide; naive_solver. }
  unfold starts. cbn [matchhere atoms]. rewrite (proj2 (Z.eqb_neq c 0) Hc).
  destruct re as [|d re']; [done|]. destruct (Z.eqb_spec d 42) as [->|Hd]; [|done].
  apply Forall_cons in Hre as [_ Hre]. rewrite matchstar_iff by done. cbn [fst snd]. split.
  - intros (l&s&->&Hl&H). apply Forall_app in Ht as [_ Hs].
    apply IH in H as (mid&post&->&Hm&Hp); [|simpl; lia|done|done].
    exists (l ++ mid), post. rewrite <- app_assoc. split_and!; [done|by constructor|done].
  - intros (mid&post&->&Hl&Hp). apply lang_rep_inv in Hl as (l&s&->&Hl&Hs).
    rewrite <- app_assoc in *. exists l, (s ++ post). split_and!; [done..|].
    apply Forall_app in Ht as [_ Ht]. apply IH; [simpl; lia|done..|]. by exists s, post.
Qed.

(** C26: The matcher of grep decides its patterns: it accepts a line exactly when
    some part of the line, its start after [^] and its end before a final [$], is
    in the language of the pattern's characters, dots and starred characters. *)
Theorem match_decides (re text : list Z) :
  nonul re → nonul text → match_ re text = true ↔ occurs re text.
Proof.
  intros Hre Ht. unfold match_, occurs. destruct (chr re =? 94); [apply matchhere_iff; auto using nonul_tl|].
  induction Ht as [|x t Hx Ht IH]; cbn [match_loop].
  - rewrite orb_false_r, matchhere_iff by (done || constructor). split; [by exists [], []|].
    intros (pre&rest&E&H). by apply eq_sym, app_nil in E as [-> ->].
  - rewrite (proj2 (Z.eqb_neq x 0) Hx), orb_true_iff, IH, matchhere_iff by (done || by constructor). split.
    + intros [H|(pre&rest&->&H)]; [by exists [], (x :: t)|by exists (x :: pre), rest].
    + intros ([|y pre]&rest&E&H); simpl in E; simplify_eq; [by left|right; eauto].
Qed.

Lemma match_decides_witness :
  match_ (codes "^a.*z$") (codes "abcz") = true ∧ occurs (codes "^a.*z$") (codes "abcz").
Proof.
  split; [reflexivity|]. apply (match_decides (codes "^a.*z$") (codes "abcz")); [repeat constructor; done..|reflexivity].
Defined.

(** ** The lines *)

(** The lines that match, each with its newline. *)
Definition matching (re : list Z) (ls : list (list Z)) : list Z :=
  concat (map (λ l, l ++ [10]) (filter (λ l, match_ re l = true) ls)).

Lemma matching_app re x y : matching re (x ++ y) = matching re x ++ matching re y.
Proof. unfold matching. by rewrite filter_app, map_app, concat_app. Qed.

Lemma strchr_none c e r : c ≠ 0 → nonul e → Forall (λ x, x ≠ c) e →
  strchr e c = None ∧ strchr (e ++ c :: r) c = Some (length e).
Proof.
  intros Hc. induction e as [|x e IH]; simpl; intros He Hn.
  - by rewrite (proj2 (Z.eqb_neq c 0) Hc), Z.eqb_refl.
  - apply Forall_cons in He as [H0 He]. apply Forall_cons in Hn as [H1 Hn].
    rewrite (proj2 (Z.eqb_neq x 0) H0), (proj2 (Z.eqb_neq x c) H1). by destruct (IH He Hn) as [-> ->].
Qed.

Section GrepLines.
Context (grain : list Z → Z → nat) `{HG : !Grain grain} (re : list Z).
Notation w := (stream_world grain).

Lemma grep_lines_run p : nonul p → ∀ fuel i o, (length p < fuel)%nat →
  urun w (grep_lines fuel re p) (mk_stream i o) =
    (Returned (tail_of 10 p), mk_stream i (o ++ map (pair 1) (matching re (lines_of 10 p)))).
Proof.
  induction p as [e He|e r He IH] using (lines_ind 10); intros Hn [|fuel] i o Hf; try lia; cbn [grep_lines].
  - destruct (strchr_none 10 e [] ltac:(done) Hn He) as [-> _]. destruct (lines_last 10 e He) as [-> ->].
    simpl. by rewrite app_nil_r.
  - apply Forall_app in Hn as [Hn1 Hn2]. apply Forall_cons in Hn2 as [_ Hn2].
    destruct (strchr_none 10 e r ltac:(done) Hn1 He) as [_ ->]. destruct (lines_app 10 e r He) as [-> ->].
    rewrite take_app_length, cons_middle, app_assoc.
    replace (S (length e)) with (length (e ++ [10])) by (rewrite length_app; simpl; lia).
    rewrite take_app_length, drop_app_length. rewrite length_app in Hf. simpl in Hf.
    rewrite urun_bind. unfold matching. rewrite filter_cons. destruct (match_ re e) eqn:Em; cbn [u_when].
    + rewrite urun_bind, stream_write. cbn [urun mret uprog_ret].
      rewrite decide_True by done. rewrite IH by (done || lia). simpl. by rewrite !map_app, !app_assoc.
    + cbn [urun mret uprog_ret]. rewrite decide_False by done. by rewrite IH by (done || lia).
Qed.

Lemma nonul_tail p : nonul p → nonul (tail_of 10 p).
Proof.
  induction p as [e He|e r He IH] using (lines_ind 10); intros Hn; [by destruct (lines_last 10 e He) as [_ ->]|].
  destruct (lines_app 10 e r He) as [_ ->]. apply Forall_app in Hn as [_ Hn]. by apply Forall_cons in Hn as [_ Hn]; auto.
Qed.

Lemma grep_run fd fuel : ∀ buf i o, (length i < fuel)%nat → nonul buf → nonul i → Forall (λ c, c ≠ 10) buf →
  Forall (λ l, (length l < 1023)%nat) (split_on 10 (buf ++ i)) →
  urun w (grep fuel re fd buf) (mk_stream i o) =
    (Returned tt, mk_stream [] (o ++ map (pair 1) (matching re (lines_of 10 (buf ++ i))))).
Proof.
  induction fuel as [|fuel IH]; intros buf i o Hf Hb Hi Hnl Hs; [lia|]. cbn [grep]. rewrite urun_bind.
  assert (length buf < 1023)%nat as Hlen.
  { destruct (split_on_head 10 buf i Hnl) as (e'&r&E). rewrite E in Hs. apply Forall_cons in Hs as [Hs _].
    rewrite length_app in Hs. lia. }
  destruct (stream_read_cases grain fd (1024 - Z.of_nat (length buf) - 1) i o) as [[-> ->]|(c&i'&->&Hc&Hl&->)]; [lia| |].
  - cbn. rewrite app_nil_r. destruct (lines_last 10 buf Hnl) as [-> _]. by rewrite app_nil_r.
  - apply Forall_app in Hi as [Hc0 Hi']. cbn [fst snd].
    assert (length c ≠ O) as Hc' by (by destruct c).
    rewrite (proj2 (Z.leb_gt _ 0)) by lia. rewrite urun_bind, grep_lines_run by (by apply Forall_app || lia).
    rewrite (app_assoc buf c i'), (lines_of_app 10 (buf ++ c) i'), matching_app, map_app, app_assoc.
    rewrite length_app in Hf. apply IH; [lia| |done|apply tail_of_clean|].
    + apply nonul_tail, Forall_app. auto.
    + rewrite app_assoc, split_on_app in Hs. by apply Forall_app in Hs as [_ Hs].
Qed.

(** C27: On an input that holds no NUL and whose lines are all shorter than 1023
    characters, and however [read] cuts it up, grep prints exactly the lines
    that end in a newline and match, in order and complete.  A last line
    without a newline is not looked at, and not printed even if it matches; a
    line of 1023 characters or more would end the program. *)
Theorem grep_prints fd i o fuel :
  (length i < fuel)%nat → nonul i → Forall (λ l, (length l < 1023)%nat) (split_on 10 i) →
  urun w (grep fuel re fd []) (mk_stream i o) =
    (Returned tt, mk_stream [] (o ++ map (pair 1) (matching re (lines_of 10 i)))).
Proof. intros Hf Hi Hs. by apply grep_run; [| constructor| |constructor|]. Qed.
End GrepLines.

Lemma grep_prints_witness :
  urun (stream_world grain_one) (grep 20 (codes "b") 3 []) (mk_stream (codes "ab" ++ [10] ++ codes "cd" ++ [10] ++ codes "bx") []) =
    (Returned tt, mk_stream [] (map (pair 1) (codes "ab" ++ [10]))).
Proof.
  refine (eq_trans (grep_prints grain_one (codes "b") 3 _ [] 20 _ _ _) _); [vm_compute; lia|repeat constructor; done| |reflexivity].
  repeat constructor; vm_compute; lia.
Defined.

(** A line as long as the buffer ends the program: the read is of size 0, which
    looks like the end of the input. *)
Theorem grep_long_line grain `{!Grain grain} re fd buf i o fuel :
  length buf = 1023%nat → urun (stream_world grain) (grep (S fuel) re fd buf) (mk_stream i o) = (Returned tt, mk_stream i o).
Proof.
  intros Hl. cbn [grep]. rewrite urun_bind, stream_read, Hl. change (1024 - Z.of_nat 1023 - 1) with 0.
  destruct (grain_le i 0) as [_ H]; [lia|]. replace (grain i 0) with O by lia. done.
Qed.
