(* ===== verification/Programs.v ===== *)
(** * The small user programs

    One definition per function of user/cat.c, wc.c, echo.c, rm.c, kill.c, ln.c,
    mkdir.c, sleep.c, zombie.c, ls.c, find.c, xargs.c, init.c, primes.c,
    pingpong.c, stressfs.c and forktest.c.  [argv] is the list of the arguments,
    the name of the program first; loops without a bound of their own take fuel. *)

From S2P Require Import Prelude Memory Params CString Uart Console User Ulib.

Definition s_arg (s : list Z) : uarg := AStr (Some s).

(** ** cat *)

Fixpoint cat (fuel : nat) (fd : Z) : uprog unit :=
  match fuel with
  | O => UFuel
  | S fuel =>
      r ← u_read fd 512;
      if r.1 >? 0 then
        k ← u_write 1 r.2;
        if negb (k =? r.1) then fprintf 2 (line "cat: write error") [];; u_exit 1 else cat fuel fd
      else if r.1 <? 0 then fprintf 2 (line "cat: read error") [];; u_exit 1
      else mret tt
  end.

Fixpoint cat_files (fuel : nat) (files : list (list Z)) : uprog unit :=
  match files with
  | [] => mret tt
  | f :: files =>
      fd ← u_open f 0;
      if fd <? 0 then fprintf 2 (line "cat: cannot open %s") [s_arg f];; u_exit 1 else
      cat fuel fd;;
      u_close fd;;
      cat_files fuel files
  end.

Definition cat_main (fuel : nat) (argv : list (list Z)) : uprog unit :=
  match argv with
  | [] | [_] => cat fuel 0;; u_exit 0
  | _ :: files => cat_files fuel files;; u_exit 0
  end.

(** ** wc *)

Record counts : Type := mk_counts { wc_l : Z; wc_w : Z; wc_c : Z; wc_inword : bool }.

(** [strchr(" \r\t\n\v", c)], which finds no NUL: the loop of [strchr] ends
    before it. *)
Definition wc_blank (c : Z) : bool := bool_decide (is_Some (strchr [32; 13; 9; 10; 11] c)).

(** The body of the loop over the buffer; the counters are [int]s. *)
Definition wc_char (s : counts) (x : Z) : counts :=
  let c := i32 (wc_c s + 1) in
  let l := if x =? 10 then i32 (wc_l s + 1) else wc_l s in
  if wc_blank x then mk_counts l (wc_w s) c false
  else if negb (wc_inword s) then mk_counts l (i32 (wc_w s + 1)) c true
  else mk_counts l (wc_w s) c (wc_inword s).

Fixpoint wc_loop (fuel : nat) (fd : Z) (s : counts) : uprog (Z * counts) :=
  match fuel with
  | O => UFuel
  | S fuel =>
      r ← u_read fd 512;
      if r.1 >? 0 then wc_loop fuel fd (fold_left wc_char r.2 s) else mret (r.1, s)
  end.

Definition wc (fuel : nat) (fd : Z) (name : list Z) : uprog unit :=
  r ← wc_loop fuel fd (mk_counts 0 0 0 false);
  if r.1 <? 0 then u_printf (line "wc: read error") [];; u_exit 1 else
  u_printf (line "%d %d %d %s") [AInt (wc_l r.2); AInt (wc_w r.2); AInt (wc_c r.2); s_arg name].

Fixpoint wc_files (fuel : nat) (files : list (list Z)) : uprog unit :=
  match files with
  | [] => mret tt
  | f :: files =>
      fd ← u_open f 0;
      if fd <? 0 then u_printf (line "wc: cannot open %s") [s_arg f];; u_exit 1 else
      wc fuel fd f;;
      u_close fd;;
      wc_files fuel files
  end.

Definition wc_main (fuel : nat) (argv : list (list Z)) : uprog unit :=
  match argv with
  | [] | [_] => wc fuel 0 [];; u_exit 0
  | _ :: files => wc_files fuel files;; u_exit 0
  end.

(** ** echo, rm, kill, ln, mkdir, sleep, zombie *)

Fixpoint echo_args (args : list (list Z)) : uprog unit :=
  match args with
  | [] => mret tt
  | a :: args =>
      u_write 1 (take (Z.to_nat (u_strlen a)) a);;
      u_write 1 (match args with [] => [10] | _ => [32] end);;
      echo_args args
  end.
Definition echo_main (argv : list (list Z)) : uprog unit := echo_args (tl argv);; u_exit 0.

(** The loops of [rm] and [mkdir] leave at the first failure. *)
Fixpoint rm_files (files : list (list Z)) : uprog unit :=
  match files with
  | [] => mret tt
  | f :: files =>
      r ← u_unlink f;
      if r <? 0 then fprintf 2 (line "rm: %s failed to delete") [s_arg f] else rm_files files
  end.
Definition rm_main (argv : list (list Z)) : uprog unit :=
  if (length argv <? 2)%nat then fprintf 2 (line "Usage: rm files...") [];; u_exit 1 else
  rm_files (tl argv);; u_exit 0.

Fixpoint kill_args (args : list (list Z)) : uprog unit :=
  match args with
  | [] => mret tt
  | a :: args => u_kill (atoi a);; kill_args args
  end.
Definition kill_main (argv : list (list Z)) : uprog unit :=
  if (length argv <? 2)%nat then fprintf 2 (line "usage: kill pid...") [];; u_exit 1 else
  kill_args (tl argv);; u_exit 0.

Definition ln_main (argv : list (list Z)) : uprog unit :=
  match argv with
  | [_; old; new] =>
      r ← u_link old new;
      u_when (r <? 0) (fprintf 2 (line "link %s %s: failed") [s_arg old; s_arg new]);;
      u_exit 0
  | _ => fprintf 2 (line "Usage: ln old new") [];; u_exit 1
  end.

Fixpoint mkdir_files (files : list (list Z)) : uprog unit :=
  match files with
  | [] => mret tt
  | f :: files =>
      r ← u_mkdir f;
      if r <? 0 then fprintf 2 (line "mkdir: %s failed to create") [s_arg f] else mkdir_files files
  end.
Definition mkdir_main (argv : list (list Z)) : uprog unit :=
  if (length argv <? 2)%nat then fprintf 2 (line "Usage: mkdir files...") [];; u_exit 1 else
  mkdir_files (tl argv);; u_exit 0.

Definition sleep_main (argv : list (list Z)) : uprog unit :=
  match argv with
  | [_; ticks] => u_sleep (atoi ticks);; u_exit 0
  | _ => fprintf 2 (line "usage: sleep <ticks>") [];; u_exit 1
  end.

Definition zombie_main : uprog unit :=
  pid ← u_fork;
  u_when (pid >? 0) (u_sleep 5;; mret tt);;
  u_exit 0.

(** ** ls and find *)

(** [for(p=path+strlen(path); p >= path && *p != '/'; p--); p++;]: the index of
    [p] in the end. *)
Fixpoint after_slash (path : list Z) (p : nat) : nat :=
  if nth p path 0 =? 47 then S p else
  match p with O => O | S p => after_slash path p end.
Definition basename (path : list Z) : list Z := drop (after_slash path (Z.to_nat (u_strlen path))) path.

(** [fmtname] of ls: [buf] is zero in its last character. *)
Definition fmtname (path : list Z) : list Z :=
  let p := basename path in
  if Z.of_nat DIRSIZ <=? u_strlen p then p else cstr p ++ repeat 32 (DIRSIZ - Z.to_nat (u_strlen p)).

(** [fmtname] of find: the name without blanks. *)
Definition fmtname_find (path : list Z) : list Z :=
  let p := basename path in
  if Z.of_nat DIRSIZ <=? u_strlen p then p else cstr p.

(** The directory entry read, as a number and the 14 characters of the name. *)
Definition u_dirent (bytes : list Z) : Z * list Z := (le_dec (take 2 bytes), take DIRSIZ (drop 2 bytes)).

(** [strcpy(buf, path); ... *p++ = '/'; memmove(p, de.name, DIRSIZ); p[DIRSIZ] = 0;] *)
Definition entry_path (path name : list Z) : list Z := cstr path ++ 47 :: cstr (take DIRSIZ name).

Fixpoint ls_dir (fuel : nat) (fd : Z) (path : list Z) (st : ustat) : uprog unit :=
  match fuel with
  | O => UFuel
  | S fuel =>
      r ← u_read fd 16;
      if negb (r.1 =? 16) then mret tt else
      let de := u_dirent r.2 in
      if de.1 =? 0 then ls_dir fuel fd path st else
      let buf := entry_path path de.2 in
      s ← u_stat buf st;
      if s.1 <? 0 then u_printf (line "ls: cannot stat %s") [s_arg buf];; ls_dir fuel fd path s.2 else
      u_printf (line "%s %d %d %d")
        [s_arg (fmtname buf); AInt (us_type s.2); AInt (i32 (us_ino s.2)); AInt (i32 (us_size s.2))];;
      ls_dir fuel fd path s.2
  end.

Definition ls (fuel : nat) (path : list Z) : uprog unit :=
  fd ← u_open path 0;
  if fd <? 0 then fprintf 2 (line "ls: cannot open %s") [s_arg path] else
  r ← u_fstat fd;
  if r.1 <? 0 then fprintf 2 (line "ls: cannot stat %s") [s_arg path];; u_close fd;; mret tt else
  let st := r.2 in
  (if us_type st =? T_FILE then
     u_printf (line "%s %d %d %l")
       [s_arg (fmtname path); AInt (us_type st); AInt (i32 (us_ino st)); ALong (us_size st)]
   else if us_type st =? T_DIR then
     if u_strlen path + 1 + Z.of_nat DIRSIZ + 1 >? 512 then u_printf (line "ls: path too long") []
     else ls_dir fuel fd path st
   else mret tt);;
  u_close fd;;
  mret tt.

Fixpoint ls_paths (fuel : nat) (paths : list (list Z)) : uprog unit :=
  match paths with
  | [] => mret tt
  | p :: paths => ls fuel p;; ls_paths fuel paths
  end.
Definition ls_main (fuel : nat) (argv : list (list Z)) : uprog unit :=
  if (length argv <? 2)%nat then ls fuel [46];; u_exit 0 else
  ls_paths fuel (tl argv);; u_exit 0.

(** The loop of [find] over a directory, with [rec] for the recursive call. *)
Fixpoint find_dir (rec : list Z → uprog unit) (fuel : nat) (fd : Z) (path : list Z) : uprog unit :=
  match fuel with
  | O => UFuel
  | S fuel =>
      r ← u_read fd 16;
      if negb (r.1 =? 16) then mret tt else
      let de := u_dirent r.2 in
      if de.1 =? 0 then find_dir rec fuel fd path else
      if (strcmp de.2 [46] =? 0) || (strcmp de.2 [46; 46] =? 0) then find_dir rec fuel fd path else
      rec (entry_path path de.2);;
      find_dir rec fuel fd path
  end.

(** The fuel bounds the depth of the recursion and the entries of a directory. *)
Fixpoint find (fuel : nat) (path name : list Z) : uprog unit :=
  match fuel with
  | O => UFuel
  | S fuel =>
      fd ← u_open path 0;
      if fd <? 0 then fprintf 2 (line "find: cannot open %s") [s_arg path] else
      r ← u_fstat fd;
      if r.1 <? 0 then fprintf 2 (line "find: cannot stat %s") [s_arg path];; u_close fd;; mret tt else
      (if us_type r.2 =? T_FILE then
         u_when (strcmp (fmtname_find path) name =? 0) (u_printf (line "%s") [s_arg path])
       else if us_type r.2 =? T_DIR then
         if u_strlen path + 1 + Z.of_nat DIRSIZ + 1 >? 512 then u_printf (line "find: path too long") []
         else find_dir (λ p, find fuel p name) fuel fd path
       else mret tt);;
      u_close fd;;
      mret tt
  end.

Definition find_main (fuel : nat) (argv : list (list Z)) : uprog unit :=
  match argv with
  | _ :: path :: name :: _ => find fuel path name;; u_exit 0
  | _ => fprintf 2 (line "usage: find <path> <filename>") [];; u_exit 1
  end.

(** ** xargs *)

Definition xargs_blank (c : Z) : bool := (c =? 32) || (c =? 9).

Fixpoint skip_blanks (p : list Z) : list Z :=
  match p with
  | c :: p' => if xargs_blank c then skip_blanks p' else p
  | [] => []
  end.

(** [while] the character is neither NUL nor a blank: the word, and what follows. *)
Fixpoint xargs_word (p : list Z) : list Z * list Z :=
  match p with
  | c :: p' => if (c =? 0) || xargs_blank c then ([], p) else (c :: (xargs_word p').1, (xargs_word p').2)
  | [] => ([], [])
  end.

(** The words of the line, to go to [args[idx]] and on; [None] when there are too
    many. *)
Fixpoint xargs_split (fuel idx : nat) (p : list Z) : option (list (list Z)) :=
  match fuel with
  | O => None
  | S fuel =>
      if chr p =? 0 then Some [] else
      let p := skip_blanks p in
      if chr p =? 0 then Some [] else
      if (MAXARG - 1 <=? idx)%nat then None else
      let (w, r) := xargs_word p in
      ws ← xargs_split fuel (S idx) (if chr r =? 0 then r else tl r);
      Some (w :: ws)
  end.

Definition xargs_line (args : list (list Z)) (buf : list Z) : uprog unit :=
  match xargs_split (S (length buf)) (length args) buf with
  | None => fprintf 2 (line "xargs: too many arguments") [];; u_exit 1
  | Some [] => mret tt
  | Some ws =>
      pid ← u_fork;
      if pid =? 0 then
        u_exec (hd [] args) (args ++ ws);;
        fprintf 2 (line "xargs: exec %s failed") [s_arg (hd [] args)];;
        u_exit 1
      else u_wait;; mret tt
  end.

Fixpoint xargs_loop (fuel : nat) (args : list (list Z)) (buf : list Z) : uprog unit :=
  match fuel with
  | O => UFuel
  | S fuel =>
      r ← u_read 0 1;
      if negb (r.1 =? 1) then mret tt else
      let ch := hd 0 r.2 in
      if negb (ch =? 10) && (length buf <? 511)%nat then xargs_loop fuel args (buf ++ [ch]) else
      xargs_line args buf;;
      xargs_loop fuel args []
  end.

Definition xargs_main (fuel : nat) (argv : list (list Z)) : uprog unit :=
  if (length argv <? 2)%nat then fprintf 2 (line "usage: xargs command [arg ...]") [];; u_exit 1 else
  xargs_loop fuel (tl argv) [];;
  u_exit 0.

(** ** init *)

(** [for(;;){ wpid = wait((int* ) 0); ... }]: it ends when the shell has exited. *)
Fixpoint init_wait (fuel : nat) (pid : Z) : uprog unit :=
  match fuel with
  | O => UFuel
  | S fuel =>
      wpid ← u_wait;
      if wpid =? pid then mret tt else
      if wpid <? 0 then u_printf (line "init: wait returned an error") [];; u_exit 1 else
      init_wait fuel pid
  end.

Fixpoint init_loop (fuel : nat) : uprog unit :=
  match fuel with
  | O => UFuel
  | S fuel =>
      u_printf (line "init: starting sh") [];;
      pid ← u_fork;
      if pid <? 0 then u_printf (line "init: fork failed") [];; u_exit 1 else
      if pid =? 0 then
        u_exec (codes "sh") [codes "sh"];;
        u_printf (line "init: exec sh failed") [];;
        u_exit 1
      else
        init_wait fuel pid;;
        init_loop fuel
  end.

Definition init_main (fuel : nat) : uprog unit :=
  fd ← u_open (codes "console") O_RDWR;
  u_when (fd <? 0)
    (u_mknod (codes "console") CONSOLE 0;; u_open (codes "console") O_RDWR;; mret tt);;
  u_dup 0;;
  u_dup 0;;
  init_loop fuel.

(** ** primes *)

(** [while(read(left[0], &n, sizeof(int)) == sizeof(int)) ...] *)
Fixpoint sieve_filter (fuel : nat) (left0 right1 prime : Z) : uprog unit :=
  match fuel with
  | O => UFuel
  | S fuel =>
      r ← u_read left0 4;
      if negb (r.1 =? 4) then mret tt else
      let n := i32 (le_dec r.2) in
      u_when (negb (Z.rem n prime =? 0)) (u_write right1 (le_enc 4 n);; mret tt);;
      sieve_filter fuel left0 right1 prime
  end.

Fixpoint sieve (fuel : nat) (left : Z * Z) : uprog unit :=
  match fuel with
  | O => UFuel
  | S fuel =>
      u_close left.2;;
      r ← u_read left.1 4;
      if negb (r.1 =? 4) then u_close left.1;; u_exit 0 else
      let prime := i32 (le_dec r.2) in
      u_printf (line "prime %d") [AInt prime];;
      q ← u_pipe;
      if q.1 <? 0 then fprintf 2 (line "sieve: pipe failed") [];; u_exit 1 else
      let right := q.2 in
      pid ← u_fork;
      if pid =? 0 then
        u_close right.2;;
        u_close left.1;;
        sieve fuel right;;
        u_exit 0
      else
        u_close right.1;;
        sieve_filter fuel left.1 right.2 prime;;
        u_close left.1;;
        u_close right.2;;
        u_wait;;
        u_exit 0
  end.

(** [for(int i = 2; i <= 35; i++) write(p[1], &i, sizeof(int));], with [k] more
    numbers to go. *)
Fixpoint feed (k : nat) (fd i : Z) : uprog unit :=
  match k with
  | O => mret tt
  | S k => u_write fd (le_enc 4 i);; feed k fd (i + 1)
  end.

Definition primes_main (fuel : nat) : uprog unit :=
  q ← u_pipe;
  let p := q.2 in
  pid ← u_fork;
  if pid =? 0 then
    u_close p.2;;
    sieve fuel p;;
    u_exit 0
  else
    u_close p.1;;
    feed 34 p.2 2;;
    u_close p.2;;
    u_wait;;
    u_exit 0.

(** ** pingpong *)

Definition pingpong_main : uprog unit :=
  q1 ← u_pipe;
  q2 ← u_pipe;
  let p2c := q1.2 in
  let c2p := q2.2 in
  pid ← u_fork;
  if pid <? 0 then fprintf 2 (line "pingpong: fork failed") [];; u_exit 1 else
  if pid =? 0 then
    u_close p2c.2;;
    u_close c2p.1;;
    r ← u_read p2c.1 1;
    let byte := if r.1 =? 1 then r.2 else codes "x" in
    me ← u_getpid;
    u_printf (line "%d: received ping") [AInt me];;
    u_write c2p.2 byte;;
    u_close p2c.1;;
    u_close c2p.2;;
    u_exit 0
  else
    u_close p2c.1;;
    u_close c2p.2;;
    u_write p2c.2 (codes "x");;
    u_close p2c.2;;
    u_read c2p.1 1;;
    me ← u_getpid;
    u_printf (line "%d: received pong") [AInt me];;
    u_close c2p.1;;
    u_wait;;
    u_exit 0.

(** ** stressfs and forktest *)

(** [for(i = 0; i < 4; i++) if(fork() > 0) break;], with [k] turns left. *)
Fixpoint stressfs_fork (k : nat) (i : Z) : uprog Z :=
  match k with
  | O => mret i
  | S k => pid ← u_fork; if pid >? 0 then mret i else stressfs_fork k (i + 1)
  end.

Fixpoint u_repeat (k : nat) (m : uprog unit) : uprog unit :=
  match k with O => mret tt | S k => m;; u_repeat k m end.

Definition stressfs_main : uprog unit :=
  u_printf (line "stressfs starting") [];;
  let data := repeat 97 512 in
  i ← stressfs_fork 4 0;
  u_printf (line "write %d") [AInt i];;
  let path := codes "stressfs" ++ [48 + i] in
  fd ← u_open path (Z.lor O_CREATE O_RDWR);
  u_repeat 20 (u_write fd data;; mret tt);;
  u_close fd;;
  u_printf (line "read") [];;
  fd ← u_open path O_RDONLY;
  u_repeat 20 (u_read fd 512;; mret tt);;
  u_close fd;;
  u_wait;;
  u_exit 0.

Definition forktest_print (s : list Z) : uprog unit := u_write 1 (take (Z.to_nat (u_strlen s)) s);; mret tt.

(** The first loop of [forktest], with [k] turns left: the value of [n] after it. *)
Fixpoint forktest_forks (k : nat) (n : Z) : uprog Z :=
  match k with
  | O => mret n
  | S k =>
      pid ← u_fork;
      if pid <? 0 then mret n else
      if pid =? 0 then u_exit 0 else forktest_forks k (n + 1)
  end.

Fixpoint forktest_waits (n : nat) : uprog unit :=
  match n with
  | O => mret tt
  | S n =>
      r ← u_wait;
      if r <? 0 then forktest_print (line "wait stopped early");; u_exit 1 else forktest_waits n
  end.

Definition forktest : uprog unit :=
  forktest_print (line "fork test");;
  n ← forktest_forks 1000 0;
  if n =? 1000 then forktest_print (line "fork claimed to work N times!");; u_exit 1 else
  forktest_waits (Z.to_nat n);;
  r ← u_wait;
  if negb (r =? -1) then forktest_print (line "wait got too many");; u_exit 1 else
  forktest_print (line "fork test OK").

Definition forktest_main : uprog unit := forktest;; u_exit 0.
