(* ===== verification/ProgramSpec.v ===== *)
(** * What the small programs do

    The filters against their meaning on a stream of characters, for any sizes in
    which [read] delivers it: cat, wc, echo, xargs and the stages of primes. *)

From S2P Require Import Prelude Memory Params CString Uart Console User Ulib Programs.

(** ** Printing and words *)

(** The words of a text: what stands between blanks. *)
Definition blanks (b : Z → bool) (x : list Z) : list Z := map (λ c, if b c then 32 else c) x.
Definition words_by (b : Z → bool) (x : list Z) : list (list Z) := filter (λ e, e ≠ []) (split_on 32 (blanks b x)).

(** The text that [%d] prints. *)
Definition int_text (x : Z) : list Z := map u8 (reverse (u_printint_buf x 10 true)).

Section Printing.
Context (grain : list Z → Z → nat).
Notation w := (stream_world grain).

Lemma putc_run fd c i o : urun w (putc fd c) (mk_stream i o) = (Returned tt, mk_stream i (o ++ [(fd, u8 c)])).
Proof. done. Qed.

Lemma putcs_run fd l i o :
  urun w (u_putcs fd l) (mk_stream i o) = (Returned tt, mk_stream i (o ++ map (pair fd) (map u8 l))).
Proof.
  revert o. induction l as [|c l IH]; intros o; cbn [u_putcs]; [by rewrite app_nil_r|].
  rewrite urun_bind, putc_run, IH. by rewrite <- app_assoc.
Qed.

Lemma printint_run fd x i o :
  urun w (u_printint fd x 10 true) (mk_stream i o) = (Returned tt, mk_stream i (o ++ map (pair fd) (int_text x))).
Proof. apply putcs_run. Qed.

(** A part of the format without [%]. *)
Lemma vprintf_plain fd s fmt ap i o : Forall (λ c, c ≠ 0 ∧ c ≠ 37) s →
  urun w (vprintf fd (s ++ fmt) false ap) (mk_stream i o) =
    urun w (vprintf fd fmt false ap) (mk_stream i (o ++ map (pair fd) (map u8 s))).
Proof.
  intros Hs. revert o. induction Hs as [|c s [H0 H1] _ IH]; intros o; [by rewrite app_nil_r|].
  cbn [app vprintf negb]. rewrite (proj2 (Z.eqb_neq c 0) H0), (proj2 (Z.eqb_neq c 37) H1).
  rewrite urun_bind, putc_run, IH. cbn [map]. by rewrite <- app_assoc.
Qed.

Lemma vprintf_d fd fmt x ap i o :
  urun w (vprintf fd (37 :: 100 :: fmt) false (AInt x :: ap)) (mk_stream i o) =
    urun w (vprintf fd fmt false ap) (mk_stream i (o ++ map (pair fd) (int_text x))).
Proof.
  change (vprintf fd (37 :: 100 :: fmt) false (AInt x :: ap)) with
    (u_printint fd x 10 true;; vprintf fd fmt false ap). by rewrite urun_bind, printint_run.
Qed.

Lemma vprintf_s fd fmt s ap i o :
  urun w (vprintf fd (37 :: 115 :: fmt) false (AStr (Some s) :: ap)) (mk_stream i o) =
    urun w (vprintf fd fmt false ap) (mk_stream i (o ++ map (pair fd) (map u8 (cstr s)))).
Proof.
  change (vprintf fd (37 :: 115 :: fmt) false (AStr (Some s) :: ap)) with
    (u_putcs fd (cstr s);; vprintf fd fmt false ap). by rewrite urun_bind, putcs_run.
Qed.
End Printing.

(** ** cat *)

Section Filters.
Context (grain : list Z → Z → nat) `{HG : !Grain grain}.
Notation w := (stream_world grain).

Lemma cat_run fd i o fuel : (length i < fuel)%nat →
  urun w (cat fuel fd) (mk_stream i o) = (Returned tt, mk_stream [] (o ++ map (pair 1) i)).
Proof.
  revert i o. induction fuel as [|fuel IH]; intros i o Hf; [lia|]. cbn [cat]. rewrite urun_bind.
  destruct (stream_read_cases grain fd 512 i o) as [[-> ->]|(c&i'&->&Hc&_&->)]; [lia|by rewrite app_nil_r|].
  cbn [fst snd]. assert (length c ≠ O) by (by destruct c). rewrite length_app in Hf.
  rewrite Z.gtb_ltb, (proj2 (Z.ltb_lt _ _)) by lia. rewrite urun_bind, stream_write, Z.eqb_refl. cbn [negb].
  rewrite IH by lia. by rewrite map_app, app_assoc.
Qed.

(** cat with no arguments copies its input to its output and exits with 0,
    however [read] cuts the input up. *)
Theorem cat_copies i o fuel name : (length i < fuel)%nat →
  urun w (cat_main fuel [name]) (mk_stream i o) = (Exited 0, mk_stream [] (o ++ map (pair 1) i)).
Proof. intros Hf. cbn [cat_main]. by rewrite urun_bind, cat_run. Qed.

(** ** wc *)

Notation blanked := (blanks wc_blank).
Notation words := (words_by wc_blank).

(** The counters after a text. *)
Definition wc_of (x : list Z) : counts :=
  mk_counts (i32 (Z.of_nat (length (filter (λ c, c = 10) x)))) (i32 (Z.of_nat (length (words x))))
    (i32 (Z.of_nat (length x))) (bool_decide (tail_of 32 (blanked x) ≠ [])).

Lemma words_lines x :
  length (words x) = (length (filter (λ e, e ≠ []) (lines_of 32 (blanked x))) +
                      (if bool_decide (tail_of 32 (blanked x) ≠ []) then 1 else 0))%nat.
Proof.
  unfold words_by. rewrite split_lines, filter_app, length_app. f_equal. rewrite filter_cons, filter_nil.
  by destruct (tail_of 32 (blanked x)).
Qed.

Lemma wc_of_snoc x c : wc_char (wc_of x) c = wc_of (x ++ [c]).
Proof.
  unfold wc_char, wc_of. rewrite !words_lines. unfold blanks. rewrite map_app.
  destruct (lines_snoc 32 (map (λ c, if wc_blank c then 32 else c) x) (if wc_blank c then 32 else c)) as [E1 E2].
  cbn [map]. rewrite E1, E2. fold (blanks wc_blank x). rewrite !filter_app, !length_app.
  assert (∀ n, i32 (i32 (Z.of_nat n) + 1) = i32 (Z.of_nat (n + 1))) as Hi.
  { intros n. by rewrite i32_add, Nat2Z.inj_add. }
  cbn [wc_l wc_w wc_c wc_inword length]. rewrite !Hi, !filter_cons, !filter_nil.
  replace (if c =? 10 then _ else _) with (i32 (Z.of_nat (length (filter (λ c, c = 10) x) +
    length (if decide (c = 10) then [c] else [])))).
  2: { destruct (Z.eqb_spec c 10), (decide (c = 10)); try done; by rewrite ?Hi, ?Nat.add_0_r. }
  destruct (wc_blank c) eqn:Hb.
  - destruct (decide (32 = 32)) as [_|]; [|done]. rewrite (bool_decide_eq_false_2 ([] ≠ [])) by naive_solver.
    f_equal. f_equal. f_equal. rewrite filter_cons, filter_nil. destruct (tail_of 32 (blanked x)); simpl; lia.
  - assert (c ≠ 32) by (intros ->; by vm_compute in Hb). destruct (decide (c = 32)) as [|_]; [done|].
    rewrite filter_nil, Nat.add_0_r, (bool_decide_eq_true_2 (_ ++ [c] ≠ [])) by (by intros [_ ?]%app_nil).
    case_bool_decide; cbn [negb]; [done|]. f_equal. by rewrite !Nat.add_0_r in *.
Qed.

Lemma wc_loop_run fd fuel : ∀ x i o, (length i < fuel)%nat →
  urun w (wc_loop fuel fd (wc_of x)) (mk_stream i o) = (Returned (0, wc_of (x ++ i)), mk_stream [] o).
Proof.
  induction fuel as [|fuel IH]; intros x i o Hf; [lia|]. cbn [wc_loop]. rewrite urun_bind.
  destruct (stream_read_cases grain fd 512 i o) as [[-> ->]|(c&i'&->&Hc&_&->)]; [lia|by rewrite app_nil_r|].
  cbn [fst snd]. assert (length c ≠ O) by (by destruct c). rewrite length_app in Hf.
  rewrite Z.gtb_ltb, (proj2 (Z.ltb_lt _ _)) by lia.
  assert (fold_left wc_char c (wc_of x) = wc_of (x ++ c)) as ->.
  { clear. revert x. induction c as [|a c IH]; intros x; simpl; [by rewrite app_nil_r|].
    by rewrite wc_of_snoc, IH, <- app_assoc. }
  rewrite app_assoc. apply IH. lia.
Qed.

(** wc prints the number of newlines, of words and of characters of its
    input, words being what stands between blanks, however [read] cuts the input
    up: a word that straddles two reads is counted once. *)
Theorem wc_counts fd i o fuel name : (length i < fuel)%nat →
  urun w (wc fuel fd name) (mk_stream i o) =
    (Returned tt, mk_stream [] (o ++ map (pair 1)
      (int_text (i32 (Z.of_nat (length (filter (λ c, c = 10) i)))) ++ [32] ++
       int_text (i32 (Z.of_nat (length (words_by wc_blank i)))) ++ [32] ++
       int_text (i32 (Z.of_nat (length i))) ++ [32] ++ map u8 (cstr name) ++ [10]))).
Proof.
  intros Hf. unfold wc. change (mk_counts 0 0 0 false) with (wc_of []).
  rewrite urun_bind, wc_loop_run by done. cbn [fst snd Z.ltb Z.compare]. change ([] ++ i) with i. unfold u_printf, s_arg.
  change (line "%d %d %d %s") with
    (37 :: 100 :: [32] ++ 37 :: 100 :: [32] ++ 37 :: 100 :: [32] ++ 37 :: 115 :: [10] ++ []).
  rewrite vprintf_d, (vprintf_plain _ 1 [32]), vprintf_d, (vprintf_plain _ 1 [32]), vprintf_d, (vprintf_plain _ 1 [32]) by
    by repeat constructor.
  rewrite vprintf_s, (vprintf_plain _ 1 [10] []) by by repeat constructor.
  cbn [vprintf urun mret uprog_ret]. unfold wc_of; cbn [wc_l wc_w wc_c].
  by rewrite !map_app, <- !app_assoc.
Qed.
End Filters.

Lemma cat_copies_witness :
  urun (stream_world grain_one) (cat_main 10 [codes "cat"]) (mk_stream (codes "hello") []) =
    (Exited 0, mk_stream [] (map (pair 1) (codes "hello"))).
Proof. apply (cat_copies grain_one (codes "hello") [] 10 (codes "cat")). vm_compute. lia. Defined.

Lemma wc_counts_witness :
  urun (stream_world grain_one) (wc 20 0 (codes "f")) (mk_stream (codes "two words" ++ [10]) []) =
    (Returned tt, mk_stream [] (map (pair 1) (codes "1 2 10 f" ++ [10]))).
Proof.
  refine (eq_trans (wc_counts grain_one 0 (codes "two words" ++ [10]) [] 20 (codes "f") _) _); [vm_compute; lia|].
  vm_compute. reflexivity.
Defined.

(** ** xargs *)

Lemma words_nil b : words_by b [] = [].
Proof. done. Qed.

Lemma words_blank b c x : b c = true → words_by b (c :: x) = words_by b x.
Proof. intros Hb. unfold words_by, blanks. cbn [map]. rewrite Hb. cbn [split_on]. by rewrite Z.eqb_refl, filter_cons. Qed.

Definition solid (b : Z → bool) (e : list Z) : Prop := Forall (λ c, b c = false ∧ c ≠ 32) e.

Lemma blanks_solid b e : solid b e → blanks b e = e ∧ Forall (λ c, c ≠ 32) e.
Proof. induction 1 as [|c e [Hb Hc] _ [IH1 IH2]]; simpl; [done|]. by rewrite Hb, IH1; repeat constructor. Qed.

Lemma words_solid b e : solid b e → e ≠ [] → words_by b e = [e].
Proof.
  intros He Hn. destruct (blanks_solid b e He) as [E H]. unfold words_by. rewrite E, split_last by done.
  rewrite filter_cons, filter_nil. by case_decide.
Qed.

Lemma words_app b e c x : solid b e → e ≠ [] → b c = true → words_by b (e ++ c :: x) = e :: words_by b x.
Proof.
  intros He Hn Hc. destruct (blanks_solid b e He) as [E H]. unfold words_by, blanks in *. rewrite map_app. cbn [map].
  rewrite Hc, E, split_app by done. rewrite filter_cons. by case_decide.
Qed.

Definition no_zero (x : list Z) : Prop := Forall (λ c, c ≠ 0) x.

Lemma skip_blanks_words p : no_zero p →
  words_by xargs_blank (skip_blanks p) = words_by xargs_blank p ∧ (length (skip_blanks p) ≤ length p)%nat ∧
  no_zero (skip_blanks p) ∧ (skip_blanks p = [] ∨ xargs_blank (chr (skip_blanks p)) = false).
Proof.
  induction 1 as [|c p Hc Hp (IH1&IH2&IH3&IH4)]; simpl; [by repeat constructor; left|].
  destruct (xargs_blank c) eqn:Hb.
  - rewrite words_blank by done. split_and!; try done; lia.
  - split_and!; try done; [by constructor|]. by right.
Qed.

Lemma xargs_word_spec p : no_zero p →
  p = (xargs_word p).1 ++ (xargs_word p).2 ∧ solid xargs_blank (xargs_word p).1 ∧
  ((xargs_word p).2 = [] ∨ xargs_blank (chr (xargs_word p).2) = true).
Proof.
  induction 1 as [|c p Hc Hp (IH1&IH2&IH3)]; [by repeat constructor; left|]. cbn [xargs_word].
  rewrite (proj2 (Z.eqb_neq c 0) Hc). destruct (xargs_blank c) eqn:Hb; cbn [orb fst snd].
  - split_and!; [done|constructor|by right].
  - split_and!; [by rewrite <- app_comm_cons, <- IH1| |done]. constructor; [|done]. split; [done|]. intros ->. done.
Qed.

(** The words of a line, up to the size of the table of arguments. *)
Lemma xargs_split_words fuel : ∀ idx p, (length p < fuel)%nat → (idx <= 31)%nat → no_zero p →
  xargs_split fuel idx p =
    if decide (idx + length (words_by xargs_blank p) <= 31)%nat then Some (words_by xargs_blank p) else None.
Proof.
  induction fuel as [|fuel IH]; intros idx p Hf Hi Hp; [lia|]. cbn [xargs_split].
  destruct p as [|c p0] eqn:Ep; [by rewrite words_nil, decide_True by (simpl; lia)|].
  rewrite <- Ep in *. replace (chr p =? 0) with false.
  2: { subst p. apply Forall_cons in Hp as [Hc _]. symmetry. by apply Z.eqb_neq. }
  destruct (skip_blanks_words p Hp) as (<-&Hl&Hp1&Hch). clear Ep. set (q := skip_blanks p) in *. clearbody q.
  destruct q as [|d q'] eqn:Eq; [by rewrite words_nil, decide_True by (simpl; lia)|]. rewrite <- Eq in *.
  assert (chr q = d) as Hd by by subst q. destruct Hch as [->|Hch]; [done|].
  replace (chr q =? 0) with false.
  2: { subst q. apply Forall_cons in Hp1 as [Hc _]. symmetry. by apply Z.eqb_neq. }
  destruct (xargs_word_spec q Hp1) as (Hq&Hw&Hr).
  assert ((xargs_word q).1 ≠ []) as Hne.
  { subst q. cbn [xargs_word]. apply Forall_cons in Hp1 as [Hc _]. cbn [chr hd] in Hch.
    by rewrite (proj2 (Z.eqb_neq d 0) Hc), Hch. }
  destruct (xargs_word q) as [w r]. cbn [fst snd] in *.
  assert (words_by xargs_blank q = w :: words_by xargs_blank (tl r) ∧ no_zero (tl r) ∧
          (length (tl r) < fuel)%nat ∧ (if chr r =? 0 then r else tl r) = tl r) as (->&Hz&Hlt&->).
  { rewrite Hq, length_app in *. apply Forall_app in Hp1 as [_ Hp1].
    assert (length w ≠ O) by (by destruct w). destruct r as [|e r]; cbn [tl chr hd length] in *.
    - rewrite app_nil_r, words_nil, words_solid by done. split_and!; [done|constructor|lia|done].
    - destruct Hr as [|He]; [done|]. apply Forall_cons in Hp1 as [He0 Hp1].
      rewrite words_app by done. split_and!; [done|done|lia|by rewrite (proj2 (Z.eqb_neq e 0) He0)]. }
  change (MAXARG - 1)%nat with 31%nat. cbn [length].
  destruct (Nat.leb_spec 31 idx); [rewrite decide_False by lia; done|]. rewrite IH by (done || lia).
  destruct (decide (S idx + _ <= 31)%nat); cbn; [rewrite decide_True by lia|rewrite decide_False by lia]; done.
Qed.

(** The commands that xargs starts for some lines. *)
Definition commands (args : list (list Z)) (ls : list (list Z)) : list command :=
  map (λ ws, (hd [] args, args ++ ws)) (filter (λ ws, ws ≠ []) (map (words_by xargs_blank) ls)).

Lemma commands_app {args} x y : commands args (x ++ y) = commands args x ++ commands args y.
Proof. unfold commands. by rewrite map_app, filter_app, map_app. Qed.

Section Xargs.
Context (grain : list Z → Z → nat) `{HG : !Grain grain} (args : list (list Z)).
Notation P := (stream_procs grain).

(** A line that fits. *)
Definition fits (l : list Z) : Prop :=
  (length l <= 511)%nat ∧ (length args + length (words_by xargs_blank l) <= 31)%nat.

Lemma xargs_line_run {B} l (k : unit → uprog B) s : no_zero l → fits l →
  run_tree P (xargs_line args l ≫= k) s =
    ((run_tree P (k tt) s).1, commands args [l] ++ (run_tree P (k tt) s).2).
Proof.
  intros Hz [Hl Hw]. unfold xargs_line, commands. rewrite xargs_split_words by (done || lia).
  rewrite decide_True by done. cbn [map]. rewrite filter_cons, filter_nil.
  destruct (words_by xargs_blank l) as [|x ws]; [by apply surjective_pairing|].
  rewrite decide_True by done.
  refine (eq_trans (run_tree_fork P (λ pid, (if pid =? 0 then _ else u_wait;; mret tt) ≫= k) s (Exited 0) s _ _) _);
    [apply run_tree_exec|]. done.
Qed.

Lemma xargs_loop_run {B} (k : unit → uprog B) fuel : ∀ buf i o,
  (length i < fuel)%nat → no_zero (buf ++ i) → Forall (λ c, c ≠ 10) buf → Forall fits (split_on 10 (buf ++ i)) →
  run_tree P (xargs_loop fuel args buf ≫= k) (mk_stream i o) =
    ((run_tree P (k tt) (mk_stream [] o)).1,
     commands args (lines_of 10 (buf ++ i)) ++ (run_tree P (k tt) (mk_stream [] o)).2).
Proof.
  induction fuel as [|fuel IH]; intros buf i o Hf Hz Hnl Hs; [lia|]. cbn [xargs_loop].
  rewrite run_tree_assoc, run_tree_plain by done. change (p_world P) with (stream_world grain).
  destruct (stream_read_cases grain 0 1 i o) as [[-> ->]|(c&i'&->&Hc&Hl&->)]; [lia| |].
  { rewrite app_nil_r. destruct (lines_last 10 buf Hnl) as [-> _]. by apply surjective_pairing. }
  destruct c as [|c [|d c']]; [done| |cbn [length] in Hl; lia]. cbn [length] in Hf. cbn [fst snd length hd app] in *.
  destruct (Z.eqb_spec c 10) as [->|Hc10]; change (negb (Z.of_nat 1 =? 1)) with false; cbn [negb andb].
  - rewrite split_app in Hs by done. apply Forall_cons in Hs as [Hs Hs'].
    apply Forall_app in Hz as [Hz Hz']. apply Forall_cons in Hz' as [_ Hz'].
    rewrite run_tree_assoc, xargs_line_run by done. rewrite IH by (done || lia || constructor). cbn [fst snd app].
    destruct (lines_app 10 buf i' Hnl) as [-> _]. f_equal.
    change (buf :: lines_of 10 i') with ([buf] ++ lines_of 10 i'). by rewrite commands_app, <- app_assoc.
  - replace (buf ++ c :: i') with ((buf ++ [c]) ++ i') in * by (by rewrite <- app_assoc).
    assert (Forall (λ c, c ≠ 10) (buf ++ [c])) as Hb by (apply Forall_app; auto).
    destruct (split_on_head 10 (buf ++ [c]) i' Hb) as (e'&r&E).
    assert (length buf < 511)%nat.
    { rewrite E in Hs. apply Forall_cons in Hs as [[Hs _] _]. rewrite !length_app in Hs. simpl in Hs. lia. }
    destruct (Nat.ltb_spec (length buf) 511); [|lia]. by rewrite IH by (done || lia).
Qed.
End Xargs.

(** xargs runs its command once for every terminated line of its input that
    has a word in it, with the words of the line as further arguments, in the
    order of the lines, and exits with 0; however [read] delivers the input, when
    the lines fit in the buffer and their words in the table of arguments.  (A
    line of more than 511 characters is cut in two, without the 512th, and a last
    line without a newline is not run.) *)
Theorem xargs_runs grain `{!Grain grain} name args i o fuel :
  args ≠ [] → (length i < fuel)%nat → no_zero i → Forall (fits args) (split_on 10 i) →
  run_tree (stream_procs grain) (xargs_main fuel (name :: args)) (mk_stream i o) =
    (Exited 0, mk_stream [] o, commands args (lines_of 10 i)).
Proof.
  intros Ha Hf Hz Hs. unfold xargs_main. destruct args as [|a args]; [done|]. cbn [length Nat.ltb Nat.leb tl].
  rewrite xargs_loop_run by (done || constructor). cbn. by rewrite app_nil_r.
Qed.

Lemma xargs_runs_witness :
  run_tree (stream_procs grain_one) (xargs_main 20 [codes "xargs"; codes "echo"; codes "x"])
    (mk_stream (codes "a  b" ++ [10; 10] ++ codes "c" ++ [10]) []) =
  (Exited 0, mk_stream [] [],
   [(codes "echo", [codes "echo"; codes "x"; codes "a"; codes "b"]); (codes "echo", [codes "echo"; codes "x"; codes "c"])]).
Proof.
  refine (eq_trans (xargs_runs grain_one (codes "xargs") [codes "echo"; codes "x"] _ [] 20 _ _ _ _) _);
    [done|vm_compute; lia|repeat constructor; done| |reflexivity].
  repeat constructor; vm_compute; lia.
Defined.

(** ** primes

    A stage of the sieve as the process that goes on after [fork]: it reads the
    left pipe whole, and its right pipe has the descriptors 5 and 6.  The numbers
    are written four bytes at a time into pipes of 512, so that a read of four
    bytes gets a number or the end. *)

Definition stage_answer (X : Set) (r : sysreq X) : stream → X * stream :=
  match r with
  | RPipe => λ s, ((0, (5, 6)), s)
  | RFork => λ s, (1, s)
  | r => stream_answer grain_all _ r
  end.
Definition stage_world : world stream := mk_world _ stage_answer.

(** What was written under a descriptor. *)
Definition out_on (fd : Z) (s : stream) : list Z := map snd (filter (λ p, p.1 = fd) (s_out s)).

(** The stages one after the other, each on what the one before wrote to its
    right; the stage that finds its pipe empty is the last. *)
Fixpoint chain (stages fuel : nat) (i : list Z) : option (list Z) :=
  match stages with
  | O => None
  | S stages =>
      match urun stage_world (sieve fuel (3, 4)) (mk_stream i []) with
      | (Exited 0, s) =>
          if bool_decide (out_on 1 s = []) then Some [] else app (out_on 1 s) <$> chain stages fuel (out_on 6 s)
      | _ => None
      end
  end.

(** Trial division. *)
Definition is_prime (n : nat) : bool := (2 <=? n)%nat && forallb (λ d, negb (n mod d =? 0)%nat) (seq 2 (n - 2)).

(** The processes of primes, fed with the numbers that its first process writes,
    print the primes up to 35 in order, and every one of them exits with 0. *)
Theorem primes_prints :
  chain 12 40 (out_on 6 (urun stage_world (feed 34 6 2) (mk_stream [] [])).2) =
    Some (concat (map (λ p, codes "prime " ++ int_text (Z.of_nat p) ++ [10]) (List.filter is_prime (seq 0 36)))).
Proof. vm_compute. reflexivity. Qed.
