(* ===== verification/Grind.v ===== *)
(** * user/grind.c: random system calls

    The program that runs random system calls in two processes for ever, with its
    random numbers.  The loops take fuel.  [junk] is what the uninitialised
    variables of the last test hold before [wait] stores into them. *)

From S2P Require Import Prelude Memory Params CString Uart File User Ulib Programs.

(** ** Random numbers *)

(** The value returned and the new [*ctx]. *)
Definition do_rand (ctx : Z) : Z * Z :=
  let x := u64 (ctx mod 0x7ffffffe + 1) in
  let hi := Z.quot x 127773 in
  let lo := Z.rem x 127773 in
  let x := 16807 * lo - 2836 * hi in
  let x := if x <? 0 then x + 0x7fffffff else x in
  let x := x - 1 in
  (i32 x, u64 x).

(** ** The tests *)

Record gstate : Type := mk_gstate { g_rand : Z; g_fd : Z; g_buf : list Z; g_iters : Z }.
Definition set_g_fd (fd : Z) (s : gstate) : gstate := mk_gstate (g_rand s) fd (g_buf s) (g_iters s).
Definition set_g_buf (b : list Z) (s : gstate) : gstate := mk_gstate (g_rand s) (g_fd s) b (g_iters s).

(** The bytes that [read] stores at [off] of a buffer. *)
Definition into (buf : list Z) (off : nat) (bytes : list Z) : list Z :=
  take off buf ++ bytes ++ drop (off + length bytes) buf.

Definition O_NEW : Z := Z.lor O_CREATE O_RDWR.
Definition grind_fail {A} (msg : string) : uprog A := u_printf (line msg) [];; u_exit 1.

(** [fork] with its error; the child runs [child]. *)
Definition grind_fork (child : uprog unit) : uprog Z :=
  pid ← u_fork;
  if pid =? 0 then child;; u_exit 0 else
  if pid <? 0 then grind_fail "grind: fork failed" else mret pid.

Definition grind_touch (path : string) : uprog unit :=
  fd ← u_open (codes path) O_NEW;
  u_close fd;;
  mret tt.

(** [what == 19] *)
Definition grind_pipe : uprog unit :=
  r ← u_pipe;
  if r.1 <? 0 then grind_fail "grind: pipe failed" else
  let fds := r.2 in
  grind_fork (
    u_fork;;
    u_fork;;
    n ← u_write fds.2 (codes "x");
    u_when (negb (n =? 1)) (u_printf (line "grind: pipe write failed") []);;
    c ← u_read fds.1 1;
    u_when (negb (c.1 =? 1)) (u_printf (line "grind: pipe read failed") []));;
  u_close fds.1;;
  u_close fds.2;;
  u_wait;;
  mret tt.

(** [what == 21] *)
Definition grind_create : uprog unit :=
  u_unlink (codes "c");;
  fd1 ← u_open (codes "c") O_NEW;
  if fd1 <? 0 then grind_fail "grind: create c failed" else
  n ← u_write fd1 (codes "x");
  if negb (n =? 1) then grind_fail "grind: write c failed" else
  r ← u_fstat fd1;
  if negb (r.1 =? 0) then grind_fail "grind: fstat failed" else
  let st := r.2 in
  if negb (us_size st =? 1) then
    u_printf (line "grind: fstat reports wrong size %d") [AInt (i32 (us_size st))];;
    u_exit 1
  else if us_ino st >? 200 then
    u_printf (line "grind: fstat reports crazy i-number %d") [AInt (i32 (us_ino st))];;
    u_exit 1
  else
  u_close fd1;;
  u_unlink (codes "c");;
  mret tt.

Definition grind_error {A} (msg : string) (status : Z) : uprog A := fprintf 2 (line msg) [];; u_exit status.

Section Grind.
Context (junk : Z).

(** [what == 22] *)
Definition grind_exec : uprog unit :=
  r ← u_pipe;
  if r.1 <? 0 then grind_error "grind: pipe failed" 1 else
  let aa := r.2 in
  r ← u_pipe;
  if r.1 <? 0 then grind_error "grind: pipe failed" 1 else
  let bb := r.2 in
  pid1 ← u_fork;
  if pid1 =? 0 then
    u_close bb.1;;
    u_close bb.2;;
    u_close aa.1;;
    u_close 1;;
    d ← u_dup aa.2;
    if negb (d =? 1) then grind_error "grind: dup failed" 1 else
    u_close aa.2;;
    u_exec (codes "grindir/../echo") [codes "echo"; codes "hi"];;
    grind_error "grind: echo: not found" 2
  else if pid1 <? 0 then grind_error "grind: fork failed" 3 else
  pid2 ← u_fork;
  if pid2 =? 0 then
    u_close aa.2;;
    u_close bb.1;;
    u_close 0;;
    d ← u_dup aa.1;
    if negb (d =? 0) then grind_error "grind: dup failed" 4 else
    u_close aa.1;;
    u_close 1;;
    d ← u_dup bb.2;
    if negb (d =? 1) then grind_error "grind: dup failed" 5 else
    u_close bb.2;;
    u_exec (codes "/cat") [codes "cat"];;
    grind_error "grind: cat: not found" 6
  else if pid2 <? 0 then grind_error "grind: fork failed" 7 else
  u_close aa.1;;
  u_close aa.2;;
  u_close bb.2;;
  c0 ← u_read bb.1 1;
  c1 ← u_read bb.1 1;
  c2 ← u_read bb.1 1;
  let buf := into (into (into [0; 0; 0; 0] 0 c0.2) 1 c1.2) 2 c2.2 in
  u_close bb.1;;
  w1 ← u_wait_status;
  w2 ← u_wait_status;
  let st1 := default junk w1.2 in
  let st2 := default junk w2.2 in
  if negb (st1 =? 0) || negb (st2 =? 0) || negb (strcmp buf (line "hi") =? 0) then
    u_printf (codes "grind: exec pipeline failed %d %d " ++ [34] ++ codes "%s" ++ [34; 10])
      [AInt st1; AInt st2; s_arg (cstr buf)];;
    u_exit 1
  else mret tt.

(** One turn of the loop of [go]. *)
Definition go_test (break0 what : Z) (s : gstate) : uprog gstate :=
  let keep (m : uprog unit) := m;; mret s in
  match what with
  | 1 => keep (grind_touch "grindir/../a")
  | 2 => keep (grind_touch "grindir/../grindir/../b")
  | 3 => keep (u_unlink (codes "grindir/../a");; mret tt)
  | 4 => keep (
      r ← u_chdir (codes "grindir");
      if negb (r =? 0) then grind_fail "grind: chdir grindir failed" else
      u_unlink (codes "../b");;
      u_chdir (codes "/");;
      mret tt)
  | 5 => u_close (g_fd s);; fd ← u_open (codes "/grindir/../a") O_NEW; mret (set_g_fd fd s)
  | 6 => u_close (g_fd s);; fd ← u_open (codes "/./grindir/./../b") O_NEW; mret (set_g_fd fd s)
  | 7 => keep (u_write (g_fd s) (g_buf s);; mret tt)
  | 8 => r ← u_read (g_fd s) 999; mret (set_g_buf (into (g_buf s) 0 r.2) s)
  | 9 => keep (u_mkdir (codes "grindir/../a");; grind_touch "a/../a/./a";; u_unlink (codes "a/a");; mret tt)
  | 10 => keep (u_mkdir (codes "/../b");; grind_touch "grindir/../b/b";; u_unlink (codes "b/b");; mret tt)
  | 11 => keep (u_unlink (codes "b");; u_link (codes "../grindir/./../a") (codes "../b");; mret tt)
  | 12 => keep (u_unlink (codes "../grindir/../a");; u_link (codes ".././b") (codes "/grindir/../a");; mret tt)
  | 13 => keep (grind_fork (mret tt);; u_wait;; mret tt)
  | 14 => keep (grind_fork (u_fork;; u_fork;; mret tt);; u_wait;; mret tt)
  | 15 => keep (u_sbrk 6011;; mret tt)
  | 16 => keep (
      b ← u_sbrk 0;
      u_when (b >? break0) (b ← u_sbrk 0; u_sbrk (i32 (- (b - break0)));; mret tt))
  | 17 => keep (
      pid ← grind_fork (grind_touch "a");
      r ← u_chdir (codes "../grindir/..");
      if negb (r =? 0) then grind_fail "grind: chdir failed" else
      u_kill pid;;
      u_wait;;
      mret tt)
  | 18 => keep (grind_fork (me ← u_getpid; u_kill me;; mret tt);; u_wait;; mret tt)
  | 19 => keep grind_pipe
  | 20 => keep (
      grind_fork (
        u_unlink (codes "a");;
        u_mkdir (codes "a");;
        u_chdir (codes "a");;
        u_unlink (codes "../a");;
        u_open (codes "x") O_NEW;;
        u_unlink (codes "x");;
        mret tt);;
      u_wait;;
      mret tt)
  | 21 => keep grind_create
  | 22 => keep grind_exec
  | _ => mret s
  end.

Fixpoint go_loop (fuel : nat) (which_child break0 : Z) (s : gstate) : uprog unit :=
  match fuel with
  | O => UFuel
  | S fuel =>
      let iters := u64 (g_iters s + 1) in
      u_when (iters mod 500 =? 0) (u_write 1 (codes (if which_child =? 0 then "A" else "B"));; mret tt);;
      let (r, next) := do_rand (g_rand s) in
      s ← go_test break0 (Z.rem r 23) (mk_gstate next (g_fd s) (g_buf s) iters);
      go_loop fuel which_child break0 s
  end.

Definition go (fuel : nat) (rand_next which_child : Z) : uprog unit :=
  break0 ← u_sbrk 0;
  u_mkdir (codes "grindir");;
  r ← u_chdir (codes "grindir");
  if negb (r =? 0) then grind_fail "grind: chdir grindir failed" else
  u_chdir (codes "/");;
  go_loop fuel which_child break0 (mk_gstate rand_next (-1) (replicate 999 0) 0).

Definition iter (fuel : nat) : uprog unit :=
  u_unlink (codes "a");;
  u_unlink (codes "b");;
  pid1 ← u_fork;
  if pid1 <? 0 then grind_fail "grind: fork failed" else
  if pid1 =? 0 then go fuel 31 0;; u_exit 0 else
  pid2 ← u_fork;
  if pid2 <? 0 then grind_fail "grind: fork failed" else
  if pid2 =? 0 then go fuel 7177 1;; u_exit 0 else
  w ← u_wait_status;
  let st1 := default (-1) w.2 in
  u_when (negb (st1 =? 0)) (u_kill pid1;; u_kill pid2;; mret tt);;
  u_wait_status;;
  u_exit 0.

Fixpoint grind_main (fuel : nat) : uprog unit :=
  match fuel with
  | O => UFuel
  | S fuel =>
      pid ← u_fork;
      if pid =? 0 then iter fuel;; u_exit 0 else
      u_when (pid >? 0) (u_wait;; mret tt);;
      u_sleep 20;;
      grind_main fuel
  end.
End Grind.

(** ** The random numbers are those of Park and Miller *)

Definition M31 : Z := 2 ^ 31 - 1.

(** 7^5 has an inverse modulo 2^31 - 1. *)
Lemma mult_back x : (1407677000 * (16807 * x mod M31)) mod M31 = x mod M31.
Proof.
  rewrite Z.mul_mod_idemp_r by (unfold M31; lia). replace (1407677000 * (16807 * x)) with (x + (11017 * x) * M31).
  - apply Z.mod_add. unfold M31. lia.
  - unfold M31. lia.
Qed.

(** Multiplication by 7^5 without overflow. *)
Lemma schrage x : 1 <= x < M31 →
  let v := 16807 * Z.rem x 127773 - 2836 * Z.quot x 127773 in
  (if v <? 0 then v + M31 else v) = 16807 * x mod M31 ∧ 1 <= 16807 * x mod M31 < M31 ∧ - 2 ^ 31 < v < 2 ^ 31.
Proof.
  intros Hx v. assert (Hm : M31 = 2147483647) by by compute.
  assert (Er : v = 16807 * (x mod 127773) - 2836 * (x / 127773)) by (unfold v; rewrite Z.rem_mod_nonneg, Z.quot_div_nonneg by lia; done).
  clearbody v.
  pose proof (Z.div_mod x 127773) as Hd. pose proof (Z.mod_pos_bound x 127773) as Hb.
  assert (Hq : 0 <= x / 127773 < 16808) by (split; [apply Z.div_pos|apply Z.div_lt_upper_bound]; lia).
  assert (Hv : 16807 * x = v + (x / 127773) * M31) by (rewrite Er, Hm; lia).
  assert (Hr : - M31 < v < M31) by (rewrite Er, Hm; lia).
  assert (Hmod : 16807 * x mod M31 = v mod M31) by (rewrite Hv; apply Z.mod_add; lia).
  assert (H0 : 16807 * x mod M31 ≠ 0).
  { intros E. pose proof (mult_back x) as H. rewrite E, (Z.mod_small x) in H by lia. rewrite Z.mul_0_r, Z.mod_0_l in H; lia. }
  pose proof (Z.mod_pos_bound (16807 * x) M31). split_and!; try lia.
  rewrite Hmod. destruct (Z.ltb_spec v 0); [|by rewrite Z.mod_small by lia].
  apply (Z.mod_unique _ _ (-1)); lia.
Qed.

(** The random numbers of grind: [do_rand] multiplies the state, taken to the
    range from 1 to 2^31 - 2, by 7^5 modulo 2^31 - 1, as its comment says; the
    value returned is the new state, in the range from 0 to 2^31 - 3; and on that
    range the step can be undone, by a multiplication with the inverse of 7^5. *)
Theorem do_rand_spec ctx : 0 <= ctx < 2 ^ 64 →
  let x := 7 ^ 5 * (ctx mod (2 ^ 31 - 2) + 1) mod (2 ^ 31 - 1) - 1 in
  do_rand ctx = (x, x) ∧ 0 <= x <= 2 ^ 31 - 3 ∧
  (ctx <= 2 ^ 31 - 3 → 1407677000 * (x + 1) mod (2 ^ 31 - 1) - 1 = ctx).
Proof.
  intros Hc x. set (y := ctx mod (2 ^ 31 - 2) + 1) in *. change (2 ^ 31 - 1) with M31 in *. change (7 ^ 5) with 16807 in *.
  assert (Hm : M31 = 2147483647) by by compute.
  assert (Hy : 1 <= y < M31) by (unfold y; pose proof (Z.mod_pos_bound ctx (2 ^ 31 - 2)); lia).
  destruct (schrage y Hy) as (Hs&Hr&_). split_and!; [|unfold x; lia..|].
  - unfold do_rand. change (ctx mod 0x7ffffffe + 1) with y. rewrite (u64_small y) by lia. change 0x7fffffff with M31.
    cbv zeta. rewrite Hs. fold x. rewrite i32_small, u64_small by (unfold x; lia). done.
  - intros Hle. unfold x. replace (16807 * y mod M31 - 1 + 1) with (16807 * y mod M31) by lia.
    rewrite mult_back, Z.mod_small by lia. unfold y. rewrite Z.mod_small by lia. lia.
Qed.
