(* ===== verification/Sh.v ===== *)
(** * The shell: user/sh.c

    The parser works on the line that [parsecmd] is given.  A pointer into the
    line is its distance to [es], the end of the line: the state of the parser is
    the text from [*ps] up to [es], and the pointers [q] and [eq] of a word are
    the lengths of the texts they point at.  [panic] ends the parser with its
    message.  The nodes that the constructors allocate are the nodes of a tree;
    the loops take fuel, the length of the line being enough. *)

From S2P Require Import Prelude Memory Params CString Uart User Ulib Programs.

(** ** Commands *)

Definition MAXARGS : nat := 10.

Inductive scmd (T : Type) : Type :=
| EXEC (argv : list T)
| REDIR (cmd : scmd T) (file : T) (mode fd : Z)
| PIPE (left right : scmd T)
| LIST (left right : scmd T)
| BACK (cmd : scmd T).
Arguments EXEC {_} _.
Arguments REDIR {_} _ _ _ _.
Arguments PIPE {_} _ _.
Arguments LIST {_} _ _.
Arguments BACK {_} _.

(** A word of the line: its start and its end. *)
Definition span : Type := nat * nat.

Definition execcmd {T} (argv : list T) : scmd T := EXEC argv.
Definition redircmd {T} (subcmd : scmd T) (file : T) (mode fd : Z) : scmd T := REDIR subcmd file mode fd.
Definition pipecmd {T} (left right : scmd T) : scmd T := PIPE left right.
Definition listcmd {T} (left right : scmd T) : scmd T := LIST left right.
Definition backcmd {T} (subcmd : scmd T) : scmd T := BACK subcmd.

(** ** The parser *)

Inductive presult (A : Type) : Type := POk (a : A) (s : list Z) | PPanic (msg : list Z) | PFuel.
Arguments POk {_} _ _.
Arguments PPanic {_} _.
Arguments PFuel {_}.

Definition parser (A : Type) : Type := list Z → presult A.
#[global] Instance parser_ret : MRet parser := λ A a s, POk a s.
#[global] Instance parser_bind : MBind parser := λ A B f m s,
  match m s with POk a s => f a s | PPanic msg => PPanic msg | PFuel => PFuel end.
Definition parse_panic {A} (msg : list Z) : parser A := λ _, PPanic msg.
Definition parse_fuel {A} : parser A := λ _, PFuel.

(** Fuel enough for a loop that takes a character of the line each turn. *)
Definition measured {A} (p : nat → parser A) : parser A := λ s, p (S (length s)) s.

Definition whitespace : list Z := [32; 9; 13; 10; 11].
Definition symbols : list Z := codes "<|>&;()".
Definition one_of (toks : list Z) (c : Z) : bool := bool_decide (is_Some (strchr toks c)).

(** [while(s < es && strchr(whitespace, *s)) s++;] *)
Fixpoint skip_ws (s : list Z) : list Z :=
  match s with
  | c :: s' => if one_of whitespace c then skip_ws s' else s
  | [] => []
  end.

(** [while(s < es && !strchr(whitespace, *s) && !strchr(symbols, *s)) s++;] *)
Fixpoint skip_word (s : list Z) : list Z :=
  match s with
  | c :: s' => if one_of whitespace c || one_of symbols c then s else skip_word s'
  | [] => []
  end.

(** The token, with the word it covers. *)
Definition gettoken : parser (Z * span) := λ s,
  let q := skip_ws s in
  let c := chr q in
  let '(ret, e) :=
    if c =? 0 then (0, q)
    else if one_of (codes "|();&<") c then (c, tl q)
    else if c =? 62 then (if chr (tl q) =? 62 then (43, tl (tl q)) else (62, tl q))
    else (97, skip_word q) in
  POk (ret, (length q, length e)) (skip_ws e).

Definition peek (toks : list Z) : parser bool := λ s,
  let s := skip_ws s in POk (negb (chr s =? 0) && one_of toks (chr s)) s.

(** The redirections that [parseredirs] wraps around a command, the first one
    innermost. *)
Record redir (T : Type) : Type := mk_redir { r_file : T; r_mode : Z; r_fd : Z }.
Arguments mk_redir {_} _ _ _.
Arguments r_file {_} _.
Arguments r_mode {_} _.
Arguments r_fd {_} _.

Fixpoint redirs (fuel : nat) : parser (list (redir span)) :=
  match fuel with
  | O => parse_fuel
  | S fuel =>
      b ← peek (codes "<>");
      if negb b then mret [] else
      tok ← gettoken;
      w ← gettoken;
      if negb (w.1 =? 97) then parse_panic (codes "missing file for redirection") else
      let r :=
        if tok.1 =? 60 then mk_redir w.2 O_RDONLY 0
        else if tok.1 =? 62 then mk_redir w.2 (Z.lor (Z.lor O_WRONLY O_CREATE) O_TRUNC) 1
        else mk_redir w.2 (Z.lor O_WRONLY O_CREATE) 1 in
      rs ← redirs fuel;
      mret (r :: rs)
  end.

Definition wrap {T} (cmd : scmd T) (rs : list (redir T)) : scmd T :=
  fold_left (λ c r, redircmd c (r_file r) (r_mode r) (r_fd r)) rs cmd.

Definition parseredirs (cmd : scmd span) : parser (scmd span) :=
  rs ← measured redirs;
  mret (wrap cmd rs).

(** The loop of [parseexec] over the arguments.  The node of the command is
    filled in while redirections are wrapped around it, so that both lists are
    kept until the end. *)
Fixpoint parse_args (fuel : nat) (argv : list span) (rs : list (redir span)) :
    parser (list span * list (redir span)) :=
  match fuel with
  | O => parse_fuel
  | S fuel =>
      b ← peek (codes "|)&;");
      if (b : bool) then mret (argv, rs) else
      tok ← gettoken;
      if tok.1 =? 0 then mret (argv, rs) else
      if negb (tok.1 =? 97) then parse_panic (codes "syntax") else
      let argv := argv ++ [tok.2] in
      if (MAXARGS <=? length argv)%nat then parse_panic (codes "too many args") else
      rs' ← measured redirs;
      parse_args fuel argv (rs ++ rs')
  end.

(** [while(peek(ps, es, "&")) ...] *)
Fixpoint back_loop (fuel : nat) (cmd : scmd span) : parser (scmd span) :=
  match fuel with
  | O => parse_fuel
  | S fuel =>
      b ← peek (codes "&");
      if negb b then mret cmd else
      gettoken;;
      back_loop fuel (backcmd cmd)
  end.

Fixpoint parseline (n : nat) : parser (scmd span) :=
  match n with
  | O => parse_fuel
  | S n =>
      cmd ← parsepipe n;
      cmd ← measured (λ k, back_loop k cmd);
      b ← peek (codes ";");
      if negb b then mret cmd else
      gettoken;;
      rest ← parseline n;
      mret (listcmd cmd rest)
  end
with parsepipe (n : nat) : parser (scmd span) :=
  match n with
  | O => parse_fuel
  | S n =>
      cmd ← parseexec n;
      b ← peek (codes "|");
      if negb b then mret cmd else
      gettoken;;
      rest ← parsepipe n;
      mret (pipecmd cmd rest)
  end
with parseexec (n : nat) : parser (scmd span) :=
  match n with
  | O => parse_fuel
  | S n =>
      b ← peek (codes "(");
      if (b : bool) then parseblock n else
      rs ← measured redirs;
      r ← measured (λ k, parse_args k [] rs);
      mret (wrap (execcmd r.1) r.2)
  end
with parseblock (n : nat) : parser (scmd span) :=
  match n with
  | O => parse_fuel
  | S n =>
      b ← peek (codes "(");
      if negb b then parse_panic (codes "parseblock") else
      gettoken;;
      cmd ← parseline n;
      b ← peek (codes ")");
      if negb b then parse_panic (codes "syntax - missing )") else
      gettoken;;
      parseredirs cmd
  end.

(** The calls of the four functions nest at most four times for each character. *)
Definition parse_depth (s : list Z) : nat := 4 * S (length s).

(** [*p = 0] for a pointer into the line that ends [es] characters into the
    buffer. *)
Definition nul_at (es : nat) (buf : list Z) (p : nat) : list Z := <[(es - p)%nat := 0]> buf.

Fixpoint nulterminate (es : nat) (buf : list Z) (cmd : scmd span) : list Z :=
  match cmd with
  | EXEC argv => fold_left (λ b w, nul_at es b w.2) argv buf
  | REDIR cmd file _ _ => nul_at es (nulterminate es buf cmd) file.2
  | PIPE l r => nulterminate es (nulterminate es buf l) r
  | LIST l r => nulterminate es (nulterminate es buf l) r
  | BACK cmd => nulterminate es buf cmd
  end.

(** The strings that the pointers of a command stand for. *)
Fixpoint scmd_map {A B} (f : A → B) (cmd : scmd A) : scmd B :=
  match cmd with
  | EXEC argv => EXEC (map f argv)
  | REDIR cmd file mode fd => REDIR (scmd_map f cmd) (f file) mode fd
  | PIPE l r => PIPE (scmd_map f l) (scmd_map f r)
  | LIST l r => LIST (scmd_map f l) (scmd_map f r)
  | BACK cmd => BACK (scmd_map f cmd)
  end.
Definition string_at (es : nat) (buf : list Z) (w : span) : list Z := cstr (drop (es - w.1) buf).

(** ** Running *)

Definition sh_panic {A} (s : list Z) : uprog A :=
  fprintf 2 (line "%s") [s_arg s];; u_exit 1.

Definition fork1 : uprog Z :=
  pid ← u_fork;
  u_when (pid =? -1) (sh_panic (codes "fork"));;
  mret pid.

(** The command with its strings; [buf] holds the line and its NUL. *)
Definition parsecmd (buf : list Z) : uprog (scmd (list Z)) :=
  let s := cstr buf in
  match parseline (parse_depth s) s with
  | PFuel => UFuel
  | PPanic msg => sh_panic msg
  | POk cmd s' =>
      let s' := skip_ws s' in
      if bool_decide (s' = []) then
        let buf := nulterminate (length s) buf cmd in
        mret (scmd_map (string_at (length s) buf) cmd)
      else fprintf 2 (line "leftovers: %s") [s_arg s'];; sh_panic (codes "syntax")
  end.

(** [runcmd] never returns. *)
Fixpoint runcmd (cmd : scmd (list Z)) : uprog unit :=
  match cmd with
  | EXEC [] => u_exit 1
  | EXEC (a :: argv) =>
      u_exec a (a :: argv);;
      fprintf 2 (line "exec %s failed") [s_arg a];;
      u_exit 0
  | REDIR cmd file mode fd =>
      u_close fd;;
      r ← u_open file mode;
      if r <? 0 then fprintf 2 (line "open %s failed") [s_arg file];; u_exit 1 else
      runcmd cmd;;
      u_exit 0
  | LIST lc rc =>
      pid ← fork1;
      u_when (pid =? 0) (runcmd lc);;
      u_wait;;
      runcmd rc;;
      u_exit 0
  | PIPE lc rc =>
      r ← u_pipe;
      let p := r.2 in
      u_when (r.1 <? 0) (sh_panic (codes "pipe"));;
      pid ← fork1;
      u_when (pid =? 0)
        (u_close 1;; u_dup p.2;; u_close p.1;; u_close p.2;; runcmd lc);;
      pid ← fork1;
      u_when (pid =? 0)
        (u_close 0;; u_dup p.1;; u_close p.1;; u_close p.2;; runcmd rc);;
      u_close p.1;;
      u_close p.2;;
      u_wait;;
      u_wait;;
      u_exit 0
  | BACK cmd =>
      pid ← fork1;
      u_when (pid =? 0) (runcmd cmd);;
      u_exit 0
  end.

(** The buffer after [getcmd], and the value returned; [memset] clears the buffer
    before. *)
Definition getcmd (nbuf : Z) : uprog (Z * list Z) :=
  fprintf 2 (codes "$ ") [];;
  buf ← u_gets (repeat 0 (Z.to_nat nbuf)) nbuf;
  mret (if chr buf =? 0 then -1 else 0, buf).

(** [while((fd = open("console", O_RDWR)) >= 0) ...] *)
Fixpoint sh_console (fuel : nat) : uprog unit :=
  match fuel with
  | O => UFuel
  | S fuel =>
      fd ← u_open (codes "console") O_RDWR;
      if fd <? 0 then mret tt else
      if 3 <=? fd then u_close fd;; mret tt else sh_console fuel
  end.

Fixpoint sh_loop (fuel : nat) : uprog unit :=
  match fuel with
  | O => UFuel
  | S fuel =>
      r ← getcmd 100;
      if r.1 <? 0 then mret tt else
      let buf := r.2 in
      if (nth 0 buf 0 =? 99) && (nth 1 buf 0 =? 100) && (nth 2 buf 0 =? 32) then
        let buf := <[Z.to_nat (u_strlen buf - 1) := 0]> buf in
        k ← u_chdir (cstr (drop 3 buf));
        u_when (k <? 0) (fprintf 2 (line "cannot cd %s") [s_arg (drop 3 buf)]);;
        sh_loop fuel
      else
        pid ← fork1;
        u_when (pid =? 0) (cmd ← parsecmd buf; runcmd cmd);;
        u_wait;;
        sh_loop fuel
  end.

Definition sh_main (fuel : nat) : uprog unit :=
  sh_console fuel;;
  sh_loop fuel;;
  u_exit 0.
