(* ===== verification/ShParse.v ===== *)
(** * The parser of the shell

    Every line is parsed or refused; the words of a command survive the NULs that
    [nulterminate] writes into the line; and a command that is printed and parsed
    again is the same command. *)

From S2P Require Import Prelude Memory Params CString Uart User Ulib Programs Sh.

(** ** Outcomes of a parser *)

(** The parser ends, and [P] holds when it succeeds. *)
Definition psafe {A} (P : A → list Z → Prop) (r : presult A) : Prop :=
  match r with POk a s => P a s | PPanic _ => True | PFuel => False end.

Lemma psafe_bind {A B} (P : A → list Z → Prop) (Q : B → list Z → Prop) (m : parser A) (f : A → parser B) s :
  psafe P (m s) → (∀ a s', P a s' → psafe Q (f a s')) → psafe Q ((m ≫= f) s).
Proof. unfold mbind, parser_bind. destruct (m s); simpl; auto. Qed.

Lemma psafe_weaken {A} (P Q : A → list Z → Prop) r : psafe P r → (∀ a s, P a s → Q a s) → psafe Q r.
Proof. destruct r; simpl; auto. Qed.

Lemma parser_step {A B} (m : parser A) (f : A → parser B) s a s' : m s = POk a s' → (m ≫= f) s = f a s'.
Proof. intros E. unfold mbind, parser_bind. by rewrite E. Qed.

(** Run the first step of a parser. *)
Ltac parse_step tac := erewrite parser_step by tac; cbn beta iota; cbn [negb fst snd].

(** ** Characters *)

(** The characters of words. *)
Definition plain_char (c : Z) : bool := negb (one_of whitespace c || one_of symbols c).
Definition line_ok (s : list Z) : Prop := Forall (λ c, c ≠ 0) s.

Lemma one_of_cons t toks c : t ≠ 0 → one_of (t :: toks) c = (c =? t) || one_of toks c.
Proof.
  intros Ht. unfold one_of. cbn [strchr]. rewrite (proj2 (Z.eqb_neq t 0) Ht).
  destruct (Z.eqb_spec t c) as [->|]; [rewrite Z.eqb_refl; by apply bool_decide_eq_true_2|].
  rewrite (proj2 (Z.eqb_neq c t)) by done. apply bool_decide_ext. apply fmap_is_Some.
Qed.

Lemma one_of_nil c : one_of [] c = false.
Proof. by apply bool_decide_eq_false_2; intros [??]. Qed.

Lemma skip_ws_suffix s : skip_ws s `suffix_of` s.
Proof.
  induction s as [|c s IH]; simpl; [done|]. destruct (one_of whitespace c); [|done]. by apply suffix_cons_r.
Qed.

Lemma skip_ws_stop s : skip_ws s = [] ∨ one_of whitespace (chr (skip_ws s)) = false.
Proof.
  induction s as [|c s IH]; simpl; [by left|]. destruct (one_of whitespace c) eqn:E; [done|by right].
Qed.

Lemma skip_ws_id s : s = [] ∨ one_of whitespace (chr s) = false → skip_ws s = s.
Proof. intros [->|H]; [done|]. destruct s as [|c s]; [done|]. simpl in *. by rewrite H. Qed.

Lemma skip_word_split s : ∃ w, s = w ++ skip_word s ∧ Forall (λ c, plain_char c = true) w ∧
  (skip_word s = [] ∨ plain_char (chr (skip_word s)) = false).
Proof.
  induction s as [|c s (w&E&Hw&Hr)]; simpl; [exists []; by auto|].
  destruct (one_of whitespace c || one_of symbols c) eqn:Hc.
  - exists []. split_and!; [done..|]. right. unfold plain_char. simpl. by rewrite Hc.
  - exists (c :: w). split_and!; [by rewrite E at 1| |done]. constructor; [|done]. unfold plain_char. by rewrite Hc.
Qed.

Lemma line_ok_suffix s t : s `suffix_of` t → line_ok t → line_ok s.
Proof. intros [k ->] H. by apply Forall_app in H as [_ H]. Qed.

Lemma line_ok_cstr buf : line_ok (cstr buf).
Proof.
  induction buf as [|c buf IH]; simpl; [constructor|]. destruct (Z.eqb_spec c 0); [constructor|by constructor].
Qed.

(** ** Words *)

(** A word of a line: not empty, made of plain characters, and ended by another
    character or by the end of the line. *)
Definition span_ok (buf : list Z) (sp : span) : Prop :=
  ∃ pre w rest, buf = pre ++ w ++ rest ∧ sp = (length (w ++ rest), length rest) ∧ w ≠ [] ∧
    Forall (λ c, plain_char c = true) w ∧ (rest = [] ∨ plain_char (chr rest) = false).

Fixpoint spans {T} (cmd : scmd T) : list T :=
  match cmd with
  | EXEC argv => argv
  | REDIR cmd file _ _ => spans cmd ++ [file]
  | PIPE l r => spans l ++ spans r
  | LIST l r => spans l ++ spans r
  | BACK cmd => spans cmd
  end.

(** What [gettoken] does: it gets on unless the line is at its end, and a word is
    a word of the line. *)
Lemma gettoken_ok buf s : s `suffix_of` buf → line_ok buf →
  psafe (λ t s', s' `suffix_of` s ∧ (t.1 ≠ 0 → (length s' < length s)%nat) ∧ (t.1 = 97 → span_ok buf t.2) ∧
           (skip_ws s ≠ [] → t.1 ≠ 0)) (gettoken s).
Proof.
  intros Hs Hb. unfold gettoken. set (q := skip_ws s).
  assert (q `suffix_of` s) as Hq by apply skip_ws_suffix.
  destruct q as [|c q'] eqn:Eq.
  { cbn. split_and!; [apply suffix_nil|done..]. }
  assert (line_ok (c :: q')) as Hl by (eapply line_ok_suffix, Hb; by trans s).
  apply Forall_cons in Hl as [Hc0 Hl]. cbn [chr hd tl]. rewrite (proj2 (Z.eqb_neq c 0) Hc0).
  assert (∀ e, e `suffix_of` q' → skip_ws e `suffix_of` s ∧ (length (skip_ws e) < length s)%nat) as Hstep.
  { intros e He. assert (skip_ws e `suffix_of` q') as H by (trans e; [apply skip_ws_suffix|done]).
    split; [trans q'; [done|]; by apply suffix_cons_l in Hq|].
    apply suffix_length in H, Hq. simpl in Hq. lia. }
  destruct (one_of (codes "|();&<") c) eqn:E1.
  { cbn. destruct (Hstep q' ltac:(done)). split_and!; try done. intros ->. by vm_compute in E1. }
  destruct (Z.eqb_spec c 62) as [->|Hgt].
  { destruct (chr q' =? 62); cbn; [destruct (Hstep (tl q')); [by destruct q'; [|apply suffix_cons_r]|]|
      destruct (Hstep q' ltac:(done))]; split_and!; done. }
  cbn [psafe fst snd]. assert (plain_char c = true) as Hp.
  { unfold plain_char. destruct (skip_ws_stop s) as [E|E]; [fold q in E; congruence|].
    fold q in E. rewrite Eq in E. cbn [chr hd] in E. rewrite E. cbn [orb].
    apply negb_true_iff. revert E1 Hgt. unfold symbols. clear. intros E1 Hgt.
    change (codes "<|>&;()") with [60; 124; 62; 38; 59; 40; 41].
    change (codes "|();&<") with [124; 40; 41; 59; 38; 60] in E1.
    rewrite !one_of_cons, one_of_nil in * by done. destruct (c =? 124), (c =? 40), (c =? 41), (c =? 59), (c =? 38), (c =? 60); try done.
    by rewrite (proj2 (Z.eqb_neq c 62) Hgt). }
  destruct (skip_word_split q') as (w&Ew&Hw&Hr).
  assert (skip_word (c :: q') = skip_word q') as Esw.
  { cbn [skip_word]. unfold plain_char in Hp. apply negb_true_iff in Hp. by rewrite Hp. }
  rewrite Esw. destruct (Hstep (skip_word q')) as [H1 H2]; [by exists w|]. split_and!; [done..| |done].
  intros _. destruct Hs as [k1 Ek1]. destruct Hq as [k2 Ek2].
  exists (k1 ++ k2), (c :: w), (skip_word q'). split_and!; [|by rewrite <- app_comm_cons, <- Ew|done|by constructor|done].
  by rewrite Ek1, Ek2, <- app_assoc, <- app_comm_cons, <- Ew.
Qed.

Lemma peek_ok toks s :
  psafe (λ b s', s' `suffix_of` s ∧ s' = skip_ws s ∧ b = negb (chr s' =? 0) && one_of toks (chr s')) (peek toks s).
Proof. cbn. split; [apply skip_ws_suffix|done]. Qed.

(** A token that [peek] has seen is taken. *)
Lemma peek_then {B} toks (f : bool → parser B) Q s :
  (∀ s', s' `suffix_of` s → s' = skip_ws s' → s' ≠ [] → one_of toks (chr s') = true → psafe Q (f true s')) →
  (∀ s', s' `suffix_of` s → psafe Q (f false s')) →
  psafe Q ((peek toks ≫= f) s).
Proof.
  intros Ht Hf. eapply psafe_bind; [apply peek_ok|]. intros b s' (H1&H2&->).
  destruct (negb (chr s' =? 0) && one_of toks (chr s')) eqn:E; [|auto].
  apply andb_true_iff in E as [E1 E2]. apply Ht; [done| | |done].
  - symmetry. apply skip_ws_id. rewrite H2. apply skip_ws_stop.
  - intros ->. done.
Qed.

(** A token taken after [peek] has seen it: the line gets shorter. *)
Lemma gettoken_then {B} buf (f : Z * span → parser B) Q s :
  s `suffix_of` buf → line_ok buf → s = skip_ws s → s ≠ [] →
  (∀ t s', s' `suffix_of` s → (length s' < length s)%nat → psafe Q (f t s')) →
  psafe Q ((gettoken ≫= f) s).
Proof.
  intros Hs Hb Hw Hn Hf. eapply psafe_bind; [by eapply gettoken_ok|]. intros t s' (H1&H2&_&H4).
  apply Hf; [done|]. apply H2, H4. congruence.
Qed.

Section Sound.
Context (buf : list Z) (Hbuf : line_ok buf).

Definition redir_ok (r : redir span) : Prop := span_ok buf (r_file r).
Definition cmd_ok (cmd : scmd span) : Prop := Forall (span_ok buf) (spans cmd).

Lemma redirs_ok fuel : ∀ s, s `suffix_of` buf → (length s < fuel)%nat →
  psafe (λ rs s', s' `suffix_of` s ∧ Forall redir_ok rs) (redirs fuel s).
Proof.
  induction fuel as [|fuel IH]; intros s Hs Hf; [lia|]. cbn [redirs].
  apply peek_then; [|intros s' Hs'; cbn; auto].
  intros s1 H1 Hw Hn _. cbn [negb]. apply (gettoken_then buf); try done; [by trans s|].
  intros tok s2 H2 Hl2. eapply psafe_bind; [apply gettoken_ok; [|done]; by trans s1; [|trans s]|].
  intros w s3 (H3&_&Hw3&_). cbn beta.
  destruct (Z.eqb_spec w.1 97) as [E|_]; cbn [negb]; [|done].
  apply suffix_length in H1 as Hl1, H3 as Hl3.
  assert (s3 `suffix_of` s) as Q3 by (trans s2; [done|]; by trans s1).
  eapply psafe_bind; [apply IH; [by trans s|lia]|]. intros rs s4 [H4 Hrs]. cbn. split; [by trans s3|].
  constructor; [|done]. unfold redir_ok. destruct (tok.1 =? 60), (tok.1 =? 62); cbn; auto.
Qed.

Lemma measured_redirs s : s `suffix_of` buf →
  psafe (λ rs s', s' `suffix_of` s ∧ Forall redir_ok rs) (measured redirs s).
Proof. intros Hs. apply redirs_ok; [done|lia]. Qed.

Lemma wrap_ok cmd rs : cmd_ok cmd → Forall redir_ok rs → cmd_ok (wrap cmd rs).
Proof.
  intros Hc Hr. revert cmd Hc. induction Hr as [|r rs Hr _ IH]; intros cmd Hc; [done|]. apply IH.
  apply Forall_app. auto.
Qed.

Lemma exec_args_ok fuel : ∀ argv rs s, s `suffix_of` buf → (length s < fuel)%nat →
  Forall (span_ok buf) argv → Forall redir_ok rs →
  psafe (λ r s', s' `suffix_of` s ∧ Forall (span_ok buf) r.1 ∧ Forall redir_ok r.2) (parse_args fuel argv rs s).
Proof.
  induction fuel as [|fuel IH]; intros argv rs s Hs Hf Ha Hr; [lia|]. cbn [parse_args].
  apply peek_then; [intros; cbn; auto|]. intros s1 H1.
  assert (s1 `suffix_of` buf) as Hs1 by (by trans s).
  eapply psafe_bind; [by eapply gettoken_ok|]. intros tok s2 (H2&Hl2&Hw&_).
  assert (s2 `suffix_of` s) as H20 by (by trans s1).
  destruct (Z.eqb_spec tok.1 0) as [|Hne]; [cbn; auto|]. specialize (Hl2 Hne).
  destruct (Z.eqb_spec tok.1 97) as [E|_]; cbn [negb]; [|done].
  destruct (MAXARGS <=? _)%nat; [done|].
  eapply psafe_bind; [apply measured_redirs; by trans s|]. intros rs' s3 [H3 Hr'].
  apply suffix_length in H1 as Hl1, H3 as Hl3.
  eapply psafe_weaken; [apply IH; [trans s2; [done|]; by trans s|lia|apply Forall_app; auto|apply Forall_app; auto]|].
  intros r s4 (H4&?&?). split_and!; [|done..]. trans s3; [done|]. by trans s2.
Qed.

Lemma back_loop_ok fuel : ∀ cmd s, s `suffix_of` buf → (length s < fuel)%nat → cmd_ok cmd →
  psafe (λ c s', s' `suffix_of` s ∧ cmd_ok c) (back_loop fuel cmd s).
Proof.
  induction fuel as [|fuel IH]; intros cmd s Hs Hf Hc; [lia|]. cbn [back_loop].
  apply peek_then; [|intros s' Hs'; cbn; auto].
  intros s1 H1 Hw Hn _. cbn [negb]. apply (gettoken_then buf); try done; [by trans s|].
  intros tok s2 H2 Hl2. apply suffix_length in H1 as Hl1. assert (s2 `suffix_of` s) as Q2 by (by trans s1).
  eapply psafe_weaken; [apply IH; [by trans s|lia|done]|]. intros c s3 [??]. split; [by trans s2|done].
Qed.

(** The four functions, each with the depth it needs. *)
Lemma parse_ok n :
  (∀ s, s `suffix_of` buf → (4 * length s + 3 < n)%nat → psafe (λ c s', s' `suffix_of` s ∧ cmd_ok c) (parseline n s)) ∧
  (∀ s, s `suffix_of` buf → (4 * length s + 2 < n)%nat → psafe (λ c s', s' `suffix_of` s ∧ cmd_ok c) (parsepipe n s)) ∧
  (∀ s, s `suffix_of` buf → (4 * length s + 1 < n)%nat → psafe (λ c s', s' `suffix_of` s ∧ cmd_ok c) (parseexec n s)) ∧
  (∀ s, s `suffix_of` buf → (4 * length s < n)%nat → psafe (λ c s', s' `suffix_of` s ∧ cmd_ok c) (parseblock n s)).
Proof.
  induction n as [|n (IHl&IHp&IHe&IHb)]; [split_and!; intros; lia|]. split_and!; intros s Hs Hn.
  - cbn [parseline]. eapply psafe_bind; [apply IHp; [done|lia]|]. intros c s1 [H1 Hc].
    assert (s1 `suffix_of` buf) as Q1b by (by trans s). apply suffix_length in H1 as Hl1.
    eapply psafe_bind; [apply back_loop_ok; [done|lia|done]|]. intros c' s2 [H2 Hc']. apply suffix_length in H2 as Hl2.
    assert (s2 `suffix_of` s) as Q2 by (by trans s1).
    apply peek_then; [|intros s' Hs'; cbn; split; [by trans s2|done]].
    intros s3 H3 Hw Hne _. cbn [negb]. apply suffix_length in H3 as Hl3. assert (s3 `suffix_of` s) as Q3 by (by trans s2).
    apply (gettoken_then buf); try done; [by trans s|]. intros tok s4 H4 Hl4. assert (s4 `suffix_of` s) as Q4 by (by trans s3).
    eapply psafe_bind; [apply IHl; [by trans s|lia]|]. intros c'' s5 [H5 Hc'']. cbn. split; [by trans s4|].
    apply Forall_app. auto.
  - cbn [parsepipe]. eapply psafe_bind; [apply IHe; [done|lia]|]. intros c s1 [H1 Hc]. apply suffix_length in H1 as Hl1.
    apply peek_then; [|intros s' Hs'; cbn; split; [by trans s1|done]].
    intros s3 H3 Hw Hne _. cbn [negb]. apply suffix_length in H3 as Hl3. assert (s3 `suffix_of` s) as Q3 by (by trans s1).
    apply (gettoken_then buf); try done; [by trans s|]. intros tok s4 H4 Hl4. assert (s4 `suffix_of` s) as Q4 by (by trans s3).
    eapply psafe_bind; [apply IHp; [by trans s|lia]|]. intros c'' s5 [H5 Hc'']. cbn. split; [by trans s4|].
    apply Forall_app. auto.
  - cbn [parseexec]. apply peek_then.
    + intros s1 H1 _ _ _. apply suffix_length in H1 as Hl1. eapply psafe_weaken; [apply IHb; [by trans s|lia]|].
      intros c s2 [??]. split; [by trans s1|done].
    + intros s1 H1. eapply psafe_bind; [apply measured_redirs; by trans s|]. intros rs s2 [H2 Hr].
      assert (s2 `suffix_of` s) as Q2 by (by trans s1).
      eapply psafe_bind; [apply exec_args_ok; [by trans s|lia|done|done]|]. intros r s3 (H3&Ha&Hr').
      cbn. split; [by trans s2|]. by apply wrap_ok.
  - cbn [parseblock]. apply peek_then; [|done]. intros s1 H1 Hw Hne _. cbn [negb]. apply suffix_length in H1 as Hl1.
    apply (gettoken_then buf); try done; [by trans s|]. intros tok s2 H2 Hl2. assert (s2 `suffix_of` s) as Q2 by (by trans s1).
    eapply psafe_bind; [apply IHl; [by trans s|lia]|]. intros c s3 [H3 Hc]. assert (s3 `suffix_of` s) as Q3 by (by trans s2).
    apply peek_then; [|done]. intros s4 H4 Hw4 Hne4 _. cbn [negb]. assert (s4 `suffix_of` s) as Q4 by (by trans s3).
    apply (gettoken_then buf); try done; [by trans s|]. intros tok' s5 H5 Hl5. assert (s5 `suffix_of` s) as Q5 by (by trans s4).
    unfold parseredirs. eapply psafe_bind; [apply measured_redirs; by trans s|]. intros rs s6 [H6 Hr]. cbn.
    split; [by trans s5|by apply wrap_ok].
Qed.
End Sound.

(** C25: The parser of the shell ends on every line: with [parse_depth], four
    nested calls for each character, none of its functions and loops runs out of
    fuel, so that every line is parsed or refused with a message. *)
Theorem parse_terminates (buf : list Z) : parseline (parse_depth (cstr buf)) (cstr buf) ≠ PFuel.
Proof.
  intros E. pose proof (line_ok_cstr buf) as Hb.
  destruct (parse_ok (cstr buf) Hb (parse_depth (cstr buf))) as [H _].
  specialize (H (cstr buf) ltac:(done)). rewrite E in H. apply H. unfold parse_depth. lia.
Qed.

(** ** The NULs *)

(** The characters of the word itself. *)
Definition text_of (buf : list Z) (sp : span) : list Z := take (sp.1 - sp.2) (drop (length buf - sp.1) buf).

Lemma text_of_split pre w rest : text_of (pre ++ w ++ rest) (length (w ++ rest), length rest) = w.
Proof.
  unfold text_of. cbn [fst snd]. rewrite (length_app pre), Nat.add_sub, drop_app_length, length_app, Nat.add_sub.
  apply take_app_length.
Qed.

Lemma nulterminate_fold es cmd : ∀ buf, nulterminate es buf cmd = fold_left (nul_at es) (map snd (spans cmd)) buf.
Proof.
  induction cmd as [argv|cmd IH file mode fd|l IHl r IHr|l IHl r IHr|cmd IH]; intros buf; cbn [nulterminate spans].
  - revert buf. induction argv as [|w argv IH]; intros buf; [done|]. apply IH.
  - by rewrite map_app, fold_left_app, IH.
  - by rewrite map_app, fold_left_app, IHl, IHr.
  - by rewrite map_app, fold_left_app, IHl, IHr.
  - done.
Qed.

(** The place of the word [w] in a buffer that NULs are written into: the word is
    still there, and after [z] the character behind it is NUL. *)
Definition intact (k : nat) (w : list Z) (z : bool) (b : list Z) : Prop :=
  ∃ pre c y, b = pre ++ w ++ c :: y ∧ length pre = k ∧ (z = true → c = 0).

Lemma intact_insert k w z b i : intact k w z b → (i < k ∨ k + length w <= i)%nat → intact k w z (<[i:=0]> b).
Proof.
  intros (pre&c&y&->&<-&Hz) [Hi|Hi].
  - exists (<[i:=0]> pre), c, y. rewrite insert_app_l by done. by rewrite length_insert.
  - rewrite insert_app_r_alt, insert_app_r_alt by lia.
    destruct (i - length pre - length w)%nat as [|j]; cbn; [exists pre, 0, y|exists pre, c, (<[j:=0]> y)]; done.
Qed.

Lemma intact_end k w z b : intact k w z b → intact k w true (<[(k + length w)%nat:=0]> b).
Proof.
  intros (pre&c&y&->&<-&Hz). rewrite insert_app_r_alt, insert_app_r_alt by lia.
  replace (length pre + length w - length pre - length w)%nat with O by lia. by exists pre, 0, y.
Qed.

Lemma intact_string k w b : intact k w true b → line_ok w → cstr (drop k b) = w.
Proof.
  intros (pre&c&y&->&<-&Hz) Hw. rewrite drop_app_length, (Hz eq_refl). clear Hz.
  induction Hw as [|x w Hx _ IH]; simpl; [done|]. by rewrite (proj2 (Z.eqb_neq x 0) Hx), IH.
Qed.

(** The end of a word is in no word. *)
Lemma ends_apart buf s1 s2 pre w rest : span_ok buf s2 → buf = pre ++ w ++ rest →
  s1 = (length (w ++ rest), length rest) → Forall (λ c, plain_char c = true) w →
  (length buf - s2.2 < length pre ∨ length pre + length w <= length buf - s2.2)%nat.
Proof.
  intros (pre2&w2&rest2&Eb&->&_&_&Hr) Eb1 -> Hw. cbn [snd].
  assert (length buf - length rest2 = length (pre2 ++ w2))%nat as -> by (rewrite Eb, !length_app; lia).
  destruct (decide (length (pre2 ++ w2) < length pre)%nat) as [|H1]; [by left|].
  destruct (decide (length pre + length w <= length (pre2 ++ w2))%nat) as [|H2]; [by right|]. exfalso.
  assert (buf !! length (pre2 ++ w2) = head rest2) as E1.
  { rewrite Eb, app_assoc, lookup_app_r, Nat.sub_diag by done. by destruct rest2. }
  rewrite Eb1, lookup_app_r, lookup_app_l in E1 by lia.
  destruct (lookup_lt_is_Some_2 w (length (pre2 ++ w2) - length pre)) as [c Hc]; [lia|].
  rewrite Hc in E1. destruct rest2 as [|c' rest2]; simplify_eq/=. destruct Hr as [|Hr]; [done|].
  rewrite Forall_lookup in Hw. apply Hw in Hc. congruence.
Qed.

Lemma fold_intact (buf : list Z) ends k w : ∀ z b,
  Forall (λ e, (length buf - e < k ∨ k + length w <= length buf - e)%nat) ends → intact k w z b →
  intact k w (z || bool_decide (Exists (λ e, length buf - e = k + length w)%nat ends)) (fold_left (nul_at (length buf)) ends b).
Proof.
  induction ends as [|e ends IH]; intros z b He Hb; cbn [fold_left].
  - rewrite bool_decide_eq_false_2 by (by intros ?%Exists_nil). by rewrite orb_false_r.
  - apply Forall_cons in He as [He Hes].
    destruct (decide (length buf - e = k + length w)%nat) as [E|E].
    + rewrite (bool_decide_eq_true_2 (Exists _ _)), orb_true_r by (by left).
      eapply (IH true) in Hes; [exact Hes|]. unfold nul_at. rewrite E. by eapply intact_end.
    + erewrite bool_decide_ext; [apply (IH z); [done|by apply intact_insert]|].
      rewrite Exists_cons. tauto.
Qed.

Lemma string_intact buf tail ends sp : line_ok buf → span_ok buf sp → sp.2 ∈ ends →
  (∀ e, e ∈ ends → ∃ sp', span_ok buf sp' ∧ e = sp'.2) →
  string_at (length buf) (fold_left (nul_at (length buf)) ends (buf ++ 0 :: tail)) sp = text_of buf sp.
Proof.
  intros Hl (pre&w&rest&Eb&Esp&Hne&Hw&Hr) Hin Hends.
  assert (intact (length pre) w false (buf ++ 0 :: tail)) as H0.
  { rewrite Eb, <- !app_assoc. destruct rest as [|c rest]; cbn; [by exists pre, 0, tail|by exists pre, c, (rest ++ 0 :: tail)]. }
  eapply (fold_intact buf ends) in H0.
  2: { apply Forall_forall. intros e He. destruct (Hends e He) as (sp'&Hsp'&->).
       by eapply ends_apart. }
  rewrite (bool_decide_eq_true_2 (Exists _ _)) in H0.
  2: { apply Exists_exists. exists sp.2. split; [done|]. subst sp. cbn [snd]. rewrite Eb, !length_app. lia. }
  unfold string_at. replace (length buf - sp.1)%nat with (length pre).
  2: { subst sp. cbn [fst]. rewrite Eb, (length_app pre). lia. }
  subst sp. rewrite (intact_string _ w); [|done|].
  - symmetry. rewrite Eb at 1. apply text_of_split.
  - eapply line_ok_suffix in Hl; [|exists pre; exact Eb]. by apply Forall_app in Hl as [? _].
Qed.

(** The words that a command points at, read as C strings after
    [nulterminate]. *)
Lemma nulterminate_strings buf tail cmd : line_ok buf → cmd_ok buf cmd →
  scmd_map (string_at (length buf) (nulterminate (length buf) (buf ++ 0 :: tail) cmd)) cmd = scmd_map (text_of buf) cmd.
Proof.
  intros Hl Hc. rewrite nulterminate_fold. unfold cmd_ok in Hc. rewrite Forall_forall in Hc.
  assert (∀ sp, sp ∈ spans cmd →
    string_at (length buf) (fold_left (nul_at (length buf)) (map snd (spans cmd)) (buf ++ 0 :: tail)) sp = text_of buf sp) as H.
  { intros sp Hsp. apply string_intact; [done|by apply Hc|by apply list_elem_of_fmap_2|].
    intros e (sp'&->&Hsp')%list_elem_of_fmap. eauto. }
  revert H. generalize (fold_left (nul_at (length buf)) (map snd (spans cmd)) (buf ++ 0 :: tail)). intros b H.
  clear Hc. induction cmd as [argv|cmd IH file mode fd|l IHl r IHr|l IHl r IHr|cmd IH]; cbn [scmd_map spans] in *; f_equal;
    try set_solver. apply map_ext_in. intros sp Hsp%list_elem_of_In. auto.
Qed.

(** ** Printing *)

Definition redir_op (mode fd : Z) : option (list Z) :=
  if (mode =? O_RDONLY) && (fd =? 0) then Some (codes "<")
  else if (mode =? Z.lor (Z.lor O_WRONLY O_CREATE) O_TRUNC) && (fd =? 1) then Some (codes ">")
  else if (mode =? Z.lor O_WRONLY O_CREATE) && (fd =? 1) then Some (codes ">>")
  else None.

Definition more_words (ws : list (list Z)) : list Z := concat (map (cons 32) ws).
Definition show_words (ws : list (list Z)) : list Z :=
  match ws with [] => [] | w :: ws => w ++ more_words ws end.

Fixpoint show (cmd : scmd (list Z)) : list Z :=
  match cmd with
  | EXEC argv => show_words argv
  | REDIR cmd file mode fd => 40 :: show cmd ++ 41 :: default [] (redir_op mode fd) ++ file
  | PIPE l r => 40 :: show l ++ 41 :: 124 :: 40 :: show r ++ [41]
  | LIST l r => 40 :: show l ++ 41 :: 59 :: 40 :: show r ++ [41]
  | BACK cmd => 40 :: show cmd ++ [41; 38]
  end.

(** The commands that the shell's language has: words of plain characters, fewer
    than [MAXARGS] of them, and the three redirections. *)
Definition word_ok (w : list Z) : Prop := w ≠ [] ∧ Forall (λ c, c ≠ 0 ∧ plain_char c = true) w.
Fixpoint printable (cmd : scmd (list Z)) : Prop :=
  match cmd with
  | EXEC argv => Forall word_ok argv ∧ (length argv < MAXARGS)%nat
  | REDIR cmd file mode fd => printable cmd ∧ word_ok file ∧ is_Some (redir_op mode fd)
  | PIPE l r => printable l ∧ printable r
  | LIST l r => printable l ∧ printable r
  | BACK cmd => printable cmd
  end.

(** The text behind a command: the end, or a closing parenthesis. *)
Definition follow (rest : list Z) : Prop := rest = [] ∨ chr rest = 41.

Lemma plain_char_ws c : plain_char c = true → one_of whitespace c = false.
Proof. unfold plain_char. by destruct (one_of whitespace c). Qed.

Lemma plain_char_sym c : plain_char c = true → one_of symbols c = false.
Proof. unfold plain_char. by destruct (one_of whitespace c), (one_of symbols c). Qed.

(** Every set of symbols that the parser looks for. *)
Lemma one_of_symbols toks c : one_of symbols c = false → Forall (λ t, one_of symbols t = true) toks → one_of toks c = false.
Proof.
  intros Hc. induction 1 as [|t toks Ht _ IH]; [apply one_of_nil|].
  rewrite one_of_cons by (intros ->; done). rewrite IH, orb_false_r. apply Z.eqb_neq. intros ->. congruence.
Qed.

(** A text at which none of [toks] is next, and no blank. *)
Definition stops (toks s : list Z) : Prop := s = [] ∨ one_of whitespace (chr s) = false ∧ one_of toks (chr s) = false.

Lemma peek_no toks s : stops toks s → peek toks s = POk false s.
Proof.
  intros [->|[Hw Ht]]; [done|]. unfold peek. rewrite skip_ws_id by auto. by rewrite Ht, andb_false_r.
Qed.

Lemma peek_yes toks c s : c ≠ 0 → one_of whitespace c = false → one_of toks c = true →
  peek toks (c :: s) = POk true (c :: s).
Proof.
  intros H0 Hw Ht. unfold peek. rewrite skip_ws_id by auto. cbn [chr hd]. by rewrite Ht, (proj2 (Z.eqb_neq c 0) H0).
Qed.

Lemma gettoken_symbol c s : one_of (codes "|();&<") c = true → one_of whitespace c = false → stops [] s →
  gettoken (c :: s) = POk (c, (S (length s), length s)) s.
Proof.
  intros Hc Hw Hs. unfold gettoken. rewrite (skip_ws_id (c :: s)) by auto. cbn [chr hd tl].
  rewrite Hc. destruct (Z.eqb_spec c 0) as [->|]; [by vm_compute in Hc|]. cbn [length].
  by rewrite skip_ws_id by (destruct Hs as [|[]]; auto).
Qed.

Lemma gettoken_gt s : stops [62] s → gettoken (62 :: s) = POk (62, (S (length s), length s)) s.
Proof.
  intros Hs. unfold gettoken. change (skip_ws (62 :: s)) with (62 :: s). cbn [chr hd tl].
  change (one_of (codes "|();&<") 62) with false. change (62 =? 0) with false. change (62 =? 62) with true. cbn iota.
  assert (skip_ws s = s) as E by (apply skip_ws_id; destruct Hs as [|[]]; auto).
  destruct (Z.eqb_spec (chr s) 62) as [E62|_]; [|by rewrite E].
  destruct Hs as [->|[_ Hs]]; [done|]. by rewrite E62 in Hs.
Qed.

Lemma gettoken_gtgt s : stops [] s → gettoken (62 :: 62 :: s) = POk (43, (S (S (length s)), length s)) s.
Proof.
  intros Hs. unfold gettoken. change (skip_ws (62 :: 62 :: s)) with (62 :: 62 :: s). cbn [chr hd tl].
  change (one_of (codes "|();&<") 62) with false. change (62 =? 0) with false. change (62 =? 62) with true. cbn iota.
  by rewrite skip_ws_id by (destruct Hs as [|[]]; auto).
Qed.

Lemma skip_word_app w t : Forall (λ c, c ≠ 0 ∧ plain_char c = true) w → (t = [] ∨ plain_char (chr t) = false) →
  skip_word (w ++ t) = t.
Proof.
  intros Hw Ht. induction Hw as [|c w [_ Hc] _ IH]; cbn [app skip_word].
  - destruct Ht as [->|Ht]; [done|]. destruct t as [|c t]; [done|]. cbn [chr hd] in Ht. unfold plain_char in Ht. cbn [skip_word].
    apply negb_false_iff in Ht. by rewrite Ht.
  - unfold plain_char in Hc. apply negb_true_iff in Hc. by rewrite Hc.
Qed.

(** A word that starts the text. *)
Lemma word_head w t : word_ok w → ∃ c s, w ++ t = c :: s ∧ c ≠ 0 ∧ plain_char c = true.
Proof. intros [Hn Hw]. destruct Hw as [|c w [??] ?]; [done|]. by exists c, (w ++ t). Qed.

Lemma word_stops toks w t : word_ok w → Forall (λ t, one_of symbols t = true) toks → stops toks (w ++ t).
Proof.
  intros Hw Ht. destruct (word_head w t Hw) as (c&s&->&_&Hc). right. cbn [chr hd].
  split; [by apply plain_char_ws|]. apply one_of_symbols; [by apply plain_char_sym|done].
Qed.

Lemma gettoken_word w t : word_ok w → (t = [] ∨ plain_char (chr t) = false) →
  gettoken (w ++ t) = POk (97, (length (w ++ t), length t)) (skip_ws t).
Proof.
  intros Hw Ht. unfold gettoken. pose proof (skip_word_app w t (proj2 Hw) Ht) as Es.
  destruct (word_head w t Hw) as (c&s&E&H0&Hc). rewrite E in *.
  rewrite (skip_ws_id (c :: s)) by (right; by apply plain_char_ws). cbn [chr hd].
  rewrite (proj2 (Z.eqb_neq c 0) H0), (one_of_symbols (codes "|();&<")) by
    (by apply plain_char_sym || by repeat constructor).
  destruct (Z.eqb_spec c 62) as [->|]; [by apply plain_char_sym in Hc|]. by rewrite Es.
Qed.

(** ** Parsing what was printed *)

Lemma follow_stops rest toks : follow rest → one_of toks 41 = false → stops toks rest.
Proof. intros [->|E] Ht; [by left|]. right. rewrite E. by split. Qed.

Lemma redirs_none s : stops (codes "<>") s → measured redirs s = POk [] s.
Proof. intros Hs. unfold measured. cbn [redirs]. by erewrite parser_step by by apply peek_no. Qed.

Lemma parseredirs_none c s : stops (codes "<>") s → parseredirs c s = POk c s.
Proof. intros Hs. unfold parseredirs. by erewrite parser_step by by apply redirs_none. Qed.

(** A command followed by nothing that goes on with it. *)
Lemma pipe_tail n s c t : parseexec n s = POk c t → stops (codes "|") t → parsepipe (S n) s = POk c t.
Proof. intros E Ht. cbn [parsepipe]. erewrite parser_step by done. by erewrite parser_step by by apply peek_no. Qed.

Lemma back_none c s : stops (codes "&") s → measured (λ k, back_loop k c) s = POk c s.
Proof. intros Hs. unfold measured. cbn [back_loop]. by erewrite parser_step by by apply peek_no. Qed.

Lemma line_tail n s c rest : parsepipe n s = POk c rest → follow rest → parseline (S n) s = POk c rest.
Proof.
  intros E Hr. cbn [parseline]. erewrite parser_step by done.
  erewrite parser_step by (apply back_none, follow_stops; done).
  by erewrite parser_step by (apply peek_no, follow_stops; done).
Qed.

Section RoundTrip.
Context (buf : list Z).

(** The pointers of [c'] are the words of [c]. *)
Definition says (c' : scmd span) (c : scmd (list Z)) : Prop := scmd_map (text_of buf) c' = c.

Lemma text_of_word w t : (w ++ t) `suffix_of` buf → text_of buf (length (w ++ t), length t) = w.
Proof. intros [pre ->]. apply text_of_split. Qed.

Lemma more_words_stop ws rest : follow rest → more_words ws ++ rest = [] ∨ plain_char (chr (more_words ws ++ rest)) = false.
Proof. intros [->|E]; destruct ws as [|w ws]; cbn; auto. rewrite E. auto. Qed.

(** The words behind the first, with the blank in front of them skipped. *)
Lemma more_words_skip ws rest : Forall word_ok ws → follow rest →
  skip_ws (more_words ws ++ rest) = match ws with [] => rest | w :: ws => w ++ more_words ws ++ rest end.
Proof.
  intros Hw Hr. destruct Hw as [|w ws Hw _]; cbn.
  - apply skip_ws_id. destruct Hr as [->|E]; [by left|right; by rewrite E].
  - rewrite <- app_assoc. apply skip_ws_id. destruct (word_stops [] w (more_words ws ++ rest) Hw) as [?|[? _]]; [done|by left|by right].
Qed.

Lemma exec_args_words ws rest : Forall word_ok ws → follow rest → ∀ fuel argv,
  let s := show_words ws ++ rest in
  (length s < fuel)%nat → (length argv + length ws < MAXARGS)%nat → s `suffix_of` buf →
  ∃ sps, parse_args fuel argv [] s = POk (argv ++ sps, []) rest ∧ map (text_of buf) sps = ws.
Proof.
  intros Hw Hr. induction Hw as [|w ws Hw Hws IH]; intros fuel argv s Hf Ha Hs; subst s;
    (destruct fuel as [|fuel]; [lia|]); cbn [parse_args show_words app] in *.
  - exists []. rewrite app_nil_r. split; [|done]. destruct Hr as [->|E]; [done|]. destruct rest as [|c rest]; [done|].
    cbn in E. subst c. by erewrite parser_step by by apply peek_yes.
  - rewrite <- app_assoc in *. erewrite parser_step by (apply peek_no, word_stops; [done|by repeat constructor]).
    cbn iota. erewrite parser_step by (by apply gettoken_word, more_words_stop). cbn [fst snd].
    change (97 =? 0) with false. change (97 =? 97) with true. cbn [negb].
    rewrite length_app. cbn [length] in Ha |- *. destruct (Nat.leb_spec MAXARGS (length argv + 1)); [lia|].
    rewrite more_words_skip by done.
    set (t := match ws with [] => rest | w :: ws => w ++ more_words ws ++ rest end).
    assert (show_words ws ++ rest = t) as Et by (destruct ws; cbn; by rewrite <- ?app_assoc).
    assert (t `suffix_of` more_words ws ++ rest) as Hsuf by (subst t; rewrite <- more_words_skip by done; apply skip_ws_suffix).
    erewrite parser_step by (apply redirs_none; subst t; destruct Hws; [by apply follow_stops|apply word_stops; [done|by repeat constructor]]).
    cbn [app]. rewrite Et in IH. destruct (IH fuel (argv ++ [(length (w ++ more_words ws ++ rest), length (more_words ws ++ rest))]))
      as (sps&E&Em).
    + apply suffix_length in Hsuf. destruct Hw as [Hn _]. rewrite (length_app w) in Hf. assert (length w ≠ O) by by destruct w. lia.
    + rewrite length_app. cbn [length]. lia.
    + trans (more_words ws ++ rest); [done|]. trans (w ++ more_words ws ++ rest); [by exists w|done].
    + exists ((length (w ++ more_words ws ++ rest), length (more_words ws ++ rest)) :: sps). rewrite <- app_assoc in E.
      split; [exact E|]. cbn [map]. by rewrite Em, text_of_word.
Qed.

(** A command in parentheses. *)
Definition parses (c : scmd (list Z)) : Prop := ∀ n rest,
  follow rest → (4 * length (show c ++ rest) + 3 < n)%nat → (show c ++ rest) `suffix_of` buf →
  ∃ c', parseline n (show c ++ rest) = POk c' rest ∧ says c' c.

Lemma show_stops c rest : printable c → follow rest → stops [] (show c ++ rest).
Proof.
  destruct c as [[|w argv]| | | |]; intros Hp Hr; cbn [show show_words]; try by right.
  - by apply follow_stops.
  - rewrite <- app_assoc. destruct Hp as [Hp _]. apply Forall_cons in Hp as [Hw _]. by apply word_stops; [|constructor].
Qed.

Lemma block_parses c t n : printable c → parses c → stops [] t →
  let s := 40 :: show c ++ 41 :: t in
  (4 * length s + 1 < n)%nat → s `suffix_of` buf →
  ∃ c', parseexec n s = parseredirs c' t ∧ says c' c.
Proof.
  intros Hp Hc Ht s Hn Hs. destruct n as [|[|n]]; [lia|lia|].
  destruct (Hc n (41 :: t)) as (c'&E&Hc'); [by right|subst s; cbn [length] in Hn; lia|by apply suffix_cons_l in Hs|].
  exists c'. split; [|done]. subst s. cbn [parseexec parseblock].
  parse_step ltac:(by apply peek_yes). parse_step ltac:(by apply peek_yes).
  parse_step ltac:(apply gettoken_symbol; [done|done|]; apply show_stops; [done|by right]).
  parse_step ltac:(exact E). parse_step ltac:(by apply peek_yes). by parse_step ltac:(by apply gettoken_symbol).
Qed.

(** One redirection, and no other behind it. *)
Lemma redirs_one s tok k file rest : peek (codes "<>") s = POk true s → gettoken s = POk (tok, k) (file ++ rest) →
  (length (file ++ rest) < length s)%nat → word_ok file → follow rest →
  let w := (length (file ++ rest), length rest) in
  measured redirs s = POk [if tok =? 60 then mk_redir w O_RDONLY 0
    else if tok =? 62 then mk_redir w (Z.lor (Z.lor O_WRONLY O_CREATE) O_TRUNC) 1
    else mk_redir w (Z.lor O_WRONLY O_CREATE) 1] rest.
Proof.
  intros Hp Hg Hl Hf Hr w. unfold measured. cbn [redirs]. parse_step ltac:(exact Hp). parse_step ltac:(exact Hg).
  assert (rest = [] ∨ plain_char (chr rest) = false) as Hrp by (destruct Hr as [|E]; [by left|right; by rewrite E]).
  assert (skip_ws rest = rest) as Hrw by (apply skip_ws_id; destruct Hr as [|E]; [by left|right; by rewrite E]).
  parse_step ltac:(by apply gettoken_word). change (97 =? 97) with true. cbn [negb]. rewrite Hrw.
  destruct (length s) as [|l]; [lia|]. cbn [redirs].
  assert (redirs (S l) rest = POk [] rest) as Hend by (cbn [redirs]; by parse_step ltac:(by apply peek_no, follow_stops)).
  by parse_step ltac:(exact Hend).
Qed.

Lemma redir_parses mode fd op file rest c' : redir_op mode fd = Some op → word_ok file → follow rest →
  (op ++ file ++ rest) `suffix_of` buf →
  ∃ w, parseredirs c' (op ++ file ++ rest) = POk (REDIR c' w mode fd) rest ∧ text_of buf w = file.
Proof.
  intros Hop Hf Hr Hs. exists (length (file ++ rest), length rest). split.
  2: { apply text_of_word. trans (op ++ file ++ rest); [by exists op|done]. }
  assert (∀ toks, Forall (λ t, one_of symbols t = true) toks → stops toks (file ++ rest)) as Hst
    by (intros; by apply word_stops).
  unfold redir_op in Hop. unfold parseredirs.
  destruct ((mode =? O_RDONLY) && (fd =? 0)) eqn:E1; [|destruct ((mode =? _) && (fd =? 1)) eqn:E2 in Hop;
    [|destruct ((mode =? _) && (fd =? 1)) eqn:E3 in Hop; [|done]]].
  - apply andb_true_iff in E1 as [->%Z.eqb_eq ->%Z.eqb_eq]. injection Hop as <-.
    change (codes "<" ++ file ++ rest) with (60 :: file ++ rest).
    by parse_step ltac:(eapply (redirs_one _ 60 _ file rest);
      [by apply peek_yes|apply gettoken_symbol; [done|done|by apply Hst]|cbn [length]; lia|done|done]).
  - apply andb_true_iff in E2 as [->%Z.eqb_eq ->%Z.eqb_eq]. injection Hop as <-.
    change (codes ">" ++ file ++ rest) with (62 :: file ++ rest).
    by parse_step ltac:(eapply (redirs_one _ 62 _ file rest);
      [by apply peek_yes|apply gettoken_gt, Hst; by repeat constructor|cbn [length]; lia|done|done]).
  - apply andb_true_iff in E3 as [->%Z.eqb_eq ->%Z.eqb_eq]. injection Hop as <-.
    change (codes ">>" ++ file ++ rest) with (62 :: 62 :: file ++ rest).
    by parse_step ltac:(eapply (redirs_one _ 43 _ file rest);
      [by apply peek_yes|by apply gettoken_gtgt, Hst|cbn [length]; lia|done|done]).
Qed.
Lemma exec_parses argv : printable (EXEC argv) → parses (EXEC argv).
Proof.
  intros [Hw Hl] n rest Hr Hn Hs. destruct n as [|[|[|n]]]; try lia. cbn [show] in *.
  destruct (exec_args_words argv rest Hw Hr (S (length (show_words argv ++ rest))) []) as (sps&E&Em); [lia|done|done|].
  exists (EXEC sps). split; [|unfold says; cbn; by rewrite Em].
  assert (∀ toks, Forall (λ t, one_of symbols t = true) toks → one_of toks 41 = false → stops toks (show_words argv ++ rest)) as Hst.
  { intros toks Ht H41. destruct Hw as [|w ws Hw _]; [by apply follow_stops|]. cbn. rewrite <- app_assoc. by apply word_stops. }
  apply line_tail; [|done]. apply pipe_tail; [|by apply follow_stops]. cbn [parseexec].
  parse_step ltac:(apply peek_no, Hst; by repeat constructor).
  parse_step ltac:(apply redirs_none, Hst; by repeat constructor).
  by parse_step ltac:(exact E).
Qed.

(** A whole command in parentheses as an operand. *)
Lemma operand_parses c t n : printable c → parses c → stops (codes "<>") t →
  let s := 40 :: show c ++ 41 :: t in
  (4 * length s + 1 < n)%nat → s `suffix_of` buf → ∃ c', parseexec n s = POk c' t ∧ says c' c.
Proof.
  intros Hp Hc Ht s Hn Hs. destruct (block_parses c t n Hp Hc) as (c'&E&Hc'); [|done|done|].
  - destruct Ht as [->|[? _]]; [by left|right]. by rewrite one_of_nil.
  - exists c'. split; [|done]. subst s. rewrite E. by apply parseredirs_none.
Qed.

(** The two operands of an operator. *)
Lemma operands_parse l r k rest n : printable l → printable r → parses l → parses r →
  one_of whitespace k = false → one_of (codes "<>") k = false → follow rest →
  let s := 40 :: show l ++ 41 :: k :: 40 :: show r ++ 41 :: rest in
  (4 * length s + 3 < S (S (S n)))%nat → s `suffix_of` buf →
  ∃ l' r', parseexec (S n) s = POk l' (k :: 40 :: show r ++ 41 :: rest) ∧
    parsepipe (S n) (40 :: show r ++ 41 :: rest) = POk r' rest ∧ says l' l ∧ says r' r.
Proof.
  intros Hpl Hpr Hl Hr Hw Hk Hf s Hn Hs.
  destruct (operand_parses l (k :: 40 :: show r ++ 41 :: rest) (S n) Hpl Hl) as (l'&El&Hl'); [by right|subst s; lia|done|].
  assert ((40 :: show r ++ 41 :: rest) `suffix_of` buf) as Hs2.
  { etrans; [|exact Hs]. exists (40 :: show l ++ [41; k]). cbn. by rewrite <- app_assoc. }
  subst s. rewrite !length_cons, !length_app, !length_cons, !length_app in Hn. cbn [length] in Hn.
  destruct (operand_parses r rest n Hpr Hr) as (r'&Er&Hr');
    [by apply follow_stops|cbn [length]; rewrite length_app; cbn [length]; lia|done|].
  exists l', r'. split_and!; [done| |done..]. apply pipe_tail; [done|by apply follow_stops].
Qed.

Lemma show_parses c : printable c → parses c.
Proof.
  induction c as [argv|c IH file mode fd|l IHl r IHr|l IHl r IHr|c IH]; [apply exec_parses|..].
  - intros (Hp&Hf&op&Hop) n rest Hr Hn Hs. destruct n as [|[|n]]; try lia. cbn [show] in *. rewrite Hop in *. unfold default, id in *.
    rewrite <- app_comm_cons, <- app_assoc, <- app_comm_cons, <- app_assoc in *.
    destruct (block_parses c (op ++ file ++ rest) n Hp (IH Hp)) as (c'&E&Hc'); [|lia|done|].
    { unfold redir_op in Hop. repeat case_match; simplify_eq; by right. }
    destruct (redir_parses mode fd op file rest c' Hop Hf Hr) as (w&E'&Ew).
    { apply suffix_cons_l in Hs. trans (show c ++ 41 :: op ++ file ++ rest); [|done].
      exists (show c ++ [41]). by rewrite <- app_assoc. }
    exists (REDIR c' w mode fd). split; [|unfold says in *; cbn; by rewrite Hc', Ew].
    apply line_tail; [|done]. apply pipe_tail; [by rewrite E|by apply follow_stops].
  - intros [Hpl Hpr] n rest Hr Hn Hs. destruct n as [|[|[|n]]]; try lia. cbn [show] in *.
    rewrite <- app_comm_cons, <- app_assoc, <- !app_comm_cons, <- app_assoc in *. cbn [app] in *.
    destruct (operands_parse l r 124 rest n Hpl Hpr (IHl Hpl) (IHr Hpr)) as (l'&r'&El&Er&Hl'&Hr'); try done.
    exists (PIPE l' r'). split; [|unfold says in *; cbn; by rewrite Hl', Hr']. apply line_tail; [|done].
    change (parsepipe (S (S n))) with (cmd ← parseexec (S n); b ← peek (codes "|");
      if negb b then mret cmd else gettoken;; rest ← parsepipe (S n); mret (pipecmd cmd rest)).
    parse_step ltac:(exact El). parse_step ltac:(by apply peek_yes).
    parse_step ltac:(apply gettoken_symbol; [done|done|by right]). by parse_step ltac:(exact Er).
  - intros [Hpl Hpr] n rest Hr Hn Hs. destruct n as [|[|[|n]]]; try lia. cbn [show] in *.
    rewrite <- app_comm_cons, <- app_assoc, <- !app_comm_cons, <- app_assoc in *. cbn [app] in *.
    destruct (operands_parse l r 59 rest n Hpl Hpr (IHl Hpl) (IHr Hpr)) as (l'&r'&El&Er&Hl'&Hr'); try done.
    exists (LIST l' r'). split; [|unfold says in *; cbn; by rewrite Hl', Hr'].
    change (parseline (S (S (S n)))) with (cmd ← parsepipe (S (S n)); cmd ← measured (λ k, back_loop k cmd);
      b ← peek (codes ";"); if negb b then mret cmd else gettoken;; rest ← parseline (S (S n)); mret (listcmd cmd rest)).
    parse_step ltac:(apply pipe_tail; [exact El|by right]). parse_step ltac:(by apply back_none; right).
    parse_step ltac:(by apply peek_yes). parse_step ltac:(apply gettoken_symbol; [done|done|by right]).
    by parse_step ltac:(by apply line_tail).
  - intros Hp n rest Hr Hn Hs. destruct n as [|[|n]]; try lia. cbn [show] in *.
    rewrite <- app_comm_cons, <- app_assoc in *. cbn [app] in *.
    destruct (operand_parses c (38 :: rest) n Hp (IH Hp)) as (c'&E&Hc'); [by right|lia|done|].
    exists (BACK c'). split; [|unfold says in *; cbn; by rewrite Hc']. cbn [parseline].
    parse_step ltac:(apply pipe_tail; [exact E|by right]).
    assert (measured (λ k, back_loop k c') (38 :: rest) = POk (BACK c') rest) as Eb.
    { unfold measured. cbn [back_loop length]. parse_step ltac:(by apply peek_yes).
      parse_step ltac:(apply gettoken_symbol; [done|done|by apply follow_stops]).
      by parse_step ltac:(by apply peek_no, follow_stops). }
    parse_step ltac:(exact Eb). by parse_step ltac:(by apply peek_no, follow_stops).
Qed.
End RoundTrip.

(** A plain line has no NUL in it. *)
Lemma printable_line c : printable c → line_ok (show c).
Proof.
  assert (∀ w, word_ok w → line_ok w) as Hw.
  { intros w [_ Hw]. eapply Forall_impl; [exact Hw|]. by intros c' [? _]. }
  unfold line_ok in *. induction c as [argv|c IH file mode fd|l IHl r IHr|l IHl r IHr|c IH]; cbn [show printable].
  - intros [Ha _]. destruct Ha as [|w ws H Hws]; [constructor|]. cbn. apply Forall_app. split; [by apply Hw|].
    induction Hws; cbn; [constructor|]. constructor; [done|]. apply Forall_app; auto.
  - intros (Hp&Hf&op&Hop). rewrite Hop. cbn. constructor; [done|]. apply Forall_app; split; [auto|]. constructor; [done|].
    apply Forall_app; split; [|auto]. unfold redir_op in Hop. repeat case_match; simplify_eq; by repeat constructor.
  - intros [??]. repeat rewrite ?Forall_cons, ?Forall_app. rewrite ?Forall_nil. naive_solver.
  - intros [??]. repeat rewrite ?Forall_cons, ?Forall_app. rewrite ?Forall_nil. naive_solver.
  - intros ?. repeat rewrite ?Forall_cons, ?Forall_app. rewrite ?Forall_nil. naive_solver.
Qed.

Lemma cstr_line s tail : line_ok s → cstr (s ++ 0 :: tail) = s.
Proof. induction 1 as [|c s Hc _ IH]; simpl; [done|]. by rewrite (proj2 (Z.eqb_neq c 0) Hc), IH. Qed.

(** C24: What the shell parses is what was written: a command printed as a line,
    parsed into pointers, NUL-terminated in place and read back as C strings is
    the command itself, for every command of the shell's language. *)
Theorem parse_show (c : scmd (list Z)) (tail : list Z) :
  printable c → parsecmd (show c ++ 0 :: tail) = mret c.
Proof.
  intros Hp. pose proof (printable_line c Hp) as Hl. unfold parsecmd. rewrite cstr_line by done.
  destruct (show_parses (show c) c Hp (parse_depth (show c)) []) as (c'&E&Hc'); rewrite ?app_nil_r in *;
    [by left|unfold parse_depth; lia|done|].
  rewrite E. change (skip_ws []) with (@nil Z). rewrite bool_decide_eq_true_2 by done. f_equal.
  rewrite nulterminate_strings; [exact Hc'|done|].
  destruct (parse_ok (show c) Hl (parse_depth (show c))) as [H _].
  specialize (H (show c) ltac:(done)). rewrite E in H. apply H. unfold parse_depth. lia.
Qed.

Lemma parse_show_witness :
  let c := LIST (PIPE (EXEC [codes "ls"; codes "-l"]) (REDIR (EXEC [codes "wc"]) (codes "out") 0x601 1)) (BACK (EXEC [codes "a"])) in
  parsecmd (codes "((ls -l)|((wc)>out));((a)&)" ++ [0]) = mret c.
Proof.
  cbv zeta. apply (parse_show (LIST (PIPE (EXEC [codes "ls"; codes "-l"])
    (REDIR (EXEC [codes "wc"]) (codes "out") 0x601 1)) (BACK (EXEC [codes "a"]))) []).
  repeat split; try (vm_compute; (lia || by eexists)); repeat constructor; done.
Defined.
