(* ===== verification/ShRun.v ===== *)
(** * What the shell runs

    [runcmd] against a description of the plumbing: which commands are started,
    in which order, and what their descriptors stand for. *)

From S2P Require Import Prelude Memory Params CString Uart User Ulib Programs Sh.

(** ** Descriptors *)

Inductive fobj : Type := Tty | OnFile (path : list Z) (mode : Z) | PipeRead (id : nat) | PipeWrite (id : nat).

(** The descriptors of a process, and the number of pipes there are. *)
Record fdstate : Type := mk_fdstate { fd_tbl : list (option fobj); fd_pipes : nat }.

(** The lowest free descriptor. *)
Fixpoint lowest (l : list (option fobj)) : option nat :=
  match l with
  | [] => None
  | None :: _ => Some O
  | Some _ :: l => S <$> lowest l
  end.

Definition fd_alloc (x : fobj) (s : fdstate) : Z * fdstate :=
  match lowest (fd_tbl s) with
  | None => (-1, s)
  | Some k => (Z.of_nat k, mk_fdstate (<[k := Some x]> (fd_tbl s)) (fd_pipes s))
  end.

Definition fd_get (s : fdstate) (fd : Z) : option fobj :=
  if fd <? 0 then None else mjoin (fd_tbl s !! Z.to_nat fd).

Section Running.
Context (can_open : list Z → Z → bool).

(** The calls that the shell makes between [fork] and [exec]. *)
Definition fd_answer (X : Set) (r : sysreq X) : fdstate → X * fdstate :=
  match r with
  | RClose fd => λ s,
      match fd_get s fd with
      | None => (-1, s)
      | Some _ => (0, mk_fdstate (<[Z.to_nat fd := None]> (fd_tbl s)) (fd_pipes s))
      end
  | ROpen path mode => λ s, if can_open path mode then fd_alloc (OnFile path mode) s else (-1, s)
  | RDup fd => λ s, match fd_get s fd with None => (-1, s) | Some x => fd_alloc x s end
  | RPipe => λ s,
      let (r, s1) := fd_alloc (PipeRead (fd_pipes s)) s in
      let (w, s2) := fd_alloc (PipeWrite (fd_pipes s)) s1 in
      if (r <? 0) || (w <? 0) then ((-1, (-1, -1)), s)
      else ((0, (r, w)), mk_fdstate (fd_tbl s2) (S (fd_pipes s)))
  | RWrite _ bytes => λ s, (Z.of_nat (length bytes), s)
  | RWait => λ s, (1, s)
  | RWaitStatus => λ s, ((1, Some 0), s)
  | RRead _ _ => λ s, ((-1, []), s)
  | RFstat _ => λ s, ((-1, mk_ustat 0 0 0 0 0), s)
  | RFork | RKill _ | RExec _ _ | RMknod _ _ _ | RUnlink _ | RLink _ _ | RMkdir _ | RChdir _ | RGetpid | RSbrk _
  | RSleep _ | RLoad _ | RStore _ _ | RRaw _ => λ s, (-1, s)
  end.

(** A child has descriptors of its own; pipes are numbered through.  Of a command
    its descriptors are noted. *)
Definition fd_procs : procs fdstate (command * list (option fobj)) :=
  mk_procs (mk_world _ fd_answer) (λ p c, mk_fdstate (fd_tbl p) (fd_pipes c)) (λ c s, (c, fd_tbl s)).

(** Input, output and error, and nothing else. *)
Definition table (i o e : fobj) : list (option fobj) := [Some i; Some o; Some e] ++ replicate 13 None.

(** ** The plumbing *)

(** The commands that [c] starts with the given input, output and error when
    there are [n] pipes, and the number of pipes after it. *)
Fixpoint plumb (c : scmd (list Z)) (i o e : fobj) (n : nat) : list (command * list (option fobj)) * nat :=
  match c with
  | EXEC [] => ([], n)
  | EXEC (a :: argv) => ([((a, a :: argv), table i o e)], n)
  | REDIR c file mode fd =>
      if can_open file mode then
        if fd =? 0 then plumb c (OnFile file mode) o e n else plumb c i (OnFile file mode) e n
      else ([], n)
  | PIPE lc rc =>
      let (x, n1) := plumb lc i (PipeWrite n) e (S n) in
      let (y, n2) := plumb rc (PipeRead n) o e n1 in
      (x ++ y, n2)
  | LIST lc rc =>
      let (x, n1) := plumb lc i o e n in
      let (y, n2) := plumb rc i o e n1 in
      (x ++ y, n2)
  | BACK c => plumb c i o e n
  end.

(** The redirections of the parser: of the input and of the output. *)
Fixpoint redirs_01 (c : scmd (list Z)) : Prop :=
  match c with
  | EXEC _ => True
  | REDIR c _ _ fd => (fd = 0 ∨ fd = 1) ∧ redirs_01 c
  | PIPE lc rc => redirs_01 lc ∧ redirs_01 rc
  | LIST lc rc => redirs_01 lc ∧ redirs_01 rc
  | BACK c => redirs_01 c
  end.

(** ** Programs that do not return *)

Fixpoint exits {A} (m : uprog A) : Prop :=
  match m with
  | URet _ => False
  | UCall r k => ∀ x, exits (k x)
  | UExit _ | UFuel => True
  end.

Lemma exits_bind_l {A B} (m : uprog A) (f : A → uprog B) : exits m → exits (m ≫= f).
Proof. induction m as [a|X r k IH|n|]; intros H; try done. intros x. apply IH, H. Qed.

Lemma exits_bind_r {A B} (m : uprog A) (f : A → uprog B) : (∀ x, exits (f x)) → exits (m ≫= f).
Proof. intros H. induction m as [a|X r k IH|n|]; try done. apply H. Qed.

Lemma runcmd_exits c : exits (runcmd c).
Proof.
  assert (∀ (m : uprog Z) (f : Z → uprog unit), (∀ x, exits (f x)) → exits (m ≫= f)) as Hz by (intros; by apply exits_bind_r).
  destruct c as [[|a argv]|c file mode fd|lc rc|lc rc|c]; cbn [runcmd]; [done|..];
    repeat (apply exits_bind_r; intros ?); try done.
  destruct (x0 <? 0); apply exits_bind_r; done.
Qed.

Lemma run_tree_exits (m : uprog unit) (k : unit → uprog unit) s : exits m → run_tree fd_procs (m ≫= k) s = run_tree fd_procs m s.
Proof.
  revert s. induction m as [a|X r f IH|n|]; intros s Hm; try done.
  change (UCall r f ≫= k) with (UCall r (λ x, f x ≫= k)). cbn [run_tree].
  destruct r; cbn [run_call]; try (by match goal with |- context [answer ?w ?r s] => destruct (answer w r s) end; apply IH, Hm); [|done].
  rewrite IH by apply Hm. destruct (run_tree _ (f 0) s) as [[? s1] ?]. by rewrite IH by apply Hm.
Qed.

Lemma run_fork1 (k : Z → uprog unit) s a s1 cs b s2 cs' :
  run_tree fd_procs (k 0) s = (a, s1, cs) →
  run_tree fd_procs (k 1) (mk_fdstate (fd_tbl s) (fd_pipes s1)) = (b, s2, cs') →
  run_tree fd_procs (fork1 ≫= k) s = (b, s2, cs ++ cs').
Proof.
  intros E1 E2. unfold fork1. rewrite run_tree_assoc.
  erewrite (run_tree_fork fd_procs (λ pid, (u_when (pid =? -1) (sh_panic (codes "fork"));; mret pid) ≫= k)) by exact E1.
  change (run_tree fd_procs ((u_when (1 =? -1) (sh_panic (codes "fork"));; mret 1) ≫= k) (p_join fd_procs s s1)) with
    (run_tree fd_procs (k 1) (mk_fdstate (fd_tbl s) (fd_pipes s1))). by rewrite E2.
Qed.

(** A command started in a state, with more text behind it that is not reached. *)
Lemma run_last c (k : unit → uprog unit) s r : run_tree fd_procs (runcmd c) s = r → run_tree fd_procs (runcmd c ≫= k) s = r.
Proof. intros <-. apply run_tree_exits, runcmd_exits. Qed.

Definition local_call {X : Set} (r : sysreq X) : bool := match r with RFork | RExec _ _ => false | _ => true end.

Lemma run_ask {X : Set} {A} (r : sysreq X) (f : X → uprog A) s : local_call r = true →
  run_tree fd_procs (call r ≫= f) s = run_tree fd_procs (f (fd_answer X r s).1) (fd_answer X r s).2.
Proof.
  intros Hr. change (call r ≫= f) with (UCall r (λ x, URet x ≫= f)). cbn [run_tree].
  destruct r; try done; cbn [run_call]; change (@answer _ (p_world fd_procs)) with fd_answer;
    match goal with |- context [fd_answer ?X ?r s] => by destruct (fd_answer X r s) end.
Qed.

(** Messages change nothing. *)
Definition silent (m : uprog unit) : Prop :=
  ∀ A (f : unit → uprog A) s, run_tree fd_procs (m ≫= f) s = run_tree fd_procs (f tt) s.

Lemma silent_bind m m' : silent m → silent m' → silent (m;; m').
Proof. intros H H' A f s. by rewrite run_tree_assoc, H, H'. Qed.

Lemma silent_putcs fd l : silent (u_putcs fd l).
Proof. induction l as [|c l IH]; [done|]. by apply silent_bind. Qed.

Lemma silent_printptr n fd x : silent (u_printptr_loop n fd x).
Proof. revert x. induction n as [|n IH]; intros x; [done|]. by apply silent_bind. Qed.

Lemma silent_vprintf fd fmt : ∀ percent ap, silent (vprintf fd fmt percent ap).
Proof.
  induction fmt as [|c fmt IH]; intros percent ap; [done|]. cbn [vprintf].
  repeat case_match; try done; repeat apply silent_bind;
    first [done|apply IH|apply silent_putcs|apply silent_printptr].
Qed.

(** A redirection. *)
Lemma redir_run c file mode fd i o e n : (fd = 0 ∨ fd = 1) →
  (∀ i o e n, ∃ status s, run_tree fd_procs (runcmd c) (mk_fdstate (table i o e) n) = (Exited status, s, (plumb c i o e n).1) ∧
    fd_pipes s = (plumb c i o e n).2) →
  ∃ status s, run_tree fd_procs (runcmd (REDIR c file mode fd)) (mk_fdstate (table i o e) n) =
      (Exited status, s, (plumb (REDIR c file mode fd) i o e n).1) ∧
    fd_pipes s = (plumb (REDIR c file mode fd) i o e n).2.
Proof.
  intros Hfd IH. cbn [runcmd plumb]. unfold u_close, u_open. rewrite !run_ask by done.
  destruct Hfd as [-> | ->]; cbn [fd_answer]; destruct (can_open file mode) eqn:Ho.
  - destruct (IH (OnFile file mode) o e n) as (st&s&E&P). exists st, s. split; [|done]. by apply run_last.
  - eexists 1, _. cbn [fst snd]. change (-1 <? 0) with true. cbn iota. unfold fprintf. rewrite silent_vprintf. done.
  - destruct (IH i (OnFile file mode) e n) as (st&s&E&P). exists st, s. split; [|done]. by apply run_last.
  - eexists 1, _. cbn [fst snd]. change (-1 <? 0) with true. cbn iota. unfold fprintf. rewrite silent_vprintf. done.
Qed.

(** The descriptors after [pipe]. *)
Definition piped (i o e : fobj) (n : nat) : list (option fobj) :=
  [Some i; Some o; Some e; Some (PipeRead n); Some (PipeWrite n)] ++ replicate 11 None.

(** C23: The shell's plumbing: started with an input, an output and an error and
    nothing else open, [runcmd] runs exactly the commands of the tree, from left to
    right; the left side of a pipe writes into the pipe that the right side reads
    from, a redirection replaces the input or the output, a file that cannot be
    opened cancels its command; and no command is left with a descriptor besides
    its three. *)
Theorem runcmd_plumbing c i o e n : redirs_01 c →
  ∃ status s, run_tree fd_procs (runcmd c) (mk_fdstate (table i o e) n) = (Exited status, s, (plumb c i o e n).1) ∧
    fd_pipes s = (plumb c i o e n).2.
Proof.
  revert i o e n. induction c as [[|a argv]|c IH file mode fd|lc IHl rc IHr|lc IHl rc IHr|c IH]; intros i o e n Hc;
    cbn [runcmd plumb redirs_01] in *.
  - by exists 1, (mk_fdstate (table i o e) n).
  - by exists 0, (mk_fdstate (table i o e) n).
  - destruct Hc as [Hfd Hc]. apply redir_run; [done|]. intros. by apply IH.
  - destruct Hc as [Hl Hr]. destruct (IHl i (PipeWrite n) e (S n) Hl) as (st1&s1&E1&P1).
    destruct (plumb lc i (PipeWrite n) e (S n)) as [x n1]. cbn [fst snd] in *.
    destruct (IHr (PipeRead n) o e n1 Hr) as (st2&s2&E2&P2). destruct (plumb rc (PipeRead n) o e n1) as [y n2]. cbn [fst snd] in *.
    exists 0, (mk_fdstate (table i o e) n2). split; [|done].
    unfold u_pipe. rewrite run_ask by done. cbn [fst snd].
    change (fd_answer _ RPipe (mk_fdstate (table i o e) n)) with ((0, (3, 4)), mk_fdstate (piped i o e n) (S n)).
    eapply run_fork1; [by apply run_last|]. rewrite P1.
    rewrite <- (app_nil_r y).
    refine (run_fork1 (λ pid,
      u_when (pid =? 0) (u_close 0;; u_dup 3;; u_close 3;; u_close 4;; runcmd rc);;
      u_close 3;; u_close 4;; u_wait;; u_wait;; u_exit 0)
      (mk_fdstate (piped i o e n) n1) (Exited st2) s2 y _ _ [] _ _).
    + refine (run_last rc (λ _, u_close 3;; u_close 4;; u_wait;; u_wait;; u_exit 0) _ _ E2).
    + by rewrite P2.
  - destruct Hc as [Hl Hr]. destruct (IHl i o e n Hl) as (st1&s1&E1&P1).
    destruct (plumb lc i o e n) as [x n1]. cbn [fst snd] in *.
    destruct (IHr i o e n1 Hr) as (st2&s2&E2&P2). destruct (plumb rc i o e n1) as [y n2]. cbn [fst snd] in *.
    exists st2, s2. split; [|done]. eapply run_fork1; [by apply run_last|].
    rewrite P1. refine (run_last rc (λ _, u_exit 0) _ _ E2).
  - destruct (IH i o e n Hc) as (st1&s1&E1&P1). exists 0, (mk_fdstate (table i o e) (fd_pipes s1)). split; [|done].
    destruct (plumb c i o e n) as [x n1]. cbn [fst snd] in *. rewrite <- (app_nil_r x).
    eapply run_fork1; [by apply run_last|]. done.
Qed.
End Running.

Lemma runcmd_plumbing_witness :
  let c := PIPE (EXEC [codes "ls"]) (REDIR (EXEC [codes "wc"]) (codes "f") 0x601 1) in
  ∃ status s, run_tree (fd_procs (λ _ _, true)) (runcmd c) (mk_fdstate (table Tty Tty Tty) 0) =
    (Exited status, s,
     [((codes "ls", [codes "ls"]), table Tty (PipeWrite 0) Tty);
      ((codes "wc", [codes "wc"]), table (PipeRead 0) (OnFile (codes "f") 0x601) Tty)]) ∧ fd_pipes s = 1%nat.
Proof.
  apply (runcmd_plumbing (λ _ _, true) (PIPE (EXEC [codes "ls"]) (REDIR (EXEC [codes "wc"]) (codes "f") 0x601 1)) Tty Tty Tty 0).
  split; [done|]. split; [by right|done].
Defined.
