(* ===== verification/Mkfs.v ===== *)
(** * The image builder: mkfs/mkfs.c

    mkfs runs on the host and fills an image file, a block at a time.  The state
    is the image and the program's variables; a failed [assert] and [die] end the
    program.  The host is little-endian, as the use of the super block's fields
    without [xint] requires.  The files to put into the image are a function from
    their names to the pieces in which [read] delivers them. *)

From S2P Require Import Prelude Memory Params CString Uart State Block BioSpec Fs.

Definition NINODES : Z := 200.
Definition mk_nbitmap : Z := FSSIZE / (BSIZE * 8) + 1.
Definition ninodeblocks : Z := NINODES / IPB + 1.
Definition mk_nlog : Z := LOGSIZE.

Record mkst : Type := mk_mkst {
  m_img : Z → list Z;       (* the blocks of the image *)
  m_size : Z;               (* how many there are *)
  m_sb : superblock;
  m_freeinode : Z;
  m_freeblock : Z;
}.

Definition mk (A : Type) : Type := mkst → option (A * mkst).
#[global] Instance mk_ret : MRet mk := λ A a s, Some (a, s).
#[global] Instance mk_bind : MBind mk := λ A B f m s, match m s with Some (a, s) => f a s | None => None end.

(** [die], and an [assert] that does not hold. *)
Definition die {A} : mk A := λ _, None.
Definition mk_assert (b : bool) : mk unit := if b then mret tt else die.
Definition mk_get {A} (f : mkst → A) : mk A := λ s, Some (f s, s).

Definition zeroes : list Z := replicate (Z.to_nat BSIZE) 0.

(** The bytes of an integer in intel order, as the integer they are here. *)
Definition xshort (x : Z) : Z := le_dec (le_enc 2 x).
Definition xint (x : Z) : Z := le_dec (le_enc 4 x).

(** [lseek(fsfd, sec * BSIZE, 0)]: the product is a [uint]. *)
Definition sect_at (sec : Z) : Z := u32 (sec * BSIZE) / BSIZE.

Definition wsect (sec : Z) (buf : list Z) : mk unit := λ s,
  Some (tt, mk_mkst (upd (sect_at sec) buf (m_img s)) (Z.max (m_size s) (sect_at sec + 1)) (m_sb s)
              (m_freeinode s) (m_freeblock s)).

(** A read behind the end of the image is short. *)
Definition rsect (sec : Z) : mk (list Z) := λ s,
  if sect_at sec <? m_size s then Some (m_img s (sect_at sec), s) else None.

(** A [struct dinode] in memory; of the fields of [inode] only those on disk
    count. *)
Definition blank (inum : Z) : inode := mk_inode 0 inum 0 (mk_sleeplock false 0) false 0 0 0 0 0 (replicate 13 0).

Definition winode (inum : Z) (ip : inode) : mk unit :=
  sb ← mk_get m_sb;
  let bn := IBLOCK inum sb in
  buf ← rsect bn;
  wsect bn (splice buf (dinode_off inum) (enc_dinode ip)).

Definition rinode (inum : Z) : mk inode :=
  sb ← mk_get m_sb;
  buf ← rsect (IBLOCK inum sb);
  mret (load_dinode buf (dinode_off inum) (blank inum)).

Definition mk_ialloc (type : Z) : mk Z := λ s,
  let inum := m_freeinode s in
  (let din := mk_inode 0 inum 0 (mk_sleeplock false 0) false (xshort type) 0 0 (xshort 1) (xint 0) (replicate 13 0) in
   winode inum din;;
   mret inum) (mk_mkst (m_img s) (m_size s) (m_sb s) (u32 (inum + 1)) (m_freeblock s)).

Definition mk_balloc (used : Z) : mk unit :=
  mk_assert (used <? BSIZE * 8);;
  sb ← mk_get m_sb;
  wsect (sb_bmapstart sb) (fold_left set_bit (seqZ 0 used) zeroes).

(** [freeblock++] *)
Definition take_block : mk Z := λ s,
  Some (m_freeblock s, mk_mkst (m_img s) (m_size s) (m_sb s) (m_freeinode s) (u32 (m_freeblock s + 1))).

(** The block of the file for index [fbn], which is allocated if need be, and the
    inode with it. *)
Definition iappend_block (din : inode) (fbn : Z) : mk (Z * inode) :=
  if fbn <? NDIRECT then
    din ← (if xint (i_addrs din !!! Z.to_nat fbn) =? 0
           then b ← take_block; mret (set_i_addr (Z.to_nat fbn) (xint b) din)
           else mret din);
    mret (xint (i_addrs din !!! Z.to_nat fbn), din)
  else
    din ← (if xint (i_addrs din !!! Z.to_nat NDIRECT) =? 0
           then b ← take_block; mret (set_i_addr (Z.to_nat NDIRECT) (xint b) din)
           else mret din);
    let a := xint (i_addrs din !!! Z.to_nat NDIRECT) in
    let off := (4 * Z.to_nat (fbn - NDIRECT))%nat in
    indirect ← rsect a;
    indirect ← (if get32 indirect off =? 0
                then b ← take_block;
                     let indirect := put32 indirect off (xint b) in
                     wsect a indirect;;
                     mret indirect
                else mret indirect);
    mret (xint (get32 indirect off), din).

(** The loop of [iappend]: [p] is what is left to append. *)
Fixpoint iappend_loop (fuel : nat) (din : inode) (off : Z) (p : list Z) : mk (inode * Z) :=
  match fuel with
  | O => die
  | S fuel =>
      if Z.of_nat (length p) <=? 0 then mret (din, off) else
      let fbn := off / BSIZE in
      mk_assert (fbn <? MAXFILE);;
      r ← iappend_block din fbn;
      let x := r.1 in
      let n1 := Z.min (Z.of_nat (length p)) ((fbn + 1) * BSIZE - off) in
      buf ← rsect x;
      wsect x (splice buf (Z.to_nat (off - fbn * BSIZE)) (take (Z.to_nat n1) p));;
      iappend_loop fuel r.2 (off + n1) (drop (Z.to_nat n1) p)
  end.

Definition iappend (inum : Z) (p : list Z) : mk unit :=
  din ← rinode inum;
  r ← iappend_loop (S (length p)) din (xint (i_size din)) p;
  winode inum (set_i_size (xint r.2) r.1).

(** ** main *)

Definition nmeta : Z := 2 + mk_nlog + ninodeblocks + mk_nbitmap.

Definition mk_super : superblock :=
  mk_sb FSMAGIC (xint FSSIZE) (xint (FSSIZE - nmeta)) (xint NINODES) (xint mk_nlog) (xint 2) (xint (2 + mk_nlog))
    (xint (2 + mk_nlog + ninodeblocks)).

(** The bytes of [struct superblock]. *)
Definition enc_sb (sb : superblock) : list Z :=
  le_enc 4 (sb_magic sb) ++ le_enc 4 (sb_size sb) ++ le_enc 4 (sb_nblocks sb) ++ le_enc 4 (sb_ninodes sb) ++
  le_enc 4 (sb_nlog sb) ++ le_enc 4 (sb_logstart sb) ++ le_enc 4 (sb_inodestart sb) ++ le_enc 4 (sb_bmapstart sb).

(** [bzero(&de, sizeof(de)); de.inum = ...; strncpy(de.name, name, DIRSIZ);] *)
Definition mk_dirent (inum : Z) (name : list Z) : list Z :=
  le_enc 2 (xshort inum) ++ take DIRSIZ (cstr name ++ replicate DIRSIZ 0).

(** The name without [user/] and the leading underscore; [None] when a slash is
    left in it. *)
Definition shortname (arg : list Z) : option (list Z) :=
  let s := if strncmp arg (codes "user/") 5 =? 0 then drop 5 arg else arg in
  if bool_decide (47 ∈ cstr s) then None else Some (if chr s =? 95 then tl s else s).

Fixpoint mk_appends (inum : Z) (chunks : list (list Z)) : mk unit :=
  match chunks with
  | [] => mret tt
  | c :: chunks => iappend inum c;; mk_appends inum chunks
  end.

(** One turn of the loop over the files. *)
Definition mk_file (host : list Z → option (list (list Z))) (rootino : Z) (arg : list Z) : mk unit :=
  match shortname arg with
  | None => die
  | Some name =>
      match host arg with
      | None => die
      | Some chunks =>
          inum ← mk_ialloc T_FILE;
          iappend rootino (mk_dirent inum name);;
          mk_appends inum chunks
      end
  end.

Fixpoint mk_files (host : list Z → option (list (list Z))) (rootino : Z) (args : list (list Z)) : mk unit :=
  match args with
  | [] => mret tt
  | a :: args => mk_file host rootino a;; mk_files host rootino args
  end.

(** [for(i = 0; i < FSSIZE; i++) wsect(i, zeroes);] *)
Fixpoint mk_zero (secs : list Z) : mk unit :=
  match secs with
  | [] => mret tt
  | i :: secs => wsect i zeroes;; mk_zero secs
  end.

(** The image has been opened, and is empty. *)
Definition mk_init : mkst := mk_mkst (λ _, zeroes) 0 mk_super 1 nmeta.

(** The root directory and the files, up to the last touches. *)
Definition mk_build (host : list Z → option (list (list Z))) (args : list (list Z)) : mk unit :=
  mk_zero (seqZ 0 FSSIZE);;
  sb ← mk_get m_sb;
  wsect 1 (splice zeroes 0 (enc_sb sb));;
  rootino ← mk_ialloc T_DIR;
  mk_assert (rootino =? ROOTINO);;
  iappend rootino (mk_dirent rootino [46]);;
  iappend rootino (mk_dirent rootino [46; 46]);;
  mk_files host rootino args.

Definition mkfs_main (host : list Z → option (list (list Z))) (args : list (list Z)) : mk unit :=
  mk_build host args;;
  din ← rinode ROOTINO;
  let off := (xint (i_size din) / BSIZE + 1) * BSIZE in
  winode ROOTINO (set_i_size (xint off) din);;
  used ← mk_get m_freeblock;
  mk_balloc used.
