(* ===== verification/MkfsSpec.v ===== *)
(** * What mkfs puts into an image

    The blocks that mkfs has given out are those a bitmap would show: the proof
    follows the image together with the disk that has this bitmap in it all the
    time, and uses what is known of the files of the kernel's file system. *)

From stdpp Require Import gmap.
From S2P Require Import Prelude Memory Params CString Uart State Sched Block Bio BioSpec LogCommit LogOps Fs Tx FsAlloc FsInode FsFile FsRead FsWrite Mkfs.

Implicit Types (s : mkst) (D : Z → list Z) (ip : inode) (c p : list Z).

(** ** The layout *)

Definition SB : superblock := mk_sb FSMAGIC 1000 954 200 30 2 32 45.
Definition LG : region := mk_region 2 30.

Lemma mk_super_eq : mk_super = SB.
Proof. reflexivity. Qed.

Lemma mk_layout : layout LG SB.
Proof. split; by compute. Qed.

Lemma sect_at_small x : 0 <= x < 1000 → sect_at x = x.
Proof. intros Hx. unfold sect_at, BSIZE. rewrite u32_small by lia. apply Z.div_mul. lia. Qed.

Lemma xint_small x : 0 <= x < 2 ^ 32 → xint x = x.
Proof. apply word_dec. Qed.

Lemma data_block_iff x : data_block SB x ↔ 46 <= x < 1000.
Proof. done. Qed.

Lemma BBLOCK_SB b : 0 <= b < 1000 → BBLOCK b SB = 45 ∧ b mod BPB = b.
Proof.
  intros Hb. unfold BBLOCK, BPB, BSIZE. split; [|apply Z.mod_small; lia].
  rewrite Z.div_small by lia. reflexivity.
Qed.

(** ** The image and its disk *)

(** [D] is the image with the bitmap of the blocks below [freeblock]. *)
Record mkinv s D : Prop := {
  mi_size : m_size s = 1000;
  mi_sb : m_sb s = SB;
  mi_disk : disk_ok LG SB D;
  mi_img : ∀ x, x ≠ 45 → m_img s x = D x;
  mi_fb : 46 <= m_freeblock s <= 1000;
  mi_alloc : ∀ b, 0 <= b < 1000 → allocated SB D b = bool_decide (b < m_freeblock s);
  mi_fresh : ∀ x, m_freeblock s <= x < 1000 → D x = zeros;
}.

Lemma rsect_run s D x : mkinv s D → 0 <= x < 1000 → x ≠ 45 → rsect x s = Some (D x, s).
Proof.
  intros Hi Hx Hne. unfold rsect. rewrite sect_at_small, (mi_size _ _ Hi), (mi_img _ _ Hi) by done.
  by rewrite (proj2 (Z.ltb_lt _ _)) by lia.
Qed.

(** The image after [wsect]. *)
Definition put_img (x : Z) (d : list Z) s : mkst :=
  mk_mkst (upd x d (m_img s)) (m_size s) (m_sb s) (m_freeinode s) (m_freeblock s).

Lemma wsect_run s D x d : mkinv s D → 0 <= x < 1000 → wsect x d s = Some (tt, put_img x d s).
Proof.
  intros Hi Hx. unfold wsect, put_img. rewrite sect_at_small by done. rewrite Z.max_l by (rewrite (mi_size _ _ Hi); lia). done.
Qed.

(** A block that has been given out, or one of the inodes. *)
Lemma put_inv s D x d : mkinv s D → (46 <= x < m_freeblock s ∨ 0 <= x < 45) → length d = Z.to_nat BSIZE →
  mkinv (put_img x d s) (upd x d D).
Proof.
  intros Hi Hx Hl. pose proof (mi_fb _ _ Hi) as Hfb.
  assert (Hal : ∀ b, 0 <= b < 1000 → allocated SB (upd x d D) b = allocated SB D b).
  { intros b Hb. unfold allocated. destruct (BBLOCK_SB b Hb) as [-> _]. by rewrite upd_ne by lia. }
  split; cbn [put_img m_size m_sb m_img m_freeblock]; try apply Hi.
  - split; [apply mk_layout| |].
    + intros y. unfold upd. case_decide; [done|apply (mi_disk _ _ Hi)].
    + intros b Hb. change (data_start SB) with 46 in Hb. rewrite Hal by lia. by apply (mi_disk _ _ Hi).
  - intros y Hne. unfold upd. case_decide; [done|by apply (mi_img _ _ Hi)].
  - intros b Hb. rewrite Hal by done. by apply Hi.
  - intros y Hy. rewrite upd_ne by lia. by apply Hi.
Qed.

(** ** Giving out a block *)

Definition next_block s : mkst :=
  mk_mkst (m_img s) (m_size s) (m_sb s) (m_freeinode s) (m_freeblock s + 1).

Lemma take_block_run s D : mkinv s D → take_block s = Some (m_freeblock s, next_block s).
Proof. intros Hi. pose proof (mi_fb _ _ Hi). unfold take_block, next_block. by rewrite u32_small by lia. Qed.

Lemma next_free s D : mkinv s D → m_freeblock s < 1000 →
  data_block SB (m_freeblock s) ∧ allocated SB D (m_freeblock s) = false.
Proof.
  intros Hi Hlt. pose proof (mi_fb _ _ Hi). split; [apply data_block_iff; lia|].
  rewrite (mi_alloc _ _ Hi) by lia. apply bool_decide_eq_false_2. lia.
Qed.

Lemma next_inv s D : mkinv s D → m_freeblock s < 1000 → mkinv (next_block s) (fresh SB (m_freeblock s) D).
Proof.
  intros Hi Hlt. destruct (next_free s D Hi Hlt) as [Hb Hf]. pose proof (mi_fb _ _ Hi) as Hfb. set (b := m_freeblock s) in *.
  pose proof (mi_disk _ _ Hi) as Hd.
  split; cbn [next_block m_size m_sb m_img m_freeblock]; fold b; try apply Hi; try lia.
  - by apply fresh_disk_ok.
  - intros x Hne. destruct (decide (x = b)) as [->|Hxb].
    + rewrite fresh_same, (mi_img _ _ Hi) by lia. apply (mi_fresh _ _ Hi). fold b. lia.
    + rewrite (mi_img _ _ Hi) by done. symmetry. destruct (decide (x < 45)).
      * by apply (fresh_low Hd Hb).
      * apply (fresh_data Hd Hb); [change (data_start SB) with 46; lia|done].
  - intros x Hx. rewrite (fresh_allocated Hd Hb) by done. rewrite (mi_alloc _ _ Hi) by done. fold b.
    repeat case_bool_decide; cbn; done || lia.
  - intros x Hx. rewrite (fresh_data Hd Hb); [|change (data_start SB) with 46; lia|lia]. apply (mi_fresh _ _ Hi). fold b. lia.
Qed.

(** ** The block for an index *)

Definition one_if (b : bool) : Z := if b then 1 else 0.

Lemma slot_max : is_slot MAXFILE.
Proof. unfold is_slot. pose proof maxfile_direct. unfold NDIRECT in *. lia. Qed.

(** The state after the block for index [k] has been looked up or given out; [n]
    blocks were taken. *)
Record got s D ip (k n : Z) s' D' ip' : Prop := {
  go_inv : mkinv s' D';
  go_file : file_ok SB D' ip';
  go_grow : fgrow SB D ip D' ip';
  go_slot : slot D' ip' k ≠ 0;
  go_only : ∀ j, 0 <= j < MAXFILE → j ≠ k → slot D' ip' j = slot D ip j;
  go_ind : ind ip' = 0 ↔ ind ip = 0 ∧ k < NDIRECT;
  go_freeinode : m_freeinode s' = m_freeinode s;
  go_freeblock : m_freeblock s' = m_freeblock s + n;
}.

Section blocks.
Context {s D ip} (Hi : mkinv s D) (Hf : file_ok SB D ip).

Lemma slot_range k : is_slot k → slot D ip k = 0 ∨ 46 <= slot D ip k < m_freeblock s ∧ slot D ip k < 1000.
Proof.
  intros Hk. destruct (decide (slot D ip k = 0)) as [|Hne]; [by left|right].
  destruct (fo_block _ _ _ Hf k Hk Hne) as [Hb Ha]. pose proof (proj1 (data_block_iff _) Hb).
  rewrite (mi_alloc _ _ Hi) in Ha by lia. apply bool_decide_eq_true_1 in Ha. lia.
Qed.

Lemma slot_word k : is_slot k → xint (slot D ip k) = slot D ip k.
Proof. intros Hk. apply xint_small. destruct (slot_range k Hk); lia. Qed.

Lemma got_same k : slot D ip k ≠ 0 → (NDIRECT <= k → ind ip ≠ 0) → got s D ip k 0 s D ip.
Proof. intros Hs Hn. split; try done; [apply fgrow_refl| |lia]. split; [|tauto]. intros E. split; [done|]. lia. Qed.

Lemma got_next k ip' D' s' : installs SB D ip D' ip' k (m_freeblock s) → (NDIRECT <= k < MAXFILE → ind ip ≠ 0) → mkinv s' D' →
  m_freeinode s' = m_freeinode s → m_freeblock s' = m_freeblock s + 1 → got s D ip k 1 s' D' ip'.
Proof.
  intros Hin Hn Hinv' Hfi Hfb. destruct (installs_grow LG SB D ip D' ip' k _ mk_layout Hf Hin) as [Hf' Hg].
  split; try done.
  - rewrite (is_slots _ _ _ _ _ _ _ Hin) by apply Hin. rewrite decide_True by done. pose proof (mi_fb _ _ Hi). lia.
  - intros j Hj Hne. rewrite (is_slots _ _ _ _ _ _ _ Hin) by (unfold is_slot; lia). by rewrite decide_False.
  - pose proof (is_slots _ _ _ _ _ _ _ Hin MAXFILE slot_max) as E. rewrite !slot_ind in E. rewrite E.
    pose proof maxfile_direct. pose proof (is_k _ _ _ _ _ _ _ Hin) as Hk. unfold is_slot in Hk. pose proof (mi_fb _ _ Hi). case_decide; lia.
Qed.
End blocks.

(** A file's direct block. *)
Lemma block_direct s D ip k : mkinv s D → file_ok SB D ip → 0 <= k < NDIRECT →
  m_freeblock s + one_if (slot D ip k =? 0) <= 1000 →
  ∃ s' D' ip', iappend_block ip k s = Some ((slot D' ip' k, ip'), s') ∧ got s D ip k (one_if (slot D ip k =? 0)) s' D' ip'.
Proof.
  intros Hi Hf Hk Hroom. assert (Hs : is_slot k) by (unfold is_slot; pose proof maxfile_direct; lia).
  pose proof (slot_word Hi Hf k Hs) as Hw. rewrite slot_direct in * by lia.
  unfold iappend_block. rewrite (proj2 (Z.ltb_lt _ _)) by lia. rewrite Hw.
  destruct (Z.eqb_spec (i_addrs ip !!! Z.to_nat k) 0) as [E|Hne]; unfold one_if in *.
  - destruct (next_free s D Hi) as [Hb Hfree]; [lia|]. pose proof (mi_fb _ _ Hi).
    exists (next_block s), (fresh SB (m_freeblock s) D), (set_i_addr (Z.to_nat k) (m_freeblock s) ip). split.
    + unfold mbind, mk_bind. rewrite (take_block_run s D Hi). cbn [mret mk_ret]. rewrite slot_direct, (xint_small (m_freeblock s)) by lia.
      simpl. rewrite list_lookup_total_insert_eq by (rewrite (fo_addrs _ _ _ Hf); unfold NDIRECT in *; lia).
      by rewrite xint_small by lia.
    + apply (got_next Hi Hf); [|lia|apply next_inv; [done|lia]|done|done].
      apply (install_direct (mi_disk _ _ Hi) Hf Hb Hfree); [done|]. rewrite slot_direct by lia. done.
  - exists s, D, ip. split; [rewrite slot_direct by lia; unfold mbind, mk_bind, mret, mk_ret; by rewrite Hw|].
    apply got_same; [done|done| |lia]. rewrite slot_direct by lia. done.
Qed.

Lemma mk_step {A B} (m : mk A) (f : A → mk B) s a s' : m s = Some (a, s') → (m ≫= f) s = f a s'.
Proof. intros E. unfold mbind, mk_bind. by rewrite E. Qed.

(** The indirect block. *)
Lemma block_ind s D ip : mkinv s D → file_ok SB D ip → m_freeblock s + one_if (ind ip =? 0) <= 1000 →
  ∃ s' D' ip', (if xint (i_addrs ip !!! Z.to_nat NDIRECT) =? 0
                then b ← take_block; mret (set_i_addr (Z.to_nat NDIRECT) (xint b) ip)
                else mret ip) s = Some (ip', s') ∧ got s D ip MAXFILE (one_if (ind ip =? 0)) s' D' ip'.
Proof.
  intros Hi Hf Hroom. pose proof (slot_word Hi Hf MAXFILE slot_max) as Hw. rewrite slot_ind in Hw. fold (ind ip). rewrite Hw.
  pose proof maxfile_direct. destruct (Z.eqb_spec (ind ip) 0) as [E|Hne]; unfold one_if in *.
  - destruct (next_free s D Hi) as [Hb Hfree]; [lia|]. pose proof (mi_fb _ _ Hi).
    exists (next_block s), (fresh SB (m_freeblock s) D), (set_i_addr (Z.to_nat NDIRECT) (m_freeblock s) ip). split.
    + erewrite mk_step by by apply (take_block_run s D). by rewrite (xint_small (m_freeblock s)) by lia.
    + apply (got_next Hi Hf); [|lia|apply next_inv; [done|lia]|done|done].
      by apply (install_ind (mi_disk _ _ Hi) Hf Hb Hfree).
  - exists s, D, ip. split; [done|]. by apply got_same.
Qed.

(** The entry in the indirect block. *)
Lemma block_entry s D ip k : mkinv s D → file_ok SB D ip → NDIRECT <= k < MAXFILE → ind ip ≠ 0 →
  m_freeblock s + one_if (slot D ip k =? 0) <= 1000 →
  let off := (4 * Z.to_nat (k - NDIRECT))%nat in
  ∃ s' D' d, (indirect ← rsect (ind ip);
              (if get32 indirect off =? 0
               then b ← take_block; let indirect := put32 indirect off (xint b) in wsect (ind ip) indirect;; mret indirect
               else mret indirect)) s = Some (d, s') ∧
    get32 d off = slot D' ip k ∧ got s D ip k (one_if (slot D ip k =? 0)) s' D' ip.
Proof.
  intros Hi Hf Hk Hne Hroom off. pose proof (slot_range Hi Hf MAXFILE slot_max) as [|[Hr _]]; [by rewrite slot_ind in *|].
  rewrite slot_ind in Hr. pose proof (mi_fb _ _ Hi). pose proof (mi_disk _ _ Hi) as Hd.
  erewrite mk_step by (apply (rsect_run s D); [done|lia|lia]).
  assert (Es : slot D ip k = get32 (D (ind ip)) off).
  { rewrite slot_indirect by done. by rewrite (proj2 (Z.eqb_neq _ _) Hne). }
  rewrite <- Es. destruct (Z.eqb_spec (slot D ip k) 0) as [E|Hs]; unfold one_if in *.
  - destruct (next_free s D Hi) as [Hb Hfree]; [lia|].
    set (D1 := upd (ind ip) (put32 (D (ind ip)) off (m_freeblock s)) (fresh SB (m_freeblock s) D)).
    assert (Hle : (off + 4 <= length (D (ind ip)))%nat) by (rewrite (dk_len _ _ _ Hd); by apply ind_off_lt).
    assert (Hinv : mkinv (put_img (ind ip) (put32 (D (ind ip)) off (m_freeblock s)) (next_block s)) D1).
    { apply put_inv; [apply next_inv; [done|lia]|left; cbn; lia|].
      unfold put32. rewrite length_splice by (rewrite length_le_enc; lia). apply Hd. }
    assert (Hgot : got s D ip k 1 (put_img (ind ip) (put32 (D (ind ip)) off (m_freeblock s)) (next_block s)) D1 ip).
    { apply (got_next Hi Hf); [|done|done|done|done]. by apply (install_entry Hd Hf Hb Hfree). }
    eexists _, D1, _. split; [|split; [|exact Hgot]].
    + erewrite mk_step by by apply (take_block_run s D). cbv zeta. rewrite (xint_small (m_freeblock s)) by lia.
      erewrite mk_step by (apply (wsect_run _ (fresh SB (m_freeblock s) D)); [apply next_inv; [done|lia]|lia]). done.
    + rewrite slot_indirect by done. rewrite (proj2 (Z.eqb_neq _ _) Hne). unfold D1. by rewrite upd_eq.
  - exists s, D, (D (ind ip)). split; [done|]. split; [done|]. by apply got_same.
Qed.

(** What the block for index [k] costs. *)
Definition cost D ip (k : Z) : Z := one_if (slot D ip k =? 0) + (if k <? NDIRECT then 0 else one_if (ind ip =? 0)).

Lemma block_run s D ip k : mkinv s D → file_ok SB D ip → 0 <= k < MAXFILE → m_freeblock s + cost D ip k <= 1000 →
  ∃ s' D' ip', iappend_block ip k s = Some ((slot D' ip' k, ip'), s') ∧ got s D ip k (cost D ip k) s' D' ip'.
Proof.
  intros Hi Hf Hk Hroom. unfold cost in *. destruct (Z.ltb_spec k NDIRECT) as [Hlt|Hge].
  { rewrite Z.add_0_r in *. apply block_direct; done || lia. }
  unfold iappend_block. rewrite (proj2 (Z.ltb_ge _ _)) by lia.
  assert (0 <= one_if (slot D ip k =? 0)) by (unfold one_if; case_match; lia).
  destruct (block_ind s D ip Hi Hf) as (s1&D1&ip1&Hr1&G1); [lia|]. pose proof maxfile_direct.
  assert (Es : slot D1 ip1 k = slot D ip k) by (apply (go_only _ _ _ _ _ _ _ _ G1); lia).
  assert (Hne : ind ip1 ≠ 0) by (rewrite <- (slot_ind D1); apply (go_slot _ _ _ _ _ _ _ _ G1)).
  pose proof (go_inv _ _ _ _ _ _ _ _ G1) as Hi1. pose proof (go_file _ _ _ _ _ _ _ _ G1) as Hf1.
  destruct (block_entry s1 D1 ip1 k Hi1 Hf1) as (s2&D2&d&Hr2&Ed&G2); [lia|done| |].
  { rewrite Es, (go_freeblock _ _ _ _ _ _ _ _ G1). lia. }
  pose proof (go_inv _ _ _ _ _ _ _ _ G2) as Hi2. pose proof (go_file _ _ _ _ _ _ _ _ G2) as Hf2.
  exists s2, D2, ip1. split.
  - erewrite mk_step by exact Hr1. cbv zeta.
    pose proof (slot_word Hi1 Hf1 MAXFILE slot_max) as Hw. rewrite slot_ind in Hw. fold (ind ip1). rewrite Hw.
    unfold mbind, mk_bind in Hr2 |- *. destruct (rsect (ind ip1) s1) as [[d0 s0]|]; [|done].
    match goal with H : ?x = Some _ |- context [match ?y with _ => _ end] => change y with x; rewrite H end.
    cbn [mret mk_ret]. rewrite Ed, (slot_word Hi2 Hf2); [done|]. unfold is_slot. lia.
  - rewrite <- Es. split; try done.
    + eapply fgrow_trans; [exact mk_layout|apply G1|apply G2].
    + exact (go_slot _ _ _ _ _ _ _ _ G2).
    + intros j Hj Hjk. rewrite (go_only _ _ _ _ _ _ _ _ G2) by done. apply (go_only _ _ _ _ _ _ _ _ G1); lia.
    + split; [done|lia].
    + rewrite (go_freeinode _ _ _ _ _ _ _ _ G2). exact (go_freeinode _ _ _ _ _ _ _ _ G1).
    + rewrite (go_freeblock _ _ _ _ _ _ _ _ G2), (go_freeblock _ _ _ _ _ _ _ _ G1). lia.
Qed.

(** ** Appending *)

(** The blocks a file of [n] bytes has: its data and, behind the direct ones, the
    indirect block. *)
Definition blocks_of (n : Z) : Z := (n + BSIZE - 1) / BSIZE + one_if (NDIRECT * BSIZE <? n).

(** The file [ip] holds the bytes [c], with zeros behind them, and has the
    blocks for them and no others. *)
Record holds D ip c : Prop := {
  ho_file : file_ok SB D ip;
  ho_max : Z.of_nat (length c) <= MAXFILE * BSIZE;
  ho_bytes : ∀ o, 0 <= o < MAXFILE * BSIZE → fbyte D ip o = if decide (o < Z.of_nat (length c)) then c !!! Z.to_nat o else 0;
  ho_dense : ∀ k, 0 <= k < MAXFILE → (slot D ip k = 0 ↔ Z.of_nat (length c) <= k * BSIZE);
  ho_ind : ind ip = 0 ↔ Z.of_nat (length c) <= NDIRECT * BSIZE;
}.

(** A piece that ends in the block it starts in. *)
Lemma holds_cost D ip c (m : Z) : holds D ip c → 0 < m → let n := Z.of_nat (length c) in
  m <= BSIZE - n mod BSIZE → n / BSIZE < MAXFILE → cost D ip (n / BSIZE) = blocks_of (n + m) - blocks_of n.
Proof.
  intros Hh Hm n Hlt Hk. pose proof BSIZE_pos. assert (Hn : 0 <= n) by (unfold n; lia).
  pose proof (Z.div_mod n BSIZE ltac:(lia)) as Hdm. pose proof (Z.mod_pos_bound n BSIZE ltac:(lia)) as Hmb.
  pose proof (Z.div_pos n BSIZE ltac:(lia) ltac:(lia)) as Hq. set (q := n / BSIZE) in *. set (r := n mod BSIZE) in *.
  assert (E2 : (n + m + BSIZE - 1) / BSIZE = q + 1).
  { symmetry. apply (Z.div_unique _ _ _ (r + m - 1)); lia. }
  assert (E1 : (n + BSIZE - 1) / BSIZE = if r =? 0 then q else q + 1).
  { destruct (Z.eqb_spec r 0); symmetry; [apply (Z.div_unique _ _ _ (BSIZE - 1))|apply (Z.div_unique _ _ _ (r - 1))]; lia. }
  unfold cost, blocks_of. rewrite E1, E2.
  assert (Es : (slot D ip q =? 0) = (r =? 0)).
  { pose proof (ho_dense _ _ _ Hh q ltac:(lia)) as Hd. fold n in Hd.
    destruct (Z.eqb_spec (slot D ip q) 0), (Z.eqb_spec r 0); try done; lia. }
  assert (Ei : (ind ip =? 0) = (n <=? NDIRECT * BSIZE)).
  { pose proof (ho_ind _ _ _ Hh) as Hd. fold n in Hd.
    destruct (Z.eqb_spec (ind ip) 0), (Z.leb_spec n (NDIRECT * BSIZE)); try done; lia. }
  rewrite Es, Ei. unfold one_if. unfold NDIRECT, BSIZE in *.
  destruct (r =? 0), (Z.ltb_spec q 12), (Z.leb_spec n (12 * 1024)), (Z.ltb_spec (12 * 1024) n), (Z.ltb_spec (12 * 1024) (n + m)); lia.
Qed.

(** A file that got more, the disk changing only for it. *)
Record appended s D ip c p s' D' ip' : Prop := {
  ap_inv : mkinv s' D';
  ap_holds : holds D' ip' (c ++ p);
  ap_keep : fkeep SB D ip D' ip';
  ap_freeinode : m_freeinode s' = m_freeinode s;
  ap_freeblock : m_freeblock s' = m_freeblock s + (blocks_of (Z.of_nat (length (c ++ p))) - blocks_of (Z.of_nat (length c)));
}.

(** A piece that was put into the block of its index. *)
Lemma holds_put s D ip c p s1 D1 ip1 : let n := Z.of_nat (length c) in let k := n / BSIZE in
  mkinv s D → holds D ip c → p ≠ [] → Z.of_nat (length p) <= BSIZE - n mod BSIZE → k < MAXFILE →
  got s D ip k (cost D ip k) s1 D1 ip1 →
  let x := slot D1 ip1 k in
  let d := splice (D1 x) (Z.to_nat (n mod BSIZE)) p in
  appended s D ip c p (put_img x d s1) (upd x d D1) ip1.
Proof.
  intros n k Hi Hh Hp Hlen Hk G x d. pose proof BSIZE_pos. assert (Hn : 0 <= n) by (unfold n; lia).
  pose proof (Z.div_mod n BSIZE ltac:(lia)) as Hdm. pose proof (Z.mod_pos_bound n BSIZE ltac:(lia)) as Hmb.
  pose proof (Z.div_pos n BSIZE ltac:(lia) ltac:(lia)) as Hq. fold k in Hdm, Hq.
  assert (Hlp : 0 < Z.of_nat (length p)) by (destruct p; [done|cbn; lia]).
  pose proof (go_inv _ _ _ _ _ _ _ _ G) as Hi1. pose proof (go_file _ _ _ _ _ _ _ _ G) as Hf1.
  pose proof (go_slot _ _ _ _ _ _ _ _ G) as Hs1. pose proof (mi_disk _ _ Hi1) as Hd1.
  assert (Hk' : 0 <= k < MAXFILE) by lia. assert (Hxk : is_slot k) by (unfold is_slot; lia).
  destruct (slot_range Hi1 Hf1 k Hxk) as [|[Hx _]]; [done|].
  assert (Hld : length d = Z.to_nat BSIZE) by (unfold d; rewrite length_splice; rewrite (dk_len _ _ _ Hd1); lia).
  assert (Hsl : ∀ j, slot (upd x d D1) ip1 j = slot D1 ip1 j) by (intros j; apply (put_slot Hf1 Hk' Hs1)).
  split.
  - apply put_inv; [done|by left|done].
  - pose proof (put_wrote LG SB D1 ip1 n p Hd1 Hf1 Hn Hk Hs1 Hlen) as Hw. cbv zeta in Hw. fold k x d in Hw.
    eapply fgrow_wrote in Hw; [|apply G]. split.
    + by apply (put_file_ok Hd1 Hf1 Hk' Hs1).
    + rewrite length_app. fold n. unfold MAXFILE, NINDIRECT, NDIRECT in *. nia.
    + intros o Ho. rewrite (Hw o Ho), (ho_bytes _ _ _ Hh) by done. rewrite length_app. fold n.
      rewrite !list_lookup_total_alt. repeat case_decide; try lia; try done.
      * rewrite lookup_app_r by lia. do 2 f_equal. lia.
      * rewrite lookup_app_l by lia. done.
    + intros j Hj. rewrite Hsl, length_app. fold n. destruct (decide (j = k)) as [->|Hne]; [split; [done|nia]|].
      rewrite (go_only _ _ _ _ _ _ _ _ G), (ho_dense _ _ _ Hh) by done. fold n. nia.
    + rewrite (go_ind _ _ _ _ _ _ _ _ G), (ho_ind _ _ _ Hh), length_app. fold n. unfold NDIRECT in *. nia.
  - eapply fkeep_trans; [exact mk_layout|apply G|]. apply (put_keep Hd1 Hf1 Hk' Hs1).
  - exact (go_freeinode _ _ _ _ _ _ _ _ G).
  - cbn [put_img m_freeblock]. rewrite (go_freeblock _ _ _ _ _ _ _ _ G), length_app. fold n.
    pose proof (holds_cost D ip c (Z.of_nat (length p)) Hh Hlp Hlen Hk) as E. fold n k in E. rewrite E, Nat2Z.inj_add. done.
Qed.

Lemma blocks_of_mono n m : 0 <= n <= m → blocks_of n <= blocks_of m.
Proof.
  intros Hn. unfold blocks_of, one_if. assert ((n + BSIZE - 1) / BSIZE <= (m + BSIZE - 1) / BSIZE) by
    (apply Z.div_le_mono; [apply BSIZE_pos|lia]).
  destruct (Z.ltb_spec (NDIRECT * BSIZE) n), (Z.ltb_spec (NDIRECT * BSIZE) m); lia.
Qed.

Lemma appended_nil s D ip c : mkinv s D → holds D ip c → appended s D ip c [] s D ip.
Proof. intros Hi Hh. split; rewrite ?app_nil_r; try done; [apply fkeep_refl|lia]. Qed.

Lemma appended_app s D ip c p q s1 D1 ip1 s2 D2 ip2 :
  appended s D ip c p s1 D1 ip1 → appended s1 D1 ip1 (c ++ p) q s2 D2 ip2 → appended s D ip c (p ++ q) s2 D2 ip2.
Proof.
  intros H1 H2. split.
  - exact (ap_inv _ _ _ _ _ _ _ _ H2).
  - rewrite app_assoc. apply H2.
  - eapply fkeep_trans; [exact mk_layout|apply H1|apply H2].
  - rewrite (ap_freeinode _ _ _ _ _ _ _ _ H2). exact (ap_freeinode _ _ _ _ _ _ _ _ H1).
  - rewrite (ap_freeblock _ _ _ _ _ _ _ _ H2), (ap_freeblock _ _ _ _ _ _ _ _ H1), app_assoc. lia.
Qed.

(** The loop of [iappend] when there is room. *)
Lemma iappend_loop_run fuel : ∀ s D ip c p, mkinv s D → holds D ip c → (length p < fuel)%nat →
  Z.of_nat (length (c ++ p)) <= MAXFILE * BSIZE →
  m_freeblock s + (blocks_of (Z.of_nat (length (c ++ p))) - blocks_of (Z.of_nat (length c))) <= 1000 →
  ∃ s' D' ip', iappend_loop fuel ip (Z.of_nat (length c)) p s = Some ((ip', Z.of_nat (length (c ++ p))), s') ∧
    appended s D ip c p s' D' ip'.
Proof.
  induction fuel as [|fuel IH]; intros s D ip c p Hi Hh Hfuel Hmax Hroom; [lia|]. cbn [iappend_loop].
  destruct (decide (p = [])) as [->|Hp].
  { rewrite app_nil_r. exists s, D, ip. split; [done|by apply appended_nil]. }
  assert (Hlp : 0 < Z.of_nat (length p)) by (destruct p; [done|cbn; lia]).
  rewrite (proj2 (Z.leb_gt _ _)) by lia. set (n := Z.of_nat (length c)). rewrite length_app, Nat2Z.inj_add in *. fold n in Hmax, Hroom.
  pose proof BSIZE_pos. assert (Hn : 0 <= n) by (unfold n; lia).
  pose proof (Z.div_mod n BSIZE ltac:(lia)) as Hdm. pose proof (Z.mod_pos_bound n BSIZE ltac:(lia)) as Hmb.
  assert (Hk : 0 <= n / BSIZE < MAXFILE) by (split; [apply Z.div_pos; lia|apply Z.div_lt_upper_bound; lia]).
  replace ((n / BSIZE + 1) * BSIZE - n) with (BSIZE - n mod BSIZE) by lia.
  replace (n - n / BSIZE * BSIZE) with (n mod BSIZE) by lia.
  set (m := Z.min (Z.of_nat (length p)) (BSIZE - n mod BSIZE)). set (q := take (Z.to_nat m) p).
  assert (Hq : Z.of_nat (length q) = m) by (unfold q; rewrite length_take; unfold m; lia).
  pose proof (holds_cost D ip c m Hh) as Hcost. fold n in Hcost. cbv zeta in Hcost.
  destruct (block_run s D ip (n / BSIZE) Hi (ho_file _ _ _ Hh)) as (s1&D1&ip1&Hr1&G); [done| |].
  { rewrite Hcost by (unfold m; lia). pose proof (blocks_of_mono (n + m) (n + Z.of_nat (length p))). unfold m in *; lia. }
  pose proof (holds_put s D ip c q s1 D1 ip1) as Hput. fold n in Hput. cbv zeta in Hput.
  specialize (Hput Hi Hh). set (x := slot D1 ip1 (n / BSIZE)) in *. set (d := splice (D1 x) (Z.to_nat (n mod BSIZE)) q) in *.
  assert (Ha : appended s D ip c q (put_img x d s1) (upd x d D1) ip1).
  { apply Hput; [|rewrite Hq; unfold m; lia|lia|done]. intros E. rewrite E in Hq. cbn in Hq. unfold m in Hq. lia. }
  destruct (slot_range (go_inv _ _ _ _ _ _ _ _ G) (go_file _ _ _ _ _ _ _ _ G) (n / BSIZE)) as [E|[Hx Hx']];
    [unfold is_slot; lia|by destruct (go_slot _ _ _ _ _ _ _ _ G)|]. fold x in Hx, Hx'.
  assert (Hlc : n + m = Z.of_nat (length (c ++ q))) by (rewrite length_app; unfold n; lia).
  assert (Hpq : p = q ++ drop (Z.to_nat m) p) by (unfold q; by rewrite take_drop).
  destruct (IH (put_img x d s1) (upd x d D1) ip1 (c ++ q) (drop (Z.to_nat m) p)) as (s3&D3&ip3&Hr3&H3); try apply Ha.
  - rewrite length_drop. unfold m. lia.
  - rewrite <- app_assoc, <- Hpq, length_app, Nat2Z.inj_add. done.
  - rewrite <- app_assoc, <- Hpq, (ap_freeblock _ _ _ _ _ _ _ _ Ha), (length_app c p), Nat2Z.inj_add. fold n. lia.
  - exists s3, D3, ip3. split; [|rewrite Hpq; by eapply appended_app].
    erewrite mk_step by (by unfold mk_assert; rewrite (proj2 (Z.ltb_lt _ _)) by lia).
    erewrite mk_step by exact Hr1. cbn [fst snd]. fold x.
    erewrite mk_step by (apply (rsect_run s1 D1); [apply G|lia|lia]).
    erewrite mk_step by (apply (wsect_run s1 D1); [apply G|lia]). fold d. rewrite Hlc, Hr3.
    by rewrite <- app_assoc, <- Hpq, length_app, Nat2Z.inj_add.
Qed.

(** ** The files of an image *)

(** A file keeps its contents where the disk and its block map agree. *)
Lemma slot_same D D' ip ip' : i_addrs ip' = i_addrs ip → (ind ip ≠ 0 → D' (ind ip) = D (ind ip)) →
  ∀ k, slot D' ip' k = slot D ip k.
Proof. intros Ea E k. unfold slot, ind in *. rewrite Ea. destruct (Z.eqb_spec (i_addrs ip !!! Z.to_nat NDIRECT) 0); [done|]. by rewrite E. Qed.

Lemma holds_ext D D' ip ip' c : i_addrs ip' = i_addrs ip →
  (∀ k, is_slot k → slot D ip k ≠ 0 → D' (slot D ip k) = D (slot D ip k)) →
  (∀ k, is_slot k → slot D ip k ≠ 0 → allocated SB D (slot D ip k) = true → allocated SB D' (slot D ip k) = true) →
  holds D ip c → holds D' ip' c ∧ ∀ k, slot D' ip' k = slot D ip k.
Proof.
  intros Ea HD Hal Hh.
  assert (Hs : ∀ k, slot D' ip' k = slot D ip k).
  { apply slot_same; [done|]. rewrite <- (slot_ind D). by apply HD, slot_max. }
  split; [|done]. split.
  - destruct (ho_file _ _ _ Hh) as [H1 H2 H3]. split; [by rewrite Ea| |].
    + intros k Hk. rewrite Hs. intros Hne. destruct (H2 k Hk Hne) as [Hb Ha]. split; [done|]. by apply Hal.
    + intros k k' Hk Hk'. rewrite !Hs. by apply H3.
  - apply Hh.
  - intros o Ho. rewrite <- (ho_bytes _ _ _ Hh o Ho). unfold fbyte. f_equal. unfold fblk. rewrite Hs.
    assert (is_slot (o / BSIZE)).
    { pose proof BSIZE_pos. unfold is_slot. split; [apply Z.div_pos; lia|]. apply Z.lt_le_incl, Z.div_lt_upper_bound; lia. }
    destruct (Z.eqb_spec (slot D ip (o / BSIZE)) 0); [done|by apply HD].
  - intros k Hk. rewrite Hs. by apply Hh.
  - unfold ind. rewrite Ea. apply Hh.
Qed.

(** Two files that share no block. *)
Definition apart D ip ip' : Prop := ∀ k k', is_slot k → is_slot k' → slot D ip k = slot D ip' k' → slot D ip k = 0.

Lemma apart_sym D ip ip' : apart D ip ip' → apart D ip' ip.
Proof. intros H k k' Hk Hk' E. rewrite E. apply (H k' k); done. Qed.

(** The other files when [ip] changes. *)
Lemma holds_other D ip D' ip' ipj cj : fkeep SB D ip D' ip' → apart D ipj ip → holds D ipj cj →
  holds D' ipj cj ∧ (∀ k, slot D' ipj k = slot D ipj k) ∧ apart D' ipj ip'.
Proof.
  intros Hk Hap Hh. destruct (ho_file _ _ _ Hh) as [_ Hb _].
  destruct (holds_ext D D' ipj ipj cj) as [Hh' Hs]; [done| | |done|].
  - intros k Hsk Hne. destruct (Hb k Hsk Hne) as [Hdb Ha]. apply (fk_other _ _ _ _ _ Hk); [done|done|].
    intros k' Hk' E. apply Hne, (Hap k k'); done.
  - intros k Hsk Hne Ha. destruct (Hb k Hsk Hne) as [Hdb _]. apply (fk_alloc _ _ _ _ _ Hk); [|done].
    pose proof (proj1 (data_block_iff _) Hdb). cbn. lia.
  - split_and!; [done|done|]. intros k k' Hsk Hsk'. rewrite Hs. intros E.
    destruct (decide (slot D ipj k = 0)) as [|Hne]; [done|]. exfalso. destruct (Hb k Hsk Hne) as [_ Ha].
    destruct (decide (slot D' ip' k' = slot D ip k')) as [E'|Hne'].
    + apply Hne, (Hap k k'); [done|done|congruence].
    + destruct (fk_new _ _ _ _ _ Hk k' Hsk' Hne') as [_ Hf]. congruence.
Qed.

(** The inode [inum] of the disk. *)
Definition dino D (inum : Z) : inode := disk_inode SB D inum (blank inum).

(** The blocks of some files, each a type and its contents. *)
Definition vol_blocks (v : list (Z * list Z)) : Z := foldr (λ f a, blocks_of (Z.of_nat (length f.2)) + a) 0 v.

(** The inode of a file with [n] bytes. *)
Definition is_inode (ip : inode) (t n : Z) : Prop := i_type ip = t ∧ i_nlink ip = 1 ∧ i_size ip = n ∧ inode_wf ip.

(** The image holds the files [v], in the inodes 1, 2, ... *)
Record volume s D (v : list (Z * list Z)) : Prop := {
  vo_inv : mkinv s D;
  vo_super : D 1 = splice zeroes 0 (enc_sb SB);
  vo_freeinode : m_freeinode s = Z.of_nat (length v) + 1;
  vo_count : Z.of_nat (length v) < 200;
  vo_blocks : m_freeblock s = 46 + vol_blocks v;
  vo_holds : ∀ i f, v !! i = Some f → holds D (dino D (Z.of_nat i + 1)) f.2 ∧
    is_inode (dino D (Z.of_nat i + 1)) f.1 (Z.of_nat (length f.2));
  vo_apart : ∀ i j, (i < length v)%nat → (j < length v)%nat → i ≠ j →
    apart D (dino D (Z.of_nat i + 1)) (dino D (Z.of_nat j + 1));
}.

Lemma vol_blocks_cons f v : vol_blocks (f :: v) = blocks_of (Z.of_nat (length f.2)) + vol_blocks v.
Proof. done. Qed.

Lemma vol_blocks_insert v i f g : v !! i = Some f →
  vol_blocks (<[i := g]> v) = vol_blocks v - blocks_of (Z.of_nat (length f.2)) + blocks_of (Z.of_nat (length g.2)).
Proof.
  revert i. induction v as [|h v IH]; intros [|i] Hi; try done.
  - injection Hi as ->. change (<[0%nat:=g]> (f :: v)) with (g :: v). rewrite !vol_blocks_cons. lia.
  - change (<[S i:=g]> (h :: v)) with (h :: <[i:=g]> v). rewrite !vol_blocks_cons, (IH i Hi). lia.
Qed.

Lemma vol_blocks_snoc v f : vol_blocks (v ++ [f]) = vol_blocks v + blocks_of (Z.of_nat (length f.2)).
Proof.
  induction v as [|h v IH]; [cbn [app]; rewrite vol_blocks_cons; unfold vol_blocks; cbn [foldr]; lia|].
  cbn [app]. rewrite !vol_blocks_cons, IH. lia.
Qed.

(** ** Reading and writing inodes *)

Lemma IBLOCK_SB inum : 0 <= inum < 200 → 32 <= IBLOCK inum SB < 45.
Proof. intros Hi. by destruct (IBLOCK_eq mk_layout inum Hi). Qed.

Lemma rinode_run s D inum : mkinv s D → 0 <= inum < 200 → rinode inum s = Some (dino D inum, s).
Proof.
  intros Hi Hn. pose proof (IBLOCK_SB inum Hn). unfold rinode. erewrite mk_step by done. rewrite (mi_sb _ _ Hi).
  by erewrite mk_step by (apply (rsect_run s D); [done|lia|lia]).
Qed.

Lemma winode_run s D ip : mkinv s D → 0 <= i_inum ip < 200 → inode_wf ip →
  ∃ s', winode (i_inum ip) ip s = Some (tt, s') ∧ mkinv s' (iupdated SB D ip) ∧
    m_freeinode s' = m_freeinode s ∧ m_freeblock s' = m_freeblock s.
Proof.
  intros Hi Hn Hw. pose proof (IBLOCK_SB _ Hn) as Hib. pose proof (mi_disk _ _ Hi) as Hd.
  exists (put_img (IBLOCK (i_inum ip) SB) (splice (D (IBLOCK (i_inum ip) SB)) (dinode_off (i_inum ip)) (enc_dinode ip)) s).
  split_and!; [|apply put_inv; [done|right; lia|]|done|done].
  - unfold winode. erewrite mk_step by done. rewrite (mi_sb _ _ Hi).
    erewrite mk_step by (apply (rsect_run s D); [done|lia|lia]). apply (wsect_run s D); [done|lia].
  - rewrite length_splice; [apply Hd|]. rewrite (dk_len _ _ _ Hd), length_enc_dinode by done. apply dinode_off_range. lia.
Qed.

Lemma dino_same D ip : disk_ok LG SB D → inode_wf ip → 0 <= i_inum ip →
  dino (iupdated SB D ip) (i_inum ip) = with_disk (blank (i_inum ip)) ip.
Proof. intros Hd Hw Hn. by apply (iupdated_same Hd). Qed.

Lemma dino_other D ip inum : disk_ok LG SB D → inode_wf ip → 0 <= i_inum ip < 200 → 0 <= inum < 200 → inum ≠ i_inum ip →
  dino (iupdated SB D ip) inum = dino D inum.
Proof. intros Hd Hw Hn Hi Hne. by apply (iupdated_other Hd). Qed.

Lemma dino_low D D' inum : (∀ x, x < 45 → D' x = D x) → 0 <= inum < 200 → dino D' inum = dino D inum.
Proof. intros E Hi. unfold dino, disk_inode. rewrite E; [done|]. pose proof (IBLOCK_SB inum Hi). lia. Qed.

(** Writing an inode changes no file's blocks. *)
Lemma iupdated_high D ip x : 0 <= i_inum ip < 200 → 45 <= x → iupdated SB D ip x = D x.
Proof. intros Hn Hx. apply upd_ne. pose proof (IBLOCK_SB _ Hn). lia. Qed.

Lemma holds_iupdated D ip ipj ipj' c : disk_ok LG SB D → 0 <= i_inum ip < 200 → i_addrs ipj' = i_addrs ipj →
  holds D ipj c → holds (iupdated SB D ip) ipj' c ∧ ∀ k, slot (iupdated SB D ip) ipj' k = slot D ipj k.
Proof.
  intros Hd Hn Ea Hh. destruct (ho_file _ _ _ Hh) as [_ Hb _]. apply holds_ext; [done| | |done].
  - intros k Hk Hne. destruct (Hb k Hk Hne) as [Hdb _]. pose proof (proj1 (data_block_iff _) Hdb). apply iupdated_high; lia.
  - intros k Hk Hne Ha. destruct (Hb k Hk Hne) as [Hdb _]. pose proof (proj1 (data_block_iff _) Hdb).
    rewrite (iupdated_allocated Hd); [done|done|cbn; lia].
Qed.

(** The addresses of a file fit in their words. *)
Lemma addrs_word s D ip : mkinv s D → file_ok SB D ip → Forall word (i_addrs ip).
Proof.
  intros Hi Hf. apply Forall_lookup. intros k v Hk. pose proof (lookup_lt_Some _ _ _ Hk) as Hlt. rewrite (fo_addrs _ _ _ Hf) in Hlt.
  assert (∃ j, is_slot j ∧ slot D ip j = v) as (j&Hj&<-).
  { destruct (decide (k = 12)%nat) as [->|Hne].
    - exists MAXFILE. split; [apply slot_max|]. rewrite slot_ind. unfold ind. by apply list_lookup_total_correct.
    - exists (Z.of_nat k). pose proof maxfile_direct. unfold NDIRECT, is_slot in *. split; [lia|].
      rewrite slot_direct by (unfold NDIRECT; lia). rewrite Nat2Z.id. by apply list_lookup_total_correct. }
  unfold word. destruct (slot_range Hi Hf j Hj); lia.
Qed.

Lemma is_inode_disk D ip t n : disk_ok LG SB D → 0 <= i_inum ip < 200 → is_inode ip t n →
  is_inode (dino (iupdated SB D ip) (i_inum ip)) t n ∧ i_addrs (dino (iupdated SB D ip) (i_inum ip)) = i_addrs ip.
Proof.
  intros Hd Hn (Ht&Hl&Hs&Hw). rewrite dino_same by (done || lia). split; [|done].
  split_and!; [done..|]. destruct Hw. by split.
Qed.

(** ** Changing a file *)

(** File [i] was changed to hold [c'], in memory, and its inode is written. *)
Lemma volume_update s D v i t c c' D1 ip1 ip2 s2 : volume s D v → v !! i = Some (t, c) → disk_ok LG SB D1 →
  holds D1 ip1 c' → fkeep SB D (dino D (Z.of_nat i + 1)) D1 ip1 →
  i_inum ip2 = Z.of_nat i + 1 → i_addrs ip2 = i_addrs ip1 → is_inode ip2 t (Z.of_nat (length c')) →
  mkinv s2 (iupdated SB D1 ip2) → m_freeinode s2 = m_freeinode s →
  m_freeblock s2 = m_freeblock s + (blocks_of (Z.of_nat (length c')) - blocks_of (Z.of_nat (length c))) →
  volume s2 (iupdated SB D1 ip2) (<[i := (t, c')]> v).
Proof.
  intros Hv Hi Hd1 Hh1 Hk1 Hin Ead Hino Hi2 Efi Efb. pose proof (lookup_lt_Some _ _ _ Hi) as Hlt.
  pose proof (vo_count _ _ _ Hv) as Hcnt. set (D2 := iupdated SB D1 ip2) in *.
  assert (Hr : 0 <= i_inum ip2 < 200) by lia.
  destruct (is_inode_disk D1 ip2 t (Z.of_nat (length c')) Hd1 Hr Hino) as [Hino2 Ead2]. fold D2 in Hino2, Ead2. rewrite Hin in Hino2, Ead2.
  destruct (holds_iupdated D1 ip2 ip1 (dino D2 (Z.of_nat i + 1)) c' Hd1 Hr) as [Hhi Hsi]; [congruence|done|]. fold D2 in Hhi, Hsi.
  assert (Hdj : ∀ j, (j < length v)%nat → j ≠ i → dino D2 (Z.of_nat j + 1) = dino D (Z.of_nat j + 1)).
  { intros j Hj Hne. unfold D2. rewrite dino_other; [|done|apply Hino|lia|lia|lia]. apply dino_low; [|lia].
    intros x Hx. by apply (fk_low _ _ _ _ _ Hk1). }
  assert (Hoj : ∀ j f, v !! j = Some f → j ≠ i → holds D2 (dino D (Z.of_nat j + 1)) f.2 ∧
    (∀ k, slot D2 (dino D (Z.of_nat j + 1)) k = slot D (dino D (Z.of_nat j + 1)) k) ∧ apart D1 (dino D (Z.of_nat j + 1)) ip1).
  { intros j f Hj Hne. pose proof (lookup_lt_Some _ _ _ Hj). destruct (vo_holds _ _ _ Hv j f Hj) as [Hh _].
    destruct (holds_other D _ D1 ip1 _ _ Hk1 (vo_apart _ _ _ Hv j i ltac:(done) ltac:(done) Hne) Hh) as (Hh'&Hs'&Hap').
    destruct (holds_iupdated D1 ip2 _ (dino D (Z.of_nat j + 1)) f.2 Hd1 Hr eq_refl Hh') as [Hh'' Hs'']. fold D2 in Hh'', Hs''.
    split_and!; [done| |done]. intros k. by rewrite Hs'', Hs'. }
  split; try done.
  - rewrite <- (vo_super _ _ _ Hv), <- (fk_low _ _ _ _ _ Hk1) by (cbn; lia). apply upd_ne. pose proof (IBLOCK_SB _ Hr). lia.
  - rewrite length_insert, Efi. apply Hv.
  - by rewrite length_insert.
  - rewrite Efb, (vo_blocks _ _ _ Hv), (vol_blocks_insert _ _ (t, c)) by done. cbn [snd]. lia.
  - intros j f Hj. destruct (decide (j = i)) as [->|Hne].
    + rewrite list_lookup_insert_eq in Hj by done. injection Hj as <-. done.
    + rewrite list_lookup_insert_ne in Hj by done. pose proof (lookup_lt_Some _ _ _ Hj).
      rewrite Hdj by done. split; [by apply Hoj|]. by apply (vo_holds _ _ _ Hv).
  - rewrite length_insert. intros j j' Hj Hj' Hne.
    assert (Hside : ∀ m, (m < length v)%nat → m ≠ i → apart D2 (dino D2 (Z.of_nat m + 1)) (dino D2 (Z.of_nat i + 1))).
    { intros m Hm Hmi. destruct (lookup_lt_is_Some_2 v m Hm) as [f Hf]. destruct (Hoj m f Hf Hmi) as (_&Hs&Hap).
      rewrite (Hdj m) by done. intros k k' Hk Hk'. rewrite Hsi. intros E.
      destruct (vo_holds _ _ _ Hv m f Hf) as [Hh _].
      destruct (holds_other D _ D1 ip1 _ _ Hk1 (vo_apart _ _ _ Hv m i Hm Hlt Hmi) Hh) as (_&Hs'&_).
      rewrite Hs, <- Hs' in E |- *. by apply (Hap k k'). }
    destruct (decide (j = i)) as [->|Hji]; [apply apart_sym, Hside; done|].
    destruct (decide (j' = i)) as [->|Hji']; [by apply Hside|].
    destruct (lookup_lt_is_Some_2 v j Hj) as [f Hf], (lookup_lt_is_Some_2 v j' Hj') as [f' Hf'].
    destruct (Hoj j f Hf Hji) as (_&Hs&_), (Hoj j' f' Hf' Hji') as (_&Hs'&_). rewrite !Hdj by done.
    intros k k' Hk Hk'. rewrite Hs, Hs'. by apply (vo_apart _ _ _ Hv).
Qed.

(** ** iappend *)

Lemma volume_iappend s D v i t c p : volume s D v → v !! i = Some (t, c) →
  Z.of_nat (length (c ++ p)) <= MAXFILE * BSIZE → 46 + vol_blocks (<[i := (t, c ++ p)]> v) <= 1000 →
  ∃ s' D', iappend (Z.of_nat i + 1) p s = Some (tt, s') ∧ volume s' D' (<[i := (t, c ++ p)]> v).
Proof.
  intros Hv Hi Hmax Hroom. pose proof (vo_inv _ _ _ Hv) as Hinv. pose proof (vo_count _ _ _ Hv) as Hcnt.
  pose proof (lookup_lt_Some _ _ _ Hi) as Hlt. set (inum := Z.of_nat i + 1).
  destruct (vo_holds _ _ _ Hv i (t, c) Hi) as [Hh (Ht&Hnl&Hsz&Hwf)]. fold inum in Hh, Ht, Hnl, Hsz, Hwf. cbn [fst snd] in *.
  rewrite (vol_blocks_insert _ _ (t, c)) in Hroom by done. cbn [snd] in Hroom.
  destruct (iappend_loop_run (S (length p)) s D (dino D inum) c p Hinv Hh) as (s1&D1&ip1&Hr1&Ha); [lia|done| |].
  { rewrite (vo_blocks _ _ _ Hv). lia. }
  pose proof (ap_inv _ _ _ _ _ _ _ _ Ha) as Hi1. pose proof (ap_holds _ _ _ _ _ _ _ _ Ha) as Hh1.
  pose proof (ap_keep _ _ _ _ _ _ _ _ Ha) as Hk1. pose proof (mi_disk _ _ Hi1) as Hd1.
  pose proof (fk_ip _ _ _ _ _ Hk1) as Eip.
  assert (Hw4 : Z.of_nat (length (c ++ p)) < 2 ^ 32).
  { assert (MAXFILE * BSIZE < 2 ^ 32) by by compute. lia. }
  set (ip2 := set_i_size (Z.of_nat (length (c ++ p))) ip1).
  assert (Hwf2 : inode_wf ip2).
  { destruct Hwf as [? ? ? ? ? ? ?]. unfold ip2. rewrite Eip. split; try done; [split; cbn; lia|apply Hh1|].
    cbn. eapply addrs_word; [exact Hi1|apply Hh1]. }
  assert (Hin2 : i_inum ip2 = inum) by (unfold ip2; by rewrite Eip).
  destruct (winode_run s1 D1 ip2 Hi1) as (s2&Hr2&Hi2&Efi2&Efb2); [rewrite Hin2; unfold inum; lia|done|].
  exists s2, (iupdated SB D1 ip2). split.
  - unfold iappend. erewrite mk_step by (apply (rinode_run s D); [done|unfold inum; lia]).
    rewrite Hsz, xint_small by (pose proof (iw_size _ Hwf) as Hz; unfold word in Hz; lia).
    erewrite mk_step by exact Hr1. cbn [fst snd]. rewrite xint_small by lia. fold ip2. fold inum. by rewrite Hin2 in Hr2.
  - eapply (volume_update s D v i t c (c ++ p) D1 ip1 ip2); try done.
    + split_and!; try done; unfold ip2; by rewrite Eip.
    + rewrite Efi2. exact (ap_freeinode _ _ _ _ _ _ _ _ Ha).
    + rewrite Efb2. exact (ap_freeblock _ _ _ _ _ _ _ _ Ha).
Qed.

(** ** ialloc *)

Lemma slot_empty D ip : i_addrs ip = replicate 13 0 → ∀ k, is_slot k → slot D ip k = 0.
Proof.
  intros Ea k Hk. assert (Hl : ∀ j, (j < 13)%nat → i_addrs ip !!! j = 0).
  { intros j Hj. rewrite Ea. apply list_lookup_total_correct. by apply lookup_replicate_2. }
  assert (ind ip = 0) as E by (apply Hl; unfold NDIRECT; lia). unfold slot. rewrite E.
  destruct (Z.ltb_spec k NDIRECT); [apply Hl; unfold is_slot, NDIRECT in *; lia|]. by destruct (k =? MAXFILE).
Qed.

Lemma holds_empty D ip : i_addrs ip = replicate 13 0 → holds D ip [].
Proof.
  intros Ea. pose proof (slot_empty D ip Ea) as Hs. pose proof BSIZE_pos. split.
  - split; [by rewrite Ea| |]; intros k **; by rewrite Hs in *.
  - cbn. by compute.
  - intros o Ho. rewrite decide_False by (cbn; lia). unfold fbyte, fblk.
    rewrite Hs by (unfold is_slot; split; [apply Z.div_pos; lia|apply Z.lt_le_incl, Z.div_lt_upper_bound; lia]). cbn [Z.eqb].
    pose proof (Z.mod_pos_bound o BSIZE ltac:(lia)). apply list_lookup_total_correct, lookup_replicate_2. lia.
  - intros k Hk. split; [intros _; cbn; lia|]. intros _. apply Hs. unfold is_slot. lia.
  - split; [intros _; by compute|]. intros _. rewrite <- (slot_ind D). apply Hs, slot_max.
Qed.

Lemma volume_ialloc s D v t : volume s D v → 0 <= t < 2 ^ 15 → Z.of_nat (length v) + 1 < 200 →
  ∃ s' D', mk_ialloc t s = Some (Z.of_nat (length v) + 1, s') ∧ volume s' D' (v ++ [(t, [])]).
Proof.
  intros Hv Ht Hcnt. pose proof (vo_inv _ _ _ Hv) as Hinv. pose proof (mi_disk _ _ Hinv) as Hd.
  set (inum := Z.of_nat (length v) + 1).
  set (ip := mk_inode 0 inum 0 (mk_sleeplock false 0) false t 0 0 1 0 (replicate 13 0)).
  assert (Hino : is_inode ip t 0).
  { split_and!; try done. split; try done; try (split; cbn; lia). cbn. by repeat constructor. }
  set (s1 := mk_mkst (m_img s) (m_size s) (m_sb s) (inum + 1) (m_freeblock s)).
  assert (Hi1 : mkinv s1 D) by (destruct Hinv; by split).
  destruct (winode_run s1 D ip Hi1) as (s2&Hr2&Hi2&Efi2&Efb2); [cbn; unfold inum; lia|apply Hino|].
  exists s2, (iupdated SB D ip). split.
  { unfold mk_ialloc. rewrite (vo_freeinode _ _ _ Hv), u32_small by lia. fold inum. fold s1.
    replace (xshort t) with t by (unfold xshort; rewrite le_dec_enc; change (256 ^ Z.of_nat 2) with (2 ^ 16); rewrite Z.mod_small; lia).
    change (xshort 1) with 1. change (xint 0) with 0. fold ip. by erewrite mk_step by exact Hr2. }
  assert (Hr : 0 <= i_inum ip < 200) by (cbn; unfold inum; lia).
  destruct (is_inode_disk D ip t 0 Hd Hr Hino) as [Hino2 Ead2]. cbn [i_inum ip] in Hino2, Ead2.
  assert (Hdj : ∀ j, (j < length v)%nat → dino (iupdated SB D ip) (Z.of_nat j + 1) = dino D (Z.of_nat j + 1)).
  { intros j Hj. apply dino_other; [done|apply Hino|done|lia|cbn; unfold inum; lia]. }
  assert (Hsj : ∀ j f, v !! j = Some f → holds (iupdated SB D ip) (dino D (Z.of_nat j + 1)) f.2 ∧
    ∀ k, slot (iupdated SB D ip) (dino D (Z.of_nat j + 1)) k = slot D (dino D (Z.of_nat j + 1)) k).
  { intros j f Hj. apply holds_iupdated; [done|done|done|]. by apply (vo_holds _ _ _ Hv). }
  assert (Hnew : ∀ k, is_slot k → slot (iupdated SB D ip) (dino (iupdated SB D ip) inum) k = 0) by (by apply slot_empty).
  split; try done.
  - rewrite <- (vo_super _ _ _ Hv). apply upd_ne. pose proof (IBLOCK_SB _ Hr). lia.
  - rewrite Efi2, length_app. cbn. lia.
  - rewrite length_app. cbn. lia.
  - rewrite Efb2, vol_blocks_snoc. cbn [snd length Z.of_nat]. change (blocks_of 0) with 0. rewrite Z.add_0_r. apply Hv.
  - intros j f Hj. apply lookup_snoc_Some in Hj as [[Hlt Hj]|[-> <-]].
    + rewrite Hdj by done. split; [by apply Hsj|by apply (vo_holds _ _ _ Hv)].
    + split; [by apply holds_empty|done].
  - rewrite length_app. cbn [length]. intros j j' Hj Hj' Hne.
    assert (Hside : ∀ m, (m < length v)%nat → apart (iupdated SB D ip) (dino (iupdated SB D ip) (Z.of_nat m + 1)) (dino (iupdated SB D ip) inum)).
    { intros m Hm k k' Hk Hk'. by rewrite (Hnew k'). }
    destruct (decide (j = length v)) as [->|Hjl]; [apply apart_sym, Hside; lia|].
    destruct (decide (j' = length v)) as [->|Hjl']; [apply Hside; lia|].
    destruct (lookup_lt_is_Some_2 v j ltac:(lia)) as [f Hf], (lookup_lt_is_Some_2 v j' ltac:(lia)) as [f' Hf'].
    rewrite !Hdj by lia. intros k k' Hk Hk'. rewrite (proj2 (Hsj j f Hf)), (proj2 (Hsj j' f' Hf')). apply (vo_apart _ _ _ Hv); done || lia.
Qed.

(** ** The files *)

Lemma blocks_of_nonneg n : 0 <= n → 0 <= blocks_of n.
Proof. intros Hn. change 0 with (blocks_of 0). apply blocks_of_mono. lia. Qed.

Lemma vol_blocks_app v v' : vol_blocks (v ++ v') = vol_blocks v + vol_blocks v'.
Proof. induction v as [|f v IH]; [done|]. cbn [app]. rewrite !vol_blocks_cons, IH. lia. Qed.

Lemma vol_blocks_nonneg v : 0 <= vol_blocks v.
Proof. induction v as [|f v IH]; [done|]. rewrite vol_blocks_cons. pose proof (blocks_of_nonneg (Z.of_nat (length f.2))). lia. Qed.

(** Room for more is room for less. *)
Lemma vol_blocks_mono t r x v v' : vol_blocks ((t, r) :: v) <= vol_blocks ((t, r ++ x) :: v ++ v').
Proof.
  rewrite !vol_blocks_cons, vol_blocks_app. pose proof (vol_blocks_nonneg v'). cbn [snd].
  pose proof (blocks_of_mono (Z.of_nat (length r)) (Z.of_nat (length (r ++ x)))). rewrite length_app in *. lia.
Qed.

Lemma volume_appends s D v i t c chunks : volume s D v → v !! i = Some (t, c) →
  Z.of_nat (length (c ++ concat chunks)) <= MAXFILE * BSIZE → 46 + vol_blocks (<[i := (t, c ++ concat chunks)]> v) <= 1000 →
  ∃ s' D', mk_appends (Z.of_nat i + 1) chunks s = Some (tt, s') ∧ volume s' D' (<[i := (t, c ++ concat chunks)]> v).
Proof.
  revert s D v c. induction chunks as [|p chunks IH]; intros s D v c Hv Hi Hmax Hroom; cbn [concat mk_appends] in *.
  - exists s, D. split; [done|]. rewrite app_nil_r, list_insert_id by done. done.
  - pose proof (lookup_lt_Some _ _ _ Hi) as Hlt. rewrite app_assoc in *.
    rewrite (vol_blocks_insert _ _ _ _ Hi) in Hroom. cbn [snd] in Hroom.
    assert (Hle : Z.of_nat (length (c ++ p)) <= Z.of_nat (length ((c ++ p) ++ concat chunks))) by (rewrite (length_app (c ++ p)); lia).
    pose proof (blocks_of_mono _ _ (conj (Nat2Z.is_nonneg (length (c ++ p))) Hle)).
    destruct (volume_iappend s D v i t c p Hv Hi) as (s1&D1&Hr1&Hv1); [lia|rewrite (vol_blocks_insert _ _ _ _ Hi); cbn [snd]; lia|].
    destruct (IH s1 D1 (<[i:=(t, c ++ p)]> v) (c ++ p) Hv1) as (s2&D2&Hr2&Hv2).
    + by apply list_lookup_insert_eq.
    + done.
    + rewrite list_insert_insert_eq, (vol_blocks_insert _ _ _ _ Hi). cbn [snd]. lia.
    + exists s2, D2. split; [by erewrite mk_step by exact Hr1|]. by rewrite list_insert_insert_eq in Hv2.
Qed.

Lemma length_mk_dirent inum name : length (mk_dirent inum name) = 16%nat.
Proof. unfold mk_dirent. rewrite length_app, length_le_enc, length_take, length_app, length_replicate. unfold DIRSIZ. lia. Qed.

(** The entries of the root directory for [names], from inode [inum] on. *)
Fixpoint dirents (inum : Z) (names : list (list Z)) : list Z :=
  match names with
  | [] => []
  | n :: names => mk_dirent inum n ++ dirents (inum + 1) names
  end.

Lemma length_dirents inum names : length (dirents inum names) = (16 * length names)%nat.
Proof. revert inum. induction names as [|n names IH]; intros inum; cbn [dirents length]; [done|]. rewrite length_app, length_mk_dirent, IH. lia. Qed.

(** An argument with the name it gets and the contents it has. *)
Definition provides (host : list Z → option (list (list Z))) (arg : list Z) (f : list Z * list Z) : Prop :=
  shortname arg = Some f.1 ∧ ∃ chunks, host arg = Some chunks ∧ concat chunks = f.2.

Lemma volume_file s D r fl host arg name c : volume s D ((T_DIR, r) :: fl) → provides host arg (name, c) →
  Z.of_nat (length fl) + 2 < 200 → Z.of_nat (length c) <= MAXFILE * BSIZE → Z.of_nat (length r) + 16 <= MAXFILE * BSIZE →
  let inum := Z.of_nat (length fl) + 2 in
  let v' := (T_DIR, r ++ mk_dirent inum name) :: fl ++ [(T_FILE, c)] in
  46 + vol_blocks v' <= 1000 →
  ∃ s' D', mk_file host ROOTINO arg s = Some (tt, s') ∧ volume s' D' v'.
Proof.
  intros Hv [Hn (chunks&Hc&Ec)] Hcnt Hmax Hr inum v' Hroom. cbn [fst snd] in *. unfold mk_file. rewrite Hn, Hc. subst c.
  destruct (volume_ialloc s D _ T_FILE Hv) as (s1&D1&Hr1&Hv1); [by compute|cbn [length]; lia|].
  replace (Z.of_nat (length ((T_DIR, r) :: fl)) + 1) with inum in Hr1 by (cbn [length]; unfold inum; lia).
  assert (Hb : vol_blocks v' = vol_blocks ((T_DIR, r ++ mk_dirent inum name) :: fl) + blocks_of (Z.of_nat (length (concat chunks)))).
  { unfold v'. rewrite !vol_blocks_cons, vol_blocks_snoc. cbn [snd]. lia. }
  pose proof (blocks_of_nonneg (Z.of_nat (length (concat chunks)))).
  destruct (volume_iappend s1 D1 _ 0 T_DIR r (mk_dirent inum name) Hv1) as (s2&D2&Hr2&Hv2); [done| | |].
  { rewrite length_app, length_mk_dirent. lia. }
  { change (<[0%nat:=_]> (((T_DIR, r) :: fl) ++ [(T_FILE, [])])) with ((T_DIR, r ++ mk_dirent inum name) :: fl ++ [(T_FILE, [])]).
    rewrite !vol_blocks_cons, vol_blocks_snoc in *. cbn [snd] in *. change (blocks_of (Z.of_nat (length []))) with 0. lia. }
  change (<[0%nat:=_]> (((T_DIR, r) :: fl) ++ [(T_FILE, [])])) with ((T_DIR, r ++ mk_dirent inum name) :: fl ++ [(T_FILE, [])]) in Hv2.
  set (i := S (length fl)).
  assert (Eins : <[i := (T_FILE, [] ++ concat chunks)]> ((T_DIR, r ++ mk_dirent inum name) :: fl ++ [(T_FILE, [])]) = v').
  { unfold i, v'. cbn [app].
    change ((T_DIR, r ++ mk_dirent inum name) :: <[length fl := (T_FILE, concat chunks)]> (fl ++ [(T_FILE, [])]) =
      (T_DIR, r ++ mk_dirent inum name) :: fl ++ [(T_FILE, concat chunks)]). f_equal. rewrite insert_app_r_alt by lia. by rewrite Nat.sub_diag. }
  destruct (volume_appends s2 D2 _ i T_FILE [] chunks Hv2) as (s3&D3&Hr3&Hv3).
  - change ((fl ++ [(T_FILE, [])]) !! length fl = Some (T_FILE, [])). by rewrite lookup_app_r, Nat.sub_diag by lia.
  - done.
  - rewrite Eins. done.
  - rewrite Eins in Hv3. exists s3, D3. split; [|done]. erewrite mk_step by exact Hr1.
    erewrite mk_step by exact Hr2. replace inum with (Z.of_nat i + 1) by (unfold i, inum; lia). exact Hr3.
Qed.

Lemma volume_files host args fs : Forall2 (provides host) args fs → ∀ s D r fl,
  volume s D ((T_DIR, r) :: fl) →
  Z.of_nat (length fl) + Z.of_nat (length fs) + 1 < 200 → Forall (λ f, Z.of_nat (length f.2) <= MAXFILE * BSIZE) fs →
  Z.of_nat (length r) + 16 * Z.of_nat (length fs) <= MAXFILE * BSIZE →
  let v' := (T_DIR, r ++ dirents (Z.of_nat (length fl) + 2) (map fst fs)) :: fl ++ map (λ f, (T_FILE, f.2)) fs in
  46 + vol_blocks v' <= 1000 →
  ∃ s' D', mk_files host ROOTINO args s = Some (tt, s') ∧ volume s' D' v'.
Proof.
  induction 1 as [|a [n c] args fs Ha _ IH]; intros s D r fl Hv Hcnt Hmax Hr v' Hroom; subst v'; cbn [mk_files map dirents length fst snd] in *.
  { rewrite !app_nil_r in *. by exists s, D. }
  apply Forall_cons in Hmax as [Hc Hmax]. cbn [snd] in Hc. set (inum := Z.of_nat (length fl) + 2) in *.
  rewrite app_assoc, (cons_middle (T_FILE, c)), app_assoc in Hroom.
  destruct (volume_file s D r fl host a n c Hv Ha) as (s1&D1&Hr1&Hv1); [lia|done|lia| |].
  { pose proof (vol_blocks_mono T_DIR (r ++ mk_dirent inum n) (dirents (inum + 1) (map fst fs)) (fl ++ [(T_FILE, c)])
      (map (λ f, (T_FILE, f.2)) fs)). fold inum. lia. }
  fold inum in Hv1. destruct (IH s1 D1 _ _ Hv1) as (s2&D2&Hr2&Hv2).
  - rewrite length_app. cbn [length]. lia.
  - done.
  - rewrite length_app, length_mk_dirent. lia.
  - rewrite length_app. cbn [length]. replace (Z.of_nat (length fl + 1) + 2) with (inum + 1) by (unfold inum; lia). done.
  - rewrite length_app in Hv2. cbn [length] in Hv2. replace (Z.of_nat (length fl + 1) + 2) with (inum + 1) in Hv2 by (unfold inum; lia).
    exists s2, D2. split; [by erewrite mk_step by exact Hr1|].
    rewrite app_assoc, (cons_middle (T_FILE, c)), app_assoc. done.
Qed.

(** ** The bitmap *)

Definition bitmap (used : Z) : list Z := fold_left set_bit (seqZ 0 used) zeroes.

Lemma bitmap_spec (n : nat) : Z.of_nat n <= 8192 →
  length (bitmap (Z.of_nat n)) = Z.to_nat BSIZE ∧ ∀ b, 0 <= b < 8192 → bit_set (bitmap (Z.of_nat n)) b = bool_decide (b < Z.of_nat n).
Proof.
  induction n as [|n IH]; intros Hn.
  - split; [done|]. intros b Hb. rewrite (bool_decide_eq_false_2 (b < _)) by lia. rewrite bit_set_testbit.
    unfold bitmap. cbn [Z.of_nat seqZ fold_left]. change (seqZ 0 0) with (@nil Z). cbn [fold_left].
    rewrite (list_lookup_total_correct _ _ 0); [apply Z.testbit_0_l|]. apply lookup_replicate_2.
    unfold bit_byte, BSIZE. pose proof (Z.div_lt_upper_bound b 8 1024). pose proof (Z.div_pos b 8). lia.
  - destruct IH as [Hl Hb]; [lia|]. unfold bitmap in *. rewrite Nat2Z.inj_succ, <- Z.add_1_r, seqZ_app, fold_left_app by lia.
    assert (seqZ (0 + Z.of_nat n) 1 = [Z.of_nat n]) as -> by (unfold seqZ; cbn; f_equal; lia). cbn [fold_left].
    set (d := fold_left set_bit (seqZ 0 (Z.of_nat n)) zeroes) in *.
    split; [unfold set_bit; by rewrite length_insert|]. intros b Hbr.
    rewrite set_bit_spec; [|unfold bits_in; rewrite Hl; unfold BSIZE; lia|lia]. rewrite Hb by done.
    repeat case_bool_decide; cbn; done || lia.
Qed.

Lemma bitmap_ok used : 0 <= used <= 8192 →
  length (bitmap used) = Z.to_nat BSIZE ∧ ∀ b, 0 <= b < 8192 → bit_set (bitmap used) b = bool_decide (b < used).
Proof. intros Hu. rewrite <- (Z2Nat.id used) by lia. apply bitmap_spec. lia. Qed.

(** ** The empty image *)

Lemma mk_zero_run (n : nat) : ∀ a s, (∀ x, m_img s x = zeroes) → m_size s = a → 0 <= a → a + Z.of_nat n <= 1000 →
  ∃ s', mk_zero (seqZ a (Z.of_nat n)) s = Some (tt, s') ∧ (∀ x, m_img s' x = zeroes) ∧ m_size s' = a + Z.of_nat n ∧
    m_sb s' = m_sb s ∧ m_freeinode s' = m_freeinode s ∧ m_freeblock s' = m_freeblock s.
Proof.
  induction n as [|n IH]; intros a s Hz Hs Ha Hn.
  - exists s. change (seqZ a (Z.of_nat 0)) with (@nil Z). split_and!; done || lia.
  - rewrite seqZ_cons by lia. rewrite Nat2Z.inj_succ, Z.pred_succ. cbn [mk_zero].
    erewrite mk_step by done. rewrite sect_at_small by lia.
    destruct (IH (Z.succ a) (mk_mkst (upd a zeroes (m_img s)) (Z.max (m_size s) (a + 1)) (m_sb s) (m_freeinode s) (m_freeblock s)))
      as (s'&Hr&H1&H2&H3&H4&H5); cbn; [|lia..|].
    + intros x. unfold upd. by case_decide.
    + exists s'. split_and!; done || lia.
Qed.

(** The image after the super block, and its disk. *)
Lemma volume_empty s : (∀ x, m_img s x = zeroes) → m_size s = 1000 → m_sb s = SB → m_freeinode s = 1 → m_freeblock s = 46 →
  let s' := put_img 1 (splice zeroes 0 (enc_sb SB)) s in volume s' (upd 45 (bitmap 46) (m_img s')) [].
Proof.
  intros Hz Hs Hsb Hfi Hfb s'. destruct (bitmap_ok 46) as [Hl Hb]; [lia|]. set (D := upd 45 (bitmap 46) (m_img s')).
  assert (Hal : ∀ b, 0 <= b < 1000 → allocated SB D b = bool_decide (b < 46)).
  { intros b Hbr. unfold allocated. destruct (BBLOCK_SB b Hbr) as [-> ->]. unfold D. rewrite upd_eq. apply Hb. lia. }
  assert (Himg : ∀ x, x ≠ 1 → m_img s' x = zeroes) by (intros x Hx; unfold s', put_img; cbn; by rewrite upd_ne).
  split; try done; [|cbn; lia].
  split; try done.
  - split; [exact mk_layout| |].
    + intros x. unfold D, upd. case_decide; [done|]. destruct (decide (x = 1)) as [->|Hx]; [done|]. by rewrite Himg.
    + intros b Hbr. change (data_start SB) with 46 in Hbr. rewrite Hal by lia. apply bool_decide_eq_true_2. lia.
  - intros x Hx. unfold D. by rewrite upd_ne.
  - cbn. lia.
  - intros b Hbr. cbn. by rewrite Hfb, Hal.
  - cbn. rewrite Hfb. intros x Hx. unfold D. rewrite upd_ne, Himg by lia. done.
Qed.

(** The root directory and the files. *)
Lemma mk_build_run host args fs : Forall2 (provides host) args fs → Z.of_nat (length fs) <= 198 →
  Forall (λ f, Z.of_nat (length f.2) <= MAXFILE * BSIZE) fs →
  let root := mk_dirent 1 [46] ++ mk_dirent 1 [46; 46] ++ dirents 2 (map fst fs) in
  let v := (T_DIR, root) :: map (λ f, (T_FILE, f.2)) fs in
  46 + vol_blocks v <= 1000 →
  ∃ s D, mk_build host args mk_init = Some (tt, s) ∧ volume s D v.
Proof.
  intros Hp Hcnt Hmax root v Hroom. unfold mk_build. change (seqZ 0 FSSIZE) with (seqZ 0 (Z.of_nat 1000)).
  destruct (mk_zero_run 1000 0 mk_init) as (s1&Hr1&Hz1&Hs1&Hsb1&Hfi1&Hfb1); [done|done|lia|lia|].
  erewrite mk_step by exact Hr1. erewrite mk_step by done. rewrite Hsb1.
  pose proof (volume_empty s1 Hz1 Hs1 Hsb1 Hfi1 Hfb1) as Hv1. cbv zeta in Hv1. change (m_sb mk_init) with SB.
  set (s2 := put_img 1 (splice zeroes 0 (enc_sb SB)) s1) in *.
  assert (Hr2 : wsect 1 (splice zeroes 0 (enc_sb SB)) s1 = Some (tt, s2)).
  { unfold wsect, s2, put_img. rewrite sect_at_small by lia. rewrite Z.max_l by lia. done. }
  erewrite mk_step by exact Hr2.
  destruct (volume_ialloc s2 _ [] T_DIR Hv1) as (s3&D3&Hr3&Hv3); [by compute|by compute|]. cbn [app] in Hv3.
  erewrite mk_step by exact Hr3. change (Z.of_nat (length []) + 1) with 1.
  erewrite mk_step by done.
  assert (Hpart : ∀ r x, root = r ++ x → 46 + vol_blocks [(T_DIR, r)] <= 1000).
  { intros r x E. pose proof (vol_blocks_mono T_DIR r x [] (map (λ f, (T_FILE, f.2)) fs)) as H. rewrite <- E in H.
    change (vol_blocks ((T_DIR, root) :: [] ++ ?l)) with (vol_blocks v) in H. fold v in H. lia. }
  destruct (volume_iappend s3 D3 _ 0 T_DIR [] (mk_dirent 1 [46]) Hv3) as (s4&D4&Hr4&Hv4); [done|by compute|by eapply Hpart|].
  erewrite mk_step by exact Hr4. cbn in Hv4.
  destruct (volume_iappend s4 D4 _ 0 T_DIR (mk_dirent 1 [46]) (mk_dirent 1 [46; 46]) Hv4) as (s5&D5&Hr5&Hv5);
    [done|by compute|eapply Hpart; unfold root; by rewrite app_assoc|].
  erewrite mk_step by exact Hr5.
  destruct (volume_files host args fs Hp s5 D5 (mk_dirent 1 [46] ++ mk_dirent 1 [46; 46]) []) as (s6&D6&Hr6&Hv6).
  - exact Hv5.
  - cbn [length]. lia.
  - done.
  - rewrite length_app, !length_mk_dirent. assert (16 * 200 <= MAXFILE * BSIZE) by by compute. lia.
  - rewrite <- app_assoc. exact Hroom.
  - exists s6, D6. split; [exact Hr6|]. rewrite <- app_assoc in Hv6. exact Hv6.
Qed.

(** ** The finished image *)

Lemma holds_fbytes D ip c : holds D ip c → fbytes D ip 0 (Z.of_nat (length c)) = c.
Proof.
  intros Hh. apply list_eq. intros j. destruct (decide (j < length c)%nat) as [Hj|Hj].
  - rewrite lookup_fbytes, Z.add_0_l, (ho_bytes _ _ _ Hh), decide_True by (pose proof (ho_max _ _ _ Hh); lia).
    rewrite Nat2Z.id. symmetry. by apply list_lookup_lookup_total_lt.
  - rewrite !lookup_ge_None_2; [done|lia|]. rewrite length_fbytes; lia.
Qed.

(** Behind the contents a file reads as zeros. *)
Lemma holds_padded D ip c (n : Z) : holds D ip c → Z.of_nat (length c) <= n <= MAXFILE * BSIZE →
  fbytes D ip 0 n = c ++ replicate (Z.to_nat (n - Z.of_nat (length c))) 0.
Proof.
  intros Hh Hn. replace n with (Z.of_nat (length c) + (n - Z.of_nat (length c))) at 1 by lia.
  rewrite fbytes_app, holds_fbytes by (done || lia). f_equal. apply list_eq. intros j.
  destruct (decide (Z.of_nat j < n - Z.of_nat (length c))) as [Hj|Hj].
  - rewrite lookup_fbytes, (ho_bytes _ _ _ Hh), decide_False by lia. symmetry. apply lookup_replicate_2. lia.
  - rewrite !lookup_ge_None_2; [done|rewrite length_replicate; lia|rewrite length_fbytes; lia].
Qed.

Lemma holds_dense D ip c : holds D ip c → i_size ip = Z.of_nat (length c) → dense D ip.
Proof.
  intros Hh Es k Hk Hlt. rewrite Es in Hlt. pose proof (ho_max _ _ _ Hh). intros E.
  apply (ho_dense _ _ _ Hh) in E; [lia|]. pose proof BSIZE_pos. nia.
Qed.

(** With its size rounded up to the block behind its last byte, a file has all
    its blocks unless its bytes end with a block. *)
Lemma dense_rounded D ip c : holds D ip c → i_size ip = (Z.of_nat (length c) / BSIZE + 1) * BSIZE → i_size ip <= MAXFILE * BSIZE →
  dense D ip ↔ Z.of_nat (length c) mod BSIZE ≠ 0.
Proof.
  intros Hh Es Hmax. set (n := Z.of_nat (length c)) in *. pose proof BSIZE_pos.
  pose proof (Z.div_mod n BSIZE ltac:(lia)). pose proof (Z.mod_pos_bound n BSIZE ltac:(lia)).
  pose proof (Z.div_pos n BSIZE ltac:(lia) ltac:(lia)).
  assert (n / BSIZE + 1 <= MAXFILE) by (apply (Z.mul_le_mono_pos_r _ _ BSIZE); lia). split.
  - intros Hd E. apply (Hd (n / BSIZE)); [done|lia|]. apply (ho_dense _ _ _ Hh); [lia|]. fold n. lia.
  - intros Hne k Hk Hlt E. assert (k < n / BSIZE + 1) by (apply (Z.mul_lt_mono_pos_r BSIZE); lia).
    apply (ho_dense _ _ _ Hh) in E; [|lia]. fold n in E. nia.
Qed.

Definition root_bytes (names : list (list Z)) : list Z := mk_dirent 1 [46] ++ mk_dirent 1 [46; 46] ++ dirents 2 names.
Definition root_size (names : list (list Z)) : Z := (Z.of_nat (length (root_bytes names)) / BSIZE + 1) * BSIZE.

Definition volume_of (fs : list (list Z * list Z)) : list (Z * list Z) :=
  (T_DIR, root_bytes (map fst fs)) :: map (λ f, (T_FILE, f.2)) fs.

(** The files [fs], names and contents, in an image. *)
Record image (img : Z → list Z) (fs : list (list Z * list Z)) : Prop := {
  im_disk : disk_ok LG SB img;
  im_super : dec_sb (img 1) = SB;
  im_free : ∀ b, 0 <= b < 1000 → allocated SB img b = bool_decide (b < 46 + vol_blocks (volume_of fs));
  im_file : ∀ i f, fs !! i = Some f → let ip := dino img (Z.of_nat i + 2) in
    is_inode ip T_FILE (Z.of_nat (length f.2)) ∧ file_ok SB img ip ∧ dense img ip ∧
    fbytes img ip 0 (Z.of_nat (length f.2)) = f.2;
  im_root : let ip := dino img 1 in let raw := root_bytes (map fst fs) in
    is_inode ip T_DIR (root_size (map fst fs)) ∧ file_ok SB img ip ∧
    fbytes img ip 0 (i_size ip) = raw ++ replicate (Z.to_nat (i_size ip - Z.of_nat (length raw))) 0 ∧
    (dense img ip ↔ Z.of_nat (length raw) mod BSIZE ≠ 0);
  im_apart : ∀ i j, (i <= length fs)%nat → (j <= length fs)%nat → i ≠ j →
    apart img (dino img (Z.of_nat i + 1)) (dino img (Z.of_nat j + 1));
}.

Lemma root_size_bound names : (length names <= 198)%nat →
  0 < root_size names <= MAXFILE * BSIZE ∧ Z.of_nat (length (root_bytes names)) <= root_size names.
Proof.
  intros Hn. unfold root_size, root_bytes. rewrite !length_app, !length_mk_dirent, length_dirents.
  set (n := Z.of_nat _). assert (0 <= n <= 3200) by (unfold n; lia).
  assert (4096 <= MAXFILE * BSIZE) by by compute. unfold BSIZE in *.
  pose proof (Z.div_mod n 1024 ltac:(lia)). pose proof (Z.mod_pos_bound n 1024 ltac:(lia)).
  pose proof (Z.div_lt_upper_bound n 1024 4). pose proof (Z.div_pos n 1024). lia.
Qed.

Lemma inode_wf_size ip n : inode_wf ip → word n → inode_wf (set_i_size n ip).
Proof. intros [? ? ? ? ? ? ?] Hn. by split. Qed.

(** The last steps: the size of the root, and the bitmap. *)
Lemma image_finish s D fs img : volume s D (volume_of fs) → (length fs <= 198)%nat →
  let ip := set_i_size (root_size (map fst fs)) (dino D 1) in
  (∀ x, x ≠ 45 → img x = iupdated SB D ip x) → img 45 = bitmap (m_freeblock s) → image img fs.
Proof.
  intros Hv Hn ip Himg H45. pose proof (vo_inv _ _ _ Hv) as Hinv. pose proof (mi_disk _ _ Hinv) as Hd.
  pose proof (mi_fb _ _ Hinv) as Hfb. destruct (bitmap_ok (m_freeblock s)) as [Hbl Hb]; [lia|].
  destruct (root_size_bound (map fst fs)) as [Hrs Hrb]; [by rewrite length_map|].
  destruct (vo_holds _ _ _ Hv 0 (T_DIR, root_bytes (map fst fs)) eq_refl) as [Hh0 (Ht0&Hl0&Hs0&Hw0)]. cbn [fst snd] in *.
  change (Z.of_nat 0 + 1) with 1 in *.
  assert (Hino : is_inode ip T_DIR (root_size (map fst fs))).
  { split_and!; try done. apply inode_wf_size; [done|]. unfold word. assert (MAXFILE * BSIZE < 2 ^ 32) by by compute. lia. }
  assert (Hr : 0 <= i_inum ip < 200) by (cbn; lia).
  assert (Hal : ∀ b, 0 <= b < 1000 → allocated SB img b = bool_decide (b < m_freeblock s)).
  { intros b Hbr. unfold allocated. destruct (BBLOCK_SB b Hbr) as [-> ->]. rewrite H45. apply Hb. lia. }
  assert (Hlow : ∀ x, x < 45 → img x = iupdated SB D ip x) by (intros; apply Himg; lia).
  assert (Htr : ∀ ip0 ip0' c, i_addrs ip0' = i_addrs ip0 → holds D ip0 c →
    holds img ip0' c ∧ ∀ k, slot img ip0' k = slot D ip0 k).
  { intros ip0 ip0' c Ea Hh. destruct (ho_file _ _ _ Hh) as [_ Hblk _]. apply holds_ext; [done| | |done].
    - intros k Hk Hne. destruct (Hblk k Hk Hne) as [Hdb _]. pose proof (proj1 (data_block_iff _) Hdb).
      rewrite Himg by lia. apply iupdated_high; [done|lia].
    - intros k Hk Hne Ha. destruct (Hblk k Hk Hne) as [Hdb _]. pose proof (proj1 (data_block_iff _) Hdb).
      rewrite (mi_alloc _ _ Hinv) in Ha by lia. by rewrite Hal by lia. }
  destruct (is_inode_disk D ip _ _ Hd Hr Hino) as [Hino1 Ead1]. change (i_inum ip) with 1 in *.
  rewrite <- (dino_low (iupdated SB D ip) img 1) in Hino1, Ead1 by (done || lia).
  assert (Hlen : length (volume_of fs) = S (length fs)) by (unfold volume_of; cbn; by rewrite length_map).
  assert (Hdj : ∀ j, (0 < j <= length fs)%nat → dino img (Z.of_nat j + 1) = dino D (Z.of_nat j + 1)).
  { intros j Hj. rewrite (dino_low (iupdated SB D ip) img) by (done || lia). apply dino_other; done || apply Hino || (cbn; lia). }
  assert (Hall : ∀ j f, volume_of fs !! j = Some f → holds img (dino img (Z.of_nat j + 1)) f.2 ∧
    ∀ k, slot img (dino img (Z.of_nat j + 1)) k = slot D (dino D (Z.of_nat j + 1)) k).
  { intros j f Hj. pose proof (lookup_lt_Some _ _ _ Hj) as Hlt. rewrite Hlen in Hlt.
    apply Htr; [|by apply (vo_holds _ _ _ Hv)]. destruct j as [|j]; [exact Ead1|by rewrite Hdj by lia]. }
  split.
  - split; [exact mk_layout| |].
    + intros x. destruct (decide (x = 45)) as [->|Hx]; [by rewrite H45|]. rewrite Himg by done.
      apply (iupdated_disk_ok Hd); [apply Hino|cbn; lia].
    + intros b Hbr. change (data_start SB) with 46 in Hbr. rewrite Hal by lia. apply bool_decide_eq_true_2. lia.
  - rewrite Himg by done. unfold iupdated. rewrite upd_ne by (pose proof (IBLOCK_SB _ Hr); cbn in *; lia).
    rewrite (vo_super _ _ _ Hv). reflexivity.
  - intros b Hbr. rewrite Hal by done. by rewrite (vo_blocks _ _ _ Hv).
  - intros i f Hf. cbv zeta. replace (Z.of_nat i + 2) with (Z.of_nat (S i) + 1) by lia.
    assert (Hvi : volume_of fs !! S i = Some (T_FILE, f.2)) by
      (change (map (λ f, (T_FILE, f.2)) fs !! i = Some (T_FILE, f.2)); by rewrite list_lookup_fmap, Hf).
    destruct (Hall (S i) _ Hvi) as [Hh _]. cbn [snd] in Hh. pose proof (lookup_lt_Some _ _ _ Hf).
    destruct (vo_holds _ _ _ Hv (S i) _ Hvi) as [_ Hin]. rewrite <- Hdj in Hin by lia. cbn [fst snd] in Hin.
    split_and!; [done|apply Hh| |by apply holds_fbytes]. eapply holds_dense; [exact Hh|apply Hin].
  - cbv zeta. destruct (Hall 0%nat _ eq_refl) as [Hh _]. change (Z.of_nat 0 + 1) with 1 in Hh. cbn [snd] in Hh.
    destruct Hino1 as (?&?&Esz&?). split_and!; [done|apply Hh|rewrite Esz; apply holds_padded; [done|lia]|].
    eapply dense_rounded; [exact Hh|exact Esz|rewrite Esz; lia].
  - intros i j Hi Hj Hne. destruct (lookup_lt_is_Some_2 (volume_of fs) i ltac:(lia)) as [f Hf].
    destruct (lookup_lt_is_Some_2 (volume_of fs) j ltac:(lia)) as [f' Hf'].
    intros k k' Hk Hk'. rewrite (proj2 (Hall i f Hf)), (proj2 (Hall j f' Hf')). apply (vo_apart _ _ _ Hv); done || lia.
Qed.

(** C19: mkfs builds the image it is asked for: when the host provides the files,
    there are at most 198 of them, none is larger than a file can be, and their
    blocks fit on the disk, it succeeds; the kernel finds its super block, the
    disk is laid out as its operations need it, with exactly the blocks given out
    marked in the bitmap; every file has an inode from number 2 on, of its size,
    whose blocks hold its contents; the root directory has the entries in order
    and zeros behind them, up to a whole number of blocks, the last of which it
    lacks when the entries fill their blocks; and no two files share a block. *)
Theorem mkfs_image host args fs :
  Forall2 (provides host) args fs → (length fs <= 198)%nat → Forall (λ f, Z.of_nat (length f.2) <= MAXFILE * BSIZE) fs →
  46 + vol_blocks (volume_of fs) <= 1000 →
  ∃ s, mkfs_main host args mk_init = Some (tt, s) ∧ image (m_img s) fs.
Proof.
  intros Hp Hn Hmax Hroom.
  destruct (mk_build_run host args fs Hp) as (s1&D1&Hr1&Hv1); [lia|done|exact Hroom|].
  change (volume s1 D1 (volume_of fs)) in Hv1. pose proof (vo_inv _ _ _ Hv1) as Hi1.
  destruct (vo_holds _ _ _ Hv1 0 (T_DIR, root_bytes (map fst fs)) eq_refl) as [Hh0 (Ht0&Hl0&Hs0&Hw0)]. cbn [fst snd] in *.
  change (Z.of_nat 0 + 1) with 1 in *.
  destruct (root_size_bound (map fst fs)) as [Hrs Hrb]; [by rewrite length_map|].
  assert (MAXFILE * BSIZE < 2 ^ 32) by by compute.
  set (ip := set_i_size (root_size (map fst fs)) (dino D1 1)).
  assert (Hw : inode_wf ip) by (apply inode_wf_size; [done|unfold word; lia]).
  destruct (winode_run s1 D1 ip Hi1) as (s2&Hr2&Hi2&Efi2&Efb2); [cbn; lia|done|].
  exists (put_img 45 (bitmap (m_freeblock s2)) s2). split.
  - unfold mkfs_main. erewrite mk_step by exact Hr1. change ROOTINO with 1.
    erewrite mk_step by (apply (rinode_run s1 D1 1 Hi1); lia). rewrite Hs0, (xint_small (Z.of_nat _)) by lia. fold (root_size (map fst fs)).
    rewrite (xint_small (root_size _)) by lia. fold ip. erewrite mk_step by exact Hr2.
    erewrite mk_step by done. unfold mk_balloc. pose proof (mi_fb _ _ Hi2).
    erewrite mk_step by (by unfold mk_assert; rewrite (proj2 (Z.ltb_lt _ _)) by (unfold BSIZE; lia)).
    erewrite mk_step by done. rewrite (mi_sb _ _ Hi2). apply (wsect_run s2 (iupdated SB D1 ip)); [done|cbn; lia].
  - apply (image_finish s1 D1); [done|done| |].
    + intros x Hx. cbn [put_img m_img]. rewrite upd_ne by done. by apply (mi_img _ _ Hi2).
    + cbn [put_img m_img]. by rewrite upd_eq, Efb2.
Qed.

Lemma mkfs_image_witness :
  let host := λ n, if decide (n = codes "user/_cat") then Some [codes "abc"; codes "d"] else Some [codes "text"] in
  ∃ s, mkfs_main host [codes "user/_cat"; codes "README"] mk_init = Some (tt, s) ∧
    image (m_img s) [(codes "cat", codes "abcd"); (codes "README", codes "text")].
Proof.
  intros host. apply (mkfs_image host [codes "user/_cat"; codes "README"] [(codes "cat", codes "abcd"); (codes "README", codes "text")]).
  - repeat constructor; (reflexivity || (eexists; split; reflexivity)).
  - cbn. lia.
  - repeat constructor; by compute.
  - by compute.
Defined.

(** With 62 files the entries fill a block: the root directory gets a second
    block's size and no second block, which the kernel allocates when it reads
    the directory. *)
Theorem mkfs_root_hole (img : Z → list Z) fs : image img fs → length fs = 62%nat →
  i_size (dino img 1) = 2048 ∧ ¬ dense img (dino img 1).
Proof.
  intros Him Hn. destruct (im_root _ _ Him) as ((_&_&Es&_)&_&_&Hd).
  assert (El : length (root_bytes (map fst fs)) = 1024%nat).
  { unfold root_bytes. rewrite !length_app, !length_mk_dirent, length_dirents, length_map, Hn. done. }
  rewrite Es. unfold root_size. rewrite El. split; [done|]. rewrite Hd, El. by intros H.
Qed.

(** mkfs does not count its inodes: number 208 would be in the bitmap. *)
Theorem ialloc_unchecked : IBLOCK 208 mk_super = sb_bmapstart mk_super.
Proof. reflexivity. Qed.

(** The kernel reads what mkfs wrote: an inode of the image in the inode table is
    one that [readi] can read, and its bytes are the file. *)
Theorem image_reading `{DiskRw} `{WaitFuel} (img : Z → list Z) fs i (f : list Z * list Z) k (st : kst) bl ip0 :
  image img fs → fs !! i = Some f → tx LG st img bl ∅ → i_dev ip0 = ROOTDEV → (length bl < NBUF)%nat →
  get_inode st k = with_disk ip0 (dino img (Z.of_nat i + 2)) → Z.of_nat (length f.2) <= MAXFILE * BSIZE →
  reading LG SB k st img bl (get_inode st k) ∧ fbytes img (get_inode st k) 0 (i_size (get_inode st k)) = f.2.
Proof.
  intros Him Hf Ht Hdev Hbl Hip Hmax. destruct (im_file _ _ Him i f Hf) as ((_&_&Es&_)&_&Hd&Hb). cbv zeta in *.
  rewrite Hip. split; [|cbn [with_disk i_size]; rewrite Es; exact Hb].
  split; try done; [apply Him|]. cbn [with_disk i_size]. lia.
Qed.
