(* ===== verification/Umalloc.v ===== *)
(** * The allocator of user programs: user/umalloc.c

    A [Header] is 16 bytes: a pointer and a size in headers.  The fields of the
    headers are functions of their addresses; the search of the free list takes
    fuel.  [base] is a variable of the program, below the memory that [sbrk]
    gives out. *)

From S2P Require Import Prelude Memory Params CString BioSpec User.

(** [sizeof(Header)] *)
Definition HEADER : Z := 16.

Record hst : Type := mk_hst { h_ptr : Z → Z; h_size : Z → Z; h_freep : Z }.

Definition set_ptr (a v : Z) (s : hst) : hst := mk_hst (upd a v (h_ptr s)) (h_size s) (h_freep s).
Definition set_size (a v : Z) (s : hst) : hst := mk_hst (h_ptr s) (upd a v (h_size s)) (h_freep s).
Definition set_freep (p : Z) (s : hst) : hst := mk_hst (h_ptr s) (h_size s) p.

Section Malloc.
Context (base : Z).

(** The first loop of [free], from [p] on. *)
Fixpoint free_find (fuel : nat) (bp p : Z) (s : hst) : option Z :=
  match fuel with
  | O => None
  | S fuel =>
      if (bp >? p) && (bp <? h_ptr s p) then Some p else
      if (p >=? h_ptr s p) && ((bp >? p) || (bp <? h_ptr s p)) then Some p else
      free_find fuel bp (h_ptr s p) s
  end.

(** What [free] does to [bp] and to its predecessor [p]. *)
Definition free_link (bp p : Z) (s : hst) : hst :=
  let q := h_ptr s p in
  let s :=
    if bp + HEADER * h_size s bp =? q
    then set_ptr bp (h_ptr s q) (set_size bp (u32 (h_size s bp + h_size s q)) s)
    else set_ptr bp q s in
  let s :=
    if p + HEADER * h_size s p =? bp
    then set_ptr p (h_ptr s bp) (set_size p (u32 (h_size s p + h_size s bp)) s)
    else set_ptr p bp s in
  set_freep p s.

Definition u_free (fuel : nat) (ap : Z) (s : hst) : option hst :=
  let bp := ap - HEADER in
  p ← free_find fuel bp (h_freep s) s;
  Some (free_link bp p s).

(** The value returned, with the headers. *)
Definition morecore (fuel : nat) (nu : Z) (s : hst) : uprog (Z * hst) :=
  let nu := if nu <? 4096 then 4096 else nu in
  p ← u_sbrk (i32 (nu * HEADER));
  if p =? -1 then mret (0, s) else
  match u_free fuel (p + HEADER) (set_size p nu s) with
  | None => UFuel
  | Some s => mret (h_freep s, s)
  end.

(** The block [p] is large enough. *)
Definition malloc_take (nunits prevp p : Z) (s : hst) : Z * hst :=
  if h_size s p =? nunits then (p + HEADER, set_freep prevp (set_ptr prevp (h_ptr s p) s))
  else
    let s := set_size p (u32 (h_size s p - nunits)) s in
    let p := p + HEADER * h_size s p in
    (p + HEADER, set_freep prevp (set_size p nunits s)).

Fixpoint malloc_loop (fuel : nat) (nunits prevp p : Z) (s : hst) : uprog (Z * hst) :=
  match fuel with
  | O => UFuel
  | S fuel =>
      if nunits <=? h_size s p then mret (malloc_take nunits prevp p s) else
      if p =? h_freep s then
        r ← morecore fuel nunits s;
        if r.1 =? 0 then mret (0, r.2) else malloc_loop fuel nunits r.1 (h_ptr r.2 r.1) r.2
      else malloc_loop fuel nunits p (h_ptr s p) s
  end.

Definition malloc (fuel : nat) (nbytes : Z) (s : hst) : uprog (Z * hst) :=
  let nunits := u32 ((nbytes + HEADER - 1) / HEADER + 1) in
  let s := if h_freep s =? 0 then set_size base 0 (set_freep base (set_ptr base base s)) else s in
  malloc_loop fuel nunits (h_freep s) (h_ptr s (h_freep s)) s.
End Malloc.
