(* ===== verification/UmallocSpec.v ===== *)
(** * The allocator of user programs is correct

    The free list is a ring through [base] in the order of the addresses, of
    blocks that do not overlap.  [free] adds exactly the block to the free memory
    and [malloc] takes a block of the right size out of it, or out of what [sbrk]
    gives; both loops end. *)

From stdpp Require Import sorting.
From S2P Require Import Prelude Memory Params CString BioSpec User Umalloc.

Implicit Types (s : hst) (L l : list Z).

(** ** The free list *)

(** The pointers lead from [x] through [l] to [y]. *)
Fixpoint seg s (x : Z) (l : list Z) (y : Z) : Prop :=
  match l with
  | [] => x = y
  | a :: l => x = a ∧ seg s (h_ptr s a) l y
  end.

Definition block_end s (x : Z) : Z := x + HEADER * h_size s x.

(** The block [x] is below [y]. *)
Definition before s (x y : Z) : Prop := x < y ∧ block_end s x <= y.

Record flist (base top : Z) s L : Prop := {
  fl_base : ∃ l, L = base :: l;
  fl_seg : seg s base L base;
  fl_sorted : StronglySorted (before s) L;
  fl_sizes : ∀ x, x ∈ L → if decide (x = base) then h_size s x = 0 else 1 <= h_size s x;
  fl_top : ∀ x, x ∈ L → block_end s x <= top;
}.

(** The free memory. *)
Definition free_at s L (a : Z) : Prop := ∃ x, x ∈ L ∧ x <= a < block_end s x.

(** The pairs of free blocks that touch are among those of [E]; [merged]: none
    touch, so that every free block is as large as it can be. *)
Definition loose s L (E : Z → Z → Prop) : Prop := ∀ x y, x ∈ L → y ∈ L → x < y → block_end s x = y → E x y.
Definition merged s L : Prop := loose s L (λ _ _, False).

Lemma seg_app s x l l' z : seg s x (l ++ l') z ↔ ∃ y, seg s x l y ∧ seg s y l' z.
Proof.
  revert x. induction l as [|a l IH]; intros x; cbn; [naive_solver|]. rewrite IH. naive_solver.
Qed.

Lemma seg_agree s s' x l y : (∀ a, a ∈ l → h_ptr s' a = h_ptr s a) → seg s x l y → seg s' x l y.
Proof.
  revert x. induction l as [|a l IH]; intros x Ha; cbn; [done|]. intros [-> H]. split; [done|].
  rewrite Ha by set_solver. apply IH; [|done]. intros b Hb. apply Ha. set_solver.
Qed.

Lemma seg_hd s x l y : seg s x l y → x = match l with [] => y | a :: _ => a end.
Proof. destruct l; cbn; naive_solver. Qed.

(** A part of a sorted list. *)
Lemma sorted_split s l1 x l2 : StronglySorted (before s) (l1 ++ x :: l2) ↔
  StronglySorted (before s) l1 ∧ StronglySorted (before s) l2 ∧ (∀ y, y ∈ l1 → before s y x) ∧
  (∀ y, y ∈ l2 → before s x y) ∧ (∀ y z, y ∈ l1 → z ∈ l2 → before s y z).
Proof.
  induction l1 as [|a l1 IH]; cbn [app].
  - split.
    + intros [H1 H2]%StronglySorted_inv. rewrite Forall_forall in H2. split_and!; try done; [constructor|set_solver..].
    + intros (_&H2&_&H3&_). constructor; [done|by apply Forall_forall].
  - split.
    + intros [H1 H2]%StronglySorted_inv. rewrite Forall_forall in H2. apply IH in H1 as (?&?&?&?&?).
      split_and!; try done; [constructor; [done|apply Forall_forall; intros; apply H2; set_solver]|set_solver..].
    + intros (H1&H2&H3&H4&H5). apply StronglySorted_inv in H1 as [H1 H1']. rewrite Forall_forall in H1'.
      constructor; [apply IH; split_and!; set_solver|]. apply Forall_forall. set_solver.
Qed.

Lemma sorted_agree s s' l : (∀ a, a ∈ l → h_size s' a = h_size s a) → StronglySorted (before s) l → StronglySorted (before s') l.
Proof.
  intros Ha. induction 1 as [|x l Hl IH Hx]; constructor; [apply IH; set_solver|].
  apply Forall_forall. intros y Hy. rewrite Forall_forall in Hx. destruct (Hx y Hy). unfold before, block_end in *.
  rewrite Ha by set_solver. done.
Qed.

(** Blocks that are apart are different. *)
Lemma before_ne s x y : before s x y → x ≠ y.
Proof. intros [? _]. lia. Qed.

Lemma fl_size base top s L : flist base top s L → ∀ x, x ∈ L → 0 <= h_size s x.
Proof. intros Hf x Hx. pose proof (fl_sizes _ _ _ _ Hf x Hx). case_decide; lia. Qed.

Section List.
Context {base top : Z} (Htop : 0 < base ∧ top < base + HEADER * 2 ^ 32).

Lemma flist_low s L x : flist base top s L → x ∈ L → base <= x.
Proof.
  intros [[l ->] _ Hs _ _] Hx. apply StronglySorted_inv in Hs as [_ Hs]. rewrite Forall_forall in Hs.
  apply elem_of_cons in Hx as [->|Hx]; [lia|]. destruct (Hs x Hx). lia.
Qed.

(** Linking a block in. *)
Lemma flist_insert s l1 p l2 bp : flist base top s (l1 ++ p :: l2) → base < bp → before s p bp → (∀ y, y ∈ l2 → before s bp y) →
  1 <= h_size s bp → block_end s bp <= top →
  flist base top (set_ptr p bp (set_ptr bp (h_ptr s p) s)) (l1 ++ p :: bp :: l2).
Proof.
  intros Hf Hb Hp Hl2 Hsz Hend. pose proof (fl_sorted _ _ _ _ Hf) as Hs. apply sorted_split in Hs as (S1&S2&S3&S4&S5).
  assert (Hl1 : ∀ y, y ∈ l1 → before s y bp).
  { intros y Hy. destruct (S3 y Hy), Hp. split; lia. }
  set (s' := set_ptr p bp (set_ptr bp (h_ptr s p) s)).
  assert (Hne : ∀ a, a ∈ l1 ∨ a ∈ l2 → h_ptr s' a = h_ptr s a).
  { intros a Ha. assert (a ≠ p ∧ a ≠ bp) as [Hap Hab].
    { destruct Ha as [Ha|Ha]; [destruct (S3 a Ha), (Hl1 a Ha)|destruct (S4 a Ha), (Hl2 a Ha)]; lia. }
    unfold s'. cbn. by rewrite !upd_ne. }
  pose proof (fl_seg _ _ _ _ Hf) as Hseg. apply seg_app in Hseg as (y&Hs1&->&Hs2).
  split.
  - destruct (fl_base _ _ _ _ Hf) as [l E]. destruct l1 as [|b l1]; cbn in *; injection E as -> _; eauto.
  - apply seg_app. exists p. split; [apply (seg_agree s); [|done]; auto|]. cbn.
    unfold s'. cbn. rewrite upd_eq. split; [done|]. split; [done|]. rewrite upd_ne, upd_eq by (destruct Hp; lia).
    apply (seg_agree s); [|done]. intros a Ha. apply Hne. auto.
  - apply (sorted_agree s); [done|]. apply sorted_split. split_and!; [done| |done| |].
    + constructor; [done|]. by apply Forall_forall.
    + intros y Hy%elem_of_cons. destruct Hy as [->|Hy]; auto.
    + intros y z Hy Hz%elem_of_cons. destruct Hz as [->|Hz]; auto.
  - intros x Hx. cbn. destruct (decide (x = bp)) as [->|]; [rewrite decide_False by lia; lia|]. apply (fl_sizes _ _ _ _ Hf). set_solver.
  - intros x Hx. destruct (decide (x = bp)) as [->|]; [done|]. apply (fl_top _ _ _ _ Hf). set_solver.
Qed.

(** Merging a block with its successor. *)
Definition merge (x y : Z) s : hst := set_ptr x (h_ptr s y) (set_size x (u32 (h_size s x + h_size s y)) s).

Lemma flist_merge s l1 x y l2 : flist base top s (l1 ++ x :: y :: l2) → block_end s x = y →
  flist base top (merge x y s) (l1 ++ x :: l2) ∧
  ∀ a, free_at (merge x y s) (l1 ++ x :: l2) a ↔ free_at s (l1 ++ x :: y :: l2) a.
Proof.
  intros Hf Exy. pose proof (fl_sorted _ _ _ _ Hf) as Hs. apply sorted_split in Hs as (S1&S2&S3&S4&S5).
  pose proof (fl_size _ _ _ _ Hf x ltac:(set_solver)) as Hsx. pose proof (fl_size _ _ _ _ Hf y ltac:(set_solver)) as Hsy.
  pose proof (fl_top _ _ _ _ Hf y ltac:(set_solver)) as Hty. pose proof (flist_low _ _ x Hf ltac:(set_solver)) as Hbx.
  unfold block_end in *. set (s' := merge x y s).
  assert (Ex : h_size s' x = h_size s x + h_size s y).
  { unfold s', merge. cbn. rewrite upd_eq. apply u32_small. unfold HEADER in *. lia. }
  assert (Hsz : ∀ a, a ≠ x → h_size s' a = h_size s a) by (intros a Ha; unfold s', merge; cbn; by rewrite upd_ne).
  assert (Hpt : ∀ a, a ≠ x → h_ptr s' a = h_ptr s a) by (intros a Ha; unfold s', merge; cbn; by rewrite upd_ne).
  assert (N1 : ∀ a, a ∈ l1 → a ≠ x) by (intros a Ha; apply (before_ne s), S3, Ha).
  assert (N2 : ∀ a, a ∈ l2 → a ≠ x) by (intros a Ha E; apply (before_ne s x a); [apply S4; set_solver|done]).
  apply StronglySorted_inv in S2 as [S2 S2']. rewrite Forall_forall in S2'.
  split.
  - split.
    + destruct (fl_base _ _ _ _ Hf) as [l E]. destruct l1 as [|b l1]; cbn in *; injection E as -> _; eauto.
    + pose proof (fl_seg _ _ _ _ Hf) as Hseg. apply seg_app in Hseg as (z&Hs1&->&Hz&Hs2).
      apply seg_app. exists x. split; [apply (seg_agree s); [|done]; auto|]. cbn. split; [done|].
      unfold s', merge at 1. cbn. rewrite upd_eq. apply (seg_agree s); [|done]. auto.
    + apply sorted_split. split_and!.
      * apply (sorted_agree s); [|done]. auto.
      * apply (sorted_agree s); [|done]. auto.
      * intros a Ha. destruct (S3 a Ha). split; [done|]. unfold block_end. by rewrite Hsz by auto.
      * intros a Ha. destruct (S4 a ltac:(set_solver)), (S2' a Ha) as [_ H2]. split; [done|]. unfold block_end in *.
        rewrite Ex. unfold HEADER in *. lia.
      * intros a b Ha Hb. destruct (S5 a b Ha ltac:(set_solver)). split; [done|]. unfold block_end. by rewrite Hsz by auto.
    + intros a Ha. destruct (decide (a = x)) as [->|Hne].
      * destruct (S4 y ltac:(set_solver)). pose proof (fl_sizes _ _ _ _ Hf x ltac:(set_solver)). rewrite Ex.
        unfold HEADER in *. case_decide; lia.
      * rewrite Hsz by done. apply (fl_sizes _ _ _ _ Hf). set_solver.
    + intros a Ha. unfold block_end. destruct (decide (a = x)) as [->|Hne]; [rewrite Ex; unfold HEADER in *; lia|].
      rewrite Hsz by done. apply (fl_top _ _ _ _ Hf). set_solver.
  - intros a. unfold free_at, block_end. split.
    + intros (b&Hb&Hr). destruct (decide (b = x)) as [->|Hne]; [rewrite Ex in Hr|rewrite Hsz in Hr by done; exists b; set_solver].
      destruct (decide (a < y)); [exists x|exists y]; (split; [set_solver|]); unfold HEADER in *; lia.
    + intros (b&Hb&Hr). destruct (decide (b = y)) as [->|Hny].
      * exists x. split; [set_solver|]. rewrite Ex. unfold HEADER in *. lia.
      * destruct (decide (b = x)) as [->|Hne].
        -- exists x. split; [set_solver|]. rewrite Ex. unfold HEADER in *. lia.
        -- exists b. split; [set_solver|]. by rewrite Hsz.
Qed.

Lemma loose_merge s l1 x y l2 E : flist base top s (l1 ++ x :: y :: l2) → block_end s x = y → loose s (l1 ++ x :: y :: l2) E →
  loose (merge x y s) (l1 ++ x :: l2) (λ a b, a ≠ x ∧ E a b ∨ a = x ∧ E y b).
Proof.
  intros Hf Exy HE a b Ha Hb Hab Hend. unfold block_end in Hend, Exy. cbn [merge set_ptr set_size h_size] in Hend.
  destruct (decide (a = x)) as [->|Hne]; [right|left].
  - split; [done|]. pose proof (fl_sorted _ _ _ _ Hf) as Hs. apply sorted_split in Hs as (_&S2&S3&_&_).
    apply StronglySorted_inv in S2 as [_ S2]. rewrite Forall_forall in S2.
    assert (Hb2 : b ∈ l2).
    { apply elem_of_app in Hb as [Hb|[->|Hb]%elem_of_cons]; [destruct (S3 b Hb); lia|lia|done]. }
    apply HE; [set_solver..|by destruct (S2 b Hb2)|]. rewrite upd_eq, u32_small in Hend.
    + unfold block_end, HEADER in *. lia.
    + pose proof (fl_size _ _ _ _ Hf x ltac:(set_solver)). pose proof (fl_size _ _ _ _ Hf y ltac:(set_solver)).
      pose proof (fl_top _ _ _ _ Hf y ltac:(set_solver)). pose proof (flist_low _ _ x Hf ltac:(set_solver)).
      unfold block_end, HEADER in *. lia.
  - split; [done|]. rewrite upd_ne in Hend by done. apply HE; [set_solver..|done|exact Hend].
Qed.

Lemma loose_mono s L (E E' : Z → Z → Prop) : (∀ x y, block_end s x = y → E x y → E' x y) → loose s L E → loose s L E'.
Proof. intros HE H x y Hx Hy Hxy Hend. auto. Qed.

(** A block linked in touches its neighbours only. *)
Lemma loose_insert s l1 p l2 bp : flist base top s (l1 ++ p :: l2) → before s p bp → (∀ y, y ∈ l2 → before s bp y) →
  merged s (l1 ++ p :: l2) →
  loose (set_ptr p bp (set_ptr bp (h_ptr s p) s)) (l1 ++ p :: bp :: l2) (λ a b, a = p ∧ b = bp ∨ a = bp ∧ b = h_ptr s p).
Proof.
  intros Hf Hp Hl2 Hm a b Ha Hb Hab Hend. change (block_end s a = b) in Hend.
  pose proof (fl_sorted _ _ _ _ Hf) as Hs. apply sorted_split in Hs as (_&S2&S3&_&_).
  pose proof (fl_seg _ _ _ _ Hf) as Hseg. apply seg_app in Hseg as (y&_&->&Hseg). apply seg_hd in Hseg.
  destruct (decide (a = bp)) as [->|Hna].
  - right. split; [done|]. assert (b ∈ l2) as Hb2.
    { apply elem_of_app in Hb as [Hb|[->|[->|Hb]%elem_of_cons]%elem_of_cons]; [destruct (S3 b Hb), Hp; lia|destruct Hp; lia|lia|done]. }
    rewrite Hseg. destruct l2 as [|q l2]; [set_solver|]. apply elem_of_cons in Hb2 as [->|Hb2]; [done|].
    apply StronglySorted_inv in S2 as [_ S2]. rewrite Forall_forall in S2. destruct (S2 b Hb2), (Hl2 q ltac:(set_solver)). lia.
  - destruct (decide (b = bp)) as [->|Hnb]; [left; split; [|done]|exfalso; apply (Hm a b); set_solver].
    apply elem_of_app in Ha as [Ha|[->|[->|Ha]%elem_of_cons]%elem_of_cons]; [destruct (S3 a Ha), Hp; lia|done|lia|].
    destruct (Hl2 a Ha). lia.
Qed.

(** Headers with the same fields. *)
Definition same s s' : Prop := (∀ a, h_ptr s' a = h_ptr s a) ∧ (∀ a, h_size s' a = h_size s a).

Lemma flist_agree s s' L : (∀ a, a ∈ L → h_ptr s' a = h_ptr s a ∧ h_size s' a = h_size s a) →
  flist base top s L → flist base top s' L.
Proof.
  intros Ha [H1 H2 H3 H4 H5].
  split; [done|apply (seg_agree s); [|done]; apply Ha|apply (sorted_agree s); [|done]; apply Ha| |].
  - intros x Hx. rewrite (proj2 (Ha x Hx)). by apply H4.
  - intros x Hx. unfold block_end. rewrite (proj2 (Ha x Hx)). by apply H5.
Qed.

Lemma flist_same s s' L : same s s' → flist base top s L → flist base top s' L.
Proof. intros [Hp Hs]. apply flist_agree. auto. Qed.

Lemma free_at_same s s' L a : same s s' → free_at s' L a ↔ free_at s L a.
Proof. intros [_ Hs]. unfold free_at, block_end. by setoid_rewrite Hs. Qed.

Lemma merged_agree s s' L : (∀ a, a ∈ L → h_size s' a = h_size s a) → merged s L → merged s' L.
Proof. intros Hs Hm x y Hx Hy Hxy Hend. apply (Hm x y Hx Hy Hxy). unfold block_end in *. by rewrite <- Hs. Qed.

(** ** Finding the place of a block *)

(** The free list around a block that overlaps none of it. *)
Definition apart_from s L (bp : Z) : Prop := ∀ x, x ∈ L → before s x bp ∨ before s bp x.

Lemma place s l bp x : StronglySorted (before s) (x :: l) → before s x bp → apart_from s (x :: l) bp →
  ∃ l1 p l2, x :: l = l1 ++ p :: l2 ∧ before s p bp ∧ (∀ y, y ∈ l2 → before s bp y).
Proof.
  revert x. induction l as [|y l IH]; intros x Hs Hx Hap; [exists [], x, []; set_solver|].
  apply StronglySorted_inv in Hs as [Hs Hx']. rewrite Forall_forall in Hx'.
  destruct (Hap y ltac:(set_solver)) as [Hy|Hy].
  - destruct (IH y Hs Hy ltac:(unfold apart_from in *; set_solver)) as (l1&p&l2&E&?&?). exists (x :: l1), p, l2. by rewrite E.
  - exists [], x, (y :: l). split_and!; [done|done|]. intros z Hz. apply elem_of_cons in Hz as [->|Hz]; [done|].
    apply StronglySorted_inv in Hs as [_ Hs]. rewrite Forall_forall in Hs. destruct (Hs z Hz) as [? _], Hy. split; lia.
Qed.

(** The search from the front of the place. *)
Lemma find_up s bp p l2 m fuel x : base < bp → before s p bp → (∀ y, y ∈ l2 → before s bp y) →
  StronglySorted (before s) (m ++ p :: l2) → seg s x (m ++ p :: l2) base → (∀ y, y ∈ m ++ p :: l2 → base <= y) →
  (length m < fuel)%nat → free_find fuel bp x s = Some p.
Proof.
  intros Hb Hp Hl2. revert fuel x. induction m as [|k m IH]; intros [|fuel] x Hs Hseg Hlow Hf; cbn in Hf; try lia; cbn [free_find app] in *.
  - destruct Hseg as [-> Hseg]. apply seg_hd in Hseg. destruct Hp as [Hp _].
    rewrite Z.gtb_ltb, (proj2 (Z.ltb_lt p bp)) by done. cbn [andb orb]. rewrite Hseg. destruct l2 as [|q l2].
    + rewrite (proj2 (Z.ltb_ge bp base)) by lia. cbn [andb]. rewrite Z.geb_leb, (proj2 (Z.leb_le base p)); [done|]. apply Hlow. set_solver.
    + destruct (Hl2 q ltac:(set_solver)). by rewrite (proj2 (Z.ltb_lt bp q)).
  - destruct Hseg as [-> Hseg]. apply StronglySorted_inv in Hs as [Hs Hk]. rewrite Forall_forall in Hk.
    pose proof (seg_hd _ _ _ _ Hseg) as Eh. set (h := h_ptr s k) in *.
    assert (Hh : h ∈ m ++ p :: l2 ∧ h < bp ∧ k < h).
    { apply sorted_split in Hs as (_&_&S3&_&_). destruct Hp as [Hp _]. destruct m as [|h' m]; cbn in Eh; subst h.
      - rewrite Eh. split_and!; [set_solver|done|]. apply Hk. set_solver.
      - rewrite Eh. destruct (S3 h' ltac:(set_solver)) as [? _]. split_and!; [set_solver|lia|]. apply Hk. set_solver. }
    destruct Hh as (Hin&Hhb&Hkh). rewrite (proj2 (Z.ltb_ge bp h)) by lia. rewrite andb_false_r.
    rewrite Z.geb_leb, (proj2 (Z.leb_gt h k)) by lia. cbn [andb]. apply IH; try done; [|lia]. intros y Hy. apply Hlow. set_solver.
Qed.

(** The search from behind the place goes round through [base]. *)
Lemma find_round s bp l2 fuel x : base < bp → seg s x l2 base → StronglySorted (before s) l2 →
  (∀ y, y ∈ l2 → before s bp y) → free_find (length l2 + fuel) bp x s = free_find fuel bp base s.
Proof.
  intros Hb. revert x. induction l2 as [|k l2 IH]; intros x Hseg Hs Hl2; cbn [length Nat.add free_find].
  - by rewrite Hseg.
  - destruct Hseg as [-> Hseg]. apply StronglySorted_inv in Hs as [Hs Hk]. rewrite Forall_forall in Hk.
    pose proof (seg_hd _ _ _ _ Hseg) as Eh. destruct (Hl2 k ltac:(set_solver)) as [Hbk _].
    rewrite !Z.gtb_ltb, (proj2 (Z.ltb_ge k bp)) by lia. cbn [andb orb].
    assert (E : (k >=? h_ptr s k) && (bp <? h_ptr s k) = false).
    { rewrite Eh. destruct l2 as [|q l2].
      - by rewrite (proj2 (Z.ltb_ge bp base)), andb_false_r by lia.
      - destruct (Hk q ltac:(set_solver)). by rewrite Z.geb_leb, (proj2 (Z.leb_gt q k)) by lia. }
    rewrite E. apply IH; [done|done|]. intros y Hy. apply Hl2. set_solver.
Qed.

(** ** free *)

(** [free] links the block in, then merges it with what it touches. *)
Definition free_steps (bp p : Z) s : hst :=
  let q := h_ptr s p in
  let s1 := set_ptr p bp (set_ptr bp q s) in
  let s2 := if block_end s1 bp =? q then merge bp q s1 else s1 in
  if block_end s2 p =? bp then merge p bp s2 else s2.

Lemma free_link_steps bp p s : bp ≠ p → h_ptr s p ≠ bp → (h_ptr s p = p → block_end s bp ≠ p) →
  same (free_steps bp p s) (free_link bp p s).
Proof.
  intros Hne Hq Hqp. unfold free_link, free_steps, block_end, merge. set (q := h_ptr s p) in *. cbn [set_ptr set_size h_ptr h_size].
  destruct (Z.eqb_spec (bp + HEADER * h_size s bp) q) as [E|E]; cbn [set_ptr set_size set_freep h_ptr h_size].
  - assert (q ≠ p) by (intros ->; by apply Hqp). rewrite ?(upd_ne bp p) by done.
    destruct (Z.eqb_spec (p + HEADER * h_size s p) bp); split; intros a; cbn [set_ptr set_size set_freep h_ptr h_size];
      unfold upd; repeat case_decide; congruence.
  - destruct (Z.eqb_spec (p + HEADER * h_size s p) bp); split; intros a; cbn [set_ptr set_size set_freep h_ptr h_size];
      unfold upd; repeat case_decide; congruence.
Qed.

Lemma flist_merge' s l1 x y l2 : flist base top s (l1 ++ x :: y :: l2) → block_end s x = y →
  flist base top (merge x y s) (l1 ++ x :: l2) ∧ h_size s x <= h_size (merge x y s) x ∧ h_size s y <= h_size (merge x y s) x ∧
  ∀ a, free_at (merge x y s) (l1 ++ x :: l2) a ↔ free_at s (l1 ++ x :: y :: l2) a.
Proof.
  intros Hf E. destruct (flist_merge s l1 x y l2 Hf E) as [H1 H2]. split_and!; [done| | |done];
    unfold merge; cbn; rewrite upd_eq, u32_small;
    pose proof (fl_size _ _ _ _ Hf x ltac:(set_solver)); pose proof (fl_size _ _ _ _ Hf y ltac:(set_solver));
    pose proof (fl_top _ _ _ _ Hf y ltac:(set_solver)); pose proof (flist_low _ _ x Hf ltac:(set_solver));
    unfold block_end, HEADER in *; lia.
Qed.

Lemma free_steps_run s l1 p l2 bp : flist base top s (l1 ++ p :: l2) → base < bp → before s p bp → (∀ y, y ∈ l2 → before s bp y) →
  1 <= h_size s bp → block_end s bp <= top →
  ∃ l3, flist base top (free_steps bp p s) (l1 ++ p :: l3) ∧ (length l3 <= S (length l2))%nat ∧
    (∃ x, x ∈ l1 ++ p :: l3 ∧ h_size s bp <= h_size (free_steps bp p s) x) ∧
    (merged s (l1 ++ p :: l2) → merged (free_steps bp p s) (l1 ++ p :: l3)) ∧
    ∀ a, free_at (free_steps bp p s) (l1 ++ p :: l3) a ↔ free_at s (l1 ++ p :: l2) a ∨ bp <= a < block_end s bp.
Proof.
  intros Hf Hb Hp Hl2 Hsz Hend. pose proof (flist_insert s l1 p l2 bp Hf Hb Hp Hl2 Hsz Hend) as Hi.
  pose proof (fl_seg _ _ _ _ Hf) as Hseg. apply seg_app in Hseg as (y&_&->&Hseg). pose proof (seg_hd _ _ _ _ Hseg) as Eq.
  unfold free_steps. set (q := h_ptr s p) in *. set (s1 := set_ptr p bp (set_ptr bp q s)) in *.
  assert (Hcov : ∀ a, free_at s1 (l1 ++ p :: bp :: l2) a ↔ free_at s (l1 ++ p :: l2) a ∨ bp <= a < block_end s bp).
  { intros a. unfold free_at. split.
    - intros (x&Hx&Hr). destruct (decide (x = bp)) as [->|]; [by right|left; exists x; set_solver].
    - intros [(x&Hx&Hr)|Hr]; [exists x|exists bp]; set_solver. }
  set (s2 := if block_end s1 bp =? q then merge bp q s1 else s1).
  assert (Hs2 : ∃ l3, flist base top s2 (l1 ++ p :: bp :: l3) ∧ (length l3 <= length l2)%nat ∧ h_size s bp <= h_size s2 bp ∧
    (merged s (l1 ++ p :: l2) → loose s2 (l1 ++ p :: bp :: l3) (λ a b, a = p ∧ b = bp)) ∧
    ∀ a, free_at s2 (l1 ++ p :: bp :: l3) a ↔ free_at s1 (l1 ++ p :: bp :: l2) a).
  { pose proof (loose_insert s l1 p l2 bp Hf Hp Hl2) as Hlo. fold q s1 in Hlo.
    unfold s2. destruct (Z.eqb_spec (block_end s1 bp) q) as [E|E].
    2: { exists l2. split_and!; try done. intros Hm. eapply loose_mono; [|by apply Hlo]. cbn beta. intros ? ? ? [?|[-> ->]]; done. }
    destruct l2 as [|q' l3]; [unfold block_end, HEADER in *; cbn in E; lia|]. rewrite Eq in *.
    rewrite (cons_middle p l1), app_assoc in Hi. destruct (flist_merge' s1 (l1 ++ [p]) bp q' l3 Hi E) as (H1&H2&_&H3).
    exists l3. rewrite (cons_middle p l1), app_assoc. split_and!; [done|cbn; lia|done| |].
    { intros Hm. specialize (Hlo Hm). rewrite (cons_middle p l1), app_assoc in Hlo.
      eapply loose_mono; [|exact (loose_merge _ _ _ _ _ _ Hi E Hlo)]. destruct Hp as [Hpb _], (Hl2 q' ltac:(set_solver)) as [Hbq _].
      intros a b _ [[Ha [?|[? _]]]|[-> [[? _]|[? _]]]]; [done|congruence|lia|lia]. }
    intros a. rewrite H3. by rewrite <- app_assoc. }
  destruct Hs2 as (l3&Hf2&Hl3&Hbp&Hlo&Hc2). destruct (Z.eqb_spec (block_end s2 p) bp) as [E|E].
  - destruct (flist_merge' s2 l1 p bp l3 Hf2 E) as (H1&_&H2&H3). exists l3. split_and!; [done|lia|exists p; split; [set_solver|lia]| |].
    + intros Hm. eapply loose_mono; [|exact (loose_merge _ _ _ _ _ _ Hf2 E (Hlo Hm))]. destruct Hp as [Hpb _].
      intros a b _ [[Ha [? _]]|[_ [? _]]]; [done|lia].
    + intros a. by rewrite H3, Hc2, Hcov.
  - exists (bp :: l3). split_and!; [done|cbn; lia|exists bp; split; [set_solver|lia]| |].
    { intros Hm. eapply loose_mono; [|exact (Hlo Hm)]. cbn beta. intros a b Hab [-> ->]. done. }
    intros a. by rewrite Hc2, Hcov.
Qed.

(** The place is found from anywhere on the ring. *)
Lemma find_anywhere fuel s l1 p l2 bp : flist base top s (l1 ++ p :: l2) → h_freep s ∈ l1 ++ p :: l2 → base < bp →
  before s p bp → (∀ y, y ∈ l2 → before s bp y) → (2 * length (l1 ++ p :: l2) <= fuel)%nat →
  free_find fuel bp (h_freep s) s = Some p.
Proof.
  intros Hf Hfp Hb Hp Hl2 Hfuel. pose proof (fl_sorted _ _ _ _ Hf) as Hs.
  assert (Hlow : ∀ y, y ∈ l1 ++ p :: l2 → base <= y) by (intros y; by apply (flist_low s)).
  pose proof (fl_seg _ _ _ _ Hf) as Hseg. rewrite !length_app in Hfuel. cbn [length] in Hfuel.
  assert (Hup : ∀ k, (length l1 < k)%nat → free_find k bp base s = Some p) by (intros k Hk; by eapply (find_up s bp p l2 l1)).
  apply elem_of_app in Hfp as [Hin|[->|Hin]%elem_of_cons].
  - apply list_elem_of_split in Hin as (m1&m2&Em). rewrite Em, <- app_assoc in *.
    apply seg_app in Hseg as (y&_&Hseg). cbn [app] in Hseg. pose proof Hseg as [-> _].
    apply (find_up s bp p l2 (h_freep s :: m2)); try done.
    + cbn [app] in Hs. apply sorted_split in Hs as (_&S2&_&S4&_). constructor; [done|by apply Forall_forall].
    + intros y Hy. apply Hlow. set_solver.
    + rewrite !length_app in Hfuel. cbn [length] in *. lia.
  - apply seg_app in Hseg as (y&_&Hseg). pose proof Hseg as [-> _].
    apply (find_up s bp p l2 []); try done; [|intros y Hy; apply Hlow; set_solver|cbn; lia].
    apply sorted_split in Hs as (_&S2&_&S4&_). constructor; [done|by apply Forall_forall].
  - apply list_elem_of_split in Hin as (m1&m2&Em). subst l2. rewrite length_app in Hfuel. cbn [length] in Hfuel.
    apply seg_app in Hseg as (y&_&_&Hseg). apply seg_app in Hseg as (z&_&Hseg). pose proof Hseg as [-> _].
    replace fuel with (length (h_freep s :: m2) + (fuel - length (h_freep s :: m2)))%nat by (cbn [length]; lia).
    rewrite find_round; [apply Hup; cbn [length]; lia|done|done| |].
    + apply sorted_split in Hs as (_&S2&_&_&_). apply sorted_split in S2 as (_&S2&_&S4&_).
      constructor; [done|by apply Forall_forall].
    + intros w Hw. apply Hl2. set_solver.
Qed.

Lemma free_link_frame bp p s a : a ≠ bp → a ≠ p → h_size (free_link bp p s) a = h_size s a.
Proof.
  intros Hb Hp. unfold free_link. do 2 (match goal with |- context [if ?c then _ else _] => destruct c end);
    cbn [set_ptr set_size set_freep h_ptr h_size]; by rewrite ?upd_ne.
Qed.

Lemma u_free_run fuel s L bp : flist base top s L → h_freep s ∈ L → base < bp → apart_from s L bp →
  1 <= h_size s bp → block_end s bp <= top → (2 * length L <= fuel)%nat →
  ∃ s' L', u_free fuel (bp + HEADER) s = Some s' ∧ flist base top s' L' ∧ h_freep s' ∈ L' ∧ (length L' <= S (length L))%nat ∧
    (∃ x, x ∈ L' ∧ h_size s bp <= h_size s' x) ∧ (∀ a, a ∉ L → a ≠ bp → h_size s' a = h_size s a) ∧
    (merged s L → merged s' L') ∧
    ∀ a, free_at s' L' a ↔ free_at s L a ∨ bp <= a < block_end s bp.
Proof.
  intros Hf Hfp Hb Hap Hsz Hend Hfuel. destruct (fl_base _ _ _ _ Hf) as [bs EL].
  assert (Hbase : before s base bp).
  { destruct (Hap base ltac:(rewrite EL; set_solver)) as [|[? _]]; [done|lia]. }
  pose proof (fl_sorted _ _ _ _ Hf) as Hs. rewrite EL in Hs, Hap.
  destruct (place s bs bp base Hs Hbase Hap) as (l1&p&l2&E&Hp&Hl2). rewrite <- EL in *. clear EL. subst L.
  pose proof (find_anywhere fuel s l1 p l2 bp Hf Hfp Hb Hp Hl2 Hfuel) as Hfind.
  pose proof (fl_seg _ _ _ _ Hf) as Hseg. apply seg_app in Hseg as (y&_&->&Hseg). pose proof (seg_hd _ _ _ _ Hseg) as Eq.
  assert (Hqb : h_ptr s p ≠ bp).
  { rewrite Eq. destruct l2 as [|q l2]; [lia|]. destruct (Hl2 q ltac:(set_solver)). lia. }
  assert (Hpb : bp ≠ p) by (destruct Hp; lia).
  assert (Hqp : h_ptr s p = p → block_end s bp ≠ p).
  { intros _. destruct Hp as [? _]. unfold block_end, HEADER in *. lia. }
  pose proof (free_link_steps bp p s Hpb Hqb Hqp) as Hsame.
  destruct (free_steps_run s l1 p l2 bp Hf Hb Hp Hl2 Hsz Hend) as (l3&Hf'&Hlen&(x&Hx&Hsx)&Hm&Hc).
  exists (free_link bp p s), (l1 ++ p :: l3). split_and!.
  - unfold u_free. replace (bp + HEADER - HEADER) with bp by lia. cbn. by rewrite Hfind.
  - by eapply flist_same.
  - cbn. set_solver.
  - rewrite !length_app. cbn [length]. lia.
  - exists x. split; [done|]. by rewrite (proj2 Hsame).
  - intros a Ha Hne. apply free_link_frame; set_solver.
  - intros Hm0. apply (merged_agree (free_steps bp p s)); [|by apply Hm]. intros a _. apply Hsame.
  - intros a. rewrite free_at_same by exact Hsame. apply Hc.
Qed.

(** ** Taking a block off the list *)

(** The predecessor on the ring of a block other than [base]. *)
Lemma ring_pred s L k p : flist base top s L → k ∈ L → h_ptr s k = p → p ≠ base → ∃ l1 l2, L = l1 ++ k :: p :: l2.
Proof.
  intros Hf Hk E Hp. apply list_elem_of_split in Hk as (l1&l2&->). exists l1.
  pose proof (fl_seg _ _ _ _ Hf) as Hseg. apply seg_app in Hseg as (y&_&->&Hseg). apply seg_hd in Hseg.
  destruct l2 as [|q l2]; [congruence|]. exists l2. congruence.
Qed.

Lemma flist_unlink s l1 k p l2 : flist base top s (l1 ++ k :: p :: l2) →
  flist base top (set_ptr k (h_ptr s p) s) (l1 ++ k :: l2).
Proof.
  intros Hf. pose proof (fl_sorted _ _ _ _ Hf) as Hs. apply sorted_split in Hs as (S1&S2&S3&S4&S5).
  apply StronglySorted_inv in S2 as [S2 _].
  assert (N : ∀ a, a ∈ l1 ∨ a ∈ l2 → h_ptr (set_ptr k (h_ptr s p) s) a = h_ptr s a).
  { intros a Ha. cbn. apply upd_ne. destruct Ha as [Ha|Ha]; [destruct (S3 a Ha)|destruct (S4 a ltac:(set_solver))]; lia. }
  split.
  - destruct (fl_base _ _ _ _ Hf) as [l E]. destruct l1 as [|b l1]; cbn in *; injection E as -> _; eauto.
  - pose proof (fl_seg _ _ _ _ Hf) as Hseg. apply seg_app in Hseg as (z&Hs1&->&_&Hs2). apply seg_app. exists k.
    split; [apply (seg_agree s); auto|]. cbn. split; [done|]. rewrite upd_eq. apply (seg_agree s); auto.
  - apply (sorted_agree s); [done|]. apply sorted_split. split_and!; set_solver.
  - intros a Ha. apply (fl_sizes _ _ _ _ Hf). set_solver.
  - intros a Ha. apply (fl_top _ _ _ _ Hf). set_solver.
Qed.

(** A block keeps its front. *)
Lemma flist_shrink s L p n : flist base top s L → p ∈ L → 1 <= n < h_size s p → flist base top (set_size p n s) L.
Proof.
  intros Hf Hp Hn.
  assert (Hs : ∀ a, a ∈ L → h_size (set_size p n s) a <= h_size s a).
  { intros a _. cbn. unfold upd. case_decide; subst; lia. }
  split.
  - apply (fl_base _ _ _ _ Hf).
  - apply (seg_agree s); [done|]. apply (fl_seg _ _ _ _ Hf).
  - pose proof (fl_sorted _ _ _ _ Hf) as H. clear Hf Hp. induction H as [|x l Hl IH Hx]; constructor; [apply IH; set_solver|].
    apply Forall_forall. intros y Hy. rewrite Forall_forall in Hx. destruct (Hx y Hy). split; [done|].
    pose proof (Hs x ltac:(set_solver)). unfold block_end, HEADER in *. lia.
  - intros a Ha. pose proof (fl_sizes _ _ _ _ Hf a Ha). cbn. unfold upd. repeat case_decide; subst; lia.
  - intros a Ha. pose proof (fl_top _ _ _ _ Hf a Ha). pose proof (Hs a Ha). unfold block_end, HEADER in *. lia.
Qed.

(** Different blocks share no address. *)
Lemma free_unique s L x y a : flist base top s L → x ∈ L → y ∈ L → x <= a < block_end s x → y <= a < block_end s y → x = y.
Proof.
  intros Hf Hx Hy Ax Ay. apply list_elem_of_split in Hx as (l1&l2&->). pose proof (fl_sorted _ _ _ _ Hf) as Hs.
  apply sorted_split in Hs as (_&_&S3&S4&_). apply elem_of_app in Hy as [Hy|[Hy|Hy]%elem_of_cons]; [|done|];
    [destruct (S3 y Hy)|destruct (S4 y Hy)]; lia.
Qed.

(** What taking a block promises. *)
Definition taken (nunits : Z) s L (r : Z) s' L' : Prop :=
  flist base top s' L' ∧ h_freep s' ∈ L' ∧ (length L' <= length L)%nat ∧ h_size s' r = nunits ∧ base < r ∧
  (∀ a, r <= a < block_end s' r → free_at s L a) ∧ (∀ a, a ∉ L → a ≠ r → h_size s' a = h_size s a) ∧
  (merged s L → merged s' L') ∧
  ∀ a, free_at s' L' a ↔ free_at s L a ∧ ¬ (r <= a < block_end s' r).

Lemma take_whole s l1 k p l2 : flist base top s (l1 ++ k :: p :: l2) → base < p →
  taken (h_size s p) s (l1 ++ k :: p :: l2) p (set_freep k (set_ptr k (h_ptr s p) s)) (l1 ++ k :: l2).
Proof.
  intros Hf Hb. split_and!; try done.
  - by eapply flist_same, (flist_unlink s l1 k p l2 Hf).
  - cbn. set_solver.
  - rewrite !length_app. cbn. lia.
  - intros a Ha. exists p. set_solver.
  - intros Hm x y Hx Hy. apply Hm; set_solver.
  - intros a. split.
    + intros (x&Hx&Ha). split; [exists x; set_solver|]. intros Hap.
      assert (x = p) as -> by (eapply (free_unique s); [exact Hf|set_solver..|done|done]).
      pose proof (fl_sorted _ _ _ _ Hf) as Hs. rewrite (cons_middle k l1), app_assoc in Hs.
      apply sorted_split in Hs as (_&_&S3&S4&_). assert (p ∈ l1 ++ [k] ∨ p ∈ l2) as [Hin|Hin] by set_solver;
        [destruct (S3 p Hin)|destruct (S4 p Hin)]; lia.
    + intros [(x&Hx&Ha) Hap]. exists x. split; [|done]. assert (x ≠ p) by (intros ->; by apply Hap). set_solver.
Qed.

Lemma take_tail nunits s L k p : flist base top s L → k ∈ L → p ∈ L → base < p → 1 <= nunits < h_size s p →
  let n := h_size s p - nunits in let r := p + HEADER * n in
  taken nunits s L r (set_freep k (set_size r nunits (set_size p n s))) L.
Proof.
  intros Hf Hk Hp Hb Hn n r. set (s' := set_freep k (set_size r nunits (set_size p n s))).
  assert (Hrp : p < r ∧ r + HEADER * nunits = block_end s p) by (subst r n; unfold block_end, HEADER; lia).
  destruct Hrp as [Hrp Hre].
  assert (Hr : r ∉ L).
  { intros Hr. pose proof (fl_sizes _ _ _ _ Hf r Hr) as Hs. rewrite decide_False in Hs by lia.
    assert (p = r) by (apply (free_unique s L p r r Hf); unfold block_end, HEADER in *; lia || done). lia. }
  assert (Er : h_size s' r = nunits) by (cbn; apply upd_eq).
  assert (Ep : block_end s' p = r) by (unfold block_end; cbn; rewrite upd_ne, upd_eq by lia; done).
  assert (Ex : ∀ a, a ≠ p → a ≠ r → h_size s' a = h_size s a) by (intros; cbn; by rewrite !upd_ne).
  assert (Hend : block_end s' r = block_end s p) by (unfold block_end at 1; by rewrite Er).
  assert (Hsub : ∀ x, x ∈ L → x ≠ p → block_end s' x = block_end s x).
  { intros x Hx Hne. unfold block_end. rewrite Ex by set_solver. done. }
  split_and!; try done.
  - eapply (flist_agree (set_size p n s)), flist_shrink; [|done|done|lia].
    intros a Ha. split; [done|]. cbn. apply upd_ne. set_solver.
  - lia.
  - rewrite Hend. intros a Ha. exists p. split; [done|lia].
  - intros a Ha Hne. apply Ex; set_solver.
  - intros Hm x y Hx Hy Hxy Exy. destruct (decide (x = p)) as [->|Hne]; [rewrite Ep in Exy; set_solver|].
    rewrite Hsub in Exy by done. by apply (Hm x y).
  - intros a. rewrite Hend. split.
    + intros (x&Hx&Ha). destruct (decide (x = p)) as [->|Hne]; [rewrite Ep in Ha; split; [exists p; split; [done|unfold HEADER in *; lia]|lia]|].
      rewrite Hsub in Ha by done. split; [by exists x|]. intros Har. apply Hne. apply (free_unique s L x p a Hf Hx Hp Ha). lia.
    + intros [(x&Hx&Ha) Har]. exists x. split; [done|]. destruct (decide (x = p)) as [->|Hne]; [lia|]. by rewrite Hsub.
Qed.

Lemma malloc_take_run nunits s L k p : flist base top s L → k ∈ L → h_ptr s k = p → p ∈ L → 1 <= nunits <= h_size s p →
  ∃ r s' L', malloc_take nunits k p s = (r + HEADER, s') ∧ taken nunits s L r s' L'.
Proof.
  intros Hf Hk Ek Hp Hn. pose proof (fl_sizes _ _ _ _ Hf p Hp) as Hsp. case_decide as Hpb; [lia|].
  pose proof (flist_low _ _ p Hf Hp) as Hlow. pose proof (fl_top _ _ _ _ Hf p Hp) as Htp.
  unfold malloc_take. destruct (Z.eqb_spec (h_size s p) nunits) as [<-|E].
  - destruct (ring_pred s L k p Hf Hk Ek Hpb) as (l1&l2&->). do 3 eexists. split; [done|]. apply take_whole; [done|lia].
  - rewrite u32_small by (unfold block_end, HEADER in *; lia). cbn [set_size h_size]. rewrite upd_eq. do 3 eexists.
    split; [done|]. apply take_tail; try done; lia.
Qed.
End List.
