(* ===== verification/UmallocRun.v ===== *)
(** * malloc and free keep the heap of a program

    [heap] is what a program may rely on between its calls: the free list is a
    ring, the live blocks are apart from it and from each other and their
    headers are intact.  [malloc] adds one live block that is large enough, or
    answers 0; [free] removes one.  What the program writes into its blocks
    changes nothing of this. *)

From stdpp Require Import sorting.
From S2P Require Import Prelude Memory Params CString BioSpec User Umalloc UmallocSpec.

Implicit Types (s : hst) (L l : list Z) (A : gset Z).

(** ** What sbrk promises

    The kernel's [sys_sbrk]: the old break when the memory grows, or -1. *)
Class Sbrk {W : Type} (w : world W) (brk : W → Z) (lim : Z) : Prop :=
  sbrk_grows : ∀ n σ, 0 <= n →
    let '(x, σ') := answer w (RSbrk n) σ in
    (x = -1 ∧ brk σ' = brk σ) ∨ (x = brk σ ∧ brk σ' = brk σ + n ∧ brk σ' <= lim).

(** A break below a limit. *)
Definition heap_answer (lim : Z) (X : Set) (r : sysreq X) : Z → X * Z :=
  match r in sysreq X return Z → X * Z with
  | RSbrk n => λ b, if b + n <=? lim then (b, b + n) else (-1, b)
  | r => λ b, (fst (stream_answer (λ _ _, 1%nat) _ r (mk_stream [] [])), b)
  end.

Definition heap_world (lim : Z) : world Z := mk_world _ (heap_answer lim).

#[export] Instance heap_world_sbrk lim : Sbrk (heap_world lim) id lim.
Proof. intros n b Hn. cbn. destruct (Z.leb_spec (b + n) lim); [right|left]; auto. Qed.

(** ** The heap *)

Record heap (base top : Z) s L A : Prop := {
  hp_list : flist base top s L;
  hp_freep : h_freep s ∈ L;
  hp_live : ∀ p, p ∈ A → base < p ∧ 1 <= h_size s p ∧ block_end s p <= top ∧ ∀ a, p <= a < block_end s p → ¬ free_at s L a;
  hp_apart : ∀ p q, p ∈ A → q ∈ A → p ≠ q → before s p q ∨ before s q p;
}.

(** Blocks without a common address. *)
Lemma apart_intro s p q : 1 <= h_size s p → 1 <= h_size s q →
  (∀ a, p <= a < block_end s p → q <= a < block_end s q → False) → before s p q ∨ before s q p.
Proof.
  intros Hp Hq H. unfold before. destruct (decide (block_end s p <= q)); [left; unfold block_end, HEADER in *; lia|].
  destruct (decide (block_end s q <= p)); [right; unfold block_end, HEADER in *; lia|].
  exfalso. apply (H (Z.max p q)); unfold block_end, HEADER in *; lia.
Qed.

Section Heap.
Context {base : Z} (Hbase : 0 < base).

Lemma live_apart top s L A p : heap base top s L A → p ∈ A → apart_from s L p ∧ p ∉ L.
Proof.
  intros H Hp. destruct (hp_live _ _ _ _ _ H p Hp) as (Hb&Hs&Ht&Hn). pose proof (hp_list _ _ _ _ _ H) as Hf. split.
  - intros x Hx. pose proof (fl_sizes _ _ _ _ Hf x Hx) as Hsx. case_decide as E.
    + left. unfold before, block_end. rewrite Hsx. lia.
    + apply apart_intro; [done|done|]. intros a Ha Hpa. apply (Hn a Hpa). by exists x.
  - intros Hx. apply (Hn p); [unfold block_end, HEADER; lia|]. exists p. split; [done|]. unfold block_end, HEADER. lia.
Qed.

(** Only the headers of the free list and of the live blocks count. *)
Lemma heap_agree top s s' L A : h_freep s' = h_freep s → (∀ a, a ∈ L → h_ptr s' a = h_ptr s a) →
  (∀ a, a ∈ L ∨ a ∈ A → h_size s' a = h_size s a) → heap base top s L A → heap base top s' L A.
Proof.
  intros Hfp Hp Hs [H1 H2 H3 H4].
  assert (Hfree : ∀ a, free_at s' L a → free_at s L a).
  { intros a (x&Hx&Ha). exists x. split; [done|]. unfold block_end in *. rewrite Hs in Ha by auto. done. }
  split.
  - apply (flist_agree s); [|done]. auto.
  - by rewrite Hfp.
  - intros p HA. destruct (H3 p HA) as (?&?&?&Hn). unfold block_end in *. rewrite Hs by auto. split_and!; try done.
    intros a Ha Hf. by apply (Hn a Ha), Hfree.
  - intros p q HA HB Hne. unfold before, block_end. rewrite !Hs by auto. by apply H4.
Qed.

Lemma heap_taken top n s L A r s' L' : heap base top s L A → taken (base := base) (top := top) n s L r s' L' → 1 <= n →
  heap base top s' L' ({[r]} ∪ A) ∧ r ∉ A ∧ ∀ q, q ∈ A → h_size s' q = h_size s q.
Proof.
  intros H (Hf&Hfp&_&Hr&Hbr&Hsub&Hsame&_&Hfree) Hn. pose proof (hp_list _ _ _ _ _ H) as Hf0.
  assert (Hend : r < block_end s' r) by (unfold block_end, HEADER; lia).
  assert (HrA : r ∉ A).
  { intros HA. destruct (hp_live _ _ _ _ _ H r HA) as (_&Hs&_&Hno). apply (Hno r); [unfold block_end, HEADER; lia|]. apply Hsub. lia. }
  assert (Hsz : ∀ q, q ∈ A → h_size s' q = h_size s q).
  { intros q Hq. apply Hsame; [by eapply live_apart|set_solver]. }
  assert (Hap : ∀ q, q ∈ A → before s' r q ∨ before s' q r).
  { intros q Hq. destruct (hp_live _ _ _ _ _ H q Hq) as (_&Hs&_&Hno). apply apart_intro; [lia|by rewrite Hsz|].
    intros a Har Haq. apply (Hno a); [unfold block_end in *; by rewrite Hsz in Haq|auto]. }
  split_and!; [|done|done]. split; [done|done| |].
  - intros p [->%elem_of_singleton|Hp]%elem_of_union.
    + split_and!; [done|lia| |intros a Ha Hin; by apply Hfree in Hin as [_ ?]].
      destruct (Hsub (block_end s' r - 1) ltac:(lia)) as (x&Hx&Hax). pose proof (fl_top _ _ _ _ Hf0 x Hx). lia.
    + destruct (hp_live _ _ _ _ _ H p Hp) as (?&?&?&Hno). unfold block_end in *. rewrite Hsz by done. split_and!; try done.
      intros a Ha Hin. apply (Hno a Ha). by apply Hfree in Hin as [? _].
  - intros p q [->%elem_of_singleton|Hp]%elem_of_union [->%elem_of_singleton|Hq]%elem_of_union Hne; [done|by apply Hap| |].
    + destruct (Hap p Hp); auto.
    + unfold before, block_end. rewrite !Hsz by done. by apply (hp_apart _ _ _ _ _ H).
Qed.

(** [free] of a live block. *)
Lemma heap_free top fuel s L A p : top < base + HEADER * 2 ^ 32 → heap base top s L A → p ∈ A → (2 * length L <= fuel)%nat →
  ∃ s' L', u_free fuel (p + HEADER) s = Some s' ∧ heap base top s' L' (A ∖ {[p]}) ∧ (length L' <= S (length L))%nat ∧
    (∃ x, x ∈ L' ∧ h_size s p <= h_size s' x) ∧ (∀ q, q ∈ A ∖ {[p]} → h_size s' q = h_size s q) ∧
    (merged s L → merged s' L') ∧
    ∀ a, free_at s' L' a ↔ free_at s L a ∨ p <= a < block_end s p.
Proof.
  intros Htop H Hp Hfuel. destruct (live_apart _ _ _ _ _ H Hp) as [Hap HpL]. destruct (hp_live _ _ _ _ _ H p Hp) as (Hb&Hs&Ht&Hn).
  destruct (u_free_run (conj Hbase Htop) fuel s L p (hp_list _ _ _ _ _ H) (hp_freep _ _ _ _ _ H) Hb Hap Hs Ht Hfuel)
    as (s'&L'&E&Hf'&Hfp'&Hlen&Hx&Hsame&Hmg&Hfree).
  assert (Hsz : ∀ q, q ∈ A ∖ {[p]} → h_size s' q = h_size s q).
  { intros q Hq. apply Hsame; [|set_solver]. eapply (live_apart _ _ _ _ q H). set_solver. }
  exists s', L'. split_and!; try done. split; [done|done| |].
  - intros q Hq. destruct (hp_live _ _ _ _ _ H q ltac:(set_solver)) as (?&?&?&Hno). unfold block_end in *. rewrite Hsz by done.
    split_and!; try done. intros a Ha Hin. apply Hfree in Hin as [Hin|Hin]; [by apply (Hno a)|].
    destruct (hp_apart _ _ _ _ _ H p q Hp ltac:(set_solver) ltac:(set_solver)) as [[??]|[??]]; unfold block_end in *; lia.
  - intros q1 q2 H1 H2 Hne. unfold before, block_end. rewrite !Hsz by done. apply (hp_apart _ _ _ _ _ H); set_solver.
Qed.

(** Memory from [sbrk] is a live block of [morecore]. *)
Lemma heap_grow top n s L A : base < top → heap base top s L A → 1 <= n →
  heap base (top + HEADER * n) (set_size top n s) L ({[top]} ∪ A) ∧ top ∉ A ∧ top ∉ L.
Proof.
  intros Hbt H Hn. pose proof (hp_list _ _ _ _ _ H) as Hf. unfold HEADER in *.
  assert (HL : ∀ x, x ∈ L → x < top ∧ block_end s x <= top).
  { intros x Hx. pose proof (fl_top _ _ _ _ Hf x Hx). pose proof (fl_sizes _ _ _ _ Hf x Hx). case_decide; [lia|].
    unfold block_end, HEADER in *. lia. }
  assert (HA : ∀ p, p ∈ A → p < top ∧ block_end s p <= top).
  { intros p Hp. destruct (hp_live _ _ _ _ _ H p Hp) as (_&?&?&_). unfold block_end, HEADER in *. lia. }
  assert (Hne : ∀ a, a ∈ L ∨ a ∈ A → a ≠ top) by (intros a [Ha|Ha]; [destruct (HL a Ha)|destruct (HA a Ha)]; lia).
  split_and!; [|intros Hin; by apply (Hne top); auto|intros Hin; by apply (Hne top); auto].
  assert (H1 : heap base top (set_size top n s) L A).
  { apply (heap_agree top s); [done|done| |exact H]. intros a Ha. cbn. apply upd_ne. auto. }
  clear H Hf. pose proof (hp_list _ _ _ _ _ H1) as Hf.
  assert (Et : block_end (set_size top n s) top = top + 16 * n) by (unfold block_end, HEADER; cbn; by rewrite upd_eq).
  split; [|apply (hp_freep _ _ _ _ _ H1)| |].
  - destruct Hf as [F1 F2 F3 F4 F5]. split; try done. intros x Hx. specialize (F5 x Hx). lia.
  - intros p [->%elem_of_singleton|Hp]%elem_of_union.
    + split_and!; [done|cbn; by rewrite upd_eq|by rewrite Et|].
      intros a Ha (x&Hx&Hax). pose proof (fl_top _ _ _ _ Hf x Hx). lia.
    + destruct (hp_live _ _ _ _ _ H1 p Hp) as (?&?&?&?). split_and!; try done. lia.
  - assert (Hb : ∀ q, q ∈ A → before (set_size top n s) q top).
    { intros q Hq. destruct (HA q Hq), (hp_live _ _ _ _ _ H1 q Hq) as (_&_&?&_). by split. }
    intros p q [->%elem_of_singleton|Hp]%elem_of_union [->%elem_of_singleton|Hq]%elem_of_union Hpq; [done|auto..|].
    by apply (hp_apart _ _ _ _ _ H1).
Qed.

(** ** The loop of malloc *)

Lemma malloc_walk s n r1 f r2 y fuel : ∀ prev x, seg s x (r1 ++ f :: r2) y → h_ptr s prev = x →
  (∀ k, k ∈ r1 → h_size s k < n ∧ k ≠ h_freep s) →
  ∃ k, h_ptr s k = f ∧ (k = prev ∨ k ∈ r1) ∧ malloc_loop (length r1 + fuel) n prev x s = malloc_loop fuel n k f s.
Proof.
  induction r1 as [|a r1 IH]; intros prev x Hseg Hx Hr; cbn [length Nat.add app] in *; destruct Hseg as [-> Hseg].
  - exists prev. auto.
  - destruct (IH a _ Hseg eq_refl ltac:(set_solver)) as (k&Hk&Hin&E). destruct (Hr a ltac:(set_solver)) as [Hs Hne].
    exists k. split_and!; [done|set_solver|]. cbn [malloc_loop].
    rewrite (proj2 (Z.leb_gt n (h_size s a))), (proj2 (Z.eqb_neq a (h_freep s))) by done. exact E.
Qed.

Lemma first_fit s n l : (∀ k, k ∈ l → h_size s k < n) ∨
  ∃ l1 f l2, l = l1 ++ f :: l2 ∧ (∀ k, k ∈ l1 → h_size s k < n) ∧ n <= h_size s f.
Proof.
  induction l as [|a l IH]; [left; set_solver|]. destruct (decide (n <= h_size s a)); [right; exists [], a, l; set_solver|].
  destruct IH as [IH|(l1&f&l2&->&Hl&Hf)]; [left|right; exists (a :: l1), f, l2; split_and!; try done];
    intros k [->|Hk]%elem_of_cons; auto; lia.
Qed.

(** The ring from the successor of [freep] on: [freep] comes last. *)
Lemma free_ring top s L : flist base top s L → h_freep s ∈ L →
  ∃ R, seg s (h_ptr s (h_freep s)) (R ++ [h_freep s]) (h_ptr s (h_freep s)) ∧ L ≡ₚ R ++ [h_freep s] ∧ h_freep s ∉ R.
Proof.
  intros Hf Hfp. apply list_elem_of_split in Hfp as (l1&l2&->). exists (l2 ++ l1).
  pose proof (fl_seg _ _ _ _ Hf) as Hseg. apply seg_app in Hseg as (y&H1&E&H2). subst y.
  pose proof (fl_sorted _ _ _ _ Hf) as Hs. apply sorted_split in Hs as (_&_&S3&S4&_). split_and!.
  - rewrite <- app_assoc. apply seg_app. exists base. split; [done|]. apply seg_app. by exists (h_freep s).
  - rewrite <- Permutation_middle, <- Permutation_cons_append. by rewrite (Permutation_app_comm l1).
  - intros [Hin|Hin]%elem_of_app; [destruct (S4 _ Hin)|destruct (S3 _ Hin)]; lia.
Qed.

Lemma scan_fit top s L n fuel : flist base top s L → h_freep s ∈ L → (∃ x, x ∈ L ∧ n <= h_size s x) → (length L <= fuel)%nat →
  ∃ k p, k ∈ L ∧ p ∈ L ∧ h_ptr s k = p ∧ n <= h_size s p ∧
    malloc_loop fuel n (h_freep s) (h_ptr s (h_freep s)) s = mret (malloc_take n k p s).
Proof.
  intros Hf Hfp (x&Hx&Hn) Hfuel. destruct (free_ring top s L Hf Hfp) as (R&Hseg&HP&HnR).
  destruct (first_fit s n (R ++ [h_freep s])) as [Hno|(r1&f&r2&E&Hr1&Hfit)].
  { rewrite HP in Hx. specialize (Hno x Hx). lia. }
  rewrite HP in Hfuel. rewrite E in Hseg, Hfuel, HP. rewrite length_app in Hfuel. cbn [length] in Hfuel.
  assert (Hr : ∀ k, k ∈ r1 → h_size s k < n ∧ k ≠ h_freep s).
  { intros k Hk. split; [auto|]. intros ->. destruct r2 as [|a r2 _] using rev_ind.
    - apply app_inj_tail in E as [<- _]. done.
    - rewrite app_comm_cons, app_assoc in E. apply app_inj_tail in E as [-> _]. set_solver. }
  destruct (malloc_walk s n r1 f r2 _ (fuel - length r1) _ _ Hseg eq_refl Hr) as (k&Hk&Hin&El).
  exists k, f. split_and!; [|rewrite HP; set_solver|done|done|].
  - destruct Hin as [->|Hin]; [done|]. rewrite HP. set_solver.
  - replace fuel with (length r1 + (fuel - length r1))%nat by lia. rewrite El.
    destruct (fuel - length r1)%nat eqn:Ef; [lia|]. cbn [malloc_loop]. by rewrite (proj2 (Z.leb_le n (h_size s f))).
Qed.

Lemma scan_none top s L n fuel : flist base top s L → h_freep s ∈ L → (∀ x, x ∈ L → h_size s x < n) → (length L <= fuel)%nat →
  malloc_loop fuel n (h_freep s) (h_ptr s (h_freep s)) s =
    (r ← morecore (fuel - length L) n s;
     if r.1 =? 0 then mret (0, r.2) else malloc_loop (fuel - length L) n r.1 (h_ptr r.2 r.1) r.2).
Proof.
  intros Hf Hfp Hno Hfuel. destruct (free_ring top s L Hf Hfp) as (R&Hseg&HP&HnR).
  assert (Hr : ∀ k, k ∈ R → h_size s k < n ∧ k ≠ h_freep s).
  { intros k Hk. split; [apply Hno; rewrite HP; set_solver|set_solver]. }
  assert (EL : length L = (length R + 1)%nat) by (rewrite HP, length_app; done). rewrite EL in *.
  destruct (malloc_walk s n R _ [] _ (S (fuel - (length R + 1))) _ _ Hseg eq_refl Hr) as (k&_&_&El).
  replace fuel with (length R + S (fuel - (length R + 1)))%nat at 1 by lia. rewrite El. cbn [malloc_loop].
  rewrite (proj2 (Z.leb_gt n (h_size s (h_freep s)))) by (apply Hno; rewrite HP; set_solver). rewrite Z.eqb_refl.
  done.
Qed.

(** ** malloc *)

Section Malloc.
Context {W : Type} (w : world W) (brk : W → Z) (lim : Z) {HS : Sbrk w brk lim}.
Context (Hlim : lim < base + HEADER * 2 ^ 32).

(** A new live block of [n] headers. *)
Definition got_block (n top : Z) s L A (r : Z) s' : Prop :=
  ∃ p L', r = p + HEADER ∧ heap base top s' L' ({[p]} ∪ A) ∧ p ∉ A ∧ h_size s' p = n ∧
    (∀ q, q ∈ A → h_size s' q = h_size s q) ∧ (length L' <= length L)%nat ∧ (merged s L → merged s' L').

Lemma loop_fit top s L A n fuel σ : top <= lim → heap base top s L A → 1 <= n → (∃ x, x ∈ L ∧ n <= h_size s x) →
  (length L <= fuel)%nat →
  ∃ r s', urun w (malloc_loop fuel n (h_freep s) (h_ptr s (h_freep s)) s) σ = (Returned (r, s'), σ) ∧ got_block n top s L A r s'.
Proof.
  intros Ht H Hn Hx Hfuel. pose proof (hp_list _ _ _ _ _ H) as Hf. pose proof (hp_freep _ _ _ _ _ H) as Hfp.
  destruct (scan_fit top s L n fuel Hf Hfp Hx Hfuel) as (k&p&Hk&Hp&Ek&Hnp&E).
  assert (Htop : 0 < base ∧ top < base + HEADER * 2 ^ 32) by lia.
  destruct (malloc_take_run Htop n s L k p Hf Hk Ek Hp (conj Hn Hnp)) as (r&s'&L'&Et&HT).
  destruct (heap_taken top n s L A r s' L' H HT Hn) as (H'&HrA&Hsz). destruct HT as (_&_&Hlen&Hr&_&_&_&Hmg&_).
  exists (r + HEADER), s'. rewrite E, Et. split; [done|]. exists r, L'. split_and!; done.
Qed.

(** [sbrk] refuses the memory that [morecore] asks for. *)
Definition refused (n : Z) (σ : W) : Prop := fst (answer w (RSbrk (HEADER * Z.max n 4096)) σ) = -1.

(** The memory of [morecore] is large enough for the request that asked for it. *)
Lemma morecore_run s L A n fuel σ : base < brk σ <= lim → heap base (brk σ) s L A → 1 <= n < 2 ^ 27 →
  (2 * length L <= fuel)%nat →
  (∃ σ', urun w (morecore fuel n s) σ = (Returned (0, s), σ') ∧ brk σ' = brk σ ∧ refused n σ) ∨
  ∃ s' L' σ', urun w (morecore fuel n s) σ = (Returned (h_freep s', s'), σ') ∧ brk σ <= brk σ' <= lim ∧
    heap base (brk σ') s' L' A ∧ (length L' <= S (length L))%nat ∧ (∃ x, x ∈ L' ∧ n <= h_size s' x) ∧
    (∀ q, q ∈ A → h_size s' q = h_size s q) ∧ (merged s L → merged s' L').
Proof.
  intros Hb H Hn Hfuel. unfold morecore. set (nu := if n <? 4096 then 4096 else n).
  assert (Hmax : Z.max n 4096 = nu) by (unfold nu; destruct (Z.ltb_spec n 4096); lia).
  assert (Hnu : n <= nu < 2 ^ 27) by lia. unfold refused. rewrite Hmax. clearbody nu.
  replace (i32 (nu * HEADER)) with (HEADER * nu) by (rewrite Z.mul_comm; symmetry; apply i32_small; unfold HEADER; lia).
  rewrite urun_bind. unfold u_sbrk. rewrite urun_call. pose proof (sbrk_grows (HEADER * nu) σ ltac:(unfold HEADER; lia)) as HSb.
  destruct (answer w (RSbrk (HEADER * nu)) σ) as [x σ']. cbn [fst snd].
  destruct HSb as [[-> Hbk]|(->&Hbk&Hle)]; [left; exists σ'; done|right].
  rewrite (proj2 (Z.eqb_neq (brk σ) (-1))) by lia.
  destruct (heap_grow (brk σ) nu s L A ltac:(lia) H ltac:(lia)) as (Hg&HnA&HnL).
  destruct (heap_free (brk σ + HEADER * nu) fuel _ L _ (brk σ) ltac:(lia) Hg ltac:(set_solver) Hfuel)
    as (s'&L'&E&H'&Hlen&(y&Hy&Hsy)&Hsz&Hmg&_).
  rewrite E. exists s', L', σ'. cbn [set_size h_size] in Hsy, Hsz. rewrite upd_eq in Hsy.
  replace (({[brk σ]} ∪ A) ∖ {[brk σ]}) with A in * by set_solver. rewrite Hbk. split_and!; try done.
  - unfold HEADER. lia.
  - lia.
  - exists y. split; [done|lia].
  - intros q Hq. rewrite Hsz by done. apply upd_ne. set_solver.
  - intros Hm. apply Hmg, (merged_agree s); [|done]. intros a Ha. cbn. apply upd_ne. set_solver.
Qed.

Lemma loop_run s L A n fuel σ : base < brk σ <= lim → heap base (brk σ) s L A → 1 <= n < 2 ^ 27 → (3 * length L + 1 <= fuel)%nat →
  ∃ r s' σ', urun w (malloc_loop fuel n (h_freep s) (h_ptr s (h_freep s)) s) σ = (Returned (r, s'), σ') ∧ brk σ <= brk σ' <= lim ∧
    ((r = 0 ∧ s' = s ∧ brk σ' = brk σ ∧ refused n σ ∧ ∀ x, x ∈ L → h_size s x < n) ∨
     ∃ s1 L1, got_block n (brk σ') s1 L1 A r s' ∧ (length L1 <= S (length L))%nat ∧
       (∀ q, q ∈ A → h_size s1 q = h_size s q) ∧ (merged s L → merged s1 L1)).
Proof.
  intros Hb H Hn Hfuel. pose proof (hp_list _ _ _ _ _ H) as Hf. pose proof (hp_freep _ _ _ _ _ H) as Hfp.
  destruct (first_fit s n L) as [Hno|(l1&f&l2&EL&_&Hfit)].
  - rewrite (scan_none (brk σ) s L n fuel Hf Hfp Hno) by lia. rewrite urun_bind.
    destruct (morecore_run s L A n (fuel - length L) σ Hb H Hn ltac:(lia)) as [(σ'&E&Hbk&Href)|(s'&L'&σ'&E&Hbk&H'&Hlen&Hx&Hsz&Hmg)]; rewrite E; cbn [fst snd].
    + exists 0, s, σ'. cbn. split_and!; [done|lia..|]. left. auto.
    + assert (Hz : h_freep s' ≠ 0).
      { pose proof (flist_low (top := brk σ') _ _ _ (hp_list _ _ _ _ _ H') (hp_freep _ _ _ _ _ H')). lia. }
      rewrite (proj2 (Z.eqb_neq (h_freep s') 0)) by done.
      destruct (loop_fit (brk σ') s' L' A n (fuel - length L) σ' ltac:(lia) H' ltac:(lia) Hx ltac:(lia)) as (r&s2&E2&HG).
      exists r, s2, σ'. split_and!; [done|lia..|]. right. by exists s', L'.
  - destruct (loop_fit (brk σ) s L A n fuel σ ltac:(lia) H ltac:(lia) ltac:(exists f; set_solver) ltac:(lia)) as (r&s'&E&HG).
    exists r, s', σ. split_and!; [done|lia..|]. right. exists s, L. split_and!; [done|lia|done|done].
Qed.

(** Before the first call of [malloc], [freep] is 0 and no block is live. *)
Definition started (top : Z) s L A : Prop := (h_freep s = 0 ∧ L = [base] ∧ A = ∅) ∨ heap base top s L A.

Definition malloc_init s : hst := set_size base 0 (set_freep base (set_ptr base base s)).

Lemma heap_init top s : base <= top → heap base top (malloc_init s) [base] ∅.
Proof.
  intros Ht. assert (E : h_size (malloc_init s) base = 0) by (cbn; apply upd_eq). split; [|set_solver..]. split.
  - eauto.
  - cbn. split; [done|]. apply upd_eq.
  - repeat constructor.
  - intros x ->%list_elem_of_singleton. by rewrite decide_True.
  - intros x ->%list_elem_of_singleton. unfold block_end. rewrite E. lia.
Qed.

Lemma units nbytes : let u := (nbytes + 15) / 16 in nbytes <= 16 * u < nbytes + 16.
Proof. cbn zeta. pose proof (Z.div_mod (nbytes + 15) 16). pose proof (Z.mod_pos_bound (nbytes + 15) 16). lia. Qed.

Lemma malloc_loops top s L A nbytes fuel : base <= top → started top s L A → 0 <= nbytes < 2 ^ 32 →
  ∃ s1, heap base top s1 L A ∧ (∀ q, q ∈ A → h_size s1 q = h_size s q) ∧ (merged s L ∨ h_freep s = 0 → merged s1 L) ∧
    malloc base fuel nbytes s = malloc_loop fuel ((nbytes + 15) / 16 + 1) (h_freep s1) (h_ptr s1 (h_freep s1)) s1.
Proof.
  intros Ht Hst Hn. unfold malloc. replace (nbytes + HEADER - 1) with (nbytes + 15) by (unfold HEADER; lia).
  pose proof (units nbytes) as Hu. cbn zeta in Hu. unfold HEADER. rewrite u32_small by lia. destruct Hst as [(E&->&->)|H].
  - exists (malloc_init s). split_and!; [by apply heap_init|set_solver| |by rewrite E].
    intros _ x y ->%list_elem_of_singleton ->%list_elem_of_singleton. lia.
  - pose proof (flist_low (top := top) _ _ _ (hp_list _ _ _ _ _ H) (hp_freep _ _ _ _ _ H)).
    exists s. split_and!; [done|done|intros [?|?]; [done|lia]|].
    by rewrite (proj2 (Z.eqb_neq (h_freep s) 0)) by lia.
Qed.

(** C20: [malloc] returns.  Either no free block is large enough and [sbrk]
    refuses, it answers 0 and the free list and the live blocks are as before; or
    it answers the address behind the header of a block that was not live, that is as large as asked for, rounded up to headers, and that overlaps
    neither another live block nor the free memory.  The ring of the free blocks
    and the headers of the other live blocks are kept, so the next call may rely
    on the same; if no two free blocks touch, it stays so. *)
Theorem malloc_gets s L A nbytes fuel σ : base < brk σ <= lim → started (brk σ) s L A → 0 <= nbytes <= 2 ^ 31 - 32 →
  (3 * length L + 1 <= fuel)%nat →
  ∃ r s' L' σ', urun w (malloc base fuel nbytes s) σ = (Returned (r, s'), σ') ∧ brk σ <= brk σ' <= lim ∧
    (length L' <= S (length L))%nat ∧ (∀ q, q ∈ A → h_size s' q = h_size s q) ∧
    (merged s L ∨ h_freep s = 0 → merged s' L') ∧
    ((r = 0 ∧ heap base (brk σ') s' L' A ∧ L' = L ∧ refused ((nbytes + 15) / 16 + 1) σ ∧
      ∀ x, x ∈ L → HEADER * h_size s' x < nbytes + HEADER) ∨
     ∃ p, r = p + HEADER ∧ p ∉ A ∧ heap base (brk σ') s' L' ({[p]} ∪ A) ∧ nbytes <= HEADER * (h_size s' p - 1) < nbytes + HEADER).
Proof.
  intros Hb Hst Hn Hfuel. destruct (malloc_loops (brk σ) s L A nbytes fuel ltac:(lia) Hst ltac:(lia)) as (s1&H&Hs1&Hm1&->).
  pose proof (units nbytes) as Hun. cbn zeta in Hun. assert (Hu : 1 <= (nbytes + 15) / 16 + 1 < 2 ^ 27) by lia.
  destruct (loop_run s1 L A _ fuel σ Hb H Hu Hfuel)
    as (r&s'&σ'&E&Hbk&[(->&->&Ebk&Href&Hno)|(s2&L1&(p&L'&->&H'&HnA&Hsz&Hq&Hlen&Hmg)&Hl1&Hs2&Hm2)]).
  - exists 0, s1, L, σ'. rewrite E, Ebk. split_and!; [done|lia..|done|done|]. left. split_and!; try done.
    intros x Hx. specialize (Hno x Hx). unfold HEADER. lia.
  - exists (p + HEADER), s', L', σ'. split_and!; [done|lia..| |auto|].
    + intros q HqA. rewrite Hq, Hs2 by done. auto.
    + right. exists p. split_and!; try done; rewrite Hsz; unfold HEADER; lia.
Qed.
End Malloc.

(** C21: [free] of a live block returns.  The memory of the block, and nothing
    else, joins the free memory; the free list stays a ring in the order of the
    addresses; the block is merged with the free blocks that it touches, so that if
    no two free blocks touched before, none do afterwards; the other live blocks
    keep their headers and overlap neither each other nor the free memory. *)
Theorem free_releases top fuel s L A p : top < base + HEADER * 2 ^ 32 → heap base top s L A → p ∈ A → (2 * length L <= fuel)%nat →
  ∃ s' L', u_free fuel (p + HEADER) s = Some s' ∧ heap base top s' L' (A ∖ {[p]}) ∧ (length L' <= S (length L))%nat ∧
    (∀ q, q ∈ A ∖ {[p]} → h_size s' q = h_size s q) ∧ (merged s L → merged s' L') ∧
    ∀ a, free_at s' L' a ↔ free_at s L a ∨ p <= a < block_end s p.
Proof.
  intros Ht H Hp Hf. destruct (heap_free top fuel s L A p Ht H Hp Hf) as (s'&L'&E&H'&Hlen&_&Hsz&Hmg&Hfree). exists s', L'. done.
Qed.
End Heap.

(** ** At work *)

(** The memory of a program that has not called [malloc]. *)
Definition no_heap : hst := mk_hst (λ _, 0) (λ _, 0) 0.

Lemma malloc_gets_witness : ∃ r s' L' b,
  urun (heap_world 200000) (malloc 16 10 100 no_heap) 4096 = (Returned (r, s'), b) ∧ merged s' L' ∧
  ∃ p, r = p + HEADER ∧ heap 16 b s' L' ({[p]} ∪ ∅) ∧ 100 <= HEADER * (h_size s' p - 1) < 100 + HEADER.
Proof.
  destruct (malloc_gets (base := 16) ltac:(lia) (heap_world 200000) id 200000 ltac:(unfold HEADER; lia) no_heap [16] ∅ 100 10 4096)
    as (r&s'&L'&b&E&_&_&_&Hm&Hr).
  - unfold id. lia.
  - left. done.
  - lia.
  - cbn. lia.
  - exists r, s', L', b. split; [exact E|]. split; [apply Hm; by right|].
    destruct Hr as [(_&_&_&Href&_)|(p&Er&_&H&Hs)]; [discriminate Href|]. exists p. split_and!; [done|done|apply Hs..].
Defined.

(** Two blocks were taken out of the first 4096 headers that [sbrk] gave, from
    the top; the first is freed. *)
Definition two_live : hst :=
  mk_hst (upd 16 4096 (upd 4096 16 (λ _, 0))) (upd 4096 4086 (upd 69472 5 (upd 69552 5 (λ _, 0)))) 4096.

Lemma two_live_heap : heap 16 69632 two_live [16; 4096] {[69472; 69552]}.
Proof.
  assert (E1 : h_size two_live 16 = 0) by reflexivity. assert (E2 : h_size two_live 4096 = 4086) by reflexivity.
  assert (E3 : h_size two_live 69472 = 5) by reflexivity. assert (E4 : h_size two_live 69552 = 5) by reflexivity.
  assert (Hn : ∀ a, free_at two_live [16; 4096] a → 4096 <= a < 69472).
  { intros a (x&[->|[->|[]%elem_of_nil]%elem_of_cons]%elem_of_cons&Ha); revert Ha; unfold block_end, HEADER; lia. }
  split; [split|set_solver| |].
  - eauto.
  - by cbn.
  - repeat constructor; unfold before, block_end, HEADER; lia.
  - intros x [->|[->|[]%elem_of_nil]%elem_of_cons]%elem_of_cons; [rewrite decide_True by done|rewrite decide_False by done]; lia.
  - intros x [->|[->|[]%elem_of_nil]%elem_of_cons]%elem_of_cons; unfold block_end, HEADER; lia.
  - intros p [->%elem_of_singleton| ->%elem_of_singleton]%elem_of_union; unfold block_end, HEADER; (split_and!; [lia..|]);
      intros a Ha Hin; apply Hn in Hin; lia.
  - intros p q [->%elem_of_singleton| ->%elem_of_singleton]%elem_of_union [->%elem_of_singleton| ->%elem_of_singleton]%elem_of_union Hne;
      try done; [left|right]; unfold before, block_end, HEADER; lia.
Qed.

Lemma two_live_merged : merged two_live [16; 4096].
Proof.
  intros x y [->|[->|[]%elem_of_nil]%elem_of_cons]%elem_of_cons [->|[->|[]%elem_of_nil]%elem_of_cons]%elem_of_cons;
    unfold block_end, HEADER; [lia|change (h_size two_live 16) with 0; lia..].
Qed.

Lemma free_releases_witness : ∃ s' L', u_free 4 (69472 + HEADER) two_live = Some s' ∧
  heap 16 69632 s' L' ({[69472; 69552]} ∖ {[69472]}) ∧ merged s' L' ∧
  ∀ a, free_at s' L' a ↔ free_at two_live [16; 4096] a ∨ 69472 <= a < block_end two_live 69472.
Proof.
  destruct (free_releases (base := 16) ltac:(lia) 69632 4 two_live [16; 4096] {[69472; 69552]} 69472)
    as (s'&L'&E&H&_&_&Hm&Hf).
  - unfold HEADER. lia.
  - exact two_live_heap.
  - set_solver.
  - cbn. lia.
  - exists s', L'. split_and!; [exact E|exact H|apply Hm, two_live_merged|exact Hf].
Defined.
