(* ===== verification/UtFile.v ===== *)
(** * user/usertests.c: files and directories *)

From S2P Require Import Prelude Memory Params CString Uart User Ulib Programs.

(** * user/usertests.c: what the tests share

    A test takes its name and ends the process with a status, or returns.  Each
    runs in a process of its own, so that [buf] and the other variables start
    out zero; a variable that [wait] may leave uninitialised starts as [junk]. *)

Definition BUFSZ : Z := (MAXOPBLOCKS + 2) * BSIZE.
Definition test_buf : list Z := replicate (Z.to_nat BUFSZ) 0.

(** [printf] of a line, of a text without a newline, and before [exit(1)]. *)
Definition say (fmt : string) (ap : list uarg) : uprog unit := u_printf (line fmt) ap.
Definition say_on (fmt : string) (ap : list uarg) : uprog unit := u_printf (codes fmt) ap.
Definition bad {A} (fmt : string) (ap : list uarg) : uprog A := say fmt ap;; u_exit 1.
Definition bad_on {A} (fmt : string) (ap : list uarg) : uprog A := say_on fmt ap;; u_exit 1.

(** [if(c) { printf(...); exit(1); }] *)
Definition refuse (c : bool) (fmt : string) (ap : list uarg) : uprog unit := if c then bad fmt ap else mret tt.
Definition refuse_on (c : bool) (fmt : string) (ap : list uarg) : uprog unit := if c then bad_on fmt ap else mret tt.

(** [k] turns of a loop, counting from [i]. *)
Fixpoint u_for (k : nat) (i : Z) (f : Z → uprog unit) : uprog unit :=
  match k with
  | O => mret tt
  | S k => f i;; u_for k (i + 1) f
  end.

(** A loop that goes on while its body says so. *)
Fixpoint u_while (fuel : nat) (f : uprog bool) : uprog unit :=
  match fuel with
  | O => UFuel
  | S fuel => b ← f; if (b : bool) then u_while fuel f else mret tt
  end.

(** A loop that makes no call and never ends. *)
Definition u_spin {A} : uprog A := UFuel.

(** [wait(&st)] for a variable that holds [old]: the value returned and the
    variable. *)
Definition u_wait_st (old : Z) : uprog (Z * Z) :=
  w ← u_wait_status;
  mret (w.1, default old w.2).

(** [close(open(path, mode))] *)
Definition u_touch (path : list Z) (mode : Z) : uprog unit :=
  fd ← u_open path mode;
  u_close fd;;
  mret tt.

Definition O_CW : Z := Z.lor O_CREATE O_WRONLY.
Definition O_CRW : Z := Z.lor O_CREATE O_RDWR.
Definition O_CWT : Z := Z.lor (Z.lor O_CREATE O_WRONLY) O_TRUNC.

(** The pointer of all ones, with which [sbrk] says that it failed. *)
Definition failed (p : Z) : bool := p =? -1.

(** * user/usertests.c: the tests of the file system *)

Section Files.
Context (junk : Z).

(** ** Truncation *)

Definition truncate1 (s : list Z) : uprog unit :=
  u_unlink (codes "truncfile");;
  fd1 ← u_open (codes "truncfile") O_CWT;
  u_write fd1 (codes "abcd");;
  u_close fd1;;
  fd2 ← u_open (codes "truncfile") O_RDONLY;
  n ← u_read fd2 32;
  refuse (negb (n.1 =? 4)) "%s: read %d bytes, wanted 4" [s_arg s; AInt n.1];;
  fd1 ← u_open (codes "truncfile") (Z.lor O_WRONLY O_TRUNC);
  fd3 ← u_open (codes "truncfile") O_RDONLY;
  n ← u_read fd3 32;
  u_when (negb (n.1 =? 0)) (
    say "aaa fd3=%d" [AInt fd3];;
    bad "%s: read %d bytes, wanted 0" [s_arg s; AInt n.1]);;
  n ← u_read fd2 32;
  u_when (negb (n.1 =? 0)) (
    say "bbb fd2=%d" [AInt fd2];;
    bad "%s: read %d bytes, wanted 0" [s_arg s; AInt n.1]);;
  u_write fd1 (codes "abcdef");;
  n ← u_read fd3 32;
  refuse (negb (n.1 =? 6)) "%s: read %d bytes, wanted 6" [s_arg s; AInt n.1];;
  n ← u_read fd2 32;
  refuse (negb (n.1 =? 2)) "%s: read %d bytes, wanted 2" [s_arg s; AInt n.1];;
  u_unlink (codes "truncfile");;
  u_close fd1;;
  u_close fd2;;
  u_close fd3;;
  mret tt.

Definition truncate2 (s : list Z) : uprog unit :=
  u_unlink (codes "truncfile");;
  fd1 ← u_open (codes "truncfile") (Z.lor (Z.lor O_CREATE O_TRUNC) O_WRONLY);
  u_write fd1 (codes "abcd");;
  fd2 ← u_open (codes "truncfile") (Z.lor O_TRUNC O_WRONLY);
  n ← u_write fd1 (codes "x");
  refuse (negb (n =? -1)) "%s: write returned %d, expected -1" [s_arg s; AInt n];;
  u_unlink (codes "truncfile");;
  u_close fd1;;
  u_close fd2;;
  mret tt.

Definition truncate3 (s : list Z) : uprog unit :=
  u_touch (codes "truncfile") (Z.lor (Z.lor O_CREATE O_TRUNC) O_WRONLY);;
  pid ← u_fork;
  refuse (pid <? 0) "%s: fork failed" [s_arg s];;
  if pid =? 0 then
    u_for 100 0 (λ _,
      fd ← u_open (codes "truncfile") O_WRONLY;
      refuse (fd <? 0) "%s: open failed" [s_arg s];;
      n ← u_write fd (codes "1234567890");
      refuse (negb (n =? 10)) "%s: write got %d, expected 10" [s_arg s; AInt n];;
      u_close fd;;
      fd ← u_open (codes "truncfile") O_RDONLY;
      u_read fd 32;;
      u_close fd;;
      mret tt);;
    u_exit 0
  else
  u_for 150 0 (λ _,
    fd ← u_open (codes "truncfile") O_CWT;
    refuse (fd <? 0) "%s: open failed" [s_arg s];;
    n ← u_write fd (codes "xxx");
    refuse (negb (n =? 3)) "%s: write got %d, expected 3" [s_arg s; AInt n];;
    u_close fd;;
    mret tt);;
  w ← u_wait_st junk;
  u_unlink (codes "truncfile");;
  u_exit w.2.

(** ** Directories that go away *)

Definition iputtest (s : list Z) : uprog unit :=
  r ← u_mkdir (codes "iputdir");
  refuse (r <? 0) "%s: mkdir failed" [s_arg s];;
  r ← u_chdir (codes "iputdir");
  refuse (r <? 0) "%s: chdir iputdir failed" [s_arg s];;
  r ← u_unlink (codes "../iputdir");
  refuse (r <? 0) "%s: unlink ../iputdir failed" [s_arg s];;
  r ← u_chdir (codes "/");
  refuse (r <? 0) "%s: chdir / failed" [s_arg s].

Definition exitiputtest (s : list Z) : uprog unit :=
  pid ← u_fork;
  refuse (pid <? 0) "%s: fork failed" [s_arg s];;
  if pid =? 0 then
    r ← u_mkdir (codes "iputdir");
    refuse (r <? 0) "%s: mkdir failed" [s_arg s];;
    r ← u_chdir (codes "iputdir");
    refuse (r <? 0) "%s: child chdir failed" [s_arg s];;
    r ← u_unlink (codes "../iputdir");
    refuse (r <? 0) "%s: unlink ../iputdir failed" [s_arg s];;
    u_exit 0
  else
  w ← u_wait_st junk;
  u_exit w.2.

Definition openiputtest (s : list Z) : uprog unit :=
  r ← u_mkdir (codes "oidir");
  refuse (r <? 0) "%s: mkdir oidir failed" [s_arg s];;
  pid ← u_fork;
  refuse (pid <? 0) "%s: fork failed" [s_arg s];;
  if pid =? 0 then
    fd ← u_open (codes "oidir") O_RDWR;
    refuse (fd >=? 0) "%s: open directory for write succeeded" [s_arg s];;
    u_exit 0
  else
  u_sleep 1;;
  r ← u_unlink (codes "oidir");
  refuse (negb (r =? 0)) "%s: unlink failed" [s_arg s];;
  w ← u_wait_st junk;
  u_exit w.2.

(** ** Simple tests *)

Definition opentest (s : list Z) : uprog unit :=
  fd ← u_open (codes "echo") 0;
  refuse (fd <? 0) "%s: open echo failed!" [s_arg s];;
  u_close fd;;
  fd ← u_open (codes "doesnotexist") 0;
  refuse (fd >=? 0) "%s: open doesnotexist succeeded!" [s_arg s].

Definition writetest (s : list Z) : uprog unit :=
  fd ← u_open (codes "small") O_CRW;
  refuse (fd <? 0) "%s: error: creat small failed!" [s_arg s];;
  u_for 100 0 (λ i,
    r ← u_write fd (codes "aaaaaaaaaa");
    refuse (negb (r =? 10)) "%s: error: write aa %d new file failed" [s_arg s; AInt i];;
    r ← u_write fd (codes "bbbbbbbbbb");
    refuse (negb (r =? 10)) "%s: error: write bb %d new file failed" [s_arg s; AInt i]);;
  u_close fd;;
  fd ← u_open (codes "small") O_RDONLY;
  refuse (fd <? 0) "%s: error: open small failed!" [s_arg s];;
  i ← u_read fd 2000;
  refuse (negb (i.1 =? 2000)) "%s: read failed" [s_arg s];;
  u_close fd;;
  r ← u_unlink (codes "small");
  refuse (r <? 0) "%s: unlink small failed" [s_arg s].

(** The reading loop of [writebig], from block [n] on. *)
Fixpoint writebig_read (fuel : nat) (s : list Z) (fd n : Z) : uprog unit :=
  match fuel with
  | O => UFuel
  | S fuel =>
      i ← u_read fd BSIZE;
      if i.1 =? 0 then refuse_on (n =? MAXFILE - 1) "%s: read only %d blocks from big" [s_arg s; AInt n] else
      refuse (negb (i.1 =? BSIZE)) "%s: read failed %d" [s_arg s; AInt i.1];;
      let b := i32 (le_dec (take 4 i.2)) in
      refuse (negb (b =? n)) "%s: read content of block %d is %d" [s_arg s; AInt n; AInt b];;
      writebig_read fuel s fd (n + 1)
  end.

Definition writebig (s : list Z) : uprog unit :=
  fd ← u_open (codes "big") O_CRW;
  refuse (fd <? 0) "%s: error: creat big failed!" [s_arg s];;
  u_for (Z.to_nat MAXFILE) 0 (λ i,
    r ← u_write fd (le_enc 4 i ++ replicate (Z.to_nat BSIZE - 4) 0);
    refuse (negb (r =? BSIZE)) "%s: error: write big file failed" [s_arg s; AInt i]);;
  u_close fd;;
  fd ← u_open (codes "big") O_RDONLY;
  refuse (fd <? 0) "%s: error: open big failed!" [s_arg s];;
  writebig_read (Z.to_nat MAXFILE + 1) s fd 0;;
  u_close fd;;
  r ← u_unlink (codes "big");
  refuse (r <? 0) "%s: unlink big failed" [s_arg s].

Definition createtest (s : list Z) : uprog unit :=
  u_for 52 0 (λ i, u_touch [97; 48 + i] O_CRW);;
  u_for 52 0 (λ i, u_unlink [97; 48 + i];; mret tt).

Definition dirtest (s : list Z) : uprog unit :=
  r ← u_mkdir (codes "dir0");
  refuse (r <? 0) "%s: mkdir failed" [s_arg s];;
  r ← u_chdir (codes "dir0");
  refuse (r <? 0) "%s: chdir dir0 failed" [s_arg s];;
  r ← u_chdir (codes "..");
  refuse (r <? 0) "%s: chdir .. failed" [s_arg s];;
  r ← u_unlink (codes "dir0");
  refuse (r <? 0) "%s: unlink dir0 failed" [s_arg s].

(** ** Several processes *)

(** The reading loop of [sharedfd]: the letters c and p of each buffer.  A short
    read leaves the end of the buffer as it was. *)
Fixpoint sharedfd_count (fuel : nat) (fd : Z) (buf : list Z) (nc np : Z) : uprog (Z * Z) :=
  match fuel with
  | O => UFuel
  | S fuel =>
      n ← u_read fd 10;
      if negb (n.1 >? 0) then mret (nc, np) else
      let buf := n.2 ++ drop (length n.2) buf in
      let count c := Z.of_nat (length (filter (λ x, x = c) buf)) in
      sharedfd_count fuel fd buf (nc + count 99) (np + count 112)
  end.

Definition sharedfd (fuel : nat) (s : list Z) : uprog unit :=
  u_unlink (codes "sharedfd");;
  fd ← u_open (codes "sharedfd") O_CRW;
  refuse_on (fd <? 0) "%s: cannot open sharedfd for writing" [s_arg s];;
  pid ← u_fork;
  let buf := replicate 10 (if pid =? 0 then 99 else 112) in
  u_for 1000 0 (λ _,
    r ← u_write fd buf;
    refuse (negb (r =? 10)) "%s: write sharedfd failed" [s_arg s]);;
  (if pid =? 0 then u_exit 0 else
   w ← u_wait_st junk;
   if negb (w.2 =? 0) then u_exit w.2 else mret tt);;
  u_close fd;;
  fd ← u_open (codes "sharedfd") 0;
  refuse (fd <? 0) "%s: cannot open sharedfd for reading" [s_arg s];;
  c ← sharedfd_count fuel fd buf 0 0;
  u_close fd;;
  u_unlink (codes "sharedfd");;
  if (c.1 =? 10000) && (c.2 =? 10000) then u_exit 0 else bad "%s: nc/np test fails" [s_arg s].

(** The reading loop of [fourfiles]: the bytes of a file that has only [c]. *)
Fixpoint fourfiles_read (fuel : nat) (s : list Z) (fd c total : Z) : uprog Z :=
  match fuel with
  | O => UFuel
  | S fuel =>
      n ← u_read fd BUFSZ;
      if negb (n.1 >? 0) then mret total else
      refuse (existsb (λ x, negb (x =? c)) n.2) "wrong char" [s_arg s];;
      fourfiles_read fuel s fd c (total + n.1)
  end.

Definition fourfiles (fuel : nat) (s : list Z) : uprog unit :=
  let name pi := [102; 48 + pi] in
  u_for 4 0 (λ pi,
    u_unlink (name pi);;
    pid ← u_fork;
    refuse (pid <? 0) "fork failed" [s_arg s];;
    u_when (pid =? 0) (
      fd ← u_open (name pi) O_CRW;
      refuse (fd <? 0) "create failed" [s_arg s];;
      u_for 12 0 (λ _,
        n ← u_write fd (replicate 500 (48 + pi));
        refuse (negb (n =? 500)) "write failed %d" [AInt n]);;
      u_exit 0));;
  u_for 4 0 (λ _,
    w ← u_wait_st junk;
    if negb (w.2 =? 0) then u_exit w.2 else mret tt);;
  u_for 4 0 (λ i,
    fd ← u_open (name i) 0;
    total ← fourfiles_read fuel s fd (48 + i) 0;
    u_close fd;;
    refuse (negb (total =? 6000)) "wrong length %d" [AInt total];;
    u_unlink (name i);;
    mret tt).

Definition createdelete (s : list Z) : uprog unit :=
  u_for 4 0 (λ pi,
    pid ← u_fork;
    refuse (pid <? 0) "fork failed" [s_arg s];;
    u_when (pid =? 0) (
      u_for 20 0 (λ i,
        fd ← u_open [112 + pi; 48 + i] O_CRW;
        refuse (fd <? 0) "%s: create failed" [s_arg s];;
        u_close fd;;
        u_when ((i >? 0) && (i mod 2 =? 0)) (
          r ← u_unlink [112 + pi; 48 + i / 2];
          refuse (r <? 0) "%s: unlink failed" [s_arg s]));;
      u_exit 0));;
  u_for 4 0 (λ _,
    w ← u_wait_st junk;
    if negb (w.2 =? 0) then u_exit 1 else mret tt);;
  u_for 20 0 (λ i,
    u_for 4 0 (λ pi,
      let name := [112 + pi; 48 + i] in
      fd ← u_open name 0;
      (if ((i =? 0) || (i >=? 10)) && (fd <? 0) then
         bad "%s: oops createdelete %s didn't exist" [s_arg s; s_arg name]
       else if ((i >=? 1) && (i <? 10)) && (fd >=? 0) then
         bad "%s: oops createdelete %s did exist" [s_arg s; s_arg name]
       else mret tt);;
      u_when (fd >=? 0) (u_close fd;; mret tt)));;
  u_for 20 0 (λ i, u_for 4 0 (λ _, u_unlink [112 + i; 48 + i];; mret tt)).

(** ** Links *)

Definition unlinkread (s : list Z) : uprog unit :=
  fd ← u_open (codes "unlinkread") O_CRW;
  refuse (fd <? 0) "%s: create unlinkread failed" [s_arg s];;
  u_write fd (codes "hello");;
  u_close fd;;
  fd ← u_open (codes "unlinkread") O_RDWR;
  refuse (fd <? 0) "%s: open unlinkread failed" [s_arg s];;
  r ← u_unlink (codes "unlinkread");
  refuse (negb (r =? 0)) "%s: unlink unlinkread failed" [s_arg s];;
  fd1 ← u_open (codes "unlinkread") O_CRW;
  u_write fd1 (codes "yyy");;
  u_close fd1;;
  n ← u_read fd BUFSZ;
  refuse_on (negb (n.1 =? 5)) "%s: unlinkread read failed" [s_arg s];;
  let buf := n.2 ++ drop (length n.2) test_buf in
  refuse (negb (chr buf =? 104)) "%s: unlinkread wrong data" [s_arg s];;
  r ← u_write fd (take 10 buf);
  refuse (negb (r =? 10)) "%s: unlinkread write failed" [s_arg s];;
  u_close fd;;
  u_unlink (codes "unlinkread");;
  mret tt.

Definition linktest (s : list Z) : uprog unit :=
  u_unlink (codes "lf1");;
  u_unlink (codes "lf2");;
  fd ← u_open (codes "lf1") O_CRW;
  refuse (fd <? 0) "%s: create lf1 failed" [s_arg s];;
  r ← u_write fd (codes "hello");
  refuse (negb (r =? 5)) "%s: write lf1 failed" [s_arg s];;
  u_close fd;;
  r ← u_link (codes "lf1") (codes "lf2");
  refuse (r <? 0) "%s: link lf1 lf2 failed" [s_arg s];;
  u_unlink (codes "lf1");;
  r ← u_open (codes "lf1") 0;
  refuse (r >=? 0) "%s: unlinked lf1 but it is still there!" [s_arg s];;
  fd ← u_open (codes "lf2") 0;
  refuse (fd <? 0) "%s: open lf2 failed" [s_arg s];;
  n ← u_read fd BUFSZ;
  refuse (negb (n.1 =? 5)) "%s: read lf2 failed" [s_arg s];;
  u_close fd;;
  r ← u_link (codes "lf2") (codes "lf2");
  refuse (r >=? 0) "%s: link lf2 lf2 succeeded! oops" [s_arg s];;
  u_unlink (codes "lf2");;
  r ← u_link (codes "lf2") (codes "lf1");
  refuse (r >=? 0) "%s: link non-existent succeeded! oops" [s_arg s];;
  r ← u_link (codes ".") (codes "lf1");
  refuse (r >=? 0) "%s: link . lf1 succeeded! oops" [s_arg s].

(** The listing of [concreate]: the flags [fa] and the number of files. *)
Fixpoint concreate_list (fuel : nat) (s : list Z) (fd : Z) (fa : list bool) (n : Z) : uprog Z :=
  match fuel with
  | O => UFuel
  | S fuel =>
      r ← u_read fd 16;
      if negb (r.1 >? 0) then mret n else
      let de := u_dirent r.2 in
      if de.1 =? 0 then concreate_list fuel s fd fa n else
      if (nth 0 de.2 0 =? 67) && (nth 2 de.2 0 =? 0) then
        let i := nth 1 de.2 0 - 48 in
        refuse ((i <? 0) || (i >=? 40)) "%s: concreate weird file %s" [s_arg s; s_arg de.2];;
        refuse (nth (Z.to_nat i) fa false) "%s: concreate duplicate file %s" [s_arg s; s_arg de.2];;
        concreate_list fuel s fd (<[Z.to_nat i := true]> fa) (n + 1)
      else concreate_list fuel s fd fa n
  end.

Definition concreate (fuel : nat) (s : list Z) : uprog unit :=
  let file i := [67; 48 + i] in
  u_for 40 0 (λ i,
    u_unlink (file i);;
    pid ← u_fork;
    (if negb (pid =? 0) && (i mod 3 =? 1) then u_link (codes "C0") (file i);; mret tt
     else if (pid =? 0) && (i mod 5 =? 1) then u_link (codes "C0") (file i);; mret tt
     else
       fd ← u_open (file i) O_CRW;
       refuse (fd <? 0) "concreate create %s failed" [s_arg (file i)];;
       u_close fd;;
       mret tt);;
    if pid =? 0 then u_exit 0 else
    w ← u_wait_st junk;
    if negb (w.2 =? 0) then u_exit 1 else mret tt);;
  fd ← u_open (codes ".") 0;
  n ← concreate_list fuel s fd (replicate 40 false) 0;
  u_close fd;;
  refuse (negb (n =? 40)) "%s: concreate not enough files in directory listing" [s_arg s];;
  u_for 40 0 (λ i,
    pid ← u_fork;
    refuse (pid <? 0) "%s: fork failed" [s_arg s];;
    (if ((i mod 3 =? 0) && (pid =? 0)) || ((i mod 3 =? 1) && negb (pid =? 0))
     then u_repeat 6 (u_touch (file i) 0)
     else u_repeat 6 (u_unlink (file i);; mret tt));;
    if pid =? 0 then u_exit 0 else u_wait;; mret tt).

(** The values of [x] in [linkunlink]. *)
Fixpoint linkunlink_loop (k : nat) (x : Z) : uprog unit :=
  match k with
  | O => mret tt
  | S k =>
      let x := u32 (x * 1103515245 + 12345) in
      (if x mod 3 =? 0 then u_touch (codes "x") (Z.lor O_RDWR O_CREATE)
       else if x mod 3 =? 1 then u_link (codes "cat") (codes "x");; mret tt
       else u_unlink (codes "x");; mret tt);;
      linkunlink_loop k x
  end.

Definition linkunlink (s : list Z) : uprog unit :=
  u_unlink (codes "x");;
  pid ← u_fork;
  refuse (pid <? 0) "%s: fork failed" [s_arg s];;
  linkunlink_loop 100 (if pid =? 0 then 97 else 1);;
  if negb (pid =? 0) then u_wait;; mret tt else u_exit 0.

Definition bigdir (s : list Z) : uprog unit :=
  let name i := [120; 48 + i / 64; 48 + i mod 64] in
  u_unlink (codes "bd");;
  fd ← u_open (codes "bd") O_CREATE;
  refuse (fd <? 0) "%s: bigdir create failed" [s_arg s];;
  u_close fd;;
  u_for 500 0 (λ i,
    r ← u_link (codes "bd") (name i);
    refuse (negb (r =? 0)) "%s: bigdir link(bd, %s) failed" [s_arg s; s_arg (name i)]);;
  u_unlink (codes "bd");;
  u_for 500 0 (λ i,
    r ← u_unlink (name i);
    refuse_on (negb (r =? 0)) "%s: bigdir unlink failed" [s_arg s]).
End Files.

(** * user/usertests.c: the tests of directories and of large files *)

(** A call that must fail, and one that must not. *)
Definition must (call : uprog Z) (c : Z → bool) (fmt : string) (ap : list uarg) : uprog unit :=
  r ← call;
  refuse (negb (c r)) fmt ap.
#[local] Notation zero := (λ r, r =? 0).
#[local] Notation nonzero := (λ r, negb (r =? 0)).
#[local] Notation nonneg := (λ r, negb (r <? 0)).
#[local] Notation neg := (λ r, negb (r >=? 0)).

Section Dirs.
Context (junk : Z).

Definition subdir (s : list Z) : uprog unit :=
  u_unlink (codes "ff");;
  must (u_mkdir (codes "dd")) zero "%s: mkdir dd failed" [s_arg s];;
  fd ← u_open (codes "dd/ff") O_CRW;
  refuse (fd <? 0) "%s: create dd/ff failed" [s_arg s];;
  u_write fd (codes "ff");;
  u_close fd;;
  must (u_unlink (codes "dd")) neg "%s: unlink dd (non-empty dir) succeeded!" [s_arg s];;
  must (u_mkdir (codes "/dd/dd")) zero "subdir mkdir dd/dd failed" [s_arg s];;
  fd ← u_open (codes "dd/dd/ff") O_CRW;
  refuse (fd <? 0) "%s: create dd/dd/ff failed" [s_arg s];;
  u_write fd (codes "FF");;
  u_close fd;;
  fd ← u_open (codes "dd/dd/../ff") 0;
  refuse (fd <? 0) "%s: open dd/dd/../ff failed" [s_arg s];;
  cc ← u_read fd BUFSZ;
  refuse (negb (cc.1 =? 2) || negb (chr cc.2 =? 102)) "%s: dd/dd/../ff wrong content" [s_arg s];;
  u_close fd;;
  must (u_link (codes "dd/dd/ff") (codes "dd/dd/ffff")) zero "link dd/dd/ff dd/dd/ffff failed" [s_arg s];;
  must (u_unlink (codes "dd/dd/ff")) zero "%s: unlink dd/dd/ff failed" [s_arg s];;
  must (u_open (codes "dd/dd/ff") O_RDONLY) neg "%s: open (unlinked) dd/dd/ff succeeded" [s_arg s];;
  must (u_chdir (codes "dd")) zero "%s: chdir dd failed" [s_arg s];;
  must (u_chdir (codes "dd/../../dd")) zero "%s: chdir dd/../../dd failed" [s_arg s];;
  must (u_chdir (codes "dd/../../../dd")) zero "chdir dd/../../dd failed" [s_arg s];;
  must (u_chdir (codes "./..")) zero "%s: chdir ./.. failed" [s_arg s];;
  fd ← u_open (codes "dd/dd/ffff") 0;
  refuse (fd <? 0) "%s: open dd/dd/ffff failed" [s_arg s];;
  n ← u_read fd BUFSZ;
  refuse (negb (n.1 =? 2)) "%s: read dd/dd/ffff wrong len" [s_arg s];;
  u_close fd;;
  must (u_open (codes "dd/dd/ff") O_RDONLY) neg "%s: open (unlinked) dd/dd/ff succeeded!" [s_arg s];;
  must (u_open (codes "dd/ff/ff") O_CRW) neg "%s: create dd/ff/ff succeeded!" [s_arg s];;
  must (u_open (codes "dd/xx/ff") O_CRW) neg "%s: create dd/xx/ff succeeded!" [s_arg s];;
  must (u_open (codes "dd") O_CREATE) neg "%s: create dd succeeded!" [s_arg s];;
  must (u_open (codes "dd") O_RDWR) neg "%s: open dd rdwr succeeded!" [s_arg s];;
  must (u_open (codes "dd") O_WRONLY) neg "%s: open dd wronly succeeded!" [s_arg s];;
  must (u_link (codes "dd/ff/ff") (codes "dd/dd/xx")) nonzero "%s: link dd/ff/ff dd/dd/xx succeeded!" [s_arg s];;
  must (u_link (codes "dd/xx/ff") (codes "dd/dd/xx")) nonzero "%s: link dd/xx/ff dd/dd/xx succeeded!" [s_arg s];;
  must (u_link (codes "dd/ff") (codes "dd/dd/ffff")) nonzero "%s: link dd/ff dd/dd/ffff succeeded!" [s_arg s];;
  must (u_mkdir (codes "dd/ff/ff")) nonzero "%s: mkdir dd/ff/ff succeeded!" [s_arg s];;
  must (u_mkdir (codes "dd/xx/ff")) nonzero "%s: mkdir dd/xx/ff succeeded!" [s_arg s];;
  must (u_mkdir (codes "dd/dd/ffff")) nonzero "%s: mkdir dd/dd/ffff succeeded!" [s_arg s];;
  must (u_unlink (codes "dd/xx/ff")) nonzero "%s: unlink dd/xx/ff succeeded!" [s_arg s];;
  must (u_unlink (codes "dd/ff/ff")) nonzero "%s: unlink dd/ff/ff succeeded!" [s_arg s];;
  must (u_chdir (codes "dd/ff")) nonzero "%s: chdir dd/ff succeeded!" [s_arg s];;
  must (u_chdir (codes "dd/xx")) nonzero "%s: chdir dd/xx succeeded!" [s_arg s];;
  must (u_unlink (codes "dd/dd/ffff")) zero "%s: unlink dd/dd/ff failed" [s_arg s];;
  must (u_unlink (codes "dd/ff")) zero "%s: unlink dd/ff failed" [s_arg s];;
  must (u_unlink (codes "dd")) nonzero "%s: unlink non-empty dd succeeded!" [s_arg s];;
  must (u_unlink (codes "dd/dd")) nonneg "%s: unlink dd/dd failed" [s_arg s];;
  must (u_unlink (codes "dd")) nonneg "%s: unlink dd failed" [s_arg s].

(** The sizes 499, 970, ... below [BUFSZ]. *)
Fixpoint bigwrite_loop (fuel : nat) (s : list Z) (sz : Z) : uprog unit :=
  match fuel with
  | O => UFuel
  | S fuel =>
      if negb (sz <? BUFSZ) then mret tt else
      fd ← u_open (codes "bigwrite") O_CRW;
      refuse (fd <? 0) "%s: cannot create bigwrite" [s_arg s];;
      u_for 2 0 (λ _,
        cc ← u_write fd (take (Z.to_nat sz) test_buf);
        refuse (negb (cc =? sz)) "%s: write(%d) ret %d" [s_arg s; AInt sz; AInt cc]);;
      u_close fd;;
      u_unlink (codes "bigwrite");;
      bigwrite_loop fuel s (sz + 471)
  end.

Definition bigwrite (s : list Z) : uprog unit :=
  u_unlink (codes "bigwrite");;
  bigwrite_loop 27 s 499.

Definition manywrites (s : list Z) : uprog unit :=
  u_for 4 0 (λ ci,
    pid ← u_fork;
    refuse (pid <? 0) "fork failed" [];;
    u_when (pid =? 0) (
      let name := [98; 97 + ci] in
      u_unlink name;;
      u_for 30 0 (λ _,
        u_for (Z.to_nat (ci + 1)) 0 (λ _,
          fd ← u_open name O_CRW;
          refuse (fd <? 0) "%s: cannot create %s" [s_arg s; s_arg name];;
          cc ← u_write fd test_buf;
          refuse (negb (cc =? BUFSZ)) "%s: write(%d) ret %d" [s_arg s; AInt BUFSZ; AInt cc];;
          u_close fd;;
          mret tt);;
        u_unlink name;;
        mret tt);;
      u_unlink name;;
      u_exit 0));;
  u_for 4 0 (λ _,
    w ← u_wait_st 0;
    if negb (w.2 =? 0) then u_exit w.2 else mret tt);;
  u_exit 0.

(** The reading loop of [bigfile]: the bytes read. *)
Fixpoint bigfile_read (fuel : nat) (s : list Z) (fd i total : Z) : uprog Z :=
  match fuel with
  | O => UFuel
  | S fuel =>
      cc ← u_read fd 300;
      refuse (cc.1 <? 0) "%s: read bigfile failed" [s_arg s];;
      if cc.1 =? 0 then mret total else
      refuse (negb (cc.1 =? 300)) "%s: short read bigfile" [s_arg s];;
      refuse (negb (nth 0 cc.2 0 =? i / 2) || negb (nth 299 cc.2 0 =? i / 2)) "%s: read bigfile wrong data" [s_arg s];;
      bigfile_read fuel s fd (i + 1) (total + cc.1)
  end.

Definition bigfile (fuel : nat) (s : list Z) : uprog unit :=
  u_unlink (codes "bigfile.dat");;
  fd ← u_open (codes "bigfile.dat") O_CRW;
  refuse_on (fd <? 0) "%s: cannot create bigfile" [s_arg s];;
  u_for 20 0 (λ i,
    r ← u_write fd (replicate 600 i);
    refuse (negb (r =? 600)) "%s: write bigfile failed" [s_arg s]);;
  u_close fd;;
  fd ← u_open (codes "bigfile.dat") 0;
  refuse (fd <? 0) "%s: cannot open bigfile" [s_arg s];;
  total ← bigfile_read fuel s fd 0 0;
  u_close fd;;
  refuse (negb (total =? 12000)) "%s: read bigfile wrong total" [s_arg s];;
  u_unlink (codes "bigfile.dat");;
  mret tt.

Definition fourteen (s : list Z) : uprog unit :=
  must (u_mkdir (codes "12345678901234")) zero "%s: mkdir 12345678901234 failed" [s_arg s];;
  must (u_mkdir (codes "12345678901234/123456789012345")) zero "%s: mkdir 12345678901234/123456789012345 failed" [s_arg s];;
  fd ← u_open (codes "123456789012345/123456789012345/123456789012345") O_CREATE;
  refuse (fd <? 0) "%s: create 123456789012345/123456789012345/123456789012345 failed" [s_arg s];;
  u_close fd;;
  fd ← u_open (codes "12345678901234/12345678901234/12345678901234") 0;
  refuse (fd <? 0) "%s: open 12345678901234/12345678901234/12345678901234 failed" [s_arg s];;
  u_close fd;;
  must (u_mkdir (codes "12345678901234/12345678901234")) nonzero "%s: mkdir 12345678901234/12345678901234 succeeded!" [s_arg s];;
  must (u_mkdir (codes "123456789012345/12345678901234")) nonzero "%s: mkdir 12345678901234/123456789012345 succeeded!" [s_arg s];;
  u_unlink (codes "123456789012345/12345678901234");;
  u_unlink (codes "12345678901234/12345678901234");;
  u_unlink (codes "12345678901234/12345678901234/12345678901234");;
  u_unlink (codes "123456789012345/123456789012345/123456789012345");;
  u_unlink (codes "12345678901234/123456789012345");;
  u_unlink (codes "12345678901234");;
  mret tt.

Definition rmdot (s : list Z) : uprog unit :=
  must (u_mkdir (codes "dots")) zero "%s: mkdir dots failed" [s_arg s];;
  must (u_chdir (codes "dots")) zero "%s: chdir dots failed" [s_arg s];;
  must (u_unlink (codes ".")) nonzero "%s: rm . worked!" [s_arg s];;
  must (u_unlink (codes "..")) nonzero "%s: rm .. worked!" [s_arg s];;
  must (u_chdir (codes "/")) zero "%s: chdir / failed" [s_arg s];;
  must (u_unlink (codes "dots/.")) nonzero "%s: unlink dots/. worked!" [s_arg s];;
  must (u_unlink (codes "dots/..")) nonzero "%s: unlink dots/.. worked!" [s_arg s];;
  must (u_unlink (codes "dots")) zero "%s: unlink dots failed!" [s_arg s].

Definition dirfile (s : list Z) : uprog unit :=
  fd ← u_open (codes "dirfile") O_CREATE;
  refuse (fd <? 0) "%s: create dirfile failed" [s_arg s];;
  u_close fd;;
  must (u_chdir (codes "dirfile")) nonzero "%s: chdir dirfile succeeded!" [s_arg s];;
  must (u_open (codes "dirfile/xx") 0) neg "%s: create dirfile/xx succeeded!" [s_arg s];;
  must (u_open (codes "dirfile/xx") O_CREATE) neg "%s: create dirfile/xx succeeded!" [s_arg s];;
  must (u_mkdir (codes "dirfile/xx")) nonzero "%s: mkdir dirfile/xx succeeded!" [s_arg s];;
  must (u_unlink (codes "dirfile/xx")) nonzero "%s: unlink dirfile/xx succeeded!" [s_arg s];;
  must (u_link (codes "README") (codes "dirfile/xx")) nonzero "%s: link to dirfile/xx succeeded!" [s_arg s];;
  must (u_unlink (codes "dirfile")) zero "%s: unlink dirfile failed!" [s_arg s];;
  must (u_open (codes ".") O_RDWR) neg "%s: open . for writing succeeded!" [s_arg s];;
  fd ← u_open (codes ".") 0;
  r ← u_write fd (codes "x");
  refuse (r >? 0) "%s: write . succeeded!" [s_arg s];;
  u_close fd;;
  mret tt.

Definition iref (s : list Z) : uprog unit :=
  u_for (NINODE + 1) 0 (λ _,
    must (u_mkdir (codes "irefd")) zero "%s: mkdir irefd failed" [s_arg s];;
    must (u_chdir (codes "irefd")) zero "%s: chdir irefd failed" [s_arg s];;
    u_mkdir [];;
    u_link (codes "README") [];;
    fd ← u_open [] O_CREATE;
    u_when (fd >=? 0) (u_close fd;; mret tt);;
    fd ← u_open (codes "xx") O_CREATE;
    u_when (fd >=? 0) (u_close fd;; mret tt);;
    u_unlink (codes "xx");;
    mret tt);;
  u_for (NINODE + 1) 0 (λ _,
    u_chdir (codes "..");;
    u_unlink (codes "irefd");;
    mret tt);;
  u_chdir (codes "/");;
  mret tt.

(** ** A full disk

    The names of the files of [fsfull]. *)
Definition fsfull_name (n : Z) : list Z :=
  [102; 48 + n / 1000; 48 + n mod 1000 / 100; 48 + n mod 100 / 10; 48 + n mod 10].

Fixpoint fsfull_write (fuel : nat) (fd total : Z) : uprog Z :=
  match fuel with
  | O => UFuel
  | S fuel =>
      cc ← u_write fd (take (Z.to_nat BSIZE) test_buf);
      if cc <? BSIZE then mret total else fsfull_write fuel fd (total + cc)
  end.

(** The number of the last file. *)
Fixpoint fsfull_files (fuel : nat) (n : Z) : uprog Z :=
  match fuel with
  | O => UFuel
  | S fuel' =>
      say "writing %s" [s_arg (fsfull_name n)];;
      fd ← u_open (fsfull_name n) O_CRW;
      if fd <? 0 then say "open %s failed" [s_arg (fsfull_name n)];; mret n else
      total ← fsfull_write fuel fd 0;
      say "wrote %d bytes" [AInt total];;
      u_close fd;;
      if total =? 0 then mret n else fsfull_files fuel' (n + 1)
  end.

Definition fsfull (fuel : nat) : uprog unit :=
  say "fsfull test" [];;
  n ← fsfull_files fuel 0;
  u_for (Z.to_nat (n + 1)) 0 (λ k, u_unlink (fsfull_name (n - k));; mret tt);;
  say "fsfull test finished" [].
End Dirs.
