(* ===== verification/UtProc.v ===== *)
(** * user/usertests.c: processes and memory *)

From S2P Require Import Prelude Memory Params CString Uart BioSpec User Ulib Programs Umalloc UtFile.

(** * user/usertests.c: the tests of processes, pipes and exec *)

Section Procs.
Context (junk : Z).

Definition exectest (s : list Z) : uprog unit :=
  u_unlink (codes "echo-ok");;
  pid ← u_fork;
  refuse (pid <? 0) "%s: fork failed" [s_arg s];;
  u_when (pid =? 0) (
    u_close 1;;
    fd ← u_open (codes "echo-ok") O_CW;
    refuse (fd <? 0) "%s: create failed" [s_arg s];;
    refuse (negb (fd =? 1)) "%s: wrong fd" [s_arg s];;
    r ← u_exec (codes "echo") [codes "echo"; codes "OK"];
    refuse (r <? 0) "%s: exec echo failed" [s_arg s]);;
  w ← u_wait_st junk;
  u_when (negb (w.1 =? pid)) (say "%s: wait failed!" [s_arg s]);;
  if negb (w.2 =? 0) then u_exit w.2 else
  fd ← u_open (codes "echo-ok") O_RDONLY;
  refuse (fd <? 0) "%s: open failed" [s_arg s];;
  n ← u_read fd 2;
  refuse (negb (n.1 =? 2)) "%s: read failed" [s_arg s];;
  u_unlink (codes "echo-ok");;
  if (nth 0 n.2 0 =? 79) && (nth 1 n.2 0 =? 75) then u_exit 0
  else bad "%s: wrong output" [s_arg s].

(** ** Pipes *)

(** The bytes [seq], [seq + 1], ... as characters. *)
Definition seq_bytes (q : Z) (n : nat) : list Z := map (λ k, (q + Z.of_nat k) mod 256) (seq 0 n).

(** The reading loop of [pipe1]: [None] after a wrong byte. *)
Fixpoint pipe1_read (fuel : nat) (s : list Z) (fd cc seq total : Z) : uprog (option Z) :=
  match fuel with
  | O => UFuel
  | S fuel =>
      n ← u_read fd cc;
      if negb (n.1 >? 0) then mret (Some total) else
      if negb (bool_decide (n.2 = seq_bytes seq (length n.2))) then say "%s: pipe1 oops 2" [s_arg s];; mret None else
      let cc := cc * 2 in
      pipe1_read fuel s fd (if cc >? BUFSZ then BUFSZ else cc) (seq + n.1) (total + n.1)
  end.

(** The last message passes [total] for the [%s] of its format. *)
Definition pipe1 (fuel : nat) (s : list Z) : uprog unit :=
  r ← u_pipe;
  let fds := r.2 in
  refuse (negb (r.1 =? 0)) "%s: pipe() failed" [s_arg s];;
  pid ← u_fork;
  if pid =? 0 then
    u_close fds.1;;
    u_for 5 0 (λ n,
      r ← u_write fds.2 (seq_bytes (n * 1033) 1033);
      refuse (negb (r =? 1033)) "%s: pipe1 oops 1" [s_arg s]);;
    u_exit 0
  else if pid >? 0 then
    u_close fds.2;;
    total ← pipe1_read fuel s fds.1 1 0 0;
    match total with
    | None => mret tt
    | Some total =>
        refuse (negb (total =? 5165)) "%s: pipe1 oops 3 total %d" [AInt total];;
        u_close fds.1;;
        w ← u_wait_st junk;
        u_exit w.2
    end
  else bad "%s: fork() failed" [s_arg s].

Definition preempt (s : list Z) : uprog unit :=
  pid1 ← u_fork;
  refuse_on (pid1 <? 0) "%s: fork failed" [s_arg s];;
  u_when (pid1 =? 0) u_spin;;
  pid2 ← u_fork;
  refuse (pid2 <? 0) "%s: fork failed" [s_arg s];;
  u_when (pid2 =? 0) u_spin;;
  r ← u_pipe;
  let pfds := r.2 in
  pid3 ← u_fork;
  refuse (pid3 <? 0) "%s: fork failed" [s_arg s];;
  u_when (pid3 =? 0) (
    u_close pfds.1;;
    n ← u_write pfds.2 (codes "x");
    u_when (negb (n =? 1)) (say_on "%s: preempt write error" [s_arg s]);;
    u_close pfds.2;;
    u_spin);;
  u_close pfds.2;;
  n ← u_read pfds.1 BUFSZ;
  if negb (n.1 =? 1) then say_on "%s: preempt read error" [s_arg s] else
  u_close pfds.1;;
  say_on "kill... " [];;
  u_kill pid1;;
  u_kill pid2;;
  u_kill pid3;;
  say_on "wait... " [];;
  u_wait;;
  u_wait;;
  u_wait;;
  mret tt.

(** ** fork, wait, kill and exit *)

Definition killstatus (fuel : nat) (s : list Z) : uprog unit :=
  u_for 100 0 (λ _,
    pid1 ← u_fork;
    refuse (pid1 <? 0) "%s: fork failed" [s_arg s];;
    u_when (pid1 =? 0) (u_while fuel (u_getpid;; mret true);; u_exit 0);;
    u_sleep 1;;
    u_kill pid1;;
    w ← u_wait_st junk;
    refuse (negb (w.2 =? -1)) "%s: status should be -1" [s_arg s]);;
  u_exit 0.

Definition exitwait (s : list Z) : uprog unit :=
  u_for 100 0 (λ i,
    pid ← u_fork;
    refuse (pid <? 0) "%s: fork failed" [s_arg s];;
    if negb (pid =? 0) then
      w ← u_wait_st junk;
      refuse (negb (w.1 =? pid)) "%s: wait wrong pid" [s_arg s];;
      refuse (negb (i =? w.2)) "%s: wait wrong exit status" [s_arg s]
    else u_exit i).

Definition ut_reparent (s : list Z) : uprog unit :=
  master_pid ← u_getpid;
  u_for 200 0 (λ _,
    pid ← u_fork;
    refuse (pid <? 0) "%s: fork failed" [s_arg s];;
    if negb (pid =? 0) then
      r ← u_wait;
      refuse (negb (r =? pid)) "%s: wait wrong pid" [s_arg s]
    else
      pid2 ← u_fork;
      (if pid2 <? 0 then u_kill master_pid;; u_exit 1 else mret tt);;
      u_exit 0);;
  u_exit 0.

Definition twochildren (s : list Z) : uprog unit :=
  u_for 1000 0 (λ _,
    pid1 ← u_fork;
    refuse (pid1 <? 0) "%s: fork failed" [s_arg s];;
    if pid1 =? 0 then u_exit 0 else
    pid2 ← u_fork;
    refuse (pid2 <? 0) "%s: fork failed" [s_arg s];;
    if pid2 =? 0 then u_exit 0 else
    u_wait;;
    u_wait;;
    mret tt).

Definition forkfork (s : list Z) : uprog unit :=
  u_for 2 0 (λ _,
    pid ← u_fork;
    refuse_on (pid <? 0) "%s: fork failed" [s_arg s];;
    u_when (pid =? 0) (
      u_for 200 0 (λ _,
        pid1 ← u_fork;
        if pid1 <? 0 then u_exit 1 else
        if pid1 =? 0 then u_exit 0 else
        u_wait;;
        mret tt);;
      u_exit 0));;
  u_for 2 0 (λ _,
    w ← u_wait_st junk;
    refuse_on (negb (w.2 =? 0)) "%s: fork in child failed" [s_arg s]).

Definition forkforkfork (fuel : nat) (s : list Z) : uprog unit :=
  u_unlink (codes "stopforking");;
  pid ← u_fork;
  refuse_on (pid <? 0) "%s: fork failed" [s_arg s];;
  u_when (pid =? 0) (
    u_while fuel (
      fd ← u_open (codes "stopforking") 0;
      if fd >=? 0 then u_exit 0 else
      r ← u_fork;
      u_when (r <? 0) (u_touch (codes "stopforking") O_CRW);;
      mret true);;
    u_exit 0);;
  u_sleep 20;;
  u_touch (codes "stopforking") O_CRW;;
  u_wait;;
  u_sleep 10;;
  mret tt.

Definition reparent2 (s : list Z) : uprog unit :=
  u_for 800 0 (λ _,
    pid1 ← u_fork;
    refuse (pid1 <? 0) "fork failed" [];;
    u_when (pid1 =? 0) (u_fork;; u_fork;; u_exit 0);;
    u_wait;;
    mret tt);;
  u_exit 0.

(** [forktest] of usertests.c; that of forktest.c is [Programs.forktest]. *)
Definition ut_forktest (s : list Z) : uprog unit :=
  n ← forktest_forks 1000 0;
  refuse (n =? 0) "%s: no fork at all!" [s_arg s];;
  refuse (n =? 1000) "%s: fork claimed to work 1000 times!" [s_arg s];;
  u_for (Z.to_nat n) 0 (λ _,
    r ← u_wait;
    refuse (r <? 0) "%s: wait stopped early" [s_arg s]);;
  r ← u_wait;
  refuse (negb (r =? -1)) "%s: wait got too many" [s_arg s].

(** ** exec *)

(** The text of an argument of [bigargtest]: a line and 199 blanks. *)
Definition bigarg : list Z := line "bigargs test: failed" ++ replicate 199 32.

Definition bigargtest (s : list Z) : uprog unit :=
  u_unlink (codes "bigarg-ok");;
  pid ← u_fork;
  (if pid =? 0 then
     u_exec (codes "echo") (replicate (MAXARG - 1) bigarg);;
     u_touch (codes "bigarg-ok") O_CREATE;;
     u_exit 0
   else refuse (pid <? 0) "%s: bigargtest: fork failed" [s_arg s]);;
  w ← u_wait_st junk;
  if negb (w.2 =? 0) then u_exit w.2 else
  fd ← u_open (codes "bigarg-ok") 0;
  refuse (fd <? 0) "%s: bigarg test failed!" [s_arg s];;
  u_close fd;;
  mret tt.

(** ** malloc

    The chain of blocks goes through their first words, [next]. *)
Section Mem.
Context (base : Z).

Fixpoint mem_fill (fuel : nat) (h : hst) (next : Z → Z) (m1 : Z) : uprog (hst * (Z → Z) * Z) :=
  match fuel with
  | O => UFuel
  | S fuel' =>
      r ← malloc base fuel 10001 h;
      if r.1 =? 0 then mret (r.2, next, m1) else mem_fill fuel' r.2 (upd r.1 m1 next) r.1
  end.

Fixpoint mem_free (fuel : nat) (h : hst) (next : Z → Z) (m1 : Z) : uprog hst :=
  match fuel with
  | O => UFuel
  | S fuel' =>
      if m1 =? 0 then mret h else
      match u_free fuel m1 h with None => UFuel | Some h => mem_free fuel' h next (next m1) end
  end.

Definition ut_mem (fuel : nat) (s : list Z) : uprog unit :=
  pid ← u_fork;
  if pid =? 0 then
    r ← mem_fill fuel (mk_hst (λ _, 0) (λ _, 0) 0) (λ _, 0) 0;
    h ← mem_free fuel r.1.1 r.1.2 r.2;
    m ← malloc base fuel (1024 * 20) h;
    refuse (m.1 =? 0) "couldn't allocate mem?!!" [s_arg s];;
    match u_free fuel m.1 m.2 with None => UFuel | Some _ => u_exit 0 end
  else
    w ← u_wait_st junk;
    if w.2 =? -1 then u_exit 0 else u_exit w.2.
End Mem.
End Procs.

(** * user/usertests.c: the tests of pointers and memory *)

(** The string at an address, as the program itself reads it. *)
Fixpoint load_str (fuel : nat) (a : Z) : uprog (list Z) :=
  match fuel with
  | O => UFuel
  | S fuel => c ← u_load a; if c =? 0 then mret [] else l ← load_str fuel (a + 1); mret (c :: l)
  end.

Section Memory.
Context (junk : Z).

(** ** Pointers of system calls *)

Definition addrs : list Z := [0x80000000; 0xffffffffffffffff].

Definition ut_copyin_at (addr : Z) : uprog unit :=
  fd ← u_open (codes "copyin1") O_CW;
  refuse (fd <? 0) "open(copyin1) failed" [];;
  n ← u_raw (WriteAt fd addr 8192);
  refuse (n >=? 0) "write(fd, %p, 8192) returned %d, not -1" [APtr addr; AInt n];;
  u_close fd;;
  u_unlink (codes "copyin1");;
  n ← u_raw (WriteAt 1 addr 8192);
  refuse (n >? 0) "write(1, %p, 8192) returned %d, not -1 or 0" [APtr addr; AInt n];;
  r ← u_pipe;
  let fds := r.2 in
  refuse (r.1 <? 0) "pipe() failed" [];;
  n ← u_raw (WriteAt fds.2 addr 8192);
  refuse (n >? 0) "write(pipe, %p, 8192) returned %d, not -1 or 0" [APtr addr; AInt n];;
  u_close fds.1;;
  u_close fds.2;;
  mret tt.

Fixpoint each_addr (f : Z → uprog unit) (l : list Z) : uprog unit :=
  match l with [] => mret tt | a :: l => f a;; each_addr f l end.

Definition ut_copyin (s : list Z) : uprog unit := each_addr ut_copyin_at addrs.

Definition ut_copyout_at (addr : Z) : uprog unit :=
  fd ← u_open (codes "README") 0;
  refuse (fd <? 0) "open(README) failed" [];;
  n ← u_raw (ReadAt fd addr 8192);
  refuse (n >? 0) "read(fd, %p, 8192) returned %d, not -1 or 0" [APtr addr; AInt n];;
  u_close fd;;
  r ← u_pipe;
  let fds := r.2 in
  refuse (r.1 <? 0) "pipe() failed" [];;
  n ← u_write fds.2 (codes "x");
  refuse (negb (n =? 1)) "pipe write failed" [];;
  n ← u_raw (ReadAt fds.1 addr 8192);
  refuse (n >? 0) "read(pipe, %p, 8192) returned %d, not -1 or 0" [APtr addr; AInt n];;
  u_close fds.1;;
  u_close fds.2;;
  mret tt.

Definition ut_copyout (s : list Z) : uprog unit := each_addr ut_copyout_at addrs.

Definition copyinstr1 (s : list Z) : uprog unit :=
  each_addr (λ addr,
    fd ← u_raw (OpenAt addr O_CW);
    refuse (fd >=? 0) "open(%p) returned %d, not -1" [APtr addr; AInt fd]) addrs.

Definition copyinstr2 (s : list Z) : uprog unit :=
  let b := replicate (Z.to_nat MAXPATH) 120 in
  ret ← u_unlink b;
  refuse (negb (ret =? -1)) "unlink(%s) returned %d, not -1" [s_arg b; AInt ret];;
  fd ← u_open b O_CW;
  refuse (negb (fd =? -1)) "open(%s) returned %d, not -1" [s_arg b; AInt fd];;
  ret ← u_link b b;
  refuse (negb (ret =? -1)) "link(%s, %s) returned %d, not -1" [s_arg b; s_arg b; AInt ret];;
  ret ← u_exec b [codes "xx"];
  refuse (negb (ret =? -1)) "exec(%s) returned %d, not -1" [s_arg b; AInt fd];;
  pid ← u_fork;
  refuse (pid <? 0) "fork failed" [];;
  u_when (pid =? 0) (
    let big := replicate (Z.to_nat PGSIZE) 120 in
    ret ← u_exec (codes "echo") [big; big; big];
    refuse (negb (ret =? -1)) "exec(echo, BIG) returned %d, not -1" [AInt fd];;
    u_exit 747);;
  w ← u_wait_st 0;
  refuse (negb (w.2 =? 747)) "exec(echo, BIG) succeeded, should have failed" [].

(** [b] is the last byte below the break; printing the string at it would read
    beyond. *)
Definition copyinstr3 (s : list Z) : uprog unit :=
  u_sbrk 8192;;
  top ← u_sbrk 0;
  u_when (negb (u64 top mod PGSIZE =? 0)) (u_sbrk (i32 (PGSIZE - u64 top mod PGSIZE));; mret tt);;
  top ← u_sbrk 0;
  refuse (negb (u64 top mod PGSIZE =? 0)) "oops" [];;
  let b := u64 top - 1 in
  u_store b 120;;
  ret ← u_raw (UnlinkAt b);
  u_when (negb (ret =? -1)) (t ← load_str 2 b; bad "unlink(%s) returned %d, not -1" [s_arg t; AInt ret]);;
  fd ← u_raw (OpenAt b O_CW);
  u_when (negb (fd =? -1)) (t ← load_str 2 b; bad "open(%s) returned %d, not -1" [s_arg t; AInt fd]);;
  ret ← u_raw (LinkAt b b);
  u_when (negb (ret =? -1)) (t ← load_str 2 b; bad "link(%s, %s) returned %d, not -1" [s_arg t; s_arg t; AInt ret]);;
  ret ← u_raw (ExecAt b [codes "xx"]);
  u_when (negb (ret =? -1)) (t ← load_str 2 b; bad "exec(%s) returned %d, not -1" [s_arg t; AInt fd]).

Definition rwsbrk : uprog unit :=
  a ← u_sbrk 8192;
  refuse (failed a) "sbrk(rwsbrk) failed" [];;
  r ← u_sbrk (-8192);
  refuse (failed r) "sbrk(rwsbrk) shrink failed" [];;
  fd ← u_open (codes "rwsbrk") O_CW;
  refuse (fd <? 0) "open(rwsbrk) failed" [];;
  n ← u_raw (WriteAt fd (a + 4096) 1024);
  refuse (n >=? 0) "write(fd, %p, 1024) returned %d, not -1" [APtr (a + 4096); AInt n];;
  u_close fd;;
  u_unlink (codes "rwsbrk");;
  fd ← u_open (codes "README") O_RDONLY;
  refuse (fd <? 0) "open(rwsbrk) failed" [];;
  n ← u_raw (ReadAt fd (a + 4096) 10);
  refuse (n >=? 0) "read(fd, %p, 10) returned %d, not -1" [APtr (a + 4096); AInt n];;
  u_close fd;;
  u_exit 0.

Definition validatetest (s : list Z) : uprog unit :=
  u_for 276 0 (λ i,
    r ← u_raw (LinkTo (codes "nosuchfile") (i * PGSIZE));
    refuse (negb (r =? -1)) "%s: link should not succeed" [s_arg s]).

Definition argptest (s : list Z) : uprog unit :=
  fd ← u_open (codes "init") O_RDONLY;
  refuse (fd <? 0) "%s: open failed" [s_arg s];;
  top ← u_sbrk 0;
  u_raw (ReadAt fd (top - 1) (-1));;
  u_close fd;;
  mret tt.

Definition pgbug (s : list Z) : uprog unit :=
  u_raw (ExecAt 0xeaeb0b5b00002f5e []);;
  u_raw (PipeAt 0xeaeb0b5b00002f5e);;
  u_exit 0.

Definition badwrite (s : list Z) : uprog unit :=
  u_unlink (codes "junk");;
  u_for 600 0 (λ _,
    fd ← u_open (codes "junk") O_CW;
    refuse (fd <? 0) "open junk failed" [];;
    u_raw (WriteAt fd 0xffffffffff 1);;
    u_close fd;;
    u_unlink (codes "junk");;
    mret tt);;
  fd ← u_open (codes "junk") O_CW;
  refuse (fd <? 0) "open junk failed" [];;
  r ← u_write fd (codes "x");
  refuse (negb (r =? 1)) "write failed" [];;
  u_close fd;;
  u_unlink (codes "junk");;
  u_exit 0.

Definition badarg (s : list Z) : uprog unit :=
  u_for (Z.to_nat 50000) 0 (λ _, u_raw (ExecPtrs (codes "echo") [0xffffffff]);; mret tt);;
  u_exit 0.

(** ** sbrk *)

Definition TOOMUCH : Z := 1024 * 1024 * 1024.

(** The loop that grows the memory by a byte at a time: the next address. *)
Fixpoint sbrk_bytes (k : nat) (s : list Z) (i a : Z) : uprog Z :=
  match k with
  | O => mret a
  | S k =>
      b ← u_sbrk 1;
      refuse (negb (b =? a)) "%s: sbrk test failed %d %x %x" [s_arg s; AInt i; AInt (i32 a); AInt (i32 b)];;
      u_store b 1;;
      sbrk_bytes k s (i + 1) (b + 1)
  end.

Definition sbrkbasic (s : list Z) : uprog unit :=
  pid ← u_fork;
  refuse (pid <? 0) "fork failed in sbrkbasic" [];;
  u_when (pid =? 0) (
    a ← u_sbrk TOOMUCH;
    if failed a then u_exit 0 else
    u_for (Z.to_nat (TOOMUCH / 4096)) 0 (λ i, u_store (a + i * 4096) 99;; mret tt);;
    u_exit 1);;
  w ← u_wait_st junk;
  refuse (w.2 =? 1) "%s: too much memory allocated!" [s_arg s];;
  a ← u_sbrk 0;
  a ← sbrk_bytes (Z.to_nat 5000) s 0 a;
  pid ← u_fork;
  refuse (pid <? 0) "%s: sbrk test fork failed" [s_arg s];;
  u_sbrk 1;;
  c ← u_sbrk 1;
  refuse (negb (c =? a + 1)) "%s: sbrk test failed post-fork" [s_arg s];;
  if pid =? 0 then u_exit 0 else
  w ← u_wait_st w.2;
  u_exit w.2.

Definition BIG : Z := 100 * 1024 * 1024.

Definition sbrkmuch (s : list Z) : uprog unit :=
  oldbrk ← u_sbrk 0;
  a ← u_sbrk 0;
  p ← u_sbrk (i32 (BIG - a));
  refuse (negb (p =? a)) "%s: sbrk test failed to grow big address space; enough phys mem?" [s_arg s];;
  eee ← u_sbrk 0;
  u_for (Z.to_nat ((eee - a + 4095) / 4096)) 0 (λ i, u_store (a + i * 4096) 1;; mret tt);;
  let lastaddr := BIG - 1 in
  u_store lastaddr 99;;
  a ← u_sbrk 0;
  c ← u_sbrk (- PGSIZE);
  refuse (failed c) "%s: sbrk could not deallocate" [s_arg s];;
  c ← u_sbrk 0;
  refuse (negb (c =? a - PGSIZE)) "%s: sbrk deallocation produced wrong address, a %x c %x" [s_arg s; AInt (i32 a); AInt (i32 c)];;
  a ← u_sbrk 0;
  c ← u_sbrk PGSIZE;
  (if negb (c =? a) then bad "%s: sbrk re-allocation failed, a %x c %x" [s_arg s; AInt (i32 a); AInt (i32 c)] else
   e ← u_sbrk 0;
   refuse (negb (e =? a + PGSIZE)) "%s: sbrk re-allocation failed, a %x c %x" [s_arg s; AInt (i32 a); AInt (i32 c)]);;
  v ← u_load lastaddr;
  refuse (v =? 99) "%s: sbrk de-allocation didn't really deallocate" [s_arg s];;
  a ← u_sbrk 0;
  e ← u_sbrk 0;
  c ← u_sbrk (i32 (- (e - oldbrk)));
  refuse (negb (c =? a)) "%s: sbrk downsize failed, a %x c %x" [s_arg s; AInt (i32 a); AInt (i32 c)].

Definition kernmem (s : list Z) : uprog unit :=
  u_for 40 0 (λ i,
    let a := KERNBASE + i * 50000 in
    pid ← u_fork;
    refuse (pid <? 0) "%s: fork failed" [s_arg s];;
    u_when (pid =? 0) (
      v ← u_load a;
      bad "%s: oops could read %x = %x" [s_arg s; AInt (i32 a); AInt v]);;
    w ← u_wait_st junk;
    if negb (w.2 =? -1) then u_exit 1 else mret tt).

Fixpoint MAXVAplus_loop (fuel : nat) (s : list Z) (a : Z) : uprog unit :=
  match fuel with
  | O => UFuel
  | S fuel =>
      if a =? 0 then mret tt else
      pid ← u_fork;
      refuse (pid <? 0) "%s: fork failed" [s_arg s];;
      u_when (pid =? 0) (
        u_store a 99;;
        bad "%s: oops wrote %x" [s_arg s; AInt (i32 a)]);;
      w ← u_wait_st junk;
      if negb (w.2 =? -1) then u_exit 1 else
      MAXVAplus_loop fuel s (u64 (Z.shiftl a 1))
  end.

Definition MAXVAplus (s : list Z) : uprog unit := MAXVAplus_loop 27 s MAXVA.

(** The processes of [sbrkfail], and the pages it reads. *)
Fixpoint sbrkfail_forks (k fuel : nat) (fds : Z * Z) : uprog (list Z) :=
  match k with
  | O => mret []
  | S k =>
      pid ← u_fork;
      u_when (pid =? 0) (
        b ← u_sbrk 0;
        u_sbrk (i32 (BIG - b));;
        u_write fds.2 (codes "x");;
        u_while fuel (u_sleep 1000;; mret true));;
      u_when (negb (pid =? -1)) (u_read fds.1 1;; mret tt);;
      pids ← sbrkfail_forks k fuel fds;
      mret (pid :: pids)
  end.

Fixpoint sbrkfail_kills (pids : list Z) : uprog unit :=
  match pids with
  | [] => mret tt
  | pid :: pids => u_when (negb (pid =? -1)) (u_kill pid;; u_wait;; mret tt);; sbrkfail_kills pids
  end.

Fixpoint sum_pages (k : nat) (a n : Z) : uprog Z :=
  match k with
  | O => mret n
  | S k => v ← u_load a; sum_pages k (a + PGSIZE) (i32 (n + v))
  end.

Definition sbrkfail (fuel : nat) (s : list Z) : uprog unit :=
  r ← u_pipe;
  refuse (negb (r.1 =? 0)) "%s: pipe() failed" [s_arg s];;
  pids ← sbrkfail_forks 10 fuel r.2;
  c ← u_sbrk PGSIZE;
  sbrkfail_kills pids;;
  refuse (failed c) "%s: failed sbrk leaked memory" [s_arg s];;
  pid ← u_fork;
  refuse (pid <? 0) "%s: fork failed" [s_arg s];;
  u_when (pid =? 0) (
    a ← u_sbrk 0;
    u_sbrk (10 * BIG);;
    n ← sum_pages (Z.to_nat (10 * BIG / PGSIZE)) a 0;
    bad "%s: allocate a lot of memory succeeded %d" [s_arg s; AInt n]);;
  w ← u_wait_st junk;
  if negb (w.2 =? -1) && negb (w.2 =? 2) then u_exit 1 else mret tt.

Definition sbrkarg (s : list Z) : uprog unit :=
  a ← u_sbrk PGSIZE;
  fd ← u_open (codes "sbrk") O_CW;
  u_unlink (codes "sbrk");;
  refuse (fd <? 0) "%s: open sbrk failed" [s_arg s];;
  n ← u_raw (WriteAt fd a PGSIZE);
  refuse (n <? 0) "%s: write sbrk failed" [s_arg s];;
  u_close fd;;
  a ← u_sbrk PGSIZE;
  r ← u_raw (PipeAt a);
  refuse (negb (r =? 0)) "%s: pipe() failed" [s_arg s].

(** A process with [sbrk] calls that may leave it without memory. *)
Definition sbrk_child (body : uprog unit) : uprog unit :=
  pid ← u_fork;
  refuse (pid <? 0) "fork failed" [];;
  u_when (pid =? 0) (body;; u_exit 0);;
  u_wait;;
  mret tt.

Definition sbrkbugs (s : list Z) : uprog unit :=
  sbrk_child (sz ← u_sbrk 0; u_sbrk (i32 (- i32 sz));; mret tt);;
  sbrk_child (sz ← u_sbrk 0; u_sbrk (i32 (- (i32 sz - 3500)));; mret tt);;
  sbrk_child (b ← u_sbrk 0; u_sbrk (i32 (10 * 4096 + 2048 - b));; u_sbrk (-10);; mret tt);;
  u_exit 0.

Definition sbrklast (s : list Z) : uprog unit :=
  top ← u_sbrk 0;
  u_when (negb (u64 top mod 4096 =? 0)) (u_sbrk (i32 (4096 - u64 top mod 4096));; mret tt);;
  u_sbrk 4096;;
  u_sbrk 10;;
  u_sbrk (-20);;
  top ← u_sbrk 0;
  let p := u64 top - 64 in
  u_store p 120;;
  u_store (p + 1) 0;;
  fd ← u_raw (OpenAt p (Z.lor O_RDWR O_CREATE));
  u_raw (WriteAt fd p 1);;
  u_close fd;;
  fd ← u_raw (OpenAt p O_RDWR);
  u_store p 0;;
  u_raw (ReadAt fd p 1);;
  v ← u_load p;
  if negb (v =? 120) then u_exit 1 else mret tt.

Definition sbrk8000 (s : list Z) : uprog unit :=
  u_sbrk (i32 0x80000004);;
  top ← u_sbrk 0;
  v ← u_load (top - 1);
  u_store (top - 1) ((v + 1) mod 256);;
  mret tt.

(** ** The memory of the program: [uninit] is the address of the array *)

Definition bsstest (uninit : Z) (s : list Z) : uprog unit :=
  u_for (Z.to_nat 10000) 0 (λ i,
    c ← u_load (uninit + i);
    refuse (negb (c =? 0)) "%s: bss test failed" [s_arg s]).

Definition stacktest (s : list Z) : uprog unit :=
  pid ← u_fork;
  (if pid =? 0 then
     sp ← u_raw RegSp;
     v ← u_load (sp - PGSIZE);
     bad "%s: stacktest: read below stack %p" [s_arg s; APtr v]
   else refuse (pid <? 0) "%s: fork failed" [s_arg s]);;
  w ← u_wait_st junk;
  if w.2 =? -1 then u_exit 0 else u_exit w.2.

(** ** All of memory *)

(** [sbrk] page by page until it fails; each page is written and reported. *)
Definition take_page (report : uprog unit) : uprog bool :=
  a ← u_sbrk 4096;
  if failed a then mret false else
  u_store (a + 4096 - 1) 1;;
  report;;
  mret true.

Definition execout (fuel : nat) (s : list Z) : uprog unit :=
  u_for 15 0 (λ avail,
    pid ← u_fork;
    if pid <? 0 then bad "fork failed" [] else
    if pid =? 0 then
      u_while fuel (take_page (mret tt));;
      u_for (Z.to_nat avail) 0 (λ _, u_sbrk (-4096);; mret tt);;
      u_close 1;;
      u_exec (codes "echo") [codes "echo"; codes "x"];;
      u_exit 0
    else u_wait;; mret tt);;
  u_exit 0.

(** The number of bytes that come through the pipe. *)
Fixpoint count_bytes (fuel : nat) (fd n : Z) : uprog Z :=
  match fuel with
  | O => UFuel
  | S fuel =>
      cc ← u_read fd 1;
      refuse (cc.1 <? 0) "read() failed in countfree()" [];;
      if cc.1 =? 0 then mret n else count_bytes fuel fd (n + 1)
  end.

Definition countfree (fuel : nat) : uprog Z :=
  r ← u_pipe;
  let fds := r.2 in
  refuse (r.1 <? 0) "pipe() failed in countfree()" [];;
  pid ← u_fork;
  refuse (pid <? 0) "fork failed in countfree()" [];;
  u_when (pid =? 0) (
    u_close fds.1;;
    u_while fuel (take_page (
      n ← u_write fds.2 (codes "x");
      refuse (negb (n =? 1)) "write() failed in countfree()" []));;
    u_exit 0);;
  u_close fds.2;;
  n ← count_bytes fuel fds.1 0;
  u_close fds.1;;
  u_wait;;
  mret n.
End Memory.
