(* ===== verification/UtMain.v ===== *)
(** * user/usertests.c: the runner and its verdict *)

From S2P Require Import Prelude Memory Params CString Uart User Ulib Programs UtFile UtProc.

(** * user/usertests.c: the table of tests and the runner *)

Section Main.
(** [base] is the address of the allocator's variable and [uninit] that of the
    array of [bsstest]. *)
Context (junk base uninit : Z) (fuel : nat).

(** Whether the test succeeds. *)
Definition ut_run (f : list Z → uprog unit) (s : list Z) : uprog bool :=
  say_on "test %s: " [s_arg s];;
  pid ← u_fork;
  refuse (pid <? 0) "runtest: fork error" [];;
  if pid =? 0 then f s;; u_exit 0 else
  w ← u_wait_st junk;
  (if negb (w.2 =? 0) then say "FAILED" [] else say "OK" []);;
  mret (w.2 =? 0).

Definition tests : list ((list Z → uprog unit) * string) := [
  (MAXVAplus junk, "MAXVAplus"); (manywrites, "manywrites"); (execout fuel, "execout");
  (ut_copyin, "copyin"); (ut_copyout, "copyout");
  (copyinstr1, "copyinstr1"); (copyinstr2, "copyinstr2"); (copyinstr3, "copyinstr3"); (λ _, rwsbrk, "rwsbrk");
  (truncate1, "truncate1"); (truncate2, "truncate2"); (truncate3 junk, "truncate3");
  (reparent2, "reparent2"); (pgbug, "pgbug"); (sbrkbugs, "sbrkbugs"); (badarg, "badarg"); (ut_reparent, "reparent");
  (twochildren, "twochildren"); (forkfork junk, "forkfork"); (forkforkfork fuel, "forkforkfork");
  (argptest, "argptest"); (createdelete junk, "createdelete"); (linkunlink, "linkunlink"); (linktest, "linktest");
  (unlinkread, "unlinkread"); (concreate junk fuel, "concreate"); (subdir, "subdir");
  (fourfiles junk fuel, "fourfiles"); (sharedfd junk fuel, "sharedfd"); (dirtest, "dirtest"); (exectest junk, "exectest");
  (bigargtest junk, "bigargtest"); (bigwrite, "bigwrite"); (bsstest uninit, "bsstest"); (sbrkbasic junk, "sbrkbasic");
  (sbrkmuch, "sbrkmuch"); (kernmem junk, "kernmem"); (sbrkfail junk fuel, "sbrkfail"); (sbrkarg, "sbrkarg");
  (sbrklast, "sbrklast"); (sbrk8000, "sbrk8000"); (validatetest, "validatetest"); (stacktest junk, "stacktest");
  (opentest, "opentest"); (writetest, "writetest"); (writebig, "writebig"); (createtest, "createtest");
  (openiputtest junk, "openiput"); (exitiputtest junk, "exitiput"); (iputtest, "iput"); (ut_mem junk base fuel, "mem");
  (pipe1 junk fuel, "pipe1"); (killstatus junk fuel, "killstatus"); (preempt, "preempt"); (exitwait junk, "exitwait");
  (rmdot, "rmdot"); (fourteen, "fourteen"); (bigfile fuel, "bigfile"); (dirfile, "dirfile"); (iref, "iref");
  (ut_forktest, "forktest"); (bigdir, "bigdir") ].

(** A round of the continuous run: whether a test failed; it stops at the first. *)
Fixpoint run_until_fail (ts : list ((list Z → uprog unit) * string)) : uprog bool :=
  match ts with
  | [] => mret false
  | t :: ts => ok ← ut_run t.1 (codes t.2); if (ok : bool) then run_until_fail ts else mret true
  end.

Fixpoint continuously (k : nat) (continuous : Z) : uprog unit :=
  match k with
  | O => UFuel
  | S k =>
      free0 ← countfree fuel;
      fail ← run_until_fail tests;
      u_when fail (
        say "SOME TESTS FAILED" [];;
        if negb (continuous =? 2) then u_exit 1 else mret tt);;
      free1 ← countfree fuel;
      u_when (free1 <? free0) (
        say "FAILED -- lost %d free pages" [AInt (free0 - free1)];;
        if negb (continuous =? 2) then u_exit 1 else mret tt);;
      continuously k continuous
  end.

(** The tests that are asked for: whether one failed. *)
Fixpoint run_all (justone : option (list Z)) (ts : list ((list Z → uprog unit) * string)) (fail : bool) : uprog bool :=
  match ts with
  | [] => mret fail
  | t :: ts =>
      if match justone with None => true | Some j => strcmp (codes t.2) j =? 0 end then
        ok ← ut_run t.1 (codes t.2);
        run_all justone ts (if (ok : bool) then fail else true)
      else run_all justone ts fail
  end.

Definition ut_once (justone : option (list Z)) : uprog unit :=
  say "usertests starting" [];;
  free0 ← countfree fuel;
  fail ← run_all justone tests false;
  if (fail : bool) then bad "SOME TESTS FAILED" [] else
  free1 ← countfree fuel;
  if free1 <? free0 then bad "FAILED -- lost some free pages %d (out of %d)" [AInt free1; AInt free0] else
  say "ALL TESTS PASSED" [];;
  u_exit 0.

Definition ut_main (argv : list (list Z)) : uprog unit :=
  let arg := nth 1 argv [] in
  let two := (length argv =? 2)%nat in
  let go_on c := say "continuous usertests starting" [];; continuously fuel c in
  if two && (strcmp arg (codes "-c") =? 0) then go_on 1
  else if two && (strcmp arg (codes "-C") =? 0) then go_on 2
  else if two && negb (chr arg =? 45) then ut_once (Some arg)
  else if (1 <? length argv)%nat then bad "Usage: usertests [-c] [testname]" []
  else ut_once None.
End Main.

(** * The verdict of usertests

    The runner of user/usertests.c as its parent process sees it: the children
    are given by what they leave behind, the number of bytes they wrote into the
    pipe and their exit status. *)

(** ** The parent's view *)

Record child : Type := mk_child { ch_bytes : nat; ch_status : Z }.

(** The children to come, and what the last one left in the pipe and as its
    status. *)
Record view : Type := mk_view { v_todo : list child; v_pipe : nat; v_status : Z }.

Definition view_answer (X : Set) (r : sysreq X) (v : view) : X * view :=
  match r with
  | RFork =>
      match v_todo v with
      | c :: l => (1, mk_view l (ch_bytes c) (ch_status c))
      | [] => (-1, v)
      end
  | RWait => (1, v)
  | RWaitStatus => ((1, Some (v_status v)), v)
  | RPipe => ((0, (3, 4)), v)
  | RRead _ _ =>
      match v_pipe v with
      | O => ((0, []), v)
      | S n => ((1, [120]), mk_view (v_todo v) n (v_status v))
      end
  | RWrite _ bytes => (Z.of_nat (length bytes), v)
  | RClose _ => (0, v)
  | RFstat _ => ((-1, mk_ustat 0 0 0 0 0), v)
  | RKill _ | RExec _ _ | ROpen _ _ | RMknod _ _ _ | RUnlink _ | RLink _ _ | RMkdir _ | RChdir _ | RDup _ | RGetpid
  | RSbrk _ | RSleep _ | RLoad _ | RStore _ _ | RRaw _ => (-1, v)
  end.

Definition view_world : world view := mk_world _ view_answer.

(** ** Output leaves no trace in the view *)

Definition mute (m : uprog unit) : Prop := ∀ v, urun view_world m v = (Returned tt, v).

Lemma mute_bind (m : uprog unit) (f : unit → uprog unit) : mute m → mute (f tt) → mute (m ≫= f).
Proof. intros Hm Hf v. by rewrite urun_bind, Hm, Hf. Qed.

Lemma mute_putc fd c : mute (putc fd c).
Proof. done. Qed.
Lemma mute_putcs fd l : mute (u_putcs fd l).
Proof. induction l as [|c l IH]; [done|]. by apply mute_bind. Qed.
Lemma mute_vprintf fd fmt percent ap : mute (vprintf fd fmt percent ap).
Proof.
  revert percent ap. induction fmt as [|c fmt IH]; intros percent ap; [done|]. cbn [vprintf].
  repeat first [ done | apply IH | apply mute_bind | apply mute_putc | apply mute_putcs | case_match ].
Qed.

Lemma urun_say {B} (f : unit → uprog B) fmt ap v :
  urun view_world (say fmt ap ≫= f) v = urun view_world (f tt) v.
Proof. rewrite urun_bind. unfold say, u_printf. by rewrite (mute_vprintf _ _ _ _ v). Qed.

Lemma urun_say_on {B} (f : unit → uprog B) fmt ap v :
  urun view_world (say_on fmt ap ≫= f) v = urun view_world (f tt) v.
Proof. rewrite urun_bind. unfold say_on, u_printf. by rewrite (mute_vprintf _ _ _ _ v). Qed.

Lemma urun_bad {A} fmt ap v : urun view_world (bad fmt ap : uprog A) v = (Exited 1, v).
Proof. unfold bad. by rewrite urun_say. Qed.

Lemma urun_refuse {B} (f : unit → uprog B) c fmt ap v :
  urun view_world (refuse c fmt ap ≫= f) v = if c then (Exited 1, v) else urun view_world (f tt) v.
Proof. rewrite urun_bind. unfold refuse. destruct c; [by rewrite urun_bad|done]. Qed.

Lemma urun_then {X : Set} {B} (r : sysreq X) (f : X → uprog B) v :
  urun view_world (call r ≫= f) v = urun view_world (f (view_answer X r v).1) (view_answer X r v).2.
Proof. by rewrite urun_bind, urun_call. Qed.

(** ** The pieces of the runner *)

Section main.
Context (junk base uninit : Z) (fuel : nat).

Lemma count_bytes_run n k fd m todo st :
  (n < k)%nat → urun view_world (count_bytes k fd m) (mk_view todo n st) = (Returned (m + Z.of_nat n), mk_view todo 0 st).
Proof.
  revert k m. induction n as [|n IH]; intros [|k] m Hk; try lia; cbn [count_bytes]; unfold u_read; rewrite urun_then, urun_refuse.
  - cbn. by rewrite Z.add_0_r.
  - cbn [view_answer v_pipe fst snd v_todo v_status]. change (1 <? 0) with false. change (1 =? 0) with false. cbv iota.
    rewrite IH by lia. do 2 f_equal. lia.
Qed.

Lemma countfree_run n st todo v :
  v_todo v = mk_child n st :: todo → (n < fuel)%nat →
  urun view_world (countfree fuel) v = (Returned (Z.of_nat n), mk_view todo 0 st).
Proof.
  intros Hv Hn. unfold countfree, u_pipe, u_fork, u_close, u_wait.
  rewrite urun_then. cbn [view_answer fst snd]. rewrite urun_refuse. change (0 <? 0) with false. cbv iota.
  rewrite urun_then. cbn [view_answer]. rewrite Hv. cbn [fst snd ch_bytes ch_status].
  rewrite urun_refuse. change (1 <? 0) with false. cbv iota. cbn [u_when Z.eqb].
  rewrite (urun_ret _ (mret tt) tt _ (mk_view todo n st)) by done.
  rewrite urun_then. cbn [view_answer fst snd].
  rewrite (urun_ret _ _ _ _ _ _ _ (count_bytes_run n fuel 3 0 todo st Hn)).
  rewrite urun_then. cbn [view_answer fst snd]. by rewrite urun_then.
Qed.

Lemma ut_run_run f s n st todo v :
  v_todo v = mk_child n st :: todo →
  urun view_world (ut_run junk f s) v = (Returned (st =? 0), mk_view todo n st).
Proof.
  intros Hv. unfold ut_run. rewrite urun_say_on. unfold u_fork. rewrite urun_then. cbn [view_answer]. rewrite Hv.
  cbn [fst snd ch_bytes ch_status]. rewrite urun_refuse. change (1 <? 0) with false. change (1 =? 0) with false. cbv iota.
  unfold u_wait_st, u_wait_status. rewrite urun_bind, urun_then. cbn [view_answer fst snd v_status urun mret uprog_ret default].
  change (id st) with st. rewrite urun_bind.
  destruct (st =? 0); cbn [negb]; unfold say, u_printf; by rewrite (mute_vprintf _ _ _ _ _).
Qed.

(** The tests that are asked for. *)
Definition asked (justone : option (list Z)) (t : (list Z → uprog unit) * string) : bool :=
  match justone with None => true | Some j => strcmp (codes t.2) j =? 0 end.

Lemma run_all_run justone ts sts rest v fail :
  length (filter (λ t, asked justone t = true) ts) = length sts →
  v_todo v = map (mk_child 0) sts ++ rest →
  ∃ v', urun view_world (run_all junk justone ts fail) v = (Returned (fail || negb (forallb (Z.eqb 0) sts)), v') ∧ v_todo v' = rest.
Proof.
  revert sts v fail. induction ts as [|t ts IH]; intros sts v fail Hlen Hv.
  - destruct sts; [|done]. exists v. by rewrite orb_false_r.
  - cbn [run_all]. change (match justone with None => true | Some j => strcmp (codes t.2) j =? 0 end) with (asked justone t).
    destruct (asked justone t) eqn:Ea.
    + rewrite filter_cons_True in Hlen by done. destruct sts as [|st sts]; [done|]. cbn [map app] in Hv.
      rewrite (urun_ret _ _ _ _ _ _ _ (ut_run_run t.1 (codes t.2) _ _ _ _ Hv)).
      destruct (IH sts (mk_view (map (mk_child 0) sts ++ rest) 0 st) (if st =? 0 then fail else true)) as (v' & E & Hv'); [by injection Hlen|done|].
      exists v'. rewrite E. split; [|done]. do 2 f_equal. cbn [forallb]. rewrite (Z.eqb_sym 0 st).
      destruct (st =? 0), fail; cbn; try done; by destruct (forallb _ _).
    + rewrite filter_cons_False in Hlen by (rewrite Ea; done). by apply IH.
Qed.
End main.

(** C40: The verdict of usertests.  Whatever the exit statuses of the tests that
    are asked for and the numbers of free pages before and after them, the runner
    exits with status 0 if and only if every test exits with status 0 and no page is
    lost. *)
Theorem usertests_verdict junk base uninit fuel justone free0 free1 sts :
  (free0 < fuel)%nat → (free1 < fuel)%nat →
  length (filter (λ t, asked justone t = true) (tests junk base uninit fuel)) = length sts →
  (urun view_world (ut_once junk base uninit fuel justone)
    (mk_view (mk_child free0 0 :: map (mk_child 0) sts ++ [mk_child free1 0]) 0 0)).1 =
  Exited (if forallb (Z.eqb 0) sts && (free0 <=? free1)%nat then 0 else 1).
Proof.
  intros H0 H1 Hlen. unfold ut_once. rewrite urun_say. set (v := mk_view _ _ _).
  rewrite (urun_ret _ _ _ _ _ _ _ (countfree_run fuel free0 0 (map (mk_child 0) sts ++ [mk_child free1 0]) v eq_refl H0)).
  destruct (run_all_run junk justone _ sts [mk_child free1 0] (mk_view (map (mk_child 0) sts ++ [mk_child free1 0]) 0 0) false Hlen eq_refl)
    as (v' & E & Hv').
  rewrite (urun_ret _ _ _ _ _ _ _ E). cbn [orb]. destruct (forallb (Z.eqb 0) sts); cbn [negb andb]; [|by rewrite urun_bad].
  rewrite (urun_ret _ _ _ _ _ _ _ (countfree_run fuel free1 0 [] _ Hv' H1)).
  destruct (Nat.leb_spec free0 free1) as [Hle|Hlt].
  - rewrite (proj2 (Z.ltb_ge _ _)) by lia. by rewrite urun_say.
  - rewrite (proj2 (Z.ltb_lt _ _)) by lia. by rewrite urun_bad.
Qed.

(** The test of links fails. *)
Lemma usertests_verdict_witness :
  (urun view_world (ut_once 0 0 0 10 (Some (codes "linktest")))
    (mk_view [mk_child 5 0; mk_child 0 1; mk_child 5 0] 0 0)).1 = Exited 1.
Proof. apply (usertests_verdict 0 0 0 10 (Some (codes "linktest")) 5 5 [1]); (reflexivity || lia). Defined.
