(* ===== verification/Disc.v ===== *)
(** * The discipline of locks *)

From S2P Require Import Prelude Memory Params State CString Riscv Sched Uart Kalloc Vm Console Block Bio Log Fs.

(** * The discipline of locks

    Where a kernel thread may give up the CPU, which locks it holds there and
    when it returns, and which panics about locks it can run into.  The
    discipline is a predicate on outcomes; a triple gives the locks held before
    and after a function, and has a rule for every construct of the code. *)

(** ** The discipline *)

(** The panics of [acquire], [release], [pop_off] and [sched]. *)
Definition lock_panics : list string :=
  ["acquire"; "release"; "pop_off - interruptible"; "pop_off";
   "sched p->lock"; "sched locks"; "sched running"; "sched interruptible"].

(** An inode with one reference, no links, and its lock taken: the situation
    that the comment in [iput] excludes. *)
Definition wedged (s : kst) : Prop := ∃ i,
  i_ref (get_inode s i) = 1 ∧ i_valid (get_inode s i) = true ∧ i_nlink (get_inode s i) = 0 ∧
  sl_locked (inode_sl i s) = true.

(** What process [p] does to the table while it has the CPU: the others that
    are ready to run stay so. *)
Record guar (p : nat) (s s' : kst) : Prop := {
  guar_length : length (ps_procs (k_proc s')) = length (ps_procs (k_proc s));
  guar_ready : ∀ q, q ≠ p → p_state (get_proc s q) = RUNNABLE → p_state (get_proc s' q) = RUNNABLE;
}.

(** A thread of process [p] that got the CPU in state [s0]: it gives it up only
    with [p]'s lock as its one lock and [p] not running any more, whatever
    state it is resumed in; it returns in a state of [Q]. *)
Fixpoint disc {A} (p : nat) (s0 : kst) (Q : A → kst → Prop) (o : outcome kst A) : Prop :=
  match o with
  | Done a s => ps_cur (k_proc s) = p ∧ guar p s0 s ∧ Q a s
  | Panic msg s => msg ∈ lock_panics → msg = "sched locks" ∧ wedged s
  | Swtch s k =>
      k_held s = [LProc p] ∧ ps_cur (k_proc s) = p ∧ p_state (get_proc s p) ≠ RUNNING ∧ guar p s0 s ∧
      ∀ s', k_held s' = [LProc p] → ps_cur (k_proc s') = p → disc p s' Q (k s')
  | OutOfFuel => True
  end.

(** With the locks [H] held and interrupts off because of them, [m] is
    disciplined and leaves the locks [Q a] held in the same way. *)
Definition bt {A} (p : nat) (H : list lockid) (m : K A) (Q : A → list lockid) : Prop :=
  LIntr ∉ H →
  ∀ s, k_held s = H → ps_cur (k_proc s) = p → disc p s (λ a s', k_held s' = Q a ∧ LIntr ∉ Q a) (m s).

(** The same for a function that neither gives up the CPU nor touches the table
    of processes. *)
Definition qt {A} (H : list lockid) (m : K A) (Q : A → list lockid) : Prop :=
  LIntr ∉ H →
  ∀ s, k_held s = H →
    match m s with
    | Done a s' => k_held s' = Q a ∧ LIntr ∉ Q a ∧ k_proc s' = k_proc s
    | Panic msg _ => msg ∉ lock_panics
    | Swtch _ _ => False
    | OutOfFuel => True
    end.

Definition no_proc (H : list lockid) : Prop := ∀ i, LProc i ∉ H.

(** ** Rules of the discipline *)

Lemma guar_refl p s : guar p s s.
Proof. by split. Qed.

Lemma guar_trans p s1 s2 s3 : guar p s1 s2 → guar p s2 s3 → guar p s1 s3.
Proof. intros [L1 R1] [L2 R2]. split; [congruence|auto]. Qed.

Lemma guar_same p s s' : k_proc s' = k_proc s → guar p s s'.
Proof. intros E. split; unfold get_proc; rewrite E; auto. Qed.

Lemma disc_start {A} p s s' Q (o : outcome kst A) : guar p s s' → disc p s' Q o → disc p s Q o.
Proof.
  intros Hg. destruct o as [a s1|msg s1|s1 k|]; cbn [disc]; [|done| |done].
  - intros (Hc & Hg1 & HQ). split_and!; [done|by eapply guar_trans|done].
  - intros (Hh & Hc & Hr & Hg1 & Hk). split_and!; [done..|by eapply guar_trans|done].
Qed.

Lemma disc_mono {A} p s (Q Q' : A → kst → Prop) o :
  (∀ a s, ps_cur (k_proc s) = p → Q a s → Q' a s) → disc p s Q o → disc p s Q' o.
Proof.
  intros HQ. revert s. induction o as [a s1|msg s1|s1 k IH|]; intros s; cbn [disc]; [|done| |done].
  - intros (Hc & Hg & H1). split_and!; auto.
  - intros (Hh & Hc & Hr & Hg & Hk). split_and!; [done..|]. intros s2 Hh2 Hc2. apply IH. by apply Hk.
Qed.

Lemma disc_bind {A B} p s (Q1 : A → kst → Prop) (Q : B → kst → Prop) (m : K A) (f : A → K B) :
  disc p s Q1 (m s) →
  (∀ a s', ps_cur (k_proc s') = p → Q1 a s' → disc p s' Q (f a s')) →
  disc p s Q ((m ≫= f) s).
Proof.
  intros Hm Hf. unfold mbind, M_bind. revert Hm. generalize (m s). intros o. revert s.
  induction o as [a s1|msg s1|s1 k IH|]; intros s; cbn [disc obind]; [|done| |done].
  - intros (Hc & Hg & HQ). eapply disc_start; [exact Hg|]. by apply Hf.
  - intros (Hh & Hc & Hr & Hg & Hk). split_and!; [done..|]. intros s2 Hh2 Hc2. apply IH. by apply Hk.
Qed.

Lemma disc_qt {A} p s H (m : K A) Q :
  qt H m Q → LIntr ∉ H → k_held s = H → ps_cur (k_proc s) = p →
  disc p s (λ a s', (k_held s' = Q a ∧ LIntr ∉ Q a) ∧ k_proc s' = k_proc s) (m s).
Proof.
  intros Hm HI Hh Hc. specialize (Hm HI s Hh). destruct (m s) as [a s1|msg s1|s1 k|]; cbn [disc]; [|done..].
  destruct Hm as (Hh1 & HI1 & E). split_and!; [by rewrite E|by apply guar_same|done..].
Qed.

Lemma disc_bt {A} p s H (m : K A) Q :
  bt p H m Q → LIntr ∉ H → k_held s = H → ps_cur (k_proc s) = p → disc p s (λ a s', k_held s' = Q a) (m s).
Proof. intros Hm HI Hh Hc. eapply disc_mono; [|by apply Hm]. by intros a s1 _ []. Qed.

(** ** Rules of the triples *)

Lemma bt_bind {A B} p H (m : K A) (f : A → K B) Q1 Q :
  bt p H m Q1 → (∀ a, bt p (Q1 a) (f a) Q) → bt p H (m ≫= f) Q.
Proof. intros Hm Hf HI s Hh Hc. eapply disc_bind; [by apply Hm|]. intros a s1 Hc1 [Hh1 HI1]. by apply Hf. Qed.

Lemma bt_ret {A} p H (a : A) Q : Q a = H → bt p H (mret a) Q.
Proof. intros <- HI s Hh Hc. cbn. split_and!; [done|apply guar_refl|done..]. Qed.

Lemma bt_post {A} p H (m : K A) Q Q' : bt p H m Q → (∀ a, Q a = Q' a) → bt p H m Q'.
Proof. intros Hm HQ HI s Hh Hc. eapply disc_mono; [|by apply Hm]. intros a s1 _. cbn beta. by rewrite HQ. Qed.

Lemma bt_qt {A} p H (m : K A) Q : qt H m Q → bt p H m Q.
Proof. intros Hm HI s Hh Hc. eapply disc_mono; [|by eapply disc_qt]. by intros a s1 _ []. Qed.

Lemma bt_panic {A} p H msg (Q : A → _) : bool_decide (msg ∈ lock_panics) = false → bt p H (panic msg) Q.
Proof. intros Hm _ s _ _. cbn. intros Hin. by rewrite bool_decide_true in Hm. Qed.

Lemma bt_fuel {A} p H (Q : A → _) : bt p H out_of_fuel Q.
Proof. done. Qed.

Lemma bt_when p H c (m : K unit) : (c = true → bt p H m (λ _, H)) → bt p H (when c m) (λ _, H).
Proof. intros Hm. destruct c; [by apply Hm|by apply bt_ret]. Qed.

Lemma bt_each p H n lo (body : Z → K unit) :
  (∀ i, bt p H (body i) (λ _, H)) → bt p H (for_each n lo body) (λ _, H).
Proof.
  intros Hb. revert lo. induction n as [|n IH]; intros lo; [by apply bt_ret|].
  cbn [for_each]. eapply bt_bind; [apply Hb|]. intros ?. apply IH.
Qed.

Lemma bt_find {A} p H n lo (body : Z → K (option A)) (Q : A → list lockid) :
  (∀ i, bt p H (body i) (λ r, match r with Some a => Q a | None => H end)) →
  bt p H (for_find n lo body) (λ r, match r with Some a => Q a | None => H end).
Proof.
  intros Hb. revert lo. induction n as [|n IH]; intros lo; [by apply bt_ret|].
  cbn [for_find]. eapply bt_bind; [apply Hb|]. intros [a|]; [by apply bt_ret|apply IH].
Qed.

Lemma qt_bind {A B} H (m : K A) (f : A → K B) Q1 Q :
  qt H m Q1 → (∀ a, qt (Q1 a) (f a) Q) → qt H (m ≫= f) Q.
Proof.
  intros Hm Hf HI s Hh. unfold mbind, M_bind. specialize (Hm HI s Hh).
  destruct (m s) as [a s1|msg s1|s1 k|]; cbn [obind]; [|done..].
  destruct Hm as (Hh1 & HI1 & E1). specialize (Hf a HI1 s1 Hh1). destruct (f a s1) as [b s2|msg s2|s2 k|]; [|done..].
  destruct Hf as (Hh2 & HI2 & E2). split_and!; [done..|congruence].
Qed.

Lemma qt_ret {A} H (a : A) Q : Q a = H → qt H (mret a) Q.
Proof. by intros <- HI s Hh. Qed.

Lemma qt_post {A} H (m : K A) Q Q' : qt H m Q → (∀ a, Q a = Q' a) → qt H m Q'.
Proof.
  intros Hm HQ HI s Hh. specialize (Hm HI s Hh). destruct (m s) as [a s1|msg s1|s1 k|]; [|done..]. by rewrite <- HQ.
Qed.

Lemma qt_panic {A} H msg (Q : A → _) : bool_decide (msg ∈ lock_panics) = false → qt H (panic msg) Q.
Proof. intros Hm _ s _ Hin. by rewrite bool_decide_true in Hm. Qed.

Lemma qt_fuel {A} H (Q : A → _) : qt H out_of_fuel Q.
Proof. done. Qed.

Lemma qt_gets {A} H (f : kst → A) : qt H (gets f) (λ _, H).
Proof. intros HI s Hh. by split_and!. Qed.

Lemma qt_modify H (f : kst → kst) :
  (∀ s, k_held (f s) = k_held s) → (∀ s, k_proc (f s) = k_proc s) → qt H (modify f) (λ _, H).
Proof. intros Hh Hp HI s Hs. split_and!; [by rewrite Hh|done|apply Hp]. Qed.

Lemma qt_when H c (m : K unit) : (c = true → qt H m (λ _, H)) → qt H (when c m) (λ _, H).
Proof. intros Hm. destruct c; [by apply Hm|by apply qt_ret]. Qed.

Lemma qt_each H n lo (body : Z → K unit) :
  (∀ i, qt H (body i) (λ _, H)) → qt H (for_each n lo body) (λ _, H).
Proof.
  intros Hb. revert lo. induction n as [|n IH]; intros lo; [by apply qt_ret|].
  cbn [for_each]. eapply qt_bind; [apply Hb|]. intros ?. apply IH.
Qed.

Lemma qt_find {A} H n lo (body : Z → K (option A)) (Q : A → list lockid) :
  (∀ i, qt H (body i) (λ r, match r with Some a => Q a | None => H end)) →
  qt H (for_find n lo body) (λ r, match r with Some a => Q a | None => H end).
Proof.
  intros Hb. revert lo. induction n as [|n IH]; intros lo; [by apply qt_ret|].
  cbn [for_find]. eapply qt_bind; [apply Hb|]. intros [a|]; [by apply qt_ret|apply IH].
Qed.

Lemma qt_acquire H l : l ∉ H → l ≠ LIntr → qt H (acquire l) (λ _, l :: H).
Proof. intros Hl Hne HI s <-. rewrite acquire_ok by set_solver. split_and!; [done|set_solver|done]. Qed.

Lemma qt_release H l : l ∉ H → qt (l :: H) (release l) (λ _, H).
Proof. intros Hl HI s Hh. rewrite (release_ok _ _ _ Hh) by set_solver. split_and!; [done|set_solver|done]. Qed.

(** The lock taken before the last one. *)
Lemma qt_release2 H a l : l ∉ H → a ≠ l → qt (a :: l :: H) (release l) (λ _, a :: H).
Proof. intros Hl Hne HI s Hh. rewrite (release_second _ _ _ _ Hh) by set_solver. split_and!; [done|set_solver|done]. Qed.

(** What is left to find out about the locks after a construct in the middle of
    the code is that they are the same. *)
Lemma qt_stay {A} H (a : A) : qt H (mret a) (λ _, H).
Proof. by apply qt_ret. Qed.
Lemma bt_stay {A} p H (a : A) : bt p H (mret a) (λ _, H).
Proof. by apply bt_ret. Qed.
Lemma qt_panic_stay {A} H msg : bool_decide (msg ∈ lock_panics) = false → qt H (panic msg : K A) (λ _, H).
Proof. apply qt_panic. Qed.
Lemma bt_panic_stay {A} p H msg : bool_decide (msg ∈ lock_panics) = false → bt p H (panic msg : K A) (λ _, H).
Proof. apply bt_panic. Qed.

(** ** Automation

    [lk] follows the code of a function, one rule per construct; the functions
    it calls have their triples in the databases [qt] and [bt]. *)

Create HintDb qt discriminated.
Create HintDb bt discriminated.

(** Locks that are not among those held. *)
Ltac lk_side :=
  solve [ assumption
        | reflexivity
        | apply not_elem_of_nil
        | unfold no_proc in *; intros; rewrite ?not_elem_of_cons; repeat split;
          (discriminate || apply not_elem_of_nil || assumption || congruence || auto) ].

Ltac lk_atom :=
  lazymatch goal with
  | |- qt _ (gets _) _ => apply qt_gets
  | |- qt _ (modify _) _ => first [apply qt_modify; reflexivity | solve [eauto 2 with qt nocore]]
  | |- qt _ (acquire _) _ => apply qt_acquire; lk_side
  | |- qt _ (release _) _ => first [apply qt_release; lk_side | apply qt_release2; lk_side]
  | |- qt _ _ _ => solve [eauto 2 with qt nocore]
  | |- bt _ _ (gets _) _ => apply bt_qt, qt_gets
  | |- bt _ _ (modify _) _ => apply bt_qt; first [apply qt_modify; reflexivity | solve [eauto 2 with qt nocore]]
  | |- bt _ _ (acquire _) _ => apply bt_qt, qt_acquire; lk_side
  | |- bt _ _ (release _) _ => apply bt_qt; first [apply qt_release; lk_side | apply qt_release2; lk_side]
  | |- bt _ _ _ _ => first [solve [eauto 2 with bt nocore] | apply bt_qt; solve [eauto 2 with qt nocore]]
  end.
#[export] Hint Extern 5 (_ ∉ _) => lk_side : qt bt.
#[export] Hint Extern 5 (no_proc _) => lk_side : qt bt.

Ltac lk_step :=
  lazymatch goal with
  | |- qt _ (mbind _ _) _ => eapply qt_bind; [|intros ?; cbv beta]
  | |- bt _ _ (mbind _ _) _ => eapply bt_bind; [|intros ?; cbv beta]
  | |- qt _ (mret _) _ => first [apply qt_stay | apply qt_ret; reflexivity]
  | |- bt _ _ (mret _) _ => first [apply bt_stay | apply bt_ret; reflexivity]
  | |- qt _ (panic _) _ => first [apply qt_panic_stay; reflexivity | apply qt_panic; reflexivity]
  | |- bt _ _ (panic _) _ => first [apply bt_panic_stay; reflexivity | apply bt_panic; reflexivity]
  | |- qt _ out_of_fuel _ => apply qt_fuel
  | |- bt _ _ out_of_fuel _ => apply bt_fuel
  | |- qt _ (when _ _) _ => apply qt_when; intros _
  | |- bt _ _ (when _ _) _ => apply bt_when; intros _
  | |- qt _ (for_each _ _ _) _ => apply qt_each; intros ?
  | |- bt _ _ (for_each _ _ _) _ => apply bt_each; intros ?
  | |- qt _ (match ?x with _ => _ end) _ => destruct x
  | |- bt _ _ (match ?x with _ => _ end) _ => destruct x
  | |- qt _ (let _ := _ in _) _ => cbv zeta
  | |- bt _ _ (let _ := _ in _) _ => cbv zeta
  | |- _ => lk_atom
  end.
Ltac lk := intros; cbv beta zeta; repeat lk_step.

(** A function given by its equation. *)
Tactic Notation "lk_in" reference(f) := intros; unfold f; lk.

(** ** State access *)

Lemma qt_upd_buf H i f : qt H (upd_buf i f) (λ _, H).
Proof. lk_in upd_buf. Qed.
Lemma qt_buf_get {A} H i (f : _ → A) : qt H (buf_get i f) (λ _, H).
Proof. lk_in buf_get. Qed.
Lemma qt_upd_inode H i f : qt H (upd_inode i f) (λ _, H).
Proof. lk_in upd_inode. Qed.
Lemma qt_inode_get {A} H i (f : _ → A) : qt H (inode_get i f) (λ _, H).
Proof. lk_in inode_get. Qed.
Lemma qt_upd_data H i f : qt H (upd_data i f) (λ _, H).
Proof. apply qt_upd_buf. Qed.
Lemma qt_upd_log H f : qt H (upd_log f) (λ _, H).
Proof. lk_in upd_log. Qed.
Lemma qt_upd_uart H f : qt H (upd_uart f) (λ _, H).
Proof. lk_in upd_uart. Qed.
Lemma qt_upd_cons H f : qt H (upd_cons f) (λ _, H).
Proof. lk_in upd_cons. Qed.
Lemma qt_proc_get {A} H i (f : _ → A) : qt H (proc_get i f) (λ _, H).
Proof. lk_in proc_get. Qed.
Lemma qt_myproc H : qt H myproc (λ _, H).
Proof. lk_in myproc. Qed.
Lemma qt_ld H a : qt H (ld a) (λ _, H).
Proof. lk_in ld. Qed.
Lemma qt_st H a v : qt H (st a v) (λ _, H).
Proof. lk_in st. Qed.
Lemma qt_fill H a c n : qt H (fill a c n) (λ _, H).
Proof. lk_in fill. Qed.
Lemma qt_put_bytes H a l : qt H (put_bytes a l) (λ _, H).
Proof. lk_in put_bytes. Qed.
#[export] Hint Resolve qt_upd_buf qt_buf_get qt_upd_inode qt_inode_get qt_upd_data qt_upd_log qt_upd_uart qt_upd_cons
  qt_proc_get qt_myproc qt_ld qt_st qt_fill qt_put_bytes : qt.

(** * The discipline of locks: memory and output

    The allocator, the page tables, the copies between user and kernel memory
    and the output of characters take at most their own lock and never give up
    the CPU. *)

Section mem.
Context `{Ki : KernelImage}.

Lemma qt_kfree H pa : LKmem ∉ H → qt H (kfree pa) (λ _, H).
Proof. lk_in kfree. Qed.
Lemma qt_kalloc H : LKmem ∉ H → qt H kalloc (λ _, H).
Proof. lk_in kalloc. Qed.
#[local] Hint Resolve qt_kfree qt_kalloc : qt.

Lemma qt_walk_loop H n pt va alloc : LKmem ∉ H → qt H (walk_loop n pt va alloc) (λ _, H).
Proof. intros Hk. revert pt. induction n as [|n IH]; intros pt; cbn [walk_loop]; lk; apply IH. Qed.
#[local] Hint Resolve qt_walk_loop : qt.
Lemma qt_walk H pt va alloc : LKmem ∉ H → qt H (walk pt va alloc) (λ _, H).
Proof. lk_in walk. Qed.
#[local] Hint Resolve qt_walk : qt.
Lemma qt_walkaddr H pt va : LKmem ∉ H → qt H (walkaddr pt va) (λ _, H).
Proof. lk_in walkaddr. Qed.
#[local] Hint Resolve qt_walkaddr : qt.

Lemma qt_mappages_loop H n pt a last pa perm : LKmem ∉ H → qt H (mappages_loop n pt a last pa perm) (λ _, H).
Proof. intros Hk. revert a pa. induction n as [|n IH]; intros a pa; cbn [mappages_loop]; lk; apply IH. Qed.
#[local] Hint Resolve qt_mappages_loop : qt.
Lemma qt_mappages H pt va size pa perm : LKmem ∉ H → qt H (mappages pt va size pa perm) (λ _, H).
Proof. lk_in mappages. Qed.
#[local] Hint Resolve qt_mappages : qt.

Lemma qt_uvmunmap_loop H n pt a top f : LKmem ∉ H → qt H (uvmunmap_loop n pt a top f) (λ _, H).
Proof. intros Hk. revert a. induction n as [|n IH]; intros a; cbn [uvmunmap_loop]; lk; apply IH. Qed.
#[local] Hint Resolve qt_uvmunmap_loop : qt.
Lemma qt_uvmunmap H pt va n f : LKmem ∉ H → qt H (uvmunmap pt va n f) (λ _, H).
Proof. lk_in uvmunmap. Qed.
#[local] Hint Resolve qt_uvmunmap : qt.
Lemma qt_uvmcreate H : LKmem ∉ H → qt H uvmcreate (λ _, H).
Proof. lk_in uvmcreate. Qed.
#[local] Hint Resolve qt_uvmcreate : qt.
Lemma qt_uvmdealloc H pt o n : LKmem ∉ H → qt H (uvmdealloc pt o n) (λ _, H).
Proof. lk_in uvmdealloc. Qed.
#[local] Hint Resolve qt_uvmdealloc : qt.
Lemma qt_uvmalloc_loop H k pt a o n : LKmem ∉ H → qt H (uvmalloc_loop k pt a o n) (λ _, H).
Proof. intros Hk. revert a. induction k as [|k IH]; intros a; cbn [uvmalloc_loop]; lk; apply IH. Qed.
#[local] Hint Resolve qt_uvmalloc_loop : qt.
Lemma qt_uvmalloc H pt o n : LKmem ∉ H → qt H (uvmalloc pt o n) (λ _, H).
Proof. lk_in uvmalloc. Qed.
Lemma qt_freewalk H d pt : LKmem ∉ H → qt H (freewalk d pt) (λ _, H).
Proof. intros Hk. revert pt. induction d as [|d IH]; intros pt; cbn [freewalk]; lk; apply IH. Qed.
#[local] Hint Resolve qt_freewalk : qt.
Lemma qt_uvmfree H pt sz : LKmem ∉ H → qt H (uvmfree pt sz) (λ _, H).
Proof. lk_in uvmfree. Qed.
#[local] Hint Resolve qt_uvmfree : qt.
Lemma qt_uvmcopy_loop H k o n i sz : LKmem ∉ H → qt H (uvmcopy_loop k o n i sz) (λ _, H).
Proof. intros Hk. revert i. induction k as [|k IH]; intros i; cbn [uvmcopy_loop]; lk; apply IH. Qed.
#[local] Hint Resolve qt_uvmcopy_loop : qt.
Lemma qt_uvmcopy H o n sz : LKmem ∉ H → qt H (uvmcopy o n sz) (λ _, H).
Proof. lk_in uvmcopy. Qed.
Lemma qt_uvmclear H pt va : LKmem ∉ H → qt H (uvmclear pt va) (λ _, H).
Proof. lk_in uvmclear. Qed.

Lemma qt_copyout_loop H k pt va src len : LKmem ∉ H → qt H (copyout_loop k pt va src len) (λ _, H).
Proof. intros Hk. revert va src len. induction k as [|k IH]; intros va src len; cbn [copyout_loop]; lk; apply IH. Qed.
#[local] Hint Resolve qt_copyout_loop : qt.
Lemma qt_copyout H pt va src len : LKmem ∉ H → qt H (copyout pt va src len) (λ _, H).
Proof. lk_in copyout. Qed.
Lemma qt_copyin_loop H k pt va len : LKmem ∉ H → qt H (copyin_loop k pt va len) (λ _, H).
Proof. intros Hk. revert va len. induction k as [|k IH]; intros va len; cbn [copyin_loop]; lk; apply IH. Qed.
#[local] Hint Resolve qt_copyin_loop : qt.
Lemma qt_copyin H pt va len : LKmem ∉ H → qt H (copyin pt va len) (λ _, H).
Proof. lk_in copyin. Qed.
Lemma qt_copyinstr_loop H k pt va max : LKmem ∉ H → qt H (copyinstr_loop k pt va max) (λ _, H).
Proof. intros Hk. revert va max. induction k as [|k IH]; intros va max; cbn [copyinstr_loop]; lk; apply IH. Qed.
#[local] Hint Resolve qt_copyinstr_loop : qt.
Lemma qt_copyinstr H pt va max : LKmem ∉ H → qt H (copyinstr pt va max) (λ _, H).
Proof. lk_in copyinstr. Qed.

Lemma qt_proc_pagetable H tf : LKmem ∉ H → qt H (proc_pagetable tf) (λ _, H).
Proof. lk_in proc_pagetable. Qed.
Lemma qt_proc_freepagetable H pt sz : LKmem ∉ H → qt H (proc_freepagetable pt sz) (λ _, H).
Proof. lk_in proc_freepagetable. Qed.
End mem.
#[export] Hint Resolve qt_kfree qt_kalloc qt_walkaddr qt_mappages qt_uvmunmap qt_uvmalloc qt_uvmdealloc qt_uvmfree qt_uvmcopy
  qt_uvmclear qt_copyout qt_copyin qt_copyinstr qt_proc_pagetable qt_proc_freepagetable : qt.

Section copies.

Lemma qt_either_copyout H dst src len : LKmem ∉ H → qt H (either_copyout dst src len) (λ _, H).
Proof. lk_in either_copyout. Qed.
Lemma qt_either_copyin H src len : LKmem ∉ H → qt H (either_copyin src len) (λ _, H).
Proof. lk_in either_copyin. Qed.
End copies.
#[export] Hint Resolve qt_either_copyout qt_either_copyin : qt.

(** ** Output *)

Section print.
Context `{Ua : UartDev} `{Wf : WaitFuel}.

Lemma qt_ReadReg H r : qt H (ReadReg r) (λ _, H).
Proof. lk_in ReadReg. Qed.
Lemma qt_WriteReg H r v : qt H (WriteReg r v) (λ _, H).
Proof. apply qt_upd_uart. Qed.
#[local] Hint Resolve qt_ReadReg qt_WriteReg : qt.
Lemma qt_tx_wait H n : qt H (tx_wait n) (λ _, H).
Proof. induction n as [|n IH]; cbn [tx_wait]; lk; apply IH. Qed.
#[local] Hint Resolve qt_tx_wait : qt.
Lemma qt_uartputc_sync H c : qt H (uartputc_sync c) (λ _, H).
Proof. lk_in uartputc_sync. apply qt_fuel. Qed.
#[local] Hint Resolve qt_uartputc_sync : qt.
Lemma qt_consputc H c : qt H (consputc c) (λ _, H).
Proof. lk_in consputc. Qed.
#[local] Hint Resolve qt_consputc : qt.
Lemma qt_putcs H l : qt H (putcs l) (λ _, H).
Proof. induction l as [|c l IH]; cbn [putcs]; lk; apply IH. Qed.
#[local] Hint Resolve qt_putcs : qt.
Lemma qt_printint H x b s : qt H (printint x b s) (λ _, H).
Proof. lk_in printint. Qed.
Lemma qt_printptr_loop H n x : qt H (printptr_loop n x) (λ _, H).
Proof. revert x. induction n as [|n IH]; intros x; cbn [printptr_loop]; lk; apply IH. Qed.
#[local] Hint Resolve qt_printint qt_printptr_loop : qt.
Lemma qt_printptr H x : qt H (printptr x) (λ _, H).
Proof. lk_in printptr. Qed.
#[local] Hint Resolve qt_printptr : qt.

(** The format string is read one or two characters at a time. *)
Lemma qt_print_fmt H fmt ap : qt H (print_fmt fmt ap) (λ _, H).
Proof.
  remember (length fmt) as n eqn:E. assert (Hn : (length fmt <= n)%nat) by lia. clear E. revert fmt ap Hn.
  induction n as [|n IH]; intros [|c fmt] ap Hn; cbn [length] in Hn; try lia; cbn [print_fmt]; [lk..|].
  lk; try (apply IH; cbn [length] in *; lia).
Qed.
#[local] Hint Resolve qt_print_fmt : qt.

Lemma qt_printf H fmt ap : LPrintf ∉ H → qt H (printf fmt ap) (λ _, H).
Proof.
  intros Hp. unfold printf. eapply qt_bind; [apply qt_gets|]. intros [|]; cbn [when]; lk.
Qed.
#[local] Hint Resolve qt_printf : qt.
Lemma qt_procdump H : LPrintf ∉ H → qt H procdump (λ _, H).
Proof. lk_in procdump. Qed.
Lemma qt_uartgetc H : qt H uartgetc (λ _, H).
Proof. lk_in uartgetc. Qed.
End print.
#[export] Hint Resolve qt_ReadReg qt_WriteReg qt_consputc qt_printf qt_procdump qt_uartgetc : qt.

(** * The discipline of locks: sleeping and waking *)

(** ** Writes to the table of processes *)

Definition upd_at (i : nat) (f : proc → proc) (s : kst) : kst :=
  set_procs (<[i := f (get_proc s i)]> (ps_procs (k_proc s))) s.

Lemma get_proc_upd i f s j :
  get_proc (upd_at i f s) j =
    if decide (i = j ∧ (j < length (ps_procs (k_proc s)))%nat) then f (get_proc s i) else get_proc s j.
Proof.
  unfold upd_at, set_procs. generalize (f (get_proc s i)). intros x. unfold get_proc. cbn. rewrite !list_lookup_total_alt.
  destruct (decide (i = j)) as [->|Hne].
  - destruct (decide (j < length (ps_procs (k_proc s)))%nat) as [Hl|Hl].
    + rewrite list_lookup_insert_eq by done. rewrite decide_True by (split; done). done.
    + rewrite decide_False by (intros []; done). by rewrite list_insert_ge by lia.
  - rewrite list_lookup_insert_ne by done. rewrite decide_False by (intros []; done). done.
Qed.

Lemma guar_upd p i f s :
  i = p ∨ (p_state (get_proc s i) = RUNNABLE → p_state (f (get_proc s i)) = RUNNABLE) → guar p s (upd_at i f s).
Proof.
  intros Hi. split; [cbn; by rewrite length_insert|]. intros q Hq Hr. rewrite get_proc_upd.
  case_decide as Hd; [|done]. destruct Hd as [-> _]. destruct Hi as [->|Hi]; [done|auto].
Qed.

(** A process that the scheduler will not pick. *)
Definition idle (i : nat) (s : kst) : Prop := p_state (get_proc s i) ≠ RUNNABLE.

Lemma idle_same i s s' : k_proc s' = k_proc s → idle i s → idle i s'.
Proof. unfold idle, get_proc. by intros ->. Qed.

Lemma idle_upd i f s : (idle i s → p_state (f (get_proc s i)) ≠ RUNNABLE) → idle i s → idle i (upd_at i f s).
Proof. unfold idle. intros Hf Hi. rewrite get_proc_upd. case_decide; auto. Qed.

Lemma bt_upd_if p H i f :
  (∀ s, i = p ∨ (p_state (get_proc s i) = RUNNABLE → p_state (f (get_proc s i)) = RUNNABLE)) →
  bt p H (upd_proc i f) (λ _, H).
Proof. intros Hf HI s Hh Hc. cbn. split_and!; [done|by apply guar_upd|done..]. Qed.

Lemma bt_upd_own p H f : bt p H (upd_proc p f) (λ _, H).
Proof. apply bt_upd_if. by left. Qed.
Lemma bt_upd_keep p H i f : (∀ x, p_state (f x) = p_state x) → bt p H (upd_proc i f) (λ _, H).
Proof. intros Hf. apply bt_upd_if. intros s. right. by rewrite Hf. Qed.
Lemma bt_upd_ready p H i : bt p H (upd_proc i (set_p_state RUNNABLE)) (λ _, H).
Proof. apply bt_upd_if. by right. Qed.
#[export] Hint Resolve bt_upd_own bt_upd_ready : bt.
#[export] Hint Extern 3 (bt _ _ (upd_proc _ _) _) => apply bt_upd_keep; reflexivity : bt.

(** The process of the thread. *)
Lemma bt_myproc {A} p H (f : nat → K A) Q : bt p H (f p) Q → bt p H (myproc ≫= f) Q.
Proof. intros Hf HI s Hh Hc. unfold mbind, M_bind, myproc, gets. cbn. rewrite Hc. by apply Hf. Qed.

(** ** Steps on a state *)

Lemma disc_step_qt {A B} p s H (m : K A) (f : A → K B) Q1 Q :
  qt H m Q1 → LIntr ∉ H → k_held s = H → ps_cur (k_proc s) = p →
  (∀ a s', k_held s' = Q1 a → k_proc s' = k_proc s → disc p s' Q (f a s')) → disc p s Q ((m ≫= f) s).
Proof. intros Hm HI Hh Hc Hf. eapply disc_bind; [by eapply disc_qt|]. intros a s1 _ [[Hh1 _] E1]. by apply Hf. Qed.

(** The rest of a function, and a step of it, by their triples. *)
Ltac by_bt H := apply (disc_bt _ _ _ _ _ H); [lk_side|first [done|congruence]..].
Tactic Notation "step_qt" tactic3(t) := eapply disc_step_qt; [t| |first [done|congruence]..|]; [lk_side|].

Lemma disc_step_upd {B} p s i g (f : unit → K B) Q :
  (i = p ∨ (p_state (get_proc s i) = RUNNABLE → p_state (g (get_proc s i)) = RUNNABLE)) →
  disc p (upd_at i g s) Q (f tt (upd_at i g s)) → disc p s Q ((upd_proc i g ≫= f) s).
Proof. intros Hi Hf. unfold mbind, M_bind, upd_proc, modify. cbn [obind]. eapply disc_start; [by apply guar_upd|exact Hf]. Qed.

Lemma disc_find {A} p (I : kst → Prop) (Q : A → kst → Prop) n lo (body : Z → K (option A)) s :
  (∀ i s, I s → ps_cur (k_proc s) = p →
    disc p s (λ r s', match r with Some a => Q a s' | None => I s' end) (body i s)) →
  I s → ps_cur (k_proc s) = p →
  disc p s (λ r s', match r with Some a => Q a s' | None => I s' end) (for_find n lo body s).
Proof.
  intros Hb. revert lo s. induction n as [|n IH]; intros lo s HI Hc.
  - cbn. split_and!; [done|apply guar_refl|done].
  - cbn [for_find]. eapply disc_bind; [by apply Hb|]. intros [a|] s1 Hc1 H1; [|by apply IH].
    cbn. split_and!; [done|apply guar_refl|done].
Qed.

(** ** Giving up the CPU *)

Lemma disc_sched {B} p s (f : unit → K B) Q :
  k_held s = [LProc p] → ps_cur (k_proc s) = p → p_state (get_proc s p) ≠ RUNNING →
  (∀ s', k_held s' = [LProc p] → ps_cur (k_proc s') = p → disc p s' Q (f tt s')) → disc p s Q ((sched ≫= f) s).
Proof.
  intros Hh Hc Hr Hf.
  assert (E : sched s = Swtch s (λ s', Done tt (set_intena (intena s) s'))) by (apply sched_run; by rewrite Hc).
  unfold mbind, M_bind. rewrite E. cbn [obind disc]. split_and!; [done..|apply guar_refl|].
  intros s' Hh' Hc'. apply (disc_start _ _ (set_intena (intena s) s')); [by apply guar_same|]. by apply Hf.
Qed.

(** [p->state = st; ...; sched();] *)
Lemma bt_switch {B} p st (f : unit → K B) Q :
  st ≠ RUNNING → bt p [LProc p] (f tt) Q → bt p [LProc p] (upd_proc p (set_p_state st);; (sched ≫= f)) Q.
Proof.
  intros Hst Hf HI s Hh Hc. apply disc_step_upd; [by left|]. apply disc_sched; [done..| |by apply Hf].
  rewrite get_proc_upd. case_decide as Hd; [done|]. unfold get_proc. rewrite list_lookup_total_alt, lookup_ge_None_2; [done|].
  destruct (decide (p < length (ps_procs (k_proc s)))%nat); [by destruct Hd|lia].
Qed.

(** A search that holds no lock, whatever it finds. *)
Lemma bt_find0 {A} p n lo (body : Z → K (option A)) :
  (∀ i, bt p [] (body i) (λ _, [])) → bt p [] (for_find n lo body) (λ _, []).
Proof.
  intros Hb. eapply bt_post; [apply (bt_find p [] n lo body (λ _, []))|by intros [|]].
  intros i. eapply bt_post; [apply Hb|by intros [|]].
Qed.

Ltac lks_step :=
  lazymatch goal with
  | |- bt _ _ (mbind _ myproc) _ => apply bt_myproc; cbv beta
  | |- bt _ _ (mbind _ (upd_proc _ (set_p_state _))) _ => first [apply bt_switch; [discriminate|] | lk_step]
  | |- bt _ [] (for_find _ _ _) _ => apply bt_find0; intros ?
  | |- _ => lk_step
  end.
Ltac lks := intros; cbv beta zeta; repeat lks_step.
Tactic Notation "lks_in" reference(f) := intros; unfold f; lks.

Lemma bt_yield p : bt p [] yield (λ _, []).
Proof. lks_in yield. Qed.

Definition sleepable (l : lockid) : Prop := match l with LProc _ | LIntr => False | _ => True end.

Lemma bt_sleep p ch l : sleepable l → bt p [l] (sleep ch l) (λ _, [l]).
Proof. intros Hl. assert (l ≠ LProc p ∧ l ≠ LIntr) as [? ?] by (by split; intros ->). assert (LProc p ≠ l) by done. lks_in sleep. Qed.
#[export] Hint Extern 2 (sleepable _) => exact I : bt.
#[export] Hint Resolve bt_yield bt_sleep : bt.

(** ** Waking up *)

Lemma bt_wakeup_one p H ch i : no_proc H → bt p H (wakeup_one ch i) (λ _, H).
Proof. lks_in wakeup_one. Qed.
#[local] Hint Resolve bt_wakeup_one : bt.
Lemma bt_wakeup p H ch : no_proc H → bt p H (wakeup ch) (λ _, H).
Proof. lks_in wakeup. Qed.
Lemma bt_wakeup_proc p H q : no_proc H → bt p H (wakeup_proc q) (λ _, H).
Proof. lks_in wakeup_proc. Qed.

Lemma bt_kill p pid : bt p [] (kill pid) (λ _, []).
Proof.
  unfold kill. lks. unfold kill_one. lks.
Qed.
#[export] Hint Resolve bt_wakeup bt_wakeup_proc bt_kill : bt.

(** ** Sleep locks *)

Section sleeplock.
Context `{Wf : WaitFuel}.
Context (l : lockid) (ch : chan) (get : kst → sleeplock) (put : sleeplock → kst → kst).
Hypothesis (Hl : sleepable l) (Hput : ∀ v s, k_held (put v s) = k_held s) (Hput' : ∀ v s, k_proc (put v s) = k_proc s).

#[local] Hint Resolve Hl : bt.
Lemma sleepable_lock : l ≠ LIntr.
Proof using Hl. by intros ->. Qed.
Lemma qt_put H v : qt H (modify (put v)) (λ _, H).
Proof using Hput Hput'. by apply qt_modify. Qed.

#[local] Hint Resolve qt_put : qt.

Lemma bt_acquiresleep_wait p n : bt p [l] (acquiresleep_wait l ch get n) (λ _, [l]).
Proof using Hl. induction n as [|n IH]; cbn [acquiresleep_wait]; lks; apply IH. Qed.
#[local] Hint Resolve bt_acquiresleep_wait : bt.

Lemma bt_acquiresleep p : bt p [] (acquiresleep l ch get put) (λ _, []).
Proof using Hl Hput Hput'. pose proof sleepable_lock. lks_in acquiresleep. Qed.

Lemma bt_releasesleep p : bt p [] (releasesleep l ch put) (λ _, []).
Proof using Hl Hput Hput'.
  pose proof sleepable_lock. assert (no_proc [l]) by (intros i; rewrite list_elem_of_singleton; intros <-; exact Hl). lks_in releasesleep.
Qed.

Lemma qt_holdingsleep H : l ∉ H → qt H (holdingsleep l get) (λ _, H).
Proof using Hl. pose proof sleepable_lock. lk_in holdingsleep. Qed.
End sleeplock.

(** [sleep] with a second lock held. *)
Lemma sleep_two ch l l' s : sleepable l → sleepable l' → l ≠ l' → k_held s = [l; l'] →
  ∃ s', sleep ch l s = Panic "sched locks" s' ∧ k_itable s' = k_itable s.
Proof.
  intros Hl Hl' Hne Hh. set (p := ps_cur (k_proc s)).
  assert (LProc p ≠ l ∧ l ≠ LIntr) as [? ?] by (by split; intros <- || intros ->).
  assert (LProc p ≠ l' ∧ l' ≠ LIntr) as [? ?] by (by split; intros <- || intros ->).
  unfold sleep, myproc. change (ps_cur (k_proc s)) with p.
  assert (Ha : acquire (LProc p) s = Done tt (set_held [LProc p; l; l'] s)).
  { rewrite acquire_ok by (rewrite Hh; set_solver). by rewrite Hh. }
  assert (Hr : release l (set_held [LProc p; l; l'] s) = Done tt (set_held [LProc p; l'] s)).
  { by rewrite (release_second (LProc p) l [l']) by (done || set_solver). }
  run_by reflexivity. rewrite (bind_Done _ _ _ _ _ Ha), (bind_Done _ _ _ _ _ Hr).
  run_by (unfold upd_proc, modify; reflexivity). run_by (unfold upd_proc, modify; reflexivity).
  eexists. split; [apply bind_Panic|].
  - unfold sched, myproc, holding, gets, mbind, M_bind. cbn. rewrite bool_decide_true by set_solver. reflexivity.
  - reflexivity.
Qed.
