(* ===== verification/DiscFs.v ===== *)
(** * The discipline of locks: file system, devices, pipes and files *)

From S2P Require Import Prelude Memory Params State CString Sched Uart Kalloc Vm Console Block Bio Log Fs Pipe File Virtio.
From S2P Require Import Disc.

(** * The discipline of locks: the file system *)

Section bio.
Context `{Dr : DiskRw} `{Wf : WaitFuel}.

Lemma qt_disk H b w : LDisk ∉ H → qt H (virtio_disk_rw b w) (λ _, H).
Proof.
  intros Hd HI s Hh. rewrite virtio_disk_rw_ok by (rewrite Hh; set_solver). unfold disk_effect. by destruct w.
Qed.
#[local] Hint Resolve qt_disk : qt.

Lemma bt_acquiresleep_buf p i : bt p [] (acquiresleep_buf i) (λ _, []).
Proof. by apply bt_acquiresleep. Qed.
Lemma bt_releasesleep_buf p i : bt p [] (releasesleep_buf i) (λ _, []).
Proof. by apply bt_releasesleep. Qed.
Lemma qt_holdingsleep_buf H i : LBufSleep i ∉ H → qt H (holdingsleep_buf i) (λ _, H).
Proof. by apply qt_holdingsleep. Qed.
#[local] Hint Resolve bt_acquiresleep_buf bt_releasesleep_buf : bt.
#[local] Hint Resolve qt_holdingsleep_buf : qt.

Lemma qt_bget_find H n b dev bno : qt H (bget_find n b dev bno) (λ _, H).
Proof. revert b. induction n as [|n IH]; intros b; cbn [bget_find]; lk; apply IH. Qed.
Lemma qt_bget_lru H n b : qt H (bget_lru n b) (λ _, H).
Proof. revert b. induction n as [|n IH]; intros b; cbn [bget_lru]; lk; apply IH. Qed.
#[local] Hint Resolve qt_bget_find qt_bget_lru : qt.

Lemma bt_bget p dev bno : bt p [] (bget dev bno) (λ _, []).
Proof. lks_in bget. Qed.
#[local] Hint Resolve bt_bget : bt.
Lemma bt_bread p dev bno : bt p [] (bread dev bno) (λ _, []).
Proof. lks_in bread. Qed.
Lemma bt_bwrite p b : bt p [] (bwrite b) (λ _, []).
Proof. lks_in bwrite. Qed.
Lemma bt_brelse p b : bt p [] (brelse b) (λ _, []).
Proof. lks_in brelse. Qed.
Lemma qt_bpin H b : LBcache ∉ H → qt H (bpin b) (λ _, H).
Proof. lk_in bpin. Qed.
Lemma qt_bunpin H b : LBcache ∉ H → qt H (bunpin b) (λ _, H).
Proof. lk_in bunpin. Qed.
End bio.
#[export] Hint Resolve bt_bread bt_bwrite bt_brelse : bt.
#[export] Hint Resolve qt_bpin qt_bunpin : qt.

Section log.
Context `{Dr : DiskRw} `{Wf : WaitFuel}.

Lemma qt_log_block H i : qt H (log_block i) (λ _, H).
Proof. lk_in log_block. Qed.
Lemma qt_store_log_block H i b : qt H (store_log_block i b) (λ _, H).
Proof. lk_in store_log_block. Qed.
#[local] Hint Resolve qt_log_block qt_store_log_block : qt.

Lemma bt_install_trans p r : bt p [] (install_trans r) (λ _, []).
Proof. lks_in install_trans. Qed.
Lemma bt_read_head p : bt p [] read_head (λ _, []).
Proof. lks_in read_head. Qed.
Lemma bt_write_head p : bt p [] write_head (λ _, []).
Proof. lks_in write_head. Qed.
#[local] Hint Resolve bt_install_trans bt_read_head bt_write_head : bt.
Lemma bt_recover_from_log p : bt p [] recover_from_log (λ _, []).
Proof. lks_in recover_from_log. Qed.
#[local] Hint Resolve bt_recover_from_log : bt.
Lemma bt_initlog p dev sb : bt p [] (initlog dev sb) (λ _, []).
Proof. lks_in initlog. Qed.
Lemma bt_begin_op_wait p n : bt p [LLog] (begin_op_wait n) (λ _, []).
Proof. induction n as [|n IH]; cbn [begin_op_wait]; lks; apply IH. Qed.
#[local] Hint Resolve bt_begin_op_wait : bt.
Lemma bt_begin_op p : bt p [] begin_op (λ _, []).
Proof. lks_in begin_op. Qed.
Lemma bt_write_log p : bt p [] write_log (λ _, []).
Proof. lks_in write_log. Qed.
#[local] Hint Resolve bt_write_log : bt.
Lemma bt_commit p : bt p [] commit (λ _, []).
Proof. lks_in commit. Qed.
#[local] Hint Resolve bt_commit : bt.
Lemma bt_end_op p : bt p [] end_op (λ _, []).
Proof. lks_in end_op. Qed.
Lemma qt_log_write H b : LLog ∉ H → LBcache ∉ H → qt H (log_write b) (λ _, H).
Proof. lk_in log_write. Qed.
End log.
#[export] Hint Resolve bt_initlog bt_begin_op bt_end_op : bt.
#[export] Hint Resolve qt_log_write : qt.

Section fs.
Context `{Dr : DiskRw} `{Wf : WaitFuel}.

Lemma bt_readsb p dev : bt p [] (readsb dev) (λ _, []).
Proof. lks_in readsb. Qed.
#[local] Hint Resolve bt_readsb : bt.
Lemma bt_fsinit p dev : bt p [] (fsinit dev) (λ _, []).
Proof. lks_in fsinit. Qed.
Lemma bt_bzero p dev b : bt p [] (bzero dev b) (λ _, []).
Proof. lks_in bzero. Qed.
#[local] Hint Resolve bt_bzero : bt.

Lemma bt_balloc p dev : bt p [] (balloc dev) (λ _, []).
Proof. lks_in balloc. Qed.
Lemma bt_bfree p dev b : bt p [] (bfree dev b) (λ _, []).
Proof. lks_in bfree. Qed.
#[local] Hint Resolve bt_balloc bt_bfree : bt.

Lemma qt_iget_scan H n i dev inum e : qt H (iget_scan n i dev inum e) (λ _, H).
Proof. revert i e. induction n as [|n IH]; intros i e; cbn [iget_scan]; lk; apply IH. Qed.
#[local] Hint Resolve qt_iget_scan : qt.
Lemma qt_iget H dev inum : LItable ∉ H → qt H (iget dev inum) (λ _, H).
Proof. lk_in iget. Qed.
Lemma qt_idup H i : LItable ∉ H → qt H (idup i) (λ _, H).
Proof. lk_in idup. Qed.
#[local] Hint Resolve qt_iget qt_idup : qt.
Lemma bt_ialloc p dev type : bt p [] (ialloc dev type) (λ _, []).
Proof. lks_in ialloc. Qed.
Lemma bt_iupdate p i : bt p [] (iupdate i) (λ _, []).
Proof. lks_in iupdate. Qed.
#[local] Hint Resolve bt_iupdate : bt.

Lemma bt_acquiresleep_inode p i : bt p [] (acquiresleep_inode i) (λ _, []).
Proof. by apply bt_acquiresleep. Qed.
Lemma bt_releasesleep_inode p i : bt p [] (releasesleep_inode i) (λ _, []).
Proof. by apply bt_releasesleep. Qed.
Lemma qt_holdingsleep_inode H i : LInodeSleep i ∉ H → qt H (holdingsleep_inode i) (λ _, H).
Proof. by apply qt_holdingsleep. Qed.
#[local] Hint Resolve bt_acquiresleep_inode bt_releasesleep_inode : bt.
#[local] Hint Resolve qt_holdingsleep_inode : qt.

Lemma bt_ilock p oi : bt p [] (ilock oi) (λ _, []).
Proof. lks_in ilock. Qed.
Lemma bt_iunlock p oi : bt p [] (iunlock oi) (λ _, []).
Proof. lks_in iunlock. Qed.
#[local] Hint Resolve bt_ilock bt_iunlock : bt.
Lemma bt_itrunc p i : bt p [] (itrunc i) (λ _, []).
Proof. lks_in itrunc. Qed.
#[local] Hint Resolve bt_itrunc : bt.

(** The sleep lock that [iput] takes with the table's lock held. *)
Lemma acquiresleep_last p i s :
  k_held s = [LItable] → ps_cur (k_proc s) = p →
  i_ref (get_inode s i) = 1 → i_valid (get_inode s i) = true → i_nlink (get_inode s i) = 0 →
  disc p s (λ _ s', k_held s' = [LItable]) (acquiresleep_inode i s).
Proof.
  intros Hh Hc Href Hval Hnl. unfold acquiresleep_inode, acquiresleep.
  set (s1 := set_held [LInodeSleep i; LItable] s).
  assert (Ha : acquire (LInodeSleep i) s = Done tt s1).
  { rewrite acquire_ok by (rewrite Hh; set_solver). by rewrite Hh. }
  rewrite (bind_Done _ _ _ _ _ Ha). eapply disc_start; [apply (guar_same p s s1); reflexivity|].
  destruct (sl_locked (inode_sl i s)) eqn:El.
  - apply (disc_bind p s1 (λ _ _, False)); [|done].
    destruct wait_fuel as [|n]; cbn [acquiresleep_wait].
    + run_by reflexivity. change (inode_sl i s1) with (inode_sl i s). by rewrite El.
    + run_by reflexivity. change (inode_sl i s1) with (inode_sl i s). rewrite El. cbn [negb].
      destruct (sleep_two (ChInodeLock i) (LInodeSleep i) LItable s1) as (s2 & E2 & Hi); [done..|].
      rewrite (bind_Panic _ _ _ _ _ E2). cbn [disc]. intros _. split; [done|]. exists i. unfold inode_sl, get_inode in *.
      by rewrite Hi.
  - assert (Hw : ∀ n, acquiresleep_wait (LInodeSleep i) (ChInodeLock i) (inode_sl i) n s1 = Done tt s1).
    { intros n. destruct n; cbn [acquiresleep_wait]; run_by reflexivity; change (inode_sl i s1) with (inode_sl i s); by rewrite El. }
    rewrite (bind_Done _ _ _ _ _ (Hw _)).
    assert (Hlt : bt p [LInodeSleep i; LItable]
      (p0 ← myproc; pid ← proc_get p0 p_pid; modify (put_inode_sl i (mk_sleeplock true pid));; release (LInodeSleep i))
      (λ _, [LItable])) by lks.
    by_bt Hlt.
Qed.

Lemma bt_iput p i : bt p [] (iput i) (λ _, []).
Proof.
  intros HI s Hh Hc. unfold iput. step_qt (apply qt_acquire; lk_side). intros ? s1 Hh1 E1.
  assert (Hc1 : ps_cur (k_proc s1) = p) by (by rewrite E1).
  unfold inode_get. run_by reflexivity.
  eapply disc_bind with (λ _ s', k_held s' = [LItable]).
  - unfold when. destruct (_ && _) eqn:Eb; [|cbn; split_and!; [done|apply guar_refl|done]].
    apply andb_prop in Eb as [[H1 H2]%andb_prop H3]. apply Z.eqb_eq in H1, H3.
    eapply disc_bind; [by apply acquiresleep_last|]. intros ? s2 Hc2 Hh2.
    assert (Hrest : bt p [LItable]
      (release LItable;; itrunc i;; upd_inode i (set_i_type 0);; iupdate i;; upd_inode i (set_i_valid false);;
       releasesleep_inode i;; acquire LItable) (λ _, [LItable])) by lks.
    by_bt Hrest.
  - intros ? s2 Hc2 Hh2.
    assert (Hrest : bt p [LItable] (upd_inode i (λ ip, set_i_ref (i32 (i_ref ip - 1)) ip);; release LItable) (λ _, [])) by lks.
    apply Hrest; [lk_side|done..].
Qed.
#[local] Hint Resolve bt_iput : bt.

Lemma bt_iunlockput p i : bt p [] (iunlockput i) (λ _, []).
Proof. lks_in iunlockput. Qed.
Lemma bt_bmap p i bn : bt p [] (bmap i bn) (λ _, []).
Proof. lks_in bmap. Qed.
Lemma qt_stati H i : qt H (stati i) (λ _, H).
Proof. lk_in stati. Qed.
#[local] Hint Resolve bt_iunlockput bt_bmap : bt.
Lemma bt_readi_loop p n i dst off k tot acc : bt p [] (readi_loop n i dst off k tot acc) (λ _, []).
Proof. revert dst off tot acc. induction n as [|n IH]; intros dst off tot acc; cbn [readi_loop]; lks; apply IH. Qed.
#[local] Hint Resolve bt_readi_loop : bt.
Lemma bt_readi p i dst off n : bt p [] (readi i dst off n) (λ _, []).
Proof. lks_in readi. Qed.
Lemma bt_writei_loop p n i src off k tot : bt p [] (writei_loop n i src off k tot) (λ _, []).
Proof. revert src off tot. induction n as [|n IH]; intros src off tot; cbn [writei_loop]; lks; apply IH. Qed.
#[local] Hint Resolve bt_readi bt_writei_loop : bt.
Lemma bt_writei p i src off n : bt p [] (writei i src off n) (λ _, []).
Proof. lks_in writei. Qed.
#[local] Hint Resolve bt_writei : bt.

Lemma bt_dirlookup_loop p n dp name off : bt p [] (dirlookup_loop n dp name off) (λ _, []).
Proof. revert off. induction n as [|n IH]; intros off; cbn [dirlookup_loop]; lks; apply IH. Qed.
#[local] Hint Resolve bt_dirlookup_loop : bt.
Lemma bt_dirlookup p dp name : bt p [] (dirlookup dp name) (λ _, []).
Proof. lks_in dirlookup. Qed.
Lemma bt_dirlink_find p n dp off : bt p [] (dirlink_find n dp off) (λ _, []).
Proof. revert off. induction n as [|n IH]; intros off; cbn [dirlink_find]; lks; apply IH. Qed.
#[local] Hint Resolve bt_dirlookup bt_dirlink_find : bt.
Lemma bt_dirlink p dp name inum : bt p [] (dirlink dp name inum) (λ _, []).
Proof. lks_in dirlink. Qed.
Lemma bt_namex_loop p n ip path name parent : bt p [] (namex_loop n ip path name parent) (λ _, []).
Proof. revert ip path name. induction n as [|n IH]; intros ip path name; cbn [namex_loop]; lks; apply IH. Qed.
#[local] Hint Resolve bt_namex_loop : bt.
Lemma bt_namex p path parent : bt p [] (namex path parent) (λ _, []).
Proof. lks_in namex. Qed.
#[local] Hint Resolve bt_namex : bt.
Lemma bt_namei p path : bt p [] (namei path) (λ _, []).
Proof. lks_in namei. Qed.
Lemma bt_nameiparent p path : bt p [] (nameiparent path) (λ _, []).
Proof. apply bt_namex. Qed.
End fs.
#[export] Hint Resolve bt_fsinit bt_ialloc bt_iupdate bt_ilock bt_iunlock bt_itrunc bt_iput bt_iunlockput bt_readi
  bt_writei bt_dirlookup bt_dirlink bt_namei bt_nameiparent : bt.
#[export] Hint Resolve qt_iget qt_idup qt_stati : qt.

(** * The discipline of locks: devices, pipes and files *)

Section console.
Context `{Ua : UartDev} `{Wf : WaitFuel}.

Lemma bt_uartstart_loop p n : bt p [LUart] (uartstart_loop n) (λ _, [LUart]).
Proof. induction n as [|n IH]; cbn [uartstart_loop]; lks; apply IH. Qed.
#[local] Hint Resolve bt_uartstart_loop : bt.
Lemma bt_uartstart p : bt p [LUart] uartstart (λ _, [LUart]).
Proof. lks_in uartstart. Qed.
#[local] Hint Resolve bt_uartstart : bt.
Lemma bt_uartputc_loop p n c : bt p [LUart] (uartputc_loop n c) (λ _, []).
Proof. induction n as [|n IH]; cbn [uartputc_loop]; lks; apply IH. Qed.
#[local] Hint Resolve bt_uartputc_loop : bt.
Lemma bt_uartputc p c : bt p [] (uartputc c) (λ _, []).
Proof. lks_in uartputc. apply bt_fuel. Qed.
#[local] Hint Resolve bt_uartputc : bt.

Lemma bt_consolewrite_loop p n src i : bt p [] (consolewrite_loop n src i) (λ _, []).
Proof. revert src i. induction n as [|n IH]; intros src i; cbn [consolewrite_loop]; lks; apply IH. Qed.
#[local] Hint Resolve bt_consolewrite_loop : bt.
Lemma bt_consolewrite p src n : bt p [] (consolewrite src n) (λ _, []).
Proof. lks_in consolewrite. Qed.
Lemma bt_console_wait p n : bt p [LCons] (console_wait n) (λ _, [LCons]).
Proof. induction n as [|n IH]; cbn [console_wait]; lks; apply IH. Qed.
#[local] Hint Resolve bt_console_wait : bt.
Lemma bt_consoleread_loop p k dst t n : bt p [LCons] (consoleread_loop k dst t n) (λ _, [LCons]).
Proof. revert dst n. induction k as [|k IH]; intros dst n; cbn [consoleread_loop]; lks; apply IH. Qed.
#[local] Hint Resolve bt_consoleread_loop : bt.
Lemma bt_consoleread p dst n : bt p [] (consoleread dst n) (λ _, []).
Proof. lks_in consoleread. Qed.

Lemma bt_kill_line p n : bt p [LCons] (kill_line n) (λ _, [LCons]).
Proof. induction n as [|n IH]; cbn [kill_line]; lks; apply IH. Qed.
Lemma bt_consoleintr_default p c : bt p [LCons] (consoleintr_default c) (λ _, [LCons]).
Proof. lks_in consoleintr_default. Qed.
#[local] Hint Resolve bt_kill_line bt_consoleintr_default : bt.
Lemma bt_consoleintr p c : bt p [] (consoleintr c) (λ _, []).
Proof. lks_in consoleintr. Qed.
#[local] Hint Resolve bt_consoleintr : bt.
Lemma bt_uartintr_loop p n : bt p [] (uartintr_loop n) (λ _, []).
Proof. induction n as [|n IH]; cbn [uartintr_loop]; lks; apply IH. Qed.
#[local] Hint Resolve bt_uartintr_loop : bt.
Lemma bt_uartintr p : bt p [] uartintr (λ _, []).
Proof. lks_in uartintr. Qed.
End console.
#[export] Hint Resolve bt_consolewrite bt_consoleread bt_uartintr : bt.

(** The disk driver as it is written, which waits for the interrupt. *)
Section virtio.
Context `{Vr : VirtioRegs} `{Wf : WaitFuel}.

Lemma qt_upd_vd H f : qt H (upd_vd f) (λ _, H).
Proof. lk_in upd_vd. Qed.
Lemma qt_vd_get {A} H (f : _ → A) : qt H (vd_get f) (λ _, H).
Proof. lk_in vd_get. Qed.
Lemma qt_mmio_w H a v : qt H (mmio_w a v) (λ _, H).
Proof. lk_in mmio_w. Qed.
Lemma qt_R_w H r v : qt H (R_w r v) (λ _, H).
Proof. apply qt_mmio_w. Qed.
#[local] Hint Resolve qt_upd_vd qt_vd_get qt_R_w : qt.

Lemma qt_alloc_desc H : qt H alloc_desc (λ _, H).
Proof.
  unfold alloc_desc. eapply qt_post; [apply (qt_find H _ _ _ (λ _, H))|by intros [|]]. intros i. lk.
Qed.
#[local] Hint Resolve qt_alloc_desc : qt.
Lemma bt_free_desc p i : bt p [LDisk] (free_desc i) (λ _, [LDisk]).
Proof. lks_in free_desc. Qed.
#[local] Hint Resolve bt_free_desc : bt.
Lemma bt_free_chain p n i : bt p [LDisk] (free_chain n i) (λ _, [LDisk]).
Proof. revert i. induction n as [|n IH]; intros i; cbn [free_chain]; lks; apply IH. Qed.
Lemma bt_free_descs p l : bt p [LDisk] (free_descs l) (λ _, [LDisk]).
Proof. induction l as [|i l IH]; cbn [free_descs]; lks; apply IH. Qed.
#[local] Hint Resolve bt_free_chain bt_free_descs : bt.
Lemma bt_alloc3_loop p n idx : bt p [LDisk] (alloc3_loop n idx) (λ _, [LDisk]).
Proof. revert idx. induction n as [|n IH]; intros idx; cbn [alloc3_loop]; lks; apply IH. Qed.
#[local] Hint Resolve bt_alloc3_loop : bt.
Lemma bt_alloc_wait p n : bt p [LDisk] (alloc_wait n) (λ _, [LDisk]).
Proof. induction n as [|n IH]; cbn [alloc_wait]; unfold alloc3_desc; lks; apply IH. Qed.
Lemma qt_disk_submit H b w i j k : qt H (disk_submit b w i j k) (λ _, H).
Proof. lk_in disk_submit. Qed.
Lemma bt_disk_wait p n b : bt p [LDisk] (disk_wait n b) (λ _, [LDisk]).
Proof. induction n as [|n IH]; cbn [disk_wait]; lks; apply IH. Qed.
#[local] Hint Resolve bt_alloc_wait bt_disk_wait : bt.
#[local] Hint Resolve qt_disk_submit : qt.
Lemma bt_disk_rw p b w : bt p [] (disk_rw b w) (λ _, []).
Proof. lks_in disk_rw. Qed.
Lemma bt_intr_loop p n : bt p [LDisk] (intr_loop n) (λ _, [LDisk]).
Proof. induction n as [|n IH]; cbn [intr_loop]; lks; apply IH. Qed.
#[local] Hint Resolve bt_intr_loop : bt.
Lemma bt_virtio_disk_intr p : bt p [] virtio_disk_intr (λ _, []).
Proof. lks_in virtio_disk_intr. Qed.
End virtio.
#[export] Hint Resolve bt_disk_rw bt_virtio_disk_intr : bt.
#[export] Hint Resolve qt_mmio_w : qt.

Section pipe.
Context `{Ki : KernelImage} `{Wf : WaitFuel}.

Lemma qt_upd_pipe H pi f : qt H (upd_pipe pi f) (λ _, H).
Proof. lk_in upd_pipe. Qed.
#[local] Hint Resolve qt_upd_pipe : qt.
Lemma bt_pipeclose p pi w : bt p [] (pipeclose pi w) (λ _, []).
Proof. lks_in pipeclose. Qed.
Lemma bt_pipe_space p n pi pr : bt p [LPipe pi] (pipe_space n pi pr) (λ _, [LPipe pi]).
Proof. induction n as [|n IH]; cbn [pipe_space]; lks; apply IH. Qed.
#[local] Hint Resolve bt_pipe_space : bt.
Lemma bt_pipewrite_loop p k pi pr addr i : bt p [LPipe pi] (pipewrite_loop k pi pr addr i) (λ _, [LPipe pi]).
Proof. revert i. induction k as [|k IH]; intros i; cbn [pipewrite_loop]; lks; apply IH. Qed.
#[local] Hint Resolve bt_pipewrite_loop : bt.
Lemma bt_pipewrite p pi addr n : bt p [] (pipewrite pi addr n) (λ _, []).
Proof. lks_in pipewrite. Qed.
Lemma bt_pipe_data p n pi pr : bt p [LPipe pi] (pipe_data n pi pr) (λ _, [LPipe pi]).
Proof. induction n as [|n IH]; cbn [pipe_data]; lks; apply IH. Qed.
Lemma qt_piperead_loop H k pi pr addr i : LKmem ∉ H → qt H (piperead_loop k pi pr addr i) (λ _, H).
Proof. intros Hk. revert i. induction k as [|k IH]; intros i; cbn [piperead_loop]; lk; apply IH. Qed.
#[local] Hint Resolve bt_pipe_data : bt.
#[local] Hint Resolve qt_piperead_loop : qt.
Lemma bt_piperead p pi addr n : bt p [] (piperead pi addr n) (λ _, []).
Proof. lks_in piperead. Qed.
End pipe.
#[export] Hint Resolve bt_pipeclose bt_pipewrite bt_piperead : bt.

Section file.
Context `{Ki : KernelImage} `{Dr : DiskRw} `{Ua : UartDev} `{Wf : WaitFuel}.

Lemma qt_upd_file H f g : qt H (upd_file f g) (λ _, H).
Proof. lk_in upd_file. Qed.
Lemma qt_file_get {A} H f (g : _ → A) : qt H (file_get f g) (λ _, H).
Proof. lk_in file_get. Qed.
#[local] Hint Resolve qt_upd_file qt_file_get : qt.

Lemma qt_filealloc H : LFtable ∉ H → qt H filealloc (λ _, H).
Proof.
  intros Hf. unfold filealloc. eapply qt_bind; [apply qt_acquire; lk_side|]. intros ?.
  eapply qt_bind; [apply (qt_find (LFtable :: H) _ _ _ (λ _, H)); intros i|intros [f|]]; lk.
Qed.
Lemma qt_filedup H f : LFtable ∉ H → qt H (filedup f) (λ _, H).
Proof. lk_in filedup. Qed.
Lemma bt_fileclose p f : bt p [] (fileclose f) (λ _, []).
Proof. lks_in fileclose. Qed.
#[local] Hint Resolve qt_filealloc : qt.
#[local] Hint Resolve bt_fileclose : bt.
Lemma bt_filestat p f addr : bt p [] (filestat f addr) (λ _, []).
Proof. lks_in filestat. Qed.

Lemma bt_dev_read p major dst n read : dev_entry devsw_read major = Some read → bt p [] (read dst n) (λ _, []).
Proof. unfold dev_entry, devsw_read. intros E. repeat case_match; simplify_eq. apply bt_consoleread. Qed.
Lemma bt_dev_write p major src n write : dev_entry devsw_write major = Some write → bt p [] (write src n) (λ _, []).
Proof. unfold dev_entry, devsw_write. intros E. repeat case_match; simplify_eq. apply bt_consolewrite. Qed.

Lemma bt_fileread p f addr n : bt p [] (fileread f addr n) (λ _, []).
Proof.
  unfold fileread. eapply bt_bind; [lk|]. intros x. cbv beta.
  destruct (dev_entry devsw_read (f_major x)) as [read|] eqn:E; [pose proof (bt_dev_read p _ (DUser addr) n _ E)|]; lks.
Qed.
Lemma bt_filewrite_loop p k f ip addr n i : bt p [] (filewrite_loop k f ip addr n i) (λ _, []).
Proof. revert i. induction k as [|k IH]; intros i; cbn [filewrite_loop]; lks; apply IH. Qed.
#[local] Hint Resolve bt_filewrite_loop : bt.
Lemma bt_filewrite p f addr n : bt p [] (filewrite f addr n) (λ _, []).
Proof.
  unfold filewrite. eapply bt_bind; [lk|]. intros x. cbv beta.
  destruct (dev_entry devsw_write (f_major x)) as [write|] eqn:E; [pose proof (bt_dev_write p _ (SUser addr) n _ E)|]; lks.
Qed.
Lemma bt_pipealloc_bad p f0 f1 : bt p [] (pipealloc_bad f0 f1) (λ _, []).
Proof. lks_in pipealloc_bad. Qed.
#[local] Hint Resolve bt_pipealloc_bad : bt.
Lemma bt_pipealloc p : bt p [] pipealloc (λ _, []).
Proof. lks_in pipealloc. Qed.
End file.
#[export] Hint Resolve bt_fileclose bt_filestat bt_fileread bt_filewrite bt_pipealloc : bt.
#[export] Hint Resolve qt_filealloc qt_filedup qt_upd_file qt_file_get : qt.
