(* ===== verification/DiscSys.v ===== *)
(** * The discipline of locks: processes, system calls and traps

    Every way into the kernel from user space is disciplined: the processor
    changes hands only where [sched] allows it, no lock is taken twice or
    released by a thread that does not hold it, and none is held on the way
    back to user space. *)

From S2P Require Import Prelude Memory Params State CString Riscv Sched Kalloc Vm Block Bio BioInit Log Uart Console Fs Pipe File Proc Exec.
From S2P Require Import Sysproc Sysfile Virtio Trap Disc DiscFs.

Section proc.
Context `{Ki : KernelImage} `{Dr : DiskRw} `{Ua : UartDev} `{Wf : WaitFuel}.

Lemma qt_tf_get H p f : qt H (tf_get p f) (λ _, H).
Proof. lk_in tf_get. Qed.
Lemma qt_tf_set H p f v : qt H (tf_set p f v) (λ _, H).
Proof. lk_in tf_set. Qed.
#[local] Hint Resolve qt_tf_get qt_tf_set : qt.

(** ** Processes that come and go *)

Lemma disc_freeproc p i H s :
  LKmem ∉ H → LIntr ∉ H → k_held s = H → ps_cur (k_proc s) = p → idle i s →
  disc p s (λ _ s', k_held s' = H) (freeproc i s).
Proof.
  intros Hk HI Hh Hc Hi. unfold freeproc.
  step_qt (apply qt_proc_get). intros tf s1 Hh1 E1.
  step_qt (apply qt_when; intros _; by apply qt_kfree). intros ? s2 Hh2 E2.
  assert (Hi2 : idle i s2) by (eapply idle_same; [|exact Hi]; congruence).
  apply disc_step_upd; [by right|].
  assert (Hi3 : idle i (upd_at i (set_p_trapframe 0) s2)) by (by apply idle_upd).
  assert (Hc3 : ps_cur (k_proc (upd_at i (set_p_trapframe 0) s2)) = p) by (cbn; congruence).
  revert Hi3 Hc3. assert (Hh3 : k_held (upd_at i (set_p_trapframe 0) s2) = H) by done. revert Hh3.
  generalize (upd_at i (set_p_trapframe 0) s2). intros s3 Hh3 Hi3 Hc3.
  step_qt (apply qt_proc_get). intros pt s4 Hh4 E4.
  step_qt (apply qt_proc_get). intros sz s5 Hh5 E5.
  step_qt (apply qt_when; intros _; by apply qt_proc_freepagetable). intros ? s6 Hh6 E6.
  cbn. split_and!; [congruence|apply guar_upd|done]. right. intros Hr. contradict Hr.
  eapply idle_same; [|exact Hi3]. congruence.
Qed.

Lemma allocpid_run H s : LPid ∉ H → LIntr ∉ H → k_held s = H → ∃ s',
  allocpid s = Done (ps_nextpid (k_proc s)) s' ∧ k_held s' = H ∧ ps_procs (k_proc s') = ps_procs (k_proc s) ∧
  ps_cur (k_proc s') = ps_cur (k_proc s).
Proof.
  intros Hl HI Hh. unfold allocpid. rewrite (bind_Done _ _ _ _ _ (acquire_ok LPid s ltac:(rewrite Hh; set_solver))).
  run_by reflexivity. run_by reflexivity. eexists. split.
  - erewrite bind_Done; [reflexivity|]. apply (release_ok _ H); [cbn; by rewrite Hh|set_solver].
  - by split_and!.
Qed.

(** A new process, which the scheduler will not pick yet. *)
Definition new_proc (H : list lockid) (r : option nat) (s : kst) : Prop :=
  match r with Some np => k_held s = LProc np :: H ∧ idle np s | None => k_held s = H end.

(** The failure path of [allocproc]. *)
Lemma disc_give_up p np H s :
  LKmem ∉ H → LIntr ∉ H → LProc np ∉ H → k_held s = LProc np :: H → ps_cur (k_proc s) = p → idle np s →
  disc p s (new_proc H) ((freeproc np;; release (LProc np);; mret None) s).
Proof.
  intros Hk HI Hp Hh Hc Hi. eapply disc_bind; [apply (disc_freeproc p np (LProc np :: H)); try done; set_solver|].
  intros ? s1 Hc1 Hh1. step_qt (by apply qt_release). intros ? s2 Hh2 E2.
  cbn. split_and!; [congruence|apply guar_refl|done].
Qed.

Lemma disc_allocproc p H s :
  LKmem ∉ H → LPid ∉ H → LIntr ∉ H → no_proc H → k_held s = H → ps_cur (k_proc s) = p → disc p s (new_proc H) (allocproc s).
Proof.
  intros Hk Hpid HI Hp Hh Hc. unfold allocproc.
  eapply (disc_bind p s (λ r s', match r with
     | Some np => k_held s' = LProc np :: H ∧ p_state (get_proc s' np) = UNUSED | None => k_held s' = H end)).
  { apply (disc_find p (λ s, k_held s = H) (λ np s', k_held s' = LProc np :: H ∧ p_state (get_proc s' np) = UNUSED)); [|done..].
    intros i s1 Hh1 Hc1. cbv zeta. step_qt (apply (qt_acquire H); lk_side). intros ? s2 Hh2 E2.
    unfold proc_get. run_by reflexivity. case_bool_decide as Hu.
    - cbn. split_and!; [congruence|apply guar_refl|done|done].
    - step_qt (by apply qt_release). intros ? s3 Hh3 E3.
      cbn. split_and!; [congruence|apply guar_refl|done]. }
  intros [np|] s1 Hc1; [|intros Hh1; cbn; split_and!; [done|apply guar_refl|done]]. intros [Hh1 Hu].
  destruct (allocpid_run (LProc np :: H) s1) as (s2 & E2 & Hh2 & Hp2 & Hc2); [set_solver..|done|].
  rewrite (bind_Done _ _ _ _ _ E2). eapply disc_start.
  { split; [by rewrite Hp2|]. unfold get_proc. by rewrite Hp2. }
  assert (Hi2 : idle np s2) by (unfold idle, get_proc in *; rewrite Hp2, Hu; done).
  apply disc_step_upd; [by right|]. apply disc_step_upd.
  { right. intros Hr. destruct (idle_upd np (set_p_pid (ps_nextpid (k_proc s1))) s2); done. }
  set (s3 := upd_at np (set_p_state USED) _).
  assert (Hi3 : idle np s3) by (apply idle_upd; [done|]; by apply idle_upd).
  assert (Hh3 : k_held s3 = LProc np :: H) by done. assert (Hc3 : ps_cur (k_proc s3) = p) by (cbn; congruence).
  clearbody s3. clear s2 E2 Hh2 Hp2 Hc2 Hi2. assert (Hk' : LKmem ∉ LProc np :: H) by set_solver.
  step_qt (by apply qt_kalloc). intros tf s4 Hh4 E4.
  apply disc_step_upd; [by right|]. set (s5 := upd_at np _ s4).
  assert (Hi5 : idle np s5) by (apply idle_upd; [done|]; by eapply idle_same).
  assert (Hh5 : k_held s5 = LProc np :: H) by done. assert (Hc5 : ps_cur (k_proc s5) = p) by (cbn; congruence). clearbody s5.
  destruct (tf =? 0); [by apply disc_give_up|].
  step_qt (by apply qt_proc_pagetable). intros pt s6 Hh6 E6.
  apply disc_step_upd; [by right|]. set (s7 := upd_at np _ s6).
  assert (Hi7 : idle np s7) by (apply idle_upd; [done|]; by eapply idle_same).
  assert (Hh7 : k_held s7 = LProc np :: H) by done. assert (Hc7 : ps_cur (k_proc s7) = p) by (cbn; congruence). clearbody s7.
  destruct (pt =? 0); [by apply disc_give_up|].
  apply disc_step_upd; [by right|]. cbn. split_and!; [done|apply guar_refl|done|]. by apply idle_upd.
Qed.

Lemma bt_dup_files p q np H : LFtable ∉ H → bt p H (dup_files q np) (λ _, H).
Proof. lks_in dup_files. Qed.
#[local] Hint Resolve bt_dup_files : bt.

Lemma bt_fork p : bt p [] fork (λ _, []).
Proof.
  unfold fork. apply bt_myproc. intros _ s Hh Hc.
  eapply disc_bind; [apply (disc_allocproc p []); try done; [set_solver..|]; by intros ?; apply not_elem_of_nil|].
  intros [np|] s1 Hc1; cbn [new_proc]; [|intros Hh1; cbn; split_and!; [done|apply guar_refl|done|lk_side]]. intros [Hh1 Hi1].
  do 3 (step_qt (apply qt_proc_get); intros ? ? ? ?).
  step_qt (apply (qt_uvmcopy [LProc np]); set_solver). intros c s5 Hh5 E5.
  assert (Hi5 : idle np s5) by (eapply idle_same; [|exact Hi1]; congruence).
  assert (Hc5 : ps_cur (k_proc s5) = p) by congruence. destruct (c <? 0).
  - eapply disc_bind; [apply (disc_freeproc p np [LProc np]); try done; set_solver|].
    intros ? s6 Hc6 Hh6. assert (Hrest : bt p [LProc np] (release (LProc np);; mret (-1)) (λ _, [])) by lks. apply Hrest; [lk_side|done..].
  - match goal with |- disc p s5 _ (?m s5) => assert (Hrest : bt p [LProc np] m (λ _, [])) by lks end. apply Hrest; [lk_side|done..].
Qed.
#[local] Hint Resolve bt_fork : bt.

Lemma bt_growproc p n : bt p [] (growproc n) (λ _, []).
Proof. lks_in growproc. Qed.
Lemma bt_reparent p q H : no_proc H → bt p H (reparent q) (λ _, H).
Proof. lks_in reparent. Qed.
Lemma bt_close_files p q : bt p [] (close_files q) (λ _, []).
Proof. lks_in close_files. Qed.
#[local] Hint Resolve bt_growproc bt_reparent bt_close_files : bt.

(** [p->state = ZOMBIE; release(&wait_lock); sched(); panic("zombie exit");] *)
Lemma bt_zombie {A} p (Q : A → list lockid) :
  bt p [LProc p; LWait] (upd_proc p (set_p_state ZOMBIE);; release LWait;; sched;; panic "zombie exit") Q.
Proof.
  intros _ s Hh Hc. apply disc_step_upd; [by left|]. set (s1 := upd_at p _ s).
  assert (Hr : p_state (get_proc s1 p) ≠ RUNNING).
  { unfold s1. rewrite get_proc_upd. case_decide as Hd; [done|]. unfold get_proc.
    rewrite list_lookup_total_alt, lookup_ge_None_2; [done|].
    destruct (decide (p < length (ps_procs (k_proc s)))%nat); [by destruct Hd|lia]. }
  rewrite (bind_Done _ _ _ _ _ (release_second (LProc p) LWait [] s1 Hh ltac:(set_solver) ltac:(set_solver))).
  eapply disc_start; [by apply (guar_same p s1 (set_held [LProc p] s1))|].
  apply disc_sched; [done..|]. intros s2 _ _. cbn. intros Hin. by apply (bool_decide_eq_true_2 _) in Hin.
Qed.

Lemma bt_exit {A} p n (Q : A → list lockid) : bt p [] (exit n) Q.
Proof.
  unfold exit. repeat (apply bt_zombie || lks_step).
Qed.

Lemma disc_wait_child p q np addr s :
  k_held s = [LWait] → ps_cur (k_proc s) = p →
  disc p s (λ r s', k_held s' = match r with Some _ => [] | None => [LWait] end) (wait_child q np addr s).
Proof.
  intros Hh Hc. unfold wait_child. step_qt (apply (qt_acquire [LWait]); set_solver). intros ? s1 Hh1 E1.
  unfold proc_get at 1. run_by reflexivity. case_bool_decide as Hz.
  - do 3 (step_qt (apply qt_proc_get); intros ? ? ? ?).
    eapply (disc_step_qt p _ [LProc np; LWait]); [|lk_side|congruence|congruence|].
    { instantiate (1 := λ _, [LProc np; LWait]). case_match; [by apply qt_ret|apply qt_copyout; set_solver]. }
    intros r s5 Hh5 E5. assert (Hc5 : ps_cur (k_proc s5) = p) by congruence. destruct (r <? 0).
    + assert (Hrest : bt p [LProc np; LWait] (release (LProc np);; release LWait;; mret (Some (-1))) (λ r, match r with Some _ => [] | None => [LWait] end))
        by lks.
      by_bt Hrest.
    + assert (Hi5 : idle np s5).
      { eapply idle_same; [|unfold idle; rewrite Hz; done]. congruence. }
      eapply disc_bind; [apply (disc_freeproc p np [LProc np; LWait]); try done; set_solver|]. intros ? s6 Hc6 Hh6.
      match goal with |- disc p s6 _ (?m s6) =>
        assert (Hrest : bt p [LProc np; LWait] m (λ r, match r with Some _ => [] | None => [LWait] end)) by lks end.
      by_bt Hrest.
  - assert (Hrest : bt p [LProc np; LWait] (release (LProc np);; mret None) (λ r : option Z, match r with Some _ => [] | None => [LWait] end))
      by lks.
    by_bt Hrest.
Qed.

Lemma bt_wait_child p q np addr :
  bt p [LWait] (wait_child q np addr) (λ r, match r with Some _ => [] | None => [LWait] end).
Proof.
  intros _ s Hh Hc. eapply disc_mono; [|by apply disc_wait_child]. intros [v|] s1 _ ->; by split; [|lk_side].
Qed.

Definition wait_post (r : Z + bool) : list lockid := match r with inl _ => [] | inr _ => [LWait] end.

Lemma bt_wait_scan p n np q addr hk : bt p [LWait] (wait_scan n np q addr hk) wait_post.
Proof.
  revert np hk. induction n as [|n IH]; intros np hk; cbn [wait_scan]; [by apply bt_ret|].
  eapply bt_bind; [lk|]. intros parent. cbv beta. destruct (bool_decide _); [|apply IH].
  eapply bt_bind; [apply bt_wait_child|]. intros [v|]; [by apply bt_ret|apply IH].
Qed.

Lemma bt_wait_loop p n q addr : bt p [LWait] (wait_loop n q addr) (λ _, []).
Proof.
  induction n as [|n IH]; cbn [wait_loop]; (eapply bt_bind; [apply bt_wait_scan|]); intros [v|hk]; cbn [wait_post]; lks; apply IH.
Qed.
#[local] Hint Resolve bt_wait_loop : bt.
Lemma bt_wait p addr : bt p [] (wait addr) (λ _, []).
Proof. lks_in wait. Qed.
End proc.
#[export] Hint Resolve qt_tf_get qt_tf_set : qt.
#[export] Hint Resolve bt_fork bt_growproc bt_exit bt_wait : bt.

(** ** Loading a program *)

Section exec.
Context `{Ki : KernelImage} `{Dr : DiskRw} `{Ua : UartDev} `{Wf : WaitFuel}.

Lemma bt_loadseg_loop p n pt va ip off sz i : bt p [] (loadseg_loop n pt va ip off sz i) (λ _, []).
Proof. revert i. induction n as [|n IH]; intros i; cbn [loadseg_loop]; lks; apply IH. Qed.
#[local] Hint Resolve bt_loadseg_loop : bt.
Lemma bt_loadseg p pt va ip off sz : bt p [] (loadseg pt va ip off sz) (λ _, []).
Proof. lks_in loadseg. Qed.
#[local] Hint Resolve bt_loadseg : bt.
Lemma bt_exec_load p n ip pt off sz : bt p [] (exec_load n ip pt off sz) (λ _, []).
Proof. revert off sz. induction n as [|n IH]; intros off sz; cbn [exec_load]; lks; apply IH. Qed.
Lemma qt_exec_args H argv pt sp sb us : LKmem ∉ H → qt H (exec_args argv pt sp sb us) (λ _, H).
Proof. intros Hk. revert sp us. induction argv as [|a argv IH]; intros sp us; cbn [exec_args]; lk; apply IH. Qed.
Lemma bt_exec_bad p pt sz ip : bt p [] (exec_bad pt sz ip) (λ _, []).
Proof. lks_in exec_bad. Qed.
#[local] Hint Resolve bt_exec_load bt_exec_bad : bt.
#[local] Hint Resolve qt_exec_args : qt.
Lemma bt_exec_stack p path argv elf pt sz : bt p [] (exec_stack path argv elf pt sz) (λ _, []).
Proof. lks_in exec_stack. Qed.
#[local] Hint Resolve bt_exec_stack : bt.
Lemma bt_exec p path argv : bt p [] (exec path argv) (λ _, []).
Proof. lks_in exec. Qed.
End exec.
#[export] Hint Resolve bt_exec : bt.

(** ** System calls *)

Section sys.
Context `{Ki : KernelImage} `{Dr : DiskRw} `{Ua : UartDev} `{Wf : WaitFuel}.

Lemma qt_fetchaddr H a : LKmem ∉ H → qt H (fetchaddr a) (λ _, H).
Proof. lk_in fetchaddr. Qed.
Lemma qt_fetchstr H a max : LKmem ∉ H → qt H (fetchstr a max) (λ _, H).
Proof. lk_in fetchstr. Qed.
Lemma qt_argraw H n : qt H (argraw n) (λ _, H).
Proof. lk_in argraw. Qed.
#[local] Hint Resolve qt_fetchaddr qt_fetchstr qt_argraw : qt.
Lemma qt_argint H n : qt H (argint n) (λ _, H).
Proof. lk_in argint. Qed.
Lemma qt_argaddr H n : qt H (argaddr n) (λ _, H).
Proof. lk_in argaddr. Qed.
#[local] Hint Resolve qt_argint qt_argaddr : qt.
Lemma qt_argstr H n max : LKmem ∉ H → qt H (argstr n max) (λ _, H).
Proof. lk_in argstr. Qed.
Lemma qt_argfd H n : qt H (argfd n) (λ _, H).
Proof. lk_in argfd. Qed.
#[local] Hint Resolve qt_argstr qt_argfd : qt.
Lemma bt_set_ofile p q fd f H : bt p H (set_ofile q fd f) (λ _, H).
Proof. lks_in set_ofile. Qed.
#[local] Hint Resolve bt_set_ofile : bt.
Lemma bt_fdalloc p f : bt p [] (fdalloc f) (λ _, []).
Proof. lks_in fdalloc. Qed.
#[local] Hint Resolve bt_fdalloc : bt.

Lemma bt_sys_sleep_loop p k t n : bt p [LTicks] (sys_sleep_loop k t n) (λ _, []).
Proof. induction k as [|k IH]; cbn [sys_sleep_loop]; lks; apply IH. Qed.
#[local] Hint Resolve bt_sys_sleep_loop : bt.

Lemma bt_link_bad p ip : bt p [] (link_bad ip) (λ _, []).
Proof. lks_in link_bad. Qed.
#[local] Hint Resolve bt_link_bad : bt.
Lemma bt_link p old new : bt p [] (link old new) (λ _, []).
Proof. lks_in link. Qed.
Lemma bt_isdirempty_loop p n dp off : bt p [] (isdirempty_loop n dp off) (λ _, []).
Proof. revert off. induction n as [|n IH]; intros off; cbn [isdirempty_loop]; lks; apply IH. Qed.
#[local] Hint Resolve bt_isdirempty_loop : bt.
Lemma bt_isdirempty p dp : bt p [] (isdirempty dp) (λ _, []).
Proof. lks_in isdirempty. Qed.
Lemma bt_unlink_bad p dp : bt p [] (unlink_bad dp) (λ _, []).
Proof. lks_in unlink_bad. Qed.
#[local] Hint Resolve bt_isdirempty bt_unlink_bad : bt.
Lemma bt_unlink p path : bt p [] (unlink path) (λ _, []).
Proof. lks_in unlink. Qed.
Lemma bt_create p path t ma mi : bt p [] (create path t ma mi) (λ _, []).
Proof. lks_in create. Qed.
#[local] Hint Resolve bt_create : bt.
Lemma bt_open_inode p path m : bt p [] (open_inode path m) (λ _, []).
Proof. lks_in open_inode. Qed.
Lemma qt_open_file H f ip m : qt H (open_file f ip m) (λ _, H).
Proof. lk_in open_file. Qed.
#[local] Hint Resolve bt_open_inode : bt.
#[local] Hint Resolve qt_open_file : qt.
Lemma bt_open p path m : bt p [] (open path m) (λ _, []).
Proof. lks_in open. Qed.
#[local] Hint Resolve bt_link bt_unlink bt_open : bt.
Lemma bt_fetch_argv p n u i pages strs : bt p [] (fetch_argv n u i pages strs) (λ _, []).
Proof. revert i pages strs. induction n as [|n IH]; intros i pages strs; cbn [fetch_argv]; lks; apply IH. Qed.
Lemma qt_free_argv H pages : LKmem ∉ H → qt H (free_argv pages) (λ _, H).
Proof. intros Hk. induction pages as [|a l IH]; cbn [free_argv]; lk; apply IH. Qed.
#[local] Hint Resolve bt_fetch_argv : bt.
#[local] Hint Resolve qt_free_argv : qt.

(** The twenty-one system calls. *)
Lemma bt_syscalls `{Vr : VirtioRegs} p num f : syscalls num = Some f → bt p [] f (λ _, []).
Proof.
  unfold syscalls. intros E. repeat (case_match; [simplify_eq E|]); simplify_eq E; intros <-.
  - lks_in sys_fork.
  - lks_in sys_exit.
  - lks_in sys_wait.
  - lks_in sys_pipe.
  - lks_in sys_read.
  - lks_in sys_kill.
  - lks_in sys_exec.
  - lks_in sys_fstat.
  - lks_in sys_chdir.
  - lks_in sys_dup.
  - lks_in sys_getpid.
  - lks_in sys_sbrk.
  - lks_in sys_sleep.
  - lks_in sys_uptime.
  - lks_in sys_open.
  - lks_in sys_write.
  - lks_in sys_mknod.
  - lks_in sys_unlink.
  - lks_in sys_link.
  - lks_in sys_mkdir.
  - lks_in sys_close.
Qed.
End sys.

(** ** Traps *)

Section trap.
Context `{Ki : KernelImage} `{Dr : DiskRw} `{Ua : UartDev} `{Wf : WaitFuel} `{Vr : VirtioRegs}.

Lemma qt_csr {A} H (f : _ → A) : qt H (csr f) (λ _, H).
Proof. lk_in csr. Qed.
Lemma qt_upd_csrs H f : qt H (upd_csrs f) (λ _, H).
Proof. lk_in upd_csrs. Qed.
Lemma qt_r_sstatus H : qt H r_sstatus (λ _, H).
Proof. lk_in r_sstatus. Qed.
Lemma qt_w_sstatus x : qt [] (w_sstatus x) (λ _, []).
Proof. intros HI s Hh. unfold w_sstatus, modify. rewrite Hh. by split_and!. Qed.
#[local] Hint Resolve qt_csr qt_upd_csrs qt_r_sstatus qt_w_sstatus : qt.
#[local] Hint Extern 1 (qt _ ?m _) =>
  lazymatch m with
  | r_sepc => apply qt_csr | r_scause => apply qt_csr | r_stval => apply qt_csr
  | r_satp => apply qt_csr | r_sip => apply qt_csr | r_tp => apply qt_csr
  | w_sepc _ => apply qt_upd_csrs | w_stvec _ => apply qt_upd_csrs | w_sip _ => apply qt_upd_csrs
  end : qt.
Lemma qt_cpuid H : qt H cpuid (λ _, H).
Proof. lk_in cpuid. Qed.
#[local] Hint Resolve qt_cpuid : qt.
Lemma qt_intr_on : qt [] intr_on (λ _, []).
Proof. lk_in intr_on. Qed.
Lemma qt_intr_off : qt [] intr_off (λ _, []).
Proof. lk_in intr_off. Qed.
Lemma qt_intr_get H : qt H intr_get (λ _, H).
Proof. lk_in intr_get. Qed.
Lemma qt_plic_claim H : qt H plic_claim (λ _, H).
Proof. lk_in plic_claim. Qed.
Lemma qt_plic_complete H irq : qt H (plic_complete irq) (λ _, H).
Proof. lk_in plic_complete. Qed.
Lemma qt_upd_ticks H f : qt H (upd_ticks f) (λ _, H).
Proof. lk_in upd_ticks. Qed.
#[local] Hint Resolve qt_intr_on qt_intr_off qt_intr_get qt_plic_claim qt_plic_complete qt_upd_ticks : qt.

Lemma bt_syscall p : bt p [] syscall (λ _, []).
Proof.
  unfold syscall. apply bt_myproc. eapply bt_bind; [lk|]. intros a7. cbv beta zeta.
  destruct (syscalls (i32 a7)) as [f|] eqn:E; [pose proof (bt_syscalls p _ _ E)|]; lks.
Qed.
#[local] Hint Resolve bt_syscall : bt.
Lemma bt_clockintr p : bt p [] clockintr (λ _, []).
Proof. lks_in clockintr. Qed.
#[local] Hint Resolve bt_clockintr : bt.
Lemma bt_devintr p : bt p [] devintr (λ _, []).
Proof. lks_in devintr. Qed.
#[local] Hint Resolve bt_devintr : bt.
Lemma qt_usertrapret : qt [] usertrapret (λ _, []).
Proof. lk_in usertrapret. Qed.
#[local] Hint Resolve qt_usertrapret : qt.
Lemma bt_usertrap p : bt p [] usertrap (λ _, []).
Proof. lks_in usertrap. Qed.
Lemma bt_kerneltrap p : bt p [] kerneltrap (λ _, []).
Proof. lks_in kerneltrap. Qed.
Lemma bt_forkret p : bt p [LProc p] forkret (λ _, []).
Proof.
  unfold forkret. apply bt_myproc. eapply bt_bind; [lk|]. intros ?. eapply bt_bind; [lk|]. intros first. cbv beta.
  eapply (bt_bind p [] _ _ (λ _, [])); [|lks]. apply bt_when. intros _. eapply (bt_bind p [] _ _ (λ _, [])); [|lks].
  intros _ s Hh Hc. cbn. split_and!; [done|by split|done|lk_side].
Qed.

End trap.

(** Process 0 of the boot state. *)
Section witness.
#[local] Existing Instance sync_disk.
#[local] Existing Instance one_wakeup.
#[local] Instance no_regs : VirtioRegs := {| virtio_reg := λ _, 0; disk_pages := 0 |}.
#[local] Instance idle_uart : UartDev := {| uart_poll := id |}.

End witness.
