(* ===== verification/System.v ===== *)
(** * The system: scheduler, kernel threads and user programs on a hart

    The scheduler of kernel/proc.c hands the CPU to a process, whose kernel
    thread goes on from its last [swtch] and returns to user space; the program
    runs there until the next trap, which [usertrap] handles.  The thread gives
    the CPU back to the scheduler where the kernel's code calls [swtch].

    What a program and the devices do between two traps is arbitrary: an action
    changes the state in any way that leaves the kernel's locks and the table of
    processes alone. *)

From Stdlib Require Import Sorted.
From S2P Require Import Prelude Memory Params State CString Riscv Sched Kalloc Vm Block Bio BioInit Log Uart Console Fs Pipe File Proc Exec.
From S2P Require Import Sysproc Sysfile Virtio Trap SchedSpec Disc DiscFs DiscSys.

(** The rest of a kernel thread, up to its return to user space. *)
Abbreviation cont := (kst → outcome kst user_return).

(** The threads that wait for the CPU, by the entry of the table of processes,
    with the process they belong to. *)
Definition pool : Type := nat → option (Z * cont).

Definition park (P : pool) (p : nat) (pid : Z) (k : cont) : pool :=
  λ q, if decide (q = p) then Some (pid, k) else P q.

Definition user_act (f : kst → kst) : Prop := ∀ s, k_held (f s) = k_held s ∧ k_proc (f s) = k_proc s.

Inductive stop : Type := NoAct | NoFuel | Panicked (msg : string) (s : kst).

Section system.
Context `{Ki : KernelImage} `{Dr : DiskRw} `{Ua : UartDev} `{Wf : WaitFuel} `{Vr : VirtioRegs}.

(** The thread of process [p]: a new process starts in [forkret], as [allocproc]
    makes it. *)
Definition resume (P : pool) (p : nat) : cont := λ s,
  match P p with
  | Some (pid, k) => if pid =? p_pid (get_proc s p) then k s else forkret s
  | None => forkret s
  end.

(** The turn of a process: each return to user space is followed by the next
    action and a trap, until the thread switches. *)
Fixpoint turn (acts : list (kst → kst)) (o : outcome kst user_return) : list (kst → kst) * kst * cont + stop :=
  match o with
  | Swtch s k => inl (acts, s, k)
  | Panic msg s => inr (Panicked msg s)
  | OutOfFuel => inr NoFuel
  | Done _ s =>
      match acts with
      | [] => inr NoAct
      | f :: acts => turn acts (usertrap (f s))
      end
  end.

(** The scheduler's computation [o] with the processes: those that get the CPU,
    in order, and how it ends. *)
Fixpoint drive_sys {A} (acts : list (kst → kst)) (P : pool) (o : outcome kst A) :
    list nat * (list (kst → kst) * pool * A * kst + stop) :=
  match o with
  | Done a s => ([], inl (acts, P, a, s))
  | Panic msg s => ([], inr (Panicked msg s))
  | OutOfFuel => ([], inr NoFuel)
  | Swtch s k =>
      let p := ps_cur (k_proc s) in
      match turn acts (resume P p s) with
      | inl (acts, s', kt) =>
          let r := drive_sys acts (park P p (p_pid (get_proc s' p)) kt) (k s') in
          (p :: r.1, r.2)
      | inr e => ([p], inr e)
      end
  end.

(** ** The invariant *)

Definition thread_ok (p : nat) (k : cont) : Prop :=
  ∀ s, k_held s = [LProc p] → ps_cur (k_proc s) = p → disc p s (λ _ s', k_held s' = []) (k s).

Definition pool_ok (P : pool) : Prop := ∀ p pid k, P p = Some (pid, k) → thread_ok p k.

Definition stop_ok (e : stop) : Prop :=
  match e with
  | Panicked msg s => msg ∈ lock_panics → msg = "sched locks" ∧ wedged s
  | NoAct | NoFuel => True
  end.

Lemma resume_ok P p : pool_ok P → thread_ok p (resume P p).
Proof.
  intros HP s Hh Hc. unfold resume. destruct (P p) as [[pid k]|] eqn:E; [|by_bt (bt_forkret p)].
  destruct (pid =? _); [by apply (HP _ _ _ E)|by_bt (bt_forkret p)].
Qed.

Lemma park_ok P p pid k : pool_ok P → thread_ok p k → pool_ok (park P p pid k).
Proof. intros HP Hk q pid' k'. unfold park. case_decide as E; [|apply HP]. by intros [= <- <-]; subst q. Qed.

(** How a turn of process [p] ends that starts in state [s0]. *)
Definition turn_ok (p : nat) (s0 : kst) (r : list (kst → kst) * kst * cont + stop) : Prop :=
  match r with
  | inl (acts, s, k) =>
      Forall user_act acts ∧ k_held s = [LProc p] ∧ guar p s0 s ∧ thread_ok p k
  | inr e => stop_ok e
  end.

Lemma turn_start p s0 s r : guar p s0 s → turn_ok p s r → turn_ok p s0 r.
Proof.
  intros Hg. destruct r as [[[acts s1] k]|e]; [|done]. cbn. intros (H1 & H2 & H3 & H4).
  split_and!; [done..|by eapply guar_trans|done].
Qed.

Lemma turn_disc p acts s0 o :
  Forall user_act acts → disc p s0 (λ _ s', k_held s' = []) o → turn_ok p s0 (turn acts o).
Proof.
  intros Ha. revert s0 o. induction Ha as [|f acts Hf Ha IH]; intros s0 [r s|msg s|s k|]; cbn; try done.
  - intros (Hh & Hc & Hr & Hg & Hk). by split_and!.
  - intros (Hc & Hg & Hh). destruct (Hf s) as [Hfh Hfp].
    eapply turn_start; [eapply guar_trans; [exact Hg|by apply guar_same]|]. apply IH. by_bt (bt_usertrap p).
  - intros (Hh & Hc & Hr & Hg & Hk). split_and!; [by constructor|done..].
Qed.

(** ** A process of the round *)

Lemma drive_sys_bind {A B} (m : K A) (f : A → K B) acts P s :
  drive_sys acts P ((m ≫= f) s) =
    match drive_sys acts P (m s) with
    | (tr, inl (acts', P', a, s')) => let r := drive_sys acts' P' (f a s') in (tr ++ r.1, r.2)
    | (tr, inr e) => (tr, inr e)
    end.
Proof.
  unfold mbind, M_bind. generalize (m s). clear. intros o. revert acts P.
  induction o as [a s|msg s|s k IH|]; intros acts P; cbn [drive_sys obind]; try done.
  - by destruct (drive_sys acts P (f a s)).
  - destruct (turn acts _) as [[[acts1 s1] kt]|e]; [|done]. rewrite IH.
    destruct (drive_sys acts1 _ (k s1)) as [tr [[[[acts2 P2] a] s2]|e]]; done.
Qed.

(** What holds when the scheduler has the CPU. *)
Record resting (acts : list (kst → kst)) (P : pool) (s : kst) : Prop := {
  rest_acts : Forall user_act acts;
  rest_pool : pool_ok P;
  rest_held : k_held s = [];
}.

(** Processes other than [p] that are ready stay so. *)
Lemma sched_one_sys acts P p s :
  resting acts P s → (p < length (ps_procs (k_proc s)))%nat →
  let r := drive_sys acts P (sched_one p s) in
  r.1 = (if decide (p_state (get_proc s p) = RUNNABLE) then [p] else []) ∧
  match r.2 with
  | inl (acts', P', _, s') => resting acts' P' s' ∧ guar p s s'
  | inr e => p_state (get_proc s p) = RUNNABLE ∧ stop_ok e
  end.
Proof.
  intros [Ha HP Hh] Hp. assert (Hn : unlocked (LProc p) s) by (by apply unlocked_nil).
  case_decide as Hst; [|rewrite sched_one_skip by done; cbn; split; [done|split; [done|apply guar_refl]]].
  destruct (sched_one_run p s Hn Hst) as (k & -> & Hk). cbn [drive_sys].
  change (ps_cur (k_proc (dispatched p s))) with p.
  pose proof (turn_disc p acts (dispatched p s) (resume P p (dispatched p s)) Ha) as Ht.
  destruct (turn acts (resume P p (dispatched p s))) as [[[acts1 s1] kt]|e].
  - destruct Ht as (Ha1 & Hh1 & Hg1 & Hkt); [apply resume_ok; [done|cbn; by rewrite Hh|done]|].
    rewrite (Hk s1 []) by (done || set_solver). cbn [drive_sys fst snd]. split; [done|]. split.
    + split; [done|by apply park_ok|done].
    + destruct (guar_upd p p (set_p_state RUNNING) s) as [HL0 HR0]; [by left|]. destruct Hg1 as [HL HR].
      apply (guar_trans _ _ (dispatched p s)); by split.
  - split; [done|]. split; [done|]. apply Ht. apply resume_ok; [done|cbn; by rewrite Hh|done].
Qed.

(** ** Rounds *)

Definition rested (r : list (kst → kst) * pool * unit * kst + stop) : Prop :=
  match r with
  | inl (acts', P', _, s') => resting acts' P' s' ∧ length (ps_procs (k_proc s')) = NPROC
  | inr e => stop_ok e
  end.

Lemma round_from n z acts P s :
  resting acts P s → length (ps_procs (k_proc s)) = NPROC → (z + n = NPROC)%nat →
  let r := drive_sys acts P (for_each n (Z.of_nat z) (λ i, sched_one (Z.to_nat i)) s) in
  rested r.2 ∧ StronglySorted Nat.lt r.1 ∧ Forall (λ p, z <= p)%nat r.1 ∧
  ∀ p, (z <= p < NPROC)%nat → p_state (get_proc s p) = RUNNABLE →
    p ∈ r.1 ∨ ((∃ e, r.2 = inr e) ∧ Forall (λ q, q < p)%nat r.1).
Proof.
  revert z acts P s. induction n as [|n IH]; intros z acts P s Hr Hlen Hz.
  { cbn. split_and!; [done|done|constructor|constructor|lia]. }
  cbn [for_each]. rewrite drive_sys_bind, Nat2Z.id.
  destruct (sched_one_sys acts P z s Hr ltac:(lia)) as [Htr Hone].
  destruct (drive_sys acts P (sched_one z s)) as [tr [[[[acts1 P1] []] s1]|e]]; cbn [fst snd] in *; subst tr.
  - destruct Hone as [Hr1 [Hl1 Hq1]].
    destruct (IH (S z) acts1 P1 s1 Hr1 ltac:(congruence) ltac:(lia)) as (Hre & Hs & Hf & Hin).
    replace (Z.of_nat z + 1) with (Z.of_nat (S z)) by lia.
    set (r := drive_sys acts1 P1 _) in *. assert (Hf' : Forall (λ p, z < p)%nat r.1) by exact Hf.
    split; [exact Hre|]. split; [|split].
    + case_decide; cbn [app]; [by constructor|done].
    + case_decide; cbn [app]; [constructor; [lia|]|]; (eapply Forall_impl; [exact Hf'|]; intros; simpl in *; lia).
    + intros p Hp Hst. destruct (decide (p = z)) as [->|Hne]; [rewrite decide_True by done; left; set_solver|].
      destruct (Hin p ltac:(lia) (Hq1 p ltac:(done) Hst)) as [Hi|[He Hall]]; [left; set_solver|].
      right. split; [done|]. case_decide; cbn [app]; [constructor; [lia|done]|done].
  - destruct Hone as [Hst Hstop]. rewrite decide_True by done. split; [done|]. split; [repeat constructor|].
    split; [by repeat constructor|]. intros p Hp Hpr. destruct (decide (p = z)) as [->|Hne]; [left; set_solver|].
    right. split; [by eexists|]. repeat constructor. lia.
Qed.

(** C10: Fairness of the scheduler over the kernel's own threads: whatever the
    programs and devices do between traps, a round of the scheduler gives the CPU
    to processes in the order of the table, at most once each, and to every process
    that is ready when the round starts; if the round does not end, since a process
    keeps the CPU, runs out of fuel or panics, all the processes served so far come
    before those that wait.  When it ends no lock is held and every thread that
    waits for the CPU is disciplined, so that the next round behaves the same. *)
Theorem system_round_fair acts P s :
  Forall user_act acts → pool_ok P → k_held s = [] → length (ps_procs (k_proc s)) = NPROC →
  let r := drive_sys acts P (sched_round s) in
  StronglySorted Nat.lt r.1 ∧
  (∀ p, (p < NPROC)%nat → p_state (get_proc s p) = RUNNABLE →
    p ∈ r.1 ∨ ((∃ e, r.2 = inr e) ∧ Forall (λ q, q < p)%nat r.1)) ∧
  match r.2 with
  | inl (acts', P', _, s') =>
      Forall user_act acts' ∧ pool_ok P' ∧ k_held s' = [] ∧ length (ps_procs (k_proc s')) = NPROC
  | inr (Panicked msg s') => msg ∈ lock_panics → msg = "sched locks" ∧ wedged s'
  | inr _ => True
  end.
Proof.
  intros Ha HP Hh Hlen.
  destruct (round_from NPROC 0 acts P s (Build_resting _ _ _ Ha HP Hh) Hlen eq_refl) as (Hre & Hs & _ & Hin).
  split; [exact Hs|]. split; [intros p Hp; apply Hin; lia|].
  unfold sched_round. change 0 with (Z.of_nat 0).
  destruct (drive_sys _ _ _).2 as [[[[acts' P'] []] s']|[| |msg s']]; [|done..].
  destruct Hre as [[? ? ?] ?]. by split_and!.
Qed.

(** ** The scheduler *)

Lemma intr_on_run s : k_held s = [] → ∃ x, intr_on s = Done tt (set_csrs x s).
Proof.
  intros Hh. unfold intr_on, r_sstatus, w_sstatus. run_by reflexivity. unfold modify. rewrite Hh. by eexists.
Qed.

Lemma scheduler_loop_sys rounds acts P s :
  resting acts P s → length (ps_procs (k_proc s)) = NPROC →
  ∃ e, (drive_sys acts P (scheduler_loop rounds s)).2 = inr e ∧ stop_ok e.
Proof.
  revert acts P s. induction rounds as [|n IH]; intros acts P s Hr Hlen; cbn [scheduler_loop]; [by exists NoFuel|].
  destruct (intr_on_run s) as (x & E); [by destruct Hr|]. rewrite (bind_Done _ _ _ _ _ E), drive_sys_bind.
  set (s1 := set_csrs _ s).
  destruct (round_from NPROC 0 acts P s1) as (Hre & _); [by destruct Hr|done|done|].
  unfold sched_round. change 0 with (Z.of_nat 0).
  destruct (drive_sys acts P _) as [tr [[[[acts' P'] []] s']|e]]; cbn [fst snd] in *; [|by exists e].
  destruct Hre as [Hr' Hl']. apply (IH acts' P' s' Hr' Hl').
Qed.

(** C15: The kernel never panics about its locks.  From a state with no lock held
    and no thread waiting, the scheduler runs the processes for any number of
    rounds, whatever programs and devices do between the traps; if the run ends in
    a panic, it is not one of [acquire], [release], [pop_off] or [sched] (a lock taken
    twice or not held, interrupts on while a lock is held, the CPU given up with
    another lock, as a running process or with interrupts on), unless [iput] met
    an inode with a single reference that is locked. *)
Theorem scheduler_lock_safe acts rounds s :
  Forall user_act acts → k_held s = [] → length (ps_procs (k_proc s)) = NPROC →
  ∃ e, (drive_sys acts (λ _, None) (scheduler rounds s)).2 = inr e ∧
    match e with
    | Panicked msg s' => msg ∈ lock_panics → msg = "sched locks" ∧ wedged s'
    | NoAct | NoFuel => True
    end.
Proof.
  intros Ha Hh Hlen. unfold scheduler. run_by reflexivity.
  destruct (scheduler_loop_sys rounds acts (λ _, None) (set_cur NOPROC s)) as (e & He & Hok); [by split|done|].
  exists e. by destruct e.
Qed.
End system.

(** Processes 3 and 5 are ready, and a program that makes a system call. *)
Section witness.
#[local] Existing Instance sync_disk.
#[local] Existing Instance one_wakeup.
#[local] Existing Instance no_regs.
#[local] Existing Instance idle_uart.

Definition trap_act (s : kst) : kst := set_csrs (mk_csrs 0 0 8 0 0 0 0 0) s.

Lemma system_round_fair_witness : let r := drive_sys [trap_act] (λ _, None) (sched_round round_state) in
  StronglySorted Nat.lt r.1 ∧ (3%nat ∈ r.1 ∨ Forall (λ q, q < 3)%nat r.1).
Proof.
  destruct (system_round_fair [trap_act] (λ _, None) round_state) as (Hs & Hin & _).
  - repeat constructor.
  - done.
  - reflexivity.
  - reflexivity.
  - split; [exact Hs|]. destruct (Hin 3%nat) as [H|[_ H]]; [unfold NPROC; lia|reflexivity|by left|by right].
Defined.

Lemma scheduler_lock_safe_witness : ∃ e, (drive_sys [trap_act] (λ _, None) (scheduler 2 round_state)).2 = inr e.
Proof.
  destruct (scheduler_lock_safe [trap_act] 2 round_state) as (e & He & _).
  - repeat constructor.
  - reflexivity.
  - reflexivity.
  - exists e. exact He.
Defined.
End witness.
