(* ===== verification/UserSys.v ===== *)
(** * User programs on the kernel

    The programs of user/ run on the kernel's code: a system call puts its
    arguments into the memory and the registers of the process and traps,
    [usertrap] handles it, and the program goes on with what it finds in its
    registers and memory when the kernel returns.  Processes share the hart by
    the kernel's own scheduler.

    A program keeps the strings and buffers it passes to the kernel at fixed
    addresses of its memory: strings at 0 and 512, buffers at 4096. *)

From S2P Require Import Prelude Memory Params State CString Riscv Sched Kalloc Vm Block Bio Log Uart Console Fs Pipe File Proc Exec.
From S2P Require Import Sysproc Sysfile Virtio Trap User.

Definition STR0 : Z := 0.
Definition STR1 : Z := 512.
Definition BUF0 : Z := 4096.

(** A register as a signed number. *)
Definition s64 (x : Z) : Z := if x <? 2 ^ 63 then x else x - 2 ^ 64.

Section usersys.
Context `{Ki : KernelImage} `{Dr : DiskRw} `{Ua : UartDev} `{Wf : WaitFuel} `{Vr : VirtioRegs}.

(** ** From user space into the kernel *)

(** The process stores to its memory, through its page table. *)
Definition user_store (va : Z) (l : list Z) : K unit :=
  p ← myproc;
  pt ← proc_get p p_pagetable;
  _ ← copyout pt va l (Z.of_nat (length l));
  mret tt.

Definition user_load (va n : Z) (s : kst) : list Z :=
  match copyin (p_pagetable (get_proc s (ps_cur (k_proc s)))) va n s with
  | Done r _ => r.2
  | _ => []
  end.

(** The hart leaves user space: SPP says where it was, and interrupts are off
    (the [sret] that entered user space had moved SPIE to SIE, the trap moves it
    back). *)
Definition trap_from_user (scause stval : Z) : K unit :=
  upd_csrs (λ c, mk_csrs (Z.ldiff (c_sstatus c) (Z.lor SSTATUS_SPP SSTATUS_SIE)) (c_sepc c) scause stval (c_stvec c) (c_satp c) (c_sip c) (c_tp c)).

(** The code of user/usys.pl and [uservec]: the registers are in the trapframe. *)
Definition ecall (num a0 a1 a2 : Z) : K unit :=
  p ← myproc;
  tf_set p TF_a7 num;;
  tf_set p TF_a0 (u64 a0);;
  tf_set p TF_a1 (u64 a1);;
  tf_set p TF_a2 (u64 a2);;
  trap_from_user 8 0.

Definition user_str (va : Z) (l : list Z) : K unit := user_store va (l ++ [0]).

(** The strings of [argv] one behind the other, and the array of their addresses. *)
Fixpoint arg_addrs (a : Z) (argv : list (list Z)) : list Z :=
  match argv with
  | [] => []
  | x :: argv => a :: arg_addrs (a + Z.of_nat (length x) + 1) argv
  end.

Definition user_argv (argv : list (list Z)) : K unit :=
  user_store BUF0 (concat (map (le_enc 8) (arg_addrs (BUF0 + 512) argv ++ [0])));;
  user_store (BUF0 + 512) (concat (map (λ x, x ++ [0]) argv)).

(** An instruction that accesses one byte: what it finds, or the fault. *)
Definition user_access {X} (a scause : Z) (m : Z → K X) : K (option X) :=
  p ← myproc;
  pt ← proc_get p p_pagetable;
  pa ← (if a <? 0 then mret 0 else walkaddr pt (PGROUNDDOWN a));
  if pa =? 0 then trap_from_user scause a;; mret None
  else x ← m (pa + a mod PGSIZE); mret (Some x).

Definition trapping {X} (m : K unit) : K (option X) := m;; mret None.

(** The instructions of a call up to the trap; [Some] when it needs none. *)
Definition ask_raw (c : rawcall) : K (option Z) :=
  match c with
  | WriteAt fd a n => trapping (ecall SYS_write fd a n)
  | ReadAt fd a n => trapping (ecall SYS_read fd a n)
  | OpenAt a mode => trapping (ecall SYS_open a mode 0)
  | UnlinkAt a => trapping (ecall SYS_unlink a 0 0)
  | LinkAt a b => trapping (ecall SYS_link a b 0)
  | LinkTo old a => trapping (user_str STR0 old;; ecall SYS_link STR0 a 0)
  | PipeAt a => trapping (ecall SYS_pipe a 0 0)
  | ExecAt a argv => trapping (user_argv argv;; ecall SYS_exec a BUF0 0)
  | ExecPtrs path argv =>
      trapping (user_str STR0 path;; user_store BUF0 (concat (map (le_enc 8) (argv ++ [0])));; ecall SYS_exec STR0 BUF0 0)
  | RegSp => p ← myproc; sp ← tf_get p TF_sp; mret (Some sp)
  end.

Definition ask {X : Set} (r : sysreq X) : K (option X) :=
  match r with
  | RFork => trapping (ecall SYS_fork 0 0 0)
  | RWait => trapping (ecall SYS_wait 0 0 0)
  | RWaitStatus => trapping (ecall SYS_wait BUF0 0 0)
  | RPipe => trapping (ecall SYS_pipe BUF0 0 0)
  | RWrite fd bytes => trapping (user_store BUF0 bytes;; ecall SYS_write fd BUF0 (Z.of_nat (length bytes)))
  | RRead fd n => trapping (ecall SYS_read fd BUF0 n)
  | RClose fd => trapping (ecall SYS_close fd 0 0)
  | RKill pid => trapping (ecall SYS_kill pid 0 0)
  | RExec path argv => trapping (user_str STR0 path;; user_argv argv;; ecall SYS_exec STR0 BUF0 0)
  | ROpen path mode => trapping (user_str STR0 path;; ecall SYS_open STR0 mode 0)
  | RMknod path major minor => trapping (user_str STR0 path;; ecall SYS_mknod STR0 major minor)
  | RUnlink path => trapping (user_str STR0 path;; ecall SYS_unlink STR0 0 0)
  | RFstat fd => trapping (ecall SYS_fstat fd BUF0 0)
  | RLink old new => trapping (user_str STR0 old;; user_str STR1 new;; ecall SYS_link STR0 STR1 0)
  | RMkdir path => trapping (user_str STR0 path;; ecall SYS_mkdir STR0 0 0)
  | RChdir path => trapping (user_str STR0 path;; ecall SYS_chdir STR0 0 0)
  | RDup fd => trapping (ecall SYS_dup fd 0 0)
  | RGetpid => trapping (ecall SYS_getpid 0 0 0)
  | RSbrk n => trapping (ecall SYS_sbrk n 0 0)
  | RSleep n => trapping (ecall SYS_sleep n 0 0)
  | RLoad a => user_access a 13 (λ pa, gets (λ s, rd (get_mem s) pa))
  | RStore a v => user_access a 15 (λ pa, put_bytes pa [u8 v];; mret v)
  | RRaw c => ask_raw c
  end.

(** ** Back in user space *)

Definition reg_a0 (s : kst) : Z :=
  match tf_get (ps_cur (k_proc s)) TF_a0 s with Done v _ => s64 v | _ => 0 end.

Definition word_at (s : kst) (va : Z) : Z := i32 (le_dec (user_load va 4 s)).

Definition dec_ustat (l : list Z) : ustat :=
  mk_ustat (i32 (get32 l 0)) (get32 l 4) (i16 (get16 l 8)) (i16 (get16 l 10)) (le_dec (take 8 (drop 16 l))).

(** What the program finds when the call returns. *)
Definition found {X : Set} (r : sysreq X) (s : kst) : X :=
  let a0 := reg_a0 s in
  match r with
  | RWaitStatus => (a0, if a0 <? 0 then None else Some (word_at s BUF0))
  | RPipe => (a0, (word_at s BUF0, word_at s (BUF0 + 4)))
  | RRead _ _ => (a0, user_load BUF0 a0 s)
  | RFstat _ => (a0, dec_ustat (user_load BUF0 24 s))
  | RFork | RWait | RWrite _ _ | RClose _ | RKill _ | RExec _ _ | ROpen _ _ | RMknod _ _ _ | RUnlink _ | RLink _ _
  | RMkdir _ | RChdir _ | RDup _ | RGetpid | RSbrk _ | RSleep _ | RLoad _ | RStore _ _ | RRaw _ => a0
  end.

(** ** Processes *)

(** The program of a process that is in the kernel, from the state of its
    return on. *)
Definition code : Type := kst → uprog unit.

(** The process with an identifier that waits for the CPU: its kernel thread
    and its program. *)
Record task : Type := mk_task { t_pid : Z; t_kern : kst → outcome kst user_return; t_user : code }.

Inductive ending : Type := Returns (s : kst) | Halts (msg : string) (s : kst) | Exhausted.

Definition is_fork {X} (r : sysreq X) : bool := match r with RFork => true | _ => false end.

(** The program that [exec] starts is not one of the model's. *)
Definition replaced {X} (r : sysreq X) (s : kst) : bool :=
  match r with
  | RExec _ _ | RRaw (ExecAt _ _) | RRaw (ExecPtrs _ _) => reg_a0 s >=? 0
  | _ => false
  end.

(** The child of [fork] starts in [forkret] and goes on with the same program. *)
Definition born (forks : bool) (c : code) (s : kst) (ts : list task) : list task :=
  if forks && (reg_a0 s >? 0) then mk_task (reg_a0 s) forkret c :: ts else ts.

(** A process runs in user space until its kernel thread gives up the CPU: the
    state of the switch and the tasks. *)
Fixpoint uturn (m : uprog unit) (s : kst) (ts : list task) : kst * list task + ending :=
  match m with
  | URet _ => inr (Returns s)
  | UFuel => inr Exhausted
  | UExit n =>
      match (ecall SYS_exit n 0 0;; usertrap) s with
      | Swtch s' k => inl (s', ts)
      | Done _ s' | Panic _ s' => inr (Halts "exit" s')
      | OutOfFuel => inr Exhausted
      end
  | UCall r k =>
      match ask r s with
      | Done (Some x) s1 => uturn (k x) s1 ts
      | Done None s1 =>
          match usertrap s1 with
          | Done _ s2 =>
              if replaced r s2 then inr (Halts "exec" s2)
              else uturn (k (found r s2)) s2 (born (is_fork r) (λ s, k (found r s)) s2 ts)
          | Swtch s2 kk => inl (s2, mk_task (p_pid (get_proc s2 (ps_cur (k_proc s2)))) kk (λ s, k (found r s)) :: ts)
          | Panic msg s2 => inr (Halts msg s2)
          | OutOfFuel => inr Exhausted
          end
      | Panic msg s1 => inr (Halts msg s1)
      | Swtch s1 _ => inr (Halts "ask" s1)
      | OutOfFuel => inr Exhausted
      end
  end.

Fixpoint take_task (pid : Z) (ts : list task) : option (task * list task) :=
  match ts with
  | [] => None
  | t :: ts => if t_pid t =? pid then Some (t, ts) else r ← take_task pid ts; Some (r.1, t :: r.2)
  end.

(** A process gets the CPU. *)
Definition uresume (s : kst) (ts : list task) : kst * list task + ending :=
  match take_task (p_pid (get_proc s (ps_cur (k_proc s)))) ts with
  | None => inr (Halts "no such process" s)
  | Some (t, ts) =>
      match t_kern t s with
      | Done _ s' => uturn (t_user t s') s' ts
      | Swtch s' k => inl (s', mk_task (t_pid t) k (t_user t) :: ts)
      | Panic msg s' => inr (Halts msg s')
      | OutOfFuel => inr Exhausted
      end
  end.

(** The scheduler's computation with the tasks. *)
Fixpoint udrive (ts : list task) (o : outcome kst unit) : ending :=
  match o with
  | Done _ s => Halts "scheduler" s
  | Panic msg s => Halts msg s
  | OutOfFuel => Exhausted
  | Swtch s k =>
      match uresume s ts with
      | inl (s', ts') => udrive ts' (k s')
      | inr e => e
      end
  end.
End usersys.
