(* ===== verification/UtRun.v ===== *)
(** * usertests on the kernel

    A small machine: memory for a few processes, and a disk that mkfs could have
    made, with files README, init and echo of a few bytes in its root directory.
    Its first process is the runner of user/usertests.c.  The tests run by
    evaluation of the kernel's code. *)

From S2P Require Import Prelude Memory Params State CString Riscv Sched Kalloc Vm Block Bio BioInit Log LogExample Uart Console Fs Pipe File Proc Exec.
From S2P Require Import Sysproc Sysfile Virtio Trap PageTable User Ulib UtFile UtProc UtMain UserSys.

#[local] Existing Instance sync_disk.
#[local] Instance ten_wakeups : WaitFuel := 10%nat.
#[local] Instance quiet_regs : VirtioRegs := {| virtio_reg := λ _, 0; disk_pages := 0x80020000 |}.

(** A UART that is always ready. *)
#[local] Instance fast_uart : UartDev := {|
  uart_poll u := mk_uart (uart_tx_buf u) (uart_tx_w u) (uart_tx_r u) 16 (ua_sent u) (ua_rx u) (ua_regs u) (ua_line u)
|}.

(** ** Memory *)

(** The pages of the machine. *)
Definition pg (i : Z) : Z := 0x80100000 + 4096 * i.

Fixpoint chain (l : list Z) (m : mem) : mem :=
  match l with
  | x :: ((y :: _) as l') => chain l' (store64 m x y)
  | _ => m
  end.

(** Page [a] of the physical memory with permissions. *)
Definition leaf_pte (a perm : Z) : Z := Z.lor (PA2PTE a) (Z.lor perm PTE_V).
Definition user_perm : Z := Z.lor (Z.lor (Z.lor PTE_W PTE_X) PTE_R) PTE_U.

(** The page table of the first process: its root and the two levels below it
    are pages 0 to 2, its two pages are 3 and 4; the trampoline and the trapframe
    (page 10) are mapped by pages 8 and 9.  Pages 11 to 90 are free. *)
Definition ram : mem := Eval vm_compute in
  chain (map (λ i, pg (Z.of_nat i)) (seq 11 80))
    (fold_left (λ m kv, store64 m kv.1 kv.2)
      ([ (pg 0, leaf_pte (pg 1) 0); (pg 1, leaf_pte (pg 2) 0);
         (pg 0 + 8 * PX 2 TRAMPOLINE, leaf_pte (pg 8) 0); (pg 8 + 8 * PX 1 TRAMPOLINE, leaf_pte (pg 9) 0);
         (pg 9 + 8 * PX 0 TRAMPOLINE, leaf_pte trampoline (Z.lor PTE_R PTE_X));
         (pg 9 + 8 * PX 0 TRAPFRAME, leaf_pte (pg 10) (Z.lor PTE_R PTE_W)) ] ++
       map (λ i, (pg 2 + 8 * i, leaf_pte (pg (3 + i)) user_perm)) [0; 1]) ∅).

(** ** The disk *)

Definition disk_ino (type nlink size a : Z) : list Z :=
  le_enc 2 type ++ le_enc 2 0 ++ le_enc 2 0 ++ le_enc 2 nlink ++ le_enc 4 size ++ le_enc 4 a ++ replicate 48 0.
Definition disk_dirent (i : Z) (name : string) : list Z :=
  le_enc 2 i ++ codes name ++ replicate (14 - length (codes name)) 0.
Definition to_block (l : list Z) : list Z := l ++ replicate (1024 - length l) 0.

Definition inode_block : list Z := Eval vm_compute in
  to_block (replicate 64 0 ++ disk_ino T_DIR 1 1024 46 ++ disk_ino T_FILE 1 16 47 ++ disk_ino T_FILE 1 16 48 ++ disk_ino T_FILE 1 16 49).
Definition root_block : list Z := Eval vm_compute in
  to_block (disk_dirent 1 "." ++ disk_dirent 1 ".." ++ disk_dirent 2 "README" ++ disk_dirent 3 "init" ++ disk_dirent 4 "echo").
Definition bitmap_block : list Z := Eval vm_compute in to_block (replicate 6 255 ++ [3]).
Definition file_block : list Z := Eval vm_compute in to_block (replicate 16 120).

(** ** The machine when the scheduler starts *)

Definition first_proc : proc :=
  set_p_state RUNNABLE (set_p_pid 1 (set_p_pagetable (pg 0) (set_p_trapframe (pg 10)
    (set_p_sz (2 * PGSIZE) (set_p_cwd (Some 0%nat) zero_proc))))).

Definition test_boot : kst :=
  set_disk (mk_dstate {[ 32 := inode_block; 45 := bitmap_block; 46 := root_block; 47 := file_block; 48 := file_block; 49 := file_block ]} [])
    (set_log (mk_log 2 30 0 false 1 0 (replicate 30 0)) (set_sb example_sb
      (set_itable (<[0%nat := set_i_ref 1 (set_i_id 1 1 zero_inode)]> (replicate NINODE zero_inode))
        (set_proc (mk_pstate (<[0%nat := first_proc]> (replicate NPROC zero_proc)) NPROC (Some 0%nat) 2 false)
           (put_freelist (pg 11) (put_mem ram boot_state)))))).

Definition test_machine : kst := match binit test_boot with Done _ s => s | _ => test_boot end.

(** ** A test *)

(** The first process runs a test the way [run] of usertests.c does, in a child. *)
Definition runner (t : (list Z → uprog unit) * string) : uprog unit :=
  ok ← ut_run 0 t.1 (codes t.2);
  if (ok : bool) then mret tt else u_exit 1.

(** Whether the test passes within a number of rounds of the scheduler: the
    child exits with status 0 and its parent finds that out; the kernel does not
    panic and no process waits for ever. *)
Definition passes (rounds : nat) (t : (list Z → uprog unit) * string) : bool :=
  match udrive [mk_task 1 forkret (λ _, runner t)] (scheduler rounds test_machine) with
  | Returns _ => true
  | _ => false
  end.

(** Tests of user/usertests.c pass on the kernel: the model's scheduler,
    [fork], [exit], [wait], traps, system calls, file system, log and page tables,
    run together on a concrete machine, make the runner report success for the tests
    of hard links, of a process that exits in a removed directory, of truncation, of
    the page below the stack, and of bad addresses in system calls. *)
Example usertests_pass :
  Forall (λ t, passes 8 t = true)
    [ (linktest, "linktest"); (exitiputtest 0, "exitiput"); (truncate1, "truncate1");
      (stacktest 0, "stacktest"); (ut_copyin, "copyin") ].
Proof. repeat (apply Forall_cons_2; [vm_compute; reflexivity|]). by apply Forall_nil_2. Qed.
